(* ===== verification/_CoqProject ===== *)
-Q . S2P
Prelude.v
Fsm.v
VpnTypes.v
PortRanges.v
Wire.v
UdpMux.v
UdpMuxProofs.v
UdpMuxInvariant.v
Icmp.v
IcmpProofs.v
DomainFilter.v
DomainFilterProofs.v
DataBuffer.v
MemfileBuffer.v
MemfileProofs.v
Statistics.v
VpnClient.v
ClientFrame.v
VpnClientProofs.v
SingleConnector.v
FallbackConnector.v
ConnectorLink.v
Vpn.v
VpnFsm.v
VpnManager.v
VpnSamples.v
VpnFsmProofs.v
VpnManagerProofs.v
VpnInvariant.v
VpnSafety.v
View.v
Tls.v
TlsProofs.v
Quic.v
QuicProofs.v
DomainExtractor.v
ExtractorProofs.v
Tunnel.v
TunnelMoves.v
TunnelInvariant.v
TunnelProofs.v
Socks5.v
Socks5Proofs.v
Socks5Requests.v
RingBuffer.v
RingBufferProofs.v
UpstreamMux.v
UpstreamMuxProofs.v
Http2.v
Http2Proofs.v
Http2Data.v
Http2Samples.v
