(* ===== verification/Prelude.v ===== *)
(** * TrustTunnel client: verification library

    The program is the core of a VPN client.  An application opens a VPN object,
    gives it a location with endpoints, and connects; the object pings the
    endpoints, drives a client that opens a session with the chosen one, recovers
    the session when it is lost, and decides what happens to connection requests
    meanwhile.  The sources are under [core/], [common/], [net/],
    [tcpip/] and [trusttunnel/].

    ** The parts and their models

    - [Prelude.v]: record update, fixed-width integers, lists, tactics and hints.
    - [Fsm.v]: the state machine engine ([common/src/fsm.cpp],
      [common/src/fsm_validation.cpp]): [perform_transition], [reset] and the
      validator of transition tables.
    - [VpnTypes.v], [PortRanges.v]: the data the parts exchange
      ([core/include/vpn/vpn.h], [net/include/net/utils.h]), and the port range sets
      of [core/src/utils.cpp].
    - [VpnClient.v]: the client ([core/src/vpn_client.cpp]).  Its state is the record
      [VpnClient]; a method is a function on it; what it tells the tunnel, the
      upstreams, the listeners and the application is the list [c_out]; what they
      answer comes from [ClientEnv]; a failed [assert] or a null pointer access is an
      entry of [c_faults].  [VpnClientProofs.v] has its invariant and properties,
      [ClientFrame.v] what its operations leave alone.
    - [SingleConnector.v], [FallbackConnector.v]: the endpoint connectors
      ([core/src/single_upstream_connector.cpp],
      [core/src/fallbackable_upstream_connector.cpp]).  The class [EndpointConnector]
      states what a connector owes its client; the connector with one upstream is an
      instance, and the connector with a fallback is one whenever the two it is made
      of are.  [ConnectorLink.v] links the client with any instance.
    - [Vpn.v], [VpnFsm.v], [VpnManager.v]: the VPN object, its state machine and the
      public interface ([core/src/vpn_manager.cpp], [core/src/vpn_fsm.cpp]), the
      event loop's task queue, the recovery clock and the postponed requests; and the
      whole system as one step function, [vpn_step].  [VpnSamples.v] has concrete
      runs; [VpnFsmProofs.v], [VpnManagerProofs.v], [VpnInvariant.v] and
      [VpnSafety.v] the proofs.
    - [DomainFilter.v], [DomainFilterProofs.v]: the exclusion list
      ([core/src/domain_filter.cpp]).
    - [Wire.v]: the packet reader and writer ([core/include/vpn/internal/wire_utils.h]).
    - [UdpMux.v], [UdpMuxProofs.v], [UdpMuxInvariant.v]: UDP over one stream of the
      endpoint ([core/src/http_udp_multiplexer.cpp]), with what the handler of a datagram
      calls before it returns.
    - [Icmp.v], [IcmpProofs.v]: ICMP echo over one stream
      ([core/src/http_icmp_multiplexer.cpp]) and the requests on the wire
      ([core/src/icmp_manager.cpp]).
    - [DataBuffer.v], [MemfileBuffer.v], [MemfileProofs.v]: the buffers of unread data
      ([core/src/memory_buffer.cpp], [core/src/memfile_buffer.cpp]).  The class
      [DataBuffer] is their interface; both buffers are instances.
    - [Statistics.v]: the counters of connections ([core/src/connection_statistics.cpp]).
    - [View.v], [Tls.v], [Quic.v], [DomainExtractor.v]: the search for the domain name in
      the first data of a connection ([core/src/domain_extractor.cpp]), with the reader of
      TLS records ([net/src/tls.cpp]) and the initial packets of QUIC
      ([net/src/quic_utils.cpp]).  Views are places in buffers with an identity, and a
      computation says which of its accesses were outside of a buffer or in one that is
      gone.  [TlsProofs.v], [QuicProofs.v] and [ExtractorProofs.v] have the proofs.
    - [Tunnel.v]: the tunnel ([core/src/tunnel.cpp], [core/src/vpn_connection.cpp]), which
      routes the connections of the listeners to the upstreams.  Connections are objects
      on a heap that two tables point to; the domain filter, the domain extractor of each
      connection, the ICMP manager and the counters are the models of their files; listeners, upstreams and the DNS parts
      answer through [TunnelEnv].  [tunnel_step] is the step of any input.
      [TunnelMoves.v] shows each operation to be a sequence of simple moves,
      [TunnelInvariant.v] checks the invariants on the moves, [TunnelProofs.v] has the
      migration of connections and a sample.
    - [Socks5.v]: the SOCKS5 listener ([net/src/socks5_listener.cpp]), by which
      applications ask for connections: the protocol, the authentication, the connections
      and the UDP relays with their tables.  Sockets and the handler of its events, which
      may close connections while it is called, answer through [SocksEnv]; [socks_step]
      is the step of any input.  [Socks5Proofs.v] has the authentication,
      [Socks5Requests.v] the requests and the packets.
    - [UpstreamMux.v], [UpstreamMuxProofs.v]: the multiplexer that spreads the connections
      over several sessions with the endpoint ([core/src/upstream_multiplexer.cpp]).  The
      sessions answer through [MuxEnv]; [mux_step] is the step of any input.
    - [RingBuffer.v], [RingBufferProofs.v]: the ring buffer of records in a file
      ([trusttunnel/src/persistent_ring_buffer.cpp]), down to its bytes and to the pieces in
      which the file is read and written.
    - [Http2.v]: the upstream over HTTP/2 ([core/src/http2_upstream.cpp]) and the session
      below it ([net/src/http2.cpp]), whose streams are the connections.  The multiplexers
      of UDP and ICMP and the buffers of unread data are the models of their files; nghttp2
      answers each call with a result and with callbacks, which may call it again; the reader
      of a connection answers with a result and with its calls of [update_flow_control] and
      [close_connection]; sockets and the rest answer through [H2Env]; [http2_step] is the
      step of any input.
      [Http2Proofs.v] has the tables and the ends of connections, [Http2Data.v] the data,
      [Http2Samples.v] concrete runs.

    ** What the theorems show

    - The engine and its tables: the validator accepts exactly the tables without
      dead entries or misplaced pseudo states, both tables of the program pass it,
      and no action casts the data of its event to another type: reading it under another
      type gives garbage ([Reinterpret]), and no step depends on the garbage.
    - The client: with upstream events at any time, in every state ([client_runs]) one of the two
      assertions of [vpn_upstream_handler] has failed, or the machine agrees with the
      connector, the deferred tasks and the upstream, and no assertion fails; the states in
      which these two have held are the [client_reachable] ones.  A step from them raises at most
      one session event, the one that matches the state change; connecting and
      disconnecting have the documented outcomes.
    - The connectors: a connector that was told to connect reports exactly once,
      whatever the upstreams do in whatever order; the race of two upstreams ends as
      it should; the fallback's timeout is bounded.  A client linked with a connector
      only does what the client model allows, so the client's assumptions on its
      connector are discharged.
    - The manager: its invariant holds in every state of the whole system in which those two
      assertions have held ([vpn_runs], [vpn_reachable]); from there, a fatal error ends the
      session and is told once;
      with the kill switch on no connection is let through outside the tunnel unless
      the routing rules force it; recovery is bounded and settles every postponed
      request; shutdown and stop leave nothing behind; the configuration is
      validated, completed and passed on as documented; certificates are accepted only
      when they should be.
    - The exclusion list: the answers for domain names and connections are those the
      documentation gives for the words of the list, but for a doubled [www.].
    - The wire formats: what is written reads back; streams of datagrams and replies
      are delivered completely and in order however the transport cuts them;
      connections and requests are conserved.
    - The tunnel: no table entry outlives its connection; in the general mode without
      exclusions nothing that did not ask for it goes past the VPN endpoint; a migrating
      connection keeps its data; health checks are paced; a connection whose client hello
      names an excluded host is moved past the endpoint, and the hello goes nowhere else.
    - The domain extractor: the name in a client hello is found however the hello is cut
      into packets, and in CRYPTO frames in any order; whatever is received, the parsers
      return and, but for one check that is missing and for two server hellos in one record,
      read their own buffers only.
    - The SOCKS5 listener: with credentials configured nothing is requested for a client
      that has not shown them, and the tables of the relays never dangle; a request is
      taken exactly when it is whole, however it arrives; the packets of UDP clients wait
      for the answer and are passed on in order.
    - The multiplexer of upstreams: its tables agree in every reachable state, and only the
      assertions on the time of a call can fail; connections
      are balanced as documented; one that waits for a session ends up open or is reported,
      once; a fatal error ends all sessions and is reported.
    - The ring buffer: without errors of the file system it is a bounded log, and an append
      that fails while there is room leaves the log as it was.
    - The upstream over HTTP/2: its tables agree in every reachable state, whatever nghttp2
      calls back, while the socket takes what is written, and no step forgets a connection
      without a report of its end; the data of a stream reaches its reader in order, through
      any buffer, while the reader turns the reading off and on, but for the one case in
      which a released buffer is written.
    - The buffers: what the reader gets is what the writer pushed and there was room for, in
      order, also through a file; and the counters: every byte is reported once.
    - Where the code does something else than its comments say, a theorem shows the run:
      [disconnected_with_live_session], [connect_fails_with_stale_error],
      [listen_returns_success_on_failure], [oversized_packet_is_not_skipped],
      [empty_datagram_waits], [refused_stream_error_stays], [shared_route_is_lost],
      [echo_key_lt_not_asymmetric], [www_dot_entry], [vector_push_erases_past_end],
      [short_read_corrupts], [failed_read_reorders], [one_way_statistics_are_dropped],
      [unnamed_hello_stays_on_fake], [completing_twice_dangles], [message_overruns_record],
      [second_hello_dangles], [sample_behind_packet], [host_headers],
      [refusal_reads_behind_request], [association_not_replied], [waiting_connection_is_lost],
      [fatal_error_goes_stale], [failed_append_replaces_oldest], [released_buffer_is_written],
      [authorization_error_is_lost], [missing_session_is_opened],
      [failed_goaway_forgets_connections], [failed_write_leaves_connection],
      [window_update_ends_connection], [session_ends_before_finalizer],
      [connected_over_failed_session], [doubled_www_is_lost], [echo_without_open_session] and others next to the parts
      they are about.

    ** Conventions

    An integer of [w] bits is a [Z], reduced by [uwrap] where it may wrap.  Bytes are
    [Z] in [0, 256).  Time is in the unit of the source, as a [Z].  Calls to code that
    is not part of these sources are arguments: environments ([ClientEnv], [VpnEnv]
    and the like) whose answers are arbitrary, or classes ([SocketAddressLib],
    [FilterLib], [LruTimeoutCache], [CertLib], [QuicCrypto], [QuicHeaders]) with the documented behaviour the code relies on.
    A hash table that is iterated over gives its order as an argument.

    Fuel: the loops that are not structural ([recv_loop], [process_loop], [match_loop],
    [read_loop], [copy_read], [copy_write] of the file buffer, [serv_names], [parse_loop],
    [crypto_frames], [quic_loop], [try_parsers], [write_loop] and [read_at_loop] of the ring
    buffer, [read_out_loop]) take fuel computed from their input, the
    length of the data or of the buffer and a constant, twice that, the number of parsers, or the length
    of the name plus one.  A turn of each loop makes its input shorter, and a loop that
    ran out would record a fault or give no result; the theorems show that no fault
    is recorded and that there is a result ([match_domain_ends]).  The budget of
    [read_data] and that of the [read_loop] of [Http2] are the bounds of the loops in the
    source.  Calls of nghttp2 nest as deep as [he_depth] says; below that it makes no
    callbacks, and the theorems hold for any depth.

    ** Not modelled

    - The HTTP/3, direct and fake upstreams, DNS, the other listeners, the pinger and the transport below them:
      drivers of sockets, lwIP, quiche and the DNS libraries.  Their events are inputs of the models here, and what they
      are told is an output.
    - The command line client, the platform adapters and the OS tunnel: system calls,
      configuration files and glue around the public interface.
    - Threads: a call of the public interface is one atomic step, which the locks and
      the event loop of the code provide for the calls that submit tasks.
    - Certificate verification and cryptography: calls of BoringSSL and ngtcp2.
    - Logging, and the texts of error messages where nothing depends on them. *)

From Stdlib Require Export ZArith Lia.
From stdpp Require Export base tactics gmap strings numbers.
From stdpp Require Export list.

#[global] Open Scope Z_scope.

(** ** Functional record update

    [Eta R] names the eta expansion of the record [R]; the setter of each of
    its fields is computed from it when a [r <| f := v |>] is elaborated.
    [x ▷ f] is postfix application, so that a C++ statement sequence on one
    object reads in program order. *)

Class Eta (R : Type) := eta_expand : R -> R.

Class Setter {R T : Type} (field : R -> T) := assign : T -> R -> R.

Ltac build_setter :=
  lazymatch goal with
  | |- @Setter ?R ?T ?field =>
      let inst := constr:(_ : Eta R) in
      let body := eval red in (@eta_expand R inst) in
      let body := eval hnf in body in
      lazymatch eval pattern field in body with
      | ?abstracted _ =>
          let setter := eval cbv beta in
            (fun (v : T) (r : R) => abstracted (fun _ : R => v) r) in
          exact setter
      end
  end.

#[export] Hint Extern 1 (Setter _) => build_setter : typeclass_instances.

Declare Scope update_scope.
Notation "r <| f := v |>" := (assign (field := f) v r)
  (at level 1, f at level 9, v at level 200, left associativity) : update_scope.
Notation "x ▷ f" := (f x)
  (at level 63, left associativity, only parsing) : update_scope.
#[global] Open Scope update_scope.

(** ** Fixed-width integers

    An unsigned integer of [w] bits is a [Z] in [0, 2^w); [uwrap] is the
    reduction every C++ arithmetic operation on the type ends with. *)

Definition uwrap (w x : Z) : Z := x mod 2 ^ w.

Definition UINT8_MAX : Z := 255.
Definition UINT16_MAX : Z := 65535.
Definition UINT32_MAX : Z := 4294967295.
Definition UINT64_MAX : Z := 18446744073709551615.

Definition in_width (w x : Z) : Prop := 0 <= x < 2 ^ w.

#[export] Instance in_width_dec w x : Decision (in_width w x).
Proof. unfold in_width. apply _. Defined.

Lemma uwrap_in_width w x : 0 <= w -> in_width w (uwrap w x).
Proof. intros Hw. apply Z.mod_pos_bound. apply Z.pow_pos_nonneg; lia. Qed.

Lemma uwrap_id w x : in_width w x -> uwrap w x = x.
Proof. intros Hx. apply Z.mod_small, Hx. Qed.

(** ** Lists with duplicates *)

Section Occurrences.
Context {A : Type} `{EqDecision A}.
Implicit Types (x y : A) (l : list A).

Fixpoint occ x l : nat :=
  match l with
  | [] => 0
  | y :: l' => if decide (y = x) then S (occ x l') else occ x l'
  end.

Fixpoint remove_first x l : list A :=
  match l with
  | [] => []
  | y :: l' => if decide (y = x) then l' else y :: remove_first x l'
  end.

Lemma occ_app x l1 l2 : occ x (l1 ++ l2) = (occ x l1 + occ x l2)%nat.
Proof. induction l1 as [|y l1 IH]; cbn; [done|]. destruct (decide (y = x)); lia. Qed.

Lemma occ_remove_first_eq x l : occ x (remove_first x l) = pred (occ x l).
Proof.
  induction l as [|y l IH]; cbn; [done|].
  destruct (decide (y = x)) as [->|]; [done|]. cbn. rewrite decide_False by done. done.
Qed.

Lemma occ_remove_first_ne x y l : x <> y -> occ x (remove_first y l) = occ x l.
Proof.
  intros Hne. induction l as [|z l IH]; cbn; [done|].
  destruct (decide (z = y)) as [->|]; [by rewrite decide_False|].
  cbn. by rewrite IH.
Qed.

Lemma occ_pos x l : x ∈ l <-> (0 < occ x l)%nat.
Proof.
  induction l as [|y l IH]; cbn; [set_solver by lia|].
  rewrite elem_of_cons, IH. destruct (decide (y = x)); [naive_solver lia|].
  split; [intros [?|?]|]; by auto.
Qed.
End Occurrences.

(** ** The order of hash tables *)

(** The keys of a table in the order in which the table happens to give them. *)
Definition in_table_order (order keys : list Z) : list Z :=
  let first := remove_dups (List.filter (fun k => bool_decide (k ∈ keys)) order) in
  first ++ List.filter (fun k => negb (bool_decide (k ∈ first))) keys.

Lemma elem_of_list_filter_bool (p : Z -> bool) k l : k ∈ List.filter p l <-> k ∈ l /\ p k = true.
Proof. by rewrite list_elem_of_In, filter_In, <- list_elem_of_In. Qed.

Lemma in_table_order_elem order keys k : k ∈ in_table_order order keys <-> k ∈ keys.
Proof.
  unfold in_table_order. set (first := remove_dups _).
  assert (k ∈ first <-> k ∈ order /\ k ∈ keys) as Hfirst.
  { subst first. rewrite elem_of_remove_dups, elem_of_list_filter_bool. split; intros [? H]; (split; [done|]).
    - by apply bool_decide_eq_true_1 in H.
    - by apply bool_decide_eq_true_2. }
  rewrite elem_of_app, elem_of_list_filter_bool. destruct (bool_decide_reflect (k ∈ first)) as [Hin|Hout]; cbn; tauto.
Qed.

Lemma in_table_order_NoDup order keys : NoDup keys -> NoDup (in_table_order order keys).
Proof.
  intros Hk. unfold in_table_order. apply NoDup_app. split_and!; [apply NoDup_remove_dups| |].
  - intros k Hf Hr. apply elem_of_list_filter_bool in Hr as [_ Hr]. by apply negb_true_iff, bool_decide_eq_false in Hr.
  - apply NoDup_ListNoDup, List.NoDup_filter. by apply NoDup_ListNoDup.
Qed.

(** ** Tactics shared by the component files *)

(** Case analysis on the scrutinee of every [match] and [if] in the goal. *)
Ltac split_match :=
  repeat match goal with
    | |- context [match ?x with _ => _ end] =>
        lazymatch x with
        | context [match _ with _ => _ end] => fail
        | _ => destruct x eqn:?
        end
    end.

(** The same in the hypotheses. *)
Ltac split_match_hyp :=
  repeat match goal with
    | H : context [match ?x with _ => _ end] |- _ =>
        lazymatch x with
        | context [match _ with _ => _ end] => fail
        | _ => destruct x eqn:?
        end
    end.

(** Boolean tests of the source as propositions. *)
Ltac bool_to_prop :=
  repeat match goal with
    | H : (_ && _)%bool = true |- _ => apply andb_true_iff in H as [? ?]
    | H : (_ || _)%bool = false |- _ => apply orb_false_iff in H as [? ?]
    | H : negb _ = true |- _ => apply negb_true_iff in H
    | H : negb _ = false |- _ => apply negb_false_iff in H
    | H : (_ =? _) = true |- _ => apply Z.eqb_eq in H
    | H : (_ =? _) = false |- _ => apply Z.eqb_neq in H
    | H : (_ <? _) = true |- _ => apply Z.ltb_lt in H
    | H : (_ <? _) = false |- _ => apply Z.ltb_ge in H
    | H : (_ <=? _) = true |- _ => apply Z.leb_le in H
    | H : (_ <=? _) = false |- _ => apply Z.leb_gt in H
    end.

(** Lemmas that client proofs may use without naming them. *)
Create HintDb vpn discriminated.
#[export] Hint Resolve uwrap_in_width : vpn.
