(* ===== verification/Fsm.v ===== *)
(** * The finite state machine engine

    Models [common/include/vpn/fsm.h], [common/src/fsm.cpp] and
    [common/src/fsm_validation.cpp]: the transition table, the interpreter
    [perform_transition] with its recursion guard, and the table validator the
    constructor runs.

    The C++ object lives inside the context its callbacks receive
    ([vpn->fsm], [self->fsm]), and the callbacks read it back through
    [get_state].  [FsmCtx] is that arrangement: a context type with the
    machine's two mutable members in it. *)

From S2P Require Import Prelude.

(** Mutable members of [class Fsm]. *)
Record FsmCell := mkFsmCell {
  m_current_state : Z;
  m_recursive : bool;
}.
#[export] Instance eta_FsmCell : Eta FsmCell := fun r =>
  mkFsmCell (m_current_state r) (m_recursive r).

Definition ANY_SOURCE_STATE : Z := UINT32_MAX.
Definition SAME_TARGET_STATE : Z := UINT32_MAX - 1.

(** [fail_assert] records an [assert] that does not hold and goes on, which is
    what a release build does; a debug build stops there. *)
Class FsmCtx (C : Type) := {
  get_fsm : C -> FsmCell;
  put_fsm : FsmCell -> C -> C;
  fail_assert : C -> C;
  get_put_fsm : forall f c, get_fsm (put_fsm f c) = f;
  put_get_fsm : forall c, put_fsm (get_fsm c) c = c;
  put_put_fsm : forall f g c, put_fsm f (put_fsm g c) = put_fsm f c;
  get_fail_assert : forall c, get_fsm (fail_assert c) = get_fsm c;
}.

(** A table entry.  [G] and [A] are the sets of condition and action functions
    the table may name; a null pointer ([ANYWAY], [OTHERWISE], [DO_NOTHING]) is
    [None]. *)
Record FsmTransitionEntry (G A : Type) := mkEntry {
  src_state : Z;
  event : Z;
  condition : option G;
  before_transition : option A;
  target_state : Z;
  after_transition : option A;
}.
Arguments mkEntry {G A} _ _ _ _ _ _.
Arguments src_state {G A} _.
Arguments event {G A} _.
Arguments condition {G A} _.
Arguments before_transition {G A} _.
Arguments target_state {G A} _.
Arguments after_transition {G A} _.

Definition ANYWAY {G : Type} : option G := None.
Definition OTHERWISE {G : Type} : option G := None.
Definition DO_NOTHING {A : Type} : option A := None.

Abbreviation FsmTransitionTable G A := (list (FsmTransitionEntry G A)).

(** ** The interpreter *)

Section Engine.
Context {C D G A : Type} `{FsmCtx C}.
(** What the function pointers of the table do. *)
Context (eval_condition : G -> C -> D -> bool) (run_action : A -> D -> C -> C).

Implicit Types (c : C) (e : FsmTransitionEntry G A) (data : D).

Definition get_state c : Z := m_current_state (get_fsm c).

Definition set_recursive (b : bool) c : C :=
  put_fsm ((get_fsm c) <| m_recursive := b |>) c.

Definition set_state (s : Z) c : C :=
  put_fsm ((get_fsm c) <| m_current_state := s |>) c.

Definition run_opt (a : option A) data c : C :=
  match a with
  | Some f => run_action f data c
  | None => c
  end.

(** The three [continue] tests of the loop, in the order of the source. *)
Definition entry_matches (ev : Z) data c e : bool :=
  if negb (get_state c =? src_state e) && negb (src_state e =? ANY_SOURCE_STATE) then false
  else if negb (ev =? event e) then false
  else match condition e with
       | Some g => eval_condition g c data
       | None => true
       end.

Definition take_entry data e c : C :=
  let c := run_opt (before_transition e) data c in
  let c := if negb (target_state e =? SAME_TARGET_STATE)
           then set_state (target_state e) c else c in
  let c := set_recursive false c in
  run_opt (after_transition e) data c.

Fixpoint run_table (ev : Z) data (t : FsmTransitionTable G A) c : C :=
  match t with
  | [] => c
  | e :: t' =>
      if entry_matches ev data c e then take_entry data e c
      else run_table ev data t' c
  end.

Definition perform_transition (t : FsmTransitionTable G A) (ev : Z) data c : C :=
  if m_recursive (get_fsm c) then fail_assert c
  else
    let c := set_recursive true c in
    let c := run_table ev data t c in
    set_recursive false c.

Definition reset (initial_state : Z) c : C :=
  put_fsm (mkFsmCell initial_state false) c.

(** The entry [perform_transition] takes: the first one that matches. *)
Fixpoint first_match (ev : Z) data (t : FsmTransitionTable G A) c : option (FsmTransitionEntry G A) :=
  match t with
  | [] => None
  | e :: t' => if entry_matches ev data c e then Some e else first_match ev data t' c
  end.

Lemma get_state_set_recursive b c : get_state (set_recursive b c) = get_state c.
Proof. unfold get_state, set_recursive. by rewrite get_put_fsm. Qed.

Lemma recursive_set_recursive b c : m_recursive (get_fsm (set_recursive b c)) = b.
Proof. unfold set_recursive. by rewrite get_put_fsm. Qed.

Lemma run_table_first_match ev data t c :
  run_table ev data t c =
  match first_match ev data t c with
  | Some e => take_entry data e c
  | None => c
  end.
Proof.
  induction t as [|e t IH]; cbn; [done|].
  destruct (entry_matches ev data c e); [done|apply IH].
Qed.

Lemma perform_transition_not_recursive t ev data c :
  m_recursive (get_fsm c) = false ->
  perform_transition t ev data c =
  match first_match ev data t (set_recursive true c) with
  | Some e => set_recursive false (take_entry data e (set_recursive true c))
  | None => c
  end.
Proof.
  intros Hr. unfold perform_transition. rewrite Hr, run_table_first_match.
  destruct (first_match _ _ _ _) as [e|]; [done|].
  unfold set_recursive. rewrite get_put_fsm, put_put_fsm.
  trans (put_fsm (get_fsm c) c); [f_equal|apply put_get_fsm].
  destruct (get_fsm c); cbn in *. by subst.
Qed.

Lemma first_match_Some ev data t c e :
  first_match ev data t c = Some e -> e ∈ t /\ entry_matches ev data c e = true.
Proof.
  induction t as [|e' t IH]; cbn; [done|]. rewrite elem_of_cons.
  destruct (entry_matches ev data c e') eqn:Hm; [intros [= ->]; auto|]. intros [? ?]%IH. auto.
Qed.

(** Only the entries of the event count. *)
Fixpoint events_of (ev : Z) (t : FsmTransitionTable G A) : FsmTransitionTable G A :=
  match t with
  | [] => []
  | e :: t' => if ev =? event e then e :: events_of ev t' else events_of ev t'
  end.

Lemma first_match_events_of ev data t c :
  first_match ev data t c = first_match ev data (events_of ev t) c.
Proof.
  induction t as [|e t IH]; cbn; [done|]. destruct (ev =? event e) eqn:He; cbn; rewrite IH; [done|].
  unfold entry_matches. rewrite He. by destruct (_ && _).
Qed.

(** The guard is raised and lowered around an entry that does nothing. *)
Lemma take_entry_noop data e c :
  m_recursive (get_fsm c) = false ->
  before_transition e = None -> target_state e = SAME_TARGET_STATE -> after_transition e = None ->
  set_recursive false (take_entry data e (set_recursive true c)) = c.
Proof.
  intros Hr Hb Ht Ha. unfold take_entry, run_opt. rewrite Hb, Ht, Ha, Z.eqb_refl. cbn [negb].
  unfold set_recursive. rewrite !get_put_fsm, !put_put_fsm.
  trans (put_fsm (get_fsm c) c); [f_equal|apply put_get_fsm].
  destruct (get_fsm c); cbn in *. by subst.
Qed.

(** Without conditions the entry depends on the state and the event only. *)
Fixpoint find_entry (st ev : Z) (t : FsmTransitionTable G A) : option (FsmTransitionEntry G A) :=
  match t with
  | [] => None
  | e :: t' =>
      if ((st =? src_state e) || (src_state e =? ANY_SOURCE_STATE)) && (ev =? event e)
      then Some e else find_entry st ev t'
  end.

Lemma first_match_find_entry ev data t c :
  Forall (fun e => condition e = None) t ->
  first_match ev data t c = find_entry (get_state c) ev t.
Proof.
  induction 1 as [|e t He Ht IH]; cbn; [done|]. unfold entry_matches.
  rewrite He, IH. by destruct (_ =? src_state e), (src_state e =? _), (ev =? _).
Qed.

Lemma find_entry_Some st ev t e :
  find_entry st ev t = Some e -> e ∈ t /\ event e = ev.
Proof.
  induction t as [|e' t IH]; cbn; [done|]. rewrite elem_of_cons.
  destruct (_ && _) eqn:Hm; [intros [= ->]; bool_to_prop; auto|].
  intros [? ?]%IH. auto.
Qed.

Lemma perform_transition_recursive t ev data c :
  m_recursive (get_fsm c) = true ->
  perform_transition t ev data c = fail_assert c.
Proof. intros Hr. unfold perform_transition. by rewrite Hr. Qed.

Lemma perform_transition_leaves_guard t ev data c :
  m_recursive (get_fsm c) = false ->
  m_recursive (get_fsm (perform_transition t ev data c)) = false.
Proof.
  intros Hr. unfold perform_transition. rewrite Hr. apply recursive_set_recursive.
Qed.
End Engine.

(** Only what an event's entries refer to is evaluated and run. *)
Lemma perform_transition_ext {C D G A} `{FsmCtx C} (eval eval' : G -> C -> D -> bool) (run run' : A -> D -> C -> C)
    (t : FsmTransitionTable G A) ev data c :
  (forall e, e ∈ t -> event e = ev ->
    (forall g c, condition e = Some g -> eval g c data = eval' g c data) /\
    (forall a c, before_transition e = Some a \/ after_transition e = Some a -> run a data c = run' a data c)) ->
  perform_transition eval run t ev data c = perform_transition eval' run' t ev data c.
Proof.
  intros Ht. unfold perform_transition. destruct (m_recursive (get_fsm c)); [done|]. f_equal.
  generalize (set_recursive true c). clear c. intros c. induction t as [|e t IH]; [done|]. cbn [run_table].
  assert (Hm : entry_matches eval ev data c e = entry_matches eval' ev data c e /\
    (entry_matches eval ev data c e = true -> take_entry run data e c = take_entry run' data e c)).
  { unfold entry_matches. destruct (_ && _); [done|]. destruct (Z.eqb_spec ev (event e)) as [->|]; [|done].
    destruct (Ht e) as [Hc Ha]; [by left|done|]. cbn [negb]. split.
    - destruct (condition e); [by apply Hc|done].
    - intros _. unfold take_entry, run_opt. destruct (before_transition e) eqn:Hb, (after_transition e) eqn:Hf;
        repeat rewrite Ha by auto; done. }
  destruct Hm as [Hm1 Hm2]. rewrite <- Hm1. destruct (entry_matches eval ev data c e); [auto|].
  apply IH. intros e' He'. apply Ht. by right.
Qed.

(** ** The table validator

    [validation_table] of the source is an [unordered_map] keyed by the pair
    (source state, event), which is all its [operator==] and [hash] look at. *)

Section Validation.
Context {G A : Type}.
Implicit Types (e : FsmTransitionEntry G A) (t : FsmTransitionTable G A).

Definition entry_key e : Z * Z := (src_state e, event e).

Definition closes e : bool :=
  match condition e with None => true | Some _ => false end.

Fixpoint validate_loop (seen : gmap (Z * Z) bool) t : bool :=
  match t with
  | [] => true
  | e :: t' =>
      if src_state e =? SAME_TARGET_STATE then false
      else if target_state e =? ANY_SOURCE_STATE then false
      else if default false (seen !! entry_key e) then false
      else validate_loop (<[entry_key e := closes e]> seen) t'
  end.

Definition validate_transition_table t : bool := validate_loop ∅ t.

(** What a valid table promises, without the map: the pseudo states are used
    on their own side only, and no entry stands behind an unconditional
    entry for the same source state and event. *)
Definition well_formed_entry e : Prop :=
  src_state e <> SAME_TARGET_STATE /\ target_state e <> ANY_SOURCE_STATE.

Definition no_dead_entry t : Prop :=
  forall pre e post, t = pre ++ e :: post ->
    Forall (fun e' => entry_key e' = entry_key e -> condition e' <> None) pre.

(** [seen] after the entries [pre]. *)
Definition seen_after (pre : FsmTransitionTable G A) (seen : gmap (Z * Z) bool) : Prop :=
  forall k, default false (seen !! k) = true <->
    exists e, e ∈ pre /\ entry_key e = k /\ condition e = None.

Lemma closes_spec e : closes e = true <-> condition e = None.
Proof. unfold closes. destruct (condition e); naive_solver. Qed.

Lemma seen_after_insert pre seen e :
  seen_after pre seen ->
  default false (seen !! entry_key e) = false ->
  seen_after (pre ++ [e]) (<[entry_key e := closes e]> seen).
Proof.
  intros Hseen Hopen k. destruct (decide (entry_key e = k)) as [<-|Hne].
  - rewrite lookup_insert_eq; cbn. rewrite closes_spec. split.
    + intros Hc. exists e. set_solver.
    + intros (e' & He' & Hk & Hc).
      apply elem_of_app in He' as [He'|He'%list_elem_of_singleton]; [|by subst].
      assert (default false (seen !! entry_key e) = true) by (apply Hseen; eauto).
      congruence.
  - rewrite lookup_insert_ne by done. etrans; [apply (Hseen k)|]. split.
    + intros (e' & ? & ? & ?). exists e'. set_solver.
    + intros (e' & He' & Hk & Hc). exists e'.
      apply elem_of_app in He' as [He'|He'%list_elem_of_singleton]; [done|by subst].
Qed.

Lemma validate_loop_spec t : forall pre seen,
  seen_after pre seen ->
  validate_loop seen t = true <->
  Forall well_formed_entry t /\
  forall t1 e t2, t = t1 ++ e :: t2 ->
    Forall (fun e' => entry_key e' = entry_key e -> condition e' <> None) (pre ++ t1).
Proof.
  induction t as [|e t IH]; intros pre seen Hseen; cbn [validate_loop].
  { split; [|done]. intros _. split; [constructor|].
    intros t1 e t2 Ht. by destruct t1. }
  rewrite Forall_cons. unfold well_formed_entry at 1.
  destruct (Z.eqb_spec (src_state e) SAME_TARGET_STATE) as [|Hs];
    [split; [done|intros [[[? _] _] _]; done]|].
  destruct (Z.eqb_spec (target_state e) ANY_SOURCE_STATE) as [|Ht];
    [split; [done|intros [[[_ ?] _] _]; done]|].
  destruct (default false (seen !! entry_key e)) eqn:Hopen.
  - split; [done|]. intros [_ Hall]. exfalso.
    apply Hseen in Hopen as (e' & He' & Hk & Hc).
    specialize (Hall [] e t eq_refl). rewrite app_nil_r, Forall_forall in Hall.
    by apply (Hall e').
  - rewrite (IH (pre ++ [e])) by (by apply seen_after_insert).
    split; intros [Hwf Hall]; (split; [tauto|]).
    + intros [|e1 t1] e2 t2 Heq; simplify_eq/=.
      * rewrite app_nil_r. apply Forall_forall. intros e' He' Hk Hc.
        assert (default false (seen !! entry_key e2) = true) by (apply Hseen; eauto).
        congruence.
      * specialize (Hall t1 e2 t2 eq_refl). by rewrite <-app_assoc in Hall.
    + intros t1 e2 t2 ->. rewrite <-app_assoc. by apply (Hall (e :: t1) e2 t2).
Qed.

(** The validator accepts exactly the tables in which the pseudo states
    stand on their own side only and no entry is dead, that is, preceded by
    an unconditional entry for the same (source state, event) pair. *)
Theorem validate_transition_table_spec t :
  validate_transition_table t = true <-> Forall well_formed_entry t /\ no_dead_entry t.
Proof.
  unfold validate_transition_table, no_dead_entry.
  rewrite (validate_loop_spec t []); [done|].
  intros k. rewrite lookup_empty. set_solver.
Qed.
End Validation.
