(* ===== verification/VpnTypes.v ===== *)
(** * Shared data of the VPN core

    The plain data of [core/include/vpn/vpn.h], [common/include/vpn/utils.h],
    [net/include/net/utils.h] and [core/include/vpn/internal/utils.h] that the
    client and the manager exchange: error values, enumerations, endpoints,
    the upstream configuration and connection requests.

    Enumerations the code stores in an [Fsm] or in a [VpnError] keep their
    integer values, since the engine compares integers; the others are
    inductive types.  Milliseconds and nanoseconds are [Z]. *)

From S2P Require Import Prelude.

(** ** Constants *)

Definition VPN_DEFAULT_ENDPOINT_UPSTREAM_TIMEOUT_MS : Z := 30 * 1000.
Definition VPN_DEFAULT_HEALTH_CHECK_TIMEOUT_MS : Z := 7000.
Definition VPN_DEFAULT_TCP_TIMEOUT_MS : Z := 604800 * 1000.
Definition VPN_DEFAULT_MAX_CONN_BUFFER_FILE_SIZE : Z := 4 * 1024 * 1024.
(** [DEFAULT_CONNECTION_MEMORY_BUFFER_SIZE] outside iOS. *)
Definition VPN_DEFAULT_CONN_MEMORY_BUFFER_THRESHOLD : Z := 4 * 1024 * 1024.
Definition VPN_DEFAULT_EXCLUSIONS_PRERESOLVE_MAX_QUERIES : Z := 50.
Definition VPN_DEFAULT_EXCLUSIONS_SCANNABLE_PORTS : string := "443,80,8080,8008,853".
Definition VPN_DEFAULT_RECOVERY_LOCATION_UPDATE_PERIOD_MS : Z := 10 * 1000.
Definition VPN_DEFAULT_INITIAL_RECOVERY_INTERVAL_MS : Z := 0.
Definition VPN_MIN_RECOVERY_FIRE_GAP_MS : Z := 2000.
Definition VPN_DEFAULT_CONNECT_ATTEMPTS_NUM : Z := 5.
Definition VPN_DEFAULT_POSTPONEMENT_WINDOW_MS : Z := 3 * 1000.
Definition VPN_DEFAULT_RECOVERY_ATTEMPTS : Z := 30.
Definition VPN_SKIP_VERIFICATION_FLAG : Z := 100.
Definition DEFAULT_LOCATION_PING_TIMEOUT_MS : Z := 5000.
Definition NON_ID : Z := UINT64_MAX.

(** ** Errors *)

Definition VPN_EC_NOERROR : Z := 0.
Definition VPN_EC_ERROR : Z := 1.
Definition VPN_EC_INVALID_SETTINGS : Z := 2.
Definition VPN_EC_ADDR_IN_USE : Z := 3.
Definition VPN_EC_INVALID_STATE : Z := 4.
Definition VPN_EC_AUTH_REQUIRED : Z := 5.
Definition VPN_EC_LOCATION_UNAVAILABLE : Z := 6.
Definition VPN_EC_CERTIFICATE_VERIFICATION_FAILED : Z := 7.
Definition VPN_EC_EVENT_LOOP_FAILURE : Z := 8.
Definition VPN_EC_INITIAL_CONNECT_FAILED : Z := 9.
Definition VPN_EC_FATAL_CONNECTIVITY_ERROR : Z := 10.

(** [text] is a C string that may be null. *)
Record VpnError := mkVpnError {
  code : Z;
  text : option string;
}.
#[export] Instance eta_VpnError : Eta VpnError := fun r => mkVpnError (code r) (text r).

(** [VpnError{}] *)
Definition no_error : VpnError := mkVpnError VPN_EC_NOERROR None.

(** ** Session states ([VpnSessionState]) *)

Definition VPN_SS_DISCONNECTED : Z := 0.
Definition VPN_SS_CONNECTING : Z := 1.
Definition VPN_SS_CONNECTED : Z := 2.
Definition VPN_SS_WAITING_RECOVERY : Z := 3.
Definition VPN_SS_RECOVERING : Z := 4.
Definition VPN_SS_WAITING_FOR_NETWORK : Z := 5.

(** ** Enumerations *)

Inductive VpnNetworkState := VPN_NS_CONNECTED | VPN_NS_NOT_CONNECTED.

Inductive VpnConnectAction :=
  | VPN_CA_DEFAULT
  | VPN_CA_FORCE_BYPASS
  | VPN_CA_FORCE_REDIRECT
  | VPN_CA_REJECT.

Inductive VpnMode := VPN_MODE_GENERAL | VPN_MODE_SELECTIVE.

Inductive VpnUpstreamProtocol := VPN_UP_HTTP2 | VPN_UP_HTTP3 | VPN_UP_AUTO.

#[export] Instance VpnNetworkState_eq_dec : EqDecision VpnNetworkState.
Proof. solve_decision. Defined.
#[export] Instance VpnConnectAction_eq_dec : EqDecision VpnConnectAction.
Proof. solve_decision. Defined.
#[export] Instance VpnMode_eq_dec : EqDecision VpnMode.
Proof. solve_decision. Defined.
#[export] Instance VpnUpstreamProtocol_eq_dec : EqDecision VpnUpstreamProtocol.
Proof. solve_decision. Defined.

(** ** Addresses and endpoints

    A socket address is the data a [sockaddr_storage] holds: family, address
    bytes and port. *)

Definition AF_UNSPEC : Z := 0.
Definition AF_INET : Z := 2.
Definition AF_INET6 : Z := 10.

Record SocketAddress := mkSocketAddress {
  sa_family : Z;
  sa_addr : list Z;
  sa_port : Z;
}.
#[export] Instance eta_SocketAddress : Eta SocketAddress := fun r =>
  mkSocketAddress (sa_family r) (sa_addr r) (sa_port r).
#[export] Instance SocketAddress_eq_dec : EqDecision SocketAddress.
Proof. solve_decision. Defined.

(** A default-constructed [SocketAddress]. *)
Definition no_address : SocketAddress := mkSocketAddress AF_UNSPEC [] 0.

Definition is_ipv4 (a : SocketAddress) : bool := sa_family a =? AF_INET.
Definition is_ipv6 (a : SocketAddress) : bool := sa_family a =? AF_INET6.

(** *** Addresses of connections *)

(** [NamePort] and [TunnelAddress] of [core/include/vpn/internal/utils.h] *)
Inductive TunnelAddress :=
  | TA_address (a : SocketAddress)
  | TA_name (name : list Z) (port : Z).

Record TunnelAddressPair := mkPair { tap_src : SocketAddress; tap_dst : TunnelAddress }.

#[export] Instance TunnelAddress_eq_dec : EqDecision TunnelAddress.
Proof. solve_decision. Defined.
#[export] Instance TunnelAddressPair_eq_dec : EqDecision TunnelAddressPair.
Proof. solve_decision. Defined.

#[export] Program Instance SocketAddress_countable : Countable SocketAddress :=
  inj_countable' (fun a => (sa_family a, sa_addr a, sa_port a)) (fun '(f, b, p) => mkSocketAddress f b p) _.
Next Obligation. by intros []. Qed.
#[export] Program Instance TunnelAddress_countable : Countable TunnelAddress :=
  inj_countable' (fun t => match t with TA_address a => inl a | TA_name n p => inr (n, p) end)
                 (fun s => match s with inl a => TA_address a | inr (n, p) => TA_name n p end) _.
Next Obligation. by intros []. Qed.
#[export] Program Instance TunnelAddressPair_countable : Countable TunnelAddressPair :=
  inj_countable' (fun p => (tap_src p, tap_dst p)) (fun '(s, d) => mkPair s d) _.
Next Obligation. by intros []. Qed.


Record VpnEndpoint := mkVpnEndpoint {
  address : SocketAddress;
  name : option string;
  remote_id : option string;
  additional_data : list Z;
  has_ipv6 : bool;
}.
#[export] Instance eta_VpnEndpoint : Eta VpnEndpoint := fun r =>
  mkVpnEndpoint (address r) (name r) (remote_id r) (additional_data r) (has_ipv6 r).

Record VpnRelay := mkVpnRelay {
  relay_address : SocketAddress;
  relay_additional_data : list Z;
}.

(** [0 == strcmp(a, b)] after the null test of [vpn_endpoint_equals]; [None]
    is the call with a null argument, which has no defined result. *)
Definition c_str_equals (a b : option string) : option bool :=
  match a, b with
  | None, None => Some true
  | Some x, Some y => Some (bool_decide (x = y))
  | _, _ => None
  end.

(** [&&] on possibly undefined operands, left to right. *)
Definition and_then (a b : option bool) : option bool :=
  match a with
  | Some true => b
  | _ => a
  end.

Definition vpn_endpoint_equals (lh rh : VpnEndpoint) : option bool :=
  and_then (Some (bool_decide (address lh = address rh)))
    (and_then (c_str_equals (name lh) (name rh))
       (c_str_equals (remote_id lh) (remote_id rh))).

(** The comparison as a test; an undefined comparison does not hold. *)
Definition endpoint_eqb (lh rh : VpnEndpoint) : bool :=
  match vpn_endpoint_equals lh rh with
  | Some b => b
  | None => false
  end.

(** ** Upstream configuration

    [backoff_rate] is a [float]; it is kept as the IEEE single the code
    multiplies by. *)

From Stdlib Require Import SpecFloat.

Record VpnUpstreamSessionRecoverySettings := mkRecoverySettings {
  backoff_rate : spec_float;
  location_update_period_ms : Z;
  recovery_attempts : Z;
}.
#[export] Instance eta_RecoverySettings : Eta VpnUpstreamSessionRecoverySettings := fun r =>
  mkRecoverySettings (backoff_rate r) (location_update_period_ms r) (recovery_attempts r).

Record VpnUpstreamConfig := mkVpnUpstreamConfig {
  main_protocol : VpnUpstreamProtocol;
  http_connections_num : Z;
  location_id : string;
  endpoints : list VpnEndpoint;
  location_ping_timeout_ms : Z;
  timeout_ms : Z;
  health_check_timeout_ms : Z;
  username : option string;
  password : option string;
  recovery_settings : VpnUpstreamSessionRecoverySettings;
  anti_dpi : bool;
}.
#[export] Instance eta_VpnUpstreamConfig : Eta VpnUpstreamConfig := fun r =>
  mkVpnUpstreamConfig (main_protocol r) (http_connections_num r) (location_id r) (endpoints r)
    (location_ping_timeout_ms r) (timeout_ms r) (health_check_timeout_ms r)
    (username r) (password r) (recovery_settings r) (anti_dpi r).

(** IEEE single precision. *)
Definition f32_prec : Z := 24.
Definition f32_emax : Z := 128.

Definition f32_of_Z (n : Z) : spec_float := binary_normalize f32_prec f32_emax n 0 false.
Definition f32_mul : spec_float -> spec_float -> spec_float := SFmul f32_prec f32_emax.
Definition f32_ltb (x y : spec_float) : bool := SFltb x y.

(** [1.3f] *)
Definition VPN_DEFAULT_RECOVERY_BACKOFF_RATE : spec_float := S754_finite false 10905190 (-23).

(** [std::chrono::round]: to the nearest integer, ties to even. *)
Definition round_half_even (m e : Z) : Z :=
  if 0 <=? e then m * 2 ^ e
  else
    let d := 2 ^ (- e) in
    let q := m / d in
    let r := m mod d in
    if 2 * r <? d then q
    else if d <? 2 * r then q + 1
    else if Z.even q then q else q + 1.

Definition f32_round (f : spec_float) : Z :=
  match f with
  | S754_finite s m e => if s then - round_half_even (Z.pos m) e else round_half_even (Z.pos m) e
  | _ => 0
  end.

(** [std::chrono::round<Millis>(between_attempts * backoff_rate)] *)
Definition scale_millis (between_attempts : Z) (rate : spec_float) : Z :=
  f32_round (f32_mul (f32_of_Z between_attempts) rate).

(** ** Connection requests *)

Record ConnectRequestResult := mkConnectRequestResult {
  req_id : Z;
  action : option VpnConnectAction;
  appname : string;
  uid : Z;
}.
#[export] Instance eta_ConnectRequestResult : Eta ConnectRequestResult := fun r =>
  mkConnectRequestResult (req_id r) (action r) (appname r) (uid r).

(** ** In-place partition

    [swap_remove_if] of [common/include/vpn/utils.h] on an array: [begin] is
    the index of the first removed slot, [i] scans on from there. *)

Section SwapRemove.
Context {T : Type} (p : T -> bool).

(** [std::swap(arr[i], arr[j])] *)
Definition swap_at (i j : nat) (arr : list T) : list T :=
  match arr !! i, arr !! j with
  | Some x, Some y => <[j := x]> (<[i := y]> arr)
  | _, _ => arr
  end.

Fixpoint find_first (i : nat) (arr : list T) : nat :=
  match arr with
  | [] => i
  | x :: arr' => if p x then i else find_first (S i) arr'
  end.

(** The [for] loop; [todo] bounds it by the slots left to visit. *)
Fixpoint swap_loop (todo begin i : nat) (arr : list T) : nat * list T :=
  match todo with
  | O => (begin, arr)
  | S todo' =>
      match arr !! i with
      | Some x =>
          if negb (p x) then swap_loop todo' (S begin) (S i) (swap_at begin i arr)
          else swap_loop todo' begin (S i) arr
      | None => (begin, arr)
      end
  end.

Definition swap_remove_if (arr : list T) : nat * list T :=
  let begin := find_first 0 arr in
  if (begin =? length arr)%nat then (begin, arr)
  else swap_loop (length arr - S begin) begin (S begin) arr.

Definition keeps (x : T) : Prop := p x = false.
Definition removes (x : T) : Prop := p x = true.
#[export] Instance keeps_dec x : Decision (keeps x).
Proof. unfold keeps. apply _. Defined.

Lemma insert_middle (l1 l2 : list T) x y n :
  n = length l1 -> <[n := y]> (l1 ++ x :: l2) = l1 ++ y :: l2.
Proof. intros ->. rewrite <-(Nat.add_0_r (length l1)) at 1. by rewrite insert_app_r. Qed.

Lemma swap_at_split kept (x r : T) rs rest :
  swap_at (length kept) (length kept + S (length rs)) (kept ++ (r :: rs) ++ x :: rest) =
  kept ++ (x :: rs) ++ r :: rest.
Proof.
  unfold swap_at.
  rewrite (list_lookup_middle kept (rs ++ x :: rest) r) by done.
  rewrite (app_assoc kept), (list_lookup_middle _ rest x) by (by rewrite length_app).
  rewrite <-(app_assoc kept). cbn [app].
  rewrite (insert_middle kept (rs ++ x :: rest)) by done.
  change (x :: rs ++ x :: rest) with ((x :: rs) ++ x :: rest).
  rewrite (app_assoc kept), insert_middle by (by rewrite length_app).
  by rewrite <-app_assoc.
Qed.

(** One loop run from [kept ++ removed ++ rest]: the kept prefix grows by the
    survivors of [rest] in their order, and nothing is lost. *)
Lemma swap_loop_spec rest : forall kept removed,
  removed <> [] -> Forall removes removed ->
  exists tail,
    swap_loop (length rest) (length kept) (length kept + length removed) (kept ++ removed ++ rest) =
      (length (kept ++ filter keeps rest), (kept ++ filter keeps rest) ++ tail) /\
    Forall removes tail /\
    (kept ++ filter keeps rest) ++ tail ≡ₚ kept ++ removed ++ rest.
Proof.
  induction rest as [|x rest IH]; intros kept removed Hne Hrem; cbn [length swap_loop].
  { exists removed. rewrite filter_nil, !app_nil_r. done. }
  rewrite (app_assoc kept removed), lookup_app_r by (rewrite length_app; lia).
  rewrite length_app, Nat.sub_diag. cbn [lookup list_lookup].
  rewrite filter_cons. destruct (decide (keeps x)) as [Hx|Hx]; unfold keeps in Hx.
  - rewrite Hx. cbn [negb]. destruct removed as [|r rs]; [done|].
    rewrite <-app_assoc. cbn [length]. rewrite swap_at_split.
    apply Forall_cons in Hrem as [Hr Hrs].
    destruct (IH (kept ++ [x]) (rs ++ [r])) as (tail & Hl & Ht & Hp).
    { by destruct rs. }
    { apply Forall_app; split; [done|by apply Forall_singleton]. }
    exists tail. rewrite !length_app in Hl. cbn [length] in Hl.
    replace (S (length kept)) with (length kept + 1)%nat by lia.
    replace (S (length kept + S (length rs))) with (length kept + 1 + (length rs + 1))%nat by lia.
    rewrite !length_app. cbn [length app] in *.
    rewrite <-!app_assoc in *. cbn [app] in *. rewrite Hl. split; [f_equal; lia|]. split; [done|].
    rewrite Hp. apply Permutation_app_head. rewrite <-!Permutation_middle. by constructor.
  - apply not_false_is_true in Hx. rewrite Hx. cbn [negb].
    destruct (IH kept (removed ++ [x])) as (tail & Hl & Ht & Hp).
    { by destruct removed. }
    { apply Forall_app; split; [done|by apply Forall_singleton]. }
    exists tail. rewrite (length_app removed) in Hl. cbn [length] in Hl.
    replace (S (length kept + length removed)) with (length kept + (length removed + 1))%nat by lia.
    rewrite <-!app_assoc in *. done.
Qed.

Lemma find_first_spec arr : forall i,
  exists pre, Forall keeps pre /\ find_first i arr = (i + length pre)%nat /\
    ((arr = pre) \/ exists r rest, arr = pre ++ r :: rest /\ removes r).
Proof.
  induction arr as [|x arr IH]; intros i; cbn.
  { exists []. cbn. split; [done|]. split; [lia|by left]. }
  destruct (p x) eqn:Hx.
  { exists []. cbn. split; [done|]. split; [lia|right; eauto]. }
  destruct (IH (S i)) as (pre & Hpre & -> & Harr).
  exists (x :: pre). cbn. split; [by constructor|]. split; [lia|].
  destruct Harr as [->|(r & rest & -> & Hr)]; [by left|right; eauto].
Qed.

Lemma filter_all_kept pre : Forall keeps pre -> filter keeps pre = pre.
Proof.
  induction 1 as [|x pre Hx _ IH]; [done|]. rewrite filter_cons_True by done. by rewrite IH.
Qed.
End SwapRemove.

Lemma swap_remove_if_spec {T} (p : T -> bool) (arr : list T) :
  exists tail,
    swap_remove_if p arr =
      (length (filter (keeps p) arr), filter (keeps p) arr ++ tail) /\
    Forall (removes p) tail /\
    filter (keeps p) arr ++ tail ≡ₚ arr.
Proof.
  unfold swap_remove_if. destruct (find_first_spec p arr 0) as (pre & Hpre & -> & Harr).
  cbn [Nat.add]. destruct Harr as [->|(r & rest & -> & Hr)].
  - rewrite Nat.eqb_refl. exists []. by rewrite app_nil_r, filter_all_kept.
  - rewrite length_app. cbn [length].
    replace (length pre =? length pre + S (length rest))%nat with false
      by (symmetry; apply Nat.eqb_neq; lia).
    replace (length pre + S (length rest) - S (length pre))%nat with (length rest) by lia.
    destruct (swap_loop_spec p rest pre [r]) as (tail & Hl & Ht & Hp);
      [done|by apply Forall_singleton|].
    exists tail. cbn [length] in Hl. replace (length pre + 1)%nat with (S (length pre)) in Hl by lia.
    rewrite filter_app, filter_cons_False, filter_all_kept
      by (done || (unfold keeps; unfold removes in Hr; congruence)).
    done.
Qed.

(** [swap_remove_if] is a partition in place: the elements in front of the
    returned position are those that do not satisfy the predicate, in their
    original order, every element from there on satisfies it, and the array is
    permuted, so that nothing is lost or duplicated. *)
Theorem swap_remove_if_partition {T} (p : T -> bool) (arr : list T) :
  exists tail,
    swap_remove_if p arr =
      (length (filter (keeps p) arr), filter (keeps p) arr ++ tail) /\
    Forall (removes p) tail /\
    filter (keeps p) arr ++ tail ≡ₚ arr.
Proof. apply swap_remove_if_spec. Qed.
