(* ===== verification/PortRanges.v ===== *)
(** * Port range sets

    Models [PortRangeSet] and [parse_scannable_ports] of [core/src/utils.cpp]
    (class in [core/include/vpn/internal/utils.h]): the set of ports whose
    traffic may be scanned for a host name, kept as sorted disjoint ranges and
    searched with [upper_bound]. *)

From S2P Require Import Prelude.
From Stdlib Require Import Ascii.
From stdpp Require Import sorting.
#[local] Open Scope Z_scope.

(** An inclusive range [start, finish] of [uint16_t]. *)
Abbreviation PortRange := (Z * Z)%type.

(** [operator<=] of [std::pair]. *)
Definition range_le (a b : PortRange) : Prop :=
  a.1 < b.1 \/ (a.1 = b.1 /\ a.2 <= b.2).

#[export] Instance range_le_dec : RelDecision range_le.
Proof. intros a b. unfold range_le. apply _. Defined.

#[export] Instance range_le_total : Total range_le.
Proof. intros a b. unfold range_le. lia. Qed.

#[export] Instance range_le_trans : Transitive range_le.
Proof. intros a b c. unfold range_le. lia. Qed.

(** One turn of the constructor's loop; [last] is [m_ranges.back()]. *)
Definition push_range (m_ranges : list PortRange) (r : PortRange) : list PortRange :=
  let '(start, finish) := r in
  if finish <? start then m_ranges
  else match last m_ranges with
       | None => m_ranges ++ [(start, finish)]
       | Some back =>
           if back.2 + 1 <? start then m_ranges ++ [(start, finish)]
           else take (pred (length m_ranges)) m_ranges ++ [(back.1, Z.max back.2 finish)]
       end.

Definition PortRangeSet_make (ranges : list PortRange) : list PortRange :=
  fold_left push_range (merge_sort range_le ranges) [].

(** [std::ranges::upper_bound] with the projection on [first]: the index of the
    first range that starts after [port]. *)
Fixpoint upper_bound (port : Z) (m_ranges : list PortRange) : nat :=
  match m_ranges with
  | [] => 0
  | r :: m' => if port <? r.1 then 0 else S (upper_bound port m')
  end.

Definition PortRangeSet_contains (m_ranges : list PortRange) (port : Z) : bool :=
  match upper_bound port m_ranges with
  | O => false
  | S i => match m_ranges !! i with
           | Some r => port <=? r.2
           | None => false
           end
  end.

(** ** Parsing *)

Section Parsing.
(** [utils::split_by_any_of] and [utils::to_integer<uint16_t>] belong to a
    library outside the repository. *)
Context (split_by_any_of : string -> string -> list string).
Context (to_integer : string -> option Z).

(** The part of a token before and after its first colon. *)
Fixpoint split_colon (token : string) : option (string * string) :=
  match token with
  | EmptyString => None
  | String ch rest =>
      if Ascii.eqb ch ":"%char then Some (EmptyString, rest)
      else match split_colon rest with
           | Some (a, b) => Some (String ch a, b)
           | None => None
           end
  end.

Definition parse_token (token : string) : list PortRange :=
  match split_colon token with
  | Some (a, b) =>
      match to_integer a, to_integer b with
      | Some start, Some finish =>
          if negb (start =? 0) && negb (finish =? 0) then [(start, finish)] else []
      | _, _ => []
      end
  | None =>
      match to_integer token with
      | Some p => if negb (p =? 0) then [(p, p)] else []
      | None => []
      end
  end.

Definition parse_scannable_ports (str : string) : option (list PortRange) :=
  match flat_map parse_token (split_by_any_of str ", ") with
  | [] => None
  | ranges => Some (PortRangeSet_make ranges)
  end.
End Parsing.

(** ** Correctness *)

Definition in_range (port : Z) (r : PortRange) : Prop := r.1 <= port <= r.2.

(** Two ranges in this order with at least one port between them. *)
Definition apart (a b : PortRange) : Prop :=
  a.1 <= a.2 /\ a.2 + 1 < b.1 /\ b.1 <= b.2.

(** The class invariant: ranges are not empty, sorted, disjoint and not even adjacent. *)
Definition ranges_wf (m : list PortRange) : Prop :=
  StronglySorted apart m /\ Forall (fun r => r.1 <= r.2) m.

Lemma upper_bound_zero port m :
  ranges_wf m -> upper_bound port m = 0%nat -> Forall (fun r => port < r.1) m.
Proof.
  intros [Hs _] Hu. destruct m as [|r m]; [constructor|]. cbn in Hu.
  destruct (Z.ltb_spec port r.1); [|done].
  apply StronglySorted_inv in Hs as [_ Hr]. constructor; [done|].
  eapply Forall_impl; [exact Hr|]. unfold apart. intros; cbn in *; lia.
Qed.

Lemma upper_bound_S port m i :
  upper_bound port m = S i -> exists r, m !! i = Some r /\ r.1 <= port.
Proof.
  revert i. induction m as [|r m IH]; intros i; cbn; [done|].
  destruct (Z.ltb_spec port r.1); [done|]. intros [= <-].
  destruct (upper_bound port m) as [|j] eqn:Hu; cbn; [eauto|].
  destruct (IH j eq_refl) as (r' & ? & ?). eauto.
Qed.

Lemma contains_spec m port :
  ranges_wf m -> PortRangeSet_contains m port = true <-> Exists (in_range port) m.
Proof.
  unfold PortRangeSet_contains, in_range. induction m as [|r m IH]; intros Hwf; cbn [upper_bound].
  { rewrite Exists_nil. done. }
  assert (Hwf' : ranges_wf m) by (destruct Hwf as [Hs Hf]; inversion Hs; inversion Hf; by split).
  specialize (IH Hwf'). rewrite Exists_cons, <-IH.
  destruct Hwf as [[_ Hr]%StronglySorted_inv _]. rewrite Forall_forall in Hr.
  destruct (Z.ltb_spec port r.1).
  - split; [done|]. intros [?|Hc]; [lia|].
    destruct (upper_bound port m) as [|i] eqn:Hu; [done|].
    destruct (upper_bound_S _ _ _ Hu) as (r' & Hi & ?).
    destruct (Hr r' (list_elem_of_lookup_2 _ _ _ Hi)) as (? & ? & ?). lia.
  - destruct (upper_bound port m) as [|i] eqn:Hu.
    + cbn. rewrite Z.leb_le. split; [|intros [?|?]]; [left; lia|lia|done].
    + destruct (upper_bound_S _ _ _ Hu) as (r' & Hi & ?). change ((r :: m) !! S i) with (m !! i).
      rewrite !Hi, !Z.leb_le. destruct (Hr r' (list_elem_of_lookup_2 _ _ _ Hi)) as (? & ? & ?).
      split; [by right|]. intros [?|?]; lia.
Qed.

(** Appending a range that starts no earlier than the last one. *)
Lemma push_range_spec m r :
  ranges_wf m -> (forall back, last m = Some back -> back.1 <= r.1) ->
  ranges_wf (push_range m r) /\
  (forall back, last (push_range m r) = Some back -> back.1 <= r.1) /\
  forall port, Exists (in_range port) (push_range m r) <->
               Exists (in_range port) m \/ in_range port r.
Proof.
  destruct r as [s f]. unfold push_range, in_range. cbn. intros [Hs Hf] Hlast.
  destruct (Z.ltb_spec f s).
  { split; [done|]. split; [done|]. intros port. split; [by left|intros [?|?]; [done|lia]]. }
  destruct (last m) as [[bs bf]|] eqn:Hl; cbn; [|apply last_None in Hl as ->].
  2:{ split; [split; repeat constructor; done|]. split; [by intros ? [= <-]|].
      intros port. cbn. rewrite Exists_cons, Exists_nil. cbn. tauto. }
  apply last_Some in Hl as [m' ->]. specialize (Hlast _ eq_refl). cbn in Hlast.
  apply Forall_app in Hf as [Hf Hb]. rewrite Forall_singleton in Hb. cbn in Hb.
  apply StronglySorted_app in Hs as (Hcross & Hs & _).
  assert (Hbelow : forall a, a ∈ m' -> apart a (bs, bf)) by (intros; apply Hcross; set_solver).
  rewrite length_app, Nat.add_1_r; cbn [pred]. rewrite take_app_length.
  destruct (Z.ltb_spec (bf + 1) s).
  - split; [split|split].
    + apply StronglySorted_app. split; [|split; [|repeat constructor]].
      * intros a b [Ha|Ha%list_elem_of_singleton]%elem_of_app Hin%list_elem_of_singleton; subst.
        -- destruct (Hbelow _ Ha) as (? & ? & ?). unfold apart; cbn [fst snd] in *; lia.
        -- unfold apart; cbn [fst snd]; lia.
      * apply StronglySorted_app. split; [|split; [done|repeat constructor]].
        intros a b Ha Hin%list_elem_of_singleton; subst. auto.
    + rewrite !Forall_app, !Forall_singleton. cbn. auto with lia.
    + rewrite last_snoc. intros ? [= <-]. done.
    + intros port. rewrite !Exists_app, !Exists_cons, !Exists_nil. cbn. tauto.
  - split; [split|split].
    + apply StronglySorted_app. split; [|split; [done|repeat constructor]].
      intros a b Ha Hin%list_elem_of_singleton; subst.
      destruct (Hbelow _ Ha) as (? & ? & ?). unfold apart; cbn [fst snd] in *; lia.
    + rewrite Forall_app, Forall_singleton. cbn. split; [done|lia].
    + rewrite last_snoc. intros ? [= <-]. done.
    + intros port. rewrite !Exists_app, !Exists_cons, !Exists_nil. cbn.
      split; [intros [?|[?|?]]|intros [[?|[?|?]]|?]]; try tauto; [|right; left; lia..].
      destruct (Z.le_gt_cases port bf); [left|]; right; [left|]; lia.
Qed.

Lemma fold_push_range rs m :
  StronglySorted range_le rs -> ranges_wf m ->
  (forall r back, r ∈ rs -> last m = Some back -> back.1 <= r.1) ->
  ranges_wf (fold_left push_range rs m) /\
  forall port, Exists (in_range port) (fold_left push_range rs m) <->
               Exists (in_range port) m \/ Exists (in_range port) rs.
Proof.
  revert m. induction rs as [|r rs IH]; intros m Hrs Hm Hlast; cbn.
  { split; [done|]. intros port. rewrite Exists_nil. tauto. }
  apply StronglySorted_inv in Hrs as [Hrs Hr]. rewrite Forall_forall in Hr.
  destruct (push_range_spec m r) as (Hm' & Hl & Hex); [done|set_solver|].
  destruct (IH _ Hrs Hm') as [Hwf Hall].
  { intros r' back Hin Hb. specialize (Hl _ Hb). destruct (Hr r' Hin); lia. }
  split; [done|]. intros port. rewrite Hall, Hex, Exists_cons. tauto.
Qed.

(** Building the set sorts and merges the ranges into the class invariant
    (non-empty, sorted, separated by at least one port), and [contains], which
    looks at a single range found by binary search, answers whether some range
    given to the constructor contains the port. *)
Theorem PortRangeSet_contains_spec ranges :
  ranges_wf (PortRangeSet_make ranges) /\
  forall port, PortRangeSet_contains (PortRangeSet_make ranges) port = true <->
               exists r, r ∈ ranges /\ r.1 <= port <= r.2.
Proof.
  destruct (fold_push_range (merge_sort range_le ranges) []) as [Hwf Hex].
  - apply StronglySorted_merge_sort; apply _.
  - split; constructor.
  - done.
  - split; [done|]. intros port. unfold PortRangeSet_make.
    rewrite contains_spec, Hex, Exists_nil, merge_sort_Permutation, Exists_exists by done.
    unfold in_range. split; [intros [[]|?]; done|by right].
Qed.
