(* ===== verification/Wire.v ===== *)
(** * Reading and writing packets

    Models [core/include/vpn/internal/wire_utils.h]: the bounds-checked writer and
    reader that the UDP and ICMP multiplexers build and take apart packets with.
    A byte is a [Z] in [0, 256), a buffer a list of them. *)

From S2P Require Import Prelude VpnTypes.

(** ** Network byte order *)

(** The [n] bytes of [v], the most significant first: [htons] and [htonl] followed
    by the copy to the buffer. *)
Fixpoint be_bytes (n : nat) (v : Z) : list Z :=
  match n with
  | O => []
  | S n' => Z.land (Z.shiftr v (8 * Z.of_nat n')) 255 :: be_bytes n' v
  end.

(** The copy from the buffer followed by [ntohs] or [ntohl]. *)
Definition be_value (bytes : list Z) : Z :=
  fold_left (fun v b => Z.lor (Z.shiftl v 8) b) bytes 0.

Definition bytes_ok (bytes : list Z) : Prop := Forall (in_width 8) bytes.

#[export] Instance bytes_ok_dec bytes : Decision (bytes_ok bytes).
Proof. unfold bytes_ok. apply _. Defined.

Lemma be_bytes_length n v : length (be_bytes n v) = n.
Proof. induction n; cbn; auto. Qed.

Lemma byte_ok v : in_width 8 (Z.land v 255).
Proof.
  unfold in_width. change 255 with (Z.ones 8). rewrite Z.land_ones by lia.
  apply Z.mod_pos_bound. lia.
Qed.

Lemma be_bytes_ok n v : bytes_ok (be_bytes n v).
Proof. induction n; cbn; constructor; auto using byte_ok. Qed.

Lemma be_step v b : in_width 8 b -> Z.lor (Z.shiftl v 8) b = v * 256 + b.
Proof.
  intros Hb. pose proof (Z.shiftl_mul_pow2 v 8 ltac:(lia)) as Hs. pose proof (Z.add_lor_land (Z.shiftl v 8) b) as Ha.
  enough (Z.land (Z.shiftl v 8) b = 0) by lia. apply Z.bits_inj'. intros n Hn.
  rewrite Z.land_spec, Z.bits_0. destruct (decide (n < 8)) as [H|H].
  - by rewrite Z.shiftl_spec_low.
  - rewrite andb_comm, <- (Z.mod_small b (2 ^ 8)) by apply Hb. by rewrite Z.mod_pow2_bits_high by lia.
Qed.

Lemma be_value_from n v : forall acc,
  fold_left (fun v b => Z.lor (Z.shiftl v 8) b) (be_bytes n v) acc = acc * 2 ^ (8 * Z.of_nat n) + v mod 2 ^ (8 * Z.of_nat n).
Proof.
  induction n as [|n IH]; intros acc; [cbn; rewrite Z.mod_1_r; lia|].
  cbn [be_bytes fold_left]. rewrite IH, be_step by apply byte_ok.
  change 255 with (Z.ones 8). rewrite Z.land_ones, Z.shiftr_div_pow2 by lia.
  replace (8 * Z.of_nat (S n)) with (8 * Z.of_nat n + 8) by lia. rewrite Z.pow_add_r by lia.
  rewrite (Z.rem_mul_r v) by lia. change (2 ^ 8) with 256. lia.
Qed.

Lemma be_value_be_bytes n v : in_width (8 * Z.of_nat n) v -> be_value (be_bytes n v) = v.
Proof. intros Hv. unfold be_value. rewrite be_value_from. by apply Z.mod_small. Qed.

(** ** The writer *)

(** What was written, the room that is left, and the assertions that failed. *)
Record Writer := mkWriter { w_data : list Z; w_room : Z; w_faults : list string }.
#[export] Instance eta_Writer : Eta Writer := fun r => mkWriter (w_data r) (w_room r) (w_faults r).

(** A writer on a buffer of [size] zero bytes. *)
Definition writer_new (size : Z) : Writer := mkWriter [] size [].

Definition put_data (d : list Z) (w : Writer) : Writer :=
  let w := if w_room w <? Z.of_nat (length d) then w <| w_faults := w_faults w ++ ["no room in the buffer"] |> else w in
  w <| w_data := w_data w ++ d |> <| w_room := w_room w - Z.of_nat (length d) |>.

Definition put_u8 (val : Z) (w : Writer) : Writer := put_data (be_bytes 1 (uwrap 8 val)) w.
Definition put_u16 (val : Z) (w : Writer) : Writer := put_data (be_bytes 2 (uwrap 16 val)) w.
Definition put_u32 (val : Z) (w : Writer) : Writer := put_data (be_bytes 4 (uwrap 32 val)) w.

Definition IPV4_ADDR_SIZE : nat := 4.
Definition IPV6_ADDR_SIZE : nat := 16.
Definition PADDED_IP_SIZE : nat := IPV6_ADDR_SIZE.
Definition IPV4_6_SIZE_DIFF : nat := IPV6_ADDR_SIZE - IPV4_ADDR_SIZE.

Definition put_ip (addr : SocketAddress) (w : Writer) : Writer := put_data (sa_addr addr) w.

Definition put_ip_padded (addr : SocketAddress) (w : Writer) : Writer :=
  let w := if is_ipv4 addr then put_data (replicate IPV4_6_SIZE_DIFF 0) w else w in
  put_ip addr w.

(** The buffer as it is handed over: what was not written is still zero. *)
Definition writer_buffer (w : Writer) : list Z := w_data w ++ replicate (Z.to_nat (w_room w)) 0.

(** ** The reader *)

(** [SocketAddress] of the common library, made from the bytes of an address:
    the family follows from the number of bytes. *)
Class SocketAddressLib := {
  socket_address : list Z -> Z -> SocketAddress;
  socket_address_v4 bytes port : length bytes = 4%nat -> socket_address bytes port = mkSocketAddress AF_INET bytes port;
  socket_address_v6 bytes port : length bytes = 16%nat -> socket_address bytes port = mkSocketAddress AF_INET6 bytes port;
}.

(** [set_port] *)
Definition with_port (port : Z) (a : SocketAddress) : SocketAddress := a <| sa_port := port |>.

(** A read gives the value and the rest of the buffer, or nothing. *)
Definition Reader (A : Type) : Type := list Z -> option (A * list Z).

Definition drain (n : nat) (buffer : list Z) : list Z := drop (Nat.min n (length buffer)) buffer.

Definition get_bytes (size : nat) : Reader (list Z) := fun buffer =>
  if (length buffer <? size)%nat then None else Some (take size buffer, drop size buffer).

Definition get_uint (size : nat) : Reader Z := fun buffer =>
  match get_bytes size buffer with Some (bytes, rest) => Some (be_value bytes, rest) | None => None end.

Definition get_u8 : Reader Z := get_uint 1.
Definition get_u16 : Reader Z := get_uint 2.
Definition get_u32 : Reader Z := get_uint 4.

Definition in6addr_loopback : list Z := replicate 15 0 ++ [1].

Section Reader.
Context `{SocketAddressLib}.

Definition get_ip (family : Z) : Reader SocketAddress := fun buffer =>
  let ip_size := if family =? AF_INET then IPV4_ADDR_SIZE else IPV6_ADDR_SIZE in
  if (length buffer <? ip_size)%nat then None
  else Some (socket_address (take ip_size buffer) 0, drop ip_size buffer).

Definition looks_like_ipv4 (buffer : list Z) : bool :=
  forallb (fun b => b =? 0) (take IPV4_6_SIZE_DIFF buffer) &&
  negb (bool_decide (take IPV6_ADDR_SIZE buffer = in6addr_loopback)).

Definition get_ip_padded : Reader SocketAddress := fun buffer =>
  if (length buffer <? PADDED_IP_SIZE)%nat then None
  else if looks_like_ipv4 buffer then get_ip AF_INET (drop IPV4_6_SIZE_DIFF buffer)
  else get_ip AF_INET6 buffer.
End Reader.

(** ** What is read is what was written *)

Lemma put_data_eq d w :
  Z.of_nat (length d) <= w_room w -> put_data d w = mkWriter (w_data w ++ d) (w_room w - Z.of_nat (length d)) (w_faults w).
Proof. intros Hd. unfold put_data. by rewrite (proj2 (Z.ltb_ge _ _) Hd). Qed.

Lemma get_bytes_app d rest : get_bytes (length d) (d ++ rest) = Some (d, rest).
Proof.
  unfold get_bytes. rewrite length_app, (proj2 (Nat.ltb_ge _ _)) by lia. by rewrite take_app_length, drop_app_length.
Qed.

Lemma get_uint_app n v rest : in_width (8 * Z.of_nat n) v -> get_uint n (be_bytes n v ++ rest) = Some (v, rest).
Proof.
  intros Hv. unfold get_uint. pose proof (get_bytes_app (be_bytes n v) rest) as H. rewrite be_bytes_length in H.
  rewrite H. by rewrite be_value_be_bytes.
Qed.

(** Reads that cannot fail. *)
Lemma get_uint_total n data : (n <= length data)%nat -> get_uint n data = Some (be_value (take n data), drop n data).
Proof. intros Hn. unfold get_uint, get_bytes. by rewrite (proj2 (Nat.ltb_ge _ _) Hn). Qed.

(** An address of a family, with the bytes of that family. *)
Definition ip_wf (a : SocketAddress) : Prop :=
  (sa_family a = AF_INET /\ length (sa_addr a) = IPV4_ADDR_SIZE) \/
  (sa_family a = AF_INET6 /\ length (sa_addr a) = IPV6_ADDR_SIZE).

Definition padded_ip (a : SocketAddress) : list Z :=
  if is_ipv4 a then replicate IPV4_6_SIZE_DIFF 0 ++ sa_addr a else sa_addr a.

Lemma padded_ip_length a : ip_wf a -> length (padded_ip a) = PADDED_IP_SIZE.
Proof. unfold padded_ip, is_ipv4. intros [[-> H]|[-> H]]; cbn [Z.eqb Pos.eqb AF_INET AF_INET6]; [|done]. by rewrite length_app, H. Qed.

Lemma put_ip_padded_eq a w :
  ip_wf a -> 16 <= w_room w -> put_ip_padded a w = mkWriter (w_data w ++ padded_ip a) (w_room w - 16) (w_faults w).
Proof.
  unfold put_ip_padded, padded_ip, put_ip, is_ipv4. intros [[-> H]|[-> H]] Hr; cbn [Z.eqb Pos.eqb AF_INET AF_INET6].
  - assert (Hp : Z.of_nat (length (replicate IPV4_6_SIZE_DIFF 0)) = 12) by done.
    assert (H4 : Z.of_nat (length (sa_addr a)) = 4) by (by rewrite H).
    rewrite (put_data_eq (replicate _ _)) by lia. rewrite put_data_eq by (cbn [w_room]; lia). cbn [w_data w_room w_faults].
    rewrite <- app_assoc. f_equal. lia.
  - assert (H16 : Z.of_nat (length (sa_addr a)) = 16) by (by rewrite H). rewrite put_data_eq by lia. by rewrite H16.
Qed.

(** The addresses that the padding does not confuse: an IPv4 address other than
    0.0.0.1, which reads as the IPv6 loopback address, and an IPv6 address that
    is the loopback address or does not begin with twelve zero bytes. *)
Definition ip_distinct (a : SocketAddress) : bool :=
  if is_ipv4 a then negb (bool_decide (sa_addr a = [0; 0; 0; 1]))
  else negb (forallb (fun b => b =? 0) (take IPV4_6_SIZE_DIFF (sa_addr a))) || bool_decide (sa_addr a = in6addr_loopback).

Section Padded.
Context `{SocketAddressLib}.

Lemma looks_like_padded a rest :
  ip_wf a -> looks_like_ipv4 (padded_ip a ++ rest) = if ip_distinct a then is_ipv4 a else negb (is_ipv4 a).
Proof.
  intros Hwf. pose proof (padded_ip_length a Hwf) as Hl. unfold looks_like_ipv4.
  rewrite !take_app_le by (rewrite Hl; apply Nat.leb_le; done). unfold ip_distinct, padded_ip in *.
  destruct Hwf as [[Hf Ha]|[Hf Ha]]; unfold is_ipv4 in *; rewrite Hf in *; cbn [Z.eqb Pos.eqb AF_INET AF_INET6] in *.
  - destruct (sa_addr a) as [|b0 [|b1 [|b2 [|b3 [|]]]]]; try discriminate Ha. cbn.
    unfold in6addr_loopback. cbn. destruct (bool_decide_reflect ([b0; b1; b2; b3] = [0; 0; 0; 1])) as [[= -> -> -> ->]|Hn].
    + by rewrite bool_decide_true.
    + rewrite bool_decide_false; [done|]. intros [= -> -> -> ->]. done.
  - rewrite (take_ge (sa_addr a) IPV6_ADDR_SIZE) by (rewrite Ha; done).
    destruct (forallb _ _), (bool_decide _); done.
Qed.

(** Which address comes back. *)
Lemma get_ip_padded_app a rest :
  ip_wf a ->
  get_ip_padded (padded_ip a ++ rest) =
  Some (if ip_distinct a then with_port 0 a
        else if is_ipv4 a then mkSocketAddress AF_INET6 in6addr_loopback 0
        else mkSocketAddress AF_INET (drop IPV4_6_SIZE_DIFF (sa_addr a)) 0, rest).
Proof.
  intros Hwf. pose proof (padded_ip_length a Hwf) as Hl. unfold get_ip_padded.
  rewrite looks_like_padded by done. rewrite (proj2 (Nat.ltb_ge _ _)) by (rewrite length_app, Hl; lia).
  assert (H4 : forall bs, length bs = IPV4_ADDR_SIZE -> get_ip AF_INET (bs ++ rest) = Some (mkSocketAddress AF_INET bs 0, rest)).
  { intros bs Hb. unfold get_ip. cbn [Z.eqb Pos.eqb AF_INET]. rewrite (proj2 (Nat.ltb_ge _ _)) by (rewrite length_app, Hb; lia).
    rewrite <- Hb, take_app_length, drop_app_length. by rewrite socket_address_v4. }
  assert (H16 : forall bs, length bs = IPV6_ADDR_SIZE -> get_ip AF_INET6 (bs ++ rest) = Some (mkSocketAddress AF_INET6 bs 0, rest)).
  { intros bs Hb. unfold get_ip. cbn [Z.eqb Pos.eqb AF_INET AF_INET6]. rewrite (proj2 (Nat.ltb_ge _ _)) by (rewrite length_app, Hb; lia).
    rewrite <- Hb, take_app_length, drop_app_length. by rewrite socket_address_v6. }
  destruct a as [f addr port]. destruct Hwf as [[Hf Ha]|[Hf Ha]]; cbn [sa_family sa_addr] in *; subst f;
    unfold ip_distinct, padded_ip, with_port, is_ipv4; cbn [sa_family sa_addr Z.eqb Pos.eqb AF_INET AF_INET6 negb].
  - destruct (bool_decide_reflect (addr = [0; 0; 0; 1])) as [->|Hn]; cbn [negb].
    + by apply (H16 in6addr_loopback).
    + rewrite <- app_assoc, drop_app_length'; [by apply H4|done].
  - destruct (_ || _); cbn [negb]; [by apply H16|].
    rewrite drop_app_le by (rewrite Ha; by apply Nat.leb_le). apply H4. by rewrite length_drop, Ha.
Qed.

Lemma get_ip_padded_total data :
  (16 <= length data)%nat -> exists a r, get_ip_padded data = Some (a, r) /\ length r = (length data - 16)%nat.
Proof.
  intros Hn. unfold get_ip_padded. rewrite (proj2 (Nat.ltb_ge _ _)) by done. unfold get_ip.
  destruct (looks_like_ipv4 data); cbn [Z.eqb Pos.eqb AF_INET AF_INET6].
  - rewrite (proj2 (Nat.ltb_ge _ _)) by (rewrite length_drop; change IPV4_ADDR_SIZE with 4%nat; change IPV4_6_SIZE_DIFF with 12%nat; lia).
    eexists _, _. split; [done|]. rewrite !length_drop. change IPV4_ADDR_SIZE with 4%nat. change IPV4_6_SIZE_DIFF with 12%nat. lia.
  - rewrite (proj2 (Nat.ltb_ge _ _)) by done. eexists _, _. split; [done|]. by rewrite length_drop.
Qed.

(** An address that was written padded reads back as itself exactly when
    the padding does not confuse it. *)
Theorem padded_ip_roundtrip a rest :
  ip_wf a -> (get_ip_padded (padded_ip a ++ rest) = Some (with_port 0 a, rest) <-> ip_distinct a = true).
Proof.
  intros Hwf. rewrite get_ip_padded_app by done. destruct (ip_distinct a); [done|]. split; [|done].
  destruct a as [f addr port]. unfold is_ipv4, with_port.
  destruct Hwf as [[Hf _]|[Hf _]]; cbn in Hf; subst f; cbn; intros [=].
Qed.
End Padded.

(** ** An instance of the library, for the examples *)

Module WireSample.
Definition by_length (bytes : list Z) (port : Z) : SocketAddress :=
  mkSocketAddress (if (length bytes =? 4)%nat then AF_INET else AF_INET6) bytes port.

#[export, refine] Instance lib : SocketAddressLib := {| socket_address := by_length |}.
Proof. all: intros bytes port Hl; unfold by_length; by rewrite Hl. Defined.

Definition host4 (d : Z) (port : Z) : SocketAddress := mkSocketAddress AF_INET [192; 0; 2; d] port.
Definition host6 (d : Z) (port : Z) : SocketAddress := mkSocketAddress AF_INET6 ([32; 1; 13; 184] ++ replicate 11 0 ++ [d]) port.
End WireSample.

Lemma padded_ip_roundtrip_witness :
  get_ip_padded (H := WireSample.lib) (padded_ip (WireSample.host4 7 53) ++ [1; 2]) =
  Some (WireSample.host4 7 0, [1; 2]).
Proof. apply padded_ip_roundtrip; [by left|by vm_compute]. Defined.
