(* ===== verification/UdpMux.v ===== *)
(** * UDP over one HTTP stream

    Models [core/src/http_udp_multiplexer.{h,cpp}]: the multiplexer that sends the
    datagrams of all UDP connections over one stream of the endpoint, and takes
    the stream coming back apart again.  The upstream it belongs to is the other
    side: its answers come from the environment, what it is told is an output, and
    what its handler does with the connection it is reading from is applied at once.
    The tables of the code are hash tables: where the code iterates over one, the
    order is an argument. *)

From S2P Require Import Prelude VpnTypes Wire.

(** ** Packets *)

Definition UDPPKT_LENGTH_SIZE : Z := 4.
Definition UDPPKT_ADDR_SIZE : Z := 16.
Definition UDPPKT_PORT_SIZE : Z := 2.
Definition UDPPKT_IN_PREFIX_SIZE : Z := UDPPKT_LENGTH_SIZE + 2 * (UDPPKT_ADDR_SIZE + UDPPKT_PORT_SIZE).
Definition UDPPKT_APPLEN_SIZE : Z := 1.
Definition MAX_UDP_PAYLOAD_SIZE : Z := 65535 - 8.
Definition MAX_UDP_IN_PACKET_LENGTH : Z := MAX_UDP_PAYLOAD_SIZE + UDPPKT_IN_PREFIX_SIZE - UDPPKT_LENGTH_SIZE.

Definition VPN_DEFAULT_UDP_TIMEOUT_MS : Z := 5 * 60 * 1000.
Definition HTTP_OK_STATUS : Z := 200.

Definition zlength {A} (l : list A) : Z := Z.of_nat (length l).

(** The prefix of a packet, without the length. *)
Definition put_addresses (src dst : SocketAddress) (w : Writer) : Writer :=
  w ▷ put_ip_padded src ▷ put_u16 (sa_port src) ▷ put_ip_padded dst ▷ put_u16 (sa_port dst).

Definition compose_udp_writer (src dst : SocketAddress) (app_name data : list Z) : Writer :=
  let full_length := UDPPKT_IN_PREFIX_SIZE + UDPPKT_APPLEN_SIZE + zlength app_name + zlength data in
  let w := writer_new full_length in
  let w := put_u32 (full_length - UDPPKT_LENGTH_SIZE) w in
  let w := put_addresses src dst w in
  let app_name := take (Z.to_nat UINT8_MAX) app_name in
  let w := put_u8 (zlength app_name) w in
  let w := put_data app_name w in
  put_data data w.

Definition compose_udp_packet (src dst : SocketAddress) (app_name data : list Z) : list Z :=
  writer_buffer (compose_udp_writer src dst app_name data).

(** ** State *)

Inductive MultiplexerState := MS_IDLE | MS_ESTABLISHED.
Inductive RecvConnectionState := RCS_IDLE | RCS_PAYLOAD | RCS_DROPPING.

Record Connection := mkConnection {
  cn_read_enabled : bool;
  cn_addr : TunnelAddressPair;
  cn_app_name : list Z;
  cn_sent_bytes_since_flush : Z;
  cn_timeout : Z;
  cn_open_task : bool;
  cn_close_task : bool;
}.
#[export] Instance eta_Connection : Eta Connection := fun r =>
  mkConnection (cn_read_enabled r) (cn_addr r) (cn_app_name r) (cn_sent_bytes_since_flush r) (cn_timeout r)
    (cn_open_task r) (cn_close_task r).

Record RecvConnection := mkRecv {
  rc_state : RecvConnectionState;
  rc_id : Z;
  rc_bytes_left : Z;
  rc_buffer : list Z;
}.
#[export] Instance eta_RecvConnection : Eta RecvConnection := fun r =>
  mkRecv (rc_state r) (rc_id r) (rc_bytes_left r) (rc_buffer r).

Definition recv_empty : RecvConnection := mkRecv RCS_IDLE NON_ID 0 [].

Record PacketInfo := mkPacketInfo { pi_id : Z; pi_payload_length : Z }.

(** What the handler of [SERVER_EVENT_READ] asks of the upstream before it returns, for the connection that
    it is given the data of: [update_flow_control], and [close_connection] from the event loop. *)
Inductive ReadCall :=
  | CALL_update_flow_control (send_buffer_size send_window_size : Z)
  | CALL_close_connection (graceful : bool).

(** What the upstream and its handler are told. *)
Inductive Out :=
  | SERVER_CONNECTION_OPENED (id : Z)
  | SERVER_CONNECTION_CLOSED (id : Z)
  | SERVER_ERROR (id : Z) (error : VpnError)
  | SERVER_READ (id : Z) (data : list Z)
  | SERVER_DATA_SENT (id length : Z)
  | CONNECT_REQUEST (host : string)
  | SEND_DATA (stream_id : Z) (data : list Z)
  | CONSUME (stream_id size : Z).

Record Mux := mkMux {
  m_state : MultiplexerState;
  m_stream_id : Z;
  m_recv_connection : RecvConnection;
  m_addr_to_id : gmap TunnelAddressPair Z;
  m_connections : gmap Z Connection;
  m_timer_event : bool;
  m_pending_error : option VpnError;
  m_out : list Out;
  m_faults : list string;
}.
#[export] Instance eta_Mux : Eta Mux := fun r =>
  mkMux (m_state r) (m_stream_id r) (m_recv_connection r) (m_addr_to_id r) (m_connections r) (m_timer_event r)
    (m_pending_error r) (m_out r) (m_faults r).

Definition mux_new : Mux := mkMux MS_IDLE 0 recv_empty ∅ ∅ false None [] [].

(** The datagrams that were given to the handler. *)
Definition reads (m : Mux) : list (Z * list Z) :=
  omap (fun o => match o with SERVER_READ id data => Some (id, data) | _ => None end) (m_out m).

(** [now] is the steady clock in milliseconds; the answers of the upstream; the
    value of [AG_ECONNREFUSED]; what the handler does with the last of the datagrams. *)
Record Env := mkEnv {
  now : Z;
  send_connect_request : option Z;
  send_data_ok : bool;
  ECONNREFUSED : Z;
  on_read : list (Z * list Z) -> list ReadCall;
}.

Definition emit (o : Out) (m : Mux) : Mux := m <| m_out := m_out m ++ [o] |>.
Definition fault (what : string) (m : Mux) : Mux := m <| m_faults := m_faults m ++ [what] |>.
Definition set_connection (id : Z) (c : Connection) (m : Mux) : Mux := m <| m_connections := <[id := c]> (m_connections m) |>.

Definition established (m : Mux) : bool := match m_state m with MS_ESTABLISHED => true | MS_IDLE => false end.
Definition assert_established (m : Mux) : Mux := if established m then m else fault "not established" m.

(** ** Operations *)

Section Operations.
Context `{SocketAddressLib} (env : Env).
Implicit Types (m : Mux).

Definition next_timeout : Z := now env + VPN_DEFAULT_UDP_TIMEOUT_MS.

Definition clean_connection_data (id : Z) m : bool * Mux :=
  match m_connections m !! id with
  | None => (false, m)
  | Some conn =>
      let m := if rc_id (m_recv_connection m) =? id
               then m <| m_recv_connection := (m_recv_connection m) <| rc_state := RCS_DROPPING |> |> else m in
      (true, m <| m_addr_to_id := delete (cn_addr conn) (m_addr_to_id m) |>
               <| m_connections := delete id (m_connections m) |>)
  end.

Definition reset m : Mux :=
  m <| m_state := MS_IDLE |> <| m_stream_id := 0 |> <| m_addr_to_id := ∅ |>
    <| m_recv_connection := recv_empty |> <| m_timer_event := false |>.

(** The end of one connection in [close]. *)
Definition close_one (error : option VpnError) m (id : Z) : Mux :=
  let m := match error with
           | Some e => emit (SERVER_ERROR id e) m
           | None => emit (SERVER_CONNECTION_CLOSED id) m
           end in
  snd (clean_connection_data id m).

Definition close (order : list Z) (serv_err : VpnError) m : Mux :=
  let error := match m_pending_error m with
               | Some e => Some e
               | None => if code serv_err =? 0 then None else Some serv_err
               end in
  reset (fold_left (close_one error) order m).

(** The task of an opened connection. *)
Definition complete_udp_connection (id : Z) m : Mux :=
  if established m then
    match m_connections m !! id with
    | Some conn =>
        let m := set_connection id (conn <| cn_open_task := false |>) m in
        let m := m <| m_addr_to_id := <[cn_addr conn := id]> (m_addr_to_id m) |> in
        emit (SERVER_CONNECTION_OPENED id) m
    | None => m
    end
  else m.

Definition open_stream m : bool * Mux :=
  match m_state m with
  | MS_ESTABLISHED => (true, m)
  | MS_IDLE =>
      let m := if m_stream_id m =? 0 then m else fault "stream id is set" m in
      let m := emit (CONNECT_REQUEST "_udp2") m in
      match send_connect_request env with
      | None => (false, m)
      | Some stream_id => (true, m <| m_stream_id := stream_id |> <| m_state := MS_ESTABLISHED |>)
      end
  end.

Definition open_connection (conn_id : Z) (addr : TunnelAddressPair) (app_name : list Z) m : bool * Mux :=
  match tap_dst addr with
  | TA_name _ _ => (false, fault "UDP connection must have socket address as destination" m)
  | TA_address _ =>
      match m_connections m !! conn_id with
      | Some _ => (false, fault "connection with such id already exists" m)
      | None =>
          let '(ok, m) := open_stream m in
          if negb ok then (false, m)
          else
            let m := set_connection conn_id (mkConnection false addr app_name 0 next_timeout true false) m in
            (true, m <| m_timer_event := true |>)
      end
  end.

(** [close_connection(id)], also the task of [close_connection(id, true)]. *)
Definition close_connection (id : Z) m : Mux :=
  let '(existed, m) := clean_connection_data id m in
  if existed then emit (SERVER_CONNECTION_CLOSED id) m else m.

Definition close_connection_async (id : Z) m : Mux :=
  match m_connections m !! id with
  | None => emit (SERVER_CONNECTION_CLOSED id) m
  | Some conn => set_connection id (conn <| cn_close_task := true |>) m
  end.

Definition check_connection (id : Z) m : bool :=
  match m_connections m !! id with Some _ => true | None => false end.

Definition send (id : Z) (data : list Z) m : Z * Mux :=
  let m := assert_established m in
  match m_connections m !! id with
  | None => (-1, m)
  | Some conn =>
      match tap_dst (cn_addr conn) with
      | TA_name _ _ => (-1, fault "destination is null" m)
      | TA_address dst =>
          let packet := compose_udp_packet (tap_src (cn_addr conn)) dst (cn_app_name conn) data in
          let m := emit (SEND_DATA (m_stream_id m) packet) m in
          if send_data_ok env then
            (zlength data,
             set_connection id (conn <| cn_timeout := next_timeout |>
               <| cn_sent_bytes_since_flush := uwrap 64 (cn_sent_bytes_since_flush conn + zlength data) |>) m)
          else (-1, m)
      end
  end.

(** The addresses of a packet; [None] is the exception of a [value()] on an empty
    optional. *)
Definition get_addresses : Reader (SocketAddress * SocketAddress) := fun r =>
  '(src_addr, r) ← get_ip_padded r;
  '(src_port, r) ← get_u16 r;
  '(dst_addr, r) ← get_ip_padded r;
  '(dst_port, r) ← get_u16 r;
  Some ((with_port src_port src_addr, with_port dst_port dst_addr), r).

Definition read_prefix (data : list Z) m : option PacketInfo :=
  '(length, r) ← get_u32 data;
  if length <? UDPPKT_IN_PREFIX_SIZE - UDPPKT_LENGTH_SIZE then Some (mkPacketInfo NON_ID 0)
  else
    '((src_addr, dst_addr), r) ← get_addresses r;
    if MAX_UDP_IN_PACKET_LENGTH <? length then Some (mkPacketInfo NON_ID 0)
    else Some (mkPacketInfo (default NON_ID (m_addr_to_id m !! mkPair dst_addr (TA_address src_addr)))
                            (length - (UDPPKT_IN_PREFIX_SIZE - UDPPKT_LENGTH_SIZE))).

(** Whether the packet is for a connection that can take it. *)
Definition accepts (info : PacketInfo) m : bool :=
  if pi_id info =? NON_ID then false
  else match m_connections m !! pi_id info with
       | None => false
       | Some conn => cn_read_enabled conn
       end.

Definition recv_idle (data : list Z) m : list Z * Mux :=
  let rconn := m_recv_connection m in
  let m := if zlength (rc_buffer rconn) <? UDPPKT_IN_PREFIX_SIZE then m else fault "prefix is too long" m in
  let to_read := Z.to_nat (Z.min (UDPPKT_IN_PREFIX_SIZE - zlength (rc_buffer rconn)) (zlength data)) in
  let buffer := rc_buffer rconn ++ take to_read data in
  let data := drop to_read data in
  if zlength buffer <? UDPPKT_IN_PREFIX_SIZE then (data, m <| m_recv_connection := rconn <| rc_buffer := buffer |> |>)
  else
    match read_prefix buffer m with
    | None => (data, fault "bad optional access" m)
    | Some info =>
        let rconn := if accepts info m then rconn <| rc_state := RCS_PAYLOAD |> <| rc_id := pi_id info |>
                     else rconn <| rc_state := RCS_DROPPING |> in
        (data, m <| m_recv_connection := rconn <| rc_bytes_left := pi_payload_length info |> <| rc_buffer := [] |> |>)
    end.

Definition set_read_enabled (id : Z) (v : bool) m : Mux :=
  match m_connections m !! id with
  | Some conn => set_connection id (conn <| cn_read_enabled := v |>) m
  | None => m
  end.

Definition read_call (id : Z) m (c : ReadCall) : Mux :=
  match c with
  | CALL_update_flow_control send_buffer_size _ => set_read_enabled id (0 <? send_buffer_size) m
  | CALL_close_connection _ => close_connection_async id m
  end.

(** [SERVER_EVENT_READ], with what its handler calls. *)
Definition raise_read (id : Z) (data : list Z) m : Mux :=
  let m := emit (SERVER_READ id data) m in
  fold_left (read_call id) (on_read env (reads m)) m.

Definition recv_payload (data : list Z) m : list Z * Mux :=
  let rconn := m_recv_connection m in
  let m := match m_connections m !! rc_id rconn with
           | Some conn => set_connection (rc_id rconn) (conn <| cn_timeout := next_timeout |>) m
           | None => fault "no such connection" m
           end in
  let to_read := Z.to_nat (Z.min (rc_bytes_left rconn) (zlength data)) in
  let rconn := rconn <| rc_buffer := rc_buffer rconn ++ take to_read data |>
                     <| rc_bytes_left := rc_bytes_left rconn - Z.of_nat to_read |> in
  let data := drop to_read data in
  if rc_bytes_left rconn =? 0
  then (data, (raise_read (rc_id rconn) (rc_buffer rconn) m) <| m_recv_connection := recv_empty |>)
  else (data, m <| m_recv_connection := rconn |>).

Definition recv_dropping (data : list Z) m : list Z * Mux :=
  let rconn := m_recv_connection m in
  let to_drop := Z.to_nat (Z.min (rc_bytes_left rconn) (zlength data)) in
  let rconn := rconn <| rc_bytes_left := rc_bytes_left rconn - Z.of_nat to_drop |> in
  let data := drop to_drop data in
  if rc_bytes_left rconn =? 0 then (data, m <| m_recv_connection := recv_empty |>)
  else (data, m <| m_recv_connection := rconn |>).

Definition recv_iteration (data : list Z) m : list Z * Mux :=
  match rc_state (m_recv_connection m) with
  | RCS_IDLE => recv_idle data m
  | RCS_PAYLOAD => recv_payload data m
  | RCS_DROPPING => recv_dropping data m
  end.

(** The loop of [process_read_event].  An iteration that takes no byte ends a
    packet, and the next one takes one: [2 * length data] iterations are enough. *)
Fixpoint recv_loop (fuel : nat) (data : list Z) m : Mux :=
  match data with
  | [] => m
  | _ :: _ =>
      match fuel with
      | O => fault "out of fuel" m
      | S fuel => let '(data, m) := recv_iteration data m in recv_loop fuel data m
      end
  end.

Definition receive (data : list Z) m : Mux := recv_loop (2 * length data) data m.

Definition process_read_event (data : list Z) m : Mux :=
  let m := assert_established m in
  let m := receive data m in
  emit (CONSUME (m_stream_id m) (zlength data)) m.

Definition timer_one m (id : Z) : Mux :=
  match m_connections m !! id with
  | None => m
  | Some conn =>
      if cn_timeout conn <=? now env
      then emit (SERVER_CONNECTION_CLOSED id) (snd (clean_connection_data id m)) else m
  end.

Definition timer_callback (order : list Z) m : Mux := fold_left timer_one order m.

Definition handle_response (status_code : Z) m : Mux :=
  let m := assert_established m in
  if status_code =? HTTP_OK_STATUS then m
  else m <| m_pending_error := Some (mkVpnError (ECONNREFUSED env) (Some "HTTP stream creation failed")) |>.

Definition get_stream_id m : option Z := if established m then Some (m_stream_id m) else None.

Definition report_one m (id : Z) : Mux :=
  match m_connections m !! id with
  | None => m
  | Some conn =>
      if 0 <? cn_sent_bytes_since_flush conn
      then set_connection id (conn <| cn_sent_bytes_since_flush := 0 |>)
             (emit (SERVER_DATA_SENT id (cn_sent_bytes_since_flush conn)) m)
      else m
  end.

Definition report_sent_bytes (order : list Z) m : Mux := fold_left report_one order m.

Definition connections_num m : nat := size (m_connections m).
End Operations.
