(* ===== verification/UdpMuxProofs.v ===== *)
(** * UDP over one HTTP stream: proofs

    What a packet composed by the multiplexer says ([compose_udp_packet]); that
    the stream may be cut anywhere ([receive_app]) and that the datagrams in it
    reach exactly the connections they are for ([receive_datagrams]). *)

From S2P Require Import Prelude VpnTypes Wire UdpMux.

(** ** Outgoing packets *)

Definition in_port (a : SocketAddress) : Prop := in_width 16 (sa_port a).

Definition addresses_bytes (src dst : SocketAddress) : list Z :=
  padded_ip src ++ be_bytes 2 (sa_port src) ++ padded_ip dst ++ be_bytes 2 (sa_port dst).

Lemma put_u16_eq v w :
  in_width 16 v -> 2 <= w_room w -> put_u16 v w = mkWriter (w_data w ++ be_bytes 2 v) (w_room w - 2) (w_faults w).
Proof. intros Hv Hr. unfold put_u16. rewrite uwrap_id by done. by rewrite put_data_eq by (rewrite be_bytes_length; lia). Qed.

Lemma addresses_length src dst : ip_wf src -> ip_wf dst -> length (addresses_bytes src dst) = 36%nat.
Proof. intros Hs Hd. unfold addresses_bytes. rewrite !length_app, !padded_ip_length by done. done. Qed.

Lemma put_addresses_eq src dst w :
  ip_wf src -> ip_wf dst -> in_port src -> in_port dst -> 36 <= w_room w ->
  put_addresses src dst w = mkWriter (w_data w ++ addresses_bytes src dst) (w_room w - 36) (w_faults w).
Proof.
  intros Hs Hd Hps Hpd Hr. unfold put_addresses. rewrite (put_ip_padded_eq src) by (done || lia).
  rewrite (put_u16_eq (sa_port src)) by (done || cbn [w_room]; lia). cbn [w_data w_room w_faults].
  rewrite (put_ip_padded_eq dst) by (done || cbn [w_room]; lia). cbn [w_data w_room w_faults].
  rewrite put_u16_eq by (done || cbn [w_room]; lia). cbn [w_data w_room w_faults].
  unfold addresses_bytes. rewrite <- !app_assoc. f_equal. lia.
Qed.

(** The packet, byte by byte.  Of an application name only 255 bytes are sent, but
    the length counts all of them, and the packet is filled up with zeros. *)
Lemma compose_udp_packet_eq src dst app_name data :
  ip_wf src -> ip_wf dst -> in_port src -> in_port dst ->
  w_faults (compose_udp_writer src dst app_name data) = [] /\
  compose_udp_packet src dst app_name data =
    be_bytes 4 (uwrap 32 (37 + zlength app_name + zlength data)) ++ addresses_bytes src dst ++
    be_bytes 1 (zlength (take 255 app_name)) ++ take 255 app_name ++ data ++ replicate (length app_name - 255) 0.
Proof.
  intros Hs Hd Hps Hpd. unfold compose_udp_packet, compose_udp_writer.
  change (Z.to_nat UINT8_MAX) with 255%nat. change (UDPPKT_IN_PREFIX_SIZE + UDPPKT_APPLEN_SIZE) with 41.
  set (full := 41 + zlength app_name + zlength data).
  assert (Hlen : zlength (take 255 app_name) = Z.min 255 (zlength app_name)) by (unfold zlength; rewrite length_take; lia).
  assert (H0 : 0 <= zlength app_name /\ 0 <= zlength data) by (unfold zlength; lia).
  unfold put_u32, writer_new. rewrite (put_data_eq (be_bytes 4 _)) by (rewrite be_bytes_length; cbn [w_room]; lia). cbn [w_data w_room w_faults].
  rewrite put_addresses_eq by (done || cbn [w_room]; rewrite be_bytes_length; lia). cbn [w_data w_room w_faults].
  unfold put_u8. rewrite uwrap_id by (unfold in_width; lia).
  rewrite (put_data_eq (be_bytes 1 _)) by (rewrite be_bytes_length; cbn [w_room]; rewrite be_bytes_length; lia). cbn [w_data w_room w_faults].
  rewrite (put_data_eq (take 255 app_name)) by (cbn [w_room]; rewrite !be_bytes_length; fold (zlength (take 255 app_name)); lia). cbn [w_data w_room w_faults].
  rewrite (put_data_eq data) by (cbn [w_room]; rewrite !be_bytes_length; fold (zlength (take 255 app_name)); fold (zlength data); lia).
  unfold writer_buffer. cbn [w_data w_room w_faults]. split; [done|]. rewrite <- !app_assoc, app_nil_l. unfold full, UDPPKT_LENGTH_SIZE.
  repeat f_equal; [lia|]. rewrite !be_bytes_length. fold (zlength (take 255 app_name)). fold (zlength data). unfold zlength in *. lia.
Qed.

(** The endpoint's side of the documented format: the length, the addresses, the
    application name, and the rest of the packet is the payload. *)
Definition parse_udp_packet `{SocketAddressLib} (packet : list Z) : option (SocketAddress * SocketAddress * list Z * list Z) :=
  '(length_, r) ← get_u32 packet;
  '(body, _) ← get_bytes (Z.to_nat length_) r;
  '((src, dst), r) ← get_addresses body;
  '(app_len, r) ← get_u8 r;
  '(app_name, payload) ← get_bytes (Z.to_nat app_len) r;
  Some (src, dst, app_name, payload).

Section Compose.
Context `{SocketAddressLib}.

Lemma get_addresses_app src dst rest :
  ip_wf src -> ip_wf dst -> in_port src -> in_port dst -> ip_distinct src = true -> ip_distinct dst = true ->
  get_addresses (addresses_bytes src dst ++ rest) = Some ((src, dst), rest).
Proof.
  intros Hs Hd Hps Hpd Hus Hud. unfold get_addresses, addresses_bytes.
  rewrite <- !app_assoc, get_ip_padded_app, Hus by done. cbn [mbind option_bind].
  unfold get_u16. rewrite get_uint_app by done. cbn [mbind option_bind]. rewrite get_ip_padded_app, Hud by done. cbn [mbind option_bind].
  rewrite get_uint_app by done. cbn [mbind option_bind]. by destruct src, dst.
Qed.

(** A composed packet, taken apart the way the format documents it, gives the
    addresses, the application name and the payload it was composed of.  Of a
    name longer than 255 bytes only the first 255 are sent, and then the payload
    that arrives has zeros behind it, as many as were cut from the name. *)
Theorem compose_udp_packet_parses src dst app_name data :
  ip_wf src -> ip_wf dst -> in_port src -> in_port dst -> ip_distinct src = true -> ip_distinct dst = true ->
  in_width 32 (37 + zlength app_name + zlength data) ->
  w_faults (compose_udp_writer src dst app_name data) = [] /\
  parse_udp_packet (compose_udp_packet src dst app_name data) =
    Some (src, dst, take 255 app_name, data ++ replicate (length app_name - 255) 0).
Proof.
  intros Hs Hd Hps Hpd Hus Hud Hlen. destruct (compose_udp_packet_eq src dst app_name data) as [Hf ->]; [done..|]. split; [done|].
  unfold parse_udp_packet. rewrite uwrap_id by done. unfold get_u32. rewrite get_uint_app by done. cbn [mbind option_bind].
  set (name := take 255 app_name).
  assert (Hn : length name = Nat.min 255 (length app_name)) by apply length_take.
  set (body := addresses_bytes src dst ++ _).
  assert (Hbody : length body = Z.to_nat (37 + zlength app_name + zlength data)).
  { unfold body. rewrite !length_app, addresses_length, be_bytes_length, Hn, length_replicate by done. unfold zlength. lia. }
  pose proof (get_bytes_app body []) as Hg. rewrite app_nil_r, Hbody in Hg. rewrite Hg. cbn [mbind option_bind]. unfold body.
  rewrite get_addresses_app by done. cbn [mbind option_bind]. unfold get_u8. rewrite get_uint_app by (unfold in_width, zlength; cbn; lia). cbn [mbind option_bind].
  unfold zlength at 1. rewrite Nat2Z.id, get_bytes_app. done.
Qed.
End Compose.

(** ** Receiving

    An iteration of the loop waits for a number of bytes: with fewer it absorbs
    what is there, with enough it completes a prefix or a packet. *)

Section Receive.
Context `{SocketAddressLib} (env : Env).
Implicit Types (m : Mux) (data : list Z).

Definition need m : nat :=
  let rconn := m_recv_connection m in
  match rc_state rconn with
  | RCS_IDLE => Z.to_nat (UDPPKT_IN_PREFIX_SIZE - zlength (rc_buffer rconn))
  | _ => Z.to_nat (rc_bytes_left rconn)
  end.

(** The connection that receives is in use. *)
Definition touch (id : Z) m : Mux :=
  match m_connections m !! id with
  | Some conn => set_connection id (conn <| cn_timeout := next_timeout env |>) m
  | None => fault "no such connection" m
  end.

Definition absorb data m : Mux :=
  let rconn := m_recv_connection m in
  match rc_state rconn with
  | RCS_IDLE => m <| m_recv_connection := rconn <| rc_buffer := rc_buffer rconn ++ data |> |>
  | RCS_PAYLOAD => (touch (rc_id rconn) m) <| m_recv_connection := rconn <| rc_buffer := rc_buffer rconn ++ data |>
                     <| rc_bytes_left := rc_bytes_left rconn - zlength data |> |>
  | RCS_DROPPING => m <| m_recv_connection := rconn <| rc_bytes_left := rc_bytes_left rconn - zlength data |> |>
  end.

Definition begin_packet (info : PacketInfo) m : Mux :=
  m <| m_recv_connection :=
         if accepts info m then mkRecv RCS_PAYLOAD (pi_id info) (pi_payload_length info) []
         else mkRecv RCS_DROPPING (rc_id (m_recv_connection m)) (pi_payload_length info) [] |>.

Definition complete data m : Mux :=
  let rconn := m_recv_connection m in
  match rc_state rconn with
  | RCS_IDLE =>
      match read_prefix (rc_buffer rconn ++ data) m with
      | None => fault "bad optional access" m
      | Some info => begin_packet info m
      end
  | RCS_PAYLOAD =>
      (raise_read env (rc_id rconn) (rc_buffer rconn ++ data) (touch (rc_id rconn) m)) <| m_recv_connection := recv_empty |>
  | RCS_DROPPING => m <| m_recv_connection := recv_empty |>
  end.

(** What the loop keeps true of the packet that is being received. *)
Definition recv_ok m : Prop :=
  let rconn := m_recv_connection m in
  match rc_state rconn with
  | RCS_IDLE => zlength (rc_buffer rconn) < UDPPKT_IN_PREFIX_SIZE /\ rc_id rconn = NON_ID
  | RCS_PAYLOAD => 0 <= rc_bytes_left rconn /\ is_Some (m_connections m !! rc_id rconn) /\
                   zlength (rc_buffer rconn) + rc_bytes_left rconn <= MAX_UDP_PAYLOAD_SIZE
  | RCS_DROPPING => 0 <= rc_bytes_left rconn <= MAX_UDP_PAYLOAD_SIZE
  end.

Lemma take_min n data : take (Z.to_nat (Z.min n (zlength data))) data = take (Z.to_nat n) data.
Proof.
  unfold zlength. destruct (decide (n <= Z.of_nat (length data))); [by rewrite Z.min_l by lia|].
  rewrite Z.min_r, Nat2Z.id, !take_ge by lia. done.
Qed.

Lemma drop_min n data : drop (Z.to_nat (Z.min n (zlength data))) data = drop (Z.to_nat n) data.
Proof.
  unfold zlength. destruct (decide (n <= Z.of_nat (length data))); [by rewrite Z.min_l by lia|].
  rewrite Z.min_r, Nat2Z.id, !drop_ge by lia. done.
Qed.

Lemma recv_iteration_eq data m :
  recv_ok m ->
  recv_iteration env data m =
  if (length data <? need m)%nat then ([], absorb data m) else (drop (need m) data, complete (take (need m) data) m).
Proof.
  intros Hok. unfold recv_iteration, recv_ok, need, absorb, complete in *.
  destruct m as [st sid [rst rid left buf] a2i conns timer pe out faults]. cbn [m_recv_connection rc_state rc_buffer rc_bytes_left rc_id] in *.
  destruct rst; cbn [recv_idle recv_payload recv_dropping].
  - unfold recv_idle. cbn [m_recv_connection rc_buffer]. destruct Hok as [Hb _]. rewrite (proj2 (Z.ltb_lt _ _) Hb).
    rewrite take_min, drop_min. destruct (Nat.ltb_spec (length data) (Z.to_nat (UDPPKT_IN_PREFIX_SIZE - zlength buf))) as [Hl|Hl].
    + rewrite take_ge, drop_ge by lia. rewrite (proj2 (Z.ltb_lt _ _)); [done|]. unfold zlength in *. rewrite length_app. lia.
    + rewrite (proj2 (Z.ltb_ge _ _)); [|unfold zlength in *; rewrite length_app, length_take; lia].
      destruct (read_prefix _ _) as [info|]; [|done]. f_equal. unfold begin_packet. cbn [m_recv_connection rc_id].
      by destruct (accepts info _).
  - unfold recv_payload. cbn [m_recv_connection rc_bytes_left rc_buffer rc_id]. destruct Hok as (Hl0 & _ & _).
    rewrite take_min, drop_min. fold (touch rid (mkMux st sid (mkRecv RCS_PAYLOAD rid left buf) a2i conns timer pe out faults)).
    set (w := mkMux _ _ _ _ _ _ _ _ _). destruct (Nat.ltb_spec (length data) (Z.to_nat left)) as [Hl|Hl].
    + rewrite take_ge, drop_ge by lia. rewrite (ltac:(unfold zlength in *; lia) : Z.of_nat (Z.to_nat (Z.min left (zlength data))) = zlength data).
      cbn [rc_bytes_left assign]. rewrite (proj2 (Z.eqb_neq _ _)) by (unfold zlength in *; lia). done.
    + rewrite (ltac:(unfold zlength in *; lia) : Z.of_nat (Z.to_nat (Z.min left (zlength data))) = left). cbn [rc_bytes_left assign].
      rewrite Z.sub_diag. done.
  - unfold recv_dropping. cbn [m_recv_connection rc_bytes_left rc_buffer rc_id].
    rewrite drop_min. destruct (Nat.ltb_spec (length data) (Z.to_nat left)) as [Hl|Hl].
    + rewrite drop_ge by lia. rewrite (ltac:(unfold zlength in *; lia) : Z.of_nat (Z.to_nat (Z.min left (zlength data))) = zlength data).
      cbn [rc_bytes_left assign]. rewrite (proj2 (Z.eqb_neq _ _)) by (unfold zlength in *; lia). done.
    + rewrite (ltac:(unfold zlength in *; lia) : Z.of_nat (Z.to_nat (Z.min left (zlength data))) = left). cbn [rc_bytes_left assign].
      rewrite Z.sub_diag. done.
Qed.

Lemma touch_set_recv id r m : touch id (m <| m_recv_connection := r |>) = (touch id m) <| m_recv_connection := r |>.
Proof. unfold touch. cbn [m_connections assign]. by destruct (_ !! _). Qed.

(** What the handler calls does not look at the packet that is received. *)
Lemma read_call_set_recv id c r m : read_call id (m <| m_recv_connection := r |>) c = (read_call id m c) <| m_recv_connection := r |>.
Proof. destruct c; cbn; unfold set_read_enabled, close_connection_async; cbn; by destruct (_ !! _). Qed.

Lemma raise_read_set_recv id data r m : raise_read env id data (m <| m_recv_connection := r |>) = (raise_read env id data m) <| m_recv_connection := r |>.
Proof.
  unfold raise_read. change (reads (emit _ (m <| m_recv_connection := r |>))) with (reads (emit (SERVER_READ id data) m)).
  generalize (on_read env (reads (emit (SERVER_READ id data) m))). intros calls.
  change (emit (SERVER_READ id data) (m <| m_recv_connection := r |>)) with ((emit (SERVER_READ id data) m) <| m_recv_connection := r |>).
  generalize (emit (SERVER_READ id data) m). clear m. induction calls as [|c calls IH]; intros m; [done|]. cbn [fold_left]. by rewrite read_call_set_recv, IH.
Qed.

(** Absorbing in two parts is absorbing at once, and so is completing. *)
Lemma touch_recv id m : m_recv_connection (touch id m) = m_recv_connection m.
Proof. unfold touch. by destruct (_ !! _). Qed.

Lemma absorb_state data m : rc_state (m_recv_connection (absorb data m)) = rc_state (m_recv_connection m).
Proof. destruct m as [? ? [[] ? ? ?]]; done. Qed.

Lemma absorb_need data m :
  recv_ok m -> (length data <= need m)%nat -> need (absorb data m) = (need m - length data)%nat.
Proof.
  intros Hok. unfold need. rewrite absorb_state. unfold absorb, recv_ok in *.
  destruct (rc_state (m_recv_connection m)); cbn [m_recv_connection assign rc_buffer rc_bytes_left]; unfold zlength in *; rewrite ?length_app; lia.
Qed.

Lemma touch_touch id m r :
  is_Some (m_connections m !! id) ->
  touch id ((touch id m) <| m_recv_connection := r |>) = (touch id m) <| m_recv_connection := r |>.
Proof.
  intros [conn Hc]. destruct m as [st sid rc a2i conns timer pe out faults]. cbn in Hc. unfold touch. cbn [m_connections]. rewrite Hc.
  unfold set_connection, assign. cbn. rewrite lookup_insert_eq. by rewrite insert_insert_eq.
Qed.

Lemma absorb_absorb d1 d2 m : recv_ok m -> absorb d2 (absorb d1 m) = absorb (d1 ++ d2) m.
Proof.
  intros Hok. assert (Hz : zlength (d1 ++ d2) = zlength d1 + zlength d2) by (unfold zlength; rewrite length_app; lia).
  unfold absorb at 1. rewrite absorb_state. unfold absorb, recv_ok in *. destruct (rc_state (m_recv_connection m)) eqn:Hs.
  - destruct m as [st sid [rst rid left buf] a2i conns timer pe out faults]. cbn in *. unfold assign; cbn. by rewrite app_assoc.
  - destruct Hok as (_ & Hc & _). cbn [m_recv_connection rc_id assign]. rewrite touch_touch by done.
    generalize (touch (rc_id (m_recv_connection m)) m). intros w. unfold assign. cbn. rewrite app_assoc, Hz. do 2 f_equal. lia.
  - destruct m as [st sid [rst rid left buf] a2i conns timer pe out faults]. cbn in *. unfold assign; cbn. rewrite Hz. do 2 f_equal. lia.
Qed.

(** A prefix of the right length is always read. *)
Lemma get_addresses_total data :
  (36 <= length data)%nat -> exists src dst r, get_addresses data = Some ((src, dst), r).
Proof.
  intros Hn. unfold get_addresses, get_u16. destruct (get_ip_padded_total data) as (a & r & -> & Hr); [lia|]. cbn [mbind option_bind].
  rewrite get_uint_total by lia. cbn [mbind option_bind].
  destruct (get_ip_padded_total (drop 2 r)) as (a' & r' & -> & Hr'); [rewrite length_drop; lia|]. cbn [mbind option_bind].
  rewrite length_drop in Hr'. rewrite get_uint_total by lia. cbn [mbind option_bind]. eauto.
Qed.

Lemma read_prefix_total data m :
  length data = 40%nat ->
  exists info, read_prefix data m = Some info /\ 0 <= pi_payload_length info <= MAX_UDP_PAYLOAD_SIZE.
Proof.
  intros Hn. unfold read_prefix, get_u32. rewrite get_uint_total by lia. cbn [mbind option_bind].
  set (len := be_value _). change (UDPPKT_IN_PREFIX_SIZE - UDPPKT_LENGTH_SIZE) with 36.
  destruct (Z.ltb_spec len 36); [by eexists|].
  destruct (get_addresses_total (drop 4 data)) as (src & dst & r & ->); [rewrite length_drop; lia|]. cbn [mbind option_bind].
  destruct (Z.ltb_spec MAX_UDP_IN_PACKET_LENGTH len); [by eexists|].
  eexists. split; [done|]. cbn [pi_payload_length]. unfold MAX_UDP_IN_PACKET_LENGTH, UDPPKT_IN_PREFIX_SIZE, UDPPKT_LENGTH_SIZE, UDPPKT_ADDR_SIZE, UDPPKT_PORT_SIZE in *. lia.
Qed.

Lemma complete_absorb d1 d2 m :
  recv_ok m -> length (d1 ++ d2) = need m -> complete d2 (absorb d1 m) = complete (d1 ++ d2) m.
Proof.
  intros Hok Hn. unfold complete at 1. rewrite absorb_state. unfold complete, absorb, recv_ok, need in *.
  destruct (rc_state (m_recv_connection m)) eqn:Hs.
  - destruct (read_prefix_total (rc_buffer (m_recv_connection m) ++ d1 ++ d2) m) as (info & Hi & _).
    { rewrite length_app, Hn. unfold zlength in *. unfold UDPPKT_IN_PREFIX_SIZE, UDPPKT_LENGTH_SIZE, UDPPKT_ADDR_SIZE, UDPPKT_PORT_SIZE in *. lia. }
    rewrite Hi. cbn [m_recv_connection assign rc_buffer]. rewrite <- app_assoc.
    match goal with |- match read_prefix _ ?x with _ => _ end = _ => change (read_prefix (rc_buffer (m_recv_connection m) ++ d1 ++ d2) x) with (read_prefix (rc_buffer (m_recv_connection m) ++ d1 ++ d2) m) end.
    rewrite Hi. done.
  - destruct Hok as (_ & Hc & _). cbn [m_recv_connection rc_id assign]. rewrite touch_touch by done. cbn [rc_buffer assign].
    by rewrite app_assoc, raise_read_set_recv.
  - done.
Qed.

(** Each iteration keeps the packet well formed. *)
Lemma touch_connections id id' m :
  is_Some (m_connections (touch id m) !! id') <-> is_Some (m_connections m !! id').
Proof.
  unfold touch. destruct (m_connections m !! id) as [conn|] eqn:Hc; [|done]. cbn.
  destruct (decide (id = id')) as [<-|Hne]; [rewrite lookup_insert_eq, Hc; done|by rewrite lookup_insert_ne].
Qed.

Lemma absorb_ok data m : recv_ok m -> (length data < need m)%nat -> recv_ok (absorb data m).
Proof.
  intros Hok Hn. unfold recv_ok. rewrite absorb_state. unfold recv_ok, absorb, need in *.
  destruct (rc_state (m_recv_connection m)) eqn:Hs; cbn [m_recv_connection assign rc_buffer rc_bytes_left rc_id m_connections].
  - unfold zlength in *. rewrite length_app. split; [lia|apply Hok].
  - destruct Hok as (H1 & H2 & H3). unfold zlength in *. rewrite length_app. split_and!; [lia| |lia].
    by apply (touch_connections (rc_id (m_recv_connection m)) (rc_id (m_recv_connection m)) m).
  - unfold zlength in *. lia.
Qed.

Lemma complete_ok data m : recv_ok m -> length data = need m -> recv_ok (complete data m).
Proof.
  intros Hok Hn. unfold complete, need in *. unfold recv_ok in Hok. destruct (rc_state (m_recv_connection m)) eqn:Hs; [|done..].
  destruct (read_prefix_total (rc_buffer (m_recv_connection m) ++ data) m) as (info & -> & Hp).
  { rewrite length_app, Hn. unfold zlength in *. unfold UDPPKT_IN_PREFIX_SIZE, UDPPKT_LENGTH_SIZE, UDPPKT_ADDR_SIZE, UDPPKT_PORT_SIZE in *. lia. }
  unfold begin_packet, accepts, recv_ok. cbn [m_recv_connection assign m_connections].
  destruct (pi_id info =? NON_ID); [by cbn|]. destruct (m_connections m !! pi_id info) as [conn|] eqn:Hc; [|by cbn].
  destruct (cn_read_enabled conn); [|by cbn]. cbn [rc_state rc_bytes_left rc_id rc_buffer]. split_and!; [lia|by eexists|unfold zlength; cbn; lia].
Qed.

(** The loop ends: an upper bound on the iterations it takes. *)
Definition cost data m : nat := 2 * length data - (if (need m =? 0)%nat then 0 else 1).

Lemma cost_decreases data m :
  recv_ok m -> data <> [] -> (need m <= length data)%nat ->
  (cost (drop (need m) data) (complete (take (need m) data) m) < cost data m)%nat.
Proof.
  intros Hok Hd Hn. unfold cost. rewrite length_drop. destruct (Nat.eqb_spec (need m) 0) as [Hz|Hz].
  - rewrite Hz. assert (Hc : need (complete (take 0 data) m) = 40%nat).
    { unfold complete, need, recv_ok in *. destruct (rc_state (m_recv_connection m)) eqn:Hs; [|done..].
      unfold UDPPKT_IN_PREFIX_SIZE in *. lia. }
    rewrite Hc. destruct data; [done|]. cbn. lia.
  - destruct (_ =? _)%nat; lia.
Qed.

Lemma recv_loop_fuel f1 f2 data m :
  recv_ok m -> (cost data m <= f1)%nat -> (cost data m <= f2)%nat -> recv_loop env f1 data m = recv_loop env f2 data m.
Proof.
  revert f2 data m. induction f1 as [|f1 IH]; intros f2 data m Hok H1 H2; (destruct data as [|b data]; [by destruct f2|]).
  { unfold cost in H1. cbn in H1. destruct (_ =? _)%nat; lia. }
  destruct f2 as [|f2]; [unfold cost in H2; cbn in H2; destruct (_ =? _)%nat; lia|].
  cbn [recv_loop]. rewrite recv_iteration_eq by done.
  destruct (Nat.ltb_spec (length (b :: data)) (need m)) as [Hl|Hl]; [by destruct f1, f2|].
  pose proof (cost_decreases (b :: data) m Hok ltac:(done) Hl). apply IH; [|lia..].
  apply complete_ok; [done|]. rewrite length_take. lia.
Qed.

Lemma receive_eq data m :
  recv_ok m -> data <> [] ->
  receive env data m =
  if (length data <? need m)%nat then absorb data m
  else receive env (drop (need m) data) (complete (take (need m) data) m).
Proof.
  intros Hok Hd. unfold receive. destruct data as [|b data]; [done|].
  rewrite (recv_loop_fuel _ (S (2 * length (b :: data))) (b :: data) m) by (done || unfold cost; lia).
  cbn [recv_loop]. rewrite recv_iteration_eq by done.
  destruct (Nat.ltb_spec (length (b :: data)) (need m)) as [Hl|Hl]; [by destruct (2 * _)%nat|].
  pose proof (cost_decreases (b :: data) m Hok Hd Hl). apply recv_loop_fuel.
  - apply complete_ok; [done|]. rewrite length_take. lia.
  - unfold cost in *. lia.
  - unfold cost in *. lia.
Qed.

Lemma receive_ok data m : recv_ok m -> recv_ok (receive env data m).
Proof.
  remember (cost data m) as n eqn:Hn. revert data m Hn. induction (lt_wf n) as [n _ IH]. intros data m Hn Hok.
  destruct data as [|b data]; [done|]. rewrite receive_eq by done.
  destruct (Nat.ltb_spec (length (b :: data)) (need m)) as [Hl|Hl]; [by apply absorb_ok|].
  pose proof (cost_decreases (b :: data) m Hok ltac:(done) Hl). eapply IH; [|done|]; [lia|].
  apply complete_ok; [done|]. rewrite length_take. lia.
Qed.

(** The stream may be cut anywhere. *)
Lemma receive_app d1 d2 m : recv_ok m -> receive env (d1 ++ d2) m = receive env d2 (receive env d1 m).
Proof.
  remember (cost d1 m) as n eqn:Hn. revert d1 m Hn. induction (lt_wf n) as [n _ IH]. intros d1 m Hn Hok.
  destruct d1 as [|b d1]; [done|]. destruct d2 as [|b2 d2]; [by rewrite app_nil_r|].
  rewrite (receive_eq (b :: d1)) by done. rewrite (receive_eq ((b :: d1) ++ b2 :: d2)) by done.
  set (e1 := b :: d1) in *. set (e2 := b2 :: d2) in *. rewrite length_app.
  destruct (Nat.ltb_spec (length e1) (need m)) as [H1|H1].
  - pose proof (absorb_need e1 m Hok ltac:(lia)) as Hneed. rewrite (receive_eq e2) by (done || by apply absorb_ok). rewrite Hneed.
    destruct (Nat.ltb_spec (length e1 + length e2) (need m)) as [H2|H2].
    + rewrite (proj2 (Nat.ltb_lt _ _)) by lia. by rewrite absorb_absorb.
    + rewrite (proj2 (Nat.ltb_ge _ _)) by lia. rewrite complete_absorb; [|done|].
      * rewrite drop_app_ge, take_app_ge by lia. done.
      * rewrite length_app, length_take. lia.
  - rewrite (proj2 (Nat.ltb_ge _ _)) by lia. rewrite drop_app_le, take_app_le by lia.
    pose proof (cost_decreases e1 m Hok ltac:(done) H1). eapply IH; [|done|]; [lia|].
    apply complete_ok; [done|]. rewrite length_take. lia.
Qed.

(** ** The datagrams in the stream *)

(** A datagram as the endpoint sends it. *)
Record Datagram := mkDatagram { dg_src : SocketAddress; dg_dst : SocketAddress; dg_payload : list Z }.

Definition in_packet (d : Datagram) : list Z :=
  be_bytes 4 (36 + zlength (dg_payload d)) ++ addresses_bytes (dg_src d) (dg_dst d) ++ dg_payload d.

Definition datagram_ok (d : Datagram) : Prop :=
  ip_wf (dg_src d) /\ ip_wf (dg_dst d) /\ in_port (dg_src d) /\ in_port (dg_dst d) /\
  ip_distinct (dg_src d) = true /\ ip_distinct (dg_dst d) = true /\
  zlength (dg_payload d) <= MAX_UDP_PAYLOAD_SIZE.

Definition datagram_info (d : Datagram) m : PacketInfo :=
  mkPacketInfo (default NON_ID (m_addr_to_id m !! mkPair (dg_dst d) (TA_address (dg_src d)))) (zlength (dg_payload d)).

(** Which connections take datagrams. *)
Definition taking m (id : Z) : bool :=
  if id =? NON_ID then false else match m_connections m !! id with Some conn => cn_read_enabled conn | None => false end.

(** The handler turns the reading of the connection on and off. *)
Definition heed (id : Z) (open : Z -> bool) (c : ReadCall) : Z -> bool :=
  match c with
  | CALL_update_flow_control send_buffer_size _ => fun id' => if id' =? id then 0 <? send_buffer_size else open id'
  | CALL_close_connection _ => open
  end.

(** The datagrams that should be read after those that have been: each on the connection whose addresses it reverses,
    if that connection takes datagrams when its turn comes. *)
Fixpoint delivery (route : TunnelAddressPair -> option Z) (past : list (Z * list Z)) (open : Z -> bool) (ds : list Datagram) : list (Z * list Z) :=
  match ds with
  | [] => past
  | d :: ds =>
      match route (mkPair (dg_dst d) (TA_address (dg_src d))) with
      | Some id =>
          if open id then let past := past ++ [(id, dg_payload d)] in delivery route past (fold_left (heed id) (on_read env past) open) ds
          else delivery route past open ds
      | None => delivery route past open ds
      end
  end.

Lemma read_prefix_datagram d m :
  datagram_ok d ->
  read_prefix (be_bytes 4 (36 + zlength (dg_payload d)) ++ addresses_bytes (dg_src d) (dg_dst d)) m = Some (datagram_info d m).
Proof.
  intros (H1 & H2 & H3 & H4 & H5 & H6 & H7). pose proof (Nat2Z.is_nonneg (length (dg_payload d))) as H0. fold (zlength (dg_payload d)) in H0.
  unfold read_prefix, get_u32.
  rewrite get_uint_app by (unfold in_width, MAX_UDP_PAYLOAD_SIZE in *; lia). cbn [mbind option_bind].
  change (UDPPKT_IN_PREFIX_SIZE - UDPPKT_LENGTH_SIZE) with 36. rewrite (proj2 (Z.ltb_ge _ _)) by lia.
  rewrite <- (app_nil_r (addresses_bytes _ _)), get_addresses_app by done. cbn [mbind option_bind].
  rewrite (proj2 (Z.ltb_ge _ _)).
  - unfold datagram_info. do 2 f_equal. lia.
  - unfold MAX_UDP_IN_PACKET_LENGTH, UDPPKT_IN_PREFIX_SIZE, UDPPKT_LENGTH_SIZE, UDPPKT_ADDR_SIZE, UDPPKT_PORT_SIZE. lia.
Qed.

Lemma empty_ok m : m_recv_connection m = recv_empty -> recv_ok m /\ need m = 40%nat.
Proof. intros Hr. unfold recv_ok, need. by rewrite Hr. Qed.

(** The multiplexer after a datagram. *)
Definition after_datagram d m : Mux :=
  let info := datagram_info d m in
  (if accepts info m then raise_read env (pi_id info) (dg_payload d) (touch (pi_id info) m) else m) <| m_recv_connection := recv_empty |>.

(** A datagram is taken from the stream with its last byte, an empty one with the first byte behind it. *)
Lemma receive_datagram d rest m :
  datagram_ok d -> m_recv_connection m = recv_empty -> dg_payload d ++ rest <> [] ->
  receive env (in_packet d ++ rest) m = receive env rest (after_datagram d m).
Proof.
  intros Hd Hr Hne. destruct (empty_ok m Hr) as [Hok Hneed]. pose proof Hd as (H1 & H2 & _ & _ & _ & _ & H7).
  set (prefix := be_bytes 4 (36 + zlength (dg_payload d)) ++ addresses_bytes (dg_src d) (dg_dst d)).
  assert (Hp : in_packet d ++ rest = prefix ++ dg_payload d ++ rest) by (unfold prefix, in_packet; by rewrite <- !app_assoc).
  assert (Hl : length prefix = 40%nat) by (unfold prefix; rewrite length_app, be_bytes_length, addresses_length; done).
  rewrite Hp, receive_eq; [|done|by destruct prefix]. rewrite Hneed, length_app, Hl, (proj2 (Nat.ltb_ge _ _)) by lia.
  rewrite <- Hl, drop_app_length, take_app_length. unfold complete at 1. rewrite Hr. cbn [rc_state recv_empty rc_buffer app].
  unfold prefix. rewrite read_prefix_datagram by done. fold prefix. unfold after_datagram. cbv zeta. set (info := datagram_info d m).
  assert (Hlen : pi_payload_length info = zlength (dg_payload d)) by done.
  assert (Hb : recv_ok (begin_packet info m) /\ need (begin_packet info m) = length (dg_payload d)).
  { unfold begin_packet, accepts, recv_ok, need. cbn [m_recv_connection assign m_connections].
    destruct (pi_id info =? NON_ID); [cbn; unfold zlength in *; lia|].
    destruct (m_connections m !! pi_id info) as [conn|] eqn:Hc; [|cbn; unfold zlength in *; lia].
    destruct (cn_read_enabled conn); cbn; rewrite ?Hlen; unfold zlength in *; [|lia]. split; [|lia]. split_and!; [lia|by eexists|cbn; lia]. }
  destruct Hb as [Hb1 Hb2]. rewrite receive_eq by done. rewrite Hb2, length_app, (proj2 (Nat.ltb_ge _ _)) by lia.
  rewrite drop_app_length, take_app_length. f_equal.
  unfold complete, begin_packet. cbn [m_recv_connection assign]. destruct (accepts info m) eqn:Hacc; cbn [rc_state rc_id rc_buffer app]; [|done].
  by rewrite touch_set_recv, raise_read_set_recv.
Qed.

(** What the handler does changes which connections take datagrams, and nothing of where they are sent. *)
Lemma accepts_taking info m : accepts info m = taking m (pi_id info).
Proof. done. Qed.

Lemma taking_set id conn m id' : id <> NON_ID ->
  taking (set_connection id conn m) id' = if id' =? id then cn_read_enabled conn else taking m id'.
Proof.
  intros Hid. unfold taking. cbn. destruct (Z.eqb_spec id' id) as [->|Hne]; [|by rewrite lookup_insert_ne].
  by rewrite (proj2 (Z.eqb_neq _ _) Hid), lookup_insert_eq.
Qed.

Lemma taking_call id c m : id <> NON_ID -> is_Some (m_connections m !! id) ->
  is_Some (m_connections (read_call id m c) !! id) /\ m_addr_to_id (read_call id m c) = m_addr_to_id m /\ reads (read_call id m c) = reads m /\
  forall id', taking (read_call id m c) id' = heed id (taking m) c id'.
Proof.
  intros Hid [conn Hc]. destruct c as [size window|graceful]; cbn [read_call heed]; unfold set_read_enabled, close_connection_async; rewrite Hc;
    (split_and!; [cbn; rewrite lookup_insert_eq; by eexists|done|done|intros id'; rewrite taking_set by done]); cbn [cn_read_enabled assign]; [done|].
  destruct (Z.eqb_spec id' id) as [->|]; [|done]. unfold taking. by rewrite (proj2 (Z.eqb_neq _ _) Hid), Hc.
Qed.

Lemma heed_ext id calls : forall open open' : Z -> bool, (forall id', open id' = open' id') -> forall id', fold_left (heed id) calls open id' = fold_left (heed id) calls open' id'.
Proof.
  induction calls as [|c calls IH]; intros open open' He; [done|]. cbn [fold_left]. apply IH. intros id'. destruct c; cbn; [by destruct (_ =? _)|done].
Qed.

Lemma taking_calls id calls : id <> NON_ID -> forall m, is_Some (m_connections m !! id) ->
  let m' := fold_left (read_call id) calls m in
  m_addr_to_id m' = m_addr_to_id m /\ reads m' = reads m /\ forall id', taking m' id' = fold_left (heed id) calls (taking m) id'.
Proof.
  intros Hid. induction calls as [|c calls IH]; intros m Hc; [done|]. cbn [fold_left]. destruct (taking_call id c m Hid Hc) as (T1 & T2 & T3 & T4).
  destruct (IH _ T1) as (I1 & I2 & I3). split_and!; [congruence|congruence|]. intros id'. rewrite I3. by apply heed_ext.
Qed.

Lemma delivery_ext route ds : forall past (open open' : Z -> bool), (forall id, open id = open' id) -> delivery route past open ds = delivery route past open' ds.
Proof.
  induction ds as [|d ds IH]; intros past open open' He; [done|]. cbn [delivery]. destruct (route _) as [id|]; [|by apply IH].
  rewrite He. destruct (open' id); [|by apply IH]. apply IH. by apply heed_ext.
Qed.

Lemma touch_addr id m : m_addr_to_id (touch id m) = m_addr_to_id m.
Proof. unfold touch. by destruct (_ !! _). Qed.

Lemma accepts_some info m : accepts info m = true -> pi_id info <> NON_ID /\ is_Some (m_connections m !! pi_id info).
Proof. unfold accepts. destruct (Z.eqb_spec (pi_id info) NON_ID); [done|]. by destruct (m_connections m !! pi_id info). Qed.

Lemma touch_taking id m id' : id <> NON_ID -> is_Some (m_connections m !! id) -> taking (touch id m) id' = taking m id' /\ m_out (touch id m) = m_out m.
Proof.
  intros Hid [conn Hc]. unfold touch. rewrite Hc. split; [|done]. rewrite taking_set by done. cbn. destruct (Z.eqb_spec id' id) as [->|]; [|done].
  unfold taking. by rewrite (proj2 (Z.eqb_neq _ _) Hid), Hc.
Qed.

Lemma after_datagram_delivery d ds m : let m' := after_datagram d m in
  delivery (fun a => m_addr_to_id m !! a) (reads m) (taking m) (d :: ds) = delivery (fun a => m_addr_to_id m' !! a) (reads m') (taking m') ds.
Proof.
  cbv zeta. unfold after_datagram. cbv zeta. set (info := datagram_info d m). set (m1 := if accepts info m then _ else m).
  change (delivery _ (reads (m1 <| m_recv_connection := recv_empty |>)) _ ds) with (delivery (fun a => m_addr_to_id m1 !! a) (reads m1) (taking m1) ds).
  cbn [delivery]. assert (pi_id info = default NON_ID (m_addr_to_id m !! mkPair (dg_dst d) (TA_address (dg_src d)))) as Ei by done.
  subst m1. clearbody info. rewrite accepts_taking. destruct (m_addr_to_id m !! _) as [id|]; cbn in Ei; rewrite Ei; [|done]. destruct (taking m id) eqn:Et; [|done].
  destruct (accepts_some info m) as [Hid Hc]; [by rewrite accepts_taking, Ei|]. rewrite Ei in Hid, Hc. unfold raise_read. set (m2 := emit _ (touch id m)).
  assert (reads m2 = reads m ++ [(id, dg_payload d)]) as Er by (unfold reads, m2; cbn; by rewrite (proj2 (touch_taking id m id Hid Hc)), omap_app).
  destruct (taking_calls id (on_read env (reads m2)) Hid m2) as (C1 & C2 & C3); [by apply (touch_connections id id m)|].
  rewrite C1, C2, Er. change (m_addr_to_id m2) with (m_addr_to_id (touch id m)). rewrite touch_addr. apply delivery_ext. intros id'.
  rewrite <- Er, C3. apply heed_ext. intros id2. symmetry. by apply (touch_taking id m id2).
Qed.

Lemma receive_datagrams ds : forall m, Forall datagram_ok ds -> (forall d, last ds = Some d -> dg_payload d <> []) -> m_recv_connection m = recv_empty ->
  reads (receive env (concat (map in_packet ds)) m) = delivery (fun a => m_addr_to_id m !! a) (reads m) (taking m) ds.
Proof.
  induction ds as [|d ds IH]; intros m Hds Hlast Hr; [done|]. apply Forall_cons in Hds as [Hd Hds]. cbn [map concat].
  rewrite receive_datagram; [|done|done|].
  - rewrite IH, after_datagram_delivery; [done|done| |done]. intros d' Hd'. apply Hlast. by destruct ds.
  - destruct ds as [|d' ds]; [rewrite app_nil_r; by apply Hlast|]. cbn [map concat]. intros [_ En]%app_eq_nil. apply (f_equal length) in En.
    unfold in_packet in En. rewrite !length_app, be_bytes_length in En. cbn in En. lia.
Qed.

(** ** Multiplexers that have read the same

    The acknowledgements of consumed bytes between the chunks are the only trace
    of how the stream was cut. *)
Definition mux_equiv m1 m2 : Prop := m1 <| m_out := [] |> = m2 <| m_out := [] |> /\ reads m1 = reads m2.

#[local] Instance mux_equivalence : Equivalence mux_equiv.
Proof.
  split.
  - by intros m.
  - by intros m1 m2 [H1 H2].
  - intros m1 m2 m3 [H1 H2] [H3 H4]. split; congruence.
Qed.

Lemma mux_equiv_out m o : reads m = omap (fun o => match o with SERVER_READ id data => Some (id, data) | _ => None end) o ->
  mux_equiv m (m <| m_out := o |>).
Proof. by intros H1. Qed.

(** Equivalent multiplexers are one and the same up to the output. *)
Lemma mux_equiv_cases m1 m2 : mux_equiv m1 m2 -> m2 = m1 <| m_out := m_out m2 |> /\ reads m1 = reads m2.
Proof.
  intros [H1 H2]. split; [|done]. trans ((m2 <| m_out := [] |>) <| m_out := m_out m2 |>); [by destruct m2|].
  rewrite <- H1. done.
Qed.

#[local] Instance emit_proper o : Proper (mux_equiv ==> mux_equiv) (emit o).
Proof.
  intros m1 m2 Hm. apply mux_equiv_cases in Hm as [-> Hr]. split; [done|]. unfold reads in *. cbn in *. by rewrite !omap_app, Hr.
Qed.

Lemma emit_consume i n m : mux_equiv (emit (CONSUME i n) m) m.
Proof. split; [done|]. unfold reads. cbn. by rewrite omap_app, app_nil_r. Qed.

#[local] Instance touch_proper id : Proper (mux_equiv ==> mux_equiv) (touch id).
Proof.
  intros m1 m2 Hm. apply mux_equiv_cases in Hm as [-> Hr]. unfold touch. cbn [m_connections assign].
  by destruct (m_connections m1 !! id).
Qed.

#[local] Instance read_call_proper id c : Proper (mux_equiv ==> mux_equiv) (fun m => read_call id m c).
Proof.
  intros m1 m2 Hm. pose proof (emit_proper (SERVER_CONNECTION_CLOSED id) m1 m2 Hm) as He. revert He. apply mux_equiv_cases in Hm as [-> Hr]. intros He.
  destruct c; cbn; unfold set_read_enabled, close_connection_async; cbn; (destruct (m_connections m1 !! id); [done|]); [done|exact He].
Qed.

#[local] Instance raise_read_proper id data : Proper (mux_equiv ==> mux_equiv) (raise_read env id data).
Proof.
  intros m1 m2 Hm. unfold raise_read. apply (emit_proper (SERVER_READ id data)) in Hm. rewrite (proj2 Hm). generalize (on_read env (reads (emit (SERVER_READ id data) m2))).
  intros calls. revert Hm. generalize (emit (SERVER_READ id data) m1) (emit (SERVER_READ id data) m2). induction calls as [|c calls IH]; intros n1 n2 Hn; [done|].
  cbn [fold_left]. apply IH. by apply (read_call_proper id c).
Qed.

#[local] Instance set_recv_proper : Proper (eq ==> mux_equiv ==> mux_equiv) (fun r m => m <| m_recv_connection := r |>).
Proof. intros r ? <- m1 m2 Hm. by apply mux_equiv_cases in Hm as [-> Hr]. Qed.

(** Equivalent multiplexers receive the same. *)
Lemma equiv_recv m1 m2 : mux_equiv m1 m2 -> m_recv_connection m2 = m_recv_connection m1.
Proof. intros Hm. by apply mux_equiv_cases in Hm as [-> _]. Qed.

Lemma absorb_equiv data m1 m2 : mux_equiv m1 m2 -> mux_equiv (absorb data m1) (absorb data m2).
Proof.
  intros Hm. unfold absorb. rewrite (equiv_recv m1 m2 Hm).
  destruct (rc_state (m_recv_connection m1)); apply set_recv_proper; try done; by apply touch_proper.
Qed.

Lemma complete_equiv data m1 m2 : mux_equiv m1 m2 -> mux_equiv (complete data m1) (complete data m2).
Proof.
  intros Hm. unfold complete. rewrite (equiv_recv m1 m2 Hm). destruct (rc_state (m_recv_connection m1)).
  - pose proof (mux_equiv_cases m1 m2 Hm) as [-> Hr]. cbn.
    change (read_prefix (rc_buffer (m_recv_connection m1) ++ data) (m1 <| m_out := m_out m2 |>))
      with (read_prefix (rc_buffer (m_recv_connection m1) ++ data) m1).
    by destruct (read_prefix _ _).
  - apply set_recv_proper; [done|]. by apply raise_read_proper, touch_proper.
  - by apply set_recv_proper.
Qed.

Lemma equiv_ok m1 m2 : mux_equiv m1 m2 -> recv_ok m1 -> recv_ok m2 /\ need m2 = need m1.
Proof. intros Hm. by apply mux_equiv_cases in Hm as [-> _]. Qed.

Lemma receive_equiv data m1 m2 : recv_ok m1 -> mux_equiv m1 m2 -> mux_equiv (receive env data m1) (receive env data m2).
Proof.
  remember (cost data m1) as n eqn:Hn. revert data m1 m2 Hn. induction (lt_wf n) as [n _ IH]. intros data m1 m2 Hn Hok Hm.
  destruct data as [|b data]; [done|]. destruct (equiv_ok m1 m2 Hm Hok) as [Hok2 Hneed].
  rewrite (receive_eq (b :: data) m1), (receive_eq (b :: data) m2) by done. rewrite Hneed.
  destruct (Nat.ltb_spec (length (b :: data)) (need m1)) as [Hl|Hl]; [by apply absorb_equiv|].
  pose proof (cost_decreases (b :: data) m1 Hok ltac:(done) Hl). eapply IH; [|done| |by apply complete_equiv]; [lia|].
  apply complete_ok; [done|]. rewrite length_take. lia.
Qed.

(** What holds before and after each iteration holds after the loop. *)
Lemma receive_ind (P : Mux -> Prop) :
  (forall data m, recv_ok m -> P m -> (length data < need m)%nat -> P (absorb data m)) ->
  (forall data m, recv_ok m -> P m -> length data = need m -> P (complete data m)) ->
  forall data m, recv_ok m -> P m -> P (receive env data m).
Proof.
  intros Ha Hc data m. remember (cost data m) as n eqn:Hn. revert data m Hn. induction (lt_wf n) as [n _ IH]. intros data m Hn Hok HP.
  destruct data as [|b data]; [done|]. rewrite receive_eq by done.
  destruct (Nat.ltb_spec (length (b :: data)) (need m)) as [Hl|Hl]; [by apply Ha|].
  assert (Ht : length (take (need m) (b :: data)) = need m) by (rewrite length_take; lia).
  pose proof (cost_decreases (b :: data) m Hok ltac:(done) Hl). eapply IH; [|done|by apply complete_ok|by apply Hc]. lia.
Qed.

Lemma touch_state id m : m_state (touch id m) = m_state m.
Proof. unfold touch. by destruct (_ !! _). Qed.

Lemma raise_read_state id data m : m_state (raise_read env id data m) = m_state m.
Proof.
  unfold raise_read. generalize (on_read env (reads (emit (SERVER_READ id data) m))). intros calls. change (m_state m) with (m_state (emit (SERVER_READ id data) m)).
  generalize (emit (SERVER_READ id data) m). clear m. induction calls as [|c calls IH]; intros m; [done|]. cbn [fold_left]. rewrite IH.
  destruct c; cbn; unfold set_read_enabled, close_connection_async; by destruct (_ !! _).
Qed.

Lemma receive_state data m : recv_ok m -> m_state (receive env data m) = m_state m.
Proof.
  intros Hok. apply (receive_ind (fun m' => m_state m' = m_state m)); [| |done..].
  - intros d m' _ Hm _. unfold absorb. destruct (rc_state (m_recv_connection m')); cbn [m_state assign]; by rewrite ?touch_state.
  - intros d m' _ Hm _. unfold complete. destruct (rc_state (m_recv_connection m')); cbn [m_state assign emit]; rewrite ?raise_read_state, ?touch_state; try done.
    by destruct (read_prefix _ _).
Qed.

(** The chunks of a stream, one read event each. *)
Definition process_chunks (chunks : list (list Z)) m : Mux :=
  fold_left (fun m data => process_read_event env data m) chunks m.

Lemma process_read_event_eq data m :
  m_state m = MS_ESTABLISHED ->
  process_read_event env data m = emit (CONSUME (m_stream_id (receive env data m)) (zlength data)) (receive env data m).
Proof. intros Hs. unfold process_read_event, assert_established, established. by rewrite Hs. Qed.

Lemma process_chunks_equiv chunks m :
  recv_ok m -> m_state m = MS_ESTABLISHED -> mux_equiv (process_chunks chunks m) (receive env (concat chunks) m).
Proof.
  revert m. induction chunks as [|data chunks IH]; intros m Hok Hs; [done|]. cbn [concat].
  change (process_chunks (data :: chunks) m) with (process_chunks chunks (process_read_event env data m)).
  rewrite process_read_event_eq by done. rewrite receive_app by done.
  set (m1 := receive env data m). assert (Hok1 : recv_ok m1) by by apply receive_ok.
  assert (Hs1 : m_state m1 = MS_ESTABLISHED) by (unfold m1; by rewrite receive_state).
  pose proof (emit_consume (m_stream_id m1) (zlength data) m1) as He. symmetry in He.
  destruct (equiv_ok _ _ He Hok1) as [Hok2 _]. etrans; [by apply IH|]. symmetry. by apply receive_equiv.
Qed.

(** C34.  However the stream of the endpoint is cut into chunks: the datagrams in
    it cause exactly the read events they should, in order.  A datagram is read
    on the connection whose addresses it reverses, if that connection is there and
    takes data when the datagram has its turn, and is skipped otherwise, without harm
    to the ones behind it.  The handler may turn the reading of a connection off and
    on with each datagram that it is given, and ask to close the connection.  Empty
    datagrams are read too, except at the very end, where one waits for the next byte. *)
Theorem udp_stream_delivers chunks ds m :
  m_state m = MS_ESTABLISHED -> m_recv_connection m = recv_empty -> Forall datagram_ok ds -> (forall d, last ds = Some d -> dg_payload d <> []) ->
  concat chunks = concat (map in_packet ds) ->
  reads (process_chunks chunks m) = delivery (fun a => m_addr_to_id m !! a) (reads m) (taking m) ds.
Proof.
  intros Hs Hr Hds Hlast Hc. destruct (empty_ok m Hr) as [Hok _].
  destruct (process_chunks_equiv chunks m Hok Hs) as [_ ->]. rewrite Hc. by apply receive_datagrams.
Qed.

(** C35.  Cutting a chunk in two changes nothing but the acknowledgements: the
    connections, the packet being received and the read events are the same. *)
Theorem udp_chunking_irrelevant d1 d2 m :
  recv_ok m -> m_state m = MS_ESTABLISHED ->
  mux_equiv (process_chunks [d1 ++ d2] m) (process_chunks [d1; d2] m).
Proof.
  intros Hok Hs. etrans; [by apply process_chunks_equiv|]. symmetry. etrans; [by apply process_chunks_equiv|].
  cbn [concat]. by rewrite !app_nil_r.
Qed.

End Receive.
