(* ===== verification/UdpMuxInvariant.v ===== *)
(** * UDP over one HTTP stream: the invariant

    Every state the multiplexer can reach is well formed ([mux_wf]), no assertion
    of the code fails on the way, and closing it tells every connection; and
    four runs that do not do what they should. *)

From S2P Require Import Prelude VpnTypes Wire UdpMux UdpMuxProofs.

Inductive Input :=
  | I_open (id : Z) (addr : TunnelAddressPair) (app_name : list Z)
  | I_open_task (id : Z)
  | I_close_connection (id : Z) (async : bool)
  | I_close_task (id : Z)
  | I_send (id : Z) (data : list Z)
  | I_read (data : list Z)
  | I_timer (order : list Z)
  | I_response (status_code : Z)
  | I_report (order : list Z)
  | I_set_read (id : Z) (v : bool)
  | I_close (order : list Z) (error : VpnError).

Section Invariant.
Context `{SocketAddressLib}.
Implicit Types (m : Mux) (env : Env).

Definition step env (i : Input) m : Mux :=
  match i with
  | I_open id addr app_name => snd (open_connection env id addr app_name m)
  | I_open_task id => complete_udp_connection id m
  | I_close_connection id true => close_connection_async id m
  | I_close_connection id false | I_close_task id => close_connection id m
  | I_send id data => snd (send env id data m)
  | I_read data => process_read_event env data m
  | I_timer order => timer_callback env order m
  | I_response status_code => handle_response env status_code m
  | I_report order => report_sent_bytes order m
  | I_set_read id v => set_read_enabled id v m
  | I_close order error => close order error m
  end.

(** The order in which a table is walked: each of its keys once. *)
Definition walks (order : list Z) m : Prop := order ≡ₚ elements (dom (m_connections m)).

(** What the upstream owes the multiplexer: a new connection has a new identifier
    and the address of a host; only scheduled tasks run; the stream's events
    come while there is a stream. *)
Definition input_ok (i : Input) m : Prop :=
  match i with
  | I_open id addr _ => id <> NON_ID /\ m_connections m !! id = None /\ exists a, tap_dst addr = TA_address a
  | I_open_task id => exists c, m_connections m !! id = Some c /\ cn_open_task c = true
  | I_close_task id => exists c, m_connections m !! id = Some c /\ cn_close_task c = true
  | I_send _ _ | I_read _ | I_response _ => m_state m = MS_ESTABLISHED
  | I_timer order => m_timer_event m = true /\ walks order m
  | I_report order | I_close order _ => walks order m
  | I_close_connection _ _ | I_set_read _ _ => True
  end.

Inductive mux_reachable : Mux -> Prop :=
  | MR_new : mux_reachable mux_new
  | MR_step env i m : mux_reachable m -> input_ok i m -> mux_reachable (step env i m).

Definition routes_ok m : Prop :=
  forall a id, m_addr_to_id m !! a = Some id -> exists c, m_connections m !! id = Some c /\ cn_addr c = a.

Definition mux_wf m : Prop :=
  m_faults m = [] /\ recv_ok m /\ routes_ok m /\ m_connections m !! NON_ID = None /\
  (forall id c, m_connections m !! id = Some c -> exists a, tap_dst (cn_addr c) = TA_address a) /\
  (m_state m = MS_IDLE -> m_stream_id m = 0 /\ m_connections m = ∅ /\ m_recv_connection m = recv_empty) /\
  (m_connections m <> ∅ -> m_timer_event m = true).

(** Outputs do not matter. *)
Lemma wf_emit o m : mux_wf m -> mux_wf (emit o m).
Proof. done. Qed.

(** A connection that changes but not its address. *)
Lemma wf_set_connection id c c' m :
  mux_wf m -> m_connections m !! id = Some c -> cn_addr c' = cn_addr c -> mux_wf (set_connection id c' m).
Proof.
  intros (H1 & H2 & H3 & H4 & H5 & H6 & H7) Hc Ha. split_and!; cbn; try done.
  - unfold recv_ok in *. cbn. destruct (rc_state (m_recv_connection m)); try done. destruct H2 as (? & ? & ?). split_and!; try done.
    destruct (decide (id = rc_id (m_recv_connection m))) as [->|]; [rewrite lookup_insert_eq; by eexists|by rewrite lookup_insert_ne].
  - intros a id' Hl. destruct (H3 a id' Hl) as (c0 & Hc0 & Hadr). cbn. destruct (decide (id = id')) as [<-|].
    + rewrite lookup_insert_eq. exists c'. split; [done|congruence].
    + rewrite lookup_insert_ne by done. by exists c0.
  - rewrite lookup_insert_ne; [done|]. intros ->. congruence.
  - intros id' c0. destruct (decide (id = id')) as [<-|]; [rewrite lookup_insert_eq; intros [= <-]; rewrite Ha; by eapply H5|].
    rewrite lookup_insert_ne by done. apply H5.
  - intros Hi. destruct (H6 Hi) as (_ & He & _). by rewrite He in Hc.
  - intros _. apply H7. intros He. by rewrite He in Hc.
Qed.

Lemma clean_ok id m : mux_wf m -> mux_wf (clean_connection_data id m).2.
Proof.
  intros Hwf. pose proof Hwf as (H1 & H2 & H3 & H4 & H5 & H6 & H7). unfold clean_connection_data.
  destruct (m_connections m !! id) as [conn|] eqn:Hc; [|done]. cbn [snd].
  assert (Hne : id <> NON_ID) by congruence.
  set (m1 := if rc_id (m_recv_connection m) =? id then _ else m).
  assert (Hm1 : m_faults m1 = m_faults m /\ m_addr_to_id m1 = m_addr_to_id m /\ m_connections m1 = m_connections m /\
                m_state m1 = m_state m /\ m_stream_id m1 = m_stream_id m /\ m_timer_event m1 = m_timer_event m)
    by (unfold m1; by destruct (_ =? _)).
  destruct Hm1 as (E1 & E2 & E3 & E4 & E5 & E6). split_and!; cbn; rewrite ?E1, ?E2, ?E3, ?E4, ?E5, ?E6; try done.
  - unfold recv_ok, m1 in *. destruct (Z.eqb_spec (rc_id (m_recv_connection m)) id) as [Heq|Heq]; cbn.
    + destruct (rc_state (m_recv_connection m)); [destruct H2; congruence| |done].
      destruct H2 as (? & ? & ?). unfold zlength in *. lia.
    + destruct (rc_state (m_recv_connection m)); try done. destruct H2 as (? & ? & ?). by rewrite lookup_delete_ne.
  - intros a id'. cbn. rewrite ?E2, ?E3. rewrite lookup_delete_Some. intros [Hadr Hl]. destruct (H3 a id' Hl) as (c0 & Hc0 & Ha0).
    exists c0. split; [|done]. rewrite lookup_delete_ne; [done|]. intros ->. congruence.
  - by rewrite lookup_delete_ne.
  - intros id' c0. rewrite lookup_delete_Some. intros [_ ?]. by eapply H5.
  - intros Hi. destruct (H6 Hi) as (_ & He & _). by rewrite He in Hc.
  - intros _. apply H7. intros He. by rewrite He in Hc.
Qed.

Lemma clean_connections id m : m_connections (clean_connection_data id m).2 = delete id (m_connections m).
Proof.
  unfold clean_connection_data. destruct (m_connections m !! id) as [conn|] eqn:Hc; cbn.
  - by destruct (_ =? _).
  - by rewrite delete_id.
Qed.

Lemma clean_out id m : m_out (clean_connection_data id m).2 = m_out m /\ m_faults (clean_connection_data id m).2 = m_faults m.
Proof. unfold clean_connection_data. destruct (m_connections m !! id) as [conn|]; [|done]. by destruct (_ =? _). Qed.

(** Closing: every connection of the walk ends, in its order. *)
Definition end_event (error : option VpnError) (id : Z) : Out :=
  match error with Some e => SERVER_ERROR id e | None => SERVER_CONNECTION_CLOSED id end.

Lemma close_one_eq error m id : close_one error m id = (clean_connection_data id (emit (end_event error id) m)).2.
Proof. by destruct error. Qed.

Lemma close_fold error order m :
  mux_wf m ->
  let m' := fold_left (close_one error) order m in
  mux_wf m' /\ m_out m' = m_out m ++ map (end_event error) order /\
  m_connections m' = foldr delete (m_connections m) (reverse order).
Proof.
  revert m. induction order as [|id order IH]; intros m Hwf; cbn [fold_left map].
  { split_and!; [done|by rewrite app_nil_r|done]. }
  rewrite close_one_eq. destruct (IH (clean_connection_data id (emit (end_event error id) m)).2) as (I1 & I2 & I3).
  { by apply clean_ok, wf_emit. }
  split_and!; [done| |].
  - rewrite I2, (proj1 (clean_out _ _)). cbn. by rewrite <- app_assoc.
  - rewrite I3, clean_connections, reverse_cons, foldr_app. done.
Qed.

Lemma delete_all (order : list Z) (conns : gmap Z Connection) :
  order ≡ₚ elements (dom conns) -> foldr delete conns (reverse order) = ∅.
Proof.
  intros Hp. apply map_eq. intros id. rewrite lookup_empty.
  assert (Hl : forall l, foldr delete conns l !! id = if decide (id ∈ l) then None else conns !! id).
  { induction l as [|x l IH]; cbn [foldr]; [by rewrite decide_False by set_solver|].
    destruct (decide (x = id)) as [->|Hne]; [rewrite lookup_delete_eq, decide_True by set_solver; done|].
    rewrite lookup_delete_ne, IH by done. destruct (decide (id ∈ l)); [by rewrite decide_True by set_solver|].
    by rewrite decide_False by set_solver. }
  rewrite Hl. destruct (decide (id ∈ reverse order)) as [|Hn]; [done|].
  apply not_elem_of_dom. intros Hd. apply Hn. rewrite elem_of_reverse, Hp. by apply elem_of_elements.
Qed.

Lemma reset_ok m : m_faults m = [] -> m_connections m = ∅ -> mux_wf (reset m).
Proof.
  intros Hf Hc. split_and!; cbn; try done; rewrite ?Hc; try done; intros ? ?; by rewrite lookup_empty.
Qed.

Lemma close_ok order error m : mux_wf m -> walks order m -> mux_wf (close order error m).
Proof.
  intros Hwf Hw. unfold close. set (e := match m_pending_error m with Some _ => _ | None => _ end).
  destruct (close_fold e order m Hwf) as ((Hf & _) & _ & Hc). apply reset_ok; [done|]. rewrite Hc. by apply delete_all.
Qed.

Lemma open_stream_ok env m : mux_wf m -> mux_wf (open_stream env m).2 /\ m_connections (open_stream env m).2 = m_connections m.
Proof.
  intros Hwf. pose proof Hwf as (H1 & H2 & H3 & H4 & H5 & H6 & H7). unfold open_stream. destruct (m_state m) eqn:Hs; [|done].
  destruct (H6 eq_refl) as (Hi & He & Hr). rewrite Hi. cbn [Z.eqb]. destruct (send_connect_request env); [|done].
  split; [|done]. by split_and!.
Qed.

Lemma open_connection_ok env id addr app m :
  mux_wf m -> input_ok (I_open id addr app) m -> mux_wf (open_connection env id addr app m).2.
Proof.
  intros Hwf (Hid & Hn & a & Ha). unfold open_connection. rewrite Ha, Hn.
  destruct (open_stream_ok env m Hwf) as [Hw Hc]. destruct (open_stream env m) as [ok m1] eqn:Ho. cbn [snd] in *.
  destruct ok; cbn [negb snd]; [|done]. pose proof Hw as (H1 & H2 & H3 & H4 & H5 & H6 & H7).
  assert (Hst : m_state m1 <> MS_IDLE).
  { unfold open_stream in Ho. destruct (m_state m) eqn:Hs; [|injection Ho as <-; congruence].
    destruct (send_connect_request env); [|done]. injection Ho as <-. by destruct (_ =? _). }
  split_and!; cbn; try done.
  - unfold recv_ok in *. cbn. destruct (rc_state (m_recv_connection m1)); try done. destruct H2 as (? & ? & ?). split_and!; try done.
    destruct (decide (id = rc_id (m_recv_connection m1))) as [->|]; [rewrite lookup_insert_eq; by eexists|by rewrite lookup_insert_ne].
  - intros x id' Hl. destruct (H3 x id' Hl) as (c0 & Hc0 & Hadr). exists c0. split; [|done]. cbn. rewrite lookup_insert_ne; [done|]. intros ->. congruence.
  - by rewrite lookup_insert_ne.
  - intros id' c0. destruct (decide (id = id')) as [<-|]; [rewrite lookup_insert_eq; intros [= <-]; by exists a|].
    rewrite lookup_insert_ne by done. apply H5.
Qed.

Lemma wf_set_recv r m :
  mux_wf m -> m_state m = MS_ESTABLISHED -> recv_ok (m <| m_recv_connection := r |>) -> mux_wf (m <| m_recv_connection := r |>).
Proof. intros (H1 & H2 & H3 & H4 & H5 & H6 & H7) Hs Hok. split_and!; try done. cbn. congruence. Qed.

Lemma wf_touch env id m : mux_wf m -> is_Some (m_connections m !! id) -> mux_wf (touch env id m).
Proof. intros Hwf [c Hc]. unfold touch. rewrite Hc. by eapply wf_set_connection. Qed.

Definition receiving m : Prop := mux_wf m /\ m_state m = MS_ESTABLISHED.

Lemma touch_receiving env id m : receiving m -> is_Some (m_connections m !! id) -> receiving (touch env id m).
Proof. intros [Hwf Hs] Hc. split; [by apply wf_touch|by rewrite touch_state]. Qed.

Lemma raise_read_wf env id data m : mux_wf m -> mux_wf (raise_read env id data m).
Proof.
  intros Hwf. unfold raise_read. generalize (on_read env (reads (emit (SERVER_READ id data) m))). intros calls. apply (wf_emit (SERVER_READ id data)) in Hwf.
  revert Hwf. generalize (emit (SERVER_READ id data) m). clear m. induction calls as [|c calls IH]; intros m Hwf; [done|]. cbn [fold_left]. apply IH.
  destruct c; cbn; unfold set_read_enabled, close_connection_async; (destruct (m_connections m !! id) as [conn|] eqn:Hc; [by eapply wf_set_connection|done]).
Qed.

Lemma absorb_receiving env data m :
  recv_ok m -> receiving m -> (length data < need m)%nat -> receiving (absorb env data m).
Proof.
  intros Hok Hr Hn. pose proof (absorb_ok env data m Hok Hn) as Hok'. unfold absorb, recv_ok in *. destruct Hr as [Hwf Hs].
  destruct (rc_state (m_recv_connection m)) eqn:Hst.
  - split; [|done]. by apply wf_set_recv.
  - destruct Hok as (_ & Hc & _). destruct (touch_receiving env _ m (conj Hwf Hs) Hc) as [Hw1 Hs1]. split; [|done]. by apply wf_set_recv.
  - split; [|done]. by apply wf_set_recv.
Qed.

Lemma complete_receiving env data m :
  recv_ok m -> receiving m -> length data = need m -> receiving (complete env data m).
Proof.
  intros Hok Hr Hn. pose proof (complete_ok env data m Hok Hn) as Hok'. unfold complete in *. unfold recv_ok, need in Hok, Hn. destruct Hr as [Hwf Hs].
  destruct (rc_state (m_recv_connection m)) eqn:Hst.
  - destruct (read_prefix_total (rc_buffer (m_recv_connection m) ++ data) m) as (info & Hi & _).
    { rewrite length_app, Hn. unfold zlength in *. unfold UDPPKT_IN_PREFIX_SIZE, UDPPKT_LENGTH_SIZE, UDPPKT_ADDR_SIZE, UDPPKT_PORT_SIZE in *. lia. }
    rewrite Hi in *. split; [|done]. by apply wf_set_recv.
  - destruct Hok as (_ & Hc & _). destruct (touch_receiving env _ m (conj Hwf Hs) Hc) as [Hw1 Hs1]. split; [|cbn; by rewrite raise_read_state].
    apply wf_set_recv; [by apply raise_read_wf|by rewrite raise_read_state|done].
  - split; [|done]. by apply wf_set_recv.
Qed.

Lemma process_ok env data m : mux_wf m -> m_state m = MS_ESTABLISHED -> mux_wf (process_read_event env data m).
Proof.
  intros Hwf Hs. rewrite process_read_event_eq by done. apply wf_emit.
  apply (receive_ind env receiving (absorb_receiving env) (complete_receiving env)); [apply Hwf|done].
Qed.

(** Walking the table and changing single connections. *)
Lemma fold_wf (f : Mux -> Z -> Mux) order m :
  (forall m id, mux_wf m -> mux_wf (f m id)) -> mux_wf m -> mux_wf (fold_left f order m).
Proof. intros Hf. revert m. induction order as [|id order IH]; intros m Hwf; cbn; auto. Qed.

Lemma timer_one_ok env m id : mux_wf m -> mux_wf (timer_one env m id).
Proof.
  intros Hwf. unfold timer_one. destruct (m_connections m !! id) as [conn|]; [|done]. destruct (_ <=? _); [|done].
  by apply wf_emit, clean_ok.
Qed.

Lemma report_one_ok m id : mux_wf m -> mux_wf (report_one m id).
Proof.
  intros Hwf. unfold report_one. destruct (m_connections m !! id) as [conn|] eqn:Hc; [|done]. destruct (_ <? _); [|done].
  eapply wf_set_connection; [by apply wf_emit|exact Hc|done].
Qed.

Lemma complete_udp_connection_ok id m : mux_wf m -> mux_wf (complete_udp_connection id m).
Proof.
  intros Hwf. unfold complete_udp_connection. destruct (established m); [|done]. destruct (m_connections m !! id) as [conn|] eqn:Hc; [|done].
  apply wf_emit. set (conn' := conn <| cn_open_task := false |>).
  pose proof (wf_set_connection id conn conn' m Hwf Hc eq_refl) as Hw. set (m1 := set_connection id conn' m) in *.
  assert (Hc1 : m_connections m1 !! id = Some conn') by apply lookup_insert_eq.
  pose proof Hw as (H1 & H2 & H3 & H4 & H5 & H6 & H7). split_and!; try done.
  intros a id' Hl. cbn in Hl. destruct (decide (a = cn_addr conn)) as [->|Hne].
  - rewrite lookup_insert_eq in Hl. injection Hl as <-. eexists. split; [exact Hc1|done].
  - rewrite lookup_insert_ne in Hl by done. by apply H3.
Qed.

Lemma send_ok env id data m : mux_wf m -> m_state m = MS_ESTABLISHED -> mux_wf (send env id data m).2.
Proof.
  intros Hwf Hs. unfold send, assert_established, established. rewrite Hs. destruct (m_connections m !! id) as [conn|] eqn:Hc; [|done].
  destruct Hwf as (H1 & H2 & H3 & H4 & H5 & H6 & H7). destruct (H5 id conn Hc) as [a Ha]. rewrite Ha.
  assert (Hwf : mux_wf m) by by split_and!.
  destruct (send_data_ok env); [|by apply wf_emit]. eapply wf_set_connection; [by apply wf_emit|exact Hc|done].
Qed.

Lemma step_ok env i m : mux_wf m -> input_ok i m -> mux_wf (step env i m).
Proof.
  intros Hwf Hok. destruct i as [id addr app|id|id async|id|id data|data|order|status|order|id v|order error]; cbn [step].
  - by apply open_connection_ok.
  - by apply complete_udp_connection_ok.
  - destruct async.
    + unfold close_connection_async. destruct (m_connections m !! id) as [c|] eqn:Hc; [|by apply wf_emit].
      by eapply wf_set_connection.
    + unfold close_connection. pose proof (clean_ok id m Hwf) as Hw. destruct (clean_connection_data id m) as [b m1]. by destruct b.
  - unfold close_connection. pose proof (clean_ok id m Hwf) as Hw. destruct (clean_connection_data id m) as [b m1]. by destruct b.
  - by apply send_ok.
  - by apply process_ok.
  - apply fold_wf; [|done]. intros. by apply timer_one_ok.
  - unfold handle_response, assert_established, established. cbn in Hok. rewrite Hok. by destruct (_ =? _).
  - apply fold_wf; [|done]. intros. by apply report_one_ok.
  - unfold set_read_enabled. destruct (m_connections m !! id) as [c|] eqn:Hc; [|done]. by eapply wf_set_connection.
  - by apply close_ok.
Qed.

Lemma new_wf : mux_wf mux_new.
Proof. split_and!; try done. Qed.

Lemma mux_reachable_ok m : mux_reachable m -> mux_wf m.
Proof. induction 1 as [|env i m _ IH Hok]; [apply new_wf|by apply step_ok]. Qed.

(** C36.  In every state the multiplexer can reach: no assertion has failed; every
    route leads to an open connection with the addresses of the route; a packet
    that is being received for a connection has one; the bytes to come never
    exceed a datagram; and without a stream nothing of the last one is left. *)
Theorem mux_reachable_wf m : mux_reachable m -> mux_wf m.
Proof. apply mux_reachable_ok. Qed.

(** Closing the multiplexer tells every open connection that it ended,
    exactly once, with the error of the stream if there was one, and leaves the
    multiplexer as it was before the first connection. *)
Theorem close_ends_connections order error m :
  mux_wf m -> walks order m ->
  let m' := close order error m in
  let e := match m_pending_error m with Some e => Some e | None => if code error =? 0 then None else Some error end in
  m_out m' = m_out m ++ map (end_event e) order /\ m_connections m' = ∅ /\ m_addr_to_id m' = ∅ /\
  get_stream_id m' = None /\ m_recv_connection m' = recv_empty.
Proof.
  intros Hwf Hw m' e. destruct (close_fold e order m Hwf) as (_ & Ho & Hc). split_and!; try done.
  change (m_connections m') with (m_connections (fold_left (close_one e) order m)). rewrite Hc. by apply delete_all.
Qed.
End Invariant.

(** ** Runs *)

Module UdpRun.
Export WireSample.

Definition env : Env := mkEnv 1000 (Some 5) true 111 (fun _ => []).

(** The handler has room for two datagrams, then stops reading. *)
Definition filling : Env := mkEnv 1000 (Some 5) true 111 (fun reads => [CALL_update_flow_control (2 - zlength reads) 0]).

Definition client : SocketAddress := host4 2 40000.
Definition server : SocketAddress := host4 9 53.
Definition pair : TunnelAddressPair := mkPair client (TA_address server).
Definition app : list Z := [99; 117; 114; 108].

Definition run (inputs : list Input) (m : Mux) : Mux := fold_left (fun m i => step env i m) inputs m.

Fixpoint inputs_ok (inputs : list Input) (m : Mux) : Prop :=
  match inputs with
  | [] => True
  | i :: rest => input_ok i m /\ inputs_ok rest (step env i m)
  end.

Lemma run_mux_reachable inputs m : mux_reachable m -> inputs_ok inputs m -> mux_reachable (run inputs m).
Proof.
  revert m. induction inputs as [|i inputs IH]; intros m Hm Hok; [done|]. destruct Hok as [Hi Hok].
  apply (IH (step env i m)); [|done]. by apply MR_step.
Qed.

(** A connection that reads. *)
Definition opened (id : Z) : list Input := [I_open id pair app; I_open_task id; I_set_read id true].
Definition reading : Mux := run (opened 1) mux_new.

Lemma reading_reachable : mux_reachable reading.
Proof.
  apply run_mux_reachable; [constructor|]. cbn [inputs_ok opened]. split_and!; [|vm_compute; eauto|done..].
  split_and!; [done|done|by exists server].
Qed.

Definition reply (payload : list Z) : Datagram := mkDatagram server client payload.

Lemma reply_ok payload : zlength payload <= MAX_UDP_PAYLOAD_SIZE -> datagram_ok (reply payload).
Proof. intros Hp. split_and!; try (by left); try done; apply Hp. Qed.
End UdpRun.

(** An oversized packet is said to be dropped, but only its prefix is: what its
    payload contains is read as packets of their own. *)
Theorem oversized_packet_is_not_skipped :
  let oversized := be_bytes 4 70000 ++ addresses_bytes UdpRun.server UdpRun.client ++ in_packet (UdpRun.reply [1; 2; 3]) in
  MAX_UDP_IN_PACKET_LENGTH < 70000 /\
  reads (process_read_event (H := WireSample.lib) UdpRun.env oversized UdpRun.reading) = [(1, [1; 2; 3])].
Proof. split; [done|by vm_compute]. Qed.

(** An empty datagram waits for the bytes of the next one. *)
Theorem empty_datagram_waits :
  let m := process_read_event (H := WireSample.lib) UdpRun.env (in_packet (UdpRun.reply [])) UdpRun.reading in
  reads m = [] /\ reads (process_read_event (H := WireSample.lib) UdpRun.env [0] m) = [(1, [])].
Proof. split; by vm_compute. Qed.

(** The error of a refused stream outlives the stream: when a later one ends in
    good order, its connections are told the old error. *)
Theorem refused_stream_error_stays :
  let m := UdpRun.run [I_response 403; I_close [1] no_error] UdpRun.reading in
  let m' := UdpRun.run (UdpRun.opened 2 ++ [I_close [2] no_error]) m in
  m_state m = MS_IDLE /\ last (m_out m') = Some (SERVER_ERROR 2 (mkVpnError 111 (Some "HTTP stream creation failed"))).
Proof. split; by vm_compute. Qed.

(** Two connections with the same addresses share a route; closing the older one
    removes the route of the newer one, which then reads nothing. *)
Theorem shared_route_is_lost :
  let m := UdpRun.run (UdpRun.opened 2 ++ [I_close_connection 1 false]) UdpRun.reading in
  check_connection 2 m = true /\
  reads (process_read_event (H := WireSample.lib) UdpRun.env (in_packet (UdpRun.reply [1; 2; 3])) m) = [].
Proof. split; by vm_compute. Qed.

(** ** Witnesses *)

Lemma compose_udp_packet_parses_witness :
  parse_udp_packet (H := WireSample.lib) (compose_udp_packet UdpRun.client UdpRun.server UdpRun.app [7; 8; 9]) =
  Some (UdpRun.client, UdpRun.server, UdpRun.app, [7; 8; 9]).
Proof. apply (compose_udp_packet_parses UdpRun.client UdpRun.server UdpRun.app [7; 8; 9]); try (by left); by vm_compute. Defined.

Lemma udp_stream_delivers_witness :
  let stream := concat (map in_packet [UdpRun.reply [1; 2; 3]; UdpRun.reply []; UdpRun.reply [4]]) in
  reads (process_chunks (H := WireSample.lib) UdpRun.filling [take 17 stream; drop 17 stream] UdpRun.reading) = [(1, [1; 2; 3]); (1, [])].
Proof.
  cbv zeta. rewrite (udp_stream_delivers UdpRun.filling _ [UdpRun.reply [1; 2; 3]; UdpRun.reply []; UdpRun.reply [4]] UdpRun.reading);
    [by vm_compute|by vm_compute|by vm_compute| |by intros d [= <-]|by vm_compute].
  repeat constructor; apply UdpRun.reply_ok; by vm_compute.
Defined.

Lemma udp_chunking_irrelevant_witness :
  mux_equiv (process_chunks (H := WireSample.lib) UdpRun.env [[0; 0] ++ [0; 39]] UdpRun.reading)
            (process_chunks (H := WireSample.lib) UdpRun.env [[0; 0]; [0; 39]] UdpRun.reading).
Proof. apply udp_chunking_irrelevant; by vm_compute. Defined.

Lemma mux_reachable_wf_witness : mux_wf UdpRun.reading.
Proof. exact (mux_reachable_wf UdpRun.reading UdpRun.reading_reachable). Defined.

Lemma close_ends_connections_witness :
  m_connections (close [1] no_error UdpRun.reading) = ∅.
Proof.
  assert (Hw : walks [1] UdpRun.reading) by by vm_compute.
  apply (close_ends_connections [1] no_error UdpRun.reading (mux_reachable_ok _ UdpRun.reading_reachable) Hw).
Defined.
