(* ===== verification/Icmp.v ===== *)
(** * ICMP echo through the tunnel

    Models [core/src/http_icmp_multiplexer.cpp], which sends echo requests over one
    HTTP stream and takes the replies out of it, and [core/src/icmp_manager.cpp],
    which remembers the requests on the wire, matches replies to them and answers
    for the ones that time out. *)

From S2P Require Import Prelude VpnTypes Wire.

(** ** Messages *)

Definition ICMP_MT_ECHO_REPLY : Z := 0.
Definition ICMPV6_MT_ECHO_REPLY : Z := 129.
Definition ICMP_MT_DROP : Z := 84.

Record IcmpEchoRequest := mkRequest {
  rq_peer : SocketAddress;
  rq_id : Z;
  rq_seqno : Z;
  rq_ttl : Z;
  rq_data_size : Z;
}.

Record IcmpEchoReply := mkReply {
  rp_peer : SocketAddress;
  rp_id : Z;
  rp_seqno : Z;
  rp_type : Z;
  rp_code : Z;
}.
#[export] Instance eta_IcmpEchoReply : Eta IcmpEchoReply := fun r =>
  mkReply (rp_peer r) (rp_id r) (rp_seqno r) (rp_type r) (rp_code r).

(** ** The multiplexer *)

Definition ICMPPKT_ID_SIZE : nat := 2.
Definition ICMPPKT_ADDR_SIZE : nat := 16.
Definition ICMPPKT_SEQNO_SIZE : nat := 2.
Definition ICMPPKT_TTL_SIZE : nat := 1.
Definition ICMPPKT_DATA_SIZE : nat := 2.
Definition ICMPPKT_TYPE_SIZE : nat := 1.
Definition ICMPPKT_CODE_SIZE : nat := 1.
Definition ICMPPKT_REQ_SIZE : nat :=
  ICMPPKT_ID_SIZE + ICMPPKT_ADDR_SIZE + ICMPPKT_SEQNO_SIZE + ICMPPKT_TTL_SIZE + ICMPPKT_DATA_SIZE.
Definition ICMPPKT_REPLY_SIZE : nat :=
  ICMPPKT_ID_SIZE + ICMPPKT_ADDR_SIZE + ICMPPKT_TYPE_SIZE + ICMPPKT_CODE_SIZE + ICMPPKT_SEQNO_SIZE.

Module IcmpMux.
Inductive State := MS_IDLE | MS_ESTABLISHED.

Inductive Out :=
  | SERVER_ECHO_REPLY (reply : IcmpEchoReply)
  | CONNECT_REQUEST (host : string)
  | SEND_DATA (stream_id : Z) (data : list Z)
  | CONSUME (stream_id size : Z).

Record Mux := mkMux {
  m_state : State;
  m_stream_id : option Z;
  m_reply_buffer : list Z;
  m_out : list Out;
  m_faults : list string;
}.
#[export] Instance eta_Mux : Eta Mux := fun r =>
  mkMux (m_state r) (m_stream_id r) (m_reply_buffer r) (m_out r) (m_faults r).

(** The answers of the upstream; a request is sent at most twice. *)
Record Env := mkEnv { send_connect_request : option Z; send_data_first : bool; send_data_again : bool }.

Definition new : Mux := mkMux MS_IDLE None [] [] [].
Definition emit (o : Out) (m : Mux) : Mux := m <| m_out := m_out m ++ [o] |>.
Definition fault (what : string) (m : Mux) : Mux := m <| m_faults := m_faults m ++ [what] |>.

Definition close (m : Mux) : Mux := m <| m_state := MS_IDLE |> <| m_stream_id := None |> <| m_reply_buffer := [] |>.
Definition get_stream_id (m : Mux) : option Z := m_stream_id m.

Definition established (m : Mux) : bool := match m_state m with MS_ESTABLISHED => true | MS_IDLE => false end.
Definition assert_established (m : Mux) : Mux := if established m then m else fault "not established" m.

Definition compose_request (r : IcmpEchoRequest) : Writer :=
  writer_new (Z.of_nat ICMPPKT_REQ_SIZE)
    ▷ put_u16 (rq_id r) ▷ put_ip_padded (rq_peer r) ▷ put_u16 (rq_seqno r) ▷ put_u8 (rq_ttl r) ▷ put_u16 (rq_data_size r).

Section Operations.
Context `{SocketAddressLib} (env : Env).
Implicit Types (m : Mux).

(** [ok] is the answer of [send_data_callback]. *)
Definition send_request_established (ok : bool) (r : IcmpEchoRequest) m : bool * Mux :=
  match m_stream_id m with
  | None => (false, fault "bad optional access" m)
  | Some id => (ok, emit (SEND_DATA id (writer_buffer (compose_request r))) m)
  end.

Definition open_stream m : bool * Mux :=
  let m := match m_stream_id m with None => m | Some _ => fault "stream id is set" m end in
  let m := emit (CONNECT_REQUEST "_icmp") m in
  let m := m <| m_stream_id := send_connect_request env |> in
  match m_stream_id m with
  | None => (false, m <| m_state := MS_IDLE |>)
  | Some _ => (true, m <| m_state := MS_ESTABLISHED |>)
  end.

Definition send_request (r : IcmpEchoRequest) m : bool * Mux :=
  match m_state m with
  | MS_IDLE =>
      let '(ok, m) := open_stream m in
      if negb ok then (false, m) else send_request_established (send_data_first env) r m
  | MS_ESTABLISHED =>
      let '(ok, m) := send_request_established (send_data_first env) r m in
      if ok then (true, m)
      else
        let '(ok, m) := open_stream (close m) in
        if negb ok then (false, m) else send_request_established (send_data_again env) r m
  end.

Definition handle_response m : Mux := assert_established m.

(** The fields of a reply; [None] is the exception of a [value()]. *)
Definition read_reply (raw : list Z) : option IcmpEchoReply :=
  '(id, r) ← get_u16 raw;
  '(peer, r) ← get_ip_padded r;
  '(type, r) ← get_u8 r;
  '(code, r) ← get_u8 r;
  '(seqno, r) ← get_u16 r;
  Some (mkReply peer id seqno type code).

Definition handle_reply (raw : list Z) m : Mux :=
  let m := match read_reply raw with
           | Some reply => emit (SERVER_ECHO_REPLY reply) m
           | None => fault "bad optional access" m
           end in
  m <| m_reply_buffer := [] |>.

Definition process_reply_chunk (data : list Z) m : list Z * Mux :=
  if (length (m_reply_buffer m) =? 0)%nat && (ICMPPKT_REPLY_SIZE <=? length data)%nat
  then (drop ICMPPKT_REPLY_SIZE data, handle_reply (take ICMPPKT_REPLY_SIZE data) m)
  else
    let to_read := Nat.min (length data) (ICMPPKT_REPLY_SIZE - length (m_reply_buffer m)) in
    let m := m <| m_reply_buffer := m_reply_buffer m ++ take to_read data |> in
    let data := drop to_read data in
    if (length (m_reply_buffer m) <? ICMPPKT_REPLY_SIZE)%nat then (data, m)
    else
      let m := if (length (m_reply_buffer m) =? ICMPPKT_REPLY_SIZE)%nat then m else fault "reply is too long" m in
      (data, handle_reply (take ICMPPKT_REPLY_SIZE (m_reply_buffer m)) m).

(** Every iteration takes at least one byte. *)
Fixpoint process_loop (fuel : nat) (data : list Z) m : Mux :=
  match data with
  | [] => m
  | _ :: _ =>
      match fuel with
      | O => fault "out of fuel" m
      | S fuel => let '(data, m) := process_reply_chunk data m in process_loop fuel data m
      end
  end.

Definition process_read_event (data : list Z) m : Mux :=
  let size := Z.of_nat (length data) in
  let m := assert_established m in
  let m := process_loop (length data) data m in
  match m_stream_id m with
  | Some id => emit (CONSUME id size) m
  | None => fault "bad optional access" m
  end.
End Operations.
End IcmpMux.

(** ** The manager *)

Module IcmpManager.
Record RequestAttempt := mkAttempt { at_seqno : Z; at_timeout_ts : Z }.
Record RequestInfo := mkInfo { ri_original_peer : SocketAddress; ri_tries : list RequestAttempt }.

Inductive MessageStatus := IM_MSGS_PASS | IM_MSGS_DROP.

(** [m_requests] is an ordered map: the list of its entries in the order of the
    keys, the identifiers of the requests. *)
Record Manager := mkManager {
  m_requests : list (Z * RequestInfo);
  m_request_timeout : Z;
  m_timer : bool;
  m_faults : list string;
}.
#[export] Instance eta_Manager : Eta Manager := fun r =>
  mkManager (m_requests r) (m_request_timeout r) (m_timer r) (m_faults r).

Definition DEFAULT_PING_REQUEST_TIMEOUT : Z := 3 * 1000.

Definition init (request_timeout : option Z) : Manager :=
  mkManager [] (default DEFAULT_PING_REQUEST_TIMEOUT request_timeout) false [].

Definition deinit (m : Manager) : Manager := m <| m_timer := false |> <| m_requests := [] |>.

(** The operations of the ordered map. *)
Fixpoint find_info (id : Z) (l : list (Z * RequestInfo)) : option RequestInfo :=
  match l with
  | [] => None
  | (k, info) :: l => if k =? id then Some info else find_info id l
  end.

Fixpoint put_info (id : Z) (info : RequestInfo) (l : list (Z * RequestInfo)) : list (Z * RequestInfo) :=
  match l with
  | [] => [(id, info)]
  | (k, v) :: l' =>
      if id <? k then (id, info) :: l
      else if id =? k then (id, info) :: l'
      else (k, v) :: put_info id info l'
  end.

Fixpoint erase_info (id : Z) (l : list (Z * RequestInfo)) : list (Z * RequestInfo) :=
  match l with
  | [] => []
  | (k, v) :: l => if k =? id then l else (k, v) :: erase_info id l
  end.

Definition on_wire (seqno : Z) (tries : list RequestAttempt) : bool :=
  existsb (fun t => at_seqno t =? seqno) tries.

Definition register_request (now : Z) (r : IcmpEchoRequest) (m : Manager) : MessageStatus * Manager :=
  let info := default (mkInfo (rq_peer r) []) (find_info (rq_id r) (m_requests m)) in
  if on_wire (rq_seqno r) (ri_tries info)
  then (IM_MSGS_DROP, m <| m_requests := put_info (rq_id r) info (m_requests m) |>)
  else
    let info := mkInfo (ri_original_peer info) (ri_tries info ++ [mkAttempt (rq_seqno r) (now + m_request_timeout m)]) in
    (IM_MSGS_PASS, m <| m_requests := put_info (rq_id r) info (m_requests m) |> <| m_timer := true |>).

(** The first try with the sequence number, and the others. *)
Fixpoint take_try (seqno : Z) (tries : list RequestAttempt) : option (RequestAttempt * list RequestAttempt) :=
  match tries with
  | [] => None
  | t :: rest =>
      if at_seqno t =? seqno then Some (t, rest)
      else match take_try seqno rest with Some (x, rest) => Some (x, t :: rest) | None => None end
  end.

(** A reply that is not an echo reply tells nothing about the sequence number: it
    is taken for the oldest try. *)
Definition is_echo_reply (r : IcmpEchoReply) : bool :=
  negb (is_ipv4 (rp_peer r) && negb (rp_type r =? ICMP_MT_ECHO_REPLY)) &&
  negb (is_ipv6 (rp_peer r) && negb (rp_type r =? ICMPV6_MT_ECHO_REPLY)).

Definition match_try (r : IcmpEchoReply) (tries : list RequestAttempt) : option (RequestAttempt * list RequestAttempt) :=
  if is_echo_reply r then take_try (rp_seqno r) tries
  else match tries with t :: rest => Some (t, rest) | [] => None end.

(** The reply comes back with the sequence number it is taken for. *)
Definition register_reply (r : IcmpEchoReply) (m : Manager) : MessageStatus * IcmpEchoReply * Manager :=
  match find_info (rp_id r) (m_requests m) with
  | None => (IM_MSGS_DROP, r, m)
  | Some info =>
      match match_try r (ri_tries info) with
      | None => (IM_MSGS_DROP, r, m)
      | Some (t, rest) =>
          let r := if is_echo_reply r then r else r <| rp_seqno := at_seqno t |> in
          let m := if rp_seqno r =? at_seqno t then m
                   else m <| m_faults := m_faults m ++ ["sequence numbers differ"] |> in
          let requests := match rest with
                          | [] => erase_info (rp_id r) (m_requests m)
                          | _ => put_info (rp_id r) (mkInfo (ri_original_peer info) rest) (m_requests m)
                          end in
          (IM_MSGS_PASS, r, m <| m_requests := requests |>)
      end
  end.

Definition make_reply_on_timeout (id : Z) (peer : SocketAddress) (seqno : Z) : IcmpEchoReply :=
  mkReply peer id seqno ICMP_MT_DROP 0.

Definition expired (now : Z) (t : RequestAttempt) : bool := negb (now <? at_timeout_ts t).

(** The replies raised, and the entries that stay. *)
Fixpoint timer_loop (now : Z) (l : list (Z * RequestInfo)) : list IcmpEchoReply * list (Z * RequestInfo) :=
  match l with
  | [] => ([], [])
  | (id, info) :: l =>
      let '(replies, rest) := timer_loop now l in
      let out := map (fun t => make_reply_on_timeout id (ri_original_peer info) (at_seqno t))
                     (List.filter (expired now) (ri_tries info)) in
      match List.filter (fun t => negb (expired now t)) (ri_tries info) with
      | [] => (out ++ replies, rest)
      | tries => (out ++ replies, (id, mkInfo (ri_original_peer info) tries) :: rest)
      end
  end.

Definition timer_callback (now : Z) (m : Manager) : list IcmpEchoReply * Manager :=
  let '(replies, requests) := timer_loop now (m_requests m) in
  (replies, m <| m_requests := requests |>).
End IcmpManager.

(** The order of [IcmpEchoRequestKey]. *)
Definition echo_key_lt (a b : Z * Z) : bool := (a.1 <? b.1) || (a.2 <? b.2).
