(* ===== verification/IcmpProofs.v ===== *)
(** * ICMP echo through the tunnel: proofs

    The multiplexer reads exactly the replies of the stream, however it is cut;
    the manager answers every request it let through once, and only those. *)

From Stdlib Require Import Sorting.Sorted.
From S2P Require Import Prelude VpnTypes Wire Icmp.

(** ** Requests *)

Section Requests.
Context `{SocketAddressLib}.

Definition request_ok (r : IcmpEchoRequest) : Prop :=
  ip_wf (rq_peer r) /\ ip_distinct (rq_peer r) = true /\ sa_port (rq_peer r) = 0 /\
  in_width 16 (rq_id r) /\ in_width 16 (rq_seqno r) /\ in_width 8 (rq_ttl r) /\ in_width 16 (rq_data_size r).

(** The endpoint's side of the documented format. *)
Definition parse_request (packet : list Z) : option (IcmpEchoRequest * list Z) :=
  '(id, r) ← get_u16 packet;
  '(peer, r) ← get_ip_padded r;
  '(seqno, r) ← get_u16 r;
  '(ttl, r) ← get_u8 r;
  '(data_size, r) ← get_u16 r;
  Some (mkRequest peer id seqno ttl data_size, r).

Lemma put_uint_eq n v w :
  in_width (8 * Z.of_nat n) v -> Z.of_nat n <= w_room w ->
  put_data (be_bytes n v) w = mkWriter (w_data w ++ be_bytes n v) (w_room w - Z.of_nat n) (w_faults w).
Proof. intros Hv Hr. rewrite put_data_eq by (rewrite be_bytes_length; lia). by rewrite be_bytes_length. Qed.

(** A request is composed into a packet of the documented size that reads
    back as the request. *)
Theorem icmp_request_parses r :
  request_ok r ->
  w_faults (IcmpMux.compose_request r) = [] /\
  length (writer_buffer (IcmpMux.compose_request r)) = ICMPPKT_REQ_SIZE /\
  parse_request (writer_buffer (IcmpMux.compose_request r)) = Some (r, []).
Proof.
  intros (H1 & H2 & H3 & H4 & H5 & H6 & H7). unfold IcmpMux.compose_request, put_u16, put_u8, writer_new.
  change (Z.of_nat ICMPPKT_REQ_SIZE) with 23. rewrite !uwrap_id by done.
  rewrite (put_uint_eq 2 (rq_id r)) by (done || cbn; lia). cbn [w_data w_room w_faults app].
  rewrite put_ip_padded_eq by (done || cbn; lia). cbn [w_data w_room w_faults].
  rewrite (put_uint_eq 2 (rq_seqno r)) by (done || cbn; lia). cbn [w_data w_room w_faults].
  rewrite (put_uint_eq 1 (rq_ttl r)) by (done || cbn; lia). cbn [w_data w_room w_faults].
  rewrite (put_uint_eq 2 (rq_data_size r)) by (done || cbn; lia). unfold writer_buffer. cbn [w_data w_room w_faults].
  split; [done|]. change (replicate (Z.to_nat _) 0) with ([] : list Z). rewrite app_nil_r. split.
  - rewrite !length_app, !be_bytes_length, padded_ip_length by done. done.
  - rewrite <- !app_assoc. unfold parse_request, get_u16, get_u8. rewrite get_uint_app by done. cbn [mbind option_bind].
    rewrite get_ip_padded_app, H2 by done. cbn [mbind option_bind]. rewrite get_uint_app by done. cbn [mbind option_bind].
    rewrite get_uint_app by done. cbn [mbind option_bind]. rewrite <- (app_nil_r (be_bytes 2 (rq_data_size r))), get_uint_app by done.
    cbn [mbind option_bind]. destruct r as [[f a p] ? ? ? ?]. cbn in *. by subst p.
Qed.
End Requests.

(** ** Replies *)

Section Replies.
Context `{SocketAddressLib}.
Implicit Types (m : IcmpMux.Mux) (data : list Z).

Definition replies m : list IcmpEchoReply :=
  omap (fun o => match o with IcmpMux.SERVER_ECHO_REPLY r => Some r | _ => None end) (IcmpMux.m_out m).

(** What the multiplexer is, seen from the stream: the bytes of a reply that is
    not complete yet, and the replies so far.  It takes the stream byte by byte. *)
Definition reply_state : Type := list Z * list IcmpEchoReply.

Definition take_byte (s : reply_state) (b : Z) : reply_state :=
  let buffer := s.1 ++ [b] in
  if (length buffer =? ICMPPKT_REPLY_SIZE)%nat then ([], s.2 ++ option_list (IcmpMux.read_reply buffer)) else (buffer, s.2).

Definition abstract m : reply_state := (IcmpMux.m_reply_buffer m, replies m).

Definition buffer_ok m : Prop := (length (IcmpMux.m_reply_buffer m) < ICMPPKT_REPLY_SIZE)%nat.

Lemma take_bytes_short data buffer rs :
  (length buffer + length data < ICMPPKT_REPLY_SIZE)%nat -> fold_left take_byte data (buffer, rs) = (buffer ++ data, rs).
Proof.
  revert buffer. induction data as [|b data IH]; intros buffer Hl; cbn [fold_left]; [by rewrite app_nil_r|].
  unfold take_byte at 2. cbn [fst snd]. cbn [length] in Hl.
  rewrite (proj2 (Nat.eqb_neq _ _)) by (rewrite length_app; cbn [length]; lia).
  rewrite IH by (rewrite length_app; cbn [length]; lia). by rewrite <- app_assoc.
Qed.

Lemma take_bytes_full data buffer rs :
  (length buffer < ICMPPKT_REPLY_SIZE)%nat -> (length buffer + length data = ICMPPKT_REPLY_SIZE)%nat ->
  fold_left take_byte data (buffer, rs) = ([], rs ++ option_list (IcmpMux.read_reply (buffer ++ data))).
Proof.
  intros Hb Hl. destruct data as [|b data _] using rev_ind; [cbn [length] in Hl; lia|].
  rewrite length_app in Hl. cbn [length] in Hl. rewrite fold_left_app, take_bytes_short by lia. cbn [fold_left]. unfold take_byte. cbn [fst snd].
  rewrite (proj2 (Nat.eqb_eq _ _)) by (rewrite !length_app; cbn [length]; lia). by rewrite <- app_assoc.
Qed.

Lemma read_reply_total raw : length raw = ICMPPKT_REPLY_SIZE -> is_Some (IcmpMux.read_reply raw).
Proof.
  intros Hl. change ICMPPKT_REPLY_SIZE with 22%nat in Hl. unfold IcmpMux.read_reply, get_u16, get_u8.
  rewrite get_uint_total by lia. cbn [mbind option_bind].
  destruct (get_ip_padded_total (drop 2 raw)) as (a & r & -> & Hr); [rewrite length_drop; lia|]. rewrite length_drop, Hl in Hr.
  cbn [mbind option_bind]. rewrite get_uint_total by lia. cbn [mbind option_bind].
  rewrite get_uint_total by (rewrite length_drop; lia). cbn [mbind option_bind].
  rewrite get_uint_total by (rewrite !length_drop; lia). cbn [mbind option_bind]. by eexists.
Qed.

Lemma abstract_handle raw m :
  length raw = ICMPPKT_REPLY_SIZE ->
  abstract (IcmpMux.handle_reply raw m) = ([], replies m ++ option_list (IcmpMux.read_reply raw)) /\
  IcmpMux.m_faults (IcmpMux.handle_reply raw m) = IcmpMux.m_faults m /\
  IcmpMux.m_state (IcmpMux.handle_reply raw m) = IcmpMux.m_state m /\
  IcmpMux.m_stream_id (IcmpMux.handle_reply raw m) = IcmpMux.m_stream_id m.
Proof.
  intros Hl. destruct (read_reply_total raw Hl) as [r Hr]. unfold IcmpMux.handle_reply. rewrite Hr. split; [|done].
  unfold abstract, replies. cbn. by rewrite omap_app.
Qed.

(** What an iteration does not touch. *)
Definition same_stream m m' : Prop :=
  IcmpMux.m_faults m' = IcmpMux.m_faults m /\ IcmpMux.m_state m' = IcmpMux.m_state m /\
  IcmpMux.m_stream_id m' = IcmpMux.m_stream_id m.

(** An iteration is as good as the bytes it takes, and it takes some. *)
Lemma reply_chunk_ok data m :
  buffer_ok m -> data <> [] ->
  let '(rest, m') := IcmpMux.process_reply_chunk data m in
  buffer_ok m' /\ same_stream m m' /\
  exists taken, data = taken ++ rest /\ taken <> [] /\ abstract m' = fold_left take_byte taken (abstract m).
Proof.
  intros Hb Hd. unfold IcmpMux.process_reply_chunk. set (b := IcmpMux.m_reply_buffer m). unfold buffer_ok in Hb. fold b in Hb.
  assert (Habs : abstract m = (b, replies m)) by done.
  destruct ((length b =? 0)%nat && (ICMPPKT_REPLY_SIZE <=? length data)%nat) eqn:Hfast.
  - apply andb_true_iff in Hfast as [Hz Hlen]. apply Nat.eqb_eq in Hz. apply Nat.leb_le in Hlen.
    assert (Ht : length (take ICMPPKT_REPLY_SIZE data) = ICMPPKT_REPLY_SIZE) by (rewrite length_take; lia).
    destruct (abstract_handle (take ICMPPKT_REPLY_SIZE data) m Ht) as (H1 & H2 & H3 & H4). split; [|split; [done|]].
    + apply (Nat.lt_0_succ 21).
    + exists (take ICMPPKT_REPLY_SIZE data). rewrite take_drop. split; [done|]. split.
      * intros Hn. rewrite Hn in Ht. done.
      * rewrite H1, Habs. rewrite take_bytes_full by lia. destruct b; [done|discriminate Hz].
  - set (k := Nat.min (length data) (ICMPPKT_REPLY_SIZE - length b)).
    set (w := m <| IcmpMux.m_reply_buffer := b ++ take k data |>).
    assert (Hlen : length (IcmpMux.m_reply_buffer w) = (length b + k)%nat)
      by (cbn; rewrite length_app, length_take; unfold k; lia).
    assert (Hk : (0 < k)%nat) by (unfold k; destruct data; [done|cbn [length]; lia]).
    assert (Hne : take k data <> []) by (destruct data, k; (done || lia)).
    rewrite Hlen. destruct (Nat.ltb_spec (length b + k) ICMPPKT_REPLY_SIZE) as [Hs|Hs].
    + split; [unfold buffer_ok; rewrite Hlen; done|]. split; [done|]. exists (take k data). rewrite take_drop. split_and!; [done..|].
      rewrite Habs, take_bytes_short; [done|]. rewrite length_take. unfold k in *. lia.
    + assert (Hfull : (length b + k)%nat = ICMPPKT_REPLY_SIZE) by (unfold k in *; lia).
      rewrite Hfull, Nat.eqb_refl. rewrite take_ge by (rewrite Hlen; lia).
      destruct (abstract_handle (IcmpMux.m_reply_buffer w) w) as (H1 & H2 & H3 & H4); [by rewrite Hlen|]. split; [|split; [done|]].
      * apply (Nat.lt_0_succ 21).
      * exists (take k data). rewrite take_drop. split_and!; [done..|]. rewrite H1, Habs.
        rewrite take_bytes_full by (rewrite ?length_take; unfold k in *; lia). done.
Qed.

(** The loop ends within its fuel, and is the byte by byte machine. *)
Lemma process_loop_ok fuel data m :
  buffer_ok m -> (length data <= fuel)%nat ->
  let m' := IcmpMux.process_loop fuel data m in
  buffer_ok m' /\ same_stream m m' /\ abstract m' = fold_left take_byte data (abstract m).
Proof.
  revert data m. induction fuel as [|fuel IH]; intros data m Hb Hl; (destruct data as [|b data]; [done|]); [cbn in Hl; lia|].
  cbn [IcmpMux.process_loop]. pose proof (reply_chunk_ok (b :: data) m Hb ltac:(done)) as H1.
  destruct (IcmpMux.process_reply_chunk (b :: data) m) as [rest m1]. destruct H1 as (Hb1 & Hs1 & taken & Heq & Hne & Ha).
  assert (Hr : (length rest <= fuel)%nat).
  { apply (f_equal length) in Heq. rewrite length_app in Heq. destruct taken; [done|]. cbn [length] in *. lia. }
  destruct (IH rest m1 Hb1 Hr) as (H2 & H3 & H4). split_and!; [done| |].
  - unfold same_stream in *. intuition congruence.
  - rewrite H4, Ha, Heq, fold_left_app. done.
Qed.

(** A reply as the endpoint sends it. *)
Definition reply_bytes (r : IcmpEchoReply) : list Z :=
  be_bytes 2 (rp_id r) ++ padded_ip (rp_peer r) ++ be_bytes 1 (rp_type r) ++ be_bytes 1 (rp_code r) ++ be_bytes 2 (rp_seqno r).

Definition reply_ok (r : IcmpEchoReply) : Prop :=
  ip_wf (rp_peer r) /\ ip_distinct (rp_peer r) = true /\ sa_port (rp_peer r) = 0 /\
  in_width 16 (rp_id r) /\ in_width 16 (rp_seqno r) /\ in_width 8 (rp_type r) /\ in_width 8 (rp_code r).

Lemma reply_bytes_length r : reply_ok r -> length (reply_bytes r) = ICMPPKT_REPLY_SIZE.
Proof. intros (H1 & _). unfold reply_bytes. by rewrite !length_app, !be_bytes_length, padded_ip_length. Qed.

Lemma read_reply_bytes r : reply_ok r -> IcmpMux.read_reply (reply_bytes r) = Some r.
Proof.
  intros (H1 & H2 & H3 & H4 & H5 & H6 & H7). unfold IcmpMux.read_reply, reply_bytes, get_u16, get_u8.
  rewrite get_uint_app by done. cbn [mbind option_bind]. rewrite get_ip_padded_app, H2 by done. cbn [mbind option_bind].
  rewrite get_uint_app by done. cbn [mbind option_bind]. rewrite get_uint_app by done. cbn [mbind option_bind].
  rewrite <- (app_nil_r (be_bytes 2 (rp_seqno r))), get_uint_app by done. cbn [mbind option_bind].
  destruct r as [[f a p] ? ? ? ?]. cbn in *. by subst p.
Qed.

Lemma take_replies rs done :
  Forall reply_ok rs -> fold_left take_byte (concat (map reply_bytes rs)) ([], done) = ([], done ++ rs).
Proof.
  intros Hrs. revert done. induction Hrs as [|r rs Hr Hrs IH]; intros done; cbn [map concat]; [cbn; by rewrite app_nil_r|].
  rewrite fold_left_app, take_bytes_full by (rewrite ?reply_bytes_length by done; (apply (Nat.lt_0_succ 21) || done)).
  rewrite app_nil_l, read_reply_bytes by done. cbn [option_list]. rewrite IH. by rewrite <- app_assoc.
Qed.

Definition process_chunks (chunks : list (list Z)) m : IcmpMux.Mux :=
  fold_left (fun m data => IcmpMux.process_read_event data m) chunks m.

Definition stream_open m : Prop := IcmpMux.m_state m = IcmpMux.MS_ESTABLISHED /\ is_Some (IcmpMux.m_stream_id m).

Lemma process_read_event_ok data m :
  buffer_ok m -> stream_open m ->
  let m' := IcmpMux.process_read_event data m in
  buffer_ok m' /\ stream_open m' /\ IcmpMux.m_faults m' = IcmpMux.m_faults m /\
  abstract m' = fold_left take_byte data (abstract m).
Proof.
  intros Hb [Hs [id Hid]]. unfold IcmpMux.process_read_event, IcmpMux.assert_established, IcmpMux.established. rewrite Hs.
  destruct (process_loop_ok (length data) data m Hb ltac:(lia)) as (H1 & (H2 & H3 & H4) & H5).
  generalize dependent (IcmpMux.process_loop (length data) data m). intros m1 H1 H2 H3 H4 H5. rewrite H4, Hid.
  split_and!; [done| |done|].
  - split; cbn; [congruence|]. rewrite H4, Hid. by eexists.
  - rewrite <- H5. unfold abstract, replies. cbn. rewrite omap_app. cbn. by rewrite app_nil_r.
Qed.

Lemma process_chunks_ok chunks m :
  buffer_ok m -> stream_open m ->
  IcmpMux.m_faults (process_chunks chunks m) = IcmpMux.m_faults m /\
  abstract (process_chunks chunks m) = fold_left take_byte (concat chunks) (abstract m).
Proof.
  revert m. induction chunks as [|data chunks IH]; intros m Hb Hs; [done|].
  destruct (process_read_event_ok data m Hb Hs) as (H1 & H2 & H3 & H4).
  destruct (IH _ H1 H2) as [H5 H6]. cbn [concat]. rewrite fold_left_app, <- H4, <- H6, <- H3. done.
Qed.

(** However the stream of the endpoint is cut into chunks, the multiplexer
    raises exactly the replies in it, in order, and no assertion fails. *)
Theorem icmp_stream_delivers chunks rs m :
  stream_open m -> IcmpMux.m_reply_buffer m = [] -> Forall reply_ok rs -> concat chunks = concat (map reply_bytes rs) ->
  replies (process_chunks chunks m) = replies m ++ rs /\ IcmpMux.m_faults (process_chunks chunks m) = IcmpMux.m_faults m.
Proof.
  intros Hs Hb Hrs Hc. assert (Hok : buffer_ok m) by (unfold buffer_ok; rewrite Hb; apply (Nat.lt_0_succ 21)).
  destruct (process_chunks_ok chunks m Hok Hs) as [H1 H2]. split; [|done].
  assert (Ha : abstract m = ([], replies m)) by (unfold abstract; by rewrite Hb).
  rewrite Ha, Hc, take_replies in H2 by done. by injection H2 as _ ?.
Qed.
End Replies.

(** ** The manager *)

Module Manager.
Import IcmpManager.
Implicit Types (l : list (Z * RequestInfo)).

(** The requests on the wire: identifier and sequence number. *)
Definition entry_pending (e : Z * RequestInfo) : list (Z * Z) := map (fun t => (e.1, at_seqno t)) (ri_tries e.2).
Definition pending l : list (Z * Z) := concat (map entry_pending l).

Definition entry_ok (e : Z * RequestInfo) : Prop := ri_tries e.2 <> [] /\ NoDup (map at_seqno (ri_tries e.2)).

(** The entries are ordered by their keys, and each has a try on the wire. *)
Definition table_ok l : Prop := StronglySorted Z.lt (map fst l) /\ Forall entry_ok l.

Lemma sorted_split l1 e l2 :
  StronglySorted Z.lt (map fst (l1 ++ e :: l2)) ->
  StronglySorted Z.lt (map fst (l1 ++ l2)) /\ Forall (fun k => k < e.1) (map fst l1) /\ Forall (fun k => e.1 < k) (map fst l2).
Proof.
  induction l1 as [|x l1 IH]; cbn; intros Hs; apply StronglySorted_inv in Hs as [Hs Hf].
  - split_and!; [done|by constructor|done].
  - destruct (IH Hs) as (H1 & H2 & H3). rewrite map_app, Forall_app in Hf. cbn in Hf. destruct Hf as [Hf1 Hf2].
    inversion Hf2 as [|? ? Hf3 Hf4]; subst. split_and!; [|by constructor|done].
    constructor; [done|]. by rewrite map_app, Forall_app.
Qed.

Lemma sorted_insert l1 (e : Z * RequestInfo) l2 :
  StronglySorted Z.lt (map fst (l1 ++ l2)) -> Forall (fun k => k < e.1) (map fst l1) -> Forall (fun k => e.1 < k) (map fst l2) ->
  StronglySorted Z.lt (map fst (l1 ++ e :: l2)).
Proof.
  induction l1 as [|x l1 IH]; cbn; intros Hs H1 H2.
  - by constructor.
  - apply StronglySorted_inv in Hs as [Hs Hf]. inversion H1; subst. constructor; [by apply IH|].
    rewrite map_app, Forall_app in *. cbn. destruct Hf as [Hf1 Hf2]. split; [done|]. constructor; [done|done].
Qed.

(** Where the key of an entry is, or would be. *)
Lemma find_info_split id l :
  StronglySorted Z.lt (map fst l) ->
  match find_info id l with
  | Some info => exists l1 l2, l = l1 ++ (id, info) :: l2 /\ erase_info id l = l1 ++ l2 /\
                   forall info', put_info id info' l = l1 ++ (id, info') :: l2
  | None => exists l1 l2, l = l1 ++ l2 /\ Forall (fun k => k < id) (map fst l1) /\ Forall (fun k => id < k) (map fst l2) /\
              forall info', put_info id info' l = l1 ++ (id, info') :: l2
  end.
Proof.
  induction l as [|[k v] l IH]; intros Hs; cbn; [exists [], []; split_and!; (done || constructor)|].
  cbn in Hs. apply StronglySorted_inv in Hs as [Hs Hf]. destruct (Z.eqb_spec k id) as [->|Hne].
  - exists [], l. split_and!; [done..|]. intros info'. by rewrite Z.ltb_irrefl, Z.eqb_refl.
  - specialize (IH Hs). destruct (find_info id l) as [info|].
    + destruct IH as (l1 & l2 & -> & He & Hp). exists ((k, v) :: l1), l2. split_and!; [done|by rewrite He|].
      intros info'. assert (k < id) by (rewrite map_app, Forall_app in Hf; cbn in Hf; destruct Hf as [_ Hf]; by inversion Hf).
      rewrite (proj2 (Z.ltb_ge _ _)), (proj2 (Z.eqb_neq _ _)) by lia. by rewrite Hp.
    + destruct (decide (id < k)) as [Hlt|Hge].
      * exists [], ((k, v) :: l). split_and!; [done|constructor| |].
        -- cbn. constructor; [done|]. eapply Forall_impl; [exact Hf|]. intros x; cbn; lia.
        -- intros info'. by rewrite (proj2 (Z.ltb_lt _ _)).
      * destruct IH as (l1 & l2 & -> & H1 & H2 & Hp). exists ((k, v) :: l1), l2. split_and!; [done| |done|].
        -- cbn. constructor; [lia|done].
        -- intros info'. rewrite (proj2 (Z.ltb_ge _ _)), (proj2 (Z.eqb_neq _ _)) by lia. by rewrite Hp.
Qed.

Lemma pending_app l1 l2 : pending (l1 ++ l2) = pending l1 ++ pending l2.
Proof. unfold pending. by rewrite map_app, concat_app. Qed.

Lemma pending_cons e l : pending (e :: l) = entry_pending e ++ pending l.
Proof. done. Qed.

(** Replacing the tries of an entry. *)
Lemma table_replace l1 id info info' l2 :
  table_ok (l1 ++ (id, info) :: l2) -> entry_ok (id, info') -> table_ok (l1 ++ (id, info') :: l2).
Proof.
  intros [Hs Hf] He. split; [rewrite map_app in Hs |- *; exact Hs|]. rewrite Forall_app in *. destruct Hf as [H1 H2]. inversion H2; subst. by split; [|constructor].
Qed.

Lemma table_erase l1 e l2 : table_ok (l1 ++ e :: l2) -> table_ok (l1 ++ l2).
Proof.
  intros [Hs Hf]. split; [apply (sorted_split l1 e l2 Hs)|]. rewrite Forall_app in *. destruct Hf as [H1 H2]. by inversion H2.
Qed.

Lemma on_wire_spec seqno tries : on_wire seqno tries = false <-> seqno ∉ map at_seqno tries.
Proof.
  unfold on_wire. induction tries as [|t tries IH]; cbn; [set_solver|]. rewrite orb_false_iff, Z.eqb_neq, IH. set_solver.
Qed.

Lemma elem_map {A B} (f : A -> B) (x : B) (l : list A) : x ∈ map f l <-> exists y, x = f y /\ y ∈ l.
Proof. apply list_elem_of_fmap. Qed.

Lemma elem_pending id seqno l :
  (id, seqno) ∈ pending l <-> exists info, (id, info) ∈ l /\ seqno ∈ map at_seqno (ri_tries info).
Proof.
  unfold pending, entry_pending. induction l as [|[k info] l IH]; cbn [map concat]; [set_solver|].
  rewrite elem_of_app, IH, elem_map. cbn. setoid_rewrite elem_of_cons. setoid_rewrite elem_map. split.
  - intros [(t & [= -> ->] & Ht)|(info' & Hin & Hs)]; eauto 10.
  - intros (info' & [[= -> ->]|Hin] & Hs); [|right; eauto]. destruct Hs as (t & -> & Ht). left. eauto.
Qed.

Lemma key_unique id info info' l1 l2 :
  StronglySorted Z.lt (map fst (l1 ++ (id, info) :: l2)) -> (id, info') ∈ l1 ++ (id, info) :: l2 -> info' = info.
Proof.
  intros Hs Hin. apply sorted_split in Hs as (_ & H1 & H2). cbn in *. rewrite Forall_forall in H1, H2.
  apply elem_of_app in Hin as [Hin|Hin]; [|apply elem_of_cons in Hin as [[= ->]|Hin]; [done|]].
  - specialize (H1 id ltac:(apply elem_map; by exists (id, info'))). lia.
  - specialize (H2 id ltac:(apply elem_map; by exists (id, info'))). lia.
Qed.

(** A request: it is let through when it is not on the wire, and then it is. *)
Lemma register_request_ok now r m :
  table_ok (m_requests m) ->
  let '(status, m') := register_request now r m in
  table_ok (m_requests m') /\ m_faults m' = m_faults m /\
  match status with
  | IM_MSGS_PASS => ((rq_id r, rq_seqno r) ∉ pending (m_requests m)) /\
                    pending (m_requests m') ≡ₚ (rq_id r, rq_seqno r) :: pending (m_requests m)
  | IM_MSGS_DROP => (rq_id r, rq_seqno r) ∈ pending (m_requests m) /\ m_requests m' = m_requests m
  end.
Proof.
  intros Hok. pose proof (find_info_split (rq_id r) (m_requests m) (proj1 Hok)) as Hf. unfold register_request.
  destruct (find_info (rq_id r) (m_requests m)) as [info|]; cbn [default from_option id]; cycle 1.
  - destruct Hf as (l1 & l2 & Hl & H1 & H2 & Hp). cbn [ri_tries ri_original_peer on_wire existsb app m_requests assign m_faults].
    rewrite Hp, Hl in *. destruct Hok as [Hs He]. split_and!; [|done| |].
    + split; [by apply sorted_insert|]. rewrite Forall_app in *. destruct He as [He1 He2]. split; [done|].
      constructor; [|done]. split; cbn; [done|]. apply NoDup_singleton.
    + rewrite elem_pending. intros (info & Hin & _). rewrite Forall_forall in H1, H2. apply elem_of_app in Hin as [Hin|Hin].
      * specialize (H1 (rq_id r) ltac:(apply elem_map; by exists (rq_id r, info))). lia.
      * specialize (H2 (rq_id r) ltac:(apply elem_map; by exists (rq_id r, info))). lia.
    + rewrite !pending_app, pending_cons. cbn. symmetry. apply Permutation_middle.
  - destruct Hf as (l1 & l2 & Hl & _ & Hp). destruct (on_wire (rq_seqno r) (ri_tries info)) eqn:Hw.
    + cbn [m_requests assign m_faults]. rewrite Hp, <- Hl. split_and!; [done..| |done]. rewrite Hl. apply elem_pending. exists info.
      split; [set_solver|]. destruct (decide (rq_seqno r ∈ map at_seqno (ri_tries info))) as [|Hn]; [done|].
      apply on_wire_spec in Hn. congruence.
    + apply on_wire_spec in Hw. cbn [m_requests assign m_faults]. rewrite Hp. rewrite Hl in Hok |- *.
      pose proof Hok as [Hs He]. rewrite Forall_app in He. destruct He as [_ He]. inversion He as [|? ? [Hne Hnd] _]; subst. cbn in Hne, Hnd.
      split_and!; [|done| |].
      * eapply table_replace; [done|]. split; cbn; [by destruct (ri_tries info)|]. rewrite map_app. apply NoDup_app. split_and!; [done| |apply NoDup_singleton].
        cbn. set_solver.
      * rewrite elem_pending. intros (info2 & Hin & Hs2). apply key_unique in Hin; [|done]. by subst info2.
      * rewrite !pending_app, !pending_cons. unfold entry_pending. cbn. rewrite map_app. cbn. rewrite <- app_assoc. cbn.
        rewrite <- !Permutation_middle. done.
Qed.

(** A reply takes one request off the wire. *)
Lemma take_try_split seqno tries t rest :
  take_try seqno tries = Some (t, rest) -> at_seqno t = seqno /\ exists a b, tries = a ++ t :: b /\ rest = a ++ b.
Proof.
  revert rest. induction tries as [|x tries IH]; intros rest; cbn; [done|]. destruct (Z.eqb_spec (at_seqno x) seqno) as [He|He].
  - intros [= <- <-]. split; [done|]. by exists [], tries.
  - destruct (take_try seqno tries) as [[y r]|]; [|done]. intros [= <- <-]. destruct (IH r eq_refl) as (H1 & a & b & -> & ->).
    split; [done|]. by exists (x :: a), b.
Qed.

Lemma match_try_split r tries t rest :
  match_try r tries = Some (t, rest) ->
  (is_echo_reply r = true -> at_seqno t = rp_seqno r) /\ exists a b, tries = a ++ t :: b /\ rest = a ++ b.
Proof.
  unfold match_try. destruct (is_echo_reply r).
  - intros H. apply take_try_split in H as [H1 H2]. done.
  - destruct tries as [|x tries]; [done|]. intros [= <- <-]. split; [done|]. by exists [], tries.
Qed.

Lemma register_reply_ok r m :
  table_ok (m_requests m) ->
  let '(status, r', m') := register_reply r m in
  table_ok (m_requests m') /\ m_faults m' = m_faults m /\
  match status with
  | IM_MSGS_PASS => rp_id r' = rp_id r /\ pending (m_requests m) ≡ₚ (rp_id r', rp_seqno r') :: pending (m_requests m')
  | IM_MSGS_DROP => r' = r /\ m' = m
  end.
Proof.
  intros Hok. pose proof (find_info_split (rp_id r) (m_requests m) (proj1 Hok)) as Hf. unfold register_reply.
  destruct (find_info (rp_id r) (m_requests m)) as [info|]; [|done]. destruct Hf as (l1 & l2 & Hl & Her & Hp).
  destruct (match_try r (ri_tries info)) as [[t rest]|] eqn:Hm; [|done].
  destruct (match_try_split _ _ _ _ Hm) as (Hseq & a & b & Ht & Hrest).
  set (r' := if is_echo_reply r then r else r <| rp_seqno := at_seqno t |>).
  assert (Hr' : rp_id r' = rp_id r /\ rp_seqno r' = at_seqno t).
  { unfold r'. destruct (is_echo_reply r); [|done]. by rewrite Hseq. }
  destruct Hr' as [Hid Hsq]. rewrite Hsq, Z.eqb_refl, Hid. cbn [m_requests assign m_faults].
  rewrite Hl in Hok. pose proof Hok as [_ He]. rewrite Forall_app in He. destruct He as [_ He]. inversion He as [|? ? [Hne Hnd] _]; subst. cbn in Hne, Hnd.
  rewrite Ht, map_app in Hnd. cbn in Hnd. rewrite <- Permutation_middle in Hnd. apply NoDup_cons in Hnd as [_ Hnd]. rewrite <- map_app in Hnd.
  assert (Hpend : pending (m_requests m) ≡ₚ (rp_id r, at_seqno t) :: pending l1 ++ entry_pending (rp_id r, mkInfo (ri_original_peer info) (a ++ b)) ++ pending l2).
  { rewrite Hl, pending_app, pending_cons. unfold entry_pending at 1. cbn. rewrite Ht, map_app. cbn. rewrite <- !app_assoc. cbn.
    rewrite <- !Permutation_middle. unfold entry_pending. cbn. rewrite map_app, <- app_assoc. done. }
  destruct (a ++ b) as [|x ab] eqn:Hab.
  - rewrite Her. split_and!; [by eapply table_erase|done..|]. rewrite Hpend, pending_app. cbn. done.
  - rewrite Hp. split_and!; [|done..|].
    + eapply table_replace; [done|]. split; [done|]. done.
    + rewrite Hpend, pending_app, pending_cons. done.
Qed.

(** The timer: what expired is answered, the rest stays. *)
Definition answered (replies : list IcmpEchoReply) : list (Z * Z) := map (fun r => (rp_id r, rp_seqno r)) replies.

Lemma filter_split now (tries : list RequestAttempt) :
  tries ≡ₚ List.filter (expired now) tries ++ List.filter (fun t => negb (expired now t)) tries.
Proof.
  induction tries as [|t tries IH]; [done|]. cbn. destruct (expired now t); cbn.
  - by rewrite <- IH.
  - by rewrite <- Permutation_middle, <- IH.
Qed.

Lemma elem_filter (f : RequestAttempt -> bool) t tries : t ∈ List.filter f tries <-> t ∈ tries /\ f t = true.
Proof. rewrite !list_elem_of_In. apply filter_In. Qed.

Lemma filter_nodup (f : RequestAttempt -> bool) tries :
  NoDup (map at_seqno tries) -> NoDup (map at_seqno (List.filter f tries)).
Proof.
  induction tries as [|t tries IH]; [done|]. cbn. intros [Hn Hd]%NoDup_cons. destruct (f t); [|auto].
  cbn. apply NoDup_cons. split; [|auto]. rewrite elem_map in *. intros (y & Hy & Hin). apply Hn. exists y. split; [done|].
  by apply elem_filter in Hin as [? _].
Qed.

Lemma timer_loop_ok now l :
  table_ok l ->
  let '(replies, rest) := timer_loop now l in
  table_ok rest /\ pending l ≡ₚ answered replies ++ pending rest /\
  Forall (fun e => Forall (fun t => now < at_timeout_ts t) (ri_tries e.2)) rest /\
  Forall (fun r => rp_type r = ICMP_MT_DROP) replies /\
  forall k, Forall (fun x => k < x) (map fst l) -> Forall (fun x => k < x) (map fst rest).
Proof.
  induction l as [|[id info] l IH]; intros [Hs He]; cbn; [by split_and!|].
  cbn in Hs. apply StronglySorted_inv in Hs as [Hs Hf]. inversion He as [|? ? [Hne Hnd] He']; subst.
  specialize (IH (conj Hs He')). destruct (timer_loop now l) as [replies rest]. destruct IH as ([I1 I1'] & I2 & I3 & I4 & I5).
  set (out := map _ _).
  assert (Hout : answered out = map (fun t => (id, at_seqno t)) (List.filter (expired now) (ri_tries info))).
  { unfold out, answered. rewrite map_map. done. }
  assert (Hdrop : Forall (fun r => rp_type r = ICMP_MT_DROP) (out ++ replies)).
  { apply Forall_app. split; [|done]. unfold out. apply Forall_forall. intros x. rewrite elem_map. by intros (t & -> & _). }
  assert (Hp : pending ((id, info) :: l) ≡ₚ
    answered (out ++ replies) ++ map (fun t => (id, at_seqno t)) (List.filter (fun t => negb (expired now t)) (ri_tries info)) ++ pending rest).
  { rewrite pending_cons, I2. unfold entry_pending. cbn. rewrite (filter_split now (ri_tries info)) at 1. rewrite map_app.
    unfold answered in *. rewrite map_app, Hout. solve_Permutation. }
  assert (Hst : Forall (fun t => now < at_timeout_ts t) (List.filter (fun t => negb (expired now t)) (ri_tries info))).
  { apply Forall_forall. intros t Ht. apply elem_filter in Ht as [_ Ht]. unfold expired in Ht. by rewrite negb_involutive in Ht; apply Z.ltb_lt in Ht. }
  destruct (List.filter (fun t => negb (expired now t)) (ri_tries info)) as [|t tries] eqn:Hfl.
  - split_and!; [done|done|done|done|]. intros k Hk. inversion Hk; subst. auto.
  - split_and!; [|done|by constructor|done|].
    + split; cbn; [constructor; [done|]; by apply I5|]. constructor; [|done]. split; cbn; [done|].
      change (at_seqno t :: map at_seqno tries) with (map at_seqno (t :: tries)). rewrite <- Hfl. by apply filter_nodup.
    + cbn. intros k Hk. inversion Hk; subst. constructor; auto.
Qed.

(** ** The life of a manager *)

Inductive Input :=
  | I_request (now : Z) (r : IcmpEchoRequest)
  | I_reply (r : IcmpEchoReply)
  | I_timer (now : Z).

(** A step, with the requests it let through and the requests it answered. *)
Definition step (i : Input) (m : Manager) : list (Z * Z) * list (Z * Z) * Manager :=
  match i with
  | I_request now r =>
      match register_request now r m with
      | (IM_MSGS_PASS, m) => ([(rq_id r, rq_seqno r)], [], m)
      | (IM_MSGS_DROP, m) => ([], [], m)
      end
  | I_reply r =>
      match register_reply r m with
      | (IM_MSGS_PASS, r, m) => ([], [(rp_id r, rp_seqno r)], m)
      | (IM_MSGS_DROP, _, m) => ([], [], m)
      end
  | I_timer now => let '(replies, m) := timer_callback now m in ([], answered replies, m)
  end.

Fixpoint run (inputs : list Input) (m : Manager) : list (Z * Z) * list (Z * Z) * Manager :=
  match inputs with
  | [] => ([], [], m)
  | i :: inputs =>
      let '(asked, answers, m) := step i m in
      let '(asked', answers', m) := run inputs m in
      (asked ++ asked', answers ++ answers', m)
  end.

Lemma manager_step_ok i m :
  table_ok (m_requests m) ->
  let '(asked, answers, m') := step i m in
  table_ok (m_requests m') /\ m_faults m' = m_faults m /\
  asked ++ pending (m_requests m) ≡ₚ answers ++ pending (m_requests m').
Proof.
  intros Hok. destruct i as [now r|r|now]; cbn [step].
  - pose proof (register_request_ok now r m Hok) as H. destruct (register_request now r m) as [[] m']; destruct H as (H1 & H2 & H3 & H4).
    + split_and!; [done..|]. by rewrite H4.
    + split_and!; [done..|]. by rewrite H4.
  - pose proof (register_reply_ok r m Hok) as H. destruct (register_reply r m) as [[[] r'] m']; destruct H as (H1 & H2 & H3 & H4).
    + split_and!; [done..|]. by rewrite H4.
    + split_and!; [done..|]. by subst.
  - unfold timer_callback. pose proof (timer_loop_ok now (m_requests m) Hok) as H. destruct (timer_loop now (m_requests m)) as [replies rest].
    destruct H as (H1 & H2 & _). by split_and!.
Qed.

Lemma run_ok inputs m :
  table_ok (m_requests m) ->
  let '(asked, answers, m') := run inputs m in
  table_ok (m_requests m') /\ m_faults m' = m_faults m /\
  asked ++ pending (m_requests m) ≡ₚ answers ++ pending (m_requests m').
Proof.
  revert m. induction inputs as [|i inputs IH]; intros m Hok; cbn [run]; [done|].
  pose proof (manager_step_ok i m Hok) as H1. destruct (step i m) as [[asked answers] m1]. destruct H1 as (T1 & F1 & P1).
  specialize (IH m1 T1). destruct (run inputs m1) as [[asked' answers'] m2]. destruct IH as (T2 & F2 & P2).
  split_and!; [done|congruence|]. rewrite <- app_assoc, (Permutation_app_comm asked'), app_assoc, P1, <- app_assoc.
  rewrite (Permutation_app_comm _ asked'), P2. by rewrite app_assoc.
Qed.
End Manager.

(** C38.  Whatever comes in whatever order: the requests the manager let through
    are exactly the ones it has answered, each once, and the ones that are still
    on the wire.  So no request is answered twice, none is forgotten, and nothing
    is answered that was not asked; and no assertion fails. *)
Theorem icmp_requests_conserved inputs timeout :
  let '(asked, answers, m) := Manager.run inputs (IcmpManager.init timeout) in
  asked ≡ₚ answers ++ Manager.pending (IcmpManager.m_requests m) /\ IcmpManager.m_faults m = [].
Proof.
  assert (H0 : Manager.table_ok (IcmpManager.m_requests (IcmpManager.init timeout))) by (split; constructor).
  pose proof (Manager.run_ok inputs _ H0) as H. destruct (Manager.run inputs _) as [[asked answers] m]. destruct H as (_ & Hf & Hp).
  split; [|done]. by rewrite app_nil_r in Hp.
Qed.

(** The order of the keys of echo requests is not an order: two keys can each be
    less than the other. *)
Theorem echo_key_lt_not_asymmetric : echo_key_lt (0, 1) (1, 0) = true /\ echo_key_lt (1, 0) (0, 1) = true.
Proof. done. Qed.

(** ** Witnesses *)

Module IcmpRun.
Definition request : IcmpEchoRequest := mkRequest (WireSample.host4 7 0) 77 3 64 56.
Definition reply (seqno : Z) : IcmpEchoReply := mkReply (WireSample.host4 7 0) 77 seqno ICMP_MT_ECHO_REPLY 0.
Definition opened : IcmpMux.Mux := (IcmpMux.send_request (IcmpMux.mkEnv (Some 9) true true) request IcmpMux.new).2.
End IcmpRun.

Lemma icmp_request_parses_witness :
  parse_request (H := WireSample.lib) (writer_buffer (IcmpMux.compose_request IcmpRun.request)) = Some (IcmpRun.request, []).
Proof. apply (icmp_request_parses IcmpRun.request). split; [by left|by vm_compute]. Defined.

Lemma icmp_stream_delivers_witness :
  let stream := concat (map reply_bytes [IcmpRun.reply 3; IcmpRun.reply 4]) in
  replies (process_chunks (H := WireSample.lib) [take 30 stream; drop 30 stream] IcmpRun.opened) = [IcmpRun.reply 3; IcmpRun.reply 4].
Proof.
  apply (icmp_stream_delivers _ [IcmpRun.reply 3; IcmpRun.reply 4] IcmpRun.opened); [|by vm_compute| |by vm_compute].
  - split; [by vm_compute|by exists 9].
  - repeat constructor; try (by left); by vm_compute.
Defined.
