(* ===== verification/DomainFilter.v ===== *)
(** * The domain filter: the exclusion list and its lookups

    Models [core/src/domain_filter.cpp] and [core/include/vpn/internal/domain_filter.h].
    The list of exclusions is split into words, each word is parsed into an entry of
    one of four tables, and the tables answer for a domain name ([match_domain]) or
    for the address of a connection ([match_tag]).  The theorems relate the answers to
    the words of the list as [VpnSettings.exclusions] documents them.  A text is a list
    of character codes. *)

From stdpp Require Import gmap.
From S2P Require Import Prelude VpnTypes Wire.

Abbreviation text := (list Z).

Definition txt (s : string) : text := map (fun c => Z.of_N (Ascii.N_of_ascii c)) (String.list_ascii_of_string s).

Definition DOT : Z := 46.
Definition WWW_PREFIX : text := Eval vm_compute in txt "www.".
Definition WILDCARD_PREFIX : text := Eval vm_compute in txt "*.".
Definition USHRT_MAX : Z := 65535.

(** [isalnum] and [isspace] of the C locale *)
Definition isalnum (c : Z) : bool :=
  ((48 <=? c) && (c <=? 57)) || ((65 <=? c) && (c <=? 90)) || ((97 <=? c) && (c <=? 122)).
Definition isspace (c : Z) : bool := (c =? 32) || ((9 <=? c) && (c <=? 13)).

Definition starts_with (str prefix : text) : bool := bool_decide (take (length prefix) str = prefix).

(** ** Data *)

(** [MatchFlagsSet], a bit for each of [DFMM_EXACT] and [DFMM_SUBDOMAINS] *)
Record MatchFlagsSet := mkFlags { DFMM_EXACT : bool; DFMM_SUBDOMAINS : bool }.
#[export] Instance eta_MatchFlagsSet : Eta MatchFlagsSet := fun r => mkFlags (DFMM_EXACT r) (DFMM_SUBDOMAINS r).

Definition no_flags : MatchFlagsSet := mkFlags false false.
Definition flags_or (a b : MatchFlagsSet) : MatchFlagsSet :=
  mkFlags (DFMM_EXACT a || DFMM_EXACT b) (DFMM_SUBDOMAINS a || DFMM_SUBDOMAINS b).

Record DomainEntryInfo := mkDomainEntry { de_text : text; de_flags : MatchFlagsSet }.

Record CidrRange := mkCidrRange { cr_addr : list Z; cr_prefix_len : Z }.

Inductive ParseResult :=
| AddressEntry (addr : SocketAddress)
| CidrEntry (range : CidrRange)
| DomainEntry (info : DomainEntryInfo)
| PortOnlyEntry (port : Z)
| DomainEntryMalformed.

Inductive DomainFilterValidationStatus := DFVS_OK_ADDR | DFVS_OK_CIDR | DFVS_OK_DOMAIN | DFVS_OK_PORT | DFVS_MALFORMED.
Inductive DomainFilterMatchStatus := DFMS_DEFAULT | DFMS_EXCLUSION | DFMS_SUSPECT_EXCLUSION.

#[export] Instance match_status_eq_dec : EqDecision DomainFilterMatchStatus.
Proof. solve_decision. Defined.

Record DomainFilterMatchResult := mkMatchResult { mr_status : DomainFilterMatchStatus; mr_domain : option text }.
#[export] Instance eta_MatchResult : Eta DomainFilterMatchResult := fun r => mkMatchResult (mr_status r) (mr_domain r).

Record SockAddrTag := mkTag { tag_addr : SocketAddress; tag_appname : text }.

(** ** The common library *)

(** Parsing of addresses, ranges and numbers.  [SocketAddress] and [CidrRange] made
    from a text that does not hold one are not [valid()], here [None]; a set of
    ranges includes an address when one of its ranges does. *)
Class FilterLib := {
  split_host_port : text -> option (text * text);
  to_integer_u64 : text -> option Z;
  host_address : text -> Z -> option SocketAddress;
  parse_cidr : text -> option CidrRange;
  cidr_contains : CidrRange -> CidrRange -> bool;
  cidr_set_includes : list CidrRange -> CidrRange -> bool;
  cidr_set_includes_addr ranges addr :
    let r := mkCidrRange addr (Z.of_nat (length addr) * 8) in
    cidr_set_includes ranges r = existsb (fun range => cidr_contains range r) ranges;
}.

(** [LruTimeoutCache]: a lookup at a time, which may change which entry is evicted
    next but not what is found; an insertion may evict other entries. *)
Class LruTimeoutCache (C K V : Type) := {
  cache_find : Z -> C -> K -> option V;
  cache_touch : K -> C -> C;
  cache_insert : Z -> K -> V -> C -> C;
  cache_insert_ttl : Z -> K -> V -> Z -> bool -> C -> C;
  cache_clear : C -> C;
  cache_find_touch now k k' c : cache_find now (cache_touch k c) k' = cache_find now c k';
  cache_find_insert now k v c : cache_find now (cache_insert now k v c) k = Some v;
  cache_find_insert_ttl now k v ttl keep c : 0 < ttl -> is_Some (cache_find now (cache_insert_ttl now k v ttl keep c) k);
  cache_find_clear now k c : cache_find now (cache_clear c) k = None;
}.

(** ** The filter *)

Record DomainFilter {TC SC : Type} := mkDomainFilter {
  f_mode : VpnMode;
  f_domains : gmap text MatchFlagsSet;
  f_addresses : list SocketAddress;
  f_ports_only : list Z;
  f_cidr_ranges : list CidrRange;
  f_resolved_tags : TC;
  f_exclusion_suspects : SC;
}.
Arguments DomainFilter : clear implicits.
#[export] Instance eta_DomainFilter {TC SC} : Eta (DomainFilter TC SC) := fun r =>
  mkDomainFilter _ _ (f_mode r) (f_domains r) (f_addresses r) (f_ports_only r) (f_cidr_ranges r) (f_resolved_tags r)
    (f_exclusion_suspects r).

(** The loop over the characters of a domain name. *)
Fixpoint domain_chars_ok (last_ch : Z) (domain : text) : bool :=
  match domain with
  | [] => true
  | ch :: domain =>
    if negb (isalnum ch) && negb (ch =? 45) && negb (ch =? 95) && negb (ch =? DOT) then false
    else if (ch =? DOT) && (last_ch =? DOT) then false
    else domain_chars_ok ch domain
  end.

Section Filter.
Context `{FilterLib} {TC SC : Type}.
Context `{LruTimeoutCache TC SockAddrTag text} `{LruTimeoutCache SC SocketAddress Z}.

(** The part of [parse_entry] that looks for an address or a port. *)
Definition parse_address (entry : text) : option ParseResult :=
  match split_host_port entry with
  | None => None
  | Some (host, port_str) =>
    let port := to_integer_u64 port_str in
    if bool_decide (is_Some port) && negb (bool_decide (port_str = [])) then
      let port := default 0 port in
      if (0 <? port) && (port <=? USHRT_MAX) then
        if bool_decide (host = txt "*") then Some (PortOnlyEntry (uwrap 16 port))
        else AddressEntry <$> host_address host port
      else None
    else AddressEntry <$> host_address host 0
  end.

Definition parse_entry (entry : text) : ParseResult :=
  match parse_address entry with
  | Some result => result
  | None =>
    match parse_cidr entry with
    | Some range => CidrEntry range
    | None =>
      let domain := if starts_with entry (txt "*.") then drop 2 entry else entry in
      if bool_decide (domain = []) then DomainEntryMalformed
      else if negb (domain_chars_ok DOT domain) then DomainEntryMalformed
      else if starts_with entry WILDCARD_PREFIX then
        DomainEntry (mkDomainEntry (drop (length WILDCARD_PREFIX) entry) (no_flags <| DFMM_SUBDOMAINS := true |>))
      else
        let flags := no_flags <| DFMM_EXACT := true |> in
        if starts_with entry WWW_PREFIX then DomainEntry (mkDomainEntry (drop (length WWW_PREFIX) entry) flags)
        else DomainEntry (mkDomainEntry entry flags)
    end
  end.

Definition validate_entry (entry : text) : DomainFilterValidationStatus :=
  match parse_entry entry with
  | AddressEntry _ => DFVS_OK_ADDR
  | CidrEntry _ => DFVS_OK_CIDR
  | DomainEntry _ => DFVS_OK_DOMAIN
  | PortOnlyEntry _ => DFVS_OK_PORT
  | DomainEntryMalformed => DFVS_MALFORMED
  end.

(** The lambda [add_entry] of [update_exclusions]. *)
Definition add_entry (entry : text) (f : DomainFilter TC SC) : DomainFilter TC SC :=
  match parse_entry entry with
  | AddressEntry addr => f <| f_addresses := addr :: f_addresses f |>
  | DomainEntry info =>
    f <| f_domains := <[de_text info := flags_or (default no_flags (f_domains f !! de_text info)) (de_flags info)]> (f_domains f) |>
  | CidrEntry range => f <| f_cidr_ranges := range :: f_cidr_ranges f |>
  | PortOnlyEntry port => f <| f_ports_only := port :: f_ports_only f |>
  | DomainEntryMalformed => f
  end.

(** The loop over the characters of the list, [buffer] the word read so far. *)
Fixpoint add_entries (exclusions buffer : text) (f : DomainFilter TC SC) : DomainFilter TC SC :=
  match exclusions with
  | [] => if bool_decide (buffer = []) then f else add_entry buffer f
  | ch :: exclusions =>
    if negb (isspace ch) then add_entries exclusions (buffer ++ [ch]) f
    else if bool_decide (buffer = []) then add_entries exclusions buffer f
    else add_entries exclusions [] (add_entry buffer f)
  end.

Definition update_exclusions (mode : VpnMode) (exclusions : text) (f : DomainFilter TC SC) : bool * DomainFilter TC SC :=
  let f := f <| f_mode := mode |> <| f_domains := ∅ |> <| f_addresses := [] |> <| f_ports_only := [] |>
             <| f_exclusion_suspects := cache_clear (f_exclusion_suspects f) |> <| f_cidr_ranges := [] |> in
  (true, add_entries exclusions [] f).

(** The index of the first ['.'], or [npos]. *)
Fixpoint find_dot (s : text) : option nat :=
  match s with
  | [] => None
  | ch :: s => if ch =? DOT then Some 0%nat else S <$> find_dot s
  end.

(** The condition [found] of [match_domain]. *)
Definition flags_match (flags : MatchFlagsSet) (www_prefixed : bool) (domain seek : text) : bool :=
  (DFMM_EXACT flags
   && ((length seek =? length domain)%nat
       || (www_prefixed && (length seek + length WWW_PREFIX =? length domain)%nat)))
  || (DFMM_SUBDOMAINS flags && (length seek <? length domain)%nat).

(** The loop of [match_domain], which makes [seek] shorter at each turn. *)
Fixpoint match_loop (fuel : nat) (f : DomainFilter TC SC) (www_prefixed : bool) (domain seek : text) :
    option DomainFilterMatchStatus :=
  match fuel with
  | O => None
  | S fuel =>
    let found := match f_domains f !! seek with Some flags => flags_match flags www_prefixed domain seek | None => false end in
    if found then Some DFMS_EXCLUSION
    else match find_dot seek with
         | None => Some DFMS_DEFAULT
         | Some next_dot =>
           if (next_dot + 1 =? length seek)%nat then Some DFMS_DEFAULT
           else match_loop fuel f www_prefixed domain (drop (next_dot + 1) seek)
         end
  end.

Definition match_domain_fuel (f : DomainFilter TC SC) (domain : text) : option DomainFilterMatchStatus :=
  let www_prefixed := starts_with domain WWW_PREFIX in
  let seek := if negb www_prefixed then domain else drop (length WWW_PREFIX) domain in
  match_loop (S (length domain)) f www_prefixed domain seek.

(** The loop always ends within its fuel, [match_domain_ends]. *)
Definition match_domain (f : DomainFilter TC SC) (domain : text) : DomainFilterMatchStatus :=
  default DFMS_DEFAULT (match_domain_fuel f domain).

(** The four lookups in the tables of addresses. *)
Definition match_address (f : DomainFilter TC SC) (addr : SocketAddress) : bool :=
  bool_decide (addr ∈ f_addresses f)
  || bool_decide (with_port 0 addr ∈ f_addresses f)
  || cidr_set_includes (f_cidr_ranges f) (mkCidrRange (sa_addr addr) (Z.of_nat (length (sa_addr addr)) * 8))
  || bool_decide (sa_port addr ∈ f_ports_only f).

Definition match_tag (now : Z) (tag : SockAddrTag) (f : DomainFilter TC SC) : DomainFilterMatchResult * DomainFilter TC SC :=
  let result := mkMatchResult DFMS_DEFAULT None in
  let addr_no_port := with_port 0 (tag_addr tag) in
  if match_address f (tag_addr tag) then (result <| mr_status := DFMS_EXCLUSION |>, f)
  else
    let domain := cache_find now (f_resolved_tags f) tag in
    let f := f <| f_resolved_tags := cache_touch tag (f_resolved_tags f) |> in
    match domain with
    | Some domain => (result <| mr_status := match_domain f domain |> <| mr_domain := Some domain |>, f)
    | None =>
      let suspect := cache_find now (f_exclusion_suspects f) addr_no_port in
      let f := f <| f_exclusion_suspects := cache_touch addr_no_port (f_exclusion_suspects f) |> in
      if bool_decide (is_Some suspect) then (result <| mr_status := DFMS_SUSPECT_EXCLUSION |>, f) else (result, f)
    end.

Definition add_resolved_tag (now : Z) (tag : SockAddrTag) (domain : text) (f : DomainFilter TC SC) : DomainFilter TC SC :=
  f <| f_resolved_tags := cache_insert now tag domain (f_resolved_tags f) |>.

Definition add_exclusion_suspect (now : Z) (addr : SocketAddress) (ttl : Z) (f : DomainFilter TC SC) : DomainFilter TC SC :=
  f <| f_exclusion_suspects := cache_insert_ttl now (with_port 0 addr) 0 ttl true (f_exclusion_suspects f) |>.

Definition get_resolvable_exclusions (f : DomainFilter TC SC) : list text :=
  map fst (List.filter (fun e => DFMM_EXACT (snd e)) (map_to_list (f_domains f))).

Definition get_mode (f : DomainFilter TC SC) : VpnMode := f_mode f.
End Filter.
