(* ===== verification/DomainFilterProofs.v ===== *)
(** * The exclusion list does what its documentation says

    The words of the list, the entries they stand for and the answers of the filter:
    [excluded_domains] for domain names, [excluded_addresses] for connections,
    [resolvable_names] for the names that are resolved in advance. *)

From stdpp Require Import gmap.
From S2P Require Import Prelude VpnTypes Wire DomainFilter.

(** ** The words of a list *)

(** [w] is a maximal run of characters of [ex] that are not white space. *)
Definition is_word (ex w : text) : Prop :=
  w <> [] /\ Forall (fun c => isspace c = false) w /\
  exists before after, ex = before ++ w ++ after /\
    (before = [] \/ exists b c, before = b ++ [c] /\ isspace c = true) /\
    (after = [] \/ exists c a, after = c :: a /\ isspace c = true).

(** The words in the order the loop meets them, [buffer] the part of the first one
    that was read already. *)
Fixpoint words (ex buffer : text) : list text :=
  match ex with
  | [] => if bool_decide (buffer = []) then [] else [buffer]
  | ch :: ex =>
    if negb (isspace ch) then words ex (buffer ++ [ch])
    else if bool_decide (buffer = []) then words ex buffer
    else buffer :: words ex []
  end.

Lemma words_run run after : Forall (fun c => isspace c = false) run -> forall buffer,
  words (run ++ after) buffer = words after (buffer ++ run).
Proof.
  induction 1 as [|c run Hc _ IH]; intros buffer; cbn; [by rewrite app_nil_r|].
  rewrite Hc. cbn. by rewrite IH, <- app_assoc.
Qed.

Lemma words_end buffer after : buffer <> [] -> (after = [] \/ exists c a, after = c :: a /\ isspace c = true) ->
  buffer ∈ words after buffer.
Proof.
  intros Hb [->|(c & a & -> & Hc)]; cbn; [|rewrite Hc; cbn]; rewrite bool_decide_eq_false_2 by done; left.
Qed.

Lemma words_space b c after w : isspace c = true -> w ∈ words after [] -> forall buffer, w ∈ words (b ++ c :: after) buffer.
Proof.
  intros Hc Hw. induction b as [|d b IH]; intros buffer; cbn.
  - rewrite Hc. cbn. case_bool_decide; [by subst|by right].
  - destruct (isspace d); cbn; [case_bool_decide; [auto|by right]|auto].
Qed.

Lemma words_sound ex w : forall buffer, Forall (fun c => isspace c = false) buffer ->
  w ∈ words ex buffer -> forall before,
  (before = [] \/ exists b c, before = b ++ [c] /\ isspace c = true) -> is_word (before ++ buffer ++ ex) w.
Proof.
  induction ex as [|ch ex IH]; intros buffer Hb Hw before Hbefore; cbn in Hw.
  - case_bool_decide; set_unfold; [done|]. destruct Hw as [->|[]].
    split_and!; auto. exists before, []. auto.
  - destruct (isspace ch) eqn:Hch; cbn in Hw.
    + assert (Hnext : w ∈ words ex [] -> is_word (before ++ buffer ++ ch :: ex) w).
      { intros Hin. specialize (IH [] (Forall_nil_2 _) Hin (before ++ buffer ++ [ch])).
        rewrite <- !app_assoc in IH. cbn in IH. apply IH. right. exists (before ++ buffer), ch. by rewrite app_assoc. }
      case_bool_decide as Hnil; [subst; auto|]. apply elem_of_cons in Hw as [->|Hw]; [|auto].
      split_and!; auto. exists before, (ch :: ex). eauto 10.
    + assert (Hb' : Forall (fun c => isspace c = false) (buffer ++ [ch])) by (apply Forall_app; auto).
      specialize (IH _ Hb' Hw before Hbefore). by rewrite <- app_assoc in IH.
Qed.

Lemma words_spec ex w : w ∈ words ex [] <-> is_word ex w.
Proof.
  split; [intros Hw; apply (words_sound ex w [] (Forall_nil_2 _) Hw []); auto|].
  intros (Hw & Hrun & before & after & -> & [->|(b & c & -> & Hc)] & Hafter).
  - cbn. rewrite words_run by done. by apply words_end.
  - rewrite <- app_assoc. cbn. apply words_space; [done|]. rewrite words_run by done. by apply words_end.
Qed.

(** ** Domain names *)

Lemma find_dot_some s n : find_dot s = Some n -> s = take n s ++ DOT :: drop (n + 1) s /\ DOT ∉ take n s.
Proof.
  revert n. induction s as [|c s IH]; intros n; cbn; [done|].
  destruct (c =? DOT) eqn:Hc.
  - intros [= <-]. apply Z.eqb_eq in Hc as ->. cbn. split; [done|set_solver].
  - destruct (find_dot s) as [m|] eqn:Hm; cbn; intros [= <-]. destruct (IH m eq_refl) as [Hs Hnot]. cbn.
    split; [by f_equal|]. apply Z.eqb_neq in Hc. set_solver.
Qed.

Lemma find_dot_none s : find_dot s = None -> DOT ∉ s.
Proof.
  induction s as [|c s IH]; cbn; [set_solver|]. destruct (c =? DOT) eqn:Hc; [done|].
  apply Z.eqb_neq in Hc. destruct (find_dot s); cbn; [done|]. set_solver.
Qed.

(** [d] is [s] or what is left of it after one of its dots. *)
Definition label_suffix (d s : text) : Prop := d = s \/ (d <> [] /\ exists p, s = p ++ DOT :: d).

Lemma split_at_dot (a b p d : text) : DOT ∉ a -> a ++ DOT :: b = p ++ DOT :: d -> (p = a /\ d = b) \/ exists q, b = q ++ DOT :: d.
Proof.
  revert p. induction a as [|x a IH]; intros [|y p] Ha Heq; cbn in Heq; simplify_eq; auto.
  - right. eauto.
  - set_solver.
  - destruct (IH p) as [[-> ->]|Hq]; set_solver.
Qed.

Lemma label_suffix_step d s :
  label_suffix d s <->
  d = s \/ (exists n, find_dot s = Some n /\ (n + 1)%nat <> length s /\ label_suffix d (drop (n + 1) s)).
Proof.
  split.
  - intros [->|(Hd & p & Hs)]; [auto|]. right. destruct (find_dot s) as [n|] eqn:Hn.
    2:{ apply find_dot_none in Hn. subst s. set_solver. }
    destruct (find_dot_some _ _ Hn) as [Heq Hnot]. exists n. split; [done|].
    pose proof Heq as Hlen. apply (f_equal length) in Hlen. rewrite length_app in Hlen. cbn in Hlen.
    destruct (split_at_dot _ (drop (n + 1) s) p d Hnot) as [[-> ->]|[q Hq]]; [congruence| |].
    + split; [|by left]. rewrite length_take in Hlen. destruct (drop (n + 1) s); [done|]. cbn in *. lia.
    + split; [|right; eauto]. rewrite Hq, length_app in Hlen. cbn in Hlen. rewrite length_take in Hlen. lia.
  - intros [->|(n & Hn & Hlen & Hd)]; [by left|]. destruct (find_dot_some _ _ Hn) as [Heq _].
    right. destruct Hd as [->|(Hne & q & Hq)].
    + split; [|eauto]. intros Hnil. rewrite Hnil in Heq. apply (f_equal length) in Heq.
      rewrite length_app, length_take in Heq. cbn in Heq. lia.
    + split; [done|]. exists (take n s ++ DOT :: q). rewrite Hq in Heq. rewrite Heq at 1. by rewrite <- app_assoc.
Qed.

Lemma starts_with_spec s p : starts_with s p = true <-> exists r, s = p ++ r.
Proof.
  unfold starts_with. rewrite bool_decide_eq_true. split.
  - intros Hp. exists (drop (length p) s). rewrite <- Hp at 1. by rewrite take_drop.
  - intros [r ->]. by rewrite take_app_length.
Qed.

Section Filter.
Context `{FilterLib} {TC SC : Type}.
Context `{LruTimeoutCache TC SockAddrTag text} `{LruTimeoutCache SC SocketAddress Z}.
Implicit Types f g : DomainFilter TC SC.

(** A name of the table that [match_domain] finds for [domain] by looking for [d]. *)
Definition hit f (www_prefixed : bool) (domain d : text) : Prop :=
  exists flags, f_domains f !! d = Some flags /\ flags_match flags www_prefixed domain d = true.

Lemma match_loop_spec f www domain : forall fuel seek, (length seek < fuel)%nat ->
  exists st, match_loop fuel f www domain seek = Some st /\ st <> DFMS_SUSPECT_EXCLUSION /\
    (st = DFMS_EXCLUSION <-> exists d, label_suffix d seek /\ hit f www domain d).
Proof.
  induction fuel as [|fuel IH]; intros seek Hfuel; [lia|]. cbn [match_loop].
  destruct (match f_domains f !! seek with Some _ => _ | None => false end) eqn:Hfound.
  { exists DFMS_EXCLUSION. split_and!; [done..|]. split; [|done]. intros _. exists seek. split; [by left|].
    destruct (f_domains f !! seek) as [fl|] eqn:Hl; [|done]. by exists fl. }
  assert (Hself : ~ hit f www domain seek).
  { intros (fl & Hl & Hm). rewrite Hl in Hfound. congruence. }
  destruct (find_dot seek) as [n|] eqn:Hn.
  1: destruct (n + 1 =? length seek)%nat eqn:Hlen; [apply Nat.eqb_eq in Hlen|apply Nat.eqb_neq in Hlen].
  2:{ destruct (IH (drop (n + 1) seek)) as (st & Hst & Hns & Hiff).
      { rewrite length_drop. destruct seek; [done|]. cbn in *. lia. }
      exists st. split_and!; [done..|]. rewrite Hiff. split; intros (d & Hd & Hhit); exists d; split; auto.
      - apply label_suffix_step. right. eauto.
      - apply label_suffix_step in Hd as [->|(m & Hm & _ & Hd)]; [by destruct Hself|]. congruence. }
  all: exists DFMS_DEFAULT; split_and!; [done..|]; split; [done|]; intros (d & Hd & Hhit); exfalso;
    apply label_suffix_step in Hd as [->|(m & Hm & Hml & Hd)]; [by destruct Hself|congruence].
Qed.

(** [match_domain] always ends its loop, and it never suspects. *)
Lemma match_domain_ends f domain :
  exists st, match_domain_fuel f domain = Some st /\ st <> DFMS_SUSPECT_EXCLUSION /\
    (st = DFMS_EXCLUSION <->
     exists d, label_suffix d (if starts_with domain WWW_PREFIX then drop 4 domain else domain) /\
       hit f (starts_with domain WWW_PREFIX) domain d).
Proof.
  unfold match_domain_fuel. change (length WWW_PREFIX) with 4%nat.
  destruct (match_loop_spec f (starts_with domain WWW_PREFIX) domain (S (length domain))
    (if starts_with domain WWW_PREFIX then drop 4 domain else domain)) as (st & Hst & Hrest).
  { destruct (starts_with _ _); [rewrite length_drop|]; lia. }
  exists st. split; [|done]. by destruct (starts_with _ _).
Qed.

(** ** The tables *)

Lemma add_entries_eq ex : forall buffer f, add_entries ex buffer f = fold_left (fun f w => add_entry w f) (words ex buffer) f.
Proof.
  induction ex as [|ch ex IH]; intros buffer f; cbn; [by case_bool_decide|].
  destruct (isspace ch); cbn; [case_bool_decide|]; by rewrite IH.
Qed.

(** The flags of a name, none when the name is not in the table. *)
Definition flags_of f (d : text) : MatchFlagsSet := default no_flags (f_domains f !! d).

(** What the entries of a list put into a table, seen through a property [has] of the
    filter which an entry establishes exactly when [adds] says so. *)
Lemma fold_entries (has : DomainFilter TC SC -> Prop) (adds : ParseResult -> Prop) ws :
  (forall w f, has (add_entry w f) <-> has f \/ adds (parse_entry w)) ->
  forall f, has (fold_left (fun f w => add_entry w f) ws f) <-> has f \/ exists w, w ∈ ws /\ adds (parse_entry w).
Proof.
  intros Hstep. induction ws as [|w ws IH]; intros f; cbn; [set_solver|].
  rewrite IH, Hstep. set_solver.
Qed.

Lemma add_entry_flag (g : MatchFlagsSet -> bool) d w f :
  (forall a b, g (flags_or a b) = g a || g b) -> g no_flags = false ->
  g (flags_of (add_entry w f) d) = true <->
  g (flags_of f d) = true \/ exists flags, parse_entry w = DomainEntry (mkDomainEntry d flags) /\ g flags = true.
Proof.
  intros Hor Hno. unfold add_entry, flags_of. destruct (parse_entry w) as [a|r|[d' fl]|p|]; cbn;
    try (split; [by left|intros [?|(? & [=] & _)]; done]).
  destruct (decide (d' = d)) as [->|Hne].
  - rewrite lookup_insert_eq. cbn [default from_option id]. rewrite Hor, orb_true_iff. naive_solver.
  - rewrite lookup_insert_ne by done. naive_solver.
Qed.

(** The tables of the filter after [update_exclusions], by the words of the list. *)
Section Updated.
Context (mode : VpnMode) (ex : text) (f : DomainFilter TC SC).
Let f' := snd (update_exclusions mode ex f).

Lemma updated_table (has : DomainFilter TC SC -> Prop) (adds : ParseResult -> Prop) :
  (forall w f, has (add_entry w f) <-> has f \/ adds (parse_entry w)) ->
  (forall f, f_domains f = ∅ -> f_addresses f = [] -> f_ports_only f = [] -> f_cidr_ranges f = [] -> ~ has f) ->
  has f' <-> exists w, is_word ex w /\ adds (parse_entry w).
Proof.
  intros Hstep Hempty. unfold f', update_exclusions. cbn [snd]. rewrite add_entries_eq, (fold_entries has adds) by done.
  split; [intros [Hf|(w & Hw & Ha)]|intros (w & Hw & Ha)].
  - exfalso. revert Hf. by apply Hempty.
  - exists w. by rewrite <- words_spec.
  - right. exists w. by rewrite words_spec.
Qed.

Lemma updated_flag (g : MatchFlagsSet -> bool) d :
  (forall a b, g (flags_or a b) = g a || g b) -> g no_flags = false ->
  g (flags_of f' d) = true <->
  exists w, is_word ex w /\ exists flags, parse_entry w = DomainEntry (mkDomainEntry d flags) /\ g flags = true.
Proof.
  intros Hor Hno.
  apply (updated_table (fun f => g (flags_of f d) = true)
    (fun r => exists flags, r = DomainEntry (mkDomainEntry d flags) /\ g flags = true)).
  - intros w g'. by apply add_entry_flag.
  - intros g' Hd _ _ _. unfold flags_of. rewrite Hd, lookup_empty. cbn. congruence.
Qed.

Lemma updated_addresses a :
  a ∈ f_addresses f' <-> exists w, is_word ex w /\ parse_entry w = AddressEntry a.
Proof.
  apply (updated_table (fun f => a ∈ f_addresses f) (fun r => r = AddressEntry a)); [|intros ? ? ->; set_solver].
  intros w g. unfold add_entry. destruct (parse_entry w); cbn; set_solver.
Qed.

Lemma updated_ports p :
  p ∈ f_ports_only f' <-> exists w, is_word ex w /\ parse_entry w = PortOnlyEntry p.
Proof.
  apply (updated_table (fun f => p ∈ f_ports_only f) (fun r => r = PortOnlyEntry p)); [|intros ? ? ? ->; set_solver].
  intros w g. unfold add_entry. destruct (parse_entry w); cbn; set_solver.
Qed.

Lemma updated_ranges r :
  r ∈ f_cidr_ranges f' <-> exists w, is_word ex w /\ parse_entry w = CidrEntry r.
Proof.
  apply (updated_table (fun f => r ∈ f_cidr_ranges f) (fun q => q = CidrEntry r)); [|intros ? ? ? ? ->; set_solver].
  intros w g. unfold add_entry. destruct (parse_entry w); cbn; set_solver.
Qed.

Lemma updated_caches :
  f_mode f' = mode /\ f_resolved_tags f' = f_resolved_tags f /\ f_exclusion_suspects f' = cache_clear (f_exclusion_suspects f).
Proof.
  unfold f', update_exclusions. cbn [snd]. rewrite add_entries_eq.
  set (g := f <| f_mode := mode |> <| f_domains := ∅ |> <| f_addresses := [] |> <| f_ports_only := [] |>
             <| f_exclusion_suspects := cache_clear (f_exclusion_suspects f) |> <| f_cidr_ranges := [] |>).
  enough (forall ws g, let g' := fold_left (fun f w => add_entry w f) ws g in
    f_mode g' = f_mode g /\ f_resolved_tags g' = f_resolved_tags g /\ f_exclusion_suspects g' = f_exclusion_suspects g) as Hall
    by apply (Hall _ g).
  intros ws. induction ws as [|w ws IH]; intros g0; cbn; [done|]. destruct (IH (add_entry w g0)) as (-> & -> & ->).
  unfold add_entry. by destruct (parse_entry w).
Qed.
End Updated.

(** ** The answers for a domain name *)

(** What an entry that names [d] itself stands for: [d] and [www.d]. *)
Definition named_exactly (domain d : text) : Prop := domain = d \/ domain = WWW_PREFIX ++ d.

(** The same as the lookup sees it: a name that starts with [www.] is only ever looked
    up without that prefix. *)
Definition found_exactly (domain d : text) : Prop :=
  (domain = d /\ starts_with domain WWW_PREFIX = false) \/ domain = WWW_PREFIX ++ d.

(** What an entry [*.d] stands for: any subdomain of [d], but not [d]. *)
Definition named_below (domain d : text) : Prop := exists p, domain = p ++ DOT :: d.

Lemma label_suffix_length d s : label_suffix d s -> (length d <= length s)%nat /\ (length d = length s -> d = s).
Proof.
  intros [->|(_ & p & ->)]; [auto|]. rewrite length_app. cbn. split; intros; lia.
Qed.

Lemma hit_flags f www domain d : hit f www domain d <-> flags_match (flags_of f d) www domain d = true.
Proof. unfold hit, flags_of. destruct (f_domains f !! d) as [fl|]; cbn; naive_solver. Qed.

Lemma flags_match_true flags www domain d :
  flags_match flags www domain d = true <->
  (DFMM_EXACT flags = true /\ (length d = length domain \/ (www = true /\ length d + 4 = length domain)%nat)) \/
  (DFMM_SUBDOMAINS flags = true /\ (length d < length domain)%nat).
Proof.
  unfold flags_match. change (length WWW_PREFIX) with 4%nat.
  by rewrite orb_true_iff, !andb_true_iff, orb_true_iff, andb_true_iff, !Nat.eqb_eq, Nat.ltb_lt.
Qed.

Lemma match_domain_hit f domain :
  match_domain f domain <> DFMS_SUSPECT_EXCLUSION /\
  (match_domain f domain = DFMS_EXCLUSION <->
   exists d, label_suffix d (if starts_with domain WWW_PREFIX then drop 4 domain else domain) /\
     flags_match (flags_of f d) (starts_with domain WWW_PREFIX) domain d = true).
Proof.
  unfold match_domain. destruct (match_domain_ends f domain) as (st & -> & Hns & Hiff). cbn [default from_option id].
  split; [done|]. rewrite Hiff. by setoid_rewrite hit_flags.
Qed.

Lemma www_drop r : drop 4 (WWW_PREFIX ++ r) = r.
Proof. done. Qed.

Lemma www_prefixed r : starts_with (WWW_PREFIX ++ r) WWW_PREFIX = true.
Proof. apply starts_with_spec. eauto. Qed.

(** The lookup of a name in terms of the flags of the table. *)
Lemma match_domain_table f domain : DFMM_SUBDOMAINS (flags_of f []) = false ->
  match_domain f domain = DFMS_EXCLUSION <->
  exists d, (DFMM_EXACT (flags_of f d) = true /\ found_exactly domain d) \/
            (DFMM_SUBDOMAINS (flags_of f d) = true /\ named_below domain d).
Proof.
  intros Hroot. rewrite (proj2 (match_domain_hit f domain)).
  destruct (starts_with domain WWW_PREFIX) eqn:Hwww.
  - apply starts_with_spec in Hwww as [r ->]. rewrite www_drop. split.
    + intros (d & Hd & Hm). apply flags_match_true in Hm. pose proof (label_suffix_length _ _ Hd) as [Hle Heq].
      rewrite length_app in Hm. change (length WWW_PREFIX) with 4%nat in Hm. exists d.
      destruct Hm as [[Hf Hlen]|[Hf _]]; [left|right]; split; auto.
      * right. f_equal. symmetry. apply Heq. destruct Hlen as [?|[_ ?]]; lia.
      * destruct Hd as [->|(_ & p & ->)]; [by exists (take 3 WWW_PREFIX)|]. exists (WWW_PREFIX ++ p). by rewrite <- app_assoc.
    + intros (d & Hd). exists d. rewrite flags_match_true, length_app. change (length WWW_PREFIX) with 4%nat.
      destruct Hd as [[Hf [[_ Hno]|Heq]]|[Hf [p Heq]]].
      * rewrite www_prefixed in Hno. done.
      * apply app_inv_head in Heq as ->. split; [by left|]. left. split; [done|]. right. split; [done|lia].
      * change (WWW_PREFIX ++ r) with (take 3 WWW_PREFIX ++ DOT :: r) in Heq.
        assert (Hd : label_suffix d r).
        { destruct (split_at_dot (take 3 WWW_PREFIX) r p d) as [[_ ->]|Hq]; [set_solver|done|by left|].
          right. split; [|done]. intros ->. congruence. }
        split; [done|]. right. split; [done|]. apply label_suffix_length in Hd. lia.
  - split.
    + intros (d & Hd & Hm). apply flags_match_true in Hm. pose proof (label_suffix_length _ _ Hd) as [Hle Heq]. exists d.
      destruct Hm as [[Hf [Hlen|[? _]]]|[Hf Hlen]]; [left|done|right]; split; auto.
      * left. split; [|done]. symmetry. auto.
      * destruct Hd as [->|(_ & Hp)]; [lia|done].
    + intros (d & Hd). exists d. rewrite flags_match_true. destruct Hd as [[Hf [[-> _]| ->]]|[Hf [p ->]]].
      * split; [by left|]. auto.
      * by rewrite www_prefixed in Hwww.
      * split; [right; split; [intros ->; congruence|eauto]|]. right. split; [done|]. rewrite length_app. cbn. lia.
Qed.

(** *** The entries *)

(** A domain entry by the word it was written as. *)
Definition domain_entry (w : text) : DomainEntryInfo :=
  if starts_with w WILDCARD_PREFIX then mkDomainEntry (drop 2 w) (mkFlags false true)
  else mkDomainEntry (if starts_with w WWW_PREFIX then drop 4 w else w) (mkFlags true false).

Lemma parse_domain_entry w info :
  parse_entry w = DomainEntry info -> info = domain_entry w /\ (DFMM_SUBDOMAINS (de_flags info) = true -> de_text info <> []).
Proof.
  unfold parse_entry, domain_entry. destruct (parse_address w) as [r|] eqn:Hr.
  { unfold parse_address in Hr. intros ->. repeat (case_match; simplify_option_eq; try done). }
  case_match; [done|]. change (txt "*.") with WILDCARD_PREFIX. case_bool_decide; [done|].
  destruct (domain_chars_ok _ _); cbn [negb]; [|done].
  destruct (starts_with w WILDCARD_PREFIX) eqn:Hs; [by intros [= <-]|].
  destruct (starts_with w WWW_PREFIX); by intros [= <-].
Qed.

Lemma validate_domain w : validate_entry w = DFVS_OK_DOMAIN <-> parse_entry w = DomainEntry (domain_entry w).
Proof.
  unfold validate_entry. split; [|by intros ->].
  destruct (parse_entry w) eqn:Hw; try done. intros _. by apply parse_domain_entry in Hw as [-> _].
Qed.

(** What a word of the list says about a domain name. *)
Definition excludes_domain (w domain : text) : Prop :=
  validate_entry w = DFVS_OK_DOMAIN /\
  ((exists d, w = WILDCARD_PREFIX ++ d /\ named_below domain d) \/
   (starts_with w WILDCARD_PREFIX = false /\ exists d, (w = d /\ starts_with w WWW_PREFIX = false \/ w = WWW_PREFIX ++ d) /\ named_exactly domain d)).

(** The entry [www.www.x] for the name [www.x]. *)
Definition doubled_www (w domain : text) : Prop := starts_with domain WWW_PREFIX = true /\ w = WWW_PREFIX ++ domain.

Lemma named_found w d domain :
  (w = d /\ starts_with w WWW_PREFIX = false) \/ w = WWW_PREFIX ++ d ->
  named_exactly domain d /\ ~ doubled_www w domain <-> found_exactly domain d.
Proof.
  intros Hw. unfold named_exactly, found_exactly, doubled_www. split.
  - intros [[-> | ->] Hn]; [|by right]. left. split; [done|]. apply not_true_is_false. intros Hd.
    destruct Hw as [[-> Hw]| ->]; [congruence|by apply Hn].
  - intros [[-> Hn]| ->]; [split; [by left|]; intros [? _]; congruence|]. split; [by right|]. intros [_ Hd].
    apply (f_equal length) in Hd. destruct Hw as [[-> _]| ->]; rewrite ?length_app in Hd; cbn in Hd; lia.
Qed.

Lemma wildcard_not_doubled d domain : ~ doubled_www (WILDCARD_PREFIX ++ d) domain.
Proof. by intros [_ [=]]. Qed.

Lemma excludes_domain_entry w domain :
  excludes_domain w domain /\ ~ doubled_www w domain <->
  exists d flags, parse_entry w = DomainEntry (mkDomainEntry d flags) /\
    ((DFMM_EXACT flags = true /\ found_exactly domain d) \/ (DFMM_SUBDOMAINS flags = true /\ named_below domain d)).
Proof.
  unfold excludes_domain. split.
  - intros [[Hv Hw] Hn]. apply validate_domain in Hv. rewrite Hv. unfold domain_entry.
    destruct Hw as [(d & -> & Hd)|(-> & d & Hw & Hd)].
    + change (starts_with (WILDCARD_PREFIX ++ d) WILDCARD_PREFIX) with true. exists d, (mkFlags false true). auto.
    + assert (Hf : found_exactly domain d) by (by apply (named_found w)). exists d, (mkFlags true false). split; [|auto].
      destruct Hw as [[-> ->]| ->]; [done|]. by rewrite www_prefixed.
  - intros (d & flags & Hp & Hd). assert (Hv : validate_entry w = DFVS_OK_DOMAIN) by (unfold validate_entry; by rewrite Hp).
    apply validate_domain in Hv as Hv'. rewrite Hp in Hv'. injection Hv' as Hi. unfold domain_entry in Hi.
    destruct (starts_with w WILDCARD_PREFIX) eqn:Hs; [|destruct (starts_with w WWW_PREFIX) eqn:Hw]; simplify_eq.
    + apply starts_with_spec in Hs as [r ->]. destruct Hd as [[[=] _]|[_ Hd]].
      split; [|apply wildcard_not_doubled]. split; [done|]. left. by exists r.
    + apply starts_with_spec in Hw as [r ->]. destruct Hd as [[_ Hd]|[[=] _]].
      apply (named_found (WWW_PREFIX ++ r)) in Hd as [Hd Hn]; [|by right]. split; [|done]. split; [done|]. right. eauto.
    + destruct Hd as [[_ Hd]|[[=] _]]. apply (named_found w) in Hd as [Hd Hn]; [|by left].
      split; [|done]. split; [done|]. right. eauto 6.
Qed.

(** C37. The answer for a domain name after the list of exclusions was set is what the
    documentation of [VpnSettings.exclusions] says of its words, with one exception: the
    name is an exclusion exactly when some white-space separated word of the list is a
    domain entry for it, [*.d] for the subdomains of [d] but not [d], [d] or [www.d] for
    [d] and [www.d], except that the entry [www.www.x] does not make [www.x] an
    exclusion ([doubled_www_is_lost]); otherwise the answer is the default one, and never
    a suspicion.  The list before plays no role. *)
Theorem excluded_domains (mode : VpnMode) (ex domain : text) (f : DomainFilter TC SC) :
  let f' := snd (update_exclusions mode ex f) in
  (match_domain f' domain = DFMS_EXCLUSION <->
   exists w, is_word ex w /\ excludes_domain w domain /\ ~ doubled_www w domain) /\
  (match_domain f' domain = DFMS_EXCLUSION \/ match_domain f' domain = DFMS_DEFAULT).
Proof.
  intros f'. split; [|pose proof (proj1 (match_domain_hit f' domain)); destruct (match_domain f' domain); auto; done].
  rewrite match_domain_table.
  - setoid_rewrite excludes_domain_entry. split.
    + intros (d & [[Hf Hd]|[Hf Hd]]); apply updated_flag in Hf as (w & Hw & flags & Hp & Hg); eauto 12.
    + intros (w & Hw & d & flags & Hp & Hd). exists d. unfold f'. rewrite !updated_flag by done. destruct Hd as [[? ?]|[? ?]]; eauto 12.
  - destruct (DFMM_SUBDOMAINS (flags_of f' [])) eqn:Hf; [|done]. apply updated_flag in Hf as (w & _ & flags & Hp & Hg); [|done..].
    by destruct (proj2 (parse_domain_entry _ _ Hp) Hg).
Qed.

(** ** The answers for a connection *)

Lemma match_domain_congr f g domain : f_domains f = f_domains g -> match_domain f domain = match_domain g domain.
Proof.
  intros Hd. unfold match_domain, match_domain_fuel. f_equal. generalize (if negb (starts_with domain WWW_PREFIX) then domain else drop (length WWW_PREFIX) domain).
  induction (S (length domain)) as [|n IH]; intros seek; cbn; [done|]. rewrite Hd. repeat case_match; auto.
Qed.

(** What a word of the list says about an address. *)
Definition excludes_address (w : text) (addr : SocketAddress) : Prop :=
  match parse_entry w with
  | AddressEntry a => a = addr \/ a = with_port 0 addr
  | CidrEntry range => cidr_contains range (mkCidrRange (sa_addr addr) (Z.of_nat (length (sa_addr addr)) * 8)) = true
  | PortOnlyEntry port => port = sa_port addr
  | DomainEntry _ | DomainEntryMalformed => False
  end.

Lemma match_address_spec mode ex f addr :
  match_address (snd (update_exclusions mode ex f)) addr = true <-> exists w, is_word ex w /\ excludes_address w addr.
Proof.
  unfold match_address. rewrite cidr_set_includes_addr, !orb_true_iff, !bool_decide_eq_true, existsb_exists.
  rewrite !updated_addresses, updated_ports. setoid_rewrite <- list_elem_of_In. setoid_rewrite updated_ranges.
  unfold excludes_address. split.
  - intros [[[(w & Hw & Hp)|(w & Hw & Hp)]|(r & (w & Hw & Hp) & Hc)]|(w & Hw & Hp)]; exists w; rewrite Hp; auto.
  - intros (w & Hw & Hp). destruct (parse_entry w) eqn:He; try done; [destruct Hp as [-> | ->]|..]; subst; eauto 12.
Qed.

(** The answer for a connection after the list of exclusions was set: an entry of
    the list for its address (with or without a port), for a range that holds the
    address or for its port excludes it whatever else is known; otherwise the domain
    name its tag was resolved to before decides, also when that was under an earlier
    list; otherwise the default applies, as the suspects of an earlier list are
    forgotten. *)
Theorem excluded_addresses (mode : VpnMode) (ex : text) (now : Z) (tag : SockAddrTag) (f : DomainFilter TC SC) :
  let f' := snd (update_exclusions mode ex f) in
  let result := fst (match_tag now tag f') in
  ((exists w, is_word ex w /\ excludes_address w (tag_addr tag)) -> result = mkMatchResult DFMS_EXCLUSION None) /\
  (~ (exists w, is_word ex w /\ excludes_address w (tag_addr tag)) ->
   result = match cache_find now (f_resolved_tags f) tag with
            | Some domain => mkMatchResult (match_domain f' domain) (Some domain)
            | None => mkMatchResult DFMS_DEFAULT None
            end).
Proof.
  intros f' result. pose proof (match_address_spec mode ex f (tag_addr tag)) as Hm. fold f' in Hm.
  destruct (updated_caches mode ex f) as (_ & Ht & Hs). fold f' in Ht, Hs.
  subst result. clearbody f'. unfold match_tag. split; intros Hw.
  - apply Hm in Hw. by rewrite Hw.
  - destruct (match_address f' (tag_addr tag)); [by destruct Hw; apply Hm|]. rewrite Ht.
    destruct (cache_find now (f_resolved_tags f) tag) as [d|].
    + cbn [fst]. by rewrite (match_domain_congr _ f' d).
    + cbn. by rewrite Hs, cache_find_clear.
Qed.

(** What was learned of an address: the name of a tag decides from then on, and a
    suspect is reported as one, unless the list holds the address. *)
Lemma learned_tag now tag domain f :
  match_address f (tag_addr tag) = false ->
  fst (match_tag now tag (add_resolved_tag now tag domain f)) = mkMatchResult (match_domain f domain) (Some domain).
Proof.
  intros Hm. set (g := add_resolved_tag now tag domain f). unfold match_tag.
  change (match_address g (tag_addr tag)) with (match_address f (tag_addr tag)). rewrite Hm.
  change (f_resolved_tags g) with (cache_insert now tag domain (f_resolved_tags f)). rewrite cache_find_insert.
  cbn [fst]. by rewrite (match_domain_congr _ f domain).
Qed.

Lemma learned_suspect now tag addr ttl f :
  0 < ttl -> with_port 0 (tag_addr tag) = with_port 0 addr -> match_address f (tag_addr tag) = false ->
  cache_find now (f_resolved_tags f) tag = None ->
  fst (match_tag now tag (add_exclusion_suspect now addr ttl f)) = mkMatchResult DFMS_SUSPECT_EXCLUSION None.
Proof.
  intros Httl Haddr Hm Hnone. set (g := add_exclusion_suspect now addr ttl f). unfold match_tag.
  change (match_address g (tag_addr tag)) with (match_address f (tag_addr tag)). rewrite Hm.
  change (f_resolved_tags g) with (f_resolved_tags f). rewrite Hnone. cbn. rewrite Haddr.
  by rewrite bool_decide_eq_true_2 by (by apply cache_find_insert_ttl).
Qed.

(** Asking is free: a lookup changes the answer to no later lookup. *)
Lemma match_tag_repeatable now now' tag tag' f :
  fst (match_tag now tag (snd (match_tag now' tag' f))) = fst (match_tag now tag f).
Proof.
  unfold match_tag at 2. destruct (match_address f (tag_addr tag')); [done|].
  assert (Hgen : forall g, f_domains g = f_domains f -> match_address g (tag_addr tag) = match_address f (tag_addr tag) ->
    (forall k, cache_find now (f_resolved_tags g) k = cache_find now (f_resolved_tags f) k) ->
    (forall k, cache_find now (f_exclusion_suspects g) k = cache_find now (f_exclusion_suspects f) k) ->
    fst (match_tag now tag g) = fst (match_tag now tag f)).
  { intros g Hd Ha Ht Hs. unfold match_tag. rewrite Ha, Ht. destruct (match_address f _); [done|].
    destruct (cache_find now (f_resolved_tags f) tag) as [d|]; cbn [fst].
    - by rewrite (match_domain_congr _ (f <| f_resolved_tags := cache_touch tag (f_resolved_tags f) |>) d).
    - cbn. rewrite Hs. by case_bool_decide. }
  destruct (cache_find now' (f_resolved_tags f) tag'); [|cbn; case_bool_decide];
    apply Hgen; cbn; intros; rewrite ?cache_find_touch; done.
Qed.

(** The names that are resolved in advance are those the list names themselves. *)
Lemma resolvable_names mode ex f name :
  name ∈ get_resolvable_exclusions (snd (update_exclusions mode ex f)) <->
  exists w, is_word ex w /\ validate_entry w = DFVS_OK_DOMAIN /\ starts_with w WILDCARD_PREFIX = false /\
    name = (if starts_with w WWW_PREFIX then drop 4 w else w).
Proof.
  trans (DFMM_EXACT (flags_of (snd (update_exclusions mode ex f)) name) = true).
  - unfold get_resolvable_exclusions, flags_of. generalize (f_domains (snd (update_exclusions mode ex f))) as m. intros m.
    rewrite list_elem_of_In, in_map_iff. setoid_rewrite filter_In. setoid_rewrite <- list_elem_of_In. split.
    + intros ([d fl] & <- & Hin & Hf). apply elem_of_map_to_list in Hin. cbn. by rewrite Hin.
    + destruct (m !! name) as [fl|] eqn:Hl; cbn; [|done]. intros Hf. exists (name, fl).
      split_and!; [done|by apply elem_of_map_to_list|done].
  - rewrite updated_flag by done. split.
    + intros (w & Hw & flags & Hp & Hf). exists w. split; [done|].
      assert (Hv : validate_entry w = DFVS_OK_DOMAIN) by (unfold validate_entry; by rewrite Hp). split; [done|].
      apply validate_domain in Hv. rewrite Hp in Hv. unfold domain_entry in Hv. destruct (starts_with w WILDCARD_PREFIX); by simplify_eq.
    + intros (w & Hw & Hv & Hs & ->). exists w. split; [done|]. exists (mkFlags true false). split; [|done].
      apply validate_domain in Hv. rewrite Hv. unfold domain_entry. by rewrite Hs.
Qed.

End Filter.

(** ** A sample *)

Module FilterSample.
(** Texts of the sample that are addresses and ranges. *)
Definition host (s : text) : option (list Z) := if bool_decide (s = txt "1.2.3.4") then Some [1; 2; 3; 4] else None.

#[export] Instance lib : FilterLib := {
  split_host_port s := if bool_decide (s = txt "*:80") then Some (txt "*", txt "80") else Some (s, []);
  to_integer_u64 s := if bool_decide (s = txt "80") then Some 80 else None;
  host_address s port := (fun a => mkSocketAddress AF_INET a port) <$> host s;
  parse_cidr s := if bool_decide (s = txt "5.0.0.0/8") then Some (mkCidrRange [5; 0; 0; 0] 8) else None;
  cidr_contains range r := bool_decide (take 1 (cr_addr range) = take 1 (cr_addr r));
  cidr_set_includes ranges r := existsb (fun range => bool_decide (take 1 (cr_addr range) = take 1 (cr_addr r))) ranges;
  cidr_set_includes_addr ranges addr := eq_refl;
}.

(** A cache that keeps everything: the entries, the last one first. *)
Definition lookup_entry {K V} `{EqDecision K} (k : K) (c : list (K * V)) : option V :=
  snd <$> head (List.filter (fun e => bool_decide (fst e = k)) c).

#[export] Instance cache {K V} `{EqDecision K} : LruTimeoutCache (list (K * V)) K V.
Proof.
  refine {| cache_find _ c k := lookup_entry k c; cache_touch _ c := c; cache_insert _ k v c := (k, v) :: c;
            cache_insert_ttl _ k v _ _ c := (k, v) :: c; cache_clear _ := [] |}.
  - done.
  - intros. unfold lookup_entry. cbn. by rewrite bool_decide_eq_true_2.
  - intros. unfold lookup_entry. cbn. rewrite bool_decide_eq_true_2 by done. eauto.
  - done.
Defined.

#[export] Instance tag_eq_dec : EqDecision SockAddrTag.
Proof. solve_decision. Defined.

Definition Filter : Type := DomainFilter (list (SockAddrTag * text)) (list (SocketAddress * Z)).
Definition empty_filter : Filter := mkDomainFilter _ _ VPN_MODE_GENERAL ∅ [] [] [] [] [].
Definition exclusions : text := txt " example.com *.sub.org  1.2.3.4 *:80 5.0.0.0/8 www.site.net".
Definition filter : Filter := snd (update_exclusions VPN_MODE_SELECTIVE exclusions empty_filter).
End FilterSample.

Import FilterSample.

(** The entries of the sample and their answers. *)
Example filter_answers :
  map (fun d => match_domain FilterSample.filter (txt d))
    ["example.com"; "www.example.com"; "a.example.com"; "sub.org"; "www.sub.org"; "a.b.sub.org"; "site.net"]%string =
  [DFMS_EXCLUSION; DFMS_EXCLUSION; DFMS_DEFAULT; DFMS_DEFAULT; DFMS_EXCLUSION; DFMS_EXCLUSION; DFMS_EXCLUSION].
Proof. vm_compute. reflexivity. Qed.

(** An entry that is only [www.] passes the validation; the name it leaves is the empty one, which
    it then excludes and offers for resolution. *)
Example www_dot_entry :
  let f : Filter := snd (update_exclusions VPN_MODE_GENERAL (txt "www.") empty_filter) in
  validate_entry (txt "www.") = DFVS_OK_DOMAIN /\ match_domain f [] = DFMS_EXCLUSION /\ get_resolvable_exclusions f = [[]].
Proof. vm_compute. repeat split. Qed.

(** The entry [www.www.site.org] stands, as documented, for [www.site.org] and
    [www.www.site.org]; only the longer name is excluded. *)
Theorem doubled_www_is_lost :
  let ex := txt "www.www.site.org" in
  let f : Filter := snd (update_exclusions VPN_MODE_GENERAL ex empty_filter) in
  is_word ex ex /\ excludes_domain ex (txt "www.site.org") /\ match_domain f (txt "www.site.org") = DFMS_DEFAULT /\
  match_domain f (txt "www.www.site.org") = DFMS_EXCLUSION.
Proof.
  split; [|split; [|split; vm_compute; reflexivity]].
  - apply words_spec. apply (bool_decide_unpack _). vm_compute. exact I.
  - split; [vm_compute; reflexivity|]. right. split; [vm_compute; reflexivity|]. exists (txt "www.site.org").
    split; [by right|by left].
Qed.

Lemma sample_word (w : string) : bool_decide (txt w ∈ words exclusions []) = true -> is_word exclusions (txt w).
Proof. rewrite bool_decide_eq_true. apply words_spec. Qed.

(** The sample list excludes [a.b.sub.org] for its word [*.sub.org]. *)
Lemma excluded_domains_witness : match_domain FilterSample.filter (txt "a.b.sub.org") = DFMS_EXCLUSION.
Proof.
  apply (proj1 (excluded_domains VPN_MODE_SELECTIVE exclusions (txt "a.b.sub.org") empty_filter)).
  exists (txt "*.sub.org"). split; [apply sample_word; reflexivity|].
  split; [|apply (wildcard_not_doubled (txt "sub.org"))]. split; [reflexivity|]. left.
  exists (txt "sub.org"). split; [reflexivity|]. exists (txt "a.b"). reflexivity.
Defined.

(** The sample list excludes a connection to port 80 for its word [*:80]. *)
Lemma excluded_addresses_witness :
  fst (match_tag 0 (mkTag (mkSocketAddress AF_INET [9; 9; 9; 9] 80) []) FilterSample.filter) = mkMatchResult DFMS_EXCLUSION None.
Proof.
  apply (proj1 (excluded_addresses VPN_MODE_SELECTIVE exclusions 0 (mkTag (mkSocketAddress AF_INET [9; 9; 9; 9] 80) []) empty_filter)).
  exists (txt "*:80"). split; [apply sample_word; reflexivity|]. reflexivity.
Defined.
