(* ===== verification/DataBuffer.v ===== *)
(** * Buffers of unread data

    Models [core/include/vpn/internal/data_buffer.h], the interface of a buffer that
    keeps the data of a connection until its reader takes it, and
    [core/src/memory_buffer.cpp], the buffer in memory.  The class [DataBuffer] states
    what a buffer owes its user; [fifo_run] is a theorem about any of them. *)

From S2P Require Import Prelude.

Definition zlen (l : list Z) : Z := Z.of_nat (length l).

(** ** The interface

    [E] is what the system answers during a call, and [buf_good] the answers that are
    not errors.  [buf_contents] is the data in the buffer, the oldest first, and
    [buf_capacity] how much of it there can be. *)

Class DataBuffer (E B : Type) := {
  buf_size : E -> B -> Z;
  buf_push : E -> list Z -> B -> option string * B;
  buf_peek : E -> B -> option string * list Z * B;
  buf_drain : E -> Z -> B -> B;
  buf_contents : B -> list Z;
  buf_capacity : B -> option Z;
  buf_faults : B -> list string;
  buf_wf : B -> Prop;
  buf_fits : B -> list Z -> Prop;
  buf_good : E -> Prop;
  (** The size is that of the contents. *)
  buf_size_spec e b : buf_wf b -> buf_good e -> buf_size e b = zlen (buf_contents b);
  (** A push appends the data as far as the capacity allows, and fails when there is
      room for nothing of it. *)
  buf_push_spec e d b :
    buf_wf b -> buf_good e -> buf_fits b d ->
    let room := match buf_capacity b with Some c => c - zlen (buf_contents b) | None => zlen d end in
    let '(err, b') := buf_push e d b in
    buf_wf b' /\ buf_capacity b' = buf_capacity b /\
    buf_contents b' = buf_contents b ++ take (Z.to_nat room) d /\
    (is_Some err <-> d <> [] /\ room = 0);
  (** A peek gives a prefix of the contents, not an empty one unless there are none,
      and the same one again. *)
  buf_peek_spec e b :
    buf_wf b -> buf_good e ->
    let '(err, data, b') := buf_peek e b in
    buf_wf b' /\ buf_capacity b' = buf_capacity b /\ buf_contents b' = buf_contents b /\ err = None /\
    (exists rest, buf_contents b = data ++ rest) /\ (data = [] -> buf_contents b = []) /\
    (forall e', buf_good e' -> fst (buf_peek e' b') = (None, data));
  (** What was peeked may be drained, as much of it as the reader took. *)
  buf_drain_spec e e' b n :
    buf_wf b -> buf_good e -> buf_good e' ->
    let '(_, data, b1) := buf_peek e b in
    0 <= n <= zlen data ->
    let b' := buf_drain e' n b1 in
    buf_wf b' /\ buf_capacity b' = buf_capacity b /\ buf_contents b' = drop (Z.to_nat n) (buf_contents b);
  (** No assertion of the code has failed. *)
  buf_wf_faults b : buf_wf b -> buf_faults b = [];
}.

(** *** A writer and a reader

    The writer pushes; the reader peeks and drains a part of what it saw, as
    [read_out_pending_data] of the upstreams does. *)

Inductive BufferOp := BO_push (d : list Z) | BO_read (n : Z).

Section Run.
Context {E B : Type} `{DataBuffer E B}.

(** What the reader got, and the buffer then. *)
Definition buffer_step (e : E) (op : BufferOp) (b : B) : list Z * B :=
  match op with
  | BO_push d => ([], snd (buf_push e d b))
  | BO_read n =>
      let '(_, data, b) := buf_peek e b in
      let n := Z.max 0 (Z.min n (zlen data)) in
      (take (Z.to_nat n) data, buf_drain e n b)
  end.

Fixpoint buffer_run (ops : list (E * BufferOp)) (b : B) : list Z * B :=
  match ops with
  | [] => ([], b)
  | (e, op) :: ops =>
      let '(out, b) := buffer_step e op b in
      let '(out', b) := buffer_run ops b in
      (out ++ out', b)
  end.

Definition pushed (ops : list (E * BufferOp)) : list Z :=
  concat (map (fun op => match snd op with BO_push d => d | BO_read _ => [] end) ops).

(** How much of [d] a push can take. *)
Definition room (b : B) (d : list Z) : Z :=
  match buf_capacity b with Some c => c - zlen (buf_contents b) | None => zlen d end.

(** What the buffer takes of what is pushed: of each piece as much as there is room for
    when it comes. *)
Fixpoint accepted (ops : list (E * BufferOp)) (b : B) : list Z :=
  match ops with
  | [] => []
  | (e, op) :: ops =>
      match op with BO_push d => take (Z.to_nat (room b d)) d | BO_read _ => [] end ++
      accepted ops (snd (buffer_step e op b))
  end.

(** There is room for every piece when it comes. *)
Fixpoint run_fits (ops : list (E * BufferOp)) (b : B) : Prop :=
  match ops with
  | [] => True
  | (e, op) :: ops =>
      match op with BO_push d => zlen d <= room b d | BO_read _ => True end /\
      run_fits ops (snd (buffer_step e op b))
  end.

Lemma accepted_all ops : forall b, run_fits ops b -> accepted ops b = pushed ops.
Proof.
  induction ops as [|[e op] ops IH]; intros b Hf; [done|]. destruct Hf as [Hop Hf]. cbn [accepted]. rewrite IH by done.
  destruct op as [d|n]; [|done]. rewrite take_ge by (unfold zlen in Hop; lia). done.
Qed.

(** The answers are good, and no push makes a size overflow. *)
Definition op_ok (cap : option Z) (op : E * BufferOp) : Prop :=
  buf_good (fst op) /\
  match snd op with BO_push d => forall b, buf_wf b -> buf_capacity b = cap -> buf_fits b d | BO_read _ => True end.

Lemma buffer_step_read e n b :
  buf_wf b -> buf_good e ->
  let '(out, b') := buffer_step e (BO_read n) b in
  buf_wf b' /\ buf_capacity b' = buf_capacity b /\ out ++ buf_contents b' = buf_contents b.
Proof.
  intros Hwf He. cbn [buffer_step]. pose proof (buf_peek_spec e b Hwf He) as Hp.
  pose proof (buf_drain_spec e e b (Z.max 0 (Z.min n (zlen (snd (fst (buf_peek e b)))))) Hwf He He) as Hd.
  destruct (buf_peek e b) as [[err data] b1]. cbn [fst snd] in Hd. destruct Hp as (_ & _ & Hc & _ & [rest Hr] & _).
  destruct Hd as (Hw & Hcap & Hd); [unfold zlen; lia|]. split; [done|]. split; [done|].
  rewrite Hd, Hr. rewrite drop_app_le, app_assoc, take_drop; [done|]. unfold zlen in *. lia.
Qed.

Lemma buffer_step_push e d b :
  buf_wf b -> buf_good e -> buf_fits b d ->
  let b' := snd (buffer_step e (BO_push d) b) in
  buf_wf b' /\ buf_capacity b' = buf_capacity b /\ buf_contents b' = buf_contents b ++ take (Z.to_nat (room b d)) d.
Proof.
  intros Hwf He Hf. cbn [buffer_step snd]. pose proof (buf_push_spec e d b Hwf He Hf) as Hp.
  destruct (buf_push e d b) as [err b']. cbn [snd]. by destruct Hp as (Hw & Hc & Hcont & _).
Qed.

(** Nothing that was accepted is lost, nothing is made up and nothing changes its place. *)
Lemma fifo_run cap ops : forall b, buf_wf b -> buf_capacity b = cap -> Forall (op_ok cap) ops ->
  let '(out, b') := buffer_run ops b in
  buf_wf b' /\ out ++ buf_contents b' = buf_contents b ++ accepted ops b.
Proof.
  induction ops as [|[e [d|n]] ops IH]; intros b Hwf Hcap Hok; cbn [buffer_run accepted] in *.
  - split; [done|]. by rewrite app_nil_r.
  - apply Forall_cons in Hok as [[He Hfit] Hok]. cbn [fst snd] in He, Hfit.
    destruct (buffer_step_push e d b Hwf He (Hfit b Hwf Hcap)) as (Hw & Hc & Hcont).
    cbn [buffer_step snd] in *. specialize (IH _ Hw (eq_trans Hc Hcap) Hok). destruct (buffer_run ops _) as [out b']. destruct IH as [? IH].
    split; [done|]. rewrite app_nil_l, IH, Hcont, <- app_assoc. done.
  - apply Forall_cons in Hok as [[He _] Hok]. cbn [fst] in He. pose proof (buffer_step_read e n b Hwf He) as Hr.
    destruct (buffer_step e (BO_read n) b) as [out b1]. destruct Hr as (Hw & Hc & Hcont). cbn [snd].
    specialize (IH _ Hw (eq_trans Hc Hcap) Hok). destruct (buffer_run ops b1) as [out' b']. destruct IH as [? IH].
    split; [done|]. by rewrite <- app_assoc, IH, app_assoc, Hcont.
Qed.
End Run.

(** ** The buffer in memory *)

Module MemoryBuffer.
Record MemoryBuffer := mkMemoryBuffer { m_total_size : Z; m_chunks : list (list Z); m_faults : list string }.
#[export] Instance eta_MemoryBuffer : Eta MemoryBuffer := fun r => mkMemoryBuffer (m_total_size r) (m_chunks r) (m_faults r).

Definition new : MemoryBuffer := mkMemoryBuffer 0 [] [].
Definition fault (what : string) (b : MemoryBuffer) : MemoryBuffer := b <| m_faults := m_faults b ++ [what] |>.

Definition size (b : MemoryBuffer) : Z := m_total_size b.

Definition push (data : list Z) (b : MemoryBuffer) : option string * MemoryBuffer :=
  (None,
   if bool_decide (data = []) then b
   else b <| m_total_size := uwrap 64 (m_total_size b + zlen data) |> <| m_chunks := m_chunks b ++ [data] |>).

Definition peek (b : MemoryBuffer) : option string * list Z :=
  (None, match m_chunks b with front :: _ => front | [] => [] end).

(** The loop of [drain], on the chunks; it stops at an empty queue. *)
Fixpoint drain_loop (length' : Z) (chunks : list (list Z)) : bool * list (list Z) :=
  if length' <=? 0 then (true, chunks)
  else match chunks with
       | [] => (false, [])
       | front :: rest =>
           let to_remove := Z.min (zlen front) length' in
           if to_remove =? zlen front then drain_loop (length' - to_remove) rest
           else (true, drop (Z.to_nat to_remove) front :: rest)
       end.

Definition drain (length : Z) (b : MemoryBuffer) : MemoryBuffer :=
  let b := if length <=? m_total_size b then b else fault "drain more than there is" b in
  let b := b <| m_total_size := uwrap 64 (m_total_size b - length) |> in
  let '(ok, chunks) := drain_loop length (m_chunks b) in
  let b := b <| m_chunks := chunks |> in
  if ok then b else fault "no chunks" b.

Definition contents (b : MemoryBuffer) : list Z := concat (m_chunks b).

(** The size is right, no chunk is empty, and no assertion failed. *)
Definition wf (b : MemoryBuffer) : Prop :=
  m_total_size b = zlen (contents b) /\ m_total_size b < 2 ^ 64 /\ Forall (fun c => c <> []) (m_chunks b) /\ m_faults b = [].

Definition fits (b : MemoryBuffer) (d : list Z) : Prop := m_total_size b + zlen d < 2 ^ 64.

Lemma push_contents d b : contents (snd (push d b)) = contents b ++ d.
Proof.
  unfold push, contents. cbn [snd]. case_bool_decide as Hd; [by rewrite Hd, app_nil_r|].
  cbn [m_chunks assign]. rewrite concat_app. cbn. by rewrite app_nil_r.
Qed.

Lemma push_wf d b : wf b -> fits b d -> wf (snd (push d b)).
Proof.
  intros (Hs & Hlt & Hne & Hf) Hfit. unfold wf. rewrite push_contents. unfold push, fits in *. cbn [snd].
  case_bool_decide as Hd; [subst d; by rewrite app_nil_r|]. cbn. unfold zlen in *. rewrite length_app.
  rewrite uwrap_id by (unfold in_width; lia). split_and!; [lia|lia| |done]. apply Forall_app. auto.
Qed.

Lemma drain_loop_spec : forall chunks n, 0 <= n <= zlen (concat chunks) -> Forall (fun c => c <> []) chunks ->
  exists chunks', drain_loop n chunks = (true, chunks') /\ concat chunks' = drop (Z.to_nat n) (concat chunks) /\
    Forall (fun c => c <> []) chunks'.
Proof.
  induction chunks as [|c cs IH]; intros n Hn Hne; cbn [drain_loop concat] in *; unfold zlen in *.
  - cbn in Hn. replace n with 0 by lia. by exists [].
  - inversion_clear Hne as [|? ? Hc Hcs]. rewrite length_app in Hn. destruct (n <=? 0) eqn:Hz; [apply Z.leb_le in Hz|apply Z.leb_gt in Hz].
    { replace n with 0 by lia. exists (c :: cs). auto. }
    destruct (_ =? _) eqn:Hm; [apply Z.eqb_eq in Hm|apply Z.eqb_neq in Hm].
    + destruct (IH (n - Z.min (Z.of_nat (length c)) n)) as (cs' & -> & Hcc & Hn'); [lia|done|].
      exists cs'. split_and!; [done| |done]. rewrite Hcc, drop_app_ge by lia. f_equal. lia.
    + eexists. split; [done|]. cbn [concat]. split; [by rewrite drop_app_le by lia; do 3 f_equal; lia|].
      constructor; [|done]. intros Hnil. apply (f_equal length) in Hnil. rewrite length_drop in Hnil. cbn in Hnil. lia.
Qed.

Lemma drain_spec n b : wf b -> 0 <= n <= zlen (contents b) ->
  wf (drain n b) /\ contents (drain n b) = drop (Z.to_nat n) (contents b).
Proof.
  intros (Hs & Hlt & Hne & Hf) Hn. destruct (drain_loop_spec (m_chunks b) n Hn Hne) as (cs & Hl & Hc & Hne').
  assert (Hlen : zlen (drop (Z.to_nat n) (contents b)) = zlen (contents b) - n) by (unfold zlen in *; rewrite length_drop; lia).
  unfold drain. rewrite (proj2 (Z.leb_le n (m_total_size b))) by lia. cbn. rewrite Hl. unfold wf, contents in *. cbn. rewrite Hc.
  split; [|done]. rewrite uwrap_id by (unfold in_width; lia). split_and!; [lia|lia|done|done].
Qed.

Lemma peek_prefix b : wf b ->
  (exists rest, contents b = snd (peek b) ++ rest) /\ (snd (peek b) = [] -> contents b = []).
Proof.
  intros (_ & _ & Hne & _). unfold contents, peek. destruct (m_chunks b) as [|c cs]; cbn; [eauto|].
  inversion_clear Hne. split; [eauto|done].
Qed.

#[export, refine] Instance buffer : DataBuffer unit MemoryBuffer := {
  buf_size _ b := size b;
  buf_push _ d b := push d b;
  buf_peek _ b := (peek b, b);
  buf_drain _ n b := drain n b;
  buf_contents := contents;
  buf_capacity _ := None;
  buf_faults := m_faults;
  buf_wf := wf;
  buf_fits := fits;
  buf_good _ := True;
}.
Proof.
  - intros _ b Hwf _. apply Hwf.
  - intros _ d b Hwf _ Hf. pose proof (push_contents d b) as Hc. pose proof (push_wf d b Hwf Hf) as Hw.
    destruct (push d b) as [err b'] eqn:Hp. cbn [snd] in *. split_and!; [done|done| |].
    + rewrite take_ge; [done|]. unfold zlen. lia.
    + injection Hp as <- _. split; [intros [? [=]]|]. intros [Hd Hz]. destruct d; done.
  - intros _ b Hwf _. destruct (peek_prefix b Hwf) as [Hr He]. unfold peek in *. cbn [snd] in *. split_and!; auto.
  - intros _ _ b n Hwf _ _. cbn. intros Hn. destruct (proj1 (peek_prefix b Hwf)) as [rest Hr]. unfold peek in Hr. cbn [snd] in Hr.
    destruct (drain_spec n b Hwf); [|done]. rewrite Hr. unfold zlen in *. rewrite length_app. lia.
  - intros b (_ & _ & _ & Hf). done.
Defined.

Lemma memory_new_wf : wf new.
Proof. split_and!; done. Qed.
End MemoryBuffer.
