(* ===== verification/MemfileBuffer.v ===== *)
(** * The buffer that overflows into a file

    Models [core/src/memfile_buffer.cpp]: data beyond a threshold goes to a file and is
    read back when there is room in memory again.  The file system is the other side:
    the files at the buffer's path and at its temporary path are part of the state, and
    [FileEnv] says which of the calls of an operation fail and how much a read or a
    write transfers.  An operation reads or writes a number of bytes at most once with
    the same number left to go, so the answers to reads and writes are functions of
    that number. *)

From S2P Require Import Prelude DataBuffer.

Record FileEnv := mkFileEnv {
  fe_open : bool;
  fe_size : bool;
  fe_size_after : bool;
  fe_seek : bool;
  fe_read : Z -> Z;
  fe_write : Z -> Z;
  (** in [strip_file] *)
  fe_size_strip : bool;
  fe_rename : bool;
  fe_open_new : bool;
  fe_open_tmp : bool;
  fe_seek_tmp : bool;
  fe_read_tmp : Z -> Z;
  fe_write_tmp : Z -> Z;
  fe_rename_back : bool;
  fe_reopen : bool;
}.

(** The result of [file::read] of [len] bytes with [available] bytes to the end: an error,
    or at least one byte unless the file is at its end. *)
Definition read_count (answer len available : Z) : Z :=
  if answer <? 0 then -1 else Z.min available (Z.max 1 (Z.min answer len)).

(** The result of [file::write] of [len] bytes. *)
Definition write_count (answer len : Z) : Z := if answer <=? 0 then -1 else Z.min answer len.

Definition SIZE_MAX : Z := 18446744073709551615.

Record MemfileBuffer := mkMemfileBuffer {
  m_mem_buffer : MemoryBuffer.MemoryBuffer;
  m_threshold : Z;
  m_max_file_size : Z;
  m_fd : bool;
  m_read_offset : Z;
  (** the files at [m_path] and [m_path].tmp *)
  m_file : option (list Z);
  m_tmp_file : option (list Z);
  m_faults : list string;
}.
#[export] Instance eta_MemfileBuffer : Eta MemfileBuffer := fun r =>
  mkMemfileBuffer (m_mem_buffer r) (m_threshold r) (m_max_file_size r) (m_fd r) (m_read_offset r) (m_file r) (m_tmp_file r) (m_faults r).

Definition memfile_new (mem_threshold max_file_size : Z) : MemfileBuffer :=
  mkMemfileBuffer MemoryBuffer.new mem_threshold max_file_size false 0 None None [].

Definition memfile_fault (what : string) (b : MemfileBuffer) : MemfileBuffer := b <| m_faults := m_faults b ++ [what] |>.

(** What an open [m_fd] reads. *)
Definition file_data (b : MemfileBuffer) : list Z := default [] (m_file b).

(** [file::get_size] *)
Definition get_size (ok : bool) (b : MemfileBuffer) : Z := if ok then zlen (file_data b) else -1.

Definition mem_push (d : list Z) (b : MemfileBuffer) : option string * MemfileBuffer :=
  let '(err, mem) := MemoryBuffer.push d (m_mem_buffer b) in (err, b <| m_mem_buffer := mem |>).

Definition memfile_destroy (b : MemfileBuffer) : MemfileBuffer := b <| m_fd := false |> <| m_file := None |>.

Definition get_free_mem_space (b : MemfileBuffer) : Z := uwrap 64 (m_threshold b - MemoryBuffer.size (m_mem_buffer b)).

(** [size], and the buffer with the assertion if it failed. *)
Definition memfile_size (env : FileEnv) (b : MemfileBuffer) : Z * MemfileBuffer :=
  let fsize := if m_fd b then get_size (fe_size env) b else 0 in
  let b := if m_read_offset b <=? fsize then b else memfile_fault "offset is in the file" b in
  let stored_in_file := uwrap 64 (Z.max fsize 0 - m_read_offset b) in
  (uwrap 64 (MemoryBuffer.size (m_mem_buffer b) + stored_in_file), b).

(** The loop of [transfer_file2mem]: [left] bytes are to be read yet. *)
Fixpoint read_loop (env : FileEnv) (fuel : nat) (left : Z) (buf : list Z) (b : MemfileBuffer) :
    option string * list Z * MemfileBuffer :=
  if left =? 0 then (None, buf, b)
  else match fuel with
       | O => (Some "out of fuel"%string, buf, b)
       | S fuel =>
           let ret := read_count (fe_read env left) left (zlen (file_data b) - m_read_offset b) in
           if 0 <? ret then
             read_loop env fuel (left - ret) (buf ++ take (Z.to_nat ret) (drop (Z.to_nat (m_read_offset b)) (file_data b)))
               (b <| m_read_offset := m_read_offset b + ret |>)
           else if ret =? 0 then (Some "Unexpected EOF while reading file content"%string, buf, b)
           else (Some "Failed to read file content"%string, buf, b)
       end.

Definition transfer_file2mem (env : FileEnv) (b : MemfileBuffer) : option string * MemfileBuffer :=
  if negb (m_fd b) then (None, b)
  else
    let free_space := get_free_mem_space b in
    if free_space =? 0 then (None, b)
    else
      let fsize := get_size (fe_size env) b in
      if fsize =? 0 then (None, b)
      else if fsize <? 0 then (Some "Failed to get file size"%string, b)
      else
        let b := if m_read_offset b <=? fsize then b else memfile_fault "offset is in the file" b in
        let to_read := Z.min free_space (uwrap 64 (fsize - m_read_offset b)) in
        if fsize =? m_read_offset b then (None, b)
        else if negb (fe_seek env) then (Some "Failed to set file offset"%string, b)
        else
          let '(err, buf, b) := read_loop env (Z.to_nat to_read) to_read [] b in
          match err with
          | Some _ => (err, b)
          | None => mem_push buf b
          end.

(** What is left of the data, by reference or by value. *)
Definition transfer_mem2mem (data : list Z) (b : MemfileBuffer) : list Z * MemfileBuffer :=
  let free_space := get_free_mem_space b in
  if free_space =? 0 then (data, b)
  else
    let chunk := if zlen data <=? free_space then data else take (Z.to_nat free_space) data in
    let '(err, b) := mem_push chunk b in
    match err with
    | None => (drop (length chunk) data, b)
    | Some _ => (data, b)
    end.

Definition transfer_mem2mem_vector (data : list Z) (b : MemfileBuffer) : list Z * MemfileBuffer :=
  let free_space := get_free_mem_space b in
  if free_space =? 0 then (data, b)
  else
    let '(chunk, data) := if zlen data <=? free_space then (data, []) else (take (Z.to_nat free_space) data, data) in
    let '(err, b) := mem_push chunk b in
    match err with
    | None =>
        let b := if (length data <? length chunk)%nat then memfile_fault "erase past the end of data" b else b in
        (drop (length chunk) data, b)
    | Some _ => (data, b)
    end.

(** The loops of [transfer_file2file]: both always use the start of [buf]. *)
Fixpoint copy_read (env : FileEnv) (fuel : nat) (left : Z) (src buf : list Z) : option string * list Z :=
  if left <=? 0 then (None, buf)
  else match fuel with
       | O => (Some "out of fuel"%string, buf)
       | S fuel =>
           let r := read_count (fe_read_tmp env left) left (zlen src) in
           if 0 <? r then
             copy_read env fuel (left - r) (drop (Z.to_nat r) src) (take (Z.to_nat r) src ++ drop (Z.to_nat r) buf)
           else (Some "read"%string, buf)
       end.

Fixpoint copy_write (env : FileEnv) (fuel : nat) (left : Z) (buf dst : list Z) : option string * list Z :=
  if left <=? 0 then (None, dst)
  else match fuel with
       | O => (Some "out of fuel"%string, dst)
       | S fuel =>
           let r := write_count (fe_write_tmp env left) left in
           if 0 <? r then copy_write env fuel (left - r) buf (dst ++ take (Z.to_nat r) buf)
           else (Some "write"%string, dst)
       end.

(** [src] is the source file from its position on; the new content of [dst]. *)
Definition transfer_file2file (env : FileEnv) (size : Z) (src dst : list Z) : option string * list Z :=
  if size =? 0 then (None, dst)
  else
    let '(err, buf) := copy_read env (Z.to_nat size) size src (replicate (Z.to_nat size) 0) in
    match err with
    | Some _ => (err, dst)
    | None => copy_write env (Z.to_nat size) size buf dst
    end.

Definition need_to_strip_file (fsize data_size : Z) (b : MemfileBuffer) : bool :=
  (m_max_file_size b <? uwrap 64 (fsize + data_size))
  || ((0 <? m_read_offset b)
      && ((uwrap 64 (m_max_file_size b * 3) / 10 <? m_read_offset b)
          || (uwrap 64 (fsize * 3) / 10 <? m_read_offset b)
          || (uwrap 64 (m_max_file_size b * 8) / 10 <? fsize))).

(** From [fs::rename] to the label [exit], both files being there. *)
Definition strip_copy (env : FileEnv) (fsize : Z) (b : MemfileBuffer) : option string * MemfileBuffer :=
  if negb (fe_open_new env) then (Some "Failed to open file"%string, b)
  else
    let b := b <| m_fd := true |> <| m_file := Some (default [] (m_file b)) |> in
    if negb (fe_open_tmp env) then (Some "Failed to open temp file"%string, b)
    else if negb (fe_seek_tmp env) then (Some "Failed to set file offset"%string, b)
    else
      let src := drop (Z.to_nat (m_read_offset b)) (default [] (m_tmp_file b)) in
      let '(err, dst) := transfer_file2file env (uwrap 64 (fsize - m_read_offset b)) src (file_data b) in
      let b := b <| m_file := Some dst |> in
      match err with
      | Some _ => (Some "Failed to transfer file content"%string, b)
      | None => (None, b <| m_read_offset := 0 |>)
      end.

Definition strip_file (env : FileEnv) (b : MemfileBuffer) : option string * MemfileBuffer :=
  let fsize := get_size (fe_size_strip env) b in
  if fsize <? 0 then (Some "Failed to get file size"%string, b)
  else if fsize <? m_read_offset b then (Some "File size is less than the read offset"%string, b)
  else
    let b := b <| m_fd := false |> in
    if negb (fe_rename env) then (Some "Failed to rename file"%string, b)
    else
      let b := b <| m_tmp_file := m_file b |> <| m_file := None |> in
      let '(err, b) := strip_copy env fsize b in
      let b :=
        match err with
        | None => b
        | Some _ =>
            let b := b <| m_fd := false |> <| m_file := None |> in
            if fe_rename_back env then
              let b := b <| m_file := m_tmp_file b |> <| m_tmp_file := None |> in
              b <| m_fd := fe_reopen env |>
            else b
        end in
      (err, b <| m_tmp_file := None |>).

Definition write_in_file (env : FileEnv) (data : list Z) (b : MemfileBuffer) : option string * MemfileBuffer :=
  if bool_decide (data = []) then (None, b)
  else if negb (m_fd b) && negb (fe_open env) then (Some "Failed to open file"%string, b)
  else
    let b := if m_fd b then b else b <| m_fd := true |> <| m_file := Some (file_data b) |> in
    let fsize := get_size (fe_size env) b in
    if fsize <? 0 then (Some "Failed to get file size"%string, b)
    else
      let '(err, b) := if need_to_strip_file fsize (zlen data) b then strip_file env b else (None, b) in
      match err with
      | Some _ => (Some "Failed to strip file"%string, b)
      | None =>
          let fsize := get_size (fe_size_after env) b in
          if fsize <? 0 then (Some "Failed to get file size"%string, b)
          else if m_max_file_size b <=? fsize then (Some "File reached its capacity"%string, b)
          else
            let to_write := Z.min (zlen data) (m_max_file_size b - fsize) in
            let data := take (Z.to_nat to_write) data in
            let written := write_count (fe_write env (zlen data)) (zlen data) in
            if negb (bool_decide (data = [])) && (written <=? 0) then (Some "Failed to write data"%string, b)
            else (None, b <| m_file := Some (file_data b ++ take (Z.to_nat written) data) |>)
      end.

Definition memfile_push (env : FileEnv) (data : list Z) (b : MemfileBuffer) : option string * MemfileBuffer :=
  let '(data, b) := transfer_mem2mem data b in write_in_file env data b.

Definition memfile_push_vector (env : FileEnv) (data : list Z) (b : MemfileBuffer) : option string * MemfileBuffer :=
  let '(data, b) := transfer_mem2mem_vector data b in write_in_file env data b.

Definition memfile_peek (env : FileEnv) (b : MemfileBuffer) : option string * list Z * MemfileBuffer :=
  let '(err, b) := transfer_file2mem env b in
  match err with
  | Some _ => (err, [], b)
  | None => (MemoryBuffer.peek (m_mem_buffer b), b)
  end.

Definition memfile_drain (env : FileEnv) (length : Z) (b : MemfileBuffer) : MemfileBuffer :=
  let b := b <| m_mem_buffer := MemoryBuffer.drain length (m_mem_buffer b) |> in
  snd (transfer_file2mem env b).
