(* ===== verification/MemfileProofs.v ===== *)
(** * The buffer that overflows into a file: proofs

    While the file system makes no errors and copies and writes are complete, the buffer is a bounded queue, an instance of
    [DataBuffer]; and the runs with errors, or through the other overload of [push],
    in which it is not. *)

From S2P Require Import Prelude DataBuffer MemfileBuffer.

(** ** The invariant *)

(** No call fails; the write of [write_in_file] and the reads and writes of
    [transfer_file2file] transfer all they are asked to, which that code relies on
    ([short_write_loses_data], [short_read_corrupts]).  The reads of [transfer_file2mem]
    may transfer less. *)
Definition file_good (e : FileEnv) : Prop :=
  fe_open e = true /\ fe_size e = true /\ fe_size_after e = true /\ fe_seek e = true /\
  fe_size_strip e = true /\ fe_rename e = true /\ fe_open_new e = true /\ fe_open_tmp e = true /\ fe_seek_tmp e = true /\
  (forall n, 0 <= fe_read e n) /\ (forall n, n <= fe_write e n) /\ (forall n, n <= fe_read_tmp e n) /\ (forall n, n <= fe_write_tmp e n).

(** What was written to the file and not read back. *)
Definition unread (b : MemfileBuffer) : list Z := drop (Z.to_nat (m_read_offset b)) (file_data b).

Definition memfile_contents (b : MemfileBuffer) : list Z := MemoryBuffer.contents (m_mem_buffer b) ++ unread b.

Definition mem_size (b : MemfileBuffer) : Z := MemoryBuffer.size (m_mem_buffer b).

(** The sizes are within their bounds, the file may hold something, and a file that is not
    open is not there. *)
Definition sizes_ok (b : MemfileBuffer) : Prop :=
  MemoryBuffer.wf (m_mem_buffer b) /\ mem_size b <= m_threshold b < 2 ^ 64 /\ 0 < m_max_file_size b < 2 ^ 64 /\
  0 <= m_read_offset b <= zlen (file_data b) /\ zlen (file_data b) <= m_max_file_size b /\
  m_tmp_file b = None /\ m_faults b = [] /\ (m_fd b = false -> m_file b = None).

(** Data is kept in the file only while the memory is full, so that the memory always
    holds the older data. *)
Definition memfile_wf (b : MemfileBuffer) : Prop := sizes_ok b /\ (unread b <> [] -> mem_size b = m_threshold b).

Lemma zlen_app a b : zlen (a ++ b) = zlen a + zlen b.
Proof. unfold zlen. rewrite length_app. lia. Qed.

Lemma zlen_take n l : 0 <= n -> zlen (take (Z.to_nat n) l) = Z.min n (zlen l).
Proof. unfold zlen. rewrite length_take. lia. Qed.

Lemma zlen_drop n l : 0 <= n <= zlen l -> zlen (drop (Z.to_nat n) l) = zlen l - n.
Proof. unfold zlen. rewrite length_drop. lia. Qed.

Lemma zlen_nonneg l : 0 <= zlen l.
Proof. unfold zlen. lia. Qed.

Lemma zlen_zero l : zlen l = 0 <-> l = [].
Proof. unfold zlen. destruct l; cbn; split; (done || lia). Qed.

#[export] Hint Resolve zlen_nonneg : core.

Lemma mem_size_nonneg b : sizes_ok b -> 0 <= mem_size b.
Proof. intros ((Hs & _) & _). unfold mem_size, MemoryBuffer.size. by rewrite Hs. Qed.

Lemma free_space_eq b : sizes_ok b -> get_free_mem_space b = m_threshold b - mem_size b.
Proof. intros Hb. pose proof (mem_size_nonneg b Hb). apply uwrap_id. destruct Hb as (_ & Hm & _). unfold in_width, mem_size in *. lia. Qed.

Lemma unread_length b : sizes_ok b -> zlen (unread b) = zlen (file_data b) - m_read_offset b.
Proof. intros (_ & _ & _ & Ho & _). unfold unread. by apply zlen_drop. Qed.

Lemma contents_length b : sizes_ok b -> zlen (memfile_contents b) = mem_size b + zlen (unread b).
Proof. intros ((Hs & _) & _). unfold memfile_contents, mem_size, MemoryBuffer.size. by rewrite zlen_app, Hs. Qed.

Lemma mem_push_eq d b : mem_push d b = (None, b <| m_mem_buffer := snd (MemoryBuffer.push d (m_mem_buffer b)) |>).
Proof. done. Qed.

(** Data that fits into memory. *)
Lemma mem_push_spec d b : sizes_ok b -> mem_size b + zlen d <= m_threshold b ->
  let b' := snd (mem_push d b) in
  sizes_ok b' /\ mem_size b' = mem_size b + zlen d /\ unread b' = unread b /\
  MemoryBuffer.contents (m_mem_buffer b') = MemoryBuffer.contents (m_mem_buffer b) ++ d.
Proof.
  intros Hb Hd. destruct Hb as (Hm & Ht & Hrest). rewrite mem_push_eq. cbn [snd].
  pose proof (MemoryBuffer.push_contents d (m_mem_buffer b)) as Hc.
  assert (Hw : MemoryBuffer.wf (snd (MemoryBuffer.push d (m_mem_buffer b)))).
  { apply MemoryBuffer.push_wf; [done|]. unfold MemoryBuffer.fits, mem_size, MemoryBuffer.size in *. lia. }
  set (b' := b <| m_mem_buffer := snd (MemoryBuffer.push d (m_mem_buffer b)) |>).
  assert (Hsize : mem_size b' = mem_size b + zlen d).
  { unfold mem_size, MemoryBuffer.size. cbn [m_mem_buffer b' assign]. destruct Hw as (-> & _). destruct Hm as (-> & _).
    by rewrite Hc, zlen_app. }
  split_and!; [|done|done|done]. split; [done|]. split; [rewrite Hsize; cbn; lia|]. done.
Qed.

(** ** Reading back *)

(** The part of the file that was read, in memory. *)
Lemma advance_ok b left : sizes_ok b -> 0 <= left <= zlen (unread b) ->
  let b' := b <| m_read_offset := m_read_offset b + left |> in
  sizes_ok b' /\ unread b' = drop (Z.to_nat left) (unread b).
Proof.
  intros Hb Hl. pose proof (unread_length b Hb) as Hu. destruct Hb as (H1 & H2 & H3 & H4 & H5 & H6 & H7 & H8). split.
  - set (b' := b <| m_read_offset := m_read_offset b + left |>). assert (Hf : file_data b' = file_data b) by done.
    assert (Ho : m_read_offset b' = m_read_offset b + left) by done. split_and!; first [done | apply H2 | apply H3 | rewrite ?Hf, ?Ho; lia].
  - unfold unread, file_data. cbn. rewrite drop_drop. f_equal. lia.
Qed.

Lemma read_loop_good e : file_good e -> forall fuel left buf b,
  (Z.to_nat left <= fuel)%nat -> 0 <= left <= zlen (unread b) -> sizes_ok b ->
  read_loop e fuel left buf b =
    (None, buf ++ take (Z.to_nat left) (unread b), b <| m_read_offset := m_read_offset b + left |>).
Proof.
  intros He. destruct He as (_ & _ & _ & _ & _ & _ & _ & _ & _ & Hread & _).
  induction fuel as [|fuel IH]; intros left buf b Hfuel Hl Hb; cbn [read_loop];
    (destruct (Z.eqb_spec left 0) as [->|Hne];
      [rewrite Z.add_0_r, app_nil_r; by destruct b|]); [lia|].
  pose proof (unread_length b Hb) as Hu. specialize (Hread left).
  set (r := read_count _ _ _). assert (Hr : 0 < r <= left).
  { unfold r, read_count. rewrite (proj2 (Z.ltb_ge _ _)) by lia. lia. }
  clearbody r. rewrite (proj2 (Z.ltb_lt 0 r)) by lia. destruct (advance_ok b r Hb ltac:(lia)) as [Hb1 Hu1].
  set (b1 := b <| m_read_offset := m_read_offset b + r |>) in *. rewrite IH; [|lia|rewrite Hu1, zlen_drop; lia|done].
  change (m_read_offset b1) with (m_read_offset b + r). replace (m_read_offset b + r + (left - r)) with (m_read_offset b + left) by lia.
  f_equal. f_equal.
  rewrite Hu1, <- app_assoc. f_equal. fold (unread b). replace (Z.to_nat left) with (Z.to_nat r + Z.to_nat (left - r))%nat by lia.
  apply take_take_drop.
Qed.

Lemma transfer_file2mem_full e b : memfile_wf b -> file_good e -> transfer_file2mem e b = (None, b).
Proof.
  intros [Hb Hfull] He. unfold transfer_file2mem. destruct (m_fd b); cbn [negb]; [|done].
  rewrite free_space_eq by done. destruct (_ =? 0) eqn:Hfree; [done|]. apply Z.eqb_neq in Hfree.
  assert (Hu : unread b = []) by (destruct (decide (unread b = [])) as [|Hn]; [done|specialize (Hfull Hn); lia]).
  pose proof (unread_length b Hb) as Hlen. rewrite Hu in Hlen. change (zlen []) with 0 in Hlen.
  assert (Hs : get_size (fe_size e) b = zlen (file_data b)) by (unfold get_size; by rewrite (proj1 (proj2 He))).
  rewrite Hs. destruct (zlen (file_data b) =? 0); [done|]. rewrite (proj2 (Z.ltb_ge _ _)) by done.
  rewrite (proj2 (Z.leb_le _ _)) by lia. by rewrite (proj2 (Z.eqb_eq _ _)) by lia.
Qed.

Lemma transfer_file2mem_good e b : sizes_ok b -> file_good e ->
  exists b', transfer_file2mem e b = (None, b') /\ memfile_wf b' /\ memfile_contents b' = memfile_contents b /\
    m_threshold b' = m_threshold b /\ m_max_file_size b' = m_max_file_size b.
Proof.
  intros Hb He. destruct (decide (unread b <> [] -> mem_size b = m_threshold b)) as [Hfull|Hnot].
  { exists b. rewrite (transfer_file2mem_full e b (conj Hb Hfull) He). split_and!; done. }
  assert (Hu : unread b <> [] /\ mem_size b <> m_threshold b) by (destruct (decide (unread b = [])); naive_solver).
  destruct Hu as [Hu Hm]. pose proof (unread_length b Hb) as Hlen. pose proof (zlen_nonneg (unread b)).
  assert (Hun : zlen (unread b) <> 0) by (by rewrite zlen_zero).
  assert (Hth : mem_size b <= m_threshold b < 2 ^ 64) by apply Hb. pose proof (mem_size_nonneg b Hb).
  assert (Hoff : 0 <= m_read_offset b <= zlen (file_data b) /\ zlen (file_data b) < 2 ^ 64) by (destruct Hb as (_ & _ & ? & ? & ? & _); lia).
  unfold transfer_file2mem. destruct (m_fd b) eqn:Hfd; cbn [negb].
  2:{ destruct Hb as (_ & _ & _ & _ & _ & _ & _ & Hfile). unfold unread, file_data in Hu. rewrite (Hfile Hfd) in Hu. cbn [from_option] in Hu. by rewrite drop_nil in Hu. }
  rewrite free_space_eq by done. rewrite (proj2 (Z.eqb_neq _ 0)) by lia.
  assert (Hs : get_size (fe_size e) b = zlen (file_data b)) by (unfold get_size; by rewrite (proj1 (proj2 He))).
  rewrite Hs, (proj2 (Z.eqb_neq _ 0)), (proj2 (Z.ltb_ge _ 0)), (proj2 (Z.leb_le _ _)), (proj2 (Z.eqb_neq _ _)) by lia.
  rewrite uwrap_id by (unfold in_width; lia). rewrite <- Hlen. rewrite (proj1 (proj2 (proj2 (proj2 He)))). cbn [negb].
  set (left := Z.min (m_threshold b - mem_size b) (zlen (unread b))). rewrite read_loop_good by (done || lia). rewrite app_nil_l.
  destruct (advance_ok b left Hb ltac:(lia)) as [Hb1 Hu1].
  set (b1 := b <| m_read_offset := m_read_offset b + left |>) in *.
  assert (Hl : zlen (take (Z.to_nat left) (unread b)) = left) by (rewrite zlen_take; lia).
  destruct (mem_push_spec (take (Z.to_nat left) (unread b)) b1 Hb1) as (Hb2 & Hs2 & Hu2 & Hc2).
  { rewrite Hl. change (mem_size b1) with (mem_size b). change (m_threshold b1) with (m_threshold b). lia. }
  rewrite (mem_push_eq _ b1) in *. cbn [snd] in *. eexists. split; [done|]. split_and!; [split; [done|]| |done|done].
  - rewrite Hu2, Hu1, Hs2, Hl. intros Hne. rewrite <- zlen_zero, zlen_drop in Hne by lia.
    change (mem_size b1) with (mem_size b). cbn. lia.
  - unfold memfile_contents. rewrite Hc2, Hu2, Hu1, <- app_assoc. by rewrite take_drop.
Qed.

(** ** Writing *)

Lemma take_all (l : list Z) : take (Z.to_nat (zlen l)) l = l.
Proof. apply take_ge. unfold zlen. lia. Qed.

Lemma copy_read_once e fuel src buf : (forall n, n <= fe_read_tmp e n) -> src <> [] -> zlen buf = zlen src -> (0 < fuel)%nat ->
  copy_read e fuel (zlen src) src buf = (None, src).
Proof.
  intros Hr Hne Hlen Hfuel. specialize (Hr (zlen src)). destruct fuel as [|fuel]; [lia|]. cbn [copy_read].
  pose proof (zlen_nonneg src). assert (zlen src <> 0) by (by rewrite zlen_zero).
  assert (Hc : read_count (fe_read_tmp e (zlen src)) (zlen src) (zlen src) = zlen src)
    by (unfold read_count; rewrite (proj2 (Z.ltb_ge _ _)) by lia; lia).
  rewrite (proj2 (Z.leb_gt _ _)), Hc, (proj2 (Z.ltb_lt 0 _)), Z.sub_diag, take_all by lia.
  rewrite (drop_ge buf), app_nil_r by (unfold zlen in *; lia). by destruct fuel.
Qed.

Lemma copy_write_once e fuel buf dst : (forall n, n <= fe_write_tmp e n) -> buf <> [] -> (0 < fuel)%nat ->
  copy_write e fuel (zlen buf) buf dst = (None, dst ++ buf).
Proof.
  intros Hw Hne Hfuel. specialize (Hw (zlen buf)). destruct fuel as [|fuel]; [lia|]. cbn [copy_write].
  pose proof (zlen_nonneg buf). assert (zlen buf <> 0) by (by rewrite zlen_zero).
  assert (Hc : write_count (fe_write_tmp e (zlen buf)) (zlen buf) = zlen buf)
    by (unfold write_count; rewrite (proj2 (Z.leb_gt _ _)) by lia; lia).
  rewrite (proj2 (Z.leb_gt _ _)), Hc, (proj2 (Z.ltb_lt 0 _)), Z.sub_diag, take_all by lia. by destruct fuel.
Qed.

Lemma copy_good e src : file_good e -> transfer_file2file e (zlen src) src [] = (None, src).
Proof.
  intros (_ & _ & _ & _ & _ & _ & _ & _ & _ & _ & _ & Hr & Hw). unfold transfer_file2file.
  destruct (zlen src =? 0) eqn:Hz; [apply Z.eqb_eq, zlen_zero in Hz; by subst|apply Z.eqb_neq in Hz].
  assert (src <> []) by (by rewrite <- zlen_zero). assert (Hf : (0 < Z.to_nat (zlen src))%nat) by (pose proof (zlen_nonneg src); lia).
  rewrite copy_read_once; [by rewrite copy_write_once|done..| |done]. unfold zlen. rewrite length_replicate. lia.
Qed.

Lemma strip_good e b : file_good e -> sizes_ok b ->
  strip_file e b = (None, b <| m_fd := true |> <| m_read_offset := 0 |> <| m_file := Some (unread b) |>).
Proof.
  intros He Hb. pose proof (unread_length b Hb) as Hlen. pose proof (copy_good e (unread b) He) as Hcopy.
  destruct He as (_ & _ & _ & _ & Hs & Hr & Hn & Ht & Hk & _). destruct Hb as (_ & _ & Hmax & Ho & Hf & Htmp & _).
  assert (Hsize : get_size (fe_size_strip e) b = zlen (file_data b)) by (unfold get_size; by rewrite Hs).
  unfold strip_file. rewrite Hsize, (proj2 (Z.ltb_ge _ 0)), (proj2 (Z.ltb_ge _ _)), Hr by (done || lia). cbn [negb].
  unfold strip_copy. rewrite Hn, Ht, Hk. cbn [negb].
  change (uwrap 64 _) with (uwrap 64 (zlen (file_data b) - m_read_offset b)).
  rewrite uwrap_id, <- Hlen by (unfold in_width; lia).
  change (transfer_file2file e (zlen (unread b)) _ _) with (transfer_file2file e (zlen (unread b)) (unread b) []). rewrite Hcopy.
  destruct b. cbn in *. by rewrite Htmp.
Qed.

(** The same buffer, its file opened or rewritten. *)
Definition same_buffer (b c : MemfileBuffer) : Prop :=
  m_mem_buffer c = m_mem_buffer b /\ m_threshold c = m_threshold b /\ m_max_file_size c = m_max_file_size b /\ unread c = unread b.

Lemma same_buffer_trans a b c : same_buffer a b -> same_buffer b c -> same_buffer a c.
Proof. intros (H1 & H2 & H3 & H4) (K1 & K2 & K3 & K4). unfold same_buffer. by rewrite K1, K2, K3, K4. Qed.

Lemma opened_ok b : sizes_ok b -> sizes_ok (b <| m_fd := true |> <| m_file := Some (file_data b) |>).
Proof. intros (H1 & H2 & H3 & H4 & H5 & H6 & H7 & H8). done. Qed.

Lemma stripped_ok b : sizes_ok b -> sizes_ok (b <| m_fd := true |> <| m_read_offset := 0 |> <| m_file := Some (unread b) |>).
Proof.
  intros Hb. pose proof (unread_length b Hb) as Hlen. pose proof (zlen_nonneg (unread b)).
  destruct Hb as (H1 & H2 & H3 & H4 & H5 & H6 & H7 & H8).
  set (b' := b <| m_fd := true |> <| m_read_offset := 0 |> <| m_file := Some (unread b) |>).
  assert (Hf : file_data b' = unread b) by done. assert (Ho : m_read_offset b' = 0) by done.
  assert (Hm : m_max_file_size b' = m_max_file_size b) by done.
  split_and!; first [done | apply H2 | rewrite ?Hm, ?Hf, ?Ho; lia].
Qed.

Lemma appended_ok b d : sizes_ok b -> m_fd b = true -> zlen (file_data b) + zlen d <= m_max_file_size b ->
  let b' := b <| m_file := Some (file_data b ++ d) |> in
  sizes_ok b' /\ unread b' = unread b ++ d.
Proof.
  intros (H1 & H2 & H3 & H4 & H5 & H6 & H7 & H8) Hfd Hd b'. assert (Hf : file_data b' = file_data b ++ d) by done.
  assert (Ho : m_read_offset b' = m_read_offset b) by done. assert (Hm : m_max_file_size b' = m_max_file_size b) by done. split.
  - pose proof (zlen_nonneg d). split_and!; first [done | apply H2 | rewrite ?Hm, ?Hf, ?Ho, ?zlen_app; lia | idtac].
    intros Hno. change (m_fd b = false) in Hno. congruence.
  - unfold unread. rewrite Hf, Ho. apply drop_app_le. unfold zlen in *. lia.
Qed.

(** The file before the data is appended: all of the data fits, or the file holds only what is
    unread. *)
Lemma strip_if_needed e b size : file_good e -> sizes_ok b -> m_fd b = true -> 0 <= size -> zlen (file_data b) + size < 2 ^ 64 ->
  exists c, (if need_to_strip_file (zlen (file_data b)) size b then strip_file e b else (None, b)) = (None, c) /\
    sizes_ok c /\ m_fd c = true /\ same_buffer b c /\
    (zlen (file_data c) = zlen (unread b) \/ zlen (file_data c) + size <= m_max_file_size b).
Proof.
  intros He Hb Hfd Hsize Hfit. destruct (need_to_strip_file _ _ b) eqn:Hneed.
  - eexists. rewrite strip_good by done. split; [done|]. split; [by apply stripped_ok|]. split_and!; [done|done|by left].
  - exists b. split_and!; try done. right. unfold need_to_strip_file in Hneed. apply orb_false_iff in Hneed as [Hneed _].
    apply Z.ltb_ge in Hneed. rewrite uwrap_id in Hneed; [done|]. pose proof (zlen_nonneg (file_data b)). unfold in_width. lia.
Qed.

(** The end of [write_in_file]. *)
Lemma append_good e data b c : file_good e -> sizes_ok c -> m_fd c = true -> data <> [] ->
  (zlen (file_data c) = zlen (unread c) \/ zlen (file_data c) + zlen data <= m_max_file_size c) -> zlen (file_data c) < m_max_file_size c ->
  let d := take (Z.to_nat (Z.min (zlen data) (m_max_file_size c - zlen (file_data c)))) data in
  b = c <| m_file := Some (file_data c ++ take (Z.to_nat (write_count (fe_write e (zlen d)) (zlen d))) d) |> ->
  0 < write_count (fe_write e (zlen d)) (zlen d) /\ d <> [] /\
  sizes_ok b /\ unread b = unread c ++ take (Z.to_nat (m_max_file_size c - zlen (unread c))) data.
Proof.
  intros He Hc Hfd Hne Hcase Hroom d ->. pose proof (unread_length c Hc) as Hlen. pose proof (zlen_nonneg data).
  assert (zlen data <> 0) by (by rewrite zlen_zero). assert (Ho : 0 <= m_read_offset c) by apply Hc.
  assert (Hd : zlen d = Z.min (zlen data) (m_max_file_size c - zlen (file_data c))) by (unfold d; rewrite zlen_take; lia).
  assert (Hw : write_count (fe_write e (zlen d)) (zlen d) = zlen d).
  { unfold write_count. destruct He as (_ & _ & _ & _ & _ & _ & _ & _ & _ & _ & Hwr & _). specialize (Hwr (zlen d)).
    rewrite (proj2 (Z.leb_gt _ _)) by lia. lia. }
  assert (Hdr : d = take (Z.to_nat (m_max_file_size c - zlen (unread c))) data).
  { unfold d. destruct (decide (zlen data <= m_max_file_size c - zlen (file_data c))) as [Hle|Hgt].
    - rewrite !take_ge; [done| |]; unfold zlen in *; lia.
    - do 2 f_equal. destruct Hcase; lia. }
  rewrite Hw, take_all, <- Hdr. split; [lia|]. split; [rewrite <- zlen_zero; lia|]. apply appended_ok; [done..|lia].
Qed.

(** The data that goes to the file goes behind what is unread there, as far as the limit of
    the file allows. *)
Lemma write_good e data b : file_good e -> sizes_ok b -> zlen (file_data b) + zlen data < 2 ^ 64 ->
  let room := m_max_file_size b - zlen (unread b) in
  let '(err, b') := write_in_file e data b in
  sizes_ok b' /\ m_mem_buffer b' = m_mem_buffer b /\ m_threshold b' = m_threshold b /\ m_max_file_size b' = m_max_file_size b /\
  unread b' = unread b ++ take (Z.to_nat room) data /\ (is_Some err <-> data <> [] /\ room = 0).
Proof.
  intros He Hb Hfit. unfold write_in_file. case_bool_decide as Hnil.
  { subst data. rewrite take_nil, app_nil_r. split_and!; try done. split; [intros [? [=]]|naive_solver]. }
  rewrite (proj1 He), andb_false_r. set (b0 := if m_fd b then b else _).
  assert (Hb0 : sizes_ok b0 /\ m_fd b0 = true /\ same_buffer b b0 /\ file_data b0 = file_data b).
  { unfold b0. destruct (m_fd b) eqn:Hfd; [done|]. split; [by apply opened_ok|done]. }
  clearbody b0. destruct Hb0 as (Hb0 & Hfd0 & Hsame0 & Hf0).
  assert (Hs1 : forall c, get_size (fe_size e) c = zlen (file_data c)) by (intros; unfold get_size; by rewrite (proj1 (proj2 He))).
  assert (Hs2 : forall c, get_size (fe_size_after e) c = zlen (file_data c))
    by (intros; unfold get_size; by rewrite (proj1 (proj2 (proj2 He)))).
  rewrite Hs1, (proj2 (Z.ltb_ge _ 0)) by done.
  destruct (strip_if_needed e b0 (zlen data)) as (c & -> & Hc & Hfd & Hsame & Hcase); [done..|by rewrite Hf0|].
  pose proof (same_buffer_trans _ _ _ Hsame0 Hsame) as (Hm & Ht & Hmax & Hu). destruct Hsame0 as (_ & _ & Hmax0 & Hu0).
  rewrite Hu0, Hmax0 in Hcase. rewrite <- Hu, <- Hmax in *.
  rewrite Hs2, (proj2 (Z.ltb_ge _ 0)) by done. pose proof (unread_length c Hc) as Hlen.
  assert (Ho : 0 <= m_read_offset c) by apply Hc. assert (zlen data <> 0) by (by rewrite zlen_zero). pose proof (zlen_nonneg data).
  destruct (_ <=? zlen (file_data c)) eqn:Hcap; [apply Z.leb_le in Hcap|apply Z.leb_gt in Hcap].
  { assert (Hroom : m_max_file_size c - zlen (unread c) = 0) by (destruct Hc as (_ & _ & _ & _ & ? & _); lia).
    split_and!; try done. by rewrite Hroom, app_nil_r. }
  destruct (append_good e data _ c He Hc Hfd Hnil Hcase Hcap eq_refl) as (Hw & Hd & Hok & Hun).
  rewrite (bool_decide_eq_false_2 _ Hd), (proj2 (Z.leb_gt _ _)) by done. cbn [negb andb].
  split_and!; try done. split; [intros [? [=]]|]. lia.
Qed.

(** The data is taken into memory from its start, as far as there is room; and only when
    nothing older is in the file. *)
Lemma transfer_mem2mem_good data b : memfile_wf b ->
  exists chunk rest b1, transfer_mem2mem data b = (rest, b1) /\ data = chunk ++ rest /\
    sizes_ok b1 /\ m_threshold b1 = m_threshold b /\ m_max_file_size b1 = m_max_file_size b /\ file_data b1 = file_data b /\
    unread b1 = unread b /\ MemoryBuffer.contents (m_mem_buffer b1) = MemoryBuffer.contents (m_mem_buffer b) ++ chunk /\
    (chunk <> [] -> unread b = []) /\ (rest <> [] -> mem_size b1 = m_threshold b) /\ mem_size b1 = mem_size b + zlen chunk.
Proof.
  intros [Hb Hfull]. unfold transfer_mem2mem. rewrite free_space_eq by done. destruct (_ =? 0) eqn:Hfree.
  { apply Z.eqb_eq in Hfree. exists [], data, b. rewrite app_nil_r. split_and!; try done; [|unfold zlen; cbn; lia]. intros _. lia. }
  apply Z.eqb_neq in Hfree. assert (Hth : mem_size b <= m_threshold b) by apply Hb. pose proof (zlen_nonneg data).
  assert (Hu : unread b = []) by (destruct (decide (unread b = [])) as [|Hn]; [done|specialize (Hfull Hn); lia]).
  set (chunk := if _ <=? _ then data else _).
  assert (Hchunk : exists rest, data = chunk ++ rest /\ mem_size b + zlen chunk <= m_threshold b /\
    (rest <> [] -> mem_size b + zlen chunk = m_threshold b)).
  { unfold chunk. destruct (_ <=? _) eqn:Hle; [apply Z.leb_le in Hle|apply Z.leb_gt in Hle].
    - exists []. rewrite app_nil_r. split_and!; [done|lia|done].
    - exists (drop (Z.to_nat (m_threshold b - mem_size b)) data). rewrite take_drop, zlen_take by lia. split_and!; [done|lia..]. }
  clearbody chunk. destruct Hchunk as (rest & -> & Hle & Hrest). destruct (mem_push_spec chunk b Hb Hle) as (Hb1 & Hs1 & Hu1 & Hc1).
  rewrite (mem_push_eq chunk b) in *. cbn [snd] in *. exists chunk, rest. eexists. rewrite drop_app_length. split; [done|].
  split_and!; try done. rewrite Hs1. done.
Qed.

Lemma memfile_push_spec e d b : memfile_wf b -> file_good e -> zlen (file_data b) + zlen d < 2 ^ 64 ->
  let room := m_threshold b + m_max_file_size b - zlen (memfile_contents b) in
  let '(err, b') := memfile_push e d b in
  memfile_wf b' /\ m_threshold b' = m_threshold b /\ m_max_file_size b' = m_max_file_size b /\
  memfile_contents b' = memfile_contents b ++ take (Z.to_nat room) d /\ (is_Some err <-> d <> [] /\ room = 0).
Proof.
  intros Hwf He Hfit. unfold memfile_push. pose proof (proj1 Hwf) as Hb. rewrite (contents_length b Hb).
  destruct (transfer_mem2mem_good d b Hwf) as (chunk & rest & b1 & -> & -> & Hb1 & Ht & Hmax & Hf & Hu & Hc & Hch & Hre & Hsize).
  rewrite zlen_app in Hfit. pose proof (zlen_nonneg chunk). pose proof (zlen_nonneg rest).
  pose proof (write_good e rest b1 He Hb1) as Hw. rewrite Hf in Hw. specialize (Hw ltac:(lia)).
  destruct (write_in_file e rest b1) as [err b']. destruct Hw as (Hb' & Hm & Ht' & Hmax' & Hu' & Herr).
  rewrite Hu, Hmax, ?Ht in *. assert (Hms : mem_size b' = mem_size b1) by (unfold mem_size; by rewrite Hm).
  pose proof (unread_length b Hb) as Hlen. assert (Hmx : zlen (unread b) <= m_max_file_size b /\ mem_size b1 <= m_threshold b).
  { destruct Hb as (_ & _ & _ & ? & ? & _). destruct Hb1 as (_ & ? & _). rewrite <- Ht. lia. }
  (* what goes to the file starts where the memory ends *)
  assert (Hroom : rest <> [] -> m_threshold b + m_max_file_size b - (mem_size b + zlen (unread b)) =
    zlen chunk + (m_max_file_size b - zlen (unread b))) by (intros Hr; specialize (Hre Hr); lia).
  split_and!; try done.
  - split; [done|]. rewrite Hms, Ht', Hu'. intros Hne. destruct (decide (rest = [])) as [->|Hr]; [|by apply Hre].
    rewrite take_nil, app_nil_r in Hne. destruct Hwf as [_ Hfull]. rewrite Hsize, (Hfull Hne).
    destruct (decide (chunk = [])) as [->|Hch']; [unfold zlen; cbn; lia|]. by rewrite (Hch Hch') in Hne.
  - unfold memfile_contents. rewrite Hm, Hc, Hu'. destruct (decide (rest = [])) as [->|Hr].
    + rewrite take_nil, !app_nil_r. rewrite (take_ge chunk) by (unfold zlen in *; lia).
      destruct (decide (chunk = [])) as [->|Hch']; [by rewrite !app_nil_r|]. by rewrite (Hch Hch'), !app_nil_r.
    + rewrite Hroom, take_app_ge by (done || unfold zlen in *; lia). rewrite <- !app_assoc. f_equal.
      replace (Z.to_nat _ - length chunk)%nat with (Z.to_nat (m_max_file_size b - zlen (unread b))) by (unfold zlen in *; lia).
      destruct (decide (chunk = [])) as [->|Hch']; [done|]. by rewrite (Hch Hch').
  - rewrite Herr. destruct (decide (rest = [])) as [->|Hr].
    + rewrite app_nil_r. split; [naive_solver|]. intros [Hne Hz]. exfalso. rewrite <- zlen_zero in Hne. lia.
    + rewrite (Hroom Hr). assert (Hsome : chunk <> [] -> m_max_file_size b - zlen (unread b) <> 0).
      { intros Hch'. rewrite (Hch Hch'). destruct Hb as (_ & _ & ? & _). unfold zlen. cbn. lia. }
      destruct (decide (chunk = [])) as [->|Hch']; [change (zlen []) with 0; cbn [app]; naive_solver lia|].
      split; intros [_ Hz]; exfalso; specialize (Hsome Hch'); lia.
Qed.

(** ** The interface *)

Lemma memfile_peek_full e b : memfile_wf b -> file_good e -> memfile_peek e b = (MemoryBuffer.peek (m_mem_buffer b), b).
Proof. intros Hb He. unfold memfile_peek. by rewrite transfer_file2mem_full. Qed.

(** The memory is empty only when the buffer is. *)
Lemma memfile_front b : memfile_wf b -> 0 < m_threshold b ->
  (exists rest, memfile_contents b = snd (MemoryBuffer.peek (m_mem_buffer b)) ++ rest) /\
  (snd (MemoryBuffer.peek (m_mem_buffer b)) = [] -> memfile_contents b = []).
Proof.
  intros [Hb Hfull] Hth. pose proof Hb as (Hm & _). destruct (MemoryBuffer.peek_prefix _ Hm) as [[rest Hr] He].
  unfold memfile_contents. split.
  - exists (rest ++ unread b). by rewrite Hr, <- app_assoc.
  - intros Hp. rewrite (He Hp). destruct (decide (unread b = [])) as [->|Hu]; [done|]. specialize (Hfull Hu).
    destruct Hm as (Hs & _). unfold mem_size, MemoryBuffer.size in Hfull. rewrite Hs, (He Hp) in Hfull. change (zlen []) with 0 in Hfull. lia.
Qed.

Lemma memfile_drain_spec e n b : memfile_wf b -> file_good e -> 0 <= n <= zlen (MemoryBuffer.contents (m_mem_buffer b)) ->
  let b' := memfile_drain e n b in
  memfile_wf b' /\ m_threshold b' = m_threshold b /\ m_max_file_size b' = m_max_file_size b /\
  memfile_contents b' = drop (Z.to_nat n) (memfile_contents b).
Proof.
  intros [Hb _] He Hn. unfold memfile_drain. destruct Hb as (Hm & Hth & Hrest).
  destruct (MemoryBuffer.drain_spec n _ Hm Hn) as [Hw Hc].
  set (b1 := b <| m_mem_buffer := MemoryBuffer.drain n (m_mem_buffer b) |>).
  assert (Hb1 : sizes_ok b1).
  { split; [done|]. split; [|done]. change (m_threshold b1) with (m_threshold b). destruct Hw as (Hs & _). destruct Hm as (Hs0 & _).
    unfold mem_size, MemoryBuffer.size in *. cbn [m_mem_buffer b1 assign]. rewrite Hs, Hc, zlen_drop by done. lia. }
  destruct (transfer_file2mem_good e b1 Hb1 He) as (b' & -> & Hwf & Hcont & Ht & Hmax). cbn [snd]. split_and!; try done.
  rewrite Hcont. unfold memfile_contents. cbn [m_mem_buffer b1 assign]. rewrite Hc.
  rewrite drop_app_le by (unfold zlen in *; lia). done.
Qed.

#[export, refine] Instance memfile_buffer : DataBuffer FileEnv MemfileBuffer := {
  buf_size e b := fst (memfile_size e b);
  buf_push := memfile_push;
  buf_peek := memfile_peek;
  buf_drain := memfile_drain;
  buf_contents := memfile_contents;
  buf_capacity b := Some (m_threshold b + m_max_file_size b);
  buf_faults := m_faults;
  buf_wf b := memfile_wf b /\ 0 < m_threshold b /\ m_threshold b + m_max_file_size b < 2 ^ 64;
  buf_fits b d := zlen (file_data b) + zlen d < 2 ^ 64;
  buf_good := file_good;
}.
Proof.
  - intros e b ([Hb _] & _ & Hcap) He. unfold memfile_size. pose proof (unread_length b Hb) as Hlen. rewrite contents_length by done.
    assert (Hs : (if m_fd b then get_size (fe_size e) b else 0) = zlen (file_data b)).
    { destruct (m_fd b) eqn:Hfd; [unfold get_size; by rewrite (proj1 (proj2 He))|].
      destruct Hb as (_ & _ & _ & _ & _ & _ & _ & Hfile). unfold file_data. by rewrite (Hfile Hfd). }
    pose proof (mem_size_nonneg b Hb). destruct Hb as (_ & Ht & Hm & Ho & Hf & _). rewrite Hs, (proj2 (Z.leb_le _ _)) by lia. cbn [fst].
    rewrite Z.max_l by done. unfold mem_size in *. rewrite !uwrap_id by (unfold in_width; rewrite ?uwrap_id by (unfold in_width; lia); lia). lia.
  - intros e d b (Hb & Hth & Hcap) He Hfit. pose proof (memfile_push_spec e d b Hb He Hfit) as Hp.
    destruct (memfile_push e d b) as [err b']. destruct Hp as (Hwf & Ht & Hm & Hc & Herr). rewrite Ht, Hm. done.
  - intros e b (Hb & Hth & Hcap) He. rewrite memfile_peek_full by done. destruct (memfile_front b Hb Hth) as [Hr He'].
    unfold MemoryBuffer.peek in *. cbn [snd] in *. split_and!; try done. intros e' Hgood. by rewrite memfile_peek_full.
  - intros e e' b n (Hb & Hth & Hcap) He He'. rewrite memfile_peek_full by done. unfold MemoryBuffer.peek at 1. intros Hn.
    destruct (MemoryBuffer.peek_prefix _ (proj1 (proj1 Hb))) as [[rest Hr] _]. unfold MemoryBuffer.peek in Hr. cbn [snd] in Hr.
    destruct (memfile_drain_spec e' n b Hb He') as (Hwf & Ht & Hm & Hc); [rewrite Hr, zlen_app; pose proof (zlen_nonneg rest); lia|].
    rewrite Ht, Hm. done.
  - intros b [[(_ & _ & _ & _ & _ & _ & Hf & _) _] _]. done.
Defined.

Lemma memfile_new_wf threshold max : 0 < threshold -> 0 < max -> threshold + max < 2 ^ 64 -> buf_wf (memfile_new threshold max).
Proof.
  intros Ht Hm Hc. split; [|done]. split; [|done]. split; [apply MemoryBuffer.memory_new_wf|].
  split_and!; cbn; try done; unfold zlen; cbn; lia.
Qed.

(** An operation without errors, of a piece that no size overflows with. *)
Definition memfile_op_ok (capacity : Z) (op : FileEnv * BufferOp) : Prop :=
  file_good (fst op) /\ match snd op with BO_push d => capacity + zlen d <= 2 ^ 64 | BO_read _ => True end.

Lemma ops_ok capacity ops : Forall (memfile_op_ok capacity) ops -> Forall (op_ok (Some capacity)) ops.
Proof.
  intros Hall. eapply Forall_impl; [exact Hall|]. intros [e [d|n]] [He Hd]; (split; [done|]); [|done]. cbn in *.
  intros b ([(_ & _ & _ & _ & Hf & _) _] & Hth & _) [= Hc]. lia.
Qed.

(** C39.  While no call of the file system fails and the writes, and the reads that
    rewrite the file, transfer all they are asked to, the buffer with the pushes of views
    is a queue of bounded capacity: what the reader has taken, followed by what is still
    in memory and in the file, is what was accepted, whatever the pieces of the writer
    and of the reader are, where each push is accepted as far as the threshold and the
    size limit of the file leave room; so nothing that fits is lost, and the queue is
    all that was pushed if every piece fits; and no assertion fails. *)
Theorem memfile_fifo threshold max ops :
  0 < threshold -> 0 < max -> threshold + max < 2 ^ 64 -> Forall (memfile_op_ok (threshold + max)) ops ->
  let '(out, b) := buffer_run ops (memfile_new threshold max) in
  out ++ memfile_contents b = accepted ops (memfile_new threshold max) /\
  (run_fits ops (memfile_new threshold max) -> out ++ memfile_contents b = pushed ops) /\ m_faults b = [].
Proof.
  intros Ht Hm Hc Hf.
  pose proof (fifo_run (Some (threshold + max)) ops _ (memfile_new_wf threshold max Ht Hm Hc) eq_refl (ops_ok _ _ Hf)) as Hrun.
  destruct (buffer_run ops _) as [out b]. destruct Hrun as [Hwf Hout]. split; [done|].
  split; [|exact (buf_wf_faults b Hwf)]. intros Hfit. rewrite <- (accepted_all ops _ Hfit). exact Hout.
Qed.

(** ** Runs *)

Module MemfileRun.
(** A file system without errors, and one whose reads fail. *)
Definition good : FileEnv :=
  mkFileEnv true true true true (fun n => n) (fun n => n) true true true true true (fun n => n) (fun n => n) true true.
Definition no_reads : FileEnv :=
  mkFileEnv true true true true (fun _ => -1) (fun n => n) true true true true true (fun n => n) (fun n => n) true true.
(** Every read of [strip_file] transfers at most two bytes. *)
Definition short_reads : FileEnv :=
  mkFileEnv true true true true (fun n => n) (fun n => n) true true true true true (fun _ => 2) (fun n => n) true true.
(** Every write of [write_in_file] transfers at most two bytes. *)
Definition short_writes : FileEnv :=
  mkFileEnv true true true true (fun n => n) (fun _ => 2) true true true true true (fun n => n) (fun n => n) true true.

(** No errors, and the reads of [transfer_file2mem] give one byte at a time. *)
Definition dribble : FileEnv :=
  mkFileEnv true true true true (fun _ => 1) (fun n => n) true true true true true (fun n => n) (fun n => n) true true.

Lemma dribble_ok : file_good dribble.
Proof. unfold file_good. cbn. split_and!; intros; (done || lia). Qed.

Definition ops : list (FileEnv * BufferOp) :=
  [(dribble, BO_push [1; 2; 3; 4; 5; 6; 7]); (dribble, BO_read 3); (dribble, BO_push [8; 9]); (dribble, BO_read 100)].
End MemfileRun.
Import MemfileRun.

(** Seven bytes into a buffer that keeps four in memory and two in its file; three are
    read, two more pushed. *)
Lemma memfile_fifo_witness :
  fst (buffer_run ops (memfile_new 4 2)) ++ memfile_contents (snd (buffer_run ops (memfile_new 4 2))) =
    [1; 2; 3; 4; 5; 6; 8; 9].
Proof.
  assert (Hf : Forall (memfile_op_ok (4 + 2)) ops).
  { unfold ops. repeat (apply Forall_cons_2; [split; [exact dribble_ok|]|]); [vm_compute; discriminate|exact I|
      vm_compute; discriminate|exact I|apply Forall_nil_2]. }
  generalize (memfile_fifo 4 2 ops eq_refl eq_refl eq_refl Hf).
  replace (accepted ops (memfile_new 4 2)) with [1; 2; 3; 4; 5; 6; 8; 9] by (vm_compute; reflexivity).
  destruct (buffer_run ops (memfile_new 4 2)) as [out b]. intros [Hout _]. exact Hout.
Defined.

(** The other overload of [push] erases from the vector it has just emptied: every push of a
    vector that fits into memory is undefined behaviour. *)
Theorem vector_push_erases_past_end e data b :
  sizes_ok b -> data <> [] -> mem_size b + zlen data <= m_threshold b -> m_faults (snd (memfile_push_vector e data b)) <> [].
Proof.
  intros Hb Hd Hfit. unfold memfile_push_vector, transfer_mem2mem_vector. rewrite free_space_eq by done.
  assert (zlen data <> 0) by (by rewrite zlen_zero). pose proof (zlen_nonneg data).
  rewrite (proj2 (Z.eqb_neq _ 0)), (proj2 (Z.leb_le _ _)) by lia. rewrite mem_push_eq.
  destruct data as [|x data]; [done|]. cbn. unfold not. by destruct (m_faults b).
Qed.

(** A read that fails when the reader drains is not reported, and the next push overtakes
    what is in the file. *)
Example failed_read_reorders :
  let b := snd (memfile_push good [1; 2; 3; 4; 5; 6] (memfile_new 4 100)) in
  let b := memfile_drain no_reads 4 b in
  let '(err, b) := memfile_push good [7; 8] b in
  err = None /\ fst (buffer_run [(good, BO_read 4); (good, BO_read 4)] b) = [7; 8; 5; 6].
Proof. vm_compute. done. Qed.

(** A file that is rewritten with reads that transfer less than asked is not the same file. *)
Example short_read_corrupts :
  let b := snd (memfile_push good [1; 2; 3; 4; 5; 6; 7; 8] (memfile_new 2 100)) in
  let b := memfile_drain good 2 b in
  let '(err, b) := memfile_push short_reads [9] b in
  err = None /\ memfile_contents b = [3; 4; 7; 8; 0; 0; 9].
Proof. vm_compute. done. Qed.

(** A write that transfers less than asked is taken for a success, and the rest is lost. *)
Example short_write_loses_data :
  let '(err, b) := memfile_push short_writes [1; 2; 3; 4; 5; 6] (memfile_new 2 100) in
  err = None /\ memfile_contents b = [1; 2; 3; 4].
Proof. vm_compute. done. Qed.
