(* ===== verification/Statistics.v ===== *)
(** * Connection statistics

    Models [core/src/connection_statistics.cpp]: the bytes of each connection are counted and
    reported when there are enough of them, not too often.  Time is in microseconds. *)

From S2P Require Import Prelude.

Record ConnectionStatistics := mkConnectionStatistics { cs_id : Z; cs_upload : Z; cs_download : Z }.

Record Statistics := mkStatistics { st_upload : Z; st_download : Z; raise_not_before : Z }.
#[export] Instance eta_Statistics : Eta Statistics := fun r => mkStatistics (st_upload r) (st_download r) (raise_not_before r).

Record Monitor := mkMonitor {
  m_stats : gmap Z Statistics;
  m_throttling_period : Z;
  m_threshold_bytes : Z;
  m_reports : list ConnectionStatistics;
}.
#[export] Instance eta_Monitor : Eta Monitor := fun r =>
  mkMonitor (m_stats r) (m_throttling_period r) (m_threshold_bytes r) (m_reports r).

(** [DEFAULT_THROTTLING_PERIOD] in microseconds *)
Definition DEFAULT_THROTTLING_PERIOD : Z := 100 * 1000.
Definition DEFAULT_THRESHOLD_BYTES : Z := 100 * 1024.

Definition monitor_new (throttling_period threshold_bytes : Z) : Monitor := mkMonitor ∅ throttling_period threshold_bytes [].

Definition register_conn (now id : Z) (m : Monitor) : Monitor :=
  let stats := default (mkStatistics 0 0 0) (m_stats m !! id) in
  m <| m_stats := <[id := stats <| raise_not_before := now + m_throttling_period m |>]> (m_stats m) |>.

(** The statistics are reported and start again. *)
Definition raise_stats (now id : Z) (stats : Statistics) (m : Monitor) : Statistics * Monitor :=
  let stats' := stats <| raise_not_before := now + m_throttling_period m |> in
  (stats' <| st_upload := 0 |> <| st_download := 0 |>,
   m <| m_reports := m_reports m ++ [mkConnectionStatistics id (st_upload stats') (st_download stats')] |>).

Definition unregister_conn (now id : Z) (do_report : bool) (m : Monitor) : Monitor :=
  let node := m_stats m !! id in
  let m := m <| m_stats := delete id (m_stats m) |> in
  match node with
  | None => m
  | Some stats =>
      if negb do_report then m
      else if (0 <? st_upload stats) && (0 <? st_download stats) then snd (raise_stats now id stats m)
      else m
  end.

Definition should_be_notified (now : Z) (stats : Statistics) (m : Monitor) : bool :=
  if (st_upload stats <? m_threshold_bytes m) && (st_download stats <? m_threshold_bytes m) then false
  else raise_not_before stats <? now.

(** The common part of [update_download] and [update_upload]. *)
Definition updated (now id : Z) (stats : Statistics) (m : Monitor) : Monitor :=
  let '(stats, m) := if should_be_notified now stats m then raise_stats now id stats m else (stats, m) in
  m <| m_stats := <[id := stats]> (m_stats m) |>.

Definition update_download (now id inc : Z) (m : Monitor) : Monitor :=
  match m_stats m !! id with
  | None => m
  | Some stats => updated now id (stats <| st_download := uwrap 64 (st_download stats + inc) |>) m
  end.

Definition update_upload (now id inc : Z) (m : Monitor) : Monitor :=
  match m_stats m !! id with
  | None => m
  | Some stats => updated now id (stats <| st_upload := uwrap 64 (st_upload stats + inc) |>) m
  end.

(** ** Nothing is counted twice *)

Inductive StatInput :=
| SI_register (id : Z)
| SI_unregister (id : Z) (do_report : bool)
| SI_download (id inc : Z)
| SI_upload (id inc : Z).

Definition stat_step (now : Z) (i : StatInput) (m : Monitor) : Monitor :=
  match i with
  | SI_register id => register_conn now id m
  | SI_unregister id do_report => unregister_conn now id do_report m
  | SI_download id inc => update_download now id inc m
  | SI_upload id inc => update_upload now id inc m
  end.

Definition stat_run (inputs : list (Z * StatInput)) (m : Monitor) : Monitor :=
  fold_left (fun m i => stat_step (fst i) (snd i) m) inputs m.

(** The bytes of a connection in the reports, and those counted but not reported yet. *)
Definition reported (id : Z) (m : Monitor) : Z * Z :=
  fold_right (fun r s => if cs_id r =? id then (cs_upload r + fst s, cs_download r + snd s) else s) (0, 0) (m_reports m).
Definition pending (id : Z) (m : Monitor) : Z * Z :=
  match m_stats m !! id with Some s => (st_upload s, st_download s) | None => (0, 0) end.

(** What an input counts for a connection. *)
Definition counted (id : Z) (i : StatInput) : Z * Z :=
  match i with
  | SI_download id' inc => if id' =? id then (0, inc) else (0, 0)
  | SI_upload id' inc => if id' =? id then (inc, 0) else (0, 0)
  | SI_register _ | SI_unregister _ _ => (0, 0)
  end.

(** The balance of a connection, in the arithmetic of the counters. *)
Definition balance (id : Z) (m : Monitor) : Z * Z :=
  (uwrap 64 (fst (reported id m) + fst (pending id m)), uwrap 64 (snd (reported id m) + snd (pending id m))).

Definition registered (id : Z) (m : Monitor) : Prop := is_Some (m_stats m !! id).

Lemma reported_app id m r : reported id (m <| m_reports := m_reports m ++ [r] |>) =
  if cs_id r =? id then (fst (reported id m) + cs_upload r, snd (reported id m) + cs_download r) else reported id m.
Proof.
  unfold reported. cbn [m_reports assign]. induction (m_reports m) as [|r' l IH]; cbn [app fold_right].
  - destruct (cs_id r =? id); [|done]. cbn. f_equal; lia.
  - rewrite IH. destruct (cs_id r' =? id), (cs_id r =? id); cbn; try done. f_equal; lia.
Qed.

Lemma uwrap_add_r w a b : uwrap w (a + uwrap w b) = uwrap w (a + b).
Proof. unfold uwrap. apply Zplus_mod_idemp_r. Qed.

(** Whether or not the update is reported, the balance has grown by it. *)
Lemma updated_balance now id stats m id' :
  balance id' (updated now id stats m) =
  if id =? id' then (uwrap 64 (fst (reported id' m) + st_upload stats), uwrap 64 (snd (reported id' m) + st_download stats))
  else balance id' m.
Proof.
  unfold updated, raise_stats. destruct (should_be_notified now stats m).
  - set (m1 := m <| m_reports := _ |>).
    assert (Hr : reported id' m1 = if id =? id' then (fst (reported id' m) + st_upload stats, snd (reported id' m) + st_download stats)
      else reported id' m) by apply reported_app.
    unfold balance, pending. set (m2 := m1 <| m_stats := _ |>). change (reported id' m2) with (reported id' m1). rewrite Hr. cbn [m_stats m2 assign].
    destruct (id =? id') eqn:Hid; [apply Z.eqb_eq in Hid as ->|apply Z.eqb_neq in Hid].
    + rewrite lookup_insert_eq. cbn. by rewrite !Z.add_0_r.
    + by rewrite lookup_insert_ne.
  - unfold balance, pending. cbn. destruct (id =? id') eqn:Hid; [apply Z.eqb_eq in Hid as ->|apply Z.eqb_neq in Hid].
    + by rewrite lookup_insert_eq.
    + by rewrite lookup_insert_ne.
Qed.

Lemma updated_registered now id stats m id' : registered id' m -> registered id' (updated now id stats m).
Proof.
  intros Hreg. assert (Hs : exists s, m_stats (updated now id stats m) = <[id := s]> (m_stats m)).
  { unfold updated, raise_stats. destruct (should_be_notified now stats m); cbn; eauto. }
  destruct Hs as [s Hs]. unfold registered. rewrite Hs. destruct (decide (id = id')) as [->|Hne]; [rewrite lookup_insert_eq; eauto|].
  by rewrite lookup_insert_ne.
Qed.

(** The counters after [inc] bytes, in the arithmetic of the counters. *)
Lemma balance_inc a b inc : uwrap 64 (a + uwrap 64 (b + inc)) = uwrap 64 (uwrap 64 (a + b) + inc).
Proof. rewrite uwrap_add_r. unfold uwrap. by rewrite Zplus_mod_idemp_l, Z.add_assoc. Qed.

Lemma balance_zero id m : balance id m = (uwrap 64 (fst (balance id m) + 0), uwrap 64 (snd (balance id m) + 0)).
Proof. unfold balance; cbn [fst snd]. rewrite !Z.add_0_r. unfold uwrap. by rewrite !Z.mod_mod. Qed.

Lemma unregister_balance now id id' do_report m : id' <> id -> registered id m ->
  registered id (unregister_conn now id' do_report m) /\ balance id (unregister_conn now id' do_report m) = balance id m.
Proof.
  intros Hne Hreg. assert (Hd : forall m', reported id m' = reported id m -> m_stats m' = delete id' (m_stats m) ->
    registered id m' /\ balance id m' = balance id m).
  { intros m' Hr Hs. unfold registered, balance, pending. by rewrite Hr, Hs, lookup_delete_ne. }
  unfold unregister_conn. destruct (m_stats m !! id') as [s|]; [|by apply Hd].
  destruct do_report; cbn [negb]; [|by apply Hd]. destruct (_ && _); [|by apply Hd]. apply Hd; [|done].
  unfold raise_stats. cbn [snd]. set (m' := m <| m_stats := _ |>). etrans; [apply (reported_app id m')|]. cbn [cs_id].
  by rewrite (proj2 (Z.eqb_neq id' id)).
Qed.

Lemma register_balance now id id' m : registered id m ->
  registered id (register_conn now id' m) /\ balance id (register_conn now id' m) = balance id m.
Proof.
  intros Hreg. unfold register_conn, registered, balance, pending.
  set (m' := m <| m_stats := _ |>). change (reported id m') with (reported id m). cbn [m_stats m' assign].
  destruct (decide (id' = id)) as [->|Hne]; [rewrite lookup_insert_eq|by rewrite lookup_insert_ne].
  split; [by eexists|]. destruct Hreg as [s ->]. done.
Qed.

Lemma stat_step_balance now i m id :
  registered id m -> (forall r, i <> SI_unregister id r) ->
  registered id (stat_step now i m) /\
  balance id (stat_step now i m) =
    (uwrap 64 (fst (balance id m) + fst (counted id i)), uwrap 64 (snd (balance id m) + snd (counted id i))).
Proof.
  intros Hreg Hno. destruct i as [id'|id' do_report|id' inc|id' inc]; cbn [stat_step counted].
  - rewrite <- balance_zero. by apply register_balance.
  - rewrite <- balance_zero. apply unregister_balance; [|done]. intros ->. by destruct (Hno do_report).
  - unfold update_download. destruct (m_stats m !! id') as [s|] eqn:Hs.
    + split; [by apply updated_registered|]. rewrite updated_balance.
      destruct (id' =? id) eqn:Hid; [apply Z.eqb_eq in Hid as ->|apply balance_zero]. unfold balance, pending. rewrite Hs. cbn.
      by rewrite balance_inc, <- (balance_inc _ _ 0), !Z.add_0_r, uwrap_add_r.
    + split; [done|]. destruct (id' =? id) eqn:Hid; [|apply balance_zero]. apply Z.eqb_eq in Hid as ->. destruct Hreg. congruence.
  - unfold update_upload. destruct (m_stats m !! id') as [s|] eqn:Hs.
    + split; [by apply updated_registered|]. rewrite updated_balance.
      destruct (id' =? id) eqn:Hid; [apply Z.eqb_eq in Hid as ->|apply balance_zero]. unfold balance, pending. rewrite Hs. cbn.
      by rewrite balance_inc, <- (balance_inc _ _ 0), !Z.add_0_r, uwrap_add_r.
    + split; [done|]. destruct (id' =? id) eqn:Hid; [|apply balance_zero]. apply Z.eqb_eq in Hid as ->. destruct Hreg. congruence.
Qed.

Definition total (id : Z) (inputs : list (Z * StatInput)) : Z * Z :=
  fold_right (fun i s => (fst (counted id (snd i)) + fst s, snd (counted id (snd i)) + snd s)) (0, 0) inputs.

Lemma stat_run_balance id inputs : forall m,
  registered id m -> (forall t r, (t, SI_unregister id r) ∉ inputs) ->
  registered id (stat_run inputs m) /\
  balance id (stat_run inputs m) =
    (uwrap 64 (fst (balance id m) + fst (total id inputs)), uwrap 64 (snd (balance id m) + snd (total id inputs))).
Proof.
  induction inputs as [|[t i] inputs IH]; intros m Hreg Hno; cbn [stat_run fold_left total fold_right fst snd].
  { split; [done|]. apply balance_zero. }
  destruct (stat_step_balance t i m id Hreg) as [Hreg' Hb]; [intros r ->; apply (Hno t r); left|].
  destruct (IH _ Hreg') as [Hreg'' Hb']; [set_solver|]. split; [done|]. unfold stat_run, total in *. rewrite Hb', Hb. cbn [fst snd].
  unfold uwrap. by rewrite !Zplus_mod_idemp_l, <- !Z.add_assoc.
Qed.

(** C40.  From its registration on, every byte of a connection is in exactly one report or
    still to be reported, until the connection is unregistered; in the 64-bit arithmetic
    of the counters, for any interleaving with other connections. *)
Theorem statistics_conserved now id inputs m :
  m_stats m !! id = None -> reported id m = (0, 0) -> (forall t r, (t, SI_unregister id r) ∉ inputs) ->
  balance id (stat_run inputs (register_conn now id m)) = (uwrap 64 (fst (total id inputs)), uwrap 64 (snd (total id inputs))).
Proof.
  intros Hnew Hrep Hno. set (m' := register_conn now id m).
  assert (Hreg : registered id m') by (unfold registered, m', register_conn; cbn; rewrite lookup_insert_eq; eauto).
  destruct (stat_run_balance id inputs m' Hreg Hno) as [_ ->].
  assert (Hz : balance id m' = (0, 0)).
  { unfold balance, pending, m', register_conn. cbn [m_stats assign]. rewrite lookup_insert_eq, Hnew.
    set (m1 := m <| m_stats := _ |>). change (reported id m1) with (reported id m). by rewrite Hrep. }
  by rewrite Hz.
Qed.

(** Two connections, one of them reported on the way. *)
Lemma statistics_conserved_witness :
  let inputs := [(10, SI_register 2); (20, SI_upload 1 60); (30, SI_upload 2 70); (200, SI_upload 1 50); (210, SI_download 1 5)] in
  let m := stat_run inputs (register_conn 0 1 (monitor_new 100 100)) in
  balance 1 m = (110, 5) /\ m_reports m = [mkConnectionStatistics 1 110 0].
Proof.
  intros inputs m. split; [|reflexivity].
  apply (statistics_conserved 0 1 inputs (monitor_new 100 100)); [reflexivity|reflexivity|].
  intros t r. unfold inputs. set_solver.
Defined.

(** A connection that only sent or only received data has unreported statistics when it is
    unregistered, which the interface promises to raise and the code drops. *)
Example one_way_statistics_are_dropped :
  let m := register_conn 0 1 (monitor_new 100 100) in
  let m := update_upload 10 1 60 m in
  pending 1 m = (60, 0) /\ m_reports (unregister_conn 20 1 true m) = [].
Proof. done. Qed.
