(* ===== verification/VpnClient.v ===== *)
(** * The VPN client

    Models [core/src/vpn_client.cpp] and the class it implements
    ([core/include/vpn/internal/vpn_client.h]): the client state machine with
    its transition table, the connection procedure, the deferred tasks and the
    callbacks of the endpoint connector, the upstreams and the DNS resolver.

    The parts the client drives (the tunnel, the connector, the upstreams, the
    listeners) appear through the calls the client makes on them, which
    [c_out] records in order, and through their answers, which [ClientEnv]
    supplies.  Every theorem quantifies over [ClientEnv], so the answers are
    arbitrary.  An event raised to the application layer is an entry of [c_out]
    too; the manager ([VpnManager.v]) receives exactly those. *)

From S2P Require Import Prelude Fsm VpnTypes PortRanges.

(** ** Data *)

(** [enum State], [enum SessionEvent] *)
Definition S_DISCONNECTED : Z := 0.
Definition S_CONNECTING : Z := 1.
Definition S_CONNECTED : Z := 2.
Definition S_DISCONNECTING : Z := 3.

Definition E_RUN_CONNECT : Z := 0.
Definition E_DISCONNECT : Z := 1.
Definition E_DEFERRED_DISCONNECT : Z := 2.
Definition E_RUN_PREPARATION_FAIL : Z := 3.
Definition E_SESSION_OPENED : Z := 4.
Definition E_SESSION_CLOSED : Z := 5.
Definition E_SESSION_ERROR : Z := 6.
Definition E_HEALTH_CHECK_ERROR : Z := 7.

(** [enum ServerEvent] with the data of the events the client looks into. *)
Inductive ServerEvent :=
  | SERVER_EVENT_SESSION_OPENED
  | SERVER_EVENT_SESSION_CLOSED
  | SERVER_EVENT_CONNECTION_OPENED (id : Z)
  | SERVER_EVENT_CONNECTION_CLOSED (id : Z)
  | SERVER_EVENT_READ (id : Z)
  | SERVER_EVENT_DATA_SENT (id : Z)
  | SERVER_EVENT_HEALTH_CHECK_ERROR (error : VpnError)
  | SERVER_EVENT_GET_AVAILABLE_TO_SEND (id : Z)
  | SERVER_EVENT_ERROR (id : Z) (error : VpnError)
  | SERVER_EVENT_ECHO_REPLY.

(** The events of [vpn_client::Event] that carry the session's life cycle. *)
Inductive ClientEvent :=
  | EVENT_CONNECTED
  | EVENT_DISCONNECTED
  | EVENT_ERROR (error : VpnError)
  | EVENT_DNS_UPSTREAM_UNAVAILABLE.

Inductive TunnelCall :=
  | T_upstream_handler (bypass : bool) (what : ServerEvent)
  | T_on_before_endpoint_disconnect
  | T_on_after_endpoint_disconnect
  | T_on_exclusions_updated
  | T_update_dns_handler_parameters
  | T_dns_resolve_health_check
  | T_reset_connections (uid : Z)
  | T_reset_dns_listener_connections
  | T_reset_connection (id : Z)
  | T_complete_connect_request (id : Z) (action : option VpnConnectAction)
  | T_on_network_change
  | T_handle_sleep
  | T_handle_wake
  | T_deinit.

Inductive ClientOut :=
  | O_event (e : ClientEvent)
  | O_tunnel (t : TunnelCall)
  | O_connector_connect (timeout : option Z)
  | O_connector_disconnect
  | O_connector_handle_sleep
  | O_connector_handle_wake
  | O_endpoint_close_session
  | O_endpoint_deinit
  | O_endpoint_do_health_check
  | O_endpoint_handle_sleep
  | O_endpoint_handle_wake
  | O_bypass_open_session
  | O_bypass_close_session
  | O_bypass_deinit
  | O_bypass_ip_availability (v4 v6 : bool)
  | O_listener_init
  | O_listener_deinit
  | O_listener_reject (id : Z)
  | O_listener_process_packets
  | O_dns_listener_init
  | O_dns_listener_deinit
  | O_clean_up_buffer_files
  | O_dump_session_cache
  | O_load_session_cache.

(** The tasks [deferred_tasks] can hold. *)
Inductive DeferredTask :=
  | DT_connector_finalizer
  | DT_health_check
  | DT_deferred_disconnect.

#[export] Instance DeferredTask_eq_dec : EqDecision DeferredTask.
Proof. solve_decision. Defined.

Inductive ConnectorKind := SingleUpstream | FallbackableUpstream.

Inductive InitResult := INIT_SUCCESS | INIT_ADDR_IN_USE | INIT_FAILURE.

(** [vpn_client::EndpointConnectionConfig] *)
Record EndpointConnectionConfig := mkEndpointConnectionConfig {
  ecc_main_protocol : VpnUpstreamProtocol;
  ecc_connections_num : Z;
  ecc_fallback : option VpnUpstreamProtocol;
  ecc_endpoint : VpnEndpoint;
  ecc_verification_address : SocketAddress;
  ecc_timeout : Z;
  ecc_health_check_timeout : Z;
  ecc_username : option string;
  ecc_password : option string;
  ecc_ipv6_available : bool;
  ecc_anti_dpi : bool;
}.

(** [VpnListenerConfig]: what the client reads of it. *)
Record VpnListenerConfig := mkVpnListenerConfig {
  listener_timeout_ms : Z;
  dns_upstreams_num : Z;
}.
#[export] Instance eta_VpnListenerConfig : Eta VpnListenerConfig := fun r =>
  mkVpnListenerConfig (listener_timeout_ms r) (dns_upstreams_num r).

(** The mutable members of [class VpnClient].  A pointer the code only tests
    for null is a boolean. *)
Record VpnClient := mkVpnClient {
  c_fsm : FsmCell;
  c_tunnel : bool;
  c_listener_config : VpnListenerConfig;
  c_upstream_config : option EndpointConnectionConfig;
  c_kill_switch_on : bool;
  c_endpoint_upstream : bool;
  c_bypass_upstream : bool;
  c_client_listener : bool;
  c_dns_proxy_listener : bool;
  c_dns_health_check : bool;
  c_deferred_tasks : list DeferredTask;
  c_endpoint_connector : option ConnectorKind;
  c_tmp_files_base_path : option string;
  c_ssl_session_storage_path : option string;
  c_pending_error : option VpnError;
  c_bypass_session_opened : bool;
  c_in_disconnect : bool;
  c_exclusions_mode : VpnMode;
  c_exclusions_tcp_early_ack_enabled : bool;
  c_exclusions_preresolve_enabled : bool;
  c_exclusions_preresolve_max_queries : Z;
  c_exclusions_scannable_ports : list PortRange;
  c_conn_memory_buffer_threshold : Z;
  c_max_conn_buffer_file_size : Z;
  c_quic_connector : bool;
  c_tcp_socket : bool;
  c_out : list ClientOut;
  c_faults : list string;
}.
#[export] Instance eta_VpnClient : Eta VpnClient := fun r =>
  mkVpnClient (c_fsm r) (c_tunnel r) (c_listener_config r) (c_upstream_config r)
    (c_kill_switch_on r) (c_endpoint_upstream r) (c_bypass_upstream r) (c_client_listener r)
    (c_dns_proxy_listener r) (c_dns_health_check r) (c_deferred_tasks r) (c_endpoint_connector r)
    (c_tmp_files_base_path r) (c_ssl_session_storage_path r) (c_pending_error r) (c_bypass_session_opened r)
    (c_in_disconnect r) (c_exclusions_mode r)
    (c_exclusions_tcp_early_ack_enabled r) (c_exclusions_preresolve_enabled r)
    (c_exclusions_preresolve_max_queries r) (c_exclusions_scannable_ports r)
    (c_conn_memory_buffer_threshold r) (c_max_conn_buffer_file_size r) (c_quic_connector r) (c_tcp_socket r)
    (c_out r) (c_faults r).

(** Answers of the parts the client calls. *)
Record ClientEnv := mkClientEnv {
  connector_connect : option Z -> VpnError;
  bypass_open_session : bool;
  listener_init : InitResult;
  dns_listener_init : InitResult;
  rand_bytes_ok : bool;
  update_dns_handler_parameters : bool;
  dns_resolve_started : bool;
  reachable_v4 : bool;
  reachable_v6 : bool;
  tunnel_init : bool;
  bypass_init : bool;
}.
#[export] Instance eta_ClientEnv : Eta ClientEnv := fun r =>
  mkClientEnv (connector_connect r) (bypass_open_session r) (listener_init r) (dns_listener_init r)
    (rand_bytes_ok r) (update_dns_handler_parameters r) (dns_resolve_started r) (reachable_v4 r)
    (reachable_v6 r) (tunnel_init r) (bypass_init r).

(** ** Primitive steps *)

(** A violated [assert], or a member access through a null pointer. *)
Definition c_fault (what : string) (c : VpnClient) : VpnClient :=
  c <| c_faults := c_faults c ++ [what] |>.

Definition c_emit (o : ClientOut) (c : VpnClient) : VpnClient :=
  c <| c_out := c_out c ++ [o] |>.

(** [parameters.handler.func(...)] *)
Definition c_raise (e : ClientEvent) : VpnClient -> VpnClient := c_emit (O_event e).

(** [tunnel->...] *)
Definition call_tunnel (t : TunnelCall) (c : VpnClient) : VpnClient :=
  if c_tunnel c then c_emit (O_tunnel t) c else c_fault "tunnel is null" c.

(** [endpoint_upstream->...] *)
Definition call_endpoint (o : ClientOut) (c : VpnClient) : VpnClient :=
  if c_endpoint_upstream c then c_emit o c else c_fault "endpoint_upstream is null" c.

#[export, refine] Instance VpnClient_FsmCtx : FsmCtx VpnClient := {|
  get_fsm := c_fsm;
  put_fsm f c := c <| c_fsm := f |>;
  fail_assert := c_fault "recursive fsm run";
|}.
Proof. all: by intros; destruct_all VpnClient. Defined.

(** ** The state machine *)

(** The [void *data] of a client event. *)
Inductive ClientData :=
  | CD_null
  | CD_timeout (timeout : option Z)
  | CD_error (error : VpnError).

(** The cast of [data] to a [VpnError] pointer. *)
Definition as_error (d : ClientData) : option VpnError :=
  match d with CD_error e => Some e | _ => None end.

Inductive ClientAction :=
  | A_run_connect
  | A_raise_connected
  | A_raise_disconnected
  | A_run_disconnect
  | A_submit_disconnect.

Definition CLIENT_TRANSITION_TABLE : FsmTransitionTable Empty_set ClientAction := [
  mkEntry S_DISCONNECTED   E_RUN_CONNECT          ANYWAY    (Some A_run_connect)       S_CONNECTING    DO_NOTHING;
  mkEntry S_DISCONNECTED   E_SESSION_CLOSED       ANYWAY    DO_NOTHING                 S_DISCONNECTED  (Some A_raise_disconnected);
  mkEntry S_DISCONNECTED   E_DISCONNECT           ANYWAY    DO_NOTHING                 S_DISCONNECTED  DO_NOTHING;

  mkEntry S_CONNECTING     E_SESSION_OPENED       ANYWAY    DO_NOTHING                 S_CONNECTED     (Some A_raise_connected);
  mkEntry S_CONNECTING     E_SESSION_CLOSED       ANYWAY    DO_NOTHING                 S_DISCONNECTED  (Some A_raise_disconnected);

  mkEntry S_CONNECTED      E_SESSION_CLOSED       ANYWAY    DO_NOTHING                 S_DISCONNECTED  (Some A_raise_disconnected);
  mkEntry S_CONNECTED      E_SESSION_ERROR        ANYWAY    (Some A_submit_disconnect) S_DISCONNECTING DO_NOTHING;
  mkEntry S_CONNECTED      E_RUN_PREPARATION_FAIL ANYWAY    (Some A_submit_disconnect) S_DISCONNECTING DO_NOTHING;
  mkEntry S_CONNECTED      E_HEALTH_CHECK_ERROR   OTHERWISE (Some A_submit_disconnect) S_DISCONNECTING DO_NOTHING;

  mkEntry S_DISCONNECTING  E_SESSION_CLOSED       ANYWAY    DO_NOTHING                 S_DISCONNECTED  (Some A_raise_disconnected);
  mkEntry S_DISCONNECTING  E_DEFERRED_DISCONNECT  ANYWAY    (Some A_run_disconnect)    S_DISCONNECTED  (Some A_raise_disconnected);

  mkEntry ANY_SOURCE_STATE E_DISCONNECT           ANYWAY    (Some A_run_disconnect)    S_DISCONNECTED  DO_NOTHING
].

Section Client.
Context (env : ClientEnv).
Implicit Types (c : VpnClient).

(** The shared guard of [run_disconnect] and [submit_disconnect]. *)
Definition keep_first_error (data : ClientData) c : VpnClient :=
  match c_pending_error c, as_error data with
  | None, Some e => if code e =? VPN_EC_NOERROR then c else c <| c_pending_error := Some e |>
  | _, _ => c
  end.

Definition run_connect (data : ClientData) c : VpnClient :=
  let timeout := match data with CD_timeout t => t | _ => None end in
  match c_endpoint_connector c with
  | None => c_fault "endpoint_connector is null" c
  | Some _ =>
      let e := connector_connect env timeout in
      let c := c_emit (O_connector_connect timeout) c in
      if code e =? VPN_EC_NOERROR then c else c <| c_pending_error := Some e |>
  end.

Definition raise_connected c : VpnClient := c_raise EVENT_CONNECTED c.

Definition raise_disconnected c : VpnClient :=
  match c_pending_error c with
  | None => c_raise EVENT_DISCONNECTED c
  | Some e => (c_raise (EVENT_ERROR e) c) <| c_pending_error := None |>
  end.

Definition dns_proxy_listener_deinit c : VpnClient :=
  if c_dns_proxy_listener c
  then (c_emit O_dns_listener_deinit c) <| c_dns_proxy_listener := false |>
  else c.

Definition run_disconnect (data : ClientData) c : VpnClient :=
  let c := if c_dns_proxy_listener c then call_tunnel T_reset_dns_listener_connections c else c in
  let c := call_tunnel T_on_before_endpoint_disconnect c in
  let c := keep_first_error data c in
  let c := c <| c_deferred_tasks := [] |> in
  let c := match c_endpoint_connector c with
           | Some _ => (c_emit O_connector_disconnect c) <| c_endpoint_connector := None |>
           | None => c
           end in
  let c := if c_endpoint_upstream c then c_emit O_endpoint_close_session c else c in
  let c := call_tunnel T_on_after_endpoint_disconnect c in
  let c := dns_proxy_listener_deinit c in
  c <| c_tcp_socket := false |> <| c_quic_connector := false |>.

Definition submit_disconnect (data : ClientData) c : VpnClient :=
  let c := keep_first_error data c in
  c <| c_deferred_tasks := c_deferred_tasks c ++ [DT_deferred_disconnect] |>.

Definition client_run_action (a : ClientAction) (data : ClientData) c : VpnClient :=
  match a with
  | A_run_connect => run_connect data c
  | A_raise_connected => raise_connected c
  | A_raise_disconnected => raise_disconnected c
  | A_run_disconnect => run_disconnect data c
  | A_submit_disconnect => submit_disconnect data c
  end.

Definition client_eval_condition (g : Empty_set) c (data : ClientData) : bool :=
  match g with end.

(** [self->fsm.perform_transition(event, data)] *)
Definition client_transition (ev : Z) (data : ClientData) c : VpnClient :=
  perform_transition client_eval_condition client_run_action CLIENT_TRANSITION_TABLE ev data c.

Definition client_state_is (s : Z) c : bool := get_state c =? s.

(** ** Operations *)

(** [client_connect]: start the connector through the state machine. *)
Definition client_connect (timeout : option Z) c : VpnError * VpnClient :=
  let c := client_transition E_RUN_CONNECT (CD_timeout timeout) c in
  (match c_pending_error c with Some e => e | None => no_error end,
   c <| c_pending_error := None |>).

(** [submit_health_check] with no delay, [VpnClient::do_health_check] *)
Definition VpnClient_do_health_check c : VpnClient :=
  c <| c_deferred_tasks := c_deferred_tasks c ++ [DT_health_check] |>.

(** [make_upstream]: [None] is the null pointer returned for [VPN_UP_AUTO]. *)
Definition make_upstream (protocol : VpnUpstreamProtocol) : option VpnUpstreamProtocol :=
  match protocol with
  | VPN_UP_HTTP2 => Some VPN_UP_HTTP2
  | VPN_UP_HTTP3 => Some VPN_UP_HTTP3
  | VPN_UP_AUTO => None
  end.

Definition start_dns_proxy_listener c : VpnError * VpnClient :=
  if negb (rand_bytes_ok env)
  then (mkVpnError VPN_EC_ERROR (Some "Failed to generate DNS proxy listener password"), c)
  else
    let c := (c_emit O_dns_listener_init c) <| c_dns_proxy_listener := true |> in
    match dns_listener_init env with
    | INIT_SUCCESS =>
        let c := call_tunnel T_update_dns_handler_parameters c in
        if update_dns_handler_parameters env then (no_error, c)
        else (mkVpnError VPN_EC_ERROR (Some "Failed to initialize the DNS handler"), c)
    | _ => (mkVpnError VPN_EC_INVALID_SETTINGS (Some "Failed to initialize DNS proxy listener"), c)
    end.

(** [clean_up_buffer_files] and [dump_session_cache] when their path is set. *)
Definition clean_up_buffer_files c : VpnClient :=
  match c_tmp_files_base_path c with
  | Some _ => c_emit O_clean_up_buffer_files c
  | None => c
  end.

Definition dump_session_cache c : VpnClient :=
  match c_ssl_session_storage_path c with
  | Some _ => c_emit O_dump_session_cache c
  | None => c
  end.

Definition VpnClient_disconnect c : VpnClient :=
  let c := c <| c_in_disconnect := true |> in
  let c := client_transition E_DISCONNECT CD_null c in
  c <| c_in_disconnect := false |>.

(** The [fail:] label of [VpnClient::connect]. *)
Definition connect_fail (error : VpnError) c : VpnError * VpnClient :=
  let c := VpnClient_disconnect c in
  let error := if code error =? 0 then error <| code := VPN_EC_ERROR |> else error in
  let error := match text error with
               | None => error <| text := Some "Internal error" |>
               | Some _ => error
               end in
  (error, c).

(** The choice of the connector in [VpnClient::connect]. *)
Definition make_connector (config : EndpointConnectionConfig) c : VpnClient :=
  let c := match make_upstream (ecc_main_protocol config) with
           | Some _ => c
           | None => c_fault "main_upstream is null" c
           end in
  match ecc_fallback config with
  | Some fallback =>
      let c := match make_upstream fallback with
               | Some _ => c
               | None => c_fault "fallback_upstream is null" c
               end in
      c <| c_endpoint_connector := Some FallbackableUpstream |>
  | None => c <| c_endpoint_connector := Some SingleUpstream |>
  end.

Definition VpnClient_connect (config : EndpointConnectionConfig) (timeout : option Z) c : VpnError * VpnClient :=
  if negb (client_state_is S_DISCONNECTED c) then (mkVpnError VPN_EC_ERROR (Some "Invalid state"), c)
  else
    let c := c <| c_upstream_config := Some config |> in
    let c := make_connector config c in
    let '(error, c) := client_connect timeout c in
    if negb (code error =? VPN_EC_NOERROR) then connect_fail error c
    else
      let c := if c_bypass_upstream c then c_emit O_bypass_open_session c
               else c_fault "bypass_upstream is null" c in
      if negb (bypass_open_session env)
      then connect_fail (error <| text := Some "Failed to start upstream for direct connections" |>) c
      else (error, c).

Definition VpnClient_do_dns_upstream_health_check c : bool * VpnClient :=
  let c := call_tunnel T_dns_resolve_health_check c in
  (dns_resolve_started env, c <| c_dns_health_check := dns_resolve_started env |>).

(** The [fail:] label of [VpnClient::listen]. *)
Definition listen_fail (error : VpnError) c : VpnError * VpnClient :=
  (error, client_transition E_RUN_PREPARATION_FAIL CD_null c).

Definition listen_error (msg : string) : VpnError := mkVpnError VPN_EC_ERROR (Some msg).

(** The tail of [VpnClient::listen], from the DNS handler update on. *)
Definition listen_update_dns (need_update : bool) c : VpnError * VpnClient :=
  if need_update then
    let c := call_tunnel T_update_dns_handler_parameters c in
    if update_dns_handler_parameters env then (no_error, c)
    else listen_fail (listen_error "Failed to initialize the DNS handler") c
  else (no_error, c).

Definition VpnClient_listen (config : VpnListenerConfig) c : VpnError * VpnClient :=
  let c := c <| c_client_listener := true |> in
  let config := if listener_timeout_ms config =? 0
                then config <| listener_timeout_ms := VPN_DEFAULT_TCP_TIMEOUT_MS |> else config in
  let c := c <| c_listener_config := config |> in
  let c := c_emit O_listener_init c in
  match listener_init env with
  | INIT_ADDR_IN_USE =>
      listen_fail (mkVpnError VPN_EC_ADDR_IN_USE (Some "Failed to initialize client listener: address in use")) c
  | INIT_FAILURE => listen_fail (listen_error "Failed to initialize client listener") c
  | INIT_SUCCESS =>
      let c := clean_up_buffer_files c in
      if client_state_is S_CONNECTED c then
        let c := call_tunnel T_on_exclusions_updated c in
        if (0 <? dns_upstreams_num (c_listener_config c)) && negb (c_dns_proxy_listener c) then
          let '(error, c) := start_dns_proxy_listener c in
          if negb (code error =? VPN_EC_NOERROR) then listen_fail error c
          else
            let '(started, c) := VpnClient_do_dns_upstream_health_check c in
            if negb started
            then listen_fail (error <| text := Some "Failed to start DNS upstream health check" |>) c
            else listen_update_dns false c
        else listen_update_dns true c
      else listen_update_dns true c
  end.

Definition VpnClient_finalize_disconnect c : VpnClient :=
  let c := dns_proxy_listener_deinit c in
  let c := if c_endpoint_upstream c
           then (c_emit O_endpoint_deinit c) <| c_endpoint_upstream := false |> else c in
  let c := if c_bypass_upstream c
           then (c_emit O_bypass_close_session c) <| c_bypass_session_opened := false |> else c in
  let c := if c_client_listener c
           then (c_emit O_listener_deinit c) <| c_client_listener := false |> else c in
  let c := if c_tunnel c then (c_emit (O_tunnel T_deinit) c) <| c_tunnel := false |> else c in
  let c := c <| c_endpoint_connector := None |> in
  let c := clean_up_buffer_files c in
  let c := c <| c_deferred_tasks := [] |> in
  reset S_DISCONNECTED c.

Definition VpnClient_deinit c : VpnClient :=
  let c := c <| c_quic_connector := false |> <| c_tcp_socket := false |> in
  let c := dump_session_cache c in
  if c_bypass_upstream c then (c_emit O_bypass_deinit c) <| c_bypass_upstream := false |> else c.

(** The packets are dropped when there is no listener. *)
Definition VpnClient_process_client_packets c : VpnClient :=
  if c_client_listener c then c_emit O_listener_process_packets c else c.

(** The exclusion list itself belongs to the domain filter ([DomainFilter.v]). *)
Definition VpnClient_update_exclusions (mode : VpnMode) c : VpnClient :=
  let c := c <| c_exclusions_mode := mode |> in
  if client_state_is S_CONNECTED c then call_tunnel T_on_exclusions_updated c else c.

(** [VpnSettings]: what [init] reads of it. *)
Record ClientSettings := mkClientSettings {
  killswitch_enabled : bool;
  set_tcp_early_ack : bool;
  set_preresolve_enabled : bool;
  set_preresolve_max_queries : Z;
  set_scannable_ports : option string;
  set_mode : VpnMode;
  set_tmp_files_base_path : option string;
  set_conn_memory_buffer_threshold : Z;
  set_max_conn_buffer_file_size : Z;
  set_ssl_sessions_storage_path : option string;
}.

Definition default_to (d x : Z) : Z := if x =? 0 then d else x.

(** [back()] and [pop_back()]; they need a non-empty string. *)
Fixpoint strip_slash (path : string) : string :=
  match path with
  | EmptyString => EmptyString
  | String ch EmptyString => if Ascii.eqb ch (Ascii.ascii_of_nat 47) then EmptyString else path
  | String ch rest => String ch (strip_slash rest)
  end.

Section Init.
Context (split_by_any_of : string -> string -> list string).
Context (to_integer : string -> option Z).

Definition parse_ports_or_default (ports : option string) : option (list PortRange) :=
  let parse := parse_scannable_ports split_by_any_of to_integer in
  match parse (default VPN_DEFAULT_EXCLUSIONS_SCANNABLE_PORTS ports) with
  | Some x => Some x
  | None => parse VPN_DEFAULT_EXCLUSIONS_SCANNABLE_PORTS
  end.

Definition init_tmp_files (st : ClientSettings) c : VpnClient :=
  match set_tmp_files_base_path st with
  | None => c
  | Some path =>
      let c := match path with EmptyString => c_fault "back() of an empty string" c | _ => c end in
      c <| c_tmp_files_base_path := Some (strip_slash path) |>
        <| c_conn_memory_buffer_threshold :=
             default_to VPN_DEFAULT_CONN_MEMORY_BUFFER_THRESHOLD (set_conn_memory_buffer_threshold st) |>
        <| c_max_conn_buffer_file_size :=
             default_to VPN_DEFAULT_MAX_CONN_BUFFER_FILE_SIZE (set_max_conn_buffer_file_size st) |>
  end.

Definition VpnClient_init (st : ClientSettings) c : VpnError * VpnClient :=
  let c := c <| c_kill_switch_on := killswitch_enabled st |>
             <| c_exclusions_tcp_early_ack_enabled := set_tcp_early_ack st |>
             <| c_exclusions_preresolve_enabled := set_preresolve_enabled st |>
             <| c_exclusions_preresolve_max_queries :=
                  default_to VPN_DEFAULT_EXCLUSIONS_PRERESOLVE_MAX_QUERIES (set_preresolve_max_queries st) |> in
  let c := match parse_ports_or_default (set_scannable_ports st) with
           | Some ports => c <| c_exclusions_scannable_ports := ports |>
           | None => c_fault "bad_optional_access" c
           end in
  let c := VpnClient_update_exclusions (set_mode st) c in
  let c := init_tmp_files st c in
  let c := match set_ssl_sessions_storage_path st with
           | Some path => (c_emit O_load_session_cache c) <| c_ssl_session_storage_path := Some path |>
           | None => c
           end in
  if negb (tunnel_init env)
  then (mkVpnError VPN_EC_INVALID_SETTINGS (Some "Failed to initialize connection tunnelling module"), c)
  else
    let c := c <| c_bypass_upstream := true |> in
    if negb (bypass_init env)
    then (mkVpnError VPN_EC_INVALID_SETTINGS
            (Some "Failed to initialize an upstream for bypassed connections"), c)
    else (no_error, c).
End Init.

Definition VpnClient_reset_connections (u : Z) c : VpnClient :=
  if client_state_is S_CONNECTED c then call_tunnel (T_reset_connections u) c else c.

Definition VpnClient_complete_connect_request (id : Z) (a : option VpnConnectAction) c : VpnClient :=
  call_tunnel (T_complete_connect_request id a) c.

Definition VpnClient_reject_connect_request (id : Z) c : VpnClient :=
  if c_client_listener c then c_emit (O_listener_reject id) c
  else c_fault "client_listener is null" c.

Definition VpnClient_reset_connection (id : Z) c : VpnClient := call_tunnel (T_reset_connection id) c.

(** The caller is expected to check the state; the statistics are the upstream's. *)
Definition VpnClient_get_connection_stats c : VpnClient :=
  if client_state_is S_CONNECTED c
  then (if c_endpoint_upstream c then c else c_fault "endpoint_upstream is null" c)
  else c_fault "not connected" c.

Definition VpnClient_drop_non_app_initiated_dns_queries c : bool :=
  c_kill_switch_on c && negb (client_state_is S_CONNECTED c).

Definition VpnClient_may_send_icmp_request c : bool := client_state_is S_CONNECTED c.

Definition VpnClient_update_bypass_ip_availability c : VpnClient :=
  if c_bypass_upstream c then c_emit (O_bypass_ip_availability (reachable_v4 env) (reachable_v6 env)) c
  else c_fault "bypass_upstream is null" c.

Definition VpnClient_on_network_change c : VpnClient :=
  if c_tunnel c then call_tunnel T_on_network_change c else c.

(** [handle_sleep] and [handle_wake] are the same switch on two sets of calls. *)
Definition sleep_wake (to_connector to_endpoint : ClientOut) (to_tunnel : TunnelCall) c : VpnClient :=
  if client_state_is S_CONNECTING c && negb (c_endpoint_upstream c) then
    match c_endpoint_connector c with
    | Some _ => c_emit to_connector c
    | None => c
    end
  else if client_state_is S_CONNECTING c || client_state_is S_CONNECTED c
  then call_tunnel to_tunnel (call_endpoint to_endpoint c)
  else c.

Definition VpnClient_handle_sleep c : VpnClient :=
  sleep_wake O_connector_handle_sleep O_endpoint_handle_sleep T_handle_sleep c.

Definition VpnClient_handle_wake c : VpnClient :=
  sleep_wake O_connector_handle_wake O_endpoint_handle_wake T_handle_wake c.

(** ** Callbacks *)

(** [endpoint_connector_handler]; [inl] is the upstream of a successful result. *)
Definition endpoint_connector_handler (result : unit + VpnError) c : VpnClient :=
  let c := c <| c_pending_error := None |> in
  let c := match result with
           | inr e => c <| c_pending_error := Some e |>
           | inl _ =>
               let c := c <| c_endpoint_upstream := true |> in
               if (0 <? dns_upstreams_num (c_listener_config c)) && negb (c_dns_proxy_listener c) then
                 let '(error, c) := start_dns_proxy_listener c in
                 if negb (code error =? VPN_EC_NOERROR) then c <| c_pending_error := Some error |> else c
               else c
           end in
  c <| c_deferred_tasks := c_deferred_tasks c ++ [DT_connector_finalizer] |>.

Definition endpoint_connector_finalizer c : VpnClient :=
  let c := c <| c_endpoint_connector := None |> in
  match c_pending_error c with
  | Some _ => client_transition E_SESSION_CLOSED CD_null c
  | None =>
      let c := call_tunnel (T_upstream_handler false SERVER_EVENT_SESSION_OPENED) c in
      let c := client_transition E_SESSION_OPENED CD_null c in
      if c_client_listener c then
        let c := call_tunnel T_on_exclusions_updated c in
        if c_dns_proxy_listener c then
          let '(started, c) := VpnClient_do_dns_upstream_health_check c in
          if started then c else c_raise EVENT_DNS_UPSTREAM_UNAVAILABLE c
        else c
      else c
  end.

Definition is_session_end (what : ServerEvent) : bool :=
  match what with
  | SERVER_EVENT_SESSION_CLOSED => true
  | SERVER_EVENT_ERROR id _ => id =? NON_ID
  | _ => false
  end.

Definition vpn_upstream_handler (what : ServerEvent) c : VpnClient :=
  let c := match c_endpoint_connector c with
           | None => c
           | Some _ => c_fault "endpoint_connector is not null" c
           end in
  let is_disconnected := is_session_end what in
  let c := if is_disconnected then call_tunnel T_on_before_endpoint_disconnect c else c in
  let c := call_tunnel (T_upstream_handler false what) c in
  let c := match what with
           | SERVER_EVENT_SESSION_OPENED => c_fault "session opened twice" c
           | SERVER_EVENT_SESSION_CLOSED => client_transition E_SESSION_CLOSED CD_null c
           | SERVER_EVENT_HEALTH_CHECK_ERROR e => client_transition E_HEALTH_CHECK_ERROR (CD_error e) c
           | SERVER_EVENT_ERROR id e =>
               if negb (id =? NON_ID) then c else client_transition E_SESSION_ERROR (CD_error e) c
           | _ => c
           end in
  if is_disconnected then call_tunnel T_on_after_endpoint_disconnect c else c.

Definition direct_upstream_handler (what : ServerEvent) c : VpnClient :=
  let c := match what with
           | SERVER_EVENT_SESSION_OPENED => c <| c_bypass_session_opened := true |>
           | SERVER_EVENT_SESSION_CLOSED => c <| c_bypass_session_opened := false |>
           | _ => c
           end in
  call_tunnel (T_upstream_handler true what) c.

Definition dns_resolver_handler (success : bool) c : VpnClient :=
  let c := c <| c_dns_health_check := false |> in
  if success then c
  else if negb (client_state_is S_CONNECTED c) then c
  else if c_in_disconnect c then c
  else c_raise EVENT_DNS_UPSTREAM_UNAVAILABLE c.

(** Running a deferred task; [release_deferred_task] takes it out of the set. *)
Definition release_deferred_task (t : DeferredTask) c : VpnClient :=
  c <| c_deferred_tasks := remove_first t (c_deferred_tasks c) |>.

Definition run_deferred_task (t : DeferredTask) c : VpnClient :=
  let c := release_deferred_task t c in
  match t with
  | DT_connector_finalizer => endpoint_connector_finalizer c
  | DT_health_check =>
      if client_state_is S_CONNECTED c then call_endpoint O_endpoint_do_health_check c else c
  | DT_deferred_disconnect => client_transition E_DEFERRED_DISCONNECT CD_null c
  end.

(** ** Everything that can happen to the client between [init] and
    [finalize_disconnect]: calls of the manager, callbacks, tasks. *)
Inductive ClientInput :=
  | CI_connect (config : EndpointConnectionConfig) (timeout : option Z)
  | CI_listen (config : VpnListenerConfig)
  | CI_disconnect
  | CI_do_health_check
  | CI_process_packets
  | CI_update_exclusions (mode : VpnMode)
  | CI_reset_connections (uid : Z)
  | CI_complete_request (id : Z) (action : option VpnConnectAction)
  | CI_reject_request (id : Z)
  | CI_reset_connection (id : Z)
  | CI_bypass_availability
  | CI_network_change
  | CI_sleep
  | CI_wake
  | CI_connector_result (result : unit + VpnError)
  | CI_upstream_event (what : ServerEvent)
  | CI_bypass_event (what : ServerEvent)
  | CI_dns_result (success : bool)
  | CI_run_task (t : DeferredTask).

Definition client_step (i : ClientInput) c : VpnClient :=
  match i with
  | CI_connect config timeout => snd (VpnClient_connect config timeout c)
  | CI_listen config => snd (VpnClient_listen config c)
  | CI_disconnect => VpnClient_disconnect c
  | CI_do_health_check => VpnClient_do_health_check c
  | CI_process_packets => VpnClient_process_client_packets c
  | CI_update_exclusions mode => VpnClient_update_exclusions mode c
  | CI_reset_connections u => VpnClient_reset_connections u c
  | CI_complete_request id a => VpnClient_complete_connect_request id a c
  | CI_reject_request id => VpnClient_reject_connect_request id c
  | CI_reset_connection id => VpnClient_reset_connection id c
  | CI_bypass_availability => VpnClient_update_bypass_ip_availability c
  | CI_network_change => VpnClient_on_network_change c
  | CI_sleep => VpnClient_handle_sleep c
  | CI_wake => VpnClient_handle_wake c
  | CI_connector_result r => endpoint_connector_handler r c
  | CI_upstream_event what => vpn_upstream_handler what c
  | CI_bypass_event what => direct_upstream_handler what c
  | CI_dns_result ok => dns_resolver_handler ok c
  | CI_run_task t => run_deferred_task t c
  end.
End Client.

(** The object as constructed, before [init]. *)
Definition client_new : VpnClient := {|
  c_fsm := mkFsmCell S_DISCONNECTED false;
  c_tunnel := true;
  c_listener_config := mkVpnListenerConfig 0 0;
  c_upstream_config := None;
  c_kill_switch_on := false;
  c_endpoint_upstream := false;
  c_bypass_upstream := false;
  c_client_listener := false;
  c_dns_proxy_listener := false;
  c_dns_health_check := false;
  c_deferred_tasks := [];
  c_endpoint_connector := None;
  c_tmp_files_base_path := None;
  c_ssl_session_storage_path := None;
  c_pending_error := None;
  c_bypass_session_opened := false;
  c_in_disconnect := false;
  c_exclusions_mode := VPN_MODE_GENERAL;
  c_exclusions_tcp_early_ack_enabled := false;
  c_exclusions_preresolve_enabled := false;
  c_exclusions_preresolve_max_queries := 1;
  c_exclusions_scannable_ports := [];
  c_conn_memory_buffer_threshold := 0;
  c_max_conn_buffer_file_size := 0;
  c_quic_connector := false;
  c_tcp_socket := false;
  c_out := [];
  c_faults := [];
|}.
