(* ===== verification/ClientFrame.v ===== *)
(** * What client operations leave alone

    The manager relies on three things that no operation of the client touches,
    except the three that exist for it: the kill switch, the listener once it is
    there, and the log of the decisions on connection requests.  An assertion that
    failed stays recorded. *)

From S2P Require Import Prelude Fsm VpnTypes PortRanges VpnClient.

(** A decision on a connection request as the tunnel or the listener sees it. *)
Inductive RequestOut :=
  | RO_complete (id : Z) (action : option VpnConnectAction)
  | RO_reject (id : Z)
  | RO_reset (id : Z).

Definition request_out (o : ClientOut) : option RequestOut :=
  match o with
  | O_tunnel (T_complete_connect_request id a) => Some (RO_complete id a)
  | O_tunnel (T_reset_connection id) => Some (RO_reset id)
  | O_listener_reject id => Some (RO_reject id)
  | _ => None
  end.

Definition request_log (c : VpnClient) : list RequestOut := omap request_out (c_out c).

Definition frame (c c' : VpnClient) : Prop :=
  c_kill_switch_on c' = c_kill_switch_on c /\
  (c_client_listener c = true -> c_client_listener c' = true) /\
  exists delta, c_out c' = c_out c ++ delta /\ omap request_out delta = [] /\ c_faults c `prefix_of` c_faults c'.

#[export] Instance frame_preorder : PreOrder frame.
Proof.
  split.
  - intros c. split_and!; [done..|]. exists []. by rewrite app_nil_r.
  - intros c1 c2 c3 (H1 & H2 & d1 & H3 & N1 & F1) (H4 & H5 & d2 & H6 & N2 & F2). split_and!; [congruence|auto|].
    exists (d1 ++ d2). rewrite H6, H3, omap_app, N1, N2. split_and!; [by rewrite app_assoc|done|by etrans].
Qed.

Lemma frame_request_log c c' : frame c c' -> request_log c' = request_log c.
Proof.
  intros (_ & _ & d & Hd & Hn & _). unfold request_log. rewrite Hd, omap_app, Hn. apply app_nil_r.
Qed.

(** Steps that only change other members. *)
Lemma frame_eq c c' :
  c_kill_switch_on c' = c_kill_switch_on c -> c_client_listener c' = c_client_listener c ->
  c_out c' = c_out c -> c_faults c' = c_faults c -> frame c c'.
Proof. intros H1 H2 H3 H4. split_and!; [done|congruence|]. exists []. by rewrite app_nil_r, H4. Qed.

Lemma frame_faults c c' : frame c c' -> c_faults c `prefix_of` c_faults c'.
Proof. by intros (_ & _ & d & _ & _ & Hf). Qed.

Lemma frame_emit o c : request_out o = None -> frame c (c_emit o c).
Proof. intros Ho. split_and!; [done..|]. exists [o]. cbn. by rewrite Ho. Qed.

Lemma frame_fault s c : frame c (c_fault s c).
Proof. split_and!; [done..|]. exists []. rewrite app_nil_r. split_and!; [done..|]. by exists [s]. Qed.

Lemma frame_call_tunnel t c : request_out (O_tunnel t) = None -> frame c (call_tunnel t c).
Proof. intros. unfold call_tunnel. destruct (c_tunnel c); [by apply frame_emit|apply frame_fault]. Qed.

Lemma frame_call_endpoint o c : request_out o = None -> frame c (call_endpoint o c).
Proof. intros. unfold call_endpoint. destruct (c_endpoint_upstream c); [by apply frame_emit|apply frame_fault]. Qed.

Create HintDb frame discriminated.
#[export] Hint Resolve frame_emit frame_fault frame_call_tunnel frame_call_endpoint : frame.
#[export] Hint Extern 1 (request_out _ = None) => reflexivity : frame.
#[export] Hint Extern 2 (frame _ _) => (apply frame_eq; reflexivity) : frame.

(** Go through the first output of an operation. *)
Ltac via_emit :=
  match goal with
  | |- frame ?c ?g => match g with context [c_emit ?o c] => trans (c_emit o c); [by apply frame_emit|] end
  end.

(** Go back before the last assignment. *)
Ltac before_set :=
  match goal with
  | |- frame _ (assign _ ?x) => trans x; [|by apply frame_eq]
  | |- frame _ (set_recursive _ ?x) => trans x; [|by apply frame_eq]
  end.

Section Frame.
Context (env : ClientEnv).
Implicit Types (c : VpnClient).

Lemma frame_if (b : bool) c c1 c2 : frame c c1 -> frame c c2 -> frame c (if b then c1 else c2).
Proof. by destruct b. Qed.

Lemma frame_keep_first_error data c : frame c (keep_first_error data c).
Proof. unfold keep_first_error. repeat case_match; by apply frame_eq. Qed.

Lemma frame_dns_deinit c : frame c (dns_proxy_listener_deinit c).
Proof.
  unfold dns_proxy_listener_deinit. destruct (c_dns_proxy_listener c); [|done].
  trans (c_emit O_dns_listener_deinit c); auto with frame.
Qed.

Lemma frame_run_disconnect data c : frame c (run_disconnect data c).
Proof.
  unfold run_disconnect.
  set (c1 := if c_dns_proxy_listener c then _ else c).
  trans c1; [apply frame_if; auto with frame|].
  set (c2 := call_tunnel _ c1). trans c2; [by apply frame_call_tunnel|].
  trans (keep_first_error data c2); [apply frame_keep_first_error|]. generalize (keep_first_error data c2). intros c3.
  set (c4 := c3 <| c_deferred_tasks := [] |>). trans c4; [by apply frame_eq|].
  set (c5 := match c_endpoint_connector c4 with Some _ => _ | None => c4 end).
  trans c5; [|clearbody c5].
  { unfold c5. destruct (c_endpoint_connector c4); [|done]. trans (c_emit O_connector_disconnect c4); auto with frame. }
  set (c6 := if c_endpoint_upstream c5 then _ else c5). trans c6; [apply frame_if; auto with frame|].
  set (c7 := call_tunnel _ c6). trans c7; [by apply frame_call_tunnel|].
  trans (dns_proxy_listener_deinit c7); [apply frame_dns_deinit|by apply frame_eq].
Qed.

Lemma frame_run_action a data c : frame c (client_run_action env a data c).
Proof.
  destruct a; cbn [client_run_action].
  - unfold run_connect. destruct (c_endpoint_connector c); [|apply frame_fault].
    via_emit. apply frame_if; by apply frame_eq.
  - by apply frame_emit.
  - unfold raise_disconnected. destruct (c_pending_error c); [|by apply frame_emit].
    unfold c_raise. via_emit. by apply frame_eq.
  - apply frame_run_disconnect.
  - etrans; [apply frame_keep_first_error|]. by apply frame_eq.
Qed.

Lemma frame_transition ev data c : frame c (client_transition env ev data c).
Proof.
  unfold client_transition, perform_transition.
  destruct (m_recursive (get_fsm c)); [apply frame_fault|].
  before_set. trans (set_recursive true c); [by apply frame_eq|].
  rewrite run_table_first_match. destruct (first_match _ _ _ _ _) as [e|]; [|done].
  unfold take_entry, run_opt. generalize (set_recursive true c). intros c1.
  trans (match before_transition e with Some f => client_run_action env f data c1 | None => c1 end).
  { destruct (before_transition e); [apply frame_run_action|done]. }
  generalize (match before_transition e with Some f => client_run_action env f data c1 | None => c1 end). intros c2.
  trans (if negb (target_state e =? SAME_TARGET_STATE) then set_state (target_state e) c2 else c2).
  { apply frame_if; by apply frame_eq. }
  generalize (if negb (target_state e =? SAME_TARGET_STATE) then set_state (target_state e) c2 else c2). intros c3.
  trans (set_recursive false c3); [by apply frame_eq|].
  destruct (after_transition e); [apply frame_run_action|done].
Qed.

Lemma frame_disconnect c : frame c (VpnClient_disconnect env c).
Proof.
  unfold VpnClient_disconnect. before_set.
  etrans; [|apply frame_transition]. by apply frame_eq.
Qed.

Lemma frame_start_dns c : frame c (snd (start_dns_proxy_listener env c)).
Proof.
  unfold start_dns_proxy_listener. destruct (rand_bytes_ok env); [|done]. cbn [negb].
  etrans; [apply (frame_emit O_dns_listener_init); done|].
  generalize (c_emit O_dns_listener_init c). intros c1.
  set (c2 := c1 <| c_dns_proxy_listener := true |>). trans c2; [by apply frame_eq|].
  destruct (dns_listener_init env); [|done..].
  etrans; [apply (frame_call_tunnel T_update_dns_handler_parameters); done|].
  by destruct (update_dns_handler_parameters env).
Qed.

Lemma frame_dns_check c : frame c (snd (VpnClient_do_dns_upstream_health_check env c)).
Proof.
  unfold VpnClient_do_dns_upstream_health_check.
  etrans; [apply (frame_call_tunnel T_dns_resolve_health_check); done|]. by apply frame_eq.
Qed.

Lemma frame_make_connector config c : frame c (make_connector config c).
Proof.
  unfold make_connector. set (c1 := match make_upstream (ecc_main_protocol config) with Some _ => c | None => _ end).
  trans c1; [unfold c1; destruct (make_upstream _); auto with frame|]. clearbody c1.
  destruct (ecc_fallback config) as [p|]; [|by apply frame_eq]. before_set.
  destruct (make_upstream p); auto with frame.
Qed.

Lemma frame_connect config timeout c : frame c (snd (VpnClient_connect env config timeout c)).
Proof.
  unfold VpnClient_connect. destruct (negb _); [done|].
  set (c1 := make_connector config _). trans c1.
  { unfold c1. etrans; [|apply frame_make_connector]. by apply frame_eq. }
  unfold client_connect. trans (client_transition env E_RUN_CONNECT (CD_timeout timeout) c1); [apply frame_transition|].
  generalize (client_transition env E_RUN_CONNECT (CD_timeout timeout) c1). intros c2.
  set (c3 := c2 <| c_pending_error := None |>). trans c3; [by apply frame_eq|].
  destruct (negb _); [apply frame_disconnect|].
  set (c4 := if c_bypass_upstream c3 then _ else _). trans c4; [apply frame_if; auto with frame|].
  destruct (negb _); [apply frame_disconnect|done].
Qed.

Lemma frame_listen_update_dns b c : frame c (snd (listen_update_dns env b c)).
Proof.
  unfold listen_update_dns. destruct b; [|done].
  etrans; [apply (frame_call_tunnel T_update_dns_handler_parameters); done|].
  destruct (update_dns_handler_parameters env); [done|apply frame_transition].
Qed.

Lemma frame_clean_up c : frame c (clean_up_buffer_files c).
Proof. unfold clean_up_buffer_files. destruct (c_tmp_files_base_path c); [by apply frame_emit|done]. Qed.

Lemma frame_listen config c : frame c (snd (VpnClient_listen env config c)).
Proof.
  unfold VpnClient_listen.
  set (c1 := c_emit O_listener_init _). trans c1.
  { etrans; [|by apply frame_emit]. split_and!; [done..|]. exists []. by rewrite app_nil_r. }
  destruct (listener_init env); [|apply frame_transition..].
  trans (clean_up_buffer_files c1); [apply frame_clean_up|]. generalize (clean_up_buffer_files c1). intros c2.
  destruct (client_state_is S_CONNECTED c2); [|apply frame_listen_update_dns].
  set (c3 := call_tunnel _ c2). trans c3; [by apply frame_call_tunnel|].
  destruct (_ && _); [|apply frame_listen_update_dns].
  pose proof (frame_start_dns c3) as H3. destruct (start_dns_proxy_listener env c3) as [error c4].
  trans c4; [done|]. destruct (negb _); [apply frame_transition|].
  pose proof (frame_dns_check c4) as H4. destruct (VpnClient_do_dns_upstream_health_check env c4) as [started c5].
  trans c5; [done|]. destruct (negb started); [apply frame_transition|done].
Qed.

Lemma frame_connector_result r c : frame c (endpoint_connector_handler env r c).
Proof.
  unfold endpoint_connector_handler. before_set.
  set (c0 := c <| c_pending_error := None |>). trans c0; [by apply frame_eq|].
  destruct r as [[]|e]; [|by apply frame_eq].
  set (c1 := c0 <| c_endpoint_upstream := true |>). trans c1; [by apply frame_eq|].
  destruct (_ && _); [|done]. pose proof (frame_start_dns c1) as H.
  destruct (start_dns_proxy_listener env c1) as [error c2]. trans c2; [done|].
  apply frame_if; by apply frame_eq.
Qed.

Lemma frame_after_assert what c c0 :
  c0 = match c_endpoint_connector c with None => c | Some _ => c_fault "endpoint_connector is not null" c end ->
  frame c0 (vpn_upstream_handler env what c).
Proof.
  intros Hc0. unfold vpn_upstream_handler. rewrite <- Hc0. clear Hc0.
  set (c1 := if is_session_end what then _ else c0). trans c1; [apply frame_if; auto with frame|].
  set (c2 := call_tunnel _ c1). trans c2; [by apply frame_call_tunnel|].
  set (c3 := match what with SERVER_EVENT_SESSION_OPENED => _ | _ => _ end).
  trans c3; [|apply frame_if; auto with frame].
  unfold c3. destruct what; auto using frame_transition with frame. by destruct (negb _); [|apply frame_transition].
Qed.

Lemma frame_upstream_event what c : frame c (vpn_upstream_handler env what c).
Proof.
  etrans; [|by apply frame_after_assert]. destruct (c_endpoint_connector c); auto with frame.
Qed.

Lemma frame_run_task t c : frame c (run_deferred_task env t c).
Proof.
  unfold run_deferred_task. etrans; [by apply (frame_eq c (release_deferred_task t c))|].
  generalize (release_deferred_task t c). intros c1. destruct t.
  - unfold endpoint_connector_finalizer.
    set (c2 := c1 <| c_endpoint_connector := None |>). trans c2; [by apply frame_eq|].
    destruct (c_pending_error c2); [apply frame_transition|].
    set (c3 := call_tunnel _ c2). trans c3; [by apply frame_call_tunnel|].
    etrans; [apply (frame_transition E_SESSION_OPENED CD_null)|].
    generalize (client_transition env E_SESSION_OPENED CD_null c3). intros c4.
    destruct (c_client_listener c4); [|done].
    set (c5 := call_tunnel _ c4). trans c5; [by apply frame_call_tunnel|].
    destruct (c_dns_proxy_listener c5); [|done]. pose proof (frame_dns_check c5) as H.
    destruct (VpnClient_do_dns_upstream_health_check env c5) as [started c6]. trans c6; [done|].
    destruct started; [done|by apply frame_emit].
  - destruct (client_state_is _ _); [by apply frame_call_endpoint|done].
  - apply frame_transition.
Qed.

Lemma frame_sleep_wake a b t c :
  request_out a = None -> request_out b = None -> request_out (O_tunnel t) = None ->
  frame c (sleep_wake a b t c).
Proof.
  intros Ha Hb Ht. unfold sleep_wake. destruct (_ && _).
  - destruct (c_endpoint_connector c); [by apply frame_emit|done].
  - destruct (_ || _); [|done]. trans (call_endpoint b c); [by apply frame_call_endpoint|by apply frame_call_tunnel].
Qed.

(** The inputs that are not decisions on a request. *)
Definition not_request (i : ClientInput) : bool :=
  match i with
  | CI_complete_request _ _ | CI_reject_request _ | CI_reset_connection _ => false
  | _ => true
  end.

Lemma client_step_frame i c : not_request i = true -> frame c (client_step env i c).
Proof.
  intros Hi. destruct i; try discriminate Hi; cbn [client_step].
  - apply frame_connect.
  - apply frame_listen.
  - apply frame_disconnect.
  - by apply frame_eq.
  - unfold VpnClient_process_client_packets. destruct (c_client_listener c) eqn:?; [by apply frame_emit|done].
  - unfold VpnClient_update_exclusions. trans (c <| c_exclusions_mode := mode |>); [by apply frame_eq|].
    apply frame_if; auto with frame.
  - unfold VpnClient_reset_connections. apply frame_if; auto with frame.
  - unfold VpnClient_update_bypass_ip_availability. apply frame_if; auto with frame.
  - unfold VpnClient_on_network_change. destruct (c_tunnel c) eqn:?; auto with frame.
  - by apply frame_sleep_wake.
  - by apply frame_sleep_wake.
  - apply frame_connector_result.
  - apply frame_upstream_event.
  - unfold direct_upstream_handler.
    etrans; [|by apply frame_call_tunnel]. destruct what; by apply frame_eq.
  - unfold dns_resolver_handler. etrans; [by apply (frame_eq c (c <| c_dns_health_check := false |>))|].
    repeat case_match; done || by apply frame_emit.
  - apply frame_run_task.
Qed.

Lemma call_tunnel_faults t c : c_faults c `prefix_of` c_faults (call_tunnel t c).
Proof. unfold call_tunnel. destruct (c_tunnel c); [done|]. by exists ["tunnel is null"]. Qed.

(** An assertion that failed stays recorded, whatever comes. *)
Lemma client_step_faults i c : c_faults c `prefix_of` c_faults (client_step env i c).
Proof.
  destruct (not_request i) eqn:Hi; [by apply frame_faults, client_step_frame|].
  destruct i; try discriminate Hi; cbn [client_step].
  - apply call_tunnel_faults.
  - unfold VpnClient_reject_connect_request. destruct (c_client_listener c); [done|]. by eexists.
  - apply call_tunnel_faults.
Qed.
End Frame.

(** ** The assertions of [vpn_upstream_handler] *)

(** That there is no connector, and that the session is not opened again. *)
Definition upstream_asserted (c : VpnClient) : Prop :=
  "endpoint_connector is not null" ∈ c_faults c \/ "session opened twice" ∈ c_faults c.

Lemma asserted_grows c c' : c_faults c `prefix_of` c_faults c' -> upstream_asserted c -> upstream_asserted c'.
Proof. intros [l Hl]. unfold upstream_asserted. rewrite Hl, !elem_of_app. tauto. Qed.

Lemma connector_asserted env what c :
  c_endpoint_connector c <> None -> upstream_asserted (vpn_upstream_handler env what c).
Proof.
  intros Hc. eapply asserted_grows; [by eapply frame_faults, frame_after_assert|].
  destruct (c_endpoint_connector c); [|done]. left. cbn. apply elem_of_app. right. by left.
Qed.

Lemma opening_asserted env c : upstream_asserted (vpn_upstream_handler env SERVER_EVENT_SESSION_OPENED c).
Proof. right. cbn. apply elem_of_app. right. by left. Qed.
