(* ===== verification/VpnClientProofs.v ===== *)
(** * The VPN client: invariant and properties

    Proofs about [VpnClient.v].  The invariant [client_wf] relates the state of
    the machine to the connector, the deferred tasks, the upstream and the
    pending error; every input that respects [client_input_ok] preserves it and
    violates no assertion of the code, and each step either is silent or raises
    exactly one session event that matches the state change.  An upstream event
    that can come and is not [client_input_ok] is one on which an assertion of
    [vpn_upstream_handler] fails; such runs exist. *)

From S2P Require Import Prelude Fsm VpnTypes PortRanges VpnClient ClientFrame.

(** ** Invariant *)

(** What can come.  The connector reports once, while it exists, as
    [ConnectorLink.v] proves of both connectors; only an upstream that was handed
    over raises events, of every kind and at any time; only scheduled tasks run; the
    manager asks for concrete protocols and rejects requests of an existing
    listener, as [VpnInvariant.v] proves. *)
Definition client_input_may (i : ClientInput) (c : VpnClient) : Prop :=
  match i with
  | CI_connect config _ =>
      ecc_main_protocol config <> VPN_UP_AUTO /\ ecc_fallback config <> Some VPN_UP_AUTO
  | CI_reject_request _ => c_client_listener c = true
  | CI_connector_result _ =>
      c_endpoint_connector c <> None /\ occ DT_connector_finalizer (c_deferred_tasks c) = 0%nat
  | CI_upstream_event _ => c_endpoint_upstream c = true
  | CI_run_task t => t ∈ c_deferred_tasks c
  | _ => True
  end.

(** What can come and meets the two assertions of [vpn_upstream_handler]: that the
    connector is gone, and that the session is not opened again.  Nothing makes the
    upstream wait for the connector's finalizer, so this is less than what can come
    ([client_input_split], [session_ends_before_finalizer]). *)
Definition client_input_ok (i : ClientInput) (c : VpnClient) : Prop :=
  match i with
  | CI_connect config _ =>
      ecc_main_protocol config <> VPN_UP_AUTO /\ ecc_fallback config <> Some VPN_UP_AUTO
  | CI_reject_request _ => c_client_listener c = true
  | CI_connector_result _ =>
      c_endpoint_connector c <> None /\ occ DT_connector_finalizer (c_deferred_tasks c) = 0%nat
  | CI_upstream_event what =>
      c_endpoint_connector c = None /\ c_endpoint_upstream c = true /\
      what <> SERVER_EVENT_SESSION_OPENED
  | CI_run_task t => t ∈ c_deferred_tasks c
  | _ => True
  end.

Lemma client_input_split env i c :
  client_input_may i c -> client_input_ok i c \/ upstream_asserted (client_step env i c).
Proof.
  destruct i; try (by left). cbn. intros Hu.
  destruct (c_endpoint_connector c) eqn:Hc; [right; by apply connector_asserted; rewrite Hc|].
  destruct what; try (by left); right. apply opening_asserted.
Qed.

Lemma client_input_ok_may i c : client_input_ok i c -> client_input_may i c.
Proof. destruct i; try done. by intros (_ & ? & _). Qed.

(** The members the connection procedure depends on, and the session events
    raised so far.  Calls on the listeners, the tunnel and the upstreams leave
    them alone, which is what the [core_*] equations say. *)
Record ClientCore := mkCore {
  k_fsm : FsmCell;
  k_in_disconnect : bool;
  k_tunnel : bool;
  k_bypass : bool;
  k_connector : option ConnectorKind;
  k_tasks : list DeferredTask;
  k_upstream : bool;
  k_pending : option VpnError;
  k_faults : list string;
  k_events : list ClientEvent;
}.
#[export] Instance eta_ClientCore : Eta ClientCore := fun r =>
  mkCore (k_fsm r) (k_in_disconnect r) (k_tunnel r) (k_bypass r) (k_connector r) (k_tasks r)
    (k_upstream r) (k_pending r) (k_faults r) (k_events r).

Definition session_event (o : ClientOut) : option ClientEvent :=
  match o with
  | O_event EVENT_DNS_UPSTREAM_UNAVAILABLE => None
  | O_event e => Some e
  | _ => None
  end.

Definition core (c : VpnClient) : ClientCore :=
  mkCore (c_fsm c) (c_in_disconnect c) (c_tunnel c) (c_bypass_upstream c) (c_endpoint_connector c)
    (c_deferred_tasks c) (c_endpoint_upstream c) (c_pending_error c) (c_faults c)
    (omap session_event (c_out c)).

(** What holds in each state of the machine. *)
Definition core_wf (k : ClientCore) : Prop :=
  let finalizers := occ DT_connector_finalizer (k_tasks k) in
  m_recursive (k_fsm k) = false /\ k_in_disconnect k = false /\
  k_tunnel k = true /\ k_bypass k = true /\
  match m_current_state (k_fsm k) with
  | 0 (* S_DISCONNECTED *) => k_connector k = None /\ finalizers = 0%nat
  | 1 (* S_CONNECTING *) =>
      k_connector k <> None /\
      ((finalizers = 0%nat /\ k_pending k = None) \/
       (finalizers = 1%nat /\ (k_pending k = None -> k_upstream k = true)))
  | 2 (* S_CONNECTED *) =>
      k_connector k = None /\ finalizers = 0%nat /\ k_upstream k = true /\ k_pending k = None
  | 3 (* S_DISCONNECTING *) =>
      k_connector k = None /\ finalizers = 0%nat /\ k_upstream k = true
  | _ => False
  end.

Definition client_wf (c : VpnClient) : Prop := core_wf (core c).

(** ** Frame equations *)

Section Frame.
Context (env : ClientEnv).
Implicit Types (c : VpnClient) (k : ClientCore).

Lemma core_emit o c :
  core (c_emit o c) =
  match session_event o with
  | Some e => (core c) <| k_events := k_events (core c) ++ [e] |>
  | None => core c
  end.
Proof.
  unfold core, c_emit, assign. cbn. rewrite omap_app. cbn.
  destruct (session_event o); cbn; [done|]. by rewrite app_nil_r.
Qed.

Lemma core_call_tunnel t c : k_tunnel (core c) = true -> core (call_tunnel t c) = core c.
Proof. unfold call_tunnel. cbn. intros ->. apply core_emit. Qed.

Lemma core_call_endpoint o c :
  k_upstream (core c) = true -> session_event o = None -> core (call_endpoint o c) = core c.
Proof. unfold call_endpoint. cbn. intros -> Ho. by rewrite core_emit, Ho. Qed.

Lemma core_dns_deinit c : core (dns_proxy_listener_deinit c) = core c.
Proof. unfold dns_proxy_listener_deinit. destruct (c_dns_proxy_listener c); [|done]. apply core_emit. Qed.

Definition pending_after (data : ClientData) (pending : option VpnError) : option VpnError :=
  match pending, as_error data with
  | None, Some e => if code e =? VPN_EC_NOERROR then None else Some e
  | p, _ => p
  end.

Lemma core_keep_first_error data c :
  core (keep_first_error data c) = (core c) <| k_pending := pending_after data (k_pending (core c)) |>.
Proof.
  unfold keep_first_error, pending_after. cbn.
  destruct (c_pending_error c) eqn:Hp, (as_error data); unfold assign; cbn; try (by rewrite <-Hp).
  destruct (code _ =? _); cbn; [by rewrite <-Hp|done].
Qed.

(** ** The state machine on the core *)

Definition core_raise (e : ClientEvent) k : ClientCore := k <| k_events := k_events k ++ [e] |>.

Definition action_core (a : ClientAction) (data : ClientData) k : ClientCore :=
  match a with
  | A_run_connect =>
      let e := connector_connect env (match data with CD_timeout t => t | _ => None end) in
      if code e =? VPN_EC_NOERROR then k else k <| k_pending := Some e |>
  | A_raise_connected => core_raise EVENT_CONNECTED k
  | A_raise_disconnected =>
      match k_pending k with
      | None => core_raise EVENT_DISCONNECTED k
      | Some e => (core_raise (EVENT_ERROR e) k) <| k_pending := None |>
      end
  | A_run_disconnect =>
      k <| k_pending := pending_after data (k_pending k) |> <| k_tasks := [] |> <| k_connector := None |>
  | A_submit_disconnect =>
      k <| k_pending := pending_after data (k_pending k) |>
        <| k_tasks := k_tasks k ++ [DT_deferred_disconnect] |>
  end.

Definition entry_core (e : FsmTransitionEntry Empty_set ClientAction) (data : ClientData) k : ClientCore :=
  let k := k <| k_fsm := mkFsmCell (m_current_state (k_fsm k)) true |> in
  let k := match before_transition e with Some a => action_core a data k | None => k end in
  let k := k <| k_fsm := mkFsmCell (target_state e) false |> in
  match after_transition e with Some a => action_core a data k | None => k end.

Lemma core_run_disconnect data c :
  k_tunnel (core c) = true ->
  core (run_disconnect data c) = action_core A_run_disconnect data (core c).
Proof.
  intros Ht. unfold run_disconnect.
  set (c1 := if c_dns_proxy_listener c then _ else c).
  assert (H1 : core c1 = core c).
  { unfold c1. destruct (c_dns_proxy_listener c); [|done]. by apply core_call_tunnel. }
  set (c2 := call_tunnel T_on_before_endpoint_disconnect c1).
  assert (H2 : core c2 = core c) by (unfold c2; rewrite core_call_tunnel; by rewrite H1).
  set (c3 := keep_first_error data c2).
  assert (H3 : core c3 = (core c) <| k_pending := pending_after data (k_pending (core c)) |>)
    by (unfold c3; rewrite core_keep_first_error; by rewrite H2).
  set (c4 := c3 <| c_deferred_tasks := [] |>).
  set (c5 := match c_endpoint_connector c4 with Some _ => _ | None => c4 end).
  assert (H5 : core c5 = action_core A_run_disconnect data (core c)).
  { trans ((core c3) <| k_tasks := [] |> <| k_connector := None |>); [|by rewrite H3].
    unfold c5. destruct (c_endpoint_connector c4) eqn:Hc; unfold core, assign, c_emit; cbn.
    - by rewrite omap_app, app_nil_r.
    - change (c_endpoint_connector c3 = None) in Hc. by rewrite Hc. }
  set (c6 := if c_endpoint_upstream c5 then _ else c5).
  assert (H6 : core c6 = core c5).
  { unfold c6. destruct (c_endpoint_upstream c5); [|done]. apply core_emit. }
  set (c7 := call_tunnel T_on_after_endpoint_disconnect c6).
  assert (H7 : core c7 = core c5) by (unfold c7; rewrite core_call_tunnel; by rewrite ?H6, ?H5).
  trans (core (dns_proxy_listener_deinit c7)); [done|]. by rewrite core_dns_deinit, H7.
Qed.

Lemma core_run_action a data c :
  k_tunnel (core c) = true -> (a = A_run_connect -> k_connector (core c) <> None) ->
  core (client_run_action env a data c) = action_core a data (core c).
Proof.
  intros Ht Hconn. destruct a; cbn [client_run_action].
  - unfold run_connect. cbn in Hconn. destruct (c_endpoint_connector c); [|by destruct Hconn].
    cbn. destruct (code _ =? _); [apply core_emit|].
    unfold core, assign, c_emit; cbn. by rewrite omap_app, app_nil_r.
  - apply core_emit.
  - unfold raise_disconnected. cbn. destruct (c_pending_error c); [|apply core_emit].
    unfold core, assign, c_raise, c_emit; cbn. by rewrite omap_app.
  - by apply core_run_disconnect.
  - unfold submit_disconnect.
    trans ((core (keep_first_error data c)) <| k_tasks := k_tasks (core (keep_first_error data c)) ++ [DT_deferred_disconnect] |>);
      [done|by rewrite core_keep_first_error].
Qed.

Lemma core_set_recursive b c :
  core (set_recursive b c) = (core c) <| k_fsm := mkFsmCell (m_current_state (k_fsm (core c))) b |>.
Proof. done. Qed.

Lemma action_core_tunnel a data k : k_tunnel (action_core a data k) = k_tunnel k.
Proof. destruct a; cbn; try case_match; done. Qed.

Lemma action_core_fsm a data k : k_fsm (action_core a data k) = k_fsm k.
Proof. destruct a; cbn; try case_match; done. Qed.

(** The entries that start the connector do so before the transition. *)
Definition entry_ok (e : FsmTransitionEntry Empty_set ClientAction) k : Prop :=
  (before_transition e = Some A_run_connect -> k_connector k <> None) /\
  after_transition e <> Some A_run_connect /\ target_state e <> SAME_TARGET_STATE.

Lemma core_take_entry e data c :
  k_tunnel (core c) = true -> entry_ok e (core c) ->
  core (set_recursive false (take_entry (client_run_action env) data e (set_recursive true c))) =
  entry_core e data (core c).
Proof.
  intros Ht (Hb & Ha & Hs). unfold take_entry, entry_core.
  rewrite (proj2 (Z.eqb_neq _ _) Hs). cbn [negb].
  set (c1 := run_opt _ (before_transition e) data _).
  assert (H1 : core c1 = match before_transition e with
                         | Some a => action_core a data ((core c) <| k_fsm := mkFsmCell (m_current_state (k_fsm (core c))) true |>)
                         | None => (core c) <| k_fsm := mkFsmCell (m_current_state (k_fsm (core c))) true |>
                         end).
  { unfold c1, run_opt. destruct (before_transition e) as [a|]; [|done].
    rewrite core_run_action; [done|done|]. intros ->. by apply Hb. }
  set (c2 := set_recursive false (set_state (target_state e) c1)).
  assert (H2 : core c2 = (core c1) <| k_fsm := mkFsmCell (target_state e) false |>) by done.
  rewrite core_set_recursive, <-H1. unfold run_opt.
  destruct (after_transition e) as [a|]; [|by rewrite H2].
  rewrite core_run_action, H2.
  - pose proof (action_core_fsm a data ((core c1) <| k_fsm := mkFsmCell (target_state e) false |>)) as Hf.
    destruct (action_core _ _ _). cbn in *. by rewrite Hf.
  - rewrite H2. cbn. fold (core c1). change (k_tunnel (core c1) = true). rewrite H1.
    destruct (before_transition e); [|done]. by rewrite action_core_tunnel.
  - intros ->. done.
Qed.

Lemma client_table_unconditional : Forall (fun e => condition e = None) CLIENT_TRANSITION_TABLE.
Proof. repeat constructor. Qed.

Lemma core_client_transition ev data c :
  m_recursive (k_fsm (core c)) = false -> k_tunnel (core c) = true ->
  (ev = E_RUN_CONNECT -> k_connector (core c) <> None) ->
  core (client_transition env ev data c) =
  match find_entry (m_current_state (k_fsm (core c))) ev CLIENT_TRANSITION_TABLE with
  | Some e => entry_core e data (core c)
  | None => core c
  end.
Proof.
  intros Hr Ht Hc. unfold client_transition.
  rewrite perform_transition_not_recursive by done.
  rewrite first_match_find_entry by apply client_table_unconditional.
  rewrite get_state_set_recursive. change (get_state c) with (m_current_state (k_fsm (core c))).
  destruct (find_entry _ _ _) as [e|] eqn:He; [|done].
  apply core_take_entry; [done|].
  assert (Hall : Forall (fun e => event e = ev -> entry_ok e (core c)) CLIENT_TRANSITION_TABLE).
  { unfold entry_ok. repeat (constructor; [cbn; intros <-; split_and!; (done || (intros; by apply Hc))|]).
    constructor. }
  apply find_entry_Some in He as [Hin Hev]. rewrite Forall_forall in Hall. by apply Hall.
Qed.
End Frame.

(** ** Preservation of the invariant *)

(** Case analysis on the state of a well-formed core. *)
Ltac core_cases Hwf :=
  let Hs := fresh "Hs" in
  destruct Hwf as (Hrec & Hdis & Htun & Hbyp & Hst);
  destruct (m_current_state (k_fsm _)) as [|[[?|?|]|[?|?|]|]|] eqn:Hs; try done.

(** A silent step from [c] to [c']: [c'] is well formed, no assertion failed,
    nothing was raised, and the state stayed, or a session began to close, or,
    when [ends] says that the caller asked for it, a session was started or
    ended. *)
Definition client_good (ends : bool) (c c' : VpnClient) : Prop :=
  client_wf c' /\ c_faults c' = c_faults c /\
  omap session_event (c_out c') = omap session_event (c_out c) /\
  (get_state c' = get_state c \/
   (get_state c = S_CONNECTED /\ get_state c' = S_DISCONNECTING) \/
   (ends = true /\ get_state c' <> S_CONNECTED)).

(** The event [e] reports the transition from [old] to [new]. *)
Definition reports (e : ClientEvent) (old new : Z) : Prop :=
  match e with
  | EVENT_CONNECTED => old = S_CONNECTING /\ new = S_CONNECTED
  | EVENT_DISCONNECTED | EVENT_ERROR _ => new = S_DISCONNECTED
  | EVENT_DNS_UPSTREAM_UNAVAILABLE => False
  end.

(** A step that raises exactly one session event. *)
Definition client_loud (c c' : VpnClient) : Prop :=
  client_wf c' /\ c_faults c' = c_faults c /\
  exists e, omap session_event (c_out c') = omap session_event (c_out c) ++ [e] /\
            reports e (get_state c) (get_state c').

Section Preservation.
Context (env : ClientEnv).
Implicit Types (c : VpnClient) (k : ClientCore).

Lemma good_core b c c' : core c' = core c -> client_wf c -> client_good b c c'.
Proof.
  intros Hc Hwf. unfold client_good. change (c_faults c') with (k_faults (core c')).
  change (get_state c') with (m_current_state (k_fsm (core c'))).
  change (omap session_event (c_out c')) with (k_events (core c')).
  unfold client_wf. rewrite Hc. split_and!; by auto.
Qed.

Lemma wf_bypass c : client_wf c -> c_bypass_upstream c = true.
Proof. by intros (_ & _ & _ & ? & _). Qed.

Lemma wf_tunnel c : client_wf c -> k_tunnel (core c) = true.
Proof. by intros (_ & _ & ? & _). Qed.

(** Faults are part of the core. *)
Lemma good_fold b c c' :
  core_wf (core c') -> k_faults (core c') = k_faults (core c) ->
  k_events (core c') = k_events (core c) ->
  (m_current_state (k_fsm (core c')) = m_current_state (k_fsm (core c)) \/
   (m_current_state (k_fsm (core c)) = S_CONNECTED /\ m_current_state (k_fsm (core c')) = S_DISCONNECTING) \/
   (b = true /\ m_current_state (k_fsm (core c')) <> S_CONNECTED)) ->
  client_good b c c'.
Proof. done. Qed.

Lemma loud_fold e c c' :
  core_wf (core c') -> k_faults (core c') = k_faults (core c) ->
  k_events (core c') = k_events (core c) ++ [e] ->
  reports e (m_current_state (k_fsm (core c))) (m_current_state (k_fsm (core c'))) ->
  client_loud c c'.
Proof. intros. split_and!; [done..|]. by exists e. Qed.

Lemma good_trans b c1 c2 c3 : client_good b c1 c2 -> client_good b c2 c3 -> client_good b c1 c3.
Proof.
  intros (_ & H1 & H2 & H3) (W & H1' & H2' & H3'). split_and!; [done|congruence..|].
  destruct H3' as [->|[[Hc ->]|[-> Hn]]]; [done| |by auto].
  destruct H3 as [H3|[[_ H3]|[_ H3]]]; [|by rewrite Hc in H3..]. right; left. split; congruence.
Qed.

Lemma good_weaken b c c' : client_good false c c' -> client_good b c c'.
Proof. intros (? & ? & ? & [H|[H|[? H]]]); split_and!; auto; done. Qed.

(** Steps that leave the core alone extend a loud step on both sides. *)
Lemma loud_core c1 c2 c3 c4 :
  core c2 = core c1 -> client_loud c2 c3 -> core c4 = core c3 -> client_loud c1 c4.
Proof.
  intros H12 (Hwf & Hf & e & He & Hr) H34.
  apply (loud_fold e); rewrite H34; [done|rewrite <-H12; done..|by rewrite <-H12].
Qed.

Lemma loud_prefix c1 c2 c3 :
  c_faults c2 = c_faults c1 -> c_out c2 = c_out c1 -> get_state c2 = get_state c1 ->
  client_loud c2 c3 -> client_loud c1 c3.
Proof. unfold client_loud. by intros -> -> ->. Qed.

Lemma core_start_dns_proxy_listener c :
  k_tunnel (core c) = true -> core (snd (start_dns_proxy_listener env c)) = core c.
Proof.
  intros Ht. unfold start_dns_proxy_listener. destruct (rand_bytes_ok env); [|done]. cbn [negb].
  set (c1 := (c_emit O_dns_listener_init c) <| c_dns_proxy_listener := true |>).
  assert (H1 : core c1 = core c) by apply (core_emit O_dns_listener_init).
  destruct (dns_listener_init env); [|done..].
  assert (H2 : core (call_tunnel T_update_dns_handler_parameters c1) = core c)
    by (rewrite core_call_tunnel; by rewrite H1).
  by destruct (update_dns_handler_parameters env).
Qed.

Lemma core_dns_upstream_health_check c :
  k_tunnel (core c) = true -> core (snd (VpnClient_do_dns_upstream_health_check env c)) = core c.
Proof. apply core_call_tunnel. Qed.

(** The events whose entry opens or closes nothing right away. *)
Lemma transition_good ev data c :
  client_wf c -> ev ∈ [E_RUN_PREPARATION_FAIL; E_SESSION_ERROR; E_HEALTH_CHECK_ERROR] ->
  client_good false c (client_transition env ev data c).
Proof.
  intros Hwf Hev. assert (Hne : ev <> E_RUN_CONNECT) by (intros ->; set_solver).
  unfold client_wf in Hwf. core_cases Hwf.
  all: apply good_fold; rewrite core_client_transition, Hs by done.
  all: repeat (apply elem_of_cons in Hev as [->|Hev]); [..|set_solver].
  all: unfold core_wf; cbn -[core]; rewrite ?occ_app, ?Hs; cbn -[core]; auto.
  all: rewrite ?Nat.add_0_r; done || tauto.
Qed.

Lemma disconnect_good c : client_wf c -> client_good true c (VpnClient_disconnect env c).
Proof.
  intros Hwf. unfold VpnClient_disconnect.
  set (c1 := c <| c_in_disconnect := true |>).
  assert (Hc1 : core c1 = (core c) <| k_in_disconnect := true |>) by done.
  set (c2 := client_transition env E_DISCONNECT CD_null c1).
  assert (Hc3 : core (c2 <| c_in_disconnect := false |>) = (core c2) <| k_in_disconnect := false |>) by done.
  unfold client_wf in Hwf. core_cases Hwf.
  all: apply good_fold; rewrite Hc3; unfold c2; rewrite core_client_transition by (rewrite Hc1; done).
  all: rewrite !Hc1; cbn -[core]; rewrite !Hs; cbn -[core]; auto.
  all: unfold core_wf; cbn -[core]; rewrite ?Hs; done.
Qed.

(** Where [disconnect] ends, and what it leaves. *)
Lemma disconnect_core c :
  client_wf c ->
  get_state (VpnClient_disconnect env c) = S_DISCONNECTED /\
  (get_state c <> S_DISCONNECTED -> c_deferred_tasks (VpnClient_disconnect env c) = []).
Proof.
  intros Hwf. unfold VpnClient_disconnect. set (c1 := c <| c_in_disconnect := true |>).
  unfold client_wf in Hwf. core_cases Hwf.
  all: pose proof (core_client_transition env E_DISCONNECT CD_null c1 Hrec Htun ltac:(done)) as HT.
  all: change (m_current_state (k_fsm (core c1))) with (m_current_state (k_fsm (core c))) in HT.
  all: rewrite Hs in HT; cbn -[core] in HT.
  all: generalize dependent (client_transition env E_DISCONNECT CD_null c1); intros c2 HT.
  all: change (m_current_state (k_fsm (core c2)) = S_DISCONNECTED /\
               (m_current_state (k_fsm (core c)) <> S_DISCONNECTED -> k_tasks (core c2) = [])).
  all: rewrite HT, Hs; done.
Qed.

Lemma core_make_connector config c :
  ecc_main_protocol config <> VPN_UP_AUTO -> ecc_fallback config <> Some VPN_UP_AUTO ->
  exists x, core (make_connector config c) = (core c) <| k_connector := Some x |>.
Proof.
  intros Hmain Hfb. unfold make_connector.
  set (c1 := match make_upstream (ecc_main_protocol config) with Some _ => _ | None => _ end).
  assert (H1 : core c1 = core c) by (unfold c1; by destruct (ecc_main_protocol config)).
  destruct (ecc_fallback config) as [p|].
  - exists FallbackableUpstream.
    trans ((core c1) <| k_connector := Some FallbackableUpstream |>); [by destruct p|by rewrite H1].
  - exists SingleUpstream. by trans ((core c1) <| k_connector := Some SingleUpstream |>); [|rewrite H1].
Qed.

(** The state machine leaves [S_DISCONNECTED] whatever the connector answers;
    an error left from before counts as an error of the connector. *)
Lemma client_connect_spec timeout c :
  m_recursive (k_fsm (core c)) = false -> k_tunnel (core c) = true ->
  k_connector (core c) <> None -> m_current_state (k_fsm (core c)) = S_DISCONNECTED ->
  core (snd (client_connect env timeout c)) =
    (core c) <| k_fsm := mkFsmCell S_CONNECTING false |> <| k_pending := None |> /\
  fst (client_connect env timeout c) =
    if code (connector_connect env timeout) =? VPN_EC_NOERROR
    then default no_error (c_pending_error c) else connector_connect env timeout.
Proof.
  intros Hr Ht Hc Hs. unfold client_connect. cbn [fst snd].
  pose proof (core_client_transition env E_RUN_CONNECT (CD_timeout timeout) c Hr Ht ltac:(done)) as H.
  generalize dependent (client_transition env E_RUN_CONNECT (CD_timeout timeout) c). intros c' H.
  rewrite Hs in H. cbn -[core] in H.
  change (core (c' <| c_pending_error := None |>)) with ((core c') <| k_pending := None |>).
  change (c_pending_error c') with (k_pending (core c')).
  change (c_pending_error c) with (k_pending (core c)).
  rewrite H. by destruct (code _ =? _).
Qed.

(** Every way [connect] can end, for a client that is disconnected. *)
Lemma connect_cases config timeout c :
  client_wf c -> get_state c = S_DISCONNECTED -> client_input_ok (CI_connect config timeout) c ->
  exists c1 e, client_connect env timeout (make_connector config (c <| c_upstream_config := Some config |>)) = (e, c1) /\
    client_good true c c1 /\ get_state c1 = S_CONNECTING /\
    e = (if code (connector_connect env timeout) =? VPN_EC_NOERROR
         then default no_error (c_pending_error c) else connector_connect env timeout) /\
    VpnClient_connect env config timeout c =
      if negb (code e =? VPN_EC_NOERROR) then connect_fail env e c1
      else if bypass_open_session env then (e, c_emit O_bypass_open_session c1)
      else connect_fail env (e <| text := Some "Failed to start upstream for direct connections" |>)
             (c_emit O_bypass_open_session c1).
Proof.
  intros Hwf Hst [Hmain Hfb]. pose proof (wf_bypass c Hwf) as Hb.
  unfold VpnClient_connect, client_state_is. rewrite Hst. cbn [negb Z.eqb S_DISCONNECTED].
  destruct (core_make_connector config (c <| c_upstream_config := Some config |>)) as [x Hx]; [done..|].
  generalize dependent (make_connector config (c <| c_upstream_config := Some config |>)). intros c1 H1.
  change (core (c <| c_upstream_config := Some config |>)) with (core c) in H1.
  destruct (client_connect env timeout c1) as [e c2] eqn:Hcc.
  destruct Hwf as (Hrec & Hdis & Htun & Hbyp & Hs).
  rewrite (Hst : m_current_state (k_fsm (core c)) = S_DISCONNECTED) in Hs. destruct Hs as [Hconn Hfin].
  destruct (client_connect_spec timeout c1) as [H2 He]; [by rewrite H1..|].
  change (c_pending_error c1) with (k_pending (core c1)) in He. rewrite H1 in He.
  change (k_pending _) with (c_pending_error c) in He.
  rewrite Hcc in H2, He. cbn [fst snd] in H2, He.
  exists c2, e. rewrite H1 in H2.
  assert (Hb2 : c_bypass_upstream c2 = true) by (change (k_bypass (core c2) = true); by rewrite H2).
  split_and!; [done| | |done|].
  - apply good_fold; rewrite H2; [|done..|by right; right].
    unfold core_wf; cbn -[core]. split_and!; auto.
  - change (m_current_state (k_fsm (core c2)) = S_CONNECTING). by rewrite H2.
  - destruct (negb _); [done|]. rewrite Hb2. by destruct (bypass_open_session env).
Qed.

Lemma connect_good config timeout c :
  client_wf c -> client_input_ok (CI_connect config timeout) c ->
  client_good true c (snd (VpnClient_connect env config timeout c)).
Proof.
  intros Hwf Hok. destruct (Z.eqb_spec (get_state c) S_DISCONNECTED) as [Hst|Hst].
  2:{ unfold VpnClient_connect, client_state_is. rewrite (proj2 (Z.eqb_neq _ _) Hst). by apply good_core. }
  destruct (connect_cases config timeout c) as (c1 & e & _ & Hg & _ & _ & ->); [done..|].
  assert (Hg' : client_good true c (c_emit O_bypass_open_session c1)).
  { eapply good_trans; [exact Hg|]. apply good_core; [apply core_emit|apply Hg]. }
  destruct (negb _); [|destruct (bypass_open_session env); [done|]].
  - eapply good_trans; [exact Hg|]. apply disconnect_good, Hg.
  - eapply good_trans; [exact Hg'|]. apply disconnect_good, Hg'.
Qed.

(** The state [connect] leaves the client in. *)
Lemma connect_state config timeout c :
  client_wf c -> client_input_ok (CI_connect config timeout) c ->
  let '(e, c') := VpnClient_connect env config timeout c in
  if code e =? VPN_EC_NOERROR then get_state c = S_DISCONNECTED /\ get_state c' = S_CONNECTING
  else get_state c' = get_state c.
Proof.
  intros Hwf Hok. destruct (Z.eqb_spec (get_state c) S_DISCONNECTED) as [Hst|Hst].
  2:{ unfold VpnClient_connect, client_state_is. by rewrite (proj2 (Z.eqb_neq _ _) Hst). }
  destruct (connect_cases config timeout c) as (c1 & e & _ & Hg & Hs & _ & ->); [done..|].
  assert (Hfail : forall err c2, client_wf c2 -> let '(e', c') := connect_fail env err c2 in
            (code e' =? VPN_EC_NOERROR) = false /\ get_state c' = S_DISCONNECTED).
  { intros err c2 Hw2. unfold connect_fail. split; [|by apply disconnect_core].
    destruct (Z.eqb_spec (code err) 0) as [Hz|Hz]; [by cbn; destruct (text err)|].
    destruct (text err); by apply Z.eqb_neq. }
  destruct (code e =? VPN_EC_NOERROR) eqn:He; cbn [negb].
  - destruct (bypass_open_session env); [by rewrite He|].
    match goal with |- context [connect_fail env ?a ?b] => specialize (Hfail a b); destruct (connect_fail env a b) end.
    destruct Hfail as [-> ->]; [|done]. unfold client_wf. rewrite core_emit. apply Hg.
  - match goal with |- context [connect_fail env ?a ?b] => specialize (Hfail a b); destruct (connect_fail env a b) end.
    destruct Hfail as [-> ->]; [apply Hg|done].
Qed.

Lemma listen_fail_good error c : client_wf c -> client_good false c (snd (listen_fail env error c)).
Proof. intros Hwf. apply transition_good; [done|set_solver]. Qed.

Lemma listen_update_dns_good b c : client_wf c -> client_good false c (snd (listen_update_dns env b c)).
Proof.
  intros Hwf. unfold listen_update_dns. destruct b; [|by apply good_core].
  assert (Hg : client_good false c (call_tunnel T_update_dns_handler_parameters c))
    by (apply good_core; [apply core_call_tunnel, wf_tunnel|]; done).
  destruct (update_dns_handler_parameters env); [done|].
  eapply good_trans; [exact Hg|]. apply listen_fail_good, Hg.
Qed.

Lemma listen_good config c : client_wf c -> client_good false c (snd (VpnClient_listen env config c)).
Proof.
  intros Hwf. unfold VpnClient_listen.
  set (c1 := c_emit O_listener_init _).
  assert (H1 : client_good false c c1) by (apply good_core; [unfold c1; by rewrite core_emit|done]).
  destruct (listener_init env); [|eapply good_trans; [exact H1|]; apply listen_fail_good, H1..].
  set (c2 := clean_up_buffer_files c1).
  assert (H2 : client_good false c c2).
  { eapply good_trans; [exact H1|]. apply good_core; [|apply H1]. unfold c2, clean_up_buffer_files.
    destruct (c_tmp_files_base_path c1); [apply (core_emit O_clean_up_buffer_files)|done]. }
  destruct (client_state_is S_CONNECTED c2);
    [|eapply good_trans; [exact H2|]; apply listen_update_dns_good, H2].
  set (c3 := call_tunnel T_on_exclusions_updated c2).
  assert (H3 : client_good false c c3).
  { eapply good_trans; [exact H2|]. apply good_core; [apply core_call_tunnel, wf_tunnel|]; apply H2. }
  destruct (_ && _); [|eapply good_trans; [exact H3|]; apply listen_update_dns_good, H3].
  pose proof (core_start_dns_proxy_listener c3 (wf_tunnel c3 (proj1 H3))) as H4.
  destruct (start_dns_proxy_listener env c3) as [error c4]. cbn [snd] in H4.
  assert (Hg4 : client_good false c c4) by (eapply good_trans; [exact H3|]; apply good_core; [done|apply H3]).
  destruct (negb _); [eapply good_trans; [exact Hg4|]; apply listen_fail_good, Hg4|].
  pose proof (core_dns_upstream_health_check c4 (wf_tunnel c4 (proj1 Hg4))) as H5.
  destruct (VpnClient_do_dns_upstream_health_check env c4) as [started c5]. cbn [snd] in H5.
  assert (Hg5 : client_good false c c5) by (eapply good_trans; [exact Hg4|]; apply good_core; [done|apply Hg4]).
  destruct started; cbn [negb]; [done|].
  eapply good_trans; [exact Hg5|]. apply listen_fail_good, Hg5.
Qed.

Lemma connector_result_good r c :
  client_wf c -> client_input_ok (CI_connector_result r) c ->
  client_good false c (endpoint_connector_handler env r c).
Proof.
  intros Hwf [Hconn Hfin]. unfold endpoint_connector_handler.
  set (c1 := match r with inl _ => _ | inr _ => _ end).
  assert (H1 : exists p u, core c1 = (core c) <| k_pending := p |> <| k_upstream := u |> /\
                           (p = None -> u = true)).
  { unfold c1. destruct r as [[]|e]; [|by exists (Some e), (c_endpoint_upstream c)].
    destruct (_ && _); [|by exists None, true].
    match goal with |- context [start_dns_proxy_listener env ?x] => set (c0 := x) end.
    pose proof (core_start_dns_proxy_listener c0 (wf_tunnel c Hwf)) as H0.
    destruct (start_dns_proxy_listener env c0) as [error c2]. cbn [snd] in H0.
    destruct (negb _).
    - exists (Some error), true. split; [|done].
      trans ((core c2) <| k_pending := Some error |>); [done|]. by rewrite H0.
    - exists None, true. by rewrite H0. }
  destruct H1 as (p & u & H1 & Hpu). clearbody c1.
  assert (H2 : core (c1 <| c_deferred_tasks := c_deferred_tasks c1 ++ [DT_connector_finalizer] |>) =
               (core c) <| k_pending := p |> <| k_upstream := u |>
                 <| k_tasks := k_tasks (core c) ++ [DT_connector_finalizer] |>).
  { trans ((core c1) <| k_tasks := k_tasks (core c1) ++ [DT_connector_finalizer] |>); [done|]. by rewrite H1. }
  unfold client_wf in Hwf. core_cases Hwf; [by destruct Hst|by destruct Hst..|].
  apply good_fold; rewrite H2; cbn -[core]; rewrite ?Hs; try done; [|by left].
  unfold core_wf. cbn -[core]. rewrite Hs, occ_app. cbn -[core]. cbn in Hfin. cbn. rewrite Hfin.
  split_and!; auto.
Qed.
Lemma session_closed_loud c :
  client_wf c -> k_connector (core c) = None ->
  client_loud c (client_transition env E_SESSION_CLOSED CD_null c).
Proof.
  intros Hwf Hc. unfold client_wf in Hwf. core_cases Hwf; [..|by destruct Hst].
  all: destruct (k_pending (core c)) as [e|] eqn:Hp;
       [apply (loud_fold (EVENT_ERROR e))|apply (loud_fold EVENT_DISCONNECTED)].
  all: rewrite core_client_transition, Hs by done.
  all: unfold core_wf; cbn -[core]; rewrite ?Hp; cbn -[core]; rewrite ?Hs; tauto.
Qed.

Lemma upstream_event_ok what c :
  client_wf c -> client_input_ok (CI_upstream_event what) c ->
  client_good false c (vpn_upstream_handler env what c) \/
  client_loud c (vpn_upstream_handler env what c).
Proof.
  intros Hwf (Hc & Hu & Hw). unfold vpn_upstream_handler. rewrite Hc.
  set (c1 := if is_session_end what then call_tunnel _ c else c).
  assert (H1 : core c1 = core c).
  { unfold c1. destruct (is_session_end what); [|done]. by apply core_call_tunnel, wf_tunnel. }
  set (c2 := call_tunnel (T_upstream_handler false what) c1).
  assert (H2 : core c2 = core c)
    by (unfold c2; rewrite core_call_tunnel; [done|rewrite H1; by apply wf_tunnel]).
  assert (Hg2 : client_good false c c2) by (by apply good_core).
  set (c3 := match what with SERVER_EVENT_SESSION_OPENED => _ | _ => _ end).
  assert (H3 : client_good false c2 c3 \/ client_loud c2 c3).
  { destruct Hg2 as [Hg2 _]. unfold c3. destruct what; try (by left; apply good_core); try done.
    - right. apply session_closed_loud; [done|by rewrite H2].
    - left. apply transition_good; [done|set_solver].
    - left. destruct (negb _); [by apply good_core|]. apply transition_good; [done|set_solver]. }
  assert (H4 : core (if is_session_end what then call_tunnel T_on_after_endpoint_disconnect c3 else c3) = core c3).
  { destruct (is_session_end what); [|done]. apply core_call_tunnel, wf_tunnel.
    by destruct H3 as [[? _]|[? _]]. }
  destruct H3 as [H3|H3]; [left|right; by eapply loud_core].
  eapply good_trans; [exact Hg2|]. eapply good_trans; [exact H3|]. apply good_core; [done|apply H3].
Qed.

(** The connector's deferred task ends the connection procedure one way or the other. *)
Lemma finalizer_loud c :
  client_wf c -> DT_connector_finalizer ∈ c_deferred_tasks c ->
  client_loud c (run_deferred_task env DT_connector_finalizer c).
Proof.
  intros Hwf Hin%occ_pos. unfold run_deferred_task, endpoint_connector_finalizer, release_deferred_task.
  set (c1 := (c <| c_deferred_tasks := _ |>) <| c_endpoint_connector := None |>).
  assert (H1 : core c1 = (core c) <| k_tasks := remove_first DT_connector_finalizer (k_tasks (core c)) |>
                                  <| k_connector := None |>) by done.
  pose proof (occ_remove_first_eq DT_connector_finalizer (k_tasks (core c))) as Hocc.
  unfold client_wf in Hwf. cbn in Hin.
  core_cases Hwf; [cbn in Hst; lia|cbn in Hst; lia|cbn in Hst; lia|].
  destruct Hst as [Hconn [[Hz _]|[Hone Hup]]]; [cbn in Hz; lia|].
  rewrite Hone in Hocc. cbn [pred] in Hocc.
  destruct (c_pending_error c1) as [e|] eqn:Hp.
  - change (k_pending (core c) = Some e) in Hp.
    apply (loud_fold (EVENT_ERROR e)); rewrite core_client_transition by (rewrite H1; done).
    all: rewrite H1; unfold core_wf; cbn -[core]; rewrite Hs; cbn -[core]; rewrite Hp; done.
  - change (k_pending (core c) = None) in Hp. specialize (Hup Hp).
    set (c2 := call_tunnel _ c1).
    assert (H2 : core c2 = core c1) by (apply core_call_tunnel; by rewrite H1).
    set (c3 := client_transition env E_SESSION_OPENED CD_null c2).
    assert (H3 : client_loud c c3).
    { apply (loud_fold EVENT_CONNECTED); unfold c3; rewrite core_client_transition by (rewrite H2, H1; done).
      all: rewrite H2, H1; cbn -[core]; rewrite Hs; done. }
    apply (loud_core c c c3); [done..|].
    destruct (c_client_listener c3); [|done].
    assert (Ht : k_tunnel (core c3) = true) by apply wf_tunnel, H3.
    set (c4 := call_tunnel T_on_exclusions_updated c3).
    assert (H4 : core c4 = core c3) by (by apply core_call_tunnel).
    destruct (c_dns_proxy_listener c4); [|done].
    assert (H5 : core (snd (VpnClient_do_dns_upstream_health_check env c4)) = core c3)
      by (rewrite core_dns_upstream_health_check; by rewrite ?H4).
    destruct (VpnClient_do_dns_upstream_health_check env c4) as [started c5]. cbn [snd] in H5.
    destruct started; [done|]. unfold c_raise. by rewrite core_emit.
Qed.

(** Releasing any other task keeps the invariant. *)
Lemma release_good t c :
  client_wf c -> t <> DT_connector_finalizer -> client_good false c (release_deferred_task t c).
Proof.
  intros (Hr & Hd & Ht & Hb & Hst) Hne. apply good_fold; auto. unfold core_wf.
  cbn. rewrite occ_remove_first_ne by done. done.
Qed.

Lemma deferred_disconnect_ok c :
  client_wf c ->
  client_good false c (client_transition env E_DEFERRED_DISCONNECT CD_null c) \/
  client_loud c (client_transition env E_DEFERRED_DISCONNECT CD_null c).
Proof.
  intros Hwf. pose proof Hwf as Hwf'. unfold client_wf in Hwf'. core_cases Hwf'.
  all: pose proof (core_client_transition env E_DEFERRED_DISCONNECT CD_null c) as HT.
  all: rewrite Hs in HT; cbn -[core] in HT; specialize (HT Hrec Htun ltac:(done)).
  all: generalize dependent (client_transition env E_DEFERRED_DISCONNECT CD_null c); intros c' HT.
  1,3,4: left; by apply good_core.
  right. destruct (k_pending (core c)) as [e|] eqn:Hp.
  - apply (loud_fold (EVENT_ERROR e)); rewrite HT; cbn -[core]; done.
  - apply (loud_fold EVENT_DISCONNECTED); rewrite HT; cbn -[core]; done.
Qed.

Lemma run_task_ok t c :
  client_wf c -> t ∈ c_deferred_tasks c ->
  client_good false c (run_deferred_task env t c) \/ client_loud c (run_deferred_task env t c).
Proof.
  intros Hwf Hin. destruct t; [right; by apply finalizer_loud| |]; unfold run_deferred_task.
  - left. assert (Hg : client_good false c (release_deferred_task DT_health_check c)) by (by apply release_good).
    eapply good_trans; [exact Hg|]. destruct (client_state_is _ _) eqn:Hst; [|by apply good_core; [|apply Hg]].
    apply good_core; [|apply Hg]. apply core_call_endpoint; [|done].
    apply Z.eqb_eq in Hst. destruct Hwf as (_ & _ & _ & _ & Hs).
    change (m_current_state (k_fsm (core c)) = S_CONNECTED) in Hst.
    rewrite Hst in Hs. by destruct Hs as (_ & _ & Hup & _).
  - assert (Hg : client_good false c (release_deferred_task DT_deferred_disconnect c)) by (by apply release_good).
    destruct (deferred_disconnect_ok _ (proj1 Hg)) as [Hd|Hd];
      [left; eapply good_trans; [exact Hg|exact Hd]|right].
    by eapply loud_prefix; [..|exact Hd].
Qed.

Lemma sleep_wake_good a b t c :
  client_wf c -> session_event a = None -> session_event b = None ->
  client_good false c (sleep_wake a b t c).
Proof.
  intros Hwf Ha Hb. unfold sleep_wake, client_state_is.
  destruct (_ && _) eqn:Hand.
  { destruct (c_endpoint_connector c); [|by apply good_core].
    apply good_core; [by rewrite core_emit, Ha|done]. }
  destruct (_ || _) eqn:Hor; [|by apply good_core].
  apply good_core; [|done]. pose proof Hwf as (Hr & Hd & Ht & Hby & Hs).
  assert (Hu : k_upstream (core c) = true).
  { change (get_state c) with (m_current_state (k_fsm (core c))) in *.
    destruct (m_current_state (k_fsm (core c))) as [|[[?|?|]|[?|?|]|]|]; try done; cbn in *; [tauto|].
    by apply negb_false_iff. }
  rewrite core_call_tunnel; [|rewrite core_call_endpoint; by auto]. by rewrite core_call_endpoint.
Qed.

(** The calls through which the manager opens and closes sessions. *)
Definition may_end (i : ClientInput) : bool :=
  match i with CI_connect _ _ | CI_disconnect => true | _ => false end.

(** The inputs that raise no session event. *)
Definition silent_input (i : ClientInput) : bool :=
  match i with CI_upstream_event _ | CI_run_task _ => false | _ => true end.

Lemma client_call_good i c :
  client_wf c -> client_input_ok i c -> silent_input i = true ->
  client_good (may_end i) c (client_step env i c).
Proof.
  intros Hwf Hok Hi. pose proof (wf_tunnel c Hwf) as Ht. pose proof (wf_bypass c Hwf) as Hb.
  destruct i; try discriminate Hi; cbn [client_step may_end].
  - by apply connect_good.
  - by apply listen_good.
  - by apply disconnect_good.
  - apply good_fold; auto. destruct Hwf as (? & ? & ? & ? & Hst).
    unfold core_wf, VpnClient_do_health_check. cbn. rewrite occ_app. cbn. by rewrite Nat.add_0_r.
  - unfold VpnClient_process_client_packets. destruct (c_client_listener c); apply good_core; try done.
    by apply (core_emit O_listener_process_packets).
  - unfold VpnClient_update_exclusions. destruct (client_state_is _ _); apply good_core; try done.
    by rewrite core_call_tunnel.
  - unfold VpnClient_reset_connections. destruct (client_state_is _ _); apply good_core; try done.
    by rewrite core_call_tunnel.
  - apply good_core; [by apply core_call_tunnel|done].
  - unfold VpnClient_reject_connect_request. cbn in Hok. rewrite Hok.
    apply good_core; [|done]. apply core_emit.
  - apply good_core; [by apply core_call_tunnel|done].
  - unfold VpnClient_update_bypass_ip_availability. rewrite Hb.
    apply good_core; [apply core_emit|done].
  - unfold VpnClient_on_network_change. destruct (c_tunnel c) eqn:?; apply good_core; try done.
    by apply core_call_tunnel.
  - by apply sleep_wake_good.
  - by apply sleep_wake_good.
  - by apply connector_result_good.
  - unfold direct_upstream_handler. apply good_core; [|done].
    rewrite core_call_tunnel; by destruct what.
  - unfold dns_resolver_handler. destruct success; [by apply good_core|].
    destruct (negb _); [by apply good_core|]. destruct (c_in_disconnect _); [by apply good_core|].
    apply good_core; [|done]. unfold c_raise. by rewrite core_emit.
Qed.

Lemma client_step_ok i c :
  client_wf c -> client_input_ok i c ->
  client_good (may_end i) c (client_step env i c) \/ client_loud c (client_step env i c).
Proof.
  intros Hwf Hok. destruct (silent_input i) eqn:Hi; [left; by apply client_call_good|].
  destruct i; try discriminate Hi; [by apply upstream_event_ok|by apply run_task_ok].
Qed.
End Preservation.

(** ** Reachable clients *)

(** A client that [init] accepted, after any sequence of what can come; the answers
    of the other parts may differ at each step. *)
Inductive client_runs : VpnClient -> Prop :=
  | CN_init env split_by_any_of to_integer st c :
      VpnClient_init env split_by_any_of to_integer st client_new = (no_error, c) ->
      c_faults c = [] -> client_runs c
  | CN_step env i c :
      client_runs c -> client_input_may i c -> client_runs (client_step env i c).

(** The same as long as the assertions of [vpn_upstream_handler] hold. *)
Inductive client_reachable : VpnClient -> Prop :=
  | CR_init env split_by_any_of to_integer st c :
      VpnClient_init env split_by_any_of to_integer st client_new = (no_error, c) ->
      c_faults c = [] -> client_reachable c
  | CR_step env i c :
      client_reachable c -> client_input_ok i c -> client_reachable (client_step env i c).

Lemma init_wf env split_by_any_of to_integer st c :
  VpnClient_init env split_by_any_of to_integer st client_new = (no_error, c) ->
  client_wf c /\ get_state c = S_DISCONNECTED.
Proof.
  unfold VpnClient_init.
  destruct (parse_ports_or_default _ _ _) as [ports|], (set_tmp_files_base_path st) as [[]|] eqn:Htmp,
    (set_ssl_sessions_storage_path st), (tunnel_init env), (bypass_init env);
    unfold init_tmp_files; rewrite Htmp; cbn [negb]; try done; intros [= <-]; done.
Qed.

Section Properties.
Context (env : ClientEnv).
Implicit Types (c : VpnClient).

Lemma client_reachable_ok c : client_reachable c -> client_wf c /\ c_faults c = [].
Proof.
  induction 1 as [env' sp ti st c Hi Hf|env' i c Hr [IHw IHf] Hok].
  - split; [by eapply (init_wf env')|done].
  - destruct (client_step_ok env' i c IHw Hok) as [(? & ? & _)|(? & ? & _)]; split; congruence.
Qed.

(** C6.  In every state the client can reach, with upstream events of any kind at
    any time: either one of the two assertions of [vpn_upstream_handler] has failed,
    or the machine's state agrees with the objects the connection procedure owns: a
    connector exists exactly while connecting, an established session has an upstream
    and no pending error, the connector's deferred task is scheduled at most once and
    only while connecting; and no assertion at all failed and no null pointer was
    followed. *)
Theorem client_runs_wf c :
  client_runs c -> upstream_asserted c \/ (client_reachable c /\ client_wf c /\ c_faults c = []).
Proof.
  intros Hc. assert (upstream_asserted c \/ client_reachable c) as [H|H]; [|by left|right; by split; [|apply client_reachable_ok]].
  induction Hc as [env' sp ti st c Hi Hf|env' i c Hr [IH|IH] Hi].
  - right. by eapply CR_init.
  - left. eapply asserted_grows; [apply client_step_faults|done].
  - destruct (client_input_split env' i c Hi); [right; by apply CR_step|by left].
Qed.

(** C7.  A step of the client raises at most one session event.  A step that
    raises none leaves the state alone or begins to close a session, unless it
    is a call of [connect] or [disconnect]; an event that is raised reports the
    state change that just happened. *)
Theorem client_step_reports i c :
  client_wf c -> client_input_ok i c ->
  client_good (may_end i) c (client_step env i c) \/ client_loud c (client_step env i c).
Proof. apply client_step_ok. Qed.

(** C29.  [disconnect] always ends in the disconnected state with no connector
    left, raises no session event, and when it ends something, no deferred task
    of that session survives it, so nothing of the old session can act on the
    next one. *)
Theorem disconnect_tears_down c :
  client_wf c ->
  let c' := VpnClient_disconnect env c in
  get_state c' = S_DISCONNECTED /\ c_endpoint_connector c' = None /\
  omap session_event (c_out c') = omap session_event (c_out c) /\
  (get_state c <> S_DISCONNECTED -> c_deferred_tasks c' = []) /\
  client_wf c'.
Proof.
  intros Hwf c'. pose proof (disconnect_good env c Hwf) as (Hwf' & _ & Hev & _).
  fold c' in Hwf', Hev. destruct (disconnect_core env c Hwf) as [Hs Ht]. fold c' in Hs, Ht.
  split_and!; try done. destruct Hwf' as (_ & _ & _ & _ & Hw).
  rewrite (Hs : m_current_state (k_fsm (core c')) = S_DISCONNECTED) in Hw. apply Hw.
Qed.

(** [connect] from the disconnected state, with no error left over from an
    earlier session: it succeeds exactly when the connector started and the
    upstream for direct connections opened, and then the client is connecting
    with the given configuration; otherwise it returns an error and the client
    is disconnected again. *)
Theorem connect_outcome config timeout c :
  client_wf c -> get_state c = S_DISCONNECTED -> c_pending_error c = None ->
  client_input_ok (CI_connect config timeout) c ->
  let '(e, c') := VpnClient_connect env config timeout c in
  if (code (connector_connect env timeout) =? VPN_EC_NOERROR) && bypass_open_session env
  then code e = VPN_EC_NOERROR /\ get_state c' = S_CONNECTING
  else code e <> VPN_EC_NOERROR /\ get_state c' = S_DISCONNECTED.
Proof.
  intros Hwf Hst Hp Hok. destruct (connect_cases env config timeout c) as (c1 & e & _ & Hg & Hs & He & ->); [done..|].
  rewrite Hp in He. cbn [default] in He.
  assert (Hfail : forall err c2, client_wf c2 ->
            code (fst (connect_fail env err c2)) <> VPN_EC_NOERROR /\
            get_state (snd (connect_fail env err c2)) = S_DISCONNECTED).
  { intros err c2 Hw2. split; [|by apply disconnect_core]. unfold connect_fail. cbn [fst].
    destruct (Z.eqb_spec (code err) 0) as [Hz|Hz]; [by cbn; destruct (text err)|].
    by destruct (text err). }
  destruct (code (connector_connect env timeout) =? VPN_EC_NOERROR) eqn:Hc; subst e; cbn [andb].
  - cbn [code no_error negb Z.eqb VPN_EC_NOERROR]. destruct (bypass_open_session env).
    + by split.
    + match goal with |- context [connect_fail env ?e0 ?c2] => pose proof (Hfail e0 c2) as Hf;
        destruct (connect_fail env e0 c2) end. apply Hf.
      unfold client_wf. rewrite core_emit. apply Hg.
  - rewrite Hc. cbn [negb].
    match goal with |- context [connect_fail env ?e0 ?c2] => pose proof (Hfail e0 c2) as Hf;
      destruct (connect_fail env e0 c2) end. apply Hf, Hg.
Qed.
End Properties.

(** ** Concrete runs *)

Module Samples.
Definition all_ok : ClientEnv :=
  mkClientEnv (fun _ => no_error) true INIT_SUCCESS INIT_SUCCESS true true true true true true true.

Definition settings : ClientSettings :=
  mkClientSettings true false true 0 None VPN_MODE_GENERAL (Some "/tmp/vpn/") 0 0 None.

Definition endpoint_address : SocketAddress := mkSocketAddress AF_INET [192; 0; 2; 1] 443.

Definition endpoint : VpnEndpoint :=
  mkVpnEndpoint endpoint_address (Some "vpn.example.org") None [] true.

Definition config : EndpointConnectionConfig :=
  mkEndpointConnectionConfig VPN_UP_HTTP2 4 (Some VPN_UP_HTTP3) endpoint endpoint_address 30000 7000
    (Some "user") (Some "password") true false.

(** After [init]. *)
Definition fresh : VpnClient :=
  snd (VpnClient_init all_ok (fun s _ => [s]) (fun _ => Some 443) settings client_new).

Definition session_error : VpnError := mkVpnError VPN_EC_ERROR (Some "Connection reset").

Definition run (inputs : list ClientInput) (c : VpnClient) : VpnClient :=
  fold_left (fun c i => client_step all_ok i c) inputs c.

(** A session that was established. *)
Definition to_connected : list ClientInput :=
  [CI_connect config None; CI_connector_result (inl tt); CI_run_task DT_connector_finalizer].

(** The same session after it failed and, before the deferred task ran, the
    manager closed it. *)
Definition to_stale : list ClientInput :=
  to_connected ++ [CI_upstream_event (SERVER_EVENT_ERROR NON_ID session_error); CI_disconnect].

Lemma fresh_reachable : client_reachable fresh.
Proof.
  apply (CR_init all_ok (fun s _ => [s]) (fun _ => Some 443) settings); vm_compute; reflexivity.
Qed.

Fixpoint inputs_ok (inputs : list ClientInput) (c : VpnClient) : Prop :=
  match inputs with
  | [] => True
  | i :: rest => client_input_ok i c /\ inputs_ok rest (client_step all_ok i c)
  end.

Lemma run_reachable inputs : forall c,
  client_reachable c -> inputs_ok inputs c -> client_reachable (run inputs c).
Proof.
  induction inputs as [|i inputs IH]; intros c Hc Hok; [done|]. destruct Hok as [Hi Hok].
  apply (IH (client_step all_ok i c)); [|done]. by apply CR_step.
Qed.

Ltac solve_inputs_ok :=
  cbn [inputs_ok to_connected to_stale app]; split_and!;
  cbn [client_input_ok]; try apply occ_pos; vm_compute; repeat split; (done || discriminate || lia).

Fixpoint inputs_may (inputs : list ClientInput) (c : VpnClient) : Prop :=
  match inputs with
  | [] => True
  | i :: rest => client_input_may i c /\ inputs_may rest (client_step all_ok i c)
  end.

Lemma run_runs inputs : forall c,
  client_runs c -> inputs_may inputs c -> client_runs (run inputs c).
Proof.
  induction inputs as [|i inputs IH]; intros c Hc Hok; [done|]. destruct Hok as [Hi Hok].
  apply (IH (client_step all_ok i c)); [|done]. by apply CN_step.
Qed.

Lemma fresh_runs : client_runs fresh.
Proof. apply (CN_init all_ok (fun s _ => [s]) (fun _ => Some 443) settings); vm_compute; reflexivity. Qed.

Ltac solve_inputs_may :=
  apply run_runs; [apply fresh_runs|]; cbn [inputs_may to_connected app]; split_and!;
  cbn [client_input_may]; try apply occ_pos; vm_compute; repeat split; (done || discriminate || lia).

Lemma to_connected_runs : client_runs (run to_connected fresh).
Proof. solve_inputs_may. Qed.

(** The session ends after the connector reported it and before the finalizer. *)
Definition ended_early (what : ServerEvent) : list ClientInput :=
  [CI_connect config None; CI_connector_result (inl tt); CI_upstream_event what].

(** With a closed session the client is disconnected, and is connected again. *)
Definition connected_again : list ClientInput :=
  ended_early SERVER_EVENT_SESSION_CLOSED ++ [CI_connect config None; CI_run_task DT_connector_finalizer].

(** With a failed session the finalizer runs. *)
Definition finalized_after_error : list ClientInput :=
  ended_early (SERVER_EVENT_ERROR NON_ID session_error) ++ [CI_run_task DT_connector_finalizer].

Lemma connected_again_runs : client_runs (run connected_again fresh).
Proof. unfold connected_again, ended_early. solve_inputs_may. Qed.

Lemma finalized_after_error_runs : client_runs (run finalized_after_error fresh).
Proof. unfold finalized_after_error, ended_early. solve_inputs_may. Qed.

Lemma to_connected_reachable : client_reachable (run to_connected fresh).
Proof. apply run_reachable; [apply fresh_reachable|]. solve_inputs_ok. Qed.

Lemma to_stale_reachable : client_reachable (run to_stale fresh).
Proof. apply run_reachable; [apply fresh_reachable|]. solve_inputs_ok. Qed.
End Samples.

(** An error that [disconnect] leaves behind fails the next [connect]. *)

(** A session error is remembered until the deferred disconnect reports
    it; if [disconnect] comes first, the error stays pending, and the next
    [connect] fails with it although the connector starts and the upstream for
    direct connections opens.  (Reachable: session established, session error,
    [disconnect], [connect].) *)
Theorem connect_fails_with_stale_error :
  exists c, client_reachable c /\ get_state c = S_DISCONNECTED /\
    connector_connect Samples.all_ok None = no_error /\ bypass_open_session Samples.all_ok = true /\
    fst (VpnClient_connect Samples.all_ok Samples.config None c) = Samples.session_error.
Proof.
  exists (Samples.run Samples.to_stale Samples.fresh).
  split; [apply Samples.to_stale_reachable|]. vm_compute. done.
Qed.

(** When the check of the DNS upstreams cannot be started, [listen] fires
    the preparation failure of the state machine, which schedules the
    disconnect, but returns the error code of success. *)
Theorem listen_returns_success_on_failure :
  exists c, client_reachable c /\ get_state c = S_CONNECTED /\
    let '(e, c') := VpnClient_listen (Samples.all_ok <| dns_resolve_started := false |>)
                      (mkVpnListenerConfig 0 1) c in
    code e = VPN_EC_NOERROR /\ text e = Some "Failed to start DNS upstream health check" /\
    get_state c' = S_DISCONNECTING /\ occ DT_deferred_disconnect (c_deferred_tasks c') = 1%nat.
Proof.
  exists (Samples.run Samples.to_connected Samples.fresh).
  split; [apply Samples.to_connected_reachable|]. vm_compute. repeat split.
Qed.

(** The upstream has [vpn_upstream_handler] when the connector reports it, but the
    connector is destroyed by a task that is only submitted then.  A session that ends
    in between violates the assertion that there is no connector.  Without assertions,
    an error of the session is ignored and the client reports that it is connected over
    a session that failed; a session that is closed leaves the connector and its
    finalizer behind, and when the client is connected again, the old finalizer destroys
    the new connector, which has reported nothing, and the client reports that it is
    connected. *)
Theorem session_ends_before_finalizer :
  (exists c, client_runs c /\ upstream_asserted c /\ get_state c = S_CONNECTED /\
     last (c_out c) = Some (O_event EVENT_CONNECTED) /\
     c = client_step Samples.all_ok (CI_run_task DT_connector_finalizer)
           (Samples.run (Samples.ended_early (SERVER_EVENT_ERROR NON_ID Samples.session_error)) Samples.fresh)) /\
  (exists c, client_runs c /\ upstream_asserted c /\ get_state c = S_CONNECTED /\ c_endpoint_connector c = None /\
     c = Samples.run [CI_connect Samples.config None; CI_run_task DT_connector_finalizer]
           (Samples.run (Samples.ended_early SERVER_EVENT_SESSION_CLOSED) Samples.fresh)).
Proof.
  split.
  - exists (Samples.run Samples.finalized_after_error Samples.fresh).
    split; [apply Samples.finalized_after_error_runs|]. split; [|by vm_compute].
    left. apply list_elem_of_In. vm_compute. auto.
  - exists (Samples.run Samples.connected_again Samples.fresh).
    split; [apply Samples.connected_again_runs|]. split; [|by vm_compute].
    left. apply list_elem_of_In. vm_compute. auto.
Qed.

(** ** Witnesses *)

Lemma client_runs_wf_witness :
  client_wf (Samples.run Samples.to_connected Samples.fresh) /\
  c_faults (Samples.run Samples.to_connected Samples.fresh) = [].
Proof.
  destruct (client_runs_wf _ Samples.to_connected_runs) as [[Hf|Hf]|[_ H]]; [..|exact H];
    apply list_elem_of_In in Hf; vm_compute in Hf; destruct Hf.
Defined.

Lemma client_step_reports_witness :
  client_good false (Samples.run Samples.to_connected Samples.fresh)
    (client_step Samples.all_ok CI_do_health_check (Samples.run Samples.to_connected Samples.fresh)) \/
  client_loud (Samples.run Samples.to_connected Samples.fresh)
    (client_step Samples.all_ok CI_do_health_check (Samples.run Samples.to_connected Samples.fresh)).
Proof.
  apply (client_step_reports Samples.all_ok CI_do_health_check); [|exact I].
  vm_compute. repeat split.
Defined.

Lemma disconnect_tears_down_witness :
  get_state (VpnClient_disconnect Samples.all_ok (Samples.run Samples.to_connected Samples.fresh)) = S_DISCONNECTED.
Proof.
  refine (proj1 (disconnect_tears_down Samples.all_ok (Samples.run Samples.to_connected Samples.fresh) _)).
  vm_compute. repeat split.
Defined.

Lemma connect_outcome_witness :
  let '(e, c') := VpnClient_connect Samples.all_ok Samples.config (Some 1000) Samples.fresh in
  code e = VPN_EC_NOERROR /\ get_state c' = S_CONNECTING.
Proof.
  refine (connect_outcome Samples.all_ok Samples.config (Some 1000) Samples.fresh _ _ _ _).
  - vm_compute. repeat split.
  - reflexivity.
  - reflexivity.
  - split; discriminate.
Defined.
