(* ===== verification/SingleConnector.v ===== *)
(** * Connecting through one upstream

    Models [core/src/single_upstream_connector.cpp], the endpoint connector that
    opens a session on one upstream, and states what an endpoint connector
    ([core/include/vpn/internal/endpoint_connector.h]) owes the client: the class
    [EndpointConnector].  The upstream itself is the other side: its answers to
    [init] and [open_session] come from the environment, its events are inputs. *)

From S2P Require Import Prelude Fsm VpnTypes PortRanges VpnClient.

(** ** The interface

    [inl] is a connected upstream, [inr] the error the procedure ended with. *)

Definition EndpointConnectorResult : Type := unit + VpnError.

(** What a connector may do.  It is busy from a [connect] that did not fail until
    it reports or is told to disconnect.  A busy connector stays busy until it
    reports, with the report it stops being busy, and an idle one never reports:
    so there is exactly one report per [connect], and none after [disconnect]. *)
Class EndpointConnector (C : Type) := {
  ec_env : Type;
  ec_event : Type;
  ec_connect : ec_env -> option Z -> C -> VpnError * C;
  ec_disconnect : ec_env -> C -> C;
  ec_handle_sleep : C -> C;
  ec_handle_wake : C -> C;
  ec_handle : ec_env -> ec_event -> C -> C;

  ec_wf : C -> Prop;
  ec_fresh : C -> Prop;
  ec_event_ok : ec_event -> C -> Prop;
  ec_busy : C -> bool;
  ec_results : C -> list EndpointConnectorResult;

  ec_fresh_idle c : ec_fresh c -> ec_busy c = false;
  ec_connect_ok env t c :
    ec_wf c -> ec_fresh c ->
    ec_wf (ec_connect env t c).2 /\ ec_results (ec_connect env t c).2 = ec_results c /\
    ec_busy (ec_connect env t c).2 = (code (ec_connect env t c).1 =? VPN_EC_NOERROR);
  ec_disconnect_ok env c :
    ec_wf c ->
    ec_wf (ec_disconnect env c) /\ ec_results (ec_disconnect env c) = ec_results c /\
    ec_busy (ec_disconnect env c) = false;
  ec_sleep_ok c :
    ec_wf c ->
    ec_wf (ec_handle_sleep c) /\ ec_results (ec_handle_sleep c) = ec_results c /\
    ec_busy (ec_handle_sleep c) = ec_busy c;
  ec_wake_ok c :
    ec_wf c ->
    ec_wf (ec_handle_wake c) /\ ec_results (ec_handle_wake c) = ec_results c /\
    ec_busy (ec_handle_wake c) = ec_busy c;
  ec_handle_ok env e c :
    ec_wf c -> ec_event_ok e c ->
    ec_wf (ec_handle env e c) /\
    ((ec_results (ec_handle env e c) = ec_results c /\ ec_busy (ec_handle env e c) = ec_busy c /\
      (ec_fresh c -> ec_fresh (ec_handle env e c))) \/
     (exists r, ec_results (ec_handle env e c) = ec_results c ++ [r] /\
                ec_busy c = true /\ ec_busy (ec_handle env e c) = false));
}.

(** A run of a connector: events, each with the answers of its surroundings. *)
Section Runs.
Context {C : Type} `{EC : EndpointConnector C}.

Definition ec_run (es : list (ec_env * ec_event)) (c : C) : C :=
  fold_left (fun c '(env, e) => ec_handle env e c) es c.

Fixpoint ec_run_ok (es : list (ec_env * ec_event)) (c : C) : Prop :=
  match es with
  | [] => True
  | (env, e) :: es => ec_event_ok e c /\ ec_run_ok es (ec_handle env e c)
  end.

(** While it is busy it has not reported; then it reports once, and no more. *)
Lemma ec_run_reports es c :
  ec_wf c -> ec_run_ok es c ->
  ec_wf (ec_run es c) /\
  if ec_busy c
  then (ec_busy (ec_run es c) = true /\ ec_results (ec_run es c) = ec_results c) \/
       (ec_busy (ec_run es c) = false /\ exists r, ec_results (ec_run es c) = ec_results c ++ [r])
  else ec_busy (ec_run es c) = false /\ ec_results (ec_run es c) = ec_results c.
Proof.
  revert c. induction es as [|[env e] es IH]; intros c Hw Hok; [by cbn; destruct (ec_busy c) eqn:?; auto|]. cbn in Hok. destruct Hok as [He Hok].
  destruct (ec_handle_ok env e c Hw He) as [Hw' H]. destruct (IH _ Hw' Hok) as [Hw2 H2]. split; [done|].
  cbn. fold (ec_run es (ec_handle env e c)). destruct H as [(Hr & Hb & _)|(r & Hr & Hb & Hb')].
  - by rewrite Hb, Hr in H2.
  - rewrite Hb' in H2. rewrite Hb. right. destruct H2 as [H2 H3]. split; [done|]. exists r. by rewrite H3.
Qed.
End Runs.

(** ** The connector *)

Module Single.
Definition S_DISCONNECTED : Z := 0.
Definition S_CONNECTING : Z := 1.
Definition S_DISCONNECTING : Z := 2.

Definition E_RUN_CONNECT : Z := 0.
Definition E_DISCONNECT : Z := 1.
Definition E_DEFERRED_DISCONNECT : Z := 2.
Definition E_SESSION_OPENED : Z := 3.
Definition E_SESSION_CLOSED : Z := 4.
Definition E_SESSION_ERROR : Z := 5.
Definition E_HEALTH_CHECK_ERROR : Z := 6.

(** What the connector does to its surroundings. *)
Inductive Out :=
  | O_upstream_init
  | O_upstream_open_session (timeout : option Z)
  | O_upstream_close_session
  | O_upstream_deinit
  | O_upstream_handle_sleep
  | O_upstream_handle_wake
  | O_result (result : EndpointConnectorResult).

Record Impl := mkImpl {
  s_fsm : FsmCell;
  s_upstream : bool;
  s_pending_error : option VpnError;
  s_deferred_task : bool;
  s_out : list Out;
  s_faults : list string;
}.
#[export] Instance eta_Impl : Eta Impl := fun r =>
  mkImpl (s_fsm r) (s_upstream r) (s_pending_error r) (s_deferred_task r) (s_out r) (s_faults r).

Record Env := mkEnv { upstream_init : bool; upstream_open_session : option Z -> bool }.

Definition s_fault (what : string) (s : Impl) : Impl := s <| s_faults := s_faults s ++ [what] |>.
Definition s_emit (o : Out) (s : Impl) : Impl := s <| s_out := s_out s ++ [o] |>.

(** A call on [upstream]. *)
Definition call_upstream (o : Out) (s : Impl) : Impl :=
  if s_upstream s then s_emit o s else s_fault "upstream is null" s.

#[export, refine] Instance Impl_FsmCtx : FsmCtx Impl := {|
  get_fsm := s_fsm;
  put_fsm f s := s <| s_fsm := f |>;
  fail_assert := s_fault "recursive fsm run";
|}.
Proof. all: by intros; destruct_all Impl. Defined.

(** The [void *] of an event. *)
Inductive Data := D_null | D_timeout (timeout : option Z) | D_error (error : VpnError).

Definition as_error (d : Data) : option VpnError := match d with D_error e => Some e | _ => None end.

Inductive Guard :=.
Inductive Action := A_do_connect | A_do_disconnect | A_submit_disconnect | A_raise_connected | A_raise_disconnected.

Definition TRANSITION_TABLE : FsmTransitionTable Guard Action := [
  mkEntry S_DISCONNECTED E_RUN_CONNECT ANYWAY (Some A_do_connect) S_CONNECTING DO_NOTHING;
  mkEntry S_DISCONNECTED E_SESSION_CLOSED ANYWAY DO_NOTHING SAME_TARGET_STATE DO_NOTHING;
  mkEntry S_DISCONNECTED E_DISCONNECT ANYWAY DO_NOTHING SAME_TARGET_STATE DO_NOTHING;

  mkEntry S_CONNECTING E_SESSION_OPENED ANYWAY DO_NOTHING S_DISCONNECTED (Some A_raise_connected);
  mkEntry S_CONNECTING E_SESSION_CLOSED ANYWAY DO_NOTHING S_DISCONNECTED (Some A_raise_disconnected);
  mkEntry S_CONNECTING E_SESSION_ERROR ANYWAY (Some A_submit_disconnect) S_DISCONNECTING DO_NOTHING;

  mkEntry S_DISCONNECTING E_SESSION_CLOSED ANYWAY DO_NOTHING S_DISCONNECTED (Some A_raise_disconnected);
  mkEntry S_DISCONNECTING E_DEFERRED_DISCONNECT ANYWAY (Some A_do_disconnect) S_DISCONNECTED (Some A_raise_disconnected);

  mkEntry ANY_SOURCE_STATE E_DISCONNECT ANYWAY (Some A_do_disconnect) S_DISCONNECTED DO_NOTHING
].

Section Methods.
Context (env : Env).
Implicit Types (s : Impl) (data : Data).

Definition do_connect data s : Impl :=
  let timeout := match data with D_timeout t => t | _ => None end in
  let s := call_upstream (O_upstream_open_session timeout) s in
  if negb (upstream_open_session env timeout)
  then s <| s_pending_error := Some (mkVpnError VPN_EC_ERROR (Some "Failed to open session with endpoint")) |>
  else s.

(** The first error of a session is kept. *)
Definition keep_error data s : Impl :=
  match s_pending_error s, as_error data with
  | None, Some e => if code e =? VPN_EC_NOERROR then s else s <| s_pending_error := Some e |>
  | _, _ => s
  end.

Definition do_disconnect data s : Impl :=
  let s := keep_error data s in
  let s := call_upstream O_upstream_close_session s in
  let s := call_upstream O_upstream_deinit s in
  s <| s_deferred_task := false |>.

Definition submit_disconnect data s : Impl :=
  (keep_error data s) <| s_deferred_task := true |>.

(** The upstream moves to the receiver of the result. *)
Definition raise_connected s : Impl :=
  let s := if s_upstream s then s else s_fault "upstream is null" s in
  s_emit (O_result (inl tt)) (s <| s_upstream := false |>).

Definition raise_disconnected data s : Impl :=
  match s_pending_error s with
  | Some e => s_emit (O_result (inr e)) (s <| s_pending_error := None |>)
  | None => s_emit (O_result (inr (default no_error (as_error data)))) s
  end.

Definition eval_condition (g : Guard) s data : bool := match g with end.

Definition run_action (a : Action) data s : Impl :=
  match a with
  | A_do_connect => do_connect data s
  | A_do_disconnect => do_disconnect data s
  | A_submit_disconnect => submit_disconnect data s
  | A_raise_connected => raise_connected s
  | A_raise_disconnected => raise_disconnected data s
  end.

Definition transition (ev : Z) data s : Impl :=
  perform_transition eval_condition run_action TRANSITION_TABLE ev data s.

Definition upstream_handler (what : ServerEvent) s : Impl :=
  match what with
  | SERVER_EVENT_SESSION_OPENED => transition E_SESSION_OPENED D_null s
  | SERVER_EVENT_SESSION_CLOSED => transition E_SESSION_CLOSED D_null s
  | SERVER_EVENT_HEALTH_CHECK_ERROR error => transition E_HEALTH_CHECK_ERROR (D_error error) s
  | SERVER_EVENT_ERROR id error =>
      let s := if id =? NON_ID then s else s_fault "error of a connection" s in
      transition E_SESSION_ERROR (D_error error) s
  | _ => s_fault "unexpected upstream event" s
  end.

(** The function [submit_disconnect] submits. *)
Definition deferred_disconnect s : Impl :=
  transition E_DEFERRED_DISCONNECT D_null (s <| s_deferred_task := false |>).

Definition disconnect s : Impl := transition E_DISCONNECT D_null s.

Definition connect (timeout : option Z) s : VpnError * Impl :=
  if negb (get_state s =? S_DISCONNECTED) then (mkVpnError VPN_EC_ERROR (Some "Invalid state"), s)
  else
    let s := call_upstream O_upstream_init s in
    if negb (upstream_init env) then (mkVpnError VPN_EC_ERROR (Some "Failed to initialize upstream"), s)
    else
      let s := transition E_RUN_CONNECT (D_timeout timeout) s in
      match s_pending_error s with
      | Some e => (e, disconnect (s <| s_pending_error := None |>))
      | None => (no_error, s)
      end.

Definition handle_sleep s : Impl :=
  if get_state s =? S_CONNECTING then call_upstream O_upstream_handle_sleep s else s.
Definition handle_wake s : Impl :=
  if get_state s =? S_CONNECTING then call_upstream O_upstream_handle_wake s else s.

(** What reaches the connector from outside its interface. *)
Inductive Event := V_upstream (what : ServerEvent) | V_deferred_disconnect.

Definition handle (e : Event) s : Impl :=
  match e with
  | V_upstream what => upstream_handler what s
  | V_deferred_disconnect => deferred_disconnect s
  end.
End Methods.

(** As constructed, with its upstream. *)
Definition new : Impl := mkImpl (mkFsmCell S_DISCONNECTED false) true None false [] [].

Definition results (s : Impl) : list EndpointConnectorResult :=
  omap (fun o => match o with O_result r => Some r | _ => None end) (s_out s).

Definition busy (s : Impl) : bool := negb (get_state s =? S_DISCONNECTED).

(** ** Invariant *)

(** The upstream is there while a session is being opened or torn down. *)
Definition wf (s : Impl) : Prop :=
  m_recursive (s_fsm s) = false /\ s_faults s = [] /\
  (get_state s = S_DISCONNECTED \/
   ((get_state s = S_CONNECTING \/ get_state s = S_DISCONNECTING) /\ s_upstream s = true)).

(** [connect] is for a connector that was not used yet. *)
Definition fresh (s : Impl) : Prop :=
  get_state s = S_DISCONNECTED /\ s_upstream s = true /\ s_pending_error s = None.

(** The upstream reports on the session only. *)
Definition event_ok (e : Event) (s : Impl) : Prop :=
  match e with
  | V_upstream (SERVER_EVENT_SESSION_OPENED | SERVER_EVENT_SESSION_CLOSED | SERVER_EVENT_HEALTH_CHECK_ERROR _) => True
  | V_upstream (SERVER_EVENT_ERROR id _) => id = NON_ID
  | V_upstream _ => False
  | V_deferred_disconnect => True
  end.

(** What an event may do to the reports. *)
Definition reports_once (s s' : Impl) : Prop :=
  (results s' = results s /\ busy s' = busy s /\ (fresh s -> fresh s')) \/
  (exists r, results s' = results s ++ [r] /\ busy s = true /\ busy s' = false).

Section Proofs.
Context (env : Env).
Implicit Types (s : Impl).

(** The transitions, as equations. *)
Ltac transition_eq s :=
  destruct s as [[st rec] [] [] dt out faults]; cbn in *; subst; reflexivity.

Abbreviation at_state st s := (s <| s_fsm := mkFsmCell st false |>).

Lemma ignored_eq ev data s :
  m_recursive (s_fsm s) = false -> find_entry (get_state s) ev TRANSITION_TABLE = None ->
  transition env ev data s = s.
Proof.
  intros Hr Hn. unfold transition. rewrite perform_transition_not_recursive by done.
  rewrite first_match_find_entry by (repeat constructor). by rewrite get_state_set_recursive, Hn.
Qed.

Lemma nothing_eq ev data s :
  m_recursive (s_fsm s) = false -> get_state s = S_DISCONNECTED -> ev = E_SESSION_CLOSED \/ ev = E_DISCONNECT ->
  transition env ev data s = s.
Proof. intros Hr Hs [->| ->]; transition_eq s. Qed.

Lemma opened_eq s :
  m_recursive (s_fsm s) = false -> get_state s = S_CONNECTING ->
  transition env E_SESSION_OPENED D_null s = raise_connected (at_state S_DISCONNECTED s).
Proof. intros. transition_eq s. Qed.

Lemma closed_eq s :
  m_recursive (s_fsm s) = false -> get_state s = S_CONNECTING \/ get_state s = S_DISCONNECTING ->
  transition env E_SESSION_CLOSED D_null s = raise_disconnected D_null (at_state S_DISCONNECTED s).
Proof. intros Hr [Hs|Hs]; transition_eq s. Qed.

Lemma error_eq e s :
  m_recursive (s_fsm s) = false -> get_state s = S_CONNECTING ->
  transition env E_SESSION_ERROR (D_error e) s =
  submit_disconnect (D_error e) (at_state S_DISCONNECTING s).
Proof.
  intros Hr Hs. destruct s as [[st rec] up [] dt out faults]; cbn in *; subst; [reflexivity|].
  by destruct e as [[|?|?] ?].
Qed.

Lemma deferred_eq s :
  m_recursive (s_fsm s) = false -> get_state s = S_DISCONNECTING -> s_upstream s = true ->
  transition env E_DEFERRED_DISCONNECT D_null s =
  raise_disconnected D_null (do_disconnect D_null (at_state S_DISCONNECTED s)).
Proof. intros. transition_eq s. Qed.

Lemma disconnect_eq s :
  m_recursive (s_fsm s) = false -> get_state s = S_CONNECTING \/ get_state s = S_DISCONNECTING -> s_upstream s = true ->
  disconnect env s = do_disconnect D_null (at_state S_DISCONNECTED s).
Proof. intros Hr [Hs|Hs] Hu; transition_eq s. Qed.

Lemma run_connect_eq t s :
  m_recursive (s_fsm s) = false -> get_state s = S_DISCONNECTED -> s_upstream s = true ->
  transition env E_RUN_CONNECT (D_timeout t) s = do_connect env (D_timeout t) (at_state S_CONNECTING s).
Proof.
  intros Hr Hs Hu. destruct s as [[st rec] up pe dt out faults]; cbn in *; subst.
  assert (Hb : exists b, upstream_open_session env t = b) by eauto. destruct Hb as [b Hb].
  unfold transition, perform_transition. cbn -[do_connect]. unfold do_connect. rewrite Hb. by destruct b.
Qed.

Lemma results_emit o s :
  results (s_emit o s) = results s ++ match o with O_result r => [r] | _ => [] end.
Proof. unfold results, s_emit, assign. cbn. rewrite omap_app. by destruct o. Qed.

(** What the actions leave alone. *)
Lemma call_upstream_ok o s :
  s_upstream s = true -> (forall r, o <> O_result r) ->
  s_fsm (call_upstream o s) = s_fsm s /\ s_faults (call_upstream o s) = s_faults s /\
  s_upstream (call_upstream o s) = true /\ results (call_upstream o s) = results s.
Proof.
  intros Hu Ho. unfold call_upstream. rewrite Hu. split_and!; try done.
  rewrite results_emit. destruct o; rewrite ?app_nil_r; try done. by destruct (Ho result).
Qed.

Lemma keep_error_ok data s :
  s_fsm (keep_error data s) = s_fsm s /\ s_faults (keep_error data s) = s_faults s /\
  s_upstream (keep_error data s) = s_upstream s /\ results (keep_error data s) = results s.
Proof. unfold keep_error. destruct (s_pending_error s), (as_error data) as [e|]; try done. by destruct (_ =? _). Qed.

Lemma do_disconnect_ok data s :
  s_upstream s = true ->
  s_fsm (do_disconnect data s) = s_fsm s /\ s_faults (do_disconnect data s) = s_faults s /\
  s_upstream (do_disconnect data s) = true /\ results (do_disconnect data s) = results s.
Proof.
  intros Hu. unfold do_disconnect. destruct (keep_error_ok data s) as (H1 & H2 & H3 & H4). rewrite Hu in H3.
  destruct (call_upstream_ok O_upstream_close_session _ H3) as (H5 & H6 & H7 & H8); [done|].
  destruct (call_upstream_ok O_upstream_deinit _ H7) as (H9 & H10 & H11 & H12); [done|].
  revert H9 H10 H11 H12. generalize (call_upstream O_upstream_deinit (call_upstream O_upstream_close_session (keep_error data s))).
  intros w H9 H10 H11 H12. split_and!; try done; [by rewrite <- H1, <- H5, <- H9|by rewrite <- H2, <- H6, <- H10|].
  by rewrite <- H4, <- H8, <- H12.
Qed.

Lemma raise_disconnected_ok data s :
  s_fsm (raise_disconnected data s) = s_fsm s /\ s_faults (raise_disconnected data s) = s_faults s /\
  exists e, results (raise_disconnected data s) = results s ++ [inr e].
Proof.
  unfold raise_disconnected. destruct (s_pending_error s) as [e|]; (split_and!; [done..|]).
  - exists e. by rewrite results_emit.
  - exists (default no_error (as_error data)). by rewrite results_emit.
Qed.

(** Nothing happened, or something happened that is not a report. *)
Lemma silent_step s s' :
  wf s' -> results s' = results s -> busy s' = busy s -> (fresh s -> fresh s') -> wf s' /\ reports_once s s'.
Proof. intros Hw Hr Hb. split; [done|]. left. done. Qed.

Lemma same_step s : wf s -> wf s /\ reports_once s s.
Proof. intros Hw. apply silent_step; auto. Qed.

Lemma busy_true s : get_state s = S_CONNECTING \/ get_state s = S_DISCONNECTING -> busy s = true.
Proof. unfold busy. by intros [->| ->]. Qed.

(** The end of a session that is reported. *)
Lemma reported_step data s w :
  busy s = true -> s_fsm w = mkFsmCell S_DISCONNECTED false -> s_faults w = [] -> results w = results s ->
  wf (raise_disconnected data w) /\ reports_once s (raise_disconnected data w).
Proof.
  intros Hb Hf Hfa Hr. destruct (raise_disconnected_ok data w) as (H1 & H2 & e & H3).
  assert (Hst : get_state (raise_disconnected data w) = S_DISCONNECTED) by (unfold get_state; cbn -[raise_disconnected]; by rewrite H1, Hf).
  split.
  - split; [by rewrite H1, Hf|]. split; [by rewrite H2|by left].
  - right. exists (inr e). split; [by rewrite H3, Hr|]. split; [done|]. unfold busy. by rewrite Hst.
Qed.

Lemma disconnect_ok s :
  wf s ->
  wf (disconnect env s) /\ results (disconnect env s) = results s /\ busy (disconnect env s) = false /\
  s_upstream (disconnect env s) = s_upstream s.
Proof.
  intros Hwf. pose proof Hwf as (Hr & Hf & [Hs|[Hs Hu]]).
  - unfold disconnect. rewrite nothing_eq by auto. unfold busy. by rewrite Hs.
  - rewrite disconnect_eq by done.
    set (w := at_state S_DISCONNECTED s). destruct (do_disconnect_ok D_null w Hu) as (D1 & D2 & D3 & D4).
    generalize dependent (do_disconnect D_null w). intros u D1 D2 D3 D4.
    assert (Hst : get_state u = S_DISCONNECTED) by (unfold get_state; cbn; by rewrite D1).
    split; [split; [by rewrite D1|split; [by rewrite D2|by left]]|]. split; [done|].
    split; [unfold busy; by rewrite Hst|by rewrite D3].
Qed.

(** Starting: what [init] and [open_session] answer decides. *)
Lemma connect_ok t s :
  wf s -> s_upstream s = true ->
  let '(e, s') := connect env t s in
  wf s' /\ results s' = results s /\ s_upstream s' = true /\
  (get_state s = S_DISCONNECTED -> s_pending_error s = None ->
     (code e =? VPN_EC_NOERROR) = busy s' /\
     (code e =? VPN_EC_NOERROR) = upstream_init env && upstream_open_session env t).
Proof.
  intros (Hr & Hf & Hst) Hu. unfold connect.
  destruct (Z.eqb_spec (get_state s) S_DISCONNECTED) as [Hs|Hs]; cbn [negb]; [|by split_and!].
  destruct (call_upstream_ok O_upstream_init s Hu) as (H1 & H2 & H3 & H4); [done|].
  assert (Hp : s_pending_error (call_upstream O_upstream_init s) = s_pending_error s)
    by (unfold call_upstream; by destruct (s_upstream s)).
  generalize dependent (call_upstream O_upstream_init s). intros w H1 H2 H3 H4 Hp.
  assert (Hw : get_state w = S_DISCONNECTED) by (unfold get_state; cbn; by rewrite H1).
  destruct (upstream_init env); cbn [negb andb].
  2:{ split; [split; [by rewrite H1|split; [by rewrite H2|by left]]|].
      split; [done|]. split; [done|]. intros _ _. unfold busy. by rewrite Hw. }
  rewrite run_connect_eq by (done || by rewrite H1). unfold do_connect.
  set (w0 := at_state S_CONNECTING w).
  destruct (call_upstream_ok (O_upstream_open_session t) w0 H3) as (H5 & H6 & H7 & H8); [done|].
  assert (Hp1 : s_pending_error (call_upstream (O_upstream_open_session t) w0) = s_pending_error s)
    by (unfold call_upstream; cbn; by rewrite H3).
  generalize dependent (call_upstream (O_upstream_open_session t) w0). intros w1 H5 H6 H7 H8 Hp1.
  assert (Hw1 : forall p, wf (w1 <| s_pending_error := p |>)).
  { intros p. split_and!; [cbn; by rewrite H5|cbn; rewrite H6; cbn; by rewrite H2|].
    right. split; [left; unfold get_state; cbn; by rewrite H5|done]. }
  assert (Hr1 : results w1 = results s) by (rewrite H8; exact H4).
  assert (Hb1 : busy w1 = true) by (unfold busy, get_state; cbn; by rewrite H5).
  destruct (upstream_open_session env t); cbn [negb].
  - destruct (s_pending_error w1) as [e|] eqn:He.
    + destruct (disconnect_ok _ (Hw1 None)) as (D1 & D2 & D3 & D4).
      split; [exact D1|]. split; [by etrans; [exact D2|]|]. split; [by etrans; [exact D4|]|]. intros _ Hn. congruence.
    + split; [|split; [done|split; [done|by rewrite Hb1]]]. specialize (Hw1 (s_pending_error w1)).
      by destruct w1.
  - destruct (disconnect_ok _ (Hw1 None)) as (D1 & D2 & D3 & D4).
    split; [exact D1|]. split; [by etrans; [exact D2|]|]. split; [by etrans; [exact D4|]|]. intros _ _.
    split; [symmetry; exact D3|done].
Qed.

Lemma upstream_call_ok o s :
  wf s -> s_upstream s = true -> (forall r, o <> O_result r) ->
  wf (call_upstream o s) /\ results (call_upstream o s) = results s /\ busy (call_upstream o s) = busy s.
Proof.
  intros (Hr & Hf & Hst) Hu Ho. destruct (call_upstream_ok o s Hu Ho) as (H1 & H2 & H3 & H4).
  assert (Hs : get_state (call_upstream o s) = get_state s) by (unfold get_state; cbn -[call_upstream]; by rewrite H1).
  split; [|split; [done|unfold busy; by rewrite Hs]].
  split; [by rewrite H1|]. split; [by rewrite H2|]. rewrite Hs, H3. by rewrite Hu in Hst.
Qed.

Lemma opened_step s :
  s_faults s = [] -> s_upstream s = true -> busy s = true ->
  wf (raise_connected (at_state S_DISCONNECTED s)) /\ reports_once s (raise_connected (at_state S_DISCONNECTED s)).
Proof.
  intros Hf Hu Hb. unfold raise_connected. change (s_upstream (at_state S_DISCONNECTED s)) with (s_upstream s). rewrite Hu.
  split; [split; [done|split; [done|by left]]|]. right. exists (inl tt). split; [by rewrite results_emit|done].
Qed.

Lemma error_step e s :
  s_faults s = [] -> s_upstream s = true -> get_state s = S_CONNECTING ->
  let s' := submit_disconnect (D_error e) (at_state S_DISCONNECTING s) in wf s' /\ reports_once s s'.
Proof.
  intros Hf Hu Hc. unfold submit_disconnect. set (w := at_state S_DISCONNECTING s).
  destruct (keep_error_ok (D_error e) w) as (H1 & H2 & H3 & H4).
  generalize dependent (keep_error (D_error e) w). intros u H1 H2 H3 H4.
  assert (Hst : get_state (u <| s_deferred_task := true |>) = S_DISCONNECTING) by (unfold get_state; cbn; by rewrite H1).
  apply silent_step; [|exact H4|unfold busy; by rewrite Hst, Hc|intros [Hd _]; by rewrite Hc in Hd].
  split; [cbn; by rewrite H1|]. split; [cbn; by rewrite H2|].
  right. split; [by right|cbn; by rewrite H3].
Qed.

Lemma upstream_handler_ok what s :
  wf s -> event_ok (V_upstream what) s -> wf (upstream_handler env what s) /\ reports_once s (upstream_handler env what s).
Proof.
  intros Hwf Hok. pose proof Hwf as (Hr & Hf & Hst). destruct what; try done; cbn [upstream_handler event_ok] in *.
  - destruct Hst as [Hs|[[Hs|Hs] Hu]].
    + rewrite ignored_eq; [by apply same_step|done|by rewrite Hs].
    + rewrite opened_eq by done. apply opened_step; [done..|by apply busy_true; left].
    + rewrite ignored_eq; [by apply same_step|done|by rewrite Hs].
  - destruct Hst as [Hs|[Hs Hu]].
    + rewrite nothing_eq by auto. by apply same_step.
    + rewrite closed_eq by done. apply reported_step; [by apply busy_true|done..].
  - rewrite ignored_eq; [by apply same_step|done|]. by destruct Hst as [->|[[->| ->] _]].
  - rewrite Hok. change (NON_ID =? NON_ID) with true. cbn iota. destruct Hst as [Hs|[[Hs|Hs] Hu]].
    + rewrite ignored_eq; [by apply same_step|done|by rewrite Hs].
    + rewrite error_eq by done. by apply error_step.
    + rewrite ignored_eq; [by apply same_step|done|by rewrite Hs].
Qed.

Lemma single_deferred_disconnect_ok s : wf s -> wf (deferred_disconnect env s) /\ reports_once s (deferred_disconnect env s).
Proof.
  intros Hwf. pose proof Hwf as (Hr & Hf & Hst). unfold deferred_disconnect. set (w := s <| s_deferred_task := false |>).
  assert (Hw : wf w) by done.
  assert (Hskip : find_entry (get_state w) E_DEFERRED_DISCONNECT TRANSITION_TABLE = None ->
                  wf (transition env E_DEFERRED_DISCONNECT D_null w) /\
                  reports_once s (transition env E_DEFERRED_DISCONNECT D_null w)).
  { intros Hn. rewrite ignored_eq by done. by apply silent_step. }
  destruct Hst as [Hs|[[Hs|Hs] Hu]].
  - apply Hskip. change (get_state w) with (get_state s). by rewrite Hs.
  - apply Hskip. change (get_state w) with (get_state s). by rewrite Hs.
  - rewrite deferred_eq by done. set (u := at_state S_DISCONNECTED w).
    destruct (do_disconnect_ok D_null u Hu) as (D1 & D2 & D3 & D4).
    apply reported_step; [by apply busy_true; right|by rewrite D1|by rewrite D2|by rewrite D4].
Qed.

Lemma when_connecting o s :
  wf s -> (forall r, o <> O_result r) ->
  let s' := if get_state s =? S_CONNECTING then call_upstream o s else s in
  wf s' /\ results s' = results s /\ busy s' = busy s.
Proof.
  intros Hwf Ho. cbv zeta. destruct (Z.eqb_spec (get_state s) S_CONNECTING) as [Hs|]; [|done].
  apply upstream_call_ok; [done| |done]. destruct Hwf as (_ & _ & [Hd|[_ Hu]]); [by rewrite Hs in Hd|done].
Qed.
End Proofs.

#[global, refine] Instance connector : EndpointConnector Impl := {|
  ec_connect := connect;
  ec_disconnect := disconnect;
  ec_handle_sleep := handle_sleep;
  ec_handle_wake := handle_wake;
  ec_handle := handle;
  ec_wf := wf;
  ec_fresh := fresh;
  ec_event_ok := event_ok;
  ec_busy := busy;
  ec_results := results;
|}.
Proof.
  - intros s (Hs & _). unfold busy. by rewrite Hs.
  - intros env t s Hwf (Hs & Hu & Hp). pose proof (connect_ok env t s Hwf Hu) as H. destruct (connect env t s) as [e s'].
    destruct H as (H1 & H2 & H3 & H4). destruct (H4 Hs Hp) as [H5 _]. by split_and!.
  - intros env s Hwf. destruct (disconnect_ok env s Hwf) as (H1 & H2 & H3 & _). done.
  - intros s Hwf. by apply when_connecting.
  - intros s Hwf. by apply when_connecting.
  - intros env [what|] s Hwf Hok; [by apply upstream_handler_ok|by apply single_deferred_disconnect_ok].
Defined.
End Single.
