(* ===== verification/FallbackConnector.v ===== *)
(** * Connecting through a main upstream with a fallback

    Models [core/src/fallbackable_upstream_connector.cpp]: two connectors race,
    the second one started when the first has failed or has not answered in time.
    The two are any [EndpointConnector]s, and what is built of them is one
    again.  Their reports are handled later, by tasks of the event loop; the
    tasks are part of the state, and running one is an event. *)

From S2P Require Import Prelude Fsm VpnTypes PortRanges VpnClient SingleConnector.

Module Fallback.
Section Fallback.
Context {C : Type} `{EC : EndpointConnector C}.

Record MainInfo := mkMainInfo {
  mi_connector : option C;
  mi_has_result : bool;
  mi_start_ts : Z;
  mi_result_task : option EndpointConnectorResult;
}.
#[export] Instance eta_MainInfo : Eta MainInfo := fun r =>
  mkMainInfo (mi_connector r) (mi_has_result r) (mi_start_ts r) (mi_result_task r).

(** [fi_delay_task] is the task that starts the fallback, with the delay it was
    scheduled with; [event_loop::submit] is the delay 0. *)
Record FallbackInfo := mkFallbackInfo {
  fi_connector : option C;
  fi_delay : Z;
  fi_tried : bool;
  fi_has_result : bool;
  fi_delay_task : option Z;
  fi_result_task : option EndpointConnectorResult;
}.
#[export] Instance eta_FallbackInfo : Eta FallbackInfo := fun r =>
  mkFallbackInfo (fi_connector r) (fi_delay r) (fi_tried r) (fi_has_result r) (fi_delay_task r) (fi_result_task r).

Record Connector := mkConnector {
  m_main : MainInfo;
  m_fallback : FallbackInfo;
  m_connect_timeout : option Z;
  m_raised : list EndpointConnectorResult;
  m_faults : list string;
}.
#[export] Instance eta_Connector : Eta Connector := fun r =>
  mkConnector (m_main r) (m_fallback r) (m_connect_timeout r) (m_raised r) (m_faults r).

(** [now] is [steady_clock::now()] in milliseconds. *)
Record Env := mkEnv { now : Z; main_env : ec_env; fallback_env : ec_env }.

Implicit Types (m : MainInfo) (f : FallbackInfo) (s : Connector).

Definition main_empty : MainInfo := mkMainInfo None false 0 None.
Definition fallback_empty : FallbackInfo := mkFallbackInfo None 0 false false None None.

Definition fault (what : string) s : Connector := s <| m_faults := m_faults s ++ [what] |>.
Definition set_main m s : Connector := s <| m_main := m |>.
Definition set_fallback f s : Connector := s <| m_fallback := f |>.

(** As constructed from its two connectors. *)
Definition new (main fallback : C) (fallback_delay : Z) : Connector :=
  mkConnector (mkMainInfo (Some main) false 0 None)
              (mkFallbackInfo (Some fallback) fallback_delay false false None None) None [] [].

(** The handlers the two connectors report to. *)
Definition main_connector_handler (result : EndpointConnectorResult) s : Connector :=
  let s := match mi_result_task (m_main s) with None => s | Some _ => fault "main result task is scheduled" s end in
  set_main ((m_main s) <| mi_result_task := Some result |>) s.

Definition fallback_connector_handler (result : EndpointConnectorResult) s : Connector :=
  let s := match fi_result_task (m_fallback s) with None => s | Some _ => fault "fallback result task is scheduled" s end in
  set_fallback ((m_fallback s) <| fi_result_task := Some result |>) s.

(** The reports the call of a connector made: the ones it has after the call and
    did not have before. *)
Definition reports (before after : C) : list EndpointConnectorResult :=
  drop (length (ec_results before)) (ec_results after).

(** The main connector turned from [c] into [c'], and the reports it made on the
    way reached their handler. *)
Definition main_becomes (c c' : C) s : Connector :=
  fold_left (fun s r => main_connector_handler r s) (reports c c')
            (set_main ((m_main s) <| mi_connector := Some c' |>) s).

Definition fallback_becomes (c c' : C) s : Connector :=
  fold_left (fun s r => fallback_connector_handler r s) (reports c c')
            (set_fallback ((m_fallback s) <| fi_connector := Some c' |>) s).

(** A call of a connector that may be null, guarded by the caller. *)
Definition call_main (op : C -> C) s : Connector :=
  match mi_connector (m_main s) with Some c => main_becomes c (op c) s | None => s end.

Definition call_fallback (op : C -> C) s : Connector :=
  match fi_connector (m_fallback s) with Some c => fallback_becomes c (op c) s | None => s end.

Definition main_running s : bool := negb (mi_has_result (m_main s)).
Definition fallback_running s : bool := fi_tried (m_fallback s) && negb (fi_has_result (m_fallback s)).

Section Methods.
Context (env : Env).

(** Which of the connectors a result is of. *)
Inductive Leg := MAIN | FALLBACK.

Definition is_connected (result : EndpointConnectorResult) : bool :=
  match result with inl _ => true | inr _ => false end.

Definition disconnect_another (leg : Leg) s : Connector :=
  match leg with
  | MAIN => call_fallback (ec_disconnect (fallback_env env)) s
  | FALLBACK => call_main (ec_disconnect (main_env env)) s
  end.

Definition mark_result (leg : Leg) s : Connector :=
  match leg with
  | MAIN =>
      set_main ((m_main s) <| mi_connector := None |> <| mi_has_result := true |> <| mi_result_task := None |>) s
  | FALLBACK =>
      set_fallback ((m_fallback s) <| fi_connector := None |> <| fi_has_result := true |> <| fi_result_task := None |>) s
  end.

Definition raise (result : EndpointConnectorResult) s : Connector :=
  s <| m_raised := m_raised s ++ [result] |> <| m_main := main_empty |> <| m_fallback := fallback_empty |>.

Definition handle_connect_result (leg : Leg) (result : EndpointConnectorResult) s : Connector :=
  let s := if is_connected result then disconnect_another leg s else s in
  let s := mark_result leg s in
  let both := mi_has_result (m_main s) && fi_has_result (m_fallback s) in
  if is_connected result || both then raise result s
  else if negb (fi_tried (m_fallback s)) then set_fallback ((m_fallback s) <| fi_delay_task := Some 0 |>) s
  else s.

(** What is left of the connect timeout, a tenth of it at least. *)
Definition fallback_timeout s : option Z :=
  match m_connect_timeout s with
  | Some t => Some (Z.max (t - (now env - mi_start_ts (m_main s))) (Z.quot t 10))
  | None => None
  end.

Definition start_fallback_connection s : Connector :=
  let s := if fi_tried (m_fallback s) then fault "fallback is tried" s else s in
  let s := if fi_has_result (m_fallback s) then fault "fallback has result" s else s in
  let s := set_fallback ((m_fallback s) <| fi_tried := true |>) s in
  match fi_connector (m_fallback s) with
  | None => fault "fallback connector is null" s
  | Some c =>
      let '(error, c') := ec_connect (fallback_env env) (fallback_timeout s) c in
      let s := fallback_becomes c c' s in
      if negb (code error =? VPN_EC_NOERROR) then handle_connect_result FALLBACK (inr error) s else s
  end.

Definition connect (timeout : option Z) s : VpnError * Connector :=
  let s := s <| m_connect_timeout := timeout |> in
  let s := set_main ((m_main s) <| mi_start_ts := now env |>) s in
  let s :=
    match mi_connector (m_main s) with
    | None => fault "main connector is null" s
    | Some c =>
        let '(error, c') := ec_connect (main_env env) timeout c in
        let s := main_becomes c c' s in
        if negb (code error =? VPN_EC_NOERROR) then handle_connect_result MAIN (inr error) s
        else set_fallback ((m_fallback s) <| fi_delay_task := Some (fi_delay (m_fallback s)) |>) s
    end in
  (no_error, s).

Definition disconnect s : Connector :=
  let s := if main_running s then call_main (ec_disconnect (main_env env)) s else s in
  let s := set_main ((m_main s) <| mi_result_task := None |>) s in
  let s := if fallback_running s then call_fallback (ec_disconnect (fallback_env env)) s else s in
  set_fallback ((m_fallback s) <| fi_delay_task := None |> <| fi_result_task := None |>) s.
End Methods.

Definition handle_sleep s : Connector :=
  let s := if main_running s then call_main ec_handle_sleep s else s in
  if fallback_running s then call_fallback ec_handle_sleep s else s.

Definition handle_wake s : Connector :=
  let s := if main_running s then call_main ec_handle_wake s else s in
  if fallback_running s then call_fallback ec_handle_wake s else s.

(** What the event loop runs: an event of one of the connectors, the delayed
    start of the fallback, or the handling of a report. *)
Inductive Event :=
  | V_main (e : ec_event)
  | V_fallback (e : ec_event)
  | V_delay_task
  | V_main_result_task
  | V_fallback_result_task.

Definition handle (env : Env) (e : Event) s : Connector :=
  match e with
  | V_main e => call_main (ec_handle (main_env env) e) s
  | V_fallback e => call_fallback (ec_handle (fallback_env env) e) s
  | V_delay_task =>
      match fi_delay_task (m_fallback s) with
      | Some _ => start_fallback_connection env (set_fallback ((m_fallback s) <| fi_delay_task := None |>) s)
      | None => s
      end
  | V_main_result_task =>
      match mi_result_task (m_main s) with Some r => handle_connect_result env MAIN r s | None => s end
  | V_fallback_result_task =>
      match fi_result_task (m_fallback s) with Some r => handle_connect_result env FALLBACK r s | None => s end
  end.

(** ** Invariant

    While the connector runs, each of the two legs runs or has failed, and not
    both have failed. *)

Inductive main_runs : MainInfo -> Prop :=
  | main_waits c ts : ec_wf c -> ec_busy c = true -> main_runs (mkMainInfo (Some c) false ts None)
  | main_answered c ts r : ec_wf c -> ec_busy c = false -> main_runs (mkMainInfo (Some c) false ts (Some r)).

Inductive main_failed : MainInfo -> Prop :=
  | main_failed_intro ts : main_failed (mkMainInfo None true ts None).

Definition idle (connector : option C) : Prop :=
  match connector with Some c => ec_wf c /\ ec_busy c = false | None => True end.

Inductive main_idle : MainInfo -> Prop :=
  | main_idle_intro o h ts : idle o -> main_idle (mkMainInfo o h ts None).

Inductive fallback_waits : FallbackInfo -> Prop :=
  | fallback_waits_intro c d t : ec_wf c -> ec_fresh c -> fallback_waits (mkFallbackInfo (Some c) d false false (Some t) None).

Inductive fallback_runs : FallbackInfo -> Prop :=
  | fallback_tried c d : ec_wf c -> ec_busy c = true -> fallback_runs (mkFallbackInfo (Some c) d true false None None)
  | fallback_answered c d r : ec_wf c -> ec_busy c = false -> fallback_runs (mkFallbackInfo (Some c) d true false None (Some r)).

Inductive fallback_failed : FallbackInfo -> Prop :=
  | fallback_failed_intro d : fallback_failed (mkFallbackInfo None d true true None None).

Inductive fallback_idle : FallbackInfo -> Prop :=
  | fallback_idle_intro o d b h : idle o -> fallback_idle (mkFallbackInfo o d b h None None).

Definition live s : Prop :=
  (main_runs (m_main s) /\ (fallback_waits (m_fallback s) \/ fallback_runs (m_fallback s) \/ fallback_failed (m_fallback s))) \/
  (main_failed (m_main s) /\ (fallback_waits (m_fallback s) \/ fallback_runs (m_fallback s))).

Definition wf s : Prop :=
  m_faults s = [] /\ (live s \/ (main_idle (m_main s) /\ fallback_idle (m_fallback s))).

(** Ready for its [connect]. *)
Inductive fresh : Connector -> Prop :=
  | fresh_intro c (f : C) ts d t raised :
      ec_wf c -> ec_fresh c -> ec_wf f -> ec_fresh f ->
      fresh (mkConnector (mkMainInfo (Some c) false ts None) (mkFallbackInfo (Some f) d false false None None) t raised []).

(** Something is still to come: an answer of a connector or a task. *)
Definition awaits (connector : option C) (task : option EndpointConnectorResult) : bool :=
  match task, connector with
  | Some _, _ => true
  | None, Some c => ec_busy c
  | None, None => false
  end.

Definition busy s : bool :=
  awaits (mi_connector (m_main s)) (mi_result_task (m_main s)) ||
  awaits (fi_connector (m_fallback s)) (fi_result_task (m_fallback s)) ||
  match fi_delay_task (m_fallback s) with Some _ => true | None => false end.

(** The events of a connector are its own, and they come while it exists. *)
Definition event_ok (e : Event) s : Prop :=
  match e with
  | V_main e => match mi_connector (m_main s) with Some c => ec_event_ok e c | None => True end
  | V_fallback e => match fi_connector (m_fallback s) with Some c => ec_event_ok e c | None => True end
  | _ => True
  end.

Definition reports_once s s' : Prop :=
  (m_raised s' = m_raised s /\ busy s' = busy s /\ (fresh s -> fresh s')) \/
  (exists r, m_raised s' = m_raised s ++ [r] /\ busy s = true /\ busy s' = false).

(** ** Proofs *)

#[local] Arguments call_main : simpl never.
#[local] Arguments call_fallback : simpl never.

Lemma reports_none (c c' : C) : ec_results c' = ec_results c -> reports c c' = [].
Proof. unfold reports. intros ->. apply drop_all. Qed.

Lemma reports_one (c c' : C) r : ec_results c' = ec_results c ++ [r] -> reports c c' = [r].
Proof. unfold reports. intros ->. apply drop_app_length. Qed.

Lemma main_becomes_silent c c' s :
  ec_results c' = ec_results c -> main_becomes c c' s = set_main ((m_main s) <| mi_connector := Some c' |>) s.
Proof. intros H. unfold main_becomes. by rewrite reports_none. Qed.

Lemma fallback_becomes_silent c c' s :
  ec_results c' = ec_results c -> fallback_becomes c c' s = set_fallback ((m_fallback s) <| fi_connector := Some c' |>) s.
Proof. intros H. unfold fallback_becomes. by rewrite reports_none. Qed.

Lemma main_becomes_reports c c' r s :
  ec_results c' = ec_results c ++ [r] ->
  main_becomes c c' s = main_connector_handler r (set_main ((m_main s) <| mi_connector := Some c' |>) s).
Proof. intros H. unfold main_becomes. by rewrite (reports_one _ _ r). Qed.

Lemma fallback_becomes_reports c c' r s :
  ec_results c' = ec_results c ++ [r] ->
  fallback_becomes c c' s = fallback_connector_handler r (set_fallback ((m_fallback s) <| fi_connector := Some c' |>) s).
Proof. intros H. unfold fallback_becomes. by rewrite (reports_one _ _ r). Qed.

Lemma live_busy s : live s -> busy s = true.
Proof.
  destruct s as [m f t raised faults]. unfold live, busy. cbn.
  intros [[H1 H2]|[H1 [H2|H2]]].
  - destruct H1 as [c ts Hw Hb|]; cbn; [by rewrite Hb|done].
  - destruct H2. cbn. by rewrite !orb_true_r.
  - destruct H1, H2 as [c d Hw Hb|]; cbn; [by rewrite Hb|done].
Qed.

Lemma idle_awaits o : idle o -> awaits o None = false.
Proof. destruct o; [by intros []|done]. Qed.

Lemma idle_not_busy s : main_idle (m_main s) -> fallback_idle (m_fallback s) -> busy s = false.
Proof.
  destruct s as [m f t raised faults]. unfold busy. cbn. intros [o h ts H1] [o' d b h' H2]. cbn -[awaits].
  by rewrite !idle_awaits.
Qed.

(** An idle connector stays one. *)
Lemma idle_wf s : m_faults s = [] -> main_idle (m_main s) -> fallback_idle (m_fallback s) -> wf s.
Proof. split; auto. Qed.

Lemma live_wf s : m_faults s = [] -> live s -> wf s.
Proof. split; auto. Qed.

Lemma live_silent s s' :
  live s -> live s' -> m_faults s' = [] -> m_raised s' = m_raised s -> wf s' /\ reports_once s s'.
Proof.
  intros H H' Hf Hr. split; [by apply live_wf|]. left. rewrite !live_busy by done. split_and!; [done..|].
  intros Hn. apply live_busy in H. destruct Hn. unfold busy in H. cbn in H. by rewrite !ec_fresh_idle in H by done.
Qed.

Lemma live_raises s r :
  live s -> m_faults s = [] -> wf (raise r s) /\ reports_once s (raise r s).
Proof.
  intros H Hf. split.
  - by apply idle_wf; [|by constructor..].
  - right. exists r. split; [done|]. by rewrite live_busy.
Qed.

Lemma call_main_idle env e s c :
  mi_connector (m_main s) = Some c -> ec_wf c -> ec_busy c = false -> ec_event_ok e c ->
  exists c', call_main (ec_handle env e) s = set_main ((m_main s) <| mi_connector := Some c' |>) s /\
             ec_wf c' /\ ec_busy c' = false /\ (ec_fresh c -> ec_fresh c').
Proof.
  intros Hc Hw Hb Hok. unfold call_main. rewrite Hc. destruct (ec_handle_ok env e c Hw Hok) as [Hw' [(Hr & Hb' & Hfr)|(r & _ & Hb' & _)]]; [|congruence].
  exists (ec_handle env e c). rewrite main_becomes_silent by done. by rewrite Hb'.
Qed.

Lemma call_fallback_idle env e s c :
  fi_connector (m_fallback s) = Some c -> ec_wf c -> ec_busy c = false -> ec_event_ok e c ->
  exists c', call_fallback (ec_handle env e) s = set_fallback ((m_fallback s) <| fi_connector := Some c' |>) s /\
             ec_wf c' /\ ec_busy c' = false /\ (ec_fresh c -> ec_fresh c').
Proof.
  intros Hc Hw Hb Hok. unfold call_fallback. rewrite Hc. destruct (ec_handle_ok env e c Hw Hok) as [Hw' [(Hr & Hb' & Hfr)|(r & _ & Hb' & _)]]; [|congruence].
  exists (ec_handle env e c). rewrite fallback_becomes_silent by done. by rewrite Hb'.
Qed.

(** An event of a leg that runs leaves it running: it waits on, or its result is
    to be handled. *)
Lemma main_event_runs env e s :
  main_runs (m_main s) -> match mi_connector (m_main s) with Some c => ec_event_ok e c | None => True end ->
  exists m', call_main (ec_handle env e) s = set_main m' s /\ main_runs m'.
Proof.
  destruct s as [m f t raised faults]. cbn. intros H Hok. destruct H as [c ts Hw Hb|c ts r Hw Hb]; cbn in *.
  - destruct (ec_handle_ok env e c Hw Hok) as [Hw' [(Hr & Hb' & _)|(r & Hr & _ & Hb')]]; unfold call_main; cbn.
    + rewrite main_becomes_silent by done. eexists. split; [reflexivity|]. constructor; [done|by rewrite Hb'].
    + rewrite (main_becomes_reports _ _ r) by done. eexists. split; [reflexivity|]. by constructor.
  - destruct (call_main_idle env e (mkConnector (mkMainInfo (Some c) false ts (Some r)) f t raised faults) c) as (c' & -> & Hw' & Hb' & _); try done.
    eexists. split; [reflexivity|]. by constructor.
Qed.

Lemma fallback_event_runs env e s :
  fallback_runs (m_fallback s) -> match fi_connector (m_fallback s) with Some c => ec_event_ok e c | None => True end ->
  exists f', call_fallback (ec_handle env e) s = set_fallback f' s /\ fallback_runs f'.
Proof.
  destruct s as [m f t raised faults]. cbn. intros H Hok. destruct H as [c d Hw Hb|c d r Hw Hb]; cbn in *.
  - destruct (ec_handle_ok env e c Hw Hok) as [Hw' [(Hr & Hb' & _)|(r & Hr & _ & Hb')]]; unfold call_fallback; cbn.
    + rewrite fallback_becomes_silent by done. eexists. split; [reflexivity|]. constructor; [done|by rewrite Hb'].
    + rewrite (fallback_becomes_reports _ _ r) by done. eexists. split; [reflexivity|]. by constructor.
  - destruct (call_fallback_idle env e (mkConnector m (mkFallbackInfo (Some c) d true false None (Some r)) t raised faults) c) as (c' & -> & Hw' & Hb' & _); try done.
    eexists. split; [reflexivity|]. by constructor.
Qed.

(** Disconnecting one leg. *)
Lemma call_main_disconnect env s :
  match mi_connector (m_main s) with Some c => ec_wf c | None => True end ->
  exists o, call_main (ec_disconnect env) s = set_main ((m_main s) <| mi_connector := o |>) s /\ idle o.
Proof.
  intros H. unfold call_main. destruct (mi_connector (m_main s)) as [c|] eqn:Hc.
  - destruct (ec_disconnect_ok env c H) as (Hw & Hr & Hb). rewrite main_becomes_silent by done. by eexists (Some _).
  - exists None. split; [|done]. destruct s as [[]]. cbn in *. by subst.
Qed.

Lemma call_fallback_disconnect env s :
  match fi_connector (m_fallback s) with Some c => ec_wf c | None => True end ->
  exists o, call_fallback (ec_disconnect env) s = set_fallback ((m_fallback s) <| fi_connector := o |>) s /\ idle o.
Proof.
  intros H. unfold call_fallback. destruct (fi_connector (m_fallback s)) as [c|] eqn:Hc.
  - destruct (ec_disconnect_ok env c H) as (Hw & Hr & Hb). rewrite fallback_becomes_silent by done. by eexists (Some _).
  - exists None. split; [|done]. destruct s as [? []]. cbn in *. by subst.
Qed.

(** The handling of a result: the procedure ends, or the other leg goes on. *)
Definition ends (r : EndpointConnectorResult) s s' : Prop :=
  m_faults s' = [] /\ m_main s' = main_empty /\ m_fallback s' = fallback_empty /\ m_raised s' = m_raised s ++ [r].
Definition goes_on s s' : Prop := m_faults s' = [] /\ live s' /\ m_raised s' = m_raised s.

Lemma ends_ok r s s' : busy s = true -> ends r s s' -> wf s' /\ reports_once s s'.
Proof.
  intros Hb (H1 & H2 & H3 & H4).
  assert (Hm : main_idle (m_main s')) by (rewrite H2; by constructor).
  assert (Hf : fallback_idle (m_fallback s')) by (rewrite H3; by constructor).
  split; [by apply idle_wf|]. right. exists r. split; [done|]. split; [done|by apply idle_not_busy].
Qed.

Lemma goes_on_ok s s' : live s -> goes_on s s' -> wf s' /\ reports_once s s'.
Proof. intros Hl (H1 & H2 & H3). by apply live_silent. Qed.

Lemma main_connected_ends env u s :
  m_faults s = [] -> match fi_connector (m_fallback s) with Some c => ec_wf c | None => True end ->
  ends (inl u) s (handle_connect_result env MAIN (inl u) s).
Proof.
  intros Hf Hc. unfold handle_connect_result. cbn [is_connected disconnect_another orb].
  by destruct (call_fallback_disconnect (fallback_env env) s Hc) as (o & -> & Ho).
Qed.

Lemma fallback_connected_ends env u s :
  m_faults s = [] -> match mi_connector (m_main s) with Some c => ec_wf c | None => True end ->
  ends (inl u) s (handle_connect_result env FALLBACK (inl u) s).
Proof.
  intros Hf Hc. unfold handle_connect_result. cbn [is_connected disconnect_another orb].
  by destruct (call_main_disconnect (main_env env) s Hc) as (o & -> & Ho).
Qed.

(** A fallback that can still be started. *)
Inductive fallback_ready : FallbackInfo -> Prop :=
  | fallback_ready_intro c d o : ec_wf c -> ec_fresh c -> fallback_ready (mkFallbackInfo (Some c) d false false o None).

Lemma waits_ready f : fallback_waits f -> fallback_ready f.
Proof. by intros []. Qed.

Lemma main_error_ends env e s :
  m_faults s = [] -> fallback_failed (m_fallback s) -> ends (inr e) s (handle_connect_result env MAIN (inr e) s).
Proof. destruct s as [m f t raised faults]. cbn. by intros -> []. Qed.

Lemma main_error_goes_on env e s :
  m_faults s = [] -> fallback_ready (m_fallback s) \/ fallback_runs (m_fallback s) ->
  goes_on s (handle_connect_result env MAIN (inr e) s).
Proof.
  destruct s as [m f t raised faults]. cbn. intros -> [H|H]; destruct H; (split_and!; [done| |done]); right; cbn.
  all: split; [by constructor|]; first [left; by constructor|right; by constructor].
Qed.

Lemma fallback_error_ends env e s :
  m_faults s = [] -> main_failed (m_main s) -> ends (inr e) s (handle_connect_result env FALLBACK (inr e) s).
Proof. destruct s as [m f t raised faults]. cbn. by intros -> []. Qed.

Lemma fallback_error_goes_on env e s :
  m_faults s = [] -> main_runs (m_main s) -> fi_tried (m_fallback s) = true -> fi_delay_task (m_fallback s) = None ->
  goes_on s (handle_connect_result env FALLBACK (inr e) s).
Proof.
  destruct s as [m [c d b h o r] t raised faults]. cbn. intros -> H -> ->.
  unfold handle_connect_result. cbn. assert (Hn : mi_has_result m = false) by by destruct H. rewrite Hn. cbn.
  split_and!; [done| |done]. left. cbn. split; [done|]. right; right. constructor.
Qed.

(** The result tasks. *)
Lemma live_fallback_cases s :
  live s -> fallback_waits (m_fallback s) \/ fallback_runs (m_fallback s) \/ fallback_failed (m_fallback s).
Proof. intros [[_ H]|[_ [H|H]]]; auto. Qed.

Lemma live_connectors s :
  live s ->
  match mi_connector (m_main s) with Some c => ec_wf c | None => True end /\
  match fi_connector (m_fallback s) with Some c => ec_wf c | None => True end.
Proof.
  intros H. split.
  - destruct H as [[H _]|[H _]]; by destruct H.
  - apply live_fallback_cases in H as [H|[H|H]]; by destruct H.
Qed.

Lemma main_result_ok env r s :
  m_faults s = [] -> live s ->
  wf (handle_connect_result env MAIN r s) /\ reports_once s (handle_connect_result env MAIN r s).
Proof.
  intros Hf Hl. destruct r as [u|e].
  - eapply ends_ok; [by apply live_busy|]. apply main_connected_ends; [done|by apply live_connectors].
  - destruct (live_fallback_cases s Hl) as [H|[H|H]].
    + apply goes_on_ok; [done|]. apply main_error_goes_on; auto using waits_ready.
    + apply goes_on_ok; [done|]. apply main_error_goes_on; auto.
    + eapply ends_ok; [by apply live_busy|]. by apply main_error_ends.
Qed.

Lemma fallback_result_ok env r s :
  m_faults s = [] -> live s -> fallback_runs (m_fallback s) ->
  wf (handle_connect_result env FALLBACK r s) /\ reports_once s (handle_connect_result env FALLBACK r s).
Proof.
  intros Hf Hl Hr. destruct r as [u|e].
  - eapply ends_ok; [by apply live_busy|]. apply fallback_connected_ends; [done|by apply live_connectors].
  - destruct Hl as [[H _]|[H _]].
    + apply goes_on_ok; [by left; auto|]. apply fallback_error_goes_on; [done..|by destruct Hr|by destruct Hr].
    + eapply ends_ok; [by apply live_busy; right; auto|]. by apply fallback_error_ends.
Qed.

(** Starting the fallback. *)
Lemma start_fallback_ok env s :
  m_faults s = [] -> live s -> fallback_waits (m_fallback s) ->
  let s' := start_fallback_connection env (set_fallback ((m_fallback s) <| fi_delay_task := None |>) s) in
  wf s' /\ reports_once s s'.
Proof.
  destruct s as [m f t raised faults]. cbn -[start_fallback_connection wf reports_once]. intros -> Hl Hw.
  destruct Hw as [c d o Hw Hfr]. unfold start_fallback_connection. cbn -[wf reports_once fallback_becomes handle_connect_result].
  set (to := fallback_timeout env _). destruct (ec_connect_ok (fallback_env env) to c Hw Hfr) as (Hw' & Hr & Hb).
  destruct (ec_connect (fallback_env env) to c) as [error c'] eqn:He. cbn [fst snd] in *.
  rewrite fallback_becomes_silent by done.
  match goal with |- context [handle_connect_result env FALLBACK _ ?x] => set (w := x) end.
  destruct (code error =? VPN_EC_NOERROR); cbn [negb].
  - assert (Hfr' : fallback_runs (mkFallbackInfo (Some c') d true false None None)) by by constructor.
    apply live_silent; [done| |done|done]. destruct Hl as [[H _]|[H _]]; [left|right]; cbn; auto.
  - destruct Hl as [[H _]|[H _]].
    + apply goes_on_ok; [left; cbn; auto using fallback_waits|]. by apply (fallback_error_goes_on env error w).
    + eapply ends_ok; [|by apply (fallback_error_ends env error w)]. apply live_busy. right. cbn. auto using fallback_waits.
Qed.

Lemma idle_event env e o c :
  idle o -> o = Some c -> ec_event_ok e c ->
  ec_wf (ec_handle env e c) /\ ec_results (ec_handle env e c) = ec_results c /\
  ec_busy (ec_handle env e c) = false /\ (ec_fresh c -> ec_fresh (ec_handle env e c)).
Proof.
  intros Hi -> Hok. destruct Hi as [Hw Hb].
  destruct (ec_handle_ok env e c Hw Hok) as [Hw' [(Hr & Hb' & Hfr)|(r & _ & Hb' & _)]]; [|congruence]. by rewrite Hb'.
Qed.

(** An idle connector that stays idle. *)
Lemma idle_silent s s' :
  main_idle (m_main s) -> fallback_idle (m_fallback s) -> main_idle (m_main s') -> fallback_idle (m_fallback s') ->
  m_faults s' = [] -> m_raised s' = m_raised s -> (fresh s -> fresh s') -> wf s' /\ reports_once s s'.
Proof. intros. split; [by apply idle_wf|]. left. by rewrite !idle_not_busy. Qed.

Lemma main_event_ok env e s :
  wf s -> event_ok (V_main e) s -> wf (handle env (V_main e) s) /\ reports_once s (handle env (V_main e) s).
Proof.
  intros (Hf & Hs) Hok. cbn [handle]. destruct Hs as [[[H H2]|[H H2]]|[H H2]].
  - destruct (main_event_runs (main_env env) e s H Hok) as (m' & -> & Hm'). apply live_silent; [by left|by left|done..].
  - assert (Hs : call_main (ec_handle (main_env env) e) s = s) by (destruct s; cbn in *; by destruct H).
    rewrite Hs. apply live_silent; [by right|by right|done..].
  - destruct s as [m f t raised faults]. cbn in *. subst faults. destruct H as [[c|] h ts Hi]; unfold call_main; cbn in *.
    + destruct (idle_event (main_env env) e (Some c) c Hi eq_refl Hok) as (E1 & E2 & E3 & E4). rewrite main_becomes_silent by done.
      apply idle_silent; try done; [by constructor..|]. intros Hfr. inversion Hfr; subst. by constructor; auto.
    + by apply idle_silent; try constructor.
Qed.

Lemma fallback_event_ok env e s :
  wf s -> event_ok (V_fallback e) s -> wf (handle env (V_fallback e) s) /\ reports_once s (handle env (V_fallback e) s).
Proof.
  intros (Hf & Hs) Hok. cbn [handle]. destruct Hs as [Hl|[H H2]].
  - destruct (live_fallback_cases s Hl) as [H|[H|H]].
    + destruct s as [m f t raised faults]. cbn in *. subst faults. destruct H as [c d o Hw Hfr]. unfold call_fallback. cbn in *.
      destruct (idle_event (fallback_env env) e (Some c) c) as (E1 & E2 & E3 & E4); [split; [done|by apply ec_fresh_idle]|done..|].
      assert (Hf' : fallback_waits (mkFallbackInfo (Some (ec_handle (fallback_env env) e c)) d false false (Some o) None)) by auto using fallback_waits.
      rewrite fallback_becomes_silent by done. apply live_silent; [done| |done..]. destruct Hl as [[H _]|[H _]]; [left|right]; cbn; auto.
    + destruct (fallback_event_runs (fallback_env env) e s H Hok) as (f' & -> & Hf'). apply live_silent; [done| |done..].
      destruct Hl as [[H' _]|[H' _]]; [left|right]; cbn; auto.
    + assert (Hs : call_fallback (ec_handle (fallback_env env) e) s = s) by (destruct s; cbn in *; by destruct H).
      rewrite Hs. by apply live_silent.
  - destruct s as [m f t raised faults]. cbn in *. subst faults. destruct H2 as [[c|] d b h Hi]; unfold call_fallback; cbn in *.
    + destruct (idle_event (fallback_env env) e (Some c) c Hi eq_refl Hok) as (E1 & E2 & E3 & E4). rewrite fallback_becomes_silent by done.
      apply idle_silent; try done; [by constructor..|]. intros Hfr. inversion Hfr; subst. by constructor; auto.
    + by apply idle_silent; try constructor.
Qed.

Lemma same_ok s : wf s -> wf s /\ reports_once s s.
Proof. intros H. split; [done|]. by left. Qed.

Lemma handle_ok env e s : wf s -> event_ok e s -> wf (handle env e s) /\ reports_once s (handle env e s).
Proof.
  intros Hwf Hok. destruct e as [e|e| | |]; [by apply main_event_ok|by apply fallback_event_ok|..]; pose proof Hwf as (Hf & Hs); cbn [handle].
  - destruct (fi_delay_task (m_fallback s)) eqn:Hd; [|by apply same_ok]. destruct Hs as [Hl|[_ H]]; [|by destruct s, H].
    apply start_fallback_ok; [done..|]. destruct (live_fallback_cases s Hl) as [H|[H|H]]; [done|by destruct s; cbn in *; destruct H..].
  - destruct (mi_result_task (m_main s)) as [r|] eqn:Hd; [|by apply same_ok]. destruct Hs as [Hl|[H _]]; [|by destruct s, H].
    by apply main_result_ok.
  - destruct (fi_result_task (m_fallback s)) as [r|] eqn:Hd; [|by apply same_ok]. destruct Hs as [Hl|[_ H]]; [|by destruct s, H].
    apply fallback_result_ok; [done..|]. destruct (live_fallback_cases s Hl) as [H|[H|H]]; [|done|]; by destruct s; cbn in *; destruct H.
Qed.

(** The interface. *)
Lemma fresh_idle s : fresh s -> main_idle (m_main s) /\ fallback_idle (m_fallback s).
Proof. intros []; cbn; split; constructor; cbn; auto using ec_fresh_idle. Qed.

Lemma fallback_connect_ok env t s :
  fresh s -> goes_on s (connect env t s).2 /\ (connect env t s).1 = no_error.
Proof.
  intros H. destruct H as [c f ts d t0 raised Hw Hfr Hw2 Hfr2]. split; [|done].
  unfold connect. cbn -[goes_on main_becomes handle_connect_result].
  destruct (ec_connect_ok (main_env env) t c Hw Hfr) as (Hw' & Hr & Hb).
  destruct (ec_connect (main_env env) t c) as [error c']. cbn [fst snd] in *.
  rewrite main_becomes_silent by done. destruct (code error =? VPN_EC_NOERROR); cbn [negb].
  - split; [done|]. split; [left|done]. split; [by constructor|left; by constructor].
  - match goal with |- context [handle_connect_result env MAIN _ ?x] => set (w := x) end.
    apply (main_error_goes_on env error w); [done|]. left. by constructor.
Qed.

Lemma disconnect_main env s :
  wf s ->
  let s' := if main_running s then call_main (ec_disconnect (main_env env)) s else s in
  m_faults s' = [] /\ m_raised s' = m_raised s /\ m_fallback s' = m_fallback s /\ idle (mi_connector (m_main s')).
Proof.
  intros (Hf & Hs). cbv zeta. destruct (main_running s) eqn:Hm.
  - destruct (call_main_disconnect (main_env env) s) as (o & -> & Ho); [|done].
    destruct Hs as [Hl|[H _]]; [by apply live_connectors|]. destruct s, H as [[c|]]; cbn in *; [apply H|done].
  - split_and!; try done. destruct Hs as [[[H _]|[H _]]|[H _]]; destruct s; cbn in *; destruct H; done.
Qed.

Lemma disconnect_fallback env s :
  fallback_waits (m_fallback s) \/ fallback_runs (m_fallback s) \/ fallback_failed (m_fallback s) \/ fallback_idle (m_fallback s) ->
  let s' := if fallback_running s then call_fallback (ec_disconnect (fallback_env env)) s else s in
  m_faults s' = m_faults s /\ m_raised s' = m_raised s /\ m_main s' = m_main s /\ idle (fi_connector (m_fallback s')).
Proof.
  intros Hs. cbv zeta. destruct (fallback_running s) eqn:Hm.
  - destruct (call_fallback_disconnect (fallback_env env) s) as (o & -> & Ho); [|done].
    destruct Hs as [H|[H|[H|H]]]; destruct s; cbn in *; inversion H; subst; cbn; try done.
    match goal with Hi : idle ?c |- _ => destruct c; [apply Hi|done] end.
  - split_and!; try done. destruct Hs as [H|[H|[H|H]]]; destruct s; cbn in *; destruct H; try done; cbn; auto using ec_fresh_idle.
Qed.

Lemma fallback_disconnect_ok env s :
  wf s -> wf (disconnect env s) /\ m_raised (disconnect env s) = m_raised s /\ busy (disconnect env s) = false.
Proof.
  intros Hwf. unfold disconnect. destruct (disconnect_main env s Hwf) as (D1 & D2 & D3 & D4).
  set (s1 := if main_running s then _ else s) in *. clearbody s1.
  set (s2 := set_main ((m_main s1) <| mi_result_task := None |>) s1).
  destruct (disconnect_fallback env s2) as (D5 & D6 & D7 & D8).
  { change (m_fallback s2) with (m_fallback s1). rewrite D3. destruct Hwf as (_ & [Hl|[_ H]]); [|by auto].
    destruct (live_fallback_cases s Hl) as [H|[H|H]]; auto. }
  set (s3 := if fallback_running s2 then _ else s2) in *. clearbody s3.
  set (s4 := set_fallback _ s3).
  assert (Hm : main_idle (m_main s4)).
  { change (m_main s4) with (m_main s3). rewrite D7. unfold s2. destruct s1 as [[]]. by constructor. }
  assert (Hb : fallback_idle (m_fallback s4)) by (unfold s4; destruct s3 as [? []]; by constructor).
  split; [apply idle_wf; [|done..]|split; [|by apply idle_not_busy]].
  - change (m_faults s4) with (m_faults s3). by rewrite D5.
  - change (m_raised s4) with (m_raised s3). by rewrite D6, <- D2.
Qed.

(** Calls that leave the connectors as busy as they are. *)
Definition keeps (op : C -> C) : Prop :=
  forall c, ec_wf c -> ec_wf (op c) /\ ec_results (op c) = ec_results c /\ ec_busy (op c) = ec_busy c.

Definition both_running (op : C -> C) s : Connector :=
  let s := if main_running s then call_main op s else s in
  if fallback_running s then call_fallback op s else s.

Lemma keeps_main op s :
  keeps op ->
  (main_runs (m_main s) -> exists m', main_runs m' /\ call_main op s = set_main m' s) /\
  (main_idle (m_main s) -> exists m', main_idle m' /\ call_main op s = set_main m' s).
Proof.
  intros Hk. split; intros H; destruct s as [m f t raised faults]; cbn in H; destruct H; unfold call_main; cbn.
  1-2: destruct (Hk c) as (K1 & K2 & K3); [done|]; rewrite main_becomes_silent by done; eexists; split; [|reflexivity];
    constructor; by rewrite ?K3.
  destruct o as [c|]; [|by eexists; split; [|reflexivity]; constructor].
  destruct (Hk c) as (K1 & K2 & K3); [apply H|]. rewrite main_becomes_silent by done. eexists; split; [|reflexivity].
  constructor. split; [done|]. rewrite K3. apply H.
Qed.

Lemma keeps_fallback op s :
  keeps op ->
  (fallback_runs (m_fallback s) -> exists f', fallback_runs f' /\ call_fallback op s = set_fallback f' s) /\
  (fallback_idle (m_fallback s) -> exists f', fallback_idle f' /\ call_fallback op s = set_fallback f' s).
Proof.
  intros Hk. split; intros H; destruct s as [m f t raised faults]; cbn in H; destruct H; unfold call_fallback; cbn.
  1-2: destruct (Hk c) as (K1 & K2 & K3); [done|]; rewrite fallback_becomes_silent by done; eexists; split; [|reflexivity];
    constructor; by rewrite ?K3.
  destruct o as [c|]; [|by eexists; split; [|reflexivity]; constructor].
  destruct (Hk c) as (K1 & K2 & K3); [apply H|]. rewrite fallback_becomes_silent by done. eexists; split; [|reflexivity].
  constructor. split; [done|]. rewrite K3. apply H.
Qed.

Definition kept s s' : Prop := wf s' /\ m_raised s' = m_raised s /\ busy s' = busy s.

Lemma live_kept s s' : live s -> live s' -> m_faults s' = [] -> m_raised s' = m_raised s -> kept s s'.
Proof. intros. split; [by apply live_wf|]. by rewrite !live_busy. Qed.

Lemma idle_kept s s' :
  main_idle (m_main s) -> fallback_idle (m_fallback s) -> main_idle (m_main s') -> fallback_idle (m_fallback s') ->
  m_faults s' = [] -> m_raised s' = m_raised s -> kept s s'.
Proof. intros. split; [by apply idle_wf|]. by rewrite !idle_not_busy. Qed.

Lemma main_kept op s : keeps op -> wf s -> kept s (if main_running s then call_main op s else s).
Proof.
  intros Hk Hwf. pose proof Hwf as (Hf & Hs). destruct (main_running s) eqn:Hm; [|done].
  destruct (keeps_main op s Hk) as [K1 K2]. destruct Hs as [[[H H2]|[H H2]]|[H H2]].
  - destruct (K1 H) as (m' & Hm' & ->). by apply live_kept; [left|left|..].
  - destruct s. cbn in *. by destruct H.
  - destruct (K2 H) as (m' & Hm' & ->). by apply idle_kept.
Qed.

Lemma fallback_kept op s : keeps op -> wf s -> kept s (if fallback_running s then call_fallback op s else s).
Proof.
  intros Hk Hwf. pose proof Hwf as (Hf & Hs). destruct (fallback_running s) eqn:Hm; [|done].
  destruct (keeps_fallback op s Hk) as [K1 K2]. destruct Hs as [Hl|[H H2]].
  - destruct (live_fallback_cases s Hl) as [H|[H|H]]; [by destruct s; cbn in *; destruct H| |by destruct s; cbn in *; destruct H].
    destruct (K1 H) as (f' & Hf' & ->). apply live_kept; [done| |done..].
    destruct Hl as [[H' _]|[H' _]]; [left|right]; cbn; auto.
  - destruct (K2 H2) as (f' & Hf' & ->). by apply idle_kept.
Qed.

Lemma both_running_ok op s : keeps op -> wf s -> kept s (both_running op s).
Proof.
  intros Hk Hwf. unfold both_running. destruct (main_kept op s Hk Hwf) as (H1 & H2 & H3).
  destruct (fallback_kept op _ Hk H1) as (H4 & H5 & H6). split; [done|]. by rewrite H5, H6.
Qed.

#[global, refine] Instance connector : EndpointConnector Connector := {|
  ec_connect := connect;
  ec_disconnect := disconnect;
  ec_handle_sleep := handle_sleep;
  ec_handle_wake := handle_wake;
  ec_handle := handle;
  ec_wf := wf;
  ec_fresh := fresh;
  ec_event_ok := event_ok;
  ec_busy := busy;
  ec_results := m_raised;
|}.
Proof.
  - intros s Hs. apply idle_not_busy; by apply fresh_idle.
  - intros env t s _ Hs. destruct (fallback_connect_ok env t s Hs) as [(H1 & H2 & H3) ->].
    split; [by apply live_wf|]. by rewrite live_busy.
  - apply fallback_disconnect_ok.
  - intros s. exact (both_running_ok ec_handle_sleep s ec_sleep_ok).
  - intros s. exact (both_running_ok ec_handle_wake s ec_wake_ok).
  - apply handle_ok.
Defined.
End Fallback.

Arguments MainInfo : clear implicits.
Arguments FallbackInfo : clear implicits.
Arguments Connector : clear implicits.
End Fallback.

(** ** Two upstreams *)

(** The connector [VpnClient::connect] makes for an endpoint with a fallback. *)
Abbreviation TwoUpstreams := (Fallback.Connector Single.Impl).

Definition two_upstreams (fallback_delay : Z) : TwoUpstreams := Fallback.new Single.new Single.new fallback_delay.

Lemma single_new_fresh : Single.wf Single.new /\ Single.fresh Single.new.
Proof. split; [split; [done|split; [done|by left]]|done]. Qed.

Lemma two_upstreams_fresh d : Fallback.wf (two_upstreams d) /\ Fallback.fresh (two_upstreams d).
Proof.
  destruct single_new_fresh as [Hw Hf]. split; [|by constructor].
  split; [done|]. right. split; constructor; done.
Qed.

Section Claims.
Implicit Types (env : @Fallback.Env Single.Impl _) (c : TwoUpstreams).

(** C14.  Connecting through two upstreams, whatever they do and in whatever
    order: after [connect] the connector is busy, and as long as it is it has
    reported nothing; when it stops being busy it has reported exactly once, and
    whatever comes later, it does not report again.  No assertion fails on the
    way. *)
Theorem two_upstreams_report_once env timeout delay es :
  let c := (Fallback.connect env timeout (two_upstreams delay)).2 in
  ec_run_ok es c ->
  let c' := ec_run es c in
  Fallback.m_faults c' = [] /\
  ((Fallback.busy c' = true /\ Fallback.m_raised c' = []) \/
   (Fallback.busy c' = false /\ exists r, Fallback.m_raised c' = [r])).
Proof.
  intros c Hok c'. destruct (two_upstreams_fresh delay) as [Hw Hf].
  destruct (@ec_connect_ok _ Fallback.connector env timeout (two_upstreams delay) Hw Hf) as (Hwc & Hr & Hb).
  change (Fallback.busy c = true) in Hb. change (Fallback.m_raised c = []) in Hr.
  destruct (ec_run_reports es c Hwc Hok) as [Hw' H]. split; [apply Hw'|].
  change (ec_busy c) with (Fallback.busy c) in H. change (ec_results c) with (Fallback.m_raised c) in H.
  by rewrite Hb, Hr in H.
Qed.

(** Whether the other leg of the race has failed. *)
Definition another_failed (leg : Fallback.Leg) c : bool :=
  match leg with
  | Fallback.MAIN => Fallback.fi_has_result (Fallback.m_fallback c)
  | Fallback.FALLBACK => Fallback.mi_has_result (Fallback.m_main c)
  end.

Definition leg_runs (leg : Fallback.Leg) c : Prop :=
  match leg with
  | Fallback.MAIN => Fallback.main_runs (Fallback.m_main c)
  | Fallback.FALLBACK => Fallback.fallback_runs (Fallback.m_fallback c)
  end.

(** How the race ends: a connected upstream ends it at once, and then
    nothing of the other leg is left that could act later; a leg that failed ends
    it only when the other one has failed before, and then with its own error;
    otherwise the other leg goes on, started now if it was not yet. *)
Theorem race_outcome env leg r c :
  Fallback.m_faults c = [] -> Fallback.live c -> leg_runs leg c ->
  let c' := Fallback.handle_connect_result env leg r c in
  if Fallback.is_connected r || another_failed leg c
  then Fallback.m_raised c' = Fallback.m_raised c ++ [r] /\ Fallback.m_main c' = Fallback.main_empty /\
       Fallback.m_fallback c' = Fallback.fallback_empty
  else Fallback.m_raised c' = Fallback.m_raised c /\ Fallback.live c'.
Proof.
  intros Hf Hl Hrun c'. destruct (Fallback.live_connectors c Hl) as [Hc1 Hc2]. subst c'. destruct leg, r as [u|e]; cbn -[Fallback.handle_connect_result].
  - by destruct (Fallback.main_connected_ends env u c Hf Hc2) as (_ & H2 & H3 & H4).
  - destruct (Fallback.live_fallback_cases c Hl) as [H|[H|H]].
    + destruct (Fallback.main_error_goes_on env e c Hf) as (_ & H1 & H2); [auto using Fallback.waits_ready|].
      by destruct c, H.
    + destruct (Fallback.main_error_goes_on env e c Hf) as (_ & H1 & H2); [auto|]. by destruct c, H.
    + destruct (Fallback.main_error_ends env e c Hf H) as (_ & H2 & H3 & H4). by destruct c, H.
  - by destruct (Fallback.fallback_connected_ends env u c Hf Hc1) as (_ & H2 & H3 & H4).
  - destruct Hl as [[H _]|[H _]].
    + destruct (Fallback.fallback_error_goes_on env e c Hf H) as (_ & H1 & H2); [by destruct c, Hrun..|]. by destruct c, H.
    + destruct (Fallback.fallback_error_ends env e c Hf H) as (_ & H2 & H3 & H4). by destruct c, H.
Qed.

(** The fallback is given what is left of the time the caller allowed, never
    more than the whole of it and never less than a tenth. *)
Theorem fallback_timeout_bounds env c t :
  Fallback.m_connect_timeout c = Some t -> 0 <= t -> Fallback.mi_start_ts (Fallback.m_main c) <= Fallback.now env ->
  exists t', Fallback.fallback_timeout env c = Some t' /\ Z.quot t 10 <= t' <= t /\
             (Fallback.now env - Fallback.mi_start_ts (Fallback.m_main c) <= t - Z.quot t 10 ->
              t' = t - (Fallback.now env - Fallback.mi_start_ts (Fallback.m_main c))).
Proof.
  intros Ht H0 Hn. unfold Fallback.fallback_timeout. rewrite Ht. eexists. split; [done|].
  assert (Z.quot t 10 <= t) by (rewrite Z.quot_div_nonneg by lia; pose proof (Z.div_le_mono t (t * 10) 10); rewrite Z.div_mul in *; lia).
  lia.
Qed.
End Claims.

(** ** A run: the main upstream fails, the fallback connects *)

Module FallbackRun.
Definition upstream_ok : Single.Env := Single.mkEnv true (fun _ => true).
Definition at_time (t : Z) : @Fallback.Env Single.Impl _ := Fallback.mkEnv t upstream_ok upstream_ok.
Definition reset : VpnError := mkVpnError VPN_EC_ERROR (Some "Connection reset").

Definition start : TwoUpstreams := (Fallback.connect (at_time 100) (Some 5000) (two_upstreams 1000)).2.

Definition events : list (@ec_env (Fallback.Connector Single.Impl) _ * @ec_event (Fallback.Connector Single.Impl) _) := [
  (at_time 300, Fallback.V_main (Single.V_upstream (SERVER_EVENT_ERROR NON_ID reset)));
  (at_time 310, Fallback.V_main Single.V_deferred_disconnect);
  (at_time 320, Fallback.V_main_result_task);
  (at_time 330, Fallback.V_delay_task);
  (at_time 700, Fallback.V_fallback (Single.V_upstream SERVER_EVENT_SESSION_OPENED));
  (at_time 710, Fallback.V_fallback_result_task)
].

Lemma events_ok : ec_run_ok events start.
Proof. by vm_compute. Qed.

(** Just before the fallback's result is handled. *)
Definition fallback_ready : TwoUpstreams := ec_run (take 5 events) start.

Lemma fallback_ready_main : Fallback.m_main fallback_ready = Fallback.mkMainInfo None true 100 None.
Proof. by vm_compute. Qed.

Lemma fallback_ready_fallback :
  Fallback.m_fallback fallback_ready =
  Fallback.mkFallbackInfo
    (Some (Single.mkImpl (mkFsmCell Single.S_DISCONNECTED false) false None false
             [Single.O_upstream_init; Single.O_upstream_open_session (Some 4770); Single.O_result (inl tt)] []))
    1000 true false None (Some (inl tt)).
Proof. by vm_compute. Qed.

Lemma fallback_ready_runs : leg_runs Fallback.FALLBACK fallback_ready.
Proof. cbn [leg_runs]. rewrite fallback_ready_fallback. constructor; [split; [done|split; [done|by left]]|done]. Qed.
End FallbackRun.

Lemma two_upstreams_report_once_witness :
  Fallback.m_raised (ec_run FallbackRun.events FallbackRun.start) = [inl tt] /\
  Fallback.m_faults (ec_run FallbackRun.events FallbackRun.start) = [].
Proof.
  split; [by vm_compute|].
  apply (two_upstreams_report_once (FallbackRun.at_time 100) (Some 5000) 1000 FallbackRun.events), FallbackRun.events_ok.
Defined.

Lemma race_outcome_witness :
  let c' := Fallback.handle_connect_result (FallbackRun.at_time 710) Fallback.FALLBACK (inl tt) FallbackRun.fallback_ready in
  Fallback.m_raised c' = [inl tt] /\ Fallback.m_main c' = Fallback.main_empty /\ Fallback.m_fallback c' = Fallback.fallback_empty.
Proof.
  assert (Hl : Fallback.live FallbackRun.fallback_ready).
  { right. rewrite FallbackRun.fallback_ready_main. split; [constructor|]. right. apply FallbackRun.fallback_ready_runs. }
  apply (race_outcome (FallbackRun.at_time 710) Fallback.FALLBACK (inl tt) FallbackRun.fallback_ready);
    [by vm_compute|exact Hl|apply FallbackRun.fallback_ready_runs].
Defined.

Lemma fallback_timeout_bounds_witness :
  exists t', Fallback.fallback_timeout (FallbackRun.at_time 330) FallbackRun.start = Some t' /\ 500 <= t' <= 5000.
Proof.
  destruct (fallback_timeout_bounds (FallbackRun.at_time 330) FallbackRun.start 5000) as (t' & H1 & H2 & _);
    [by vm_compute..|]. by exists t'.
Defined.
