(* ===== verification/ConnectorLink.v ===== *)
(** * The client and its connector together

    [VpnClient.v] takes the answers and the reports of the connector as inputs,
    and its theorems ask that they come as [client_input_may] says.  Here a client
    is linked with a connector that implements the [EndpointConnector] interface:
    the calls the client makes reach the connector, the reports the connector
    makes reach the client, and nothing is asked of the reports any more. *)

From S2P Require Import Prelude Fsm VpnTypes PortRanges VpnClient VpnClientProofs ClientFrame SingleConnector FallbackConnector.

(** ** What client operations do to the connector

    A call that is neither [connect] nor [disconnect]. *)
Definition calm (o : ClientOut) : bool :=
  match o with O_connector_connect _ | O_connector_disconnect => false | _ => true end.

Definition finalizers (c : VpnClient) : nat := occ DT_connector_finalizer (c_deferred_tasks c).

(** The connector is gone, or it is the same, was told nothing but sleep and
    wake, and its report is as scheduled as it was. *)
Definition spares (c c' : VpnClient) : Prop :=
  c_endpoint_connector c' = None \/
  (c_endpoint_connector c' = c_endpoint_connector c /\ finalizers c' = finalizers c /\
   exists delta, c_out c' = c_out c ++ delta /\ forallb calm delta = true).

#[export] Instance spares_preorder : PreOrder spares.
Proof.
  split.
  - intros c. right. split_and!; [done..|]. exists []. by rewrite app_nil_r.
  - intros c1 c2 c3 H1 [H2|(H2 & H3 & d2 & H4 & N2)]; [by left|]. destruct H1 as [H1|(H1 & H5 & d1 & H6 & N1)].
    + left. congruence.
    + right. split_and!; [congruence..|]. exists (d1 ++ d2). by rewrite H4, H6, app_assoc, forallb_app, N1, N2.
Qed.

Lemma spares_eq c c' :
  c_endpoint_connector c' = c_endpoint_connector c -> finalizers c' = finalizers c -> c_out c' = c_out c -> spares c c'.
Proof. intros H1 H2 H3. right. split_and!; [done..|]. exists []. by rewrite app_nil_r. Qed.

Lemma spares_emit o c : calm o = true -> spares c (c_emit o c).
Proof. intros Ho. right. split_and!; [done..|]. exists [o]. cbn. by rewrite Ho. Qed.

Lemma spares_fault s c : spares c (c_fault s c).
Proof. by apply spares_eq. Qed.

Lemma spares_call_tunnel t c : spares c (call_tunnel t c).
Proof. unfold call_tunnel. destruct (c_tunnel c); [by apply spares_emit|apply spares_fault]. Qed.

Lemma spares_call_endpoint o c : calm o = true -> spares c (call_endpoint o c).
Proof. intros. unfold call_endpoint. destruct (c_endpoint_upstream c); [by apply spares_emit|apply spares_fault]. Qed.

Lemma spares_if (b : bool) c c1 c2 : spares c c1 -> spares c c2 -> spares c (if b then c1 else c2).
Proof. by destruct b. Qed.

Create HintDb spares discriminated.
#[export] Hint Resolve spares_emit spares_fault spares_call_tunnel spares_call_endpoint spares_if : spares.
#[export] Hint Extern 1 (calm _ = true) => reflexivity : spares.
#[export] Hint Extern 2 (spares _ _) => (apply spares_eq; reflexivity) : spares.

Ltac before_assignment :=
  match goal with
  | |- spares _ (assign _ ?x) => trans x; [|by apply spares_eq]
  | |- spares _ (set_recursive _ ?x) => trans x; [|by apply spares_eq]
  end.

Section Spares.
Context (env : ClientEnv).
Implicit Types (c : VpnClient).

Lemma spares_keep_first_error data c : spares c (keep_first_error data c).
Proof. unfold keep_first_error. repeat case_match; by apply spares_eq. Qed.

Lemma spares_dns_deinit c : spares c (dns_proxy_listener_deinit c).
Proof.
  unfold dns_proxy_listener_deinit. destruct (c_dns_proxy_listener c); [|done].
  trans (c_emit O_dns_listener_deinit c); auto with spares.
Qed.

Lemma spares_none c c' : spares c c' -> c_endpoint_connector c = None -> c_endpoint_connector c' = None.
Proof. by intros [H|(-> & _)]. Qed.

Lemma spares_run_disconnect data c : spares c (run_disconnect data c).
Proof.
  left. unfold run_disconnect. set (c4 := (keep_first_error _ _) <| c_deferred_tasks := [] |>). clearbody c4.
  set (c5 := match c_endpoint_connector c4 with Some _ => _ | None => c4 end).
  assert (H5 : c_endpoint_connector c5 = None) by (unfold c5; by destruct (c_endpoint_connector c4) eqn:?).
  apply (spares_none c5); [|done]. clearbody c5. do 2 before_assignment.
  etrans; [|apply spares_dns_deinit]. etrans; [|apply spares_call_tunnel]. auto with spares.
Qed.

Lemma spares_run_action a data c : a <> A_run_connect -> spares c (client_run_action env a data c).
Proof.
  intros Ha. destruct a; cbn [client_run_action]; [done|..].
  - by apply spares_emit.
  - unfold raise_disconnected. destruct (c_pending_error c) as [e|]; [|by apply spares_emit].
    before_assignment. by apply spares_emit.
  - apply spares_run_disconnect.
  - unfold submit_disconnect. etrans; [apply (spares_keep_first_error data)|]. generalize (keep_first_error data c). intros c1.
    apply spares_eq; [done| |done]. unfold finalizers. cbn. rewrite occ_app. apply Nat.add_0_r.
Qed.

Lemma spares_run_opt a data c : a <> Some A_run_connect -> spares c (run_opt (client_run_action env) a data c).
Proof. destruct a as [a|]; [|done]. intros Ha. apply spares_run_action. congruence. Qed.

Lemma spares_transition ev data c : ev <> E_RUN_CONNECT -> spares c (client_transition env ev data c).
Proof.
  intros Hev. unfold client_transition, perform_transition.
  destruct (m_recursive (get_fsm c)); [apply spares_fault|].
  before_assignment. trans (set_recursive true c); [by apply spares_eq|].
  rewrite run_table_first_match. rewrite first_match_find_entry by apply client_table_unconditional.
  destruct (find_entry _ _ _) as [e|] eqn:He; [|done]. apply find_entry_Some in He as [Hin He].
  assert (Hno : before_transition e <> Some A_run_connect /\ after_transition e <> Some A_run_connect).
  { assert (Hall : Forall (fun e => event e <> E_RUN_CONNECT -> before_transition e <> Some A_run_connect /\ after_transition e <> Some A_run_connect)
      CLIENT_TRANSITION_TABLE) by (repeat constructor; done).
    rewrite Forall_forall in Hall. apply Hall; [done|congruence]. }
  unfold take_entry. generalize (set_recursive true c). intros c1.
  etrans; [apply (spares_run_opt (before_transition e) data), Hno|].
  generalize (run_opt (client_run_action env) (before_transition e) data c1). intros c2.
  trans (if negb (target_state e =? SAME_TARGET_STATE) then set_state (target_state e) c2 else c2).
  { apply spares_if; by apply spares_eq. }
  generalize (if negb (target_state e =? SAME_TARGET_STATE) then set_state (target_state e) c2 else c2). intros c3.
  trans (set_recursive false c3); [by apply spares_eq|]. apply spares_run_opt, Hno.
Qed.

Lemma spares_disconnect c : spares c (VpnClient_disconnect env c).
Proof.
  unfold VpnClient_disconnect. before_assignment.
  etrans; [|by apply spares_transition]. by apply spares_eq.
Qed.

Lemma spares_start_dns c : spares c (snd (start_dns_proxy_listener env c)).
Proof.
  unfold start_dns_proxy_listener. destruct (rand_bytes_ok env); [|done]. cbn [negb].
  etrans; [by apply (spares_emit O_dns_listener_init)|].
  generalize (c_emit O_dns_listener_init c). intros c1.
  set (c2 := c1 <| c_dns_proxy_listener := true |>). trans c2; [by apply spares_eq|].
  destruct (dns_listener_init env); [|done..].
  etrans; [apply (spares_call_tunnel T_update_dns_handler_parameters)|].
  by destruct (update_dns_handler_parameters env).
Qed.

Lemma spares_dns_check c : spares c (snd (VpnClient_do_dns_upstream_health_check env c)).
Proof.
  unfold VpnClient_do_dns_upstream_health_check.
  etrans; [apply (spares_call_tunnel T_dns_resolve_health_check)|]. by apply spares_eq.
Qed.

Lemma spares_listen_update_dns b c : spares c (snd (listen_update_dns env b c)).
Proof.
  unfold listen_update_dns. destruct b; [|done].
  etrans; [apply (spares_call_tunnel T_update_dns_handler_parameters)|].
  destruct (update_dns_handler_parameters env); [done|by apply spares_transition].
Qed.

Lemma spares_listen config c : spares c (snd (VpnClient_listen env config c)).
Proof.
  unfold VpnClient_listen.
  set (c1 := c_emit O_listener_init _). trans c1; [etrans; [|by apply spares_emit]; by apply spares_eq|].
  destruct (listener_init env); [|by apply spares_transition..].
  trans (clean_up_buffer_files c1).
  { unfold clean_up_buffer_files. destruct (c_tmp_files_base_path c1); auto with spares. }
  generalize (clean_up_buffer_files c1). intros c2.
  destruct (client_state_is S_CONNECTED c2); [|apply spares_listen_update_dns].
  set (c3 := call_tunnel _ c2). trans c3; [by apply spares_call_tunnel|].
  destruct (_ && _); [|apply spares_listen_update_dns].
  pose proof (spares_start_dns c3) as H3. destruct (start_dns_proxy_listener env c3) as [error c4].
  trans c4; [done|]. destruct (negb _); [by apply spares_transition|].
  pose proof (spares_dns_check c4) as H4. destruct (VpnClient_do_dns_upstream_health_check env c4) as [started c5].
  trans c5; [done|]. destruct (negb started); [by apply spares_transition|done].
Qed.

Lemma spares_upstream_event what c : spares c (vpn_upstream_handler env what c).
Proof.
  unfold vpn_upstream_handler.
  set (c0 := match c_endpoint_connector c with None => c | Some _ => _ end).
  trans c0; [unfold c0; destruct (c_endpoint_connector c); auto with spares|].
  set (c1 := if is_session_end what then _ else c0). trans c1; [unfold c1; auto with spares|].
  set (c2 := call_tunnel _ c1). trans c2; [by apply spares_call_tunnel|].
  set (c3 := match what with SERVER_EVENT_SESSION_OPENED => _ | _ => _ end).
  trans c3; [|auto with spares].
  unfold c3. destruct what; auto with spares; try by apply spares_transition.
  by destruct (negb _); [|apply spares_transition].
Qed.

Lemma spares_run_task t c : spares c (run_deferred_task env t c).
Proof.
  unfold run_deferred_task. destruct t.
  - left. unfold endpoint_connector_finalizer. set (c2 := (release_deferred_task _ _) <| c_endpoint_connector := None |>).
    apply (spares_none c2); [|done]. clearbody c2.
    destruct (c_pending_error c2); [by apply spares_transition|].
    set (c3 := call_tunnel _ c2). trans c3; [by apply spares_call_tunnel|].
    etrans; [by apply (spares_transition E_SESSION_OPENED CD_null)|].
    generalize (client_transition env E_SESSION_OPENED CD_null c3). intros c4.
    destruct (c_client_listener c4); [|done].
    set (c5 := call_tunnel _ c4). trans c5; [by apply spares_call_tunnel|].
    destruct (c_dns_proxy_listener c5); [|done]. pose proof (spares_dns_check c5) as H.
    destruct (VpnClient_do_dns_upstream_health_check env c5) as [started c6]. trans c6; [done|].
    destruct started; [done|by apply spares_emit].
  - trans (release_deferred_task DT_health_check c).
    { apply spares_eq; [done| |done]. by apply occ_remove_first_ne. }
    auto with spares.
  - trans (release_deferred_task DT_deferred_disconnect c); [|by apply spares_transition].
    apply spares_eq; [done| |done]. by apply occ_remove_first_ne.
Qed.

Lemma spares_sleep_wake a b t c :
  calm a = true -> calm b = true -> spares c (sleep_wake a b t c).
Proof.
  intros Ha Hb. unfold sleep_wake. destruct (_ && _).
  - destruct (c_endpoint_connector c); [by apply spares_emit|done].
  - destruct (_ || _); [|done]. trans (call_endpoint b c); [by apply spares_call_endpoint|by apply spares_call_tunnel].
Qed.

(** The two inputs that are about the connector. *)
Definition own_input (i : ClientInput) : bool :=
  match i with CI_connect _ _ | CI_connector_result _ => true | _ => false end.

Lemma client_step_spares i c : own_input i = false -> spares c (client_step env i c).
Proof.
  intros Hi. destruct i; try discriminate Hi; cbn [client_step].
  - apply spares_listen.
  - apply spares_disconnect.
  - apply spares_eq; [done| |done]. unfold finalizers. cbn. rewrite occ_app. apply Nat.add_0_r.
  - unfold VpnClient_process_client_packets. auto with spares.
  - unfold VpnClient_update_exclusions. trans (c <| c_exclusions_mode := mode |>); auto with spares.
  - unfold VpnClient_reset_connections. auto with spares.
  - apply spares_call_tunnel.
  - unfold VpnClient_reject_connect_request. auto with spares.
  - apply spares_call_tunnel.
  - unfold VpnClient_update_bypass_ip_availability. auto with spares.
  - unfold VpnClient_on_network_change. auto with spares.
  - by apply spares_sleep_wake.
  - by apply spares_sleep_wake.
  - apply spares_upstream_event.
  - unfold direct_upstream_handler. etrans; [|by apply spares_call_tunnel]. destruct what; by apply spares_eq.
  - unfold dns_resolver_handler. etrans; [by apply (spares_eq c (c <| c_dns_health_check := false |>))|].
    repeat case_match; done || by apply spares_emit.
  - apply spares_run_task.
Qed.
End Spares.

(** ** The client's side of a connection procedure *)

Section Procedure.
Context (env : ClientEnv).
Implicit Types (c : VpnClient).

Lemma link_run_connect_eq timeout c :
  m_recursive (c_fsm c) = false -> get_state c = S_DISCONNECTED ->
  client_transition env E_RUN_CONNECT (CD_timeout timeout) c =
  (run_connect env (CD_timeout timeout) c) <| c_fsm := mkFsmCell S_CONNECTING false |>.
Proof.
  intros Hr Hs. unfold client_transition. rewrite perform_transition_not_recursive by done.
  rewrite first_match_find_entry by apply client_table_unconditional. rewrite get_state_set_recursive, Hs.
  destruct c as [[st rec] ? ? ? ? ? ? ? ? ? ? [x|]]; cbn in Hr, Hs; subst; cbn; unfold run_connect; cbn; [|reflexivity].
  by destruct (code (connector_connect env timeout) =? VPN_EC_NOERROR).
Qed.

Lemma make_connector_out config c :
  c_out (make_connector config c) = c_out c /\ c_fsm (make_connector config c) = c_fsm c /\
  c_deferred_tasks (make_connector config c) = c_deferred_tasks c /\
  c_endpoint_connector (make_connector config c) <> None.
Proof. unfold make_connector. by destruct (ecc_main_protocol config), (ecc_fallback config) as [[]|]. Qed.

Lemma disconnect_state c : client_wf c -> get_state (VpnClient_disconnect env c) <> S_CONNECTING.
Proof. intros Hwf. destruct (disconnect_core env c Hwf) as [-> _]. done. Qed.

(** A connection procedure that was started: the connector was asked once. *)
Lemma connect_started config timeout c :
  client_wf c -> get_state c = S_DISCONNECTED -> client_input_ok (CI_connect config timeout) c ->
  let c' := snd (VpnClient_connect env config timeout c) in
  get_state c' = S_CONNECTING ->
  c_out c' = c_out c ++ [O_connector_connect timeout; O_bypass_open_session] /\
  finalizers c' = 0%nat /\ code (connector_connect env timeout) = VPN_EC_NOERROR.
Proof.
  intros Hwf Hs Hok. destruct (connect_cases env config timeout c Hwf Hs Hok) as (c1 & e & Hcc & (Hwf1 & _) & Hs1 & He & Heq).
  assert (Hfail : forall e2 c2, core c2 = core c1 -> get_state (connect_fail env e2 c2).2 <> S_CONNECTING).
  { intros e2 c2 Hc. apply disconnect_state. unfold client_wf. by rewrite Hc. }
  cbv zeta. rewrite Heq. destruct (negb (code e =? VPN_EC_NOERROR)) eqn:Hne; [intros H; by destruct (Hfail e c1 eq_refl)|].
  destruct (bypass_open_session env) eqn:Hbp; [|intros H; by eapply Hfail in H; [|apply core_emit]]. intros _.
  apply negb_false_iff, Z.eqb_eq in Hne. pose proof Hwf as (Hr & _ & _ & _ & Hst).
  rewrite (Hs : m_current_state (k_fsm (core c)) = S_DISCONNECTED) in Hst. destruct Hst as [_ Hfin].
  set (w := c <| c_upstream_config := Some config |>) in *.
  destruct (make_connector_out config w) as (M1 & M2 & M3 & M4).
  generalize dependent (make_connector config w). intros c0 Hcc M1 M2 M3 M4.
  assert (Hs0 : get_state c0 = S_DISCONNECTED) by (unfold get_state; cbn; by rewrite M2).
  unfold client_connect in Hcc. rewrite link_run_connect_eq in Hcc by (done || by rewrite M2).
  injection Hcc as _ <-. unfold run_connect. destruct (c_endpoint_connector c0); [|done].
  destruct (Z.eqb_spec (code (connector_connect env timeout)) VPN_EC_NOERROR) as [Hz|Hz].
  - split_and!; [|by unfold finalizers; cbn; rewrite M3|done]. cbn. rewrite M1. by rewrite <- app_assoc.
  - by subst e.
Qed.

Lemma connect_refused config timeout c :
  get_state c <> S_DISCONNECTED -> snd (VpnClient_connect env config timeout c) = c.
Proof. intros Hn. unfold VpnClient_connect, client_state_is. by rewrite (proj2 (Z.eqb_neq _ _) Hn). Qed.

(** A report schedules its handling. *)
Lemma result_scheduled r c :
  k_tunnel (core c) = true -> finalizers (endpoint_connector_handler env r c) = S (finalizers c).
Proof.
  intros Ht. unfold endpoint_connector_handler, finalizers.
  match goal with |- occ _ (c_deferred_tasks (assign _ ?x)) = _ => set (w := x) end.
  assert (Hw : k_tasks (core w) = c_deferred_tasks c).
  { unfold w. destruct r as [u|e]; [|done].
    set (w1 := c <| c_pending_error := None |> <| c_endpoint_upstream := true |>).
    destruct (_ && _); [|done]. pose proof (core_start_dns_proxy_listener env w1 Ht) as H.
    destruct (start_dns_proxy_listener env w1) as [error c2]. cbn [snd] in H.
    trans (k_tasks (core c2)); [by destruct (negb _)|by rewrite H]. }
  change (occ DT_connector_finalizer (k_tasks (core w) ++ [DT_connector_finalizer]) = S (occ DT_connector_finalizer (c_deferred_tasks c))).
  rewrite Hw, occ_app. apply Nat.add_1_r.
Qed.
End Procedure.

(** ** The two together *)

Section Link.
Context {K : Type} `{EC : EndpointConnector K}.

Record Linked := mkLinked { l_client : VpnClient; l_connector : option K }.

(** A call of the client, as the connector sees it. *)
Definition connector_call (kenv : ec_env) (k : K) (o : ClientOut) : K :=
  match o with
  | O_connector_connect timeout => (ec_connect kenv timeout k).2
  | O_connector_disconnect => ec_disconnect kenv k
  | O_connector_handle_sleep => ec_handle_sleep k
  | O_connector_handle_wake => ec_handle_wake k
  | _ => k
  end.

(** The connector after the client turned from [c] into [c']: it got the calls
    made on the way, and it is destroyed with the client's pointer to it. *)
Definition after_client (kenv : ec_env) (c c' : VpnClient) (k : option K) : option K :=
  match c_endpoint_connector c' with
  | None => None
  | Some _ => (fun k => fold_left (connector_call kenv) (drop (length (c_out c)) (c_out c')) k) <$> k
  end.

(** The client after the connector turned from [k] into [k']. *)
Definition after_connector (env : ClientEnv) (k k' : K) (c : VpnClient) : VpnClient :=
  fold_left (fun c r => client_step env (CI_connector_result r) c)
            (drop (length (ec_results k)) (ec_results k')) c.

(** [connect] makes the connector, [fresh], when the client may connect, and its
    answer is the connector's. *)
Definition link_connect (env : ClientEnv) (kenv : ec_env) (fresh : K) config timeout (l : Linked) : Linked :=
  let k := if client_state_is S_DISCONNECTED (l_client l) then Some fresh else l_connector l in
  let env := env <| connector_connect := fun t => (ec_connect kenv t fresh).1 |> in
  let c' := client_step env (CI_connect config timeout) (l_client l) in
  mkLinked c' (after_client kenv (l_client l) c' k).

Definition link_client (env : ClientEnv) (kenv : ec_env) (i : ClientInput) (l : Linked) : Linked :=
  let c' := client_step env i (l_client l) in
  mkLinked c' (after_client kenv (l_client l) c' (l_connector l)).

Definition link_event (env : ClientEnv) (kenv : ec_env) (e : ec_event) (l : Linked) : Linked :=
  match l_connector l with
  | None => l
  | Some k =>
      let k' := ec_handle kenv e k in
      mkLinked (after_connector env k k' (l_client l)) (Some k')
  end.

(** Every run of the pair, with upstream events of every kind at any time.  Of the
    inputs of the client, only the ones that are not the connector's are
    constrained. *)
Inductive link_reachable : Linked -> Prop :=
  | LR_init env split_by_any_of to_integer st c :
      VpnClient_init env split_by_any_of to_integer st client_new = (no_error, c) ->
      c_faults c = [] -> link_reachable (mkLinked c None)
  | LR_connect env kenv fresh config timeout l :
      link_reachable l -> ec_wf fresh -> ec_fresh fresh -> client_input_may (CI_connect config timeout) (l_client l) ->
      link_reachable (link_connect env kenv fresh config timeout l)
  | LR_client env kenv i l :
      link_reachable l -> own_input i = false -> client_input_may i (l_client l) ->
      link_reachable (link_client env kenv i l)
  | LR_event env kenv e l :
      link_reachable l -> (forall k, l_connector l = Some k -> ec_event_ok e k) ->
      link_reachable (link_event env kenv e l).

(** The client has a connector exactly while it connects, and then either the
    connector still works or its report waits to be handled. *)
Definition link_wf (l : Linked) : Prop :=
  client_wf (l_client l) /\ c_faults (l_client l) = [] /\
  match l_connector l with
  | None => get_state (l_client l) <> S_CONNECTING
  | Some k => get_state (l_client l) = S_CONNECTING /\ ec_wf k /\ ec_busy k = (finalizers (l_client l) =? 0)%nat
  end.

Lemma calls_ok kenv os k :
  forallb calm os = true -> ec_wf k ->
  ec_wf (fold_left (connector_call kenv) os k) /\ ec_busy (fold_left (connector_call kenv) os k) = ec_busy k.
Proof.
  revert k. induction os as [|o os IH]; intros k Hc Hw; [done|]. cbn in Hc. apply andb_true_iff in Hc as [Ho Hc].
  assert (H1 : ec_wf (connector_call kenv k o) /\ ec_busy (connector_call kenv k o) = ec_busy k).
  { destruct o; try done; cbn.
    - by destruct (ec_sleep_ok k Hw) as (? & ? & ?).
    - by destruct (ec_wake_ok k Hw) as (? & ? & ?). }
  destruct (IH (connector_call kenv k o) Hc) as [H2 H3]; [apply H1|]. cbn. rewrite H3. split; [done|apply H1].
Qed.

Lemma wf_connector c : client_wf c -> (c_endpoint_connector c <> None <-> get_state c = S_CONNECTING).
Proof.
  intros Hwf. change (get_state c) with (m_current_state (k_fsm (core c))).
  change (c_endpoint_connector c) with (k_connector (core c)).
  unfold client_wf in Hwf. core_cases Hwf; rewrite ?Hs; destruct Hst as [H1 H2]; split; done.
Qed.

Lemma step_wf env i c :
  client_wf c -> c_faults c = [] -> client_input_ok i c ->
  client_wf (client_step env i c) /\ c_faults (client_step env i c) = [].
Proof. intros Hwf Hf Hok. destruct (client_step_ok env i c Hwf Hok) as [(? & ? & _)|(? & ? & _)]; split; congruence. Qed.

Lemma link_client_wf env kenv i l :
  link_wf l -> own_input i = false -> client_input_ok i (l_client l) -> link_wf (link_client env kenv i l).
Proof.
  destruct l as [c k]. cbn. intros (Hwf & Hf & Hk) Hi Hok. destruct (step_wf env i c Hwf Hf Hok) as [Hwf' Hf'].
  pose proof (wf_connector c Hwf) as Hc. pose proof (wf_connector _ Hwf') as Hc'.
  pose proof (client_step_spares env i c Hi) as Hsp. unfold link_client. cbn [l_client l_connector] in *.
  generalize dependent (client_step env i c). intros c' Hwf' Hf' Hc' Hsp.
  split; [done|]. split; [done|]. cbn. unfold after_client. destruct Hsp as [Hn|(He & Hfin & d & Ho & Hd)].
  - rewrite Hn. rewrite <- Hc'. by intros [].
  - destruct (c_endpoint_connector c') as [x|] eqn:Hx; [|by rewrite <- Hc'; intros []].
    destruct k as [k|]; cbn; [|by destruct Hk; apply Hc; rewrite <- He].
    destruct Hk as (Hs & Hw & Hb). rewrite Ho, drop_app_length, Hfin.
    destruct (calls_ok kenv d k Hd Hw) as [H1 H2]. rewrite H2. split; [by apply Hc'|done].
Qed.

Lemma link_event_wf env kenv e l :
  link_wf l -> (forall k, l_connector l = Some k -> ec_event_ok e k) -> link_wf (link_event env kenv e l).
Proof.
  destruct l as [c [k|]]; unfold link_event; cbn; intros (Hwf & Hf & Hk) He; [|done]. destruct Hk as (Hs & Hw & Hb).
  destruct (ec_handle_ok kenv e k Hw (He k eq_refl)) as [Hw' H]. unfold after_connector.
  generalize dependent (ec_handle kenv e k). intros k' Hw' H. destruct H as [(Hr & Hb' & _)|(r & Hr & Hb1 & Hb2)].
  - rewrite Hr, drop_all. split; [done|]. split; [done|]. cbn. by rewrite Hb'.
  - rewrite Hr, drop_app_length. cbn [fold_left]. cbn [l_client l_connector] in *.
    rewrite Hb1 in Hb. symmetry in Hb. apply Nat.eqb_eq in Hb.
    assert (Hok : client_input_ok (CI_connector_result r) c) by (split; [by apply wf_connector|done]).
    destruct (step_wf env _ c Hwf Hf Hok) as [Hwf1 Hf1]. split; [done|]. split; [done|]. cbn [l_connector l_client].
    split_and!; [|done|cbn [client_step]; rewrite result_scheduled by (by apply wf_tunnel); by rewrite Hb].
    destruct (connector_result_good env r c Hwf Hok) as (_ & _ & _ & [Hst|[[Hst _]|[Hst _]]]); [|by rewrite Hs in Hst|done].
    cbn [client_step]. by rewrite Hst.
Qed.

Lemma link_connect_wf env kenv fresh config timeout l :
  link_wf l -> ec_wf fresh -> ec_fresh fresh -> client_input_ok (CI_connect config timeout) (l_client l) ->
  link_wf (link_connect env kenv fresh config timeout l).
Proof.
  destruct l as [c k]. unfold link_connect. cbn [l_client l_connector]. intros (Hwf & Hf & Hk) Hw Hfr Hok.
  cbn [l_client l_connector] in *. set (env' := env <| connector_connect := _ |>).
  destruct (step_wf env' _ c Hwf Hf Hok) as [Hwf' Hf']. split; [done|]. split; [done|]. cbn [l_client l_connector].
  unfold client_state_is. destruct (Z.eqb_spec (get_state c) S_DISCONNECTED) as [Hs|Hs].
  - pose proof (connect_started env' config timeout c Hwf Hs Hok) as Hst. cbn [client_step] in *. cbv zeta in Hst.
    pose proof (wf_connector _ Hwf') as Hc'. generalize dependent ((VpnClient_connect env' config timeout c).2). intros c' Hwf' Hf' Hst Hc'.
    unfold after_client. destruct (c_endpoint_connector c') as [x|] eqn:Hx; [|by rewrite <- Hc'; intros []].
    assert (Hs' : get_state c' = S_CONNECTING) by by apply Hc'. destruct (Hst Hs') as (Ho & Hfin & Hcode).
    rewrite Ho, drop_app_length, Hfin. cbn. destruct (ec_connect_ok kenv timeout fresh Hw Hfr) as (H1 & _ & H3).
    split_and!; [done..|]. rewrite H3. by apply Z.eqb_eq.
  - cbn [client_step]. rewrite connect_refused by done. unfold after_client. rewrite drop_all.
    pose proof (wf_connector _ Hwf) as Hc. destruct (c_endpoint_connector c) eqn:Hx.
    + destruct k as [k|]; cbn; [done|]. by destruct Hk; apply Hc.
    + rewrite <- Hc. by intros [].
Qed.

Lemma link_event_reachable env kenv e l :
  link_wf l -> (forall k, l_connector l = Some k -> ec_event_ok e k) ->
  client_reachable (l_client l) -> client_reachable (l_client (link_event env kenv e l)).
Proof.
  destruct l as [c [k|]]; unfold link_event; cbn; [|done]. intros (Hwf & Hf & Hs & Hw & Hb) He Hr. cbn [l_client l_connector] in *.
  unfold after_connector. destruct (ec_handle_ok kenv e k Hw (He k eq_refl)) as [_ [(Hres & _)|(r & Hres & Hb1 & _)]].
  - by rewrite Hres, drop_all.
  - rewrite Hres, drop_app_length. cbn [fold_left]. apply CR_step; [done|]. split; [by apply wf_connector|].
    rewrite Hb1 in Hb. symmetry in Hb. by apply Nat.eqb_eq in Hb.
Qed.

Lemma after_connector_faults env k k' c : c_faults c `prefix_of` c_faults (after_connector env k k' c).
Proof.
  unfold after_connector. generalize (drop (length (ec_results k)) (ec_results k')). intros rs. revert c.
  induction rs as [|r rs IH]; intros c; [done|]. etrans; [apply (client_step_faults env (CI_connector_result r))|apply IH].
Qed.

Lemma link_event_faults env kenv e l : c_faults (l_client l) `prefix_of` c_faults (l_client (link_event env kenv e l)).
Proof. unfold link_event. destruct (l_connector l); [apply after_connector_faults|done]. Qed.

(** C13.  A client linked with any connector that implements the interface, with
    upstream events of every kind at any time.  Either one of the two assertions of
    [vpn_upstream_handler] has failed, or all of this holds: what the client's
    theorems ask of the connector's reports holds, so that the state of the client in
    the pair is a reachable state of the client alone; the connector exists exactly
    while the client connects; and a client that connects never waits for nothing:
    the connector is still busy, and will report, or its report is already scheduled
    to be handled, exactly one of the two. *)
Theorem linked_client_reachable l :
  link_reachable l -> upstream_asserted (l_client l) \/ (client_reachable (l_client l) /\ link_wf l).
Proof.
  induction 1 as [env sp ti st c Hi Hf|env kenv fresh config timeout l _ [IH|[IH1 IH2]] Hw Hfr Hok
                 |env kenv i l _ [IH|[IH1 IH2]] Hi Hok|env kenv e l _ [IH|[IH1 IH2]] He].
  - right. destruct (init_wf env sp ti st c Hi) as [Hwf Hs]. split; [by eapply CR_init|]. split; [done|]. split; [done|].
    cbn. by rewrite Hs.
  - left. eapply asserted_grows; [apply (client_step_faults _ (CI_connect config timeout))|done].
  - right. split; [by apply (CR_step _ (CI_connect config timeout))|by apply link_connect_wf].
  - left. eapply asserted_grows; [apply (client_step_faults env i)|done].
  - destruct (client_input_split env i _ Hok) as [Hok'|Ha]; [right|by left].
    split; [by apply CR_step|by apply link_client_wf].
  - left. eapply asserted_grows; [apply link_event_faults|done].
  - right. split; [by apply link_event_reachable|by apply link_event_wf].
Qed.
End Link.

(** ** A run: connecting through the fallback *)

Module LinkRun.
Definition link_events (l : @Linked TwoUpstreams) : @Linked TwoUpstreams :=
  fold_left (fun l '(env, e) => link_event Samples.all_ok env e l) FallbackRun.events l.

Definition started : @Linked TwoUpstreams :=
  link_connect (EC := Fallback.connector) Samples.all_ok (FallbackRun.at_time 100) (two_upstreams 1000) Samples.config (Some 5000) (mkLinked Samples.fresh None).

Lemma started_reachable : link_reachable started.
Proof.
  destruct (two_upstreams_fresh 1000) as [Hw Hf]. apply LR_connect; [|exact Hw|exact Hf|done].
  apply (LR_init Samples.all_ok (fun s _ => [s]) (fun _ => Some 443) Samples.settings); by vm_compute.
Qed.

(** The events are ones that the connector accepts when they come. *)
Lemma events_reachable es (l : @Linked TwoUpstreams) k :
  link_reachable l -> l_connector l = Some k -> ec_run_ok es k ->
  link_reachable (fold_left (fun l '(env, e) => link_event Samples.all_ok env e l) es l).
Proof.
  revert l k. induction es as [|[env e] es IH]; intros l k Hl Hk Hok; [done|]. destruct Hok as [He Hok].
  apply (IH _ (ec_handle env e k)); [|by unfold link_event; rewrite Hk|done].
  apply LR_event; [done|]. intros k' Hk'. congruence.
Qed.

Definition handled : @Linked TwoUpstreams :=
  link_client (EC := Fallback.connector) Samples.all_ok (FallbackRun.at_time 720) (CI_run_task DT_connector_finalizer) (link_events started).

Lemma handled_reachable : link_reachable handled.
Proof.
  apply LR_client; [|done|].
  - apply (events_reachable _ _ FallbackRun.start); [apply started_reachable|by vm_compute|apply FallbackRun.events_ok].
  - apply occ_pos. vm_compute. lia.
Qed.
End LinkRun.

Lemma linked_client_reachable_witness :
  get_state (l_client LinkRun.handled) = S_CONNECTED /\ l_connector LinkRun.handled = None /\
  client_reachable (l_client LinkRun.handled).
Proof.
  split; [by vm_compute|]. split; [by vm_compute|].
  destruct (linked_client_reachable LinkRun.handled LinkRun.handled_reachable) as [[Hf|Hf]|[H _]]; [..|exact H];
    apply list_elem_of_In in Hf; vm_compute in Hf; destruct Hf.
Defined.
