(* ===== verification/Vpn.v ===== *)
(** * The VPN object

    Models [struct Vpn] of [core/src/vpn_manager.h] and its methods in
    [core/src/vpn_manager.cpp]: the configuration with its defaults, the client
    and the pinger the manager drives, the recovery clock, the connection
    requests put off during recovery, and the tasks submitted to the event
    loop.

    A lambda passed to [submit] is a constructor of [VpnTask]; [v_tasks] is the
    queue of the event loop, first in first out.  Time points are nanoseconds
    of the steady clock, [0] being the unset [time_point{}]; the clock is read
    once per step.  What the manager tells the application and asks of the
    pinger is recorded in [v_out]. *)

From S2P Require Import Prelude Fsm VpnTypes PortRanges VpnClient.
From Stdlib Require Import SpecFloat.

(** ** Data *)

Inductive ClientConnectionState := CLIS_DISCONNECTED | CLIS_CONNECTING | CLIS_CONNECTED.

(** [RecoveryInfo]; [r_task] says whether the recovery task is scheduled. *)
Record RecoveryInfo := mkRecoveryInfo {
  r_start_ts : Z;
  r_attempt_start_ts : Z;
  r_between_attempts : Z;
  r_to_next : Z;
  r_attempts : Z;
  r_task : bool;
}.
#[export] Instance eta_RecoveryInfo : Eta RecoveryInfo := fun r =>
  mkRecoveryInfo (r_start_ts r) (r_attempt_start_ts r) (r_between_attempts r) (r_to_next r)
    (r_attempts r) (r_task r).

(** [RecoveryInfo{}] *)
Definition no_recovery : RecoveryInfo :=
  mkRecoveryInfo 0 0 VPN_DEFAULT_INITIAL_RECOVERY_INTERVAL_MS 0 0 false.

(** [recovery.time = {}] *)
Definition reset_recovery_time (r : RecoveryInfo) : RecoveryInfo :=
  mkRecoveryInfo 0 0 VPN_DEFAULT_INITIAL_RECOVERY_INTERVAL_MS 0 (r_attempts r) (r_task r).

Inductive ConnectRetryInfo :=
  | ConnectSeveralAttempts (attempts_left : Z)
  | ConnectFallIntoRecovery.

Record SelectedEndpoint := mkSelectedEndpoint {
  sel_endpoint : VpnEndpoint;
  sel_relay : option VpnRelay;
}.

(** What [VpnStateChangedEvent] carries besides the state. *)
Inductive StateInfo :=
  | SI_error (error : VpnError)
  | SI_waiting_recovery (error : VpnError) (time_to_next_ms : Z)
  | SI_connected (selected : option SelectedEndpoint).

Inductive VpnOut :=
  | VO_state_changed (state : Z) (info : StateInfo)
  | VO_dns_upstream_unavailable
  | VO_sleep_complete
  | VO_connection_stats (error : option VpnError)
  | VO_pinger_start (relay_parallel : option VpnRelay) (handoff : bool) (quic_max_idle_timeout_ms : Z)
  | VO_pinger_stop.

(** The functions submitted to the event loop. *)
Inductive VpnTask :=
  | VT_recovery_exhausted
  | VT_client_connect_failed
  | VT_retry_connect
  | VT_listen_failed (error : VpnError)
  | VT_do_connect (config : VpnUpstreamConfig) (retry_info : ConnectRetryInfo)
  | VT_force_reconnect
  | VT_shutdown (error : option VpnError)
  | VT_complete_request (result : ConnectRequestResult)
  | VT_update_exclusions (mode : VpnMode)
  | VT_reset_connections (uid : Z)
  | VT_network_change (state : VpnNetworkState)
  | VT_connection_stats
  | VT_handle_sleep
  | VT_sleep_complete
  | VT_handle_wake
  | VT_process_packets
  | VT_abandon_endpoint (endpoint : VpnEndpoint).

(** The location pinger: it is given one location and reports on it once. *)
Inductive PingerState := P_none | P_running | P_reported.

Record Vpn := mkVpn {
  v_fsm : FsmCell;
  v_pending_error : option VpnError;
  v_executor_thread : bool;
  v_ev_loop : bool;
  v_recovery : RecoveryInfo;
  v_last_recovery_fire_ts : Z;
  v_upstream_config : VpnUpstreamConfig;
  v_selected_endpoint : option SelectedEndpoint;
  v_network_changed_before_recovery : bool;
  v_connected_once : bool;
  v_pinger : PingerState;
  v_ping_failure_induces_location_unavailable : bool;
  v_client_state : ClientConnectionState;
  v_client : VpnClient;
  v_connect_retry_info : ConnectRetryInfo;
  v_bypassed_connection_ids : list Z;
  v_postponed_requests : list ConnectRequestResult;
  v_postponement_window_timer : bool;
  v_tasks : list VpnTask;
  v_out : list VpnOut;
  v_faults : list string;
}.
#[export] Instance eta_Vpn : Eta Vpn := fun r =>
  mkVpn (v_fsm r) (v_pending_error r) (v_executor_thread r) (v_ev_loop r) (v_recovery r)
    (v_last_recovery_fire_ts r) (v_upstream_config r) (v_selected_endpoint r)
    (v_network_changed_before_recovery r) (v_connected_once r) (v_pinger r)
    (v_ping_failure_induces_location_unavailable r) (v_client_state r) (v_client r)
    (v_connect_retry_info r) (v_bypassed_connection_ids r) (v_postponed_requests r)
    (v_postponement_window_timer r) (v_tasks r) (v_out r) (v_faults r).

(** The [void *data] of an event. *)
Inductive VpnData :=
  | VD_null
  | VD_error (error : VpnError)
  | VD_network (state : VpnNetworkState)
  | VD_request (result : ConnectRequestResult)
  | VD_listen (config : VpnListenerConfig).

(** What the memory behind event data reads as when it is cast to another type. *)
Record Reinterpret := mkReinterpret {
  read_error : VpnData -> VpnError;
  read_network : VpnData -> VpnNetworkState;
  read_result : VpnData -> ConnectRequestResult;
  read_listen : VpnData -> VpnListenerConfig;
}.

(** Answers of the parts around the manager, the clock, and what a wrong cast would
    read. *)
Record VpnEnv := mkVpnEnv {
  client_env : ClientEnv;
  now : Z;
  tunnel_finalize_connect_action : ConnectRequestResult -> option VpnConnectAction;
  tunnel_should_complete_immediately : Z -> bool;
  event_loop_create : bool;
  event_loop_starts : bool;
  address_valid : SocketAddress -> bool;
  reinterpret : Reinterpret;
}.
#[export] Instance eta_VpnEnv : Eta VpnEnv := fun r =>
  mkVpnEnv (client_env r) (now r) (tunnel_finalize_connect_action r) (tunnel_should_complete_immediately r)
    (event_loop_create r) (event_loop_starts r) (address_valid r) (reinterpret r).

(** ** Primitive steps *)

Definition v_fault (what : string) (v : Vpn) : Vpn := v <| v_faults := v_faults v ++ [what] |>.

Definition v_emit (o : VpnOut) (v : Vpn) : Vpn := v <| v_out := v_out v ++ [o] |>.

Definition submit (t : VpnTask) (v : Vpn) : Vpn :=
  if v_ev_loop v then v <| v_tasks := v_tasks v ++ [t] |> else v_fault "ev_loop is null" v.

(** A call on [vpn->client]. *)
Definition on_client (f : VpnClient -> VpnClient) (v : Vpn) : Vpn :=
  v <| v_client := f (v_client v) |>.

#[export, refine] Instance Vpn_FsmCtx : FsmCtx Vpn := {|
  get_fsm := v_fsm;
  put_fsm f v := v <| v_fsm := f |>;
  fail_assert := v_fault "recursive fsm run";
|}.
Proof. all: by intros; destruct_all Vpn. Defined.

(** ** Methods *)

Section Methods.
Context (env : VpnEnv).
Implicit Types (v : Vpn).

Definition default_z (d x : Z) : Z := if x =? 0 then d else x.

Definition normalize_upstream_config (config : VpnUpstreamConfig) : VpnUpstreamConfig :=
  let config := config <| location_ping_timeout_ms :=
      default_z DEFAULT_LOCATION_PING_TIMEOUT_MS (location_ping_timeout_ms config) |> in
  let config := config <| timeout_ms :=
      default_z VPN_DEFAULT_ENDPOINT_UPSTREAM_TIMEOUT_MS (timeout_ms config) |> in
  let config := config <| health_check_timeout_ms :=
      default_z VPN_DEFAULT_HEALTH_CHECK_TIMEOUT_MS (health_check_timeout_ms config) |> in
  let config := config <| health_check_timeout_ms :=
      Z.min (health_check_timeout_ms config) (timeout_ms config) |> in
  let r := recovery_settings config in
  let r := if f32_ltb (backoff_rate r) (f32_of_Z 1)
           then r <| backoff_rate := VPN_DEFAULT_RECOVERY_BACKOFF_RATE |> else r in
  let r := r <| location_update_period_ms :=
      default_z VPN_DEFAULT_RECOVERY_LOCATION_UPDATE_PERIOD_MS (location_update_period_ms r) |> in
  let r := r <| recovery_attempts := default_z VPN_DEFAULT_RECOVERY_ATTEMPTS (recovery_attempts r) |> in
  config <| recovery_settings := r |>.

Definition update_upstream_config (config : VpnUpstreamConfig) v : Vpn :=
  v <| v_upstream_config := normalize_upstream_config config |>.

(** The protocol [make_client_upstream_config] settles on; [VPN_UP_AUTO]
    follows what the pinger handed over. *)
Definition choose_protocol (configured : VpnUpstreamProtocol) (quic_connector : bool) : VpnUpstreamProtocol :=
  let chosen := match configured with
                | VPN_UP_AUTO => if quic_connector then VPN_UP_HTTP3 else VPN_UP_HTTP2
                | p => p
                end in
  match chosen with
  | VPN_UP_HTTP3 => VPN_UP_HTTP3
  | _ => VPN_UP_HTTP2
  end.

(** [None] is the exception of [selected_endpoint.value()]. *)
Definition make_client_upstream_config v : option EndpointConnectionConfig :=
  match v_selected_endpoint v with
  | None => None
  | Some sel =>
      let endpoint := sel_endpoint sel in
      let verification_address := address endpoint in
      let endpoint := match sel_relay sel with
                      | Some relay => endpoint <| address := relay_address relay |>
                                               <| additional_data := relay_additional_data relay |>
                      | None => endpoint
                      end in
      let config := v_upstream_config v in
      Some {|
        ecc_main_protocol := choose_protocol (main_protocol config) (c_quic_connector (v_client v));
        ecc_connections_num := http_connections_num config;
        ecc_fallback := None;
        ecc_endpoint := endpoint;
        ecc_verification_address := verification_address;
        ecc_timeout := timeout_ms config;
        ecc_health_check_timeout := health_check_timeout_ms config;
        ecc_username := username config;
        ecc_password := password config;
        ecc_ipv6_available := has_ipv6 endpoint;
        ecc_anti_dpi := anti_dpi config;
      |}
  end.

Definition disconnect_client v : Vpn :=
  match v_client_state v with
  | CLIS_DISCONNECTED => v
  | CLIS_CONNECTED | CLIS_CONNECTING =>
      let v := on_client (VpnClient_disconnect (client_env env)) v in
      v <| v_client_state := CLIS_DISCONNECTED |>
  end.

Definition stop_pinging v : Vpn :=
  let v := match v_pinger v with
           | P_none => v
           | _ => (v_emit VO_pinger_stop v) <| v_pinger := P_none |>
           end in
  v <| v_ping_failure_induces_location_unavailable := false |>.

Definition Vpn_disconnect v : Vpn := disconnect_client (stop_pinging v).

(** [run_event_loop]: [false] when the loop could not be created or started. *)
Definition run_event_loop v : bool * Vpn :=
  let v := if v_ev_loop v then v else v <| v_ev_loop := event_loop_create env |> in
  if negb (v_ev_loop v) then (false, v)
  else if event_loop_starts env then (true, v <| v_executor_thread := true |>)
  else (false, v_fault "event loop did not start" v).

Definition complete_postponed_requests v : Vpn :=
  let v := on_client (fun c =>
      fold_left (fun c r => VpnClient_complete_connect_request (req_id r) (action r) c)
        (v_postponed_requests v) c) v in
  v <| v_postponed_requests := [] |>.

Definition reset_bypassed_connections v : Vpn :=
  let v := on_client (fun c =>
      fold_left (fun c id => VpnClient_reset_connection id c) (v_bypassed_connection_ids v) c) v in
  v <| v_bypassed_connection_ids := [] |>.
End Methods.
