(* ===== verification/VpnFsm.v ===== *)
(** * The session state machine

    Models [core/src/vpn_fsm.cpp] and [core/src/vpn_fsm.h]: the transition table
    of the session, the conditions and actions it names, the recovery clock,
    and the handler of the location pinger. *)

From S2P Require Import Prelude Fsm VpnTypes PortRanges VpnClient Vpn.

(** [enum ConnectEvent] *)
Definition CE_DO_CONNECT : Z := 0.
Definition CE_RETRY_CONNECT : Z := 1.
Definition CE_PING_READY : Z := 2.
Definition CE_PING_FAIL : Z := 3.
Definition CE_CLIENT_READY : Z := 4.
Definition CE_CLIENT_DISCONNECTED : Z := 5.
Definition CE_DO_RECOVERY : Z := 6.
Definition CE_SHUTDOWN : Z := 7.
Definition CE_NETWORK_CHANGE : Z := 8.
Definition CE_START_LISTENING : Z := 9.
Definition CE_ABANDON_ENDPOINT : Z := 10.
Definition CE_COMPLETE_REQUEST : Z := 11.

Inductive VpnGuard :=
  | G_need_to_ping_on_recovery
  | G_fall_into_recovery
  | G_no_connect_attempts
  | G_network_lost
  | G_connected_once
  | G_is_fatal_error
  | G_can_complete
  | G_is_kill_switch_on
  | G_should_postpone.

Inductive VpnAction :=
  | X_run_ping
  | X_connect_client
  | X_complete_connect
  | X_fail_connect_with_no_attempts
  | X_retry_connect
  | X_prepare_for_recovery
  | X_prepare_for_recovery_nc
  | X_reconnect_client
  | X_finalize_recovery
  | X_do_disconnect
  | X_start_listening
  | X_on_wrong_connect_state
  | X_on_wrong_listen_state
  | X_raise_state
  | X_complete_request
  | X_postpone_request
  | X_reject_request
  | X_bypass_until_connected.

Definition TRANSITION_TABLE : FsmTransitionTable VpnGuard VpnAction := [
  mkEntry VPN_SS_DISCONNECTED CE_DO_CONNECT ANYWAY (Some X_run_ping) VPN_SS_CONNECTING (Some X_raise_state);
  mkEntry VPN_SS_DISCONNECTED CE_CLIENT_DISCONNECTED ANYWAY DO_NOTHING SAME_TARGET_STATE DO_NOTHING;
  mkEntry VPN_SS_DISCONNECTED CE_SHUTDOWN ANYWAY (Some X_do_disconnect) SAME_TARGET_STATE DO_NOTHING;
  mkEntry VPN_SS_DISCONNECTED CE_START_LISTENING ANYWAY (Some X_on_wrong_listen_state) SAME_TARGET_STATE DO_NOTHING;
  mkEntry VPN_SS_DISCONNECTED CE_NETWORK_CHANGE ANYWAY DO_NOTHING SAME_TARGET_STATE DO_NOTHING;

  mkEntry VPN_SS_CONNECTING CE_RETRY_CONNECT ANYWAY (Some X_run_ping) SAME_TARGET_STATE DO_NOTHING;
  mkEntry VPN_SS_CONNECTING CE_PING_READY ANYWAY (Some X_connect_client) SAME_TARGET_STATE DO_NOTHING;
  mkEntry VPN_SS_CONNECTING CE_PING_FAIL (Some G_is_fatal_error) (Some X_complete_connect) VPN_SS_DISCONNECTED (Some X_raise_state);
  mkEntry VPN_SS_CONNECTING CE_PING_FAIL (Some G_fall_into_recovery) (Some X_prepare_for_recovery) VPN_SS_WAITING_RECOVERY (Some X_raise_state);
  mkEntry VPN_SS_CONNECTING CE_PING_FAIL (Some G_no_connect_attempts) (Some X_complete_connect) VPN_SS_DISCONNECTED (Some X_raise_state);
  mkEntry VPN_SS_CONNECTING CE_PING_FAIL OTHERWISE (Some X_retry_connect) SAME_TARGET_STATE DO_NOTHING;
  mkEntry VPN_SS_CONNECTING CE_CLIENT_READY ANYWAY (Some X_complete_connect) VPN_SS_CONNECTED (Some X_raise_state);
  mkEntry VPN_SS_CONNECTING CE_CLIENT_DISCONNECTED (Some G_is_fatal_error) (Some X_complete_connect) VPN_SS_DISCONNECTED (Some X_raise_state);
  mkEntry VPN_SS_CONNECTING CE_CLIENT_DISCONNECTED (Some G_fall_into_recovery) (Some X_prepare_for_recovery) VPN_SS_WAITING_RECOVERY (Some X_raise_state);
  mkEntry VPN_SS_CONNECTING CE_CLIENT_DISCONNECTED (Some G_no_connect_attempts) (Some X_complete_connect) VPN_SS_DISCONNECTED (Some X_raise_state);
  mkEntry VPN_SS_CONNECTING CE_CLIENT_DISCONNECTED OTHERWISE (Some X_retry_connect) SAME_TARGET_STATE DO_NOTHING;
  mkEntry VPN_SS_CONNECTING CE_ABANDON_ENDPOINT (Some G_is_fatal_error) (Some X_complete_connect) VPN_SS_DISCONNECTED (Some X_raise_state);
  mkEntry VPN_SS_CONNECTING CE_ABANDON_ENDPOINT OTHERWISE (Some X_retry_connect) SAME_TARGET_STATE DO_NOTHING;
  mkEntry VPN_SS_CONNECTING CE_NETWORK_CHANGE (Some G_no_connect_attempts) (Some X_fail_connect_with_no_attempts) VPN_SS_DISCONNECTED (Some X_raise_state);
  mkEntry VPN_SS_CONNECTING CE_NETWORK_CHANGE (Some G_network_lost) (Some X_do_disconnect) VPN_SS_WAITING_FOR_NETWORK (Some X_raise_state);
  mkEntry VPN_SS_CONNECTING CE_NETWORK_CHANGE OTHERWISE DO_NOTHING SAME_TARGET_STATE DO_NOTHING;

  mkEntry VPN_SS_CONNECTED CE_NETWORK_CHANGE (Some G_network_lost) (Some X_do_disconnect) VPN_SS_WAITING_FOR_NETWORK (Some X_raise_state);
  mkEntry VPN_SS_CONNECTED CE_NETWORK_CHANGE OTHERWISE (Some X_prepare_for_recovery_nc) VPN_SS_WAITING_RECOVERY (Some X_raise_state);
  mkEntry VPN_SS_CONNECTED CE_ABANDON_ENDPOINT (Some G_is_fatal_error) (Some X_do_disconnect) VPN_SS_DISCONNECTED (Some X_raise_state);
  mkEntry VPN_SS_CONNECTED CE_ABANDON_ENDPOINT OTHERWISE (Some X_prepare_for_recovery) VPN_SS_WAITING_RECOVERY (Some X_raise_state);

  mkEntry VPN_SS_WAITING_RECOVERY CE_NETWORK_CHANGE (Some G_network_lost) (Some X_do_disconnect) VPN_SS_WAITING_FOR_NETWORK (Some X_raise_state);
  mkEntry VPN_SS_WAITING_RECOVERY CE_NETWORK_CHANGE OTHERWISE (Some X_run_ping) VPN_SS_RECOVERING (Some X_raise_state);
  mkEntry VPN_SS_WAITING_RECOVERY CE_DO_RECOVERY (Some G_need_to_ping_on_recovery) (Some X_run_ping) VPN_SS_RECOVERING (Some X_raise_state);
  mkEntry VPN_SS_WAITING_RECOVERY CE_DO_RECOVERY OTHERWISE (Some X_connect_client) VPN_SS_RECOVERING (Some X_raise_state);
  mkEntry VPN_SS_WAITING_RECOVERY CE_CLIENT_DISCONNECTED (Some G_is_fatal_error) (Some X_do_disconnect) VPN_SS_DISCONNECTED (Some X_raise_state);
  mkEntry VPN_SS_WAITING_RECOVERY CE_CLIENT_DISCONNECTED OTHERWISE DO_NOTHING SAME_TARGET_STATE DO_NOTHING;
  mkEntry VPN_SS_WAITING_RECOVERY CE_ABANDON_ENDPOINT (Some G_is_fatal_error) (Some X_do_disconnect) VPN_SS_DISCONNECTED (Some X_raise_state);

  mkEntry VPN_SS_RECOVERING CE_NETWORK_CHANGE (Some G_network_lost) (Some X_do_disconnect) VPN_SS_WAITING_FOR_NETWORK (Some X_raise_state);
  mkEntry VPN_SS_RECOVERING CE_NETWORK_CHANGE OTHERWISE DO_NOTHING SAME_TARGET_STATE DO_NOTHING;
  mkEntry VPN_SS_RECOVERING CE_PING_READY ANYWAY (Some X_reconnect_client) SAME_TARGET_STATE DO_NOTHING;
  mkEntry VPN_SS_RECOVERING CE_PING_FAIL (Some G_is_fatal_error) (Some X_do_disconnect) VPN_SS_DISCONNECTED (Some X_raise_state);
  mkEntry VPN_SS_RECOVERING CE_PING_FAIL OTHERWISE (Some X_prepare_for_recovery) VPN_SS_WAITING_RECOVERY (Some X_raise_state);
  mkEntry VPN_SS_RECOVERING CE_CLIENT_READY ANYWAY (Some X_finalize_recovery) VPN_SS_CONNECTED (Some X_raise_state);
  mkEntry VPN_SS_RECOVERING CE_ABANDON_ENDPOINT (Some G_is_fatal_error) (Some X_do_disconnect) VPN_SS_DISCONNECTED (Some X_raise_state);
  mkEntry VPN_SS_RECOVERING CE_ABANDON_ENDPOINT OTHERWISE (Some X_prepare_for_recovery) VPN_SS_WAITING_RECOVERY (Some X_raise_state);

  mkEntry VPN_SS_WAITING_FOR_NETWORK CE_NETWORK_CHANGE (Some G_network_lost) DO_NOTHING SAME_TARGET_STATE DO_NOTHING;
  mkEntry VPN_SS_WAITING_FOR_NETWORK CE_NETWORK_CHANGE (Some G_connected_once) (Some X_prepare_for_recovery_nc) VPN_SS_WAITING_RECOVERY (Some X_raise_state);
  mkEntry VPN_SS_WAITING_FOR_NETWORK CE_NETWORK_CHANGE (Some G_no_connect_attempts) (Some X_fail_connect_with_no_attempts) VPN_SS_DISCONNECTED (Some X_raise_state);
  mkEntry VPN_SS_WAITING_FOR_NETWORK CE_NETWORK_CHANGE OTHERWISE (Some X_retry_connect) VPN_SS_CONNECTING (Some X_raise_state);

  mkEntry ANY_SOURCE_STATE CE_CLIENT_DISCONNECTED (Some G_is_fatal_error) (Some X_do_disconnect) VPN_SS_DISCONNECTED (Some X_raise_state);
  mkEntry ANY_SOURCE_STATE CE_CLIENT_DISCONNECTED OTHERWISE (Some X_prepare_for_recovery) VPN_SS_WAITING_RECOVERY (Some X_raise_state);
  mkEntry ANY_SOURCE_STATE CE_SHUTDOWN ANYWAY (Some X_do_disconnect) VPN_SS_DISCONNECTED (Some X_raise_state);
  mkEntry ANY_SOURCE_STATE CE_DO_CONNECT ANYWAY (Some X_on_wrong_connect_state) VPN_SS_DISCONNECTED (Some X_raise_state);
  mkEntry ANY_SOURCE_STATE CE_START_LISTENING ANYWAY (Some X_start_listening) SAME_TARGET_STATE DO_NOTHING;

  mkEntry ANY_SOURCE_STATE CE_COMPLETE_REQUEST (Some G_can_complete) (Some X_complete_request) SAME_TARGET_STATE DO_NOTHING;
  mkEntry ANY_SOURCE_STATE CE_COMPLETE_REQUEST (Some G_should_postpone) (Some X_postpone_request) SAME_TARGET_STATE DO_NOTHING;
  mkEntry ANY_SOURCE_STATE CE_COMPLETE_REQUEST (Some G_is_kill_switch_on) (Some X_reject_request) SAME_TARGET_STATE DO_NOTHING;
  mkEntry ANY_SOURCE_STATE CE_COMPLETE_REQUEST OTHERWISE (Some X_bypass_until_connected) SAME_TARGET_STATE DO_NOTHING
].

(** What each event carries. *)
Definition data_fits (ev : Z) (d : VpnData) : bool :=
  match d with
  | VD_null => negb ((ev =? CE_NETWORK_CHANGE) || (ev =? CE_COMPLETE_REQUEST) || (ev =? CE_START_LISTENING))
  | VD_error _ => (ev =? CE_PING_FAIL) || (ev =? CE_CLIENT_DISCONNECTED)
  | VD_network _ => ev =? CE_NETWORK_CHANGE
  | VD_request _ => ev =? CE_COMPLETE_REQUEST
  | VD_listen _ => ev =? CE_START_LISTENING
  end.

Section Session.
Context (env : VpnEnv).
Implicit Types (v : Vpn) (data : VpnData).

(** Casts of [data].  A null pointer gives [None]; a pointer to something else is
    read as whatever is there. *)
Definition data_error data : option VpnError :=
  match data with VD_null => None | VD_error e => Some e | d => Some (read_error (reinterpret env) d) end.
Definition data_network data : option VpnNetworkState :=
  match data with VD_null => None | VD_network s => Some s | d => Some (read_network (reinterpret env) d) end.
Definition data_request data : option ConnectRequestResult :=
  match data with VD_null => None | VD_request r => Some r | d => Some (read_result (reinterpret env) d) end.
Definition data_listen data : option VpnListenerConfig :=
  match data with VD_null => None | VD_listen c => Some c | d => Some (read_listen (reinterpret env) d) end.

(** [duration_cast<Millis>] of nanoseconds truncates. *)
Definition to_millis (ns : Z) : Z := Z.quot ns 1000000.
Definition to_nanos (ms : Z) : Z := ms * 1000000.

(** ** Conditions *)

Definition is_fatal_error_code (c : Z) : bool :=
  (c =? VPN_EC_AUTH_REQUIRED) || (c =? VPN_EC_LOCATION_UNAVAILABLE)
  || (c =? VPN_EC_CERTIFICATE_VERIFICATION_FAILED).

Definition pending_code v : Z := code (default no_error (v_pending_error v)).

Definition is_fatal_error v data : bool :=
  match data_error data with Some e => is_fatal_error_code (code e) | None => false end
  || is_fatal_error_code (pending_code v).

Definition need_to_ping_on_recovery v : bool :=
  match v_selected_endpoint v with
  | None => true
  | Some _ =>
      if v_network_changed_before_recovery v then true
      else to_nanos (location_update_period_ms (recovery_settings (v_upstream_config v)))
             <=? now env - r_start_ts (v_recovery v)
  end.

Definition fall_into_recovery v : bool :=
  match v_connect_retry_info v with ConnectFallIntoRecovery => true | _ => false end.

Definition no_connect_attempts v : bool :=
  match v_connect_retry_info v with
  | ConnectSeveralAttempts attempts_left => attempts_left =? 0
  | ConnectFallIntoRecovery => false
  end.

Definition network_lost data : bool :=
  match data_network data with Some VPN_NS_NOT_CONNECTED => true | _ => false end.

Definition can_complete v data : bool :=
  match data_request data with
  | None => false
  | Some result =>
      match action result with
      | Some VPN_CA_FORCE_BYPASS => true
      | _ =>
          let state := get_state v in
          (state =? VPN_SS_CONNECTED) || (state =? VPN_SS_CONNECTING) || (state =? VPN_SS_DISCONNECTED)
          || (state =? VPN_SS_WAITING_FOR_NETWORK)
          || tunnel_should_complete_immediately env (req_id result)
      end
  end.

Definition is_kill_switch_on v : bool := c_kill_switch_on (v_client v).

Definition should_postpone v : bool := v_postponement_window_timer v.

Definition vpn_eval_condition (g : VpnGuard) v data : bool :=
  match g with
  | G_need_to_ping_on_recovery => need_to_ping_on_recovery v
  | G_fall_into_recovery => fall_into_recovery v
  | G_no_connect_attempts => no_connect_attempts v
  | G_network_lost => network_lost data
  | G_connected_once => v_connected_once v
  | G_is_fatal_error => is_fatal_error v data
  | G_can_complete => can_complete v data
  | G_is_kill_switch_on => is_kill_switch_on v
  | G_should_postpone => should_postpone v
  end.
(** ** Actions *)

(** How long to wait for the next attempt, from the attempts' spacing alone. *)
Definition time_from_spacing (elapsed between_attempts : Z) : Z :=
  if elapsed <=? between_attempts then between_attempts - elapsed else 0.

(** The anti-thrash gap after the last attempt that was started. *)
Definition with_min_gap (last_fire time_to_next : Z) : Z :=
  if last_fire =? 0 then time_to_next
  else
    let since_fire := Z.max (to_millis (now env - last_fire)) 0 in
    if since_fire <? VPN_MIN_RECOVERY_FIRE_GAP_MS
    then Z.max time_to_next (VPN_MIN_RECOVERY_FIRE_GAP_MS - since_fire)
    else time_to_next.

(** The first attempt starts the recovery clock and the postponement window. *)
Definition start_recovery_clock v : Z * Vpn :=
  if negb (r_start_ts (v_recovery v) =? 0)
  then (Z.max (to_millis (now env - r_attempt_start_ts (v_recovery v))) 0, v)
  else (0, v <| v_recovery := (v_recovery v) <| r_start_ts := now env |> |>
             <| v_postponement_window_timer := true |>).

Definition next_spacing (between_attempts : Z) v : Z :=
  if between_attempts =? 0 then 1000
  else scale_millis between_attempts (backoff_rate (recovery_settings (v_upstream_config v))).

Definition initiate_recovery v : Vpn :=
  let limits := recovery_settings (v_upstream_config v) in
  if recovery_attempts limits <=? r_attempts (v_recovery v)
  then submit VT_recovery_exhausted v
  else
    let '(elapsed, v) := start_recovery_clock v in
    let time_to_next := time_from_spacing elapsed (r_between_attempts (v_recovery v)) in
    let time_to_next := with_min_gap (v_last_recovery_fire_ts v) time_to_next in
    let r := v_recovery v in
    let r := r <| r_attempts := uwrap 32 (r_attempts r + 1) |> in
    let r := r <| r_task := true |> in
    let r := r <| r_between_attempts := next_spacing (r_between_attempts r) v |> in
    let next_attempt_ts := now env + to_nanos time_to_next in
    let r := if to_nanos (location_update_period_ms limits) <=? next_attempt_ts - r_start_ts r
             then reset_recovery_time r else r in
    v <| v_recovery := r <| r_to_next := time_to_next |> |>.

(** [run_client_connect]: an endpoint that is not there throws in
    [make_client_upstream_config]. *)
Definition run_client_connect (timeout : option Z) v : Vpn :=
  match make_client_upstream_config v with
  | None => v_fault "bad_optional_access" v
  | Some config =>
      let '(error, c) := VpnClient_connect (client_env env) config timeout (v_client v) in
      let v := v <| v_client := c |> in
      if code error =? VPN_EC_NOERROR
      then v <| v_client_state := CLIS_CONNECTING |> <| v_pending_error := None |>
      else submit VT_client_connect_failed (v <| v_pending_error := Some error |>)
  end.

Definition run_ping v : Vpn :=
  let v := stop_pinging v in
  let config := v_upstream_config v in
  let quic_max_idle_timeout := uwrap 32 (2 * (timeout_ms config + health_check_timeout_ms config)) in
  let handoff := match main_protocol config with VPN_UP_HTTP2 => false | _ => true end in
  let relay_parallel :=
    match v_selected_endpoint v with
    | Some sel => if negb (r_start_ts (v_recovery v) =? 0) then sel_relay sel else None
    | None => None
    end in
  let v := (v_emit (VO_pinger_start relay_parallel handoff quic_max_idle_timeout) v) <| v_pinger := P_running |> in
  let v := v <| v_pending_error := None |> <| v_selected_endpoint := None |> in
  if r_task (v_recovery v)
  then v <| v_recovery := (v_recovery v) <| r_task := false |> <| r_attempt_start_ts := now env |> |>
  else v.

Definition connect_client v : Vpn := run_client_connect None v.

(** The error of an event, kept unless one is pending already. *)
Definition keep_error data v : Vpn :=
  match v_pending_error v, data_error data with
  | None, Some e => if code e =? VPN_EC_NOERROR then v else v <| v_pending_error := Some e |>
  | _, _ => v
  end.

Definition complete_connect data v : Vpn :=
  let v := match v_pending_error v, data_error data with
           | None, Some e => if code e =? VPN_EC_NOERROR then v
                             else (Vpn_disconnect env v) <| v_pending_error := Some e |>
           | _, _ => v
           end in
  let v := match v_pending_error v with
           | Some _ =>
               if negb (is_fatal_error v data) && no_connect_attempts v
               then v <| v_pending_error :=
                      Some (mkVpnError VPN_EC_INITIAL_CONNECT_FAILED (Some "Number of connection attempts exceeded")) |>
               else v
           | None => v
           end in
  let v := v <| v_recovery := no_recovery |> in
  match v_pending_error v with
  | None => on_client VpnClient_do_health_check v
  | Some _ => v
  end.

Definition fail_connect_with_no_attempts v : Vpn :=
  complete_connect
    (VD_error (mkVpnError VPN_EC_INITIAL_CONNECT_FAILED (Some "Number of connection attempts exceeded"))) v.

Definition retry_connect v : Vpn :=
  let v := match v_connect_retry_info v with
           | ConnectSeveralAttempts attempts_left =>
               v <| v_connect_retry_info := ConnectSeveralAttempts (uwrap 64 (attempts_left - 1)) |>
           | ConnectFallIntoRecovery => v_fault "retry_connect without an attempts counter" v
           end in
  let v := Vpn_disconnect env v in
  submit VT_retry_connect v.

Definition prepare_for_recovery data v : Vpn :=
  let v := keep_error data v in
  let v := Vpn_disconnect env v in
  initiate_recovery v.

Definition prepare_for_recovery_nc v : Vpn := prepare_for_recovery VD_null v.

Definition reconnect_client v : Vpn :=
  let v := disconnect_client env v in
  run_client_connect (Some (Z.min (r_between_attempts (v_recovery v)) (timeout_ms (v_upstream_config v)))) v.

Definition finalize_recovery v : Vpn :=
  let v := on_client (VpnClient_update_bypass_ip_availability (client_env env)) v in
  let v := v <| v_recovery := no_recovery |> in
  let v := stop_pinging v in
  let v := v <| v_postponement_window_timer := false |> in
  let v := complete_postponed_requests v in
  reset_bypassed_connections v.

Definition do_disconnect v : Vpn :=
  Vpn_disconnect env (v <| v_recovery := no_recovery |>).

Definition start_listening data v : Vpn :=
  match data_listen data with
  | Some config =>
      let '(error, c) := VpnClient_listen (client_env env) config (v_client v) in
      let v := v <| v_client := c |> in
      if negb (code error =? VPN_EC_NOERROR) then submit (VT_listen_failed error) v else v
  | None => v_fault "no listener" v
  end.

Definition on_wrong_connect_state v : Vpn :=
  (Vpn_disconnect env v)
    <| v_pending_error := Some (mkVpnError VPN_EC_INVALID_STATE (Some "Invalid state for connecting")) |>.

(** [std::exchange(vpn->pending_error, std::nullopt).value_or(VpnError{})] *)
Definition take_pending_error v : VpnError * Vpn :=
  (default no_error (v_pending_error v), v <| v_pending_error := None |>).

Definition raise_state v : Vpn :=
  let state := get_state v in
  if state =? VPN_SS_WAITING_RECOVERY then
    let '(e, v) := take_pending_error v in
    v_emit (VO_state_changed state (SI_waiting_recovery e (uwrap 32 (r_to_next (v_recovery v))))) v
  else if state =? VPN_SS_CONNECTED then
    let v := v <| v_connected_once := true |> in
    let v := if c_endpoint_upstream (v_client v) then v else v_fault "endpoint_upstream is null" v in
    let v := match v_selected_endpoint v with
             | Some _ => v
             | None => v_fault "selected_endpoint is empty" v
             end in
    v_emit (VO_state_changed state (SI_connected (v_selected_endpoint v))) v
  else
    let v := if state =? VPN_SS_WAITING_FOR_NETWORK then v
             else v <| v_network_changed_before_recovery := false |> in
    let '(e, v) := take_pending_error v in
    v_emit (VO_state_changed state (SI_error e)) v.

(** Handling of a connection request. *)

Definition with_request (f : ConnectRequestResult -> Vpn -> Vpn) data v : Vpn :=
  match data_request data with
  | Some result => f result v
  | None => v_fault "no request" v
  end.

Definition complete_request (result : ConnectRequestResult) v : Vpn :=
  on_client (VpnClient_complete_connect_request (req_id result) (action result)) v.

Definition reject_request (result : ConnectRequestResult) v : Vpn :=
  on_client (VpnClient_reject_connect_request (req_id result)) v.

Definition bypass_until_connected (result : ConnectRequestResult) v : Vpn :=
  let v := v <| v_bypassed_connection_ids := v_bypassed_connection_ids v ++ [req_id result] |> in
  on_client (VpnClient_complete_connect_request (req_id result) (Some VPN_CA_FORCE_BYPASS)) v.

Definition postpone_request (result : ConnectRequestResult) v : Vpn :=
  v <| v_postponed_requests := v_postponed_requests v ++ [result] |>.

Definition vpn_run_action (a : VpnAction) data v : Vpn :=
  match a with
  | X_run_ping => run_ping v
  | X_connect_client => connect_client v
  | X_complete_connect => complete_connect data v
  | X_fail_connect_with_no_attempts => fail_connect_with_no_attempts v
  | X_retry_connect => retry_connect v
  | X_prepare_for_recovery => prepare_for_recovery data v
  | X_prepare_for_recovery_nc => prepare_for_recovery_nc v
  | X_reconnect_client => reconnect_client v
  | X_finalize_recovery => finalize_recovery v
  | X_do_disconnect => do_disconnect v
  | X_start_listening => start_listening data v
  | X_on_wrong_connect_state => on_wrong_connect_state v
  | X_on_wrong_listen_state => v
  | X_raise_state => raise_state v
  | X_complete_request => with_request complete_request data v
  | X_postpone_request => with_request postpone_request data v
  | X_reject_request => with_request reject_request data v
  | X_bypass_until_connected => with_request bypass_until_connected data v
  end.

(** [vpn->fsm.perform_transition(event, data)]; data of another type than the
    conditions and actions of the event cast it to is recorded as a fault. *)
Definition vpn_transition (ev : Z) data v : Vpn :=
  let v := if data_fits ev data then v else v_fault "data of another type" v in
  perform_transition (vpn_eval_condition) vpn_run_action TRANSITION_TABLE ev data v.

(** ** Callbacks *)

(** One request when the postponement window closes before recovery is done. *)
Definition expire_request v (request : ConnectRequestResult) : Vpn :=
  if c_kill_switch_on (v_client v)
  then on_client (VpnClient_reject_connect_request (req_id request)) v
  else
    let v := on_client (VpnClient_complete_connect_request (req_id request) (Some VPN_CA_FORCE_BYPASS)) v in
    v <| v_bypassed_connection_ids := v_bypassed_connection_ids v ++ [req_id request] |>.

Definition postponement_window_timer_cb v : Vpn :=
  let v := v <| v_postponement_window_timer := false |> in
  let v := fold_left expire_request (v_postponed_requests v) v in
  v <| v_postponed_requests := [] |>.

(** [LocationsPingerResult]; a failed ping has no endpoint. *)
Record PingResult := mkPingResult {
  ping_ok : bool;
  ping_endpoint : VpnEndpoint;
  ping_relay : option VpnRelay;
  ping_is_quic : bool;
}.

(** [vpn_endpoint_equals] on a location whose endpoints all compare. *)
Definition has_endpoint (seek : VpnEndpoint) (l : list VpnEndpoint) : bool :=
  existsb (endpoint_eqb seek) l.

Definition pinger_handler (result : PingResult) v : Vpn :=
  let v := v <| v_pinger := P_reported |> in
  let v := match v_selected_endpoint v with
           | None => v
           | Some _ => v_fault "an endpoint is selected already" v
           end in
  let v := v <| v_selected_endpoint := None |> in
  let v := on_client (fun c => c <| c_tcp_socket := false |> <| c_quic_connector := false |>) v in
  let induces := v_ping_failure_induces_location_unavailable v in
  let v := v <| v_ping_failure_induces_location_unavailable := false |> in
  if negb (ping_ok result) then
    let error := if induces
                 then mkVpnError VPN_EC_LOCATION_UNAVAILABLE (Some "None of the endpoints were pinged successfully")
                 else mkVpnError VPN_EC_ERROR (Some "Failed to ping location") in
    vpn_transition CE_PING_FAIL (VD_error error) v
  else if negb (has_endpoint (ping_endpoint result) (endpoints (v_upstream_config v))) then
    let v := v <| v_ping_failure_induces_location_unavailable := induces |> in
    vpn_transition CE_PING_FAIL
      (VD_error (mkVpnError VPN_EC_ERROR (Some "Best available endpoint wasn't found in location"))) v
  else
    let v := v <| v_selected_endpoint := Some (mkSelectedEndpoint (ping_endpoint result) (ping_relay result)) |> in
    let v := on_client (fun c => if ping_is_quic result then c <| c_quic_connector := true |>
                                 else c <| c_tcp_socket := true |>) v in
    let v := on_client (VpnClient_update_bypass_ip_availability (client_env env)) v in
    vpn_transition CE_PING_READY VD_null v.

(** The function [initiate_recovery] schedules. *)
Definition recovery_timer_cb v : Vpn :=
  let v := v <| v_recovery := (v_recovery v) <| r_task := false |> |> in
  let v := v <| v_last_recovery_fire_ts := now env |> in
  let v := v <| v_recovery := (v_recovery v) <| r_attempt_start_ts := now env |> |> in
  vpn_transition CE_DO_RECOVERY VD_null v.
End Session.
