(* ===== verification/VpnManager.v ===== *)
(** * The VPN manager

    Models the rest of [core/src/vpn_manager.cpp]: the functions of the public
    interface ([core/include/vpn/vpn.h]), the tasks they submit to the event
    loop, the handler of client events, and certificate verification; and the
    whole system as one step function over everything that can happen to it.

    Calls of the interface come from other threads under [stop_guard] and only
    submit tasks (or, for [vpn_listen], run one synchronously), so a call is one
    step.  An event the client raises is handled within the client's step; in
    the code the handler runs in the middle of it, but what follows in the client
    only calls the tunnel, so the handler is applied at the end of the step. *)

From S2P Require Import Prelude Fsm VpnTypes PortRanges VpnClient Vpn VpnFsm.

Section Manager.
Context (env : VpnEnv).
Implicit Types (v : Vpn).

(** ** Validation of the configuration *)

Definition check_address (addr : SocketAddress) : option string :=
  if address_valid env addr then
    if is_ipv4 addr || is_ipv6 addr
    then (if 0 <? sa_port addr then None else Some "Port must be specified")
    else Some "Unknown family"
  else None.

Definition invalid (msg : string) : VpnError := mkVpnError VPN_EC_INVALID_SETTINGS (Some msg).

Fixpoint validate_endpoints (several : bool) (l : list VpnEndpoint) : VpnError :=
  match l with
  | [] => no_error
  | ep :: l' =>
      match name ep with
      | None => invalid "Names must be specified for each endpoint"
      | Some _ =>
          if several && (sa_family (address ep) =? AF_UNSPEC)
          then invalid "In case of multiple endpoints addresses must be specified for each one"
          else match check_address (address ep) with
               | Some _ => invalid "Invalid endpoint address"
               | None => validate_endpoints several l'
               end
      end
  end.

Definition validate_upstream_config (config : VpnUpstreamConfig) : VpnError :=
  match endpoints config with
  | [] => invalid "At least one endpoint must be specified"
  | eps =>
      match username config, password config with
      | Some _, Some _ => validate_endpoints (1 <? Z.of_nat (length eps)) eps
      | _, _ => invalid "Both username and password must be specified"
      end
  end.

(** ** The interface *)

Inductive VpnConnectRetryPolicy := VPN_CRP_SEVERAL_ATTEMPTS | VPN_CRP_FALL_INTO_RECOVERY.

Record VpnConnectParameters := mkVpnConnectParameters {
  upstream_config : VpnUpstreamConfig;
  retry_policy : VpnConnectRetryPolicy;
  attempts_num : Z;
}.

Definition make_retry_info (policy : VpnConnectRetryPolicy) (attempts : Z) : ConnectRetryInfo :=
  match policy with
  | VPN_CRP_SEVERAL_ATTEMPTS =>
      ConnectSeveralAttempts (if attempts <=? 0 then VPN_DEFAULT_CONNECT_ATTEMPTS_NUM else attempts)
  | VPN_CRP_FALL_INTO_RECOVERY => ConnectFallIntoRecovery
  end.

Definition vpn_connect (parameters : VpnConnectParameters) v : VpnError * Vpn :=
  let error := validate_upstream_config (upstream_config parameters) in
  if negb (code error =? VPN_EC_NOERROR) then (error, v)
  else if v_executor_thread v
  then (mkVpnError VPN_EC_ERROR (Some "VPN client worker is already running"), v)
  else
    let '(started, v) := run_event_loop env v in
    if negb started
    then (mkVpnError VPN_EC_EVENT_LOOP_FAILURE (Some "Failed to start event loop for operation"), v)
    else
      let retry_info := make_retry_info (retry_policy parameters) (attempts_num parameters) in
      (error, submit (VT_do_connect (upstream_config parameters) retry_info) v).

Definition vpn_force_reconnect v : Vpn := submit VT_force_reconnect v.

Definition vpn_force_disconnect (fatal_connectivity_error : bool) v : Vpn :=
  submit (VT_shutdown (if fatal_connectivity_error
                       then Some (mkVpnError VPN_EC_FATAL_CONNECTIVITY_ERROR (Some "Fatal connectivity error occurred"))
                       else None)) v.

(** The listener and its configuration, null pointers included. *)
Definition vpn_listen (listener : bool) (config : option VpnListenerConfig) v : VpnError * Vpn :=
  if negb listener then (invalid "Listener is null", v)
  else match config with
       | None => (invalid "Listener config is null", v)
       | Some config =>
           if negb (v_executor_thread v)
           then (mkVpnError VPN_EC_ERROR (Some "VPN client worker is not running"), v)
           else (no_error, vpn_transition env CE_START_LISTENING (VD_listen config) v)
       end.

(** [vpn_stop] up to the wait for the loop, during which tasks still run, and
    after it. *)
Definition vpn_stop_begin v : Vpn := if v_ev_loop v then submit (VT_shutdown None) v else v.

(** The completion handler of [vpn_notify_sleep] is called by the destructor of
    what its tasks share, so also when they never run. *)
Definition owes_sleep_completion (t : VpnTask) : bool :=
  match t with VT_handle_sleep | VT_sleep_complete => true | _ => false end.

Definition vpn_stop_finish v : Vpn :=
  let v := v <| v_out := v_out v ++
      map (fun _ => VO_sleep_complete) (filter (fun t => owes_sleep_completion t = true) (v_tasks v)) |> in
  let v := v <| v_tasks := [] |> <| v_executor_thread := false |> in
  let v := reset VPN_SS_DISCONNECTED v in
  let v := v <| v_pending_error := None |> <| v_client_state := CLIS_DISCONNECTED |> in
  let v := on_client VpnClient_finalize_disconnect v in
  let v := stop_pinging v in
  let v := v <| v_postponement_window_timer := false |> <| v_ev_loop := false |>
             <| v_recovery := no_recovery |> <| v_selected_endpoint := None |> in
  v <| v_postponed_requests := [] |> <| v_bypassed_connection_ids := [] |>.

Definition vpn_close v : Vpn := on_client VpnClient_deinit v.

Definition loop_active v : bool := v_ev_loop v && v_executor_thread v.

Definition vpn_complete_connect_request (result : ConnectRequestResult) v : Vpn :=
  if v_ev_loop v then submit (VT_complete_request result) v else v.

Definition is_update_exclusions (t : VpnTask) : bool :=
  match t with VT_update_exclusions _ => true | _ => false end.

(** Assigning [update_exclusions_task] cancels the update that has not run yet. *)
Definition vpn_update_exclusions (mode : VpnMode) v : Vpn :=
  if negb (loop_active v) then v
  else submit (VT_update_exclusions mode)
         (v <| v_tasks := filter (fun t => is_update_exclusions t = false) (v_tasks v) |>).

Definition submit_if_active (t : VpnTask) v : Vpn :=
  if negb (loop_active v) then v else submit t v.

Definition vpn_reset_connections (u : Z) v : Vpn := submit_if_active (VT_reset_connections u) v.

Definition vpn_notify_network_change (state : VpnNetworkState) v : Vpn :=
  submit_if_active (VT_network_change state) v.

Definition vpn_request_endpoint_connection_stats v : Vpn :=
  if negb (loop_active v)
  then v_emit (VO_connection_stats (Some (mkVpnError VPN_EC_ERROR (Some "Event loop is stopped")))) v
  else submit VT_connection_stats v.

Definition vpn_notify_sleep v : Vpn := submit_if_active VT_handle_sleep v.
Definition vpn_notify_wake v : Vpn := submit_if_active VT_handle_wake v.

Definition vpn_process_client_packets v : bool * Vpn :=
  if negb (v_ev_loop v) then (false, v) else (true, submit VT_process_packets v).

Definition vpn_abandon_endpoint (endpoint : VpnEndpoint) v : Vpn :=
  submit (VT_abandon_endpoint endpoint) v.

(** ** Tasks *)

Definition shutdown_cb v : Vpn := vpn_transition env CE_SHUTDOWN VD_null v.

Definition do_connect_task (config : VpnUpstreamConfig) (retry_info : ConnectRetryInfo) v : Vpn :=
  let v := update_upstream_config config v in
  let v := v <| v_connect_retry_info :=
                  match retry_info with
                  | ConnectSeveralAttempts n => ConnectSeveralAttempts (uwrap 64 (n - 1))
                  | ConnectFallIntoRecovery => ConnectFallIntoRecovery
                  end |> in
  vpn_transition env CE_DO_CONNECT VD_null v.

Definition force_reconnect_task v : Vpn :=
  let state := get_state v in
  if state =? VPN_SS_DISCONNECTED
  then vpn_transition env CE_DO_CONNECT VD_null (v <| v_pending_error := None |>)
  else if state =? VPN_SS_WAITING_RECOVERY then vpn_transition env CE_DO_RECOVERY VD_null v
  else if (state =? VPN_SS_CONNECTED) || (state =? VPN_SS_RECOVERING) || (state =? VPN_SS_CONNECTING)
  then
    let e := mkVpnError VPN_EC_ERROR (Some "Forced reconnect") in
    vpn_transition env CE_CLIENT_DISCONNECTED (VD_error e) (v <| v_pending_error := Some e |>)
  else v.

Definition vpn_complete_connect_request_task (result : ConnectRequestResult) v : Vpn :=
  let v := if c_tunnel (v_client v) then v else v_fault "tunnel is null" v in
  let result := result <| action := tunnel_finalize_connect_action env result |> in
  vpn_transition env CE_COMPLETE_REQUEST (VD_request result) v.

Definition connection_stats_task v : Vpn :=
  if get_state v =? VPN_SS_CONNECTED
  then v_emit (VO_connection_stats None) (on_client VpnClient_get_connection_stats v)
  else v_emit (VO_connection_stats (Some (mkVpnError VPN_EC_INVALID_STATE (Some "Invalid state")))) v.

(** The location without the abandoned endpoint. *)
Definition drop_endpoint (endpoint : VpnEndpoint) (l : list VpnEndpoint) : list VpnEndpoint :=
  let '(n, l) := swap_remove_if (endpoint_eqb endpoint) l in take n l.

Definition exhausted_error (endpoint : VpnEndpoint) (left : list VpnEndpoint) : VpnError :=
  mkVpnError VPN_EC_LOCATION_UNAVAILABLE
    (Some match left with
          | [] => "Exhausted all endpoints in location"
          | _ => if sa_family (address endpoint) =? AF_INET
                 then "Exhausted all IPv4 endpoints in location"
                 else "Exhausted all IPv6 endpoints in location"
          end).

Definition set_endpoints (l : list VpnEndpoint) v : Vpn :=
  v <| v_upstream_config := (v_upstream_config v) <| endpoints := l |> |>.

Definition abandon_endpoint_task (endpoint : VpnEndpoint) v : Vpn :=
  let is_selected_endpoint :=
    match v_selected_endpoint v with
    | Some sel => endpoint_eqb (sel_endpoint sel) endpoint
    | None => false
    end in
  let v := if is_selected_endpoint then v <| v_selected_endpoint := None |> else v in
  let left := drop_endpoint endpoint (endpoints (v_upstream_config v)) in
  let v := set_endpoints left v in
  if negb (existsb (fun iter => sa_family (address endpoint) =? sa_family (address iter)) left)
  then
    let v := v <| v_pending_error := Some (exhausted_error endpoint left) |> in
    vpn_transition env CE_ABANDON_ENDPOINT VD_null (set_endpoints [] v)
  else if negb is_selected_endpoint then v
  else
    let v := v <| v_pending_error := Some (mkVpnError VPN_EC_ERROR (Some "Current endpoint is abandoned")) |>
               <| v_ping_failure_induces_location_unavailable := true |> in
    vpn_transition env CE_ABANDON_ENDPOINT VD_null v.

Definition run_vpn_task (t : VpnTask) v : Vpn :=
  match t with
  | VT_recovery_exhausted =>
      let v := v <| v_recovery := no_recovery |>
                 <| v_pending_error := Some (mkVpnError VPN_EC_LOCATION_UNAVAILABLE
                      (Some "Maximum number of recovery attempts has been made")) |> in
      vpn_transition env CE_SHUTDOWN VD_null v
  | VT_client_connect_failed => vpn_transition env CE_CLIENT_DISCONNECTED VD_null v
  | VT_retry_connect => vpn_transition env CE_RETRY_CONNECT VD_null v
  | VT_listen_failed error => vpn_transition env CE_SHUTDOWN VD_null (v <| v_pending_error := Some error |>)
  | VT_do_connect config retry_info => do_connect_task config retry_info v
  | VT_force_reconnect => force_reconnect_task v
  | VT_shutdown error =>
      shutdown_cb (match error with Some e => v <| v_pending_error := Some e |> | None => v end)
  | VT_complete_request result => vpn_complete_connect_request_task result v
  | VT_update_exclusions mode =>
      on_client (fun c => VpnClient_update_exclusions mode (VpnClient_reset_connections (-1) c)) v
  | VT_reset_connections u => on_client (VpnClient_reset_connections u) v
  | VT_network_change state =>
      let v := on_client VpnClient_on_network_change v in
      let v := v <| v_network_changed_before_recovery := true |> in
      vpn_transition env CE_NETWORK_CHANGE (VD_network state) v
  | VT_connection_stats => connection_stats_task v
  | VT_handle_sleep => submit VT_sleep_complete (on_client VpnClient_handle_sleep v)
  | VT_sleep_complete => v_emit VO_sleep_complete v
  | VT_handle_wake => on_client VpnClient_handle_wake v
  | VT_process_packets => on_client VpnClient_process_client_packets v
  | VT_abandon_endpoint endpoint => abandon_endpoint_task endpoint v
  end.

(** The next task of the loop. *)
Definition run_next_task v : Vpn :=
  match v_tasks v with
  | [] => v
  | t :: rest => run_vpn_task t (v <| v_tasks := rest |>)
  end.

(** ** Client events *)

Definition client_handler v (e : ClientEvent) : Vpn :=
  match e with
  | EVENT_CONNECTED =>
      vpn_transition env CE_CLIENT_READY VD_null (v <| v_client_state := CLIS_CONNECTED |>)
  | EVENT_DISCONNECTED =>
      vpn_transition env CE_CLIENT_DISCONNECTED VD_null (v <| v_client_state := CLIS_DISCONNECTED |>)
  | EVENT_ERROR error =>
      vpn_transition env CE_CLIENT_DISCONNECTED (VD_error error) (v <| v_client_state := CLIS_DISCONNECTED |>)
  | EVENT_DNS_UPSTREAM_UNAVAILABLE => v_emit VO_dns_upstream_unavailable v
  end.

(** The events among the outputs of a client step. *)
Definition raised (out : list ClientOut) : list ClientEvent :=
  omap (fun o => match o with O_event e => Some e | _ => None end) out.

(** A step of the client with the manager's reaction. *)
Definition client_input (i : ClientInput) v : Vpn :=
  let c := v_client v in
  let c' := client_step (client_env env) i c in
  fold_left client_handler (raised (drop (length (c_out c)) (c_out c'))) (v <| v_client := c' |>).

(** ** Everything that can happen *)

Inductive VpnInput :=
  | VI_connect (parameters : VpnConnectParameters)
  | VI_force_reconnect
  | VI_force_disconnect (fatal_connectivity_error : bool)
  | VI_listen (listener : bool) (config : option VpnListenerConfig)
  | VI_stop_begin
  | VI_complete_connect_request (result : ConnectRequestResult)
  | VI_update_exclusions (mode : VpnMode)
  | VI_reset_connections (uid : Z)
  | VI_notify_network_change (state : VpnNetworkState)
  | VI_request_connection_stats
  | VI_notify_sleep
  | VI_notify_wake
  | VI_process_client_packets
  | VI_abandon_endpoint (endpoint : VpnEndpoint)
  | VI_run_task
  | VI_recovery_timer
  | VI_postponement_timer
  | VI_ping_result (result : PingResult)
  | VI_client (i : ClientInput).

Definition vpn_step (i : VpnInput) v : Vpn :=
  match i with
  | VI_connect parameters => snd (vpn_connect parameters v)
  | VI_force_reconnect => vpn_force_reconnect v
  | VI_force_disconnect fatal => vpn_force_disconnect fatal v
  | VI_listen listener config => snd (vpn_listen listener config v)
  | VI_stop_begin => vpn_stop_begin v
  | VI_complete_connect_request result => vpn_complete_connect_request result v
  | VI_update_exclusions mode => vpn_update_exclusions mode v
  | VI_reset_connections u => vpn_reset_connections u v
  | VI_notify_network_change state => vpn_notify_network_change state v
  | VI_request_connection_stats => vpn_request_endpoint_connection_stats v
  | VI_notify_sleep => vpn_notify_sleep v
  | VI_notify_wake => vpn_notify_wake v
  | VI_process_client_packets => snd (vpn_process_client_packets v)
  | VI_abandon_endpoint endpoint => vpn_abandon_endpoint endpoint v
  | VI_run_task => run_next_task v
  | VI_recovery_timer => recovery_timer_cb env v
  | VI_postponement_timer => postponement_window_timer_cb v
  | VI_ping_result result => pinger_handler env result v
  | VI_client i => client_input i v
  end.
End Manager.

(** ** Opening *)

Section Open.
Context (env : VpnEnv).
Context (split_by_any_of : string -> string -> list string) (to_integer : string -> option Z).

(** A zero-initialised configuration. *)
Definition upstream_config_new : VpnUpstreamConfig :=
  mkVpnUpstreamConfig VPN_UP_HTTP2 0 EmptyString [] 0 0 0 None None (mkRecoverySettings (f32_of_Z 0) 0 0) false.

(** The object as constructed. *)
Definition vpn_new : Vpn := {|
  v_fsm := mkFsmCell VPN_SS_DISCONNECTED false;
  v_pending_error := None;
  v_executor_thread := false;
  v_ev_loop := event_loop_create env;
  v_recovery := no_recovery;
  v_last_recovery_fire_ts := 0;
  v_upstream_config := upstream_config_new;
  v_selected_endpoint := None;
  v_network_changed_before_recovery := false;
  v_connected_once := false;
  v_pinger := P_none;
  v_ping_failure_induces_location_unavailable := false;
  v_client_state := CLIS_DISCONNECTED;
  v_client := client_new;
  v_connect_retry_info := ConnectSeveralAttempts VPN_DEFAULT_CONNECT_ATTEMPTS_NUM;
  v_bypassed_connection_ids := [];
  v_postponed_requests := [];
  v_postponement_window_timer := false;
  v_tasks := [];
  v_out := [];
  v_faults := [];
|}.

(** [None] is the null pointer; what was constructed is closed again. *)
Definition vpn_open (settings : ClientSettings) : option Vpn :=
  if negb (v_ev_loop vpn_new) then None
  else
    let '(error, c) := VpnClient_init (client_env env) split_by_any_of to_integer settings (v_client vpn_new) in
    if code error =? VPN_EC_NOERROR then Some (vpn_new <| v_client := c |>) else None.
End Open.

(** ** Certificate verification *)

Section Verify.
(** The identity check of [tls.cpp] against the certificate at hand, and the
    textual form of an address; [parse_identity] is [SocketAddress(host_name)]
    when it is valid. *)
Context (tls_verify_cert_ip tls_verify_cert_host_name : string -> bool).
Context (parse_identity : string -> option string) (host_str : SocketAddress -> string).

Definition identity_matches (host_name : option string) (host_ip : option SocketAddress) : bool :=
  match host_name with
  | Some name =>
      match parse_identity name with
      | Some ip => tls_verify_cert_ip ip
      | None => tls_verify_cert_host_name name
      end
  | None =>
      match host_ip with
      | Some ip => if negb (sa_family ip =? AF_UNSPEC) then tls_verify_cert_ip (host_str ip) else true
      | None => true
      end
  end.

(** [event_result] is what the application answered. *)
Definition ssl_verify_callback (event_result : Z) (host_name : option string) (host_ip : option SocketAddress) : Z :=
  if event_result =? VPN_SKIP_VERIFICATION_FLAG then 1
  else
    let result := if event_result =? 0 then 1 else 0 in
    if negb (identity_matches host_name host_ip) then 0 else result.
End Verify.
