(* ===== verification/VpnSamples.v ===== *)
(** * Concrete runs of the manager

    A manager opened with the sample settings of [VpnClientProofs.v], a location
    with one endpoint, and the inputs of a few sessions, for the examples of the
    proof files. *)

From S2P Require Import Prelude Fsm VpnTypes PortRanges VpnClient VpnClientProofs Vpn VpnFsm VpnManager.

Module VpnSamples.
(** Memory of another type reads as nothing in particular. *)
Definition garbage : Reinterpret :=
  mkReinterpret (fun _ => no_error) (fun _ => VPN_NS_CONNECTED) (fun _ => mkConnectRequestResult 0 None EmptyString 0)
    (fun _ => mkVpnListenerConfig 0 0).

(** Ten seconds after the clock's epoch; the tunnel leaves actions as they are. *)
Definition env : VpnEnv :=
  mkVpnEnv Samples.all_ok 10000000000 action (fun _ => false) true true (fun _ => true) garbage.

Definition settings : ClientSettings := Samples.settings.

Definition location : VpnUpstreamConfig :=
  mkVpnUpstreamConfig VPN_UP_HTTP2 4 "location" [Samples.endpoint] 0 0 0 (Some "user") (Some "password")
    (mkRecoverySettings (f32_of_Z 0) 0 0) false.

Definition other_endpoint : VpnEndpoint := mkVpnEndpoint
  (mkSocketAddress AF_INET [192; 0; 2; 2] 443) (Some "vpn2.example.org") None [] true.

(** A location with a second endpoint. *)
Definition two_endpoints (policy : VpnConnectRetryPolicy) : VpnConnectParameters :=
  mkVpnConnectParameters (location <| endpoints := [Samples.endpoint; other_endpoint] |>) policy 1.

Definition several_attempts (n : Z) : VpnConnectParameters :=
  mkVpnConnectParameters location VPN_CRP_SEVERAL_ATTEMPTS n.
Definition fall_into_recovery : VpnConnectParameters :=
  mkVpnConnectParameters location VPN_CRP_FALL_INTO_RECOVERY 0.

Definition opened : Vpn :=
  default (vpn_new env) (vpn_open env (fun s _ => [s]) (fun _ => Some 443) settings).

Definition run (inputs : list VpnInput) (v : Vpn) : Vpn := fold_left (fun v i => vpn_step env i v) inputs v.

Definition pinged : PingResult := mkPingResult true Samples.endpoint None false.
Definition not_pinged : PingResult := mkPingResult false Samples.endpoint None false.

Definition session_opens : list VpnInput :=
  [VI_client (CI_connector_result (inl tt)); VI_client (CI_run_task DT_connector_finalizer)].

(** From [vpn_connect] to a session. *)
Definition to_connecting (p : VpnConnectParameters) : list VpnInput := [VI_connect p; VI_run_task].
Definition to_connected (p : VpnConnectParameters) : list VpnInput :=
  to_connecting p ++ [VI_ping_result pinged] ++ session_opens.

(** A session that is lost. *)
Definition session_fails : list VpnInput :=
  [VI_client (CI_upstream_event (SERVER_EVENT_ERROR NON_ID Samples.session_error))].
Definition to_waiting_recovery : list VpnInput :=
  to_connected (several_attempts 1) ++ session_fails ++ [VI_client (CI_run_task DT_deferred_disconnect)].

(** The application drops the endpoint that is being connected to. *)
Definition abandons : list VpnInput := [VI_abandon_endpoint Samples.endpoint; VI_run_task].

(** A request of an application. *)
Definition request : ConnectRequestResult := mkConnectRequestResult 7 (Some VPN_CA_DEFAULT) "app" 1000.
Definition auth_error : VpnError := mkVpnError VPN_EC_AUTH_REQUIRED (Some "Authorization required").

Definition connecting : Vpn := run (to_connecting (several_attempts 2)) opened.
Definition connected : Vpn := run (to_connected (several_attempts 1)) opened.
Definition waiting_recovery : Vpn := run to_waiting_recovery opened.
End VpnSamples.
