(* ===== verification/VpnFsmProofs.v ===== *)
(** * The session state machine: static and functional properties

    Proofs about [VpnFsm.v] and the pure parts of [Vpn.v] and [VpnManager.v]:
    the tables pass the validator, event data is never cast to another type,
    the decision on connection requests, the recovery clock, and the events that
    must change nothing. *)

From S2P Require Import Prelude Fsm VpnTypes PortRanges VpnClient VpnClientProofs ClientFrame Vpn VpnFsm VpnManager VpnSamples.
From Stdlib Require Import SpecFloat.

(** ** Transitions *)

Section Session.
Context (env : VpnEnv).
Implicit Types (v : Vpn) (data : VpnData).

(** The entry taken, for a machine that is not in the middle of a transition. *)
Definition taken (ev : Z) data v : option (FsmTransitionEntry VpnGuard VpnAction) :=
  first_match (vpn_eval_condition env) ev data TRANSITION_TABLE (set_recursive true v).

Lemma vpn_transition_eq ev data v :
  m_recursive (v_fsm v) = false -> data_fits ev data = true ->
  vpn_transition env ev data v =
  match taken ev data v with
  | Some e => set_recursive false (take_entry (vpn_run_action env) data e (set_recursive true v))
  | None => v
  end.
Proof.
  intros Hr Hd. unfold vpn_transition. rewrite Hd. by apply perform_transition_not_recursive.
Qed.

Lemma transition_noop ev data v e :
  m_recursive (v_fsm v) = false -> data_fits ev data = true -> taken ev data v = Some e ->
  before_transition e = None -> target_state e = SAME_TARGET_STATE -> after_transition e = None ->
  vpn_transition env ev data v = v.
Proof.
  intros Hr Hd He Hb Ht Ha. rewrite vpn_transition_eq, He by done. by apply take_entry_noop.
Qed.

Lemma taken_requests r v :
  taken CE_COMPLETE_REQUEST (VD_request r) v =
  Some (mkEntry ANY_SOURCE_STATE CE_COMPLETE_REQUEST
    (if can_complete env v (VD_request r) then Some G_can_complete
     else if should_postpone v then Some G_should_postpone
     else if is_kill_switch_on v then Some G_is_kill_switch_on else OTHERWISE)
    (Some (if can_complete env v (VD_request r) then X_complete_request
           else if should_postpone v then X_postpone_request
           else if is_kill_switch_on v then X_reject_request else X_bypass_until_connected))
    SAME_TARGET_STATE DO_NOTHING).
Proof.
  unfold taken. rewrite first_match_events_of.
  change (events_of CE_COMPLETE_REQUEST TRANSITION_TABLE) with (drop 49 TRANSITION_TABLE).
  cbn [first_match drop TRANSITION_TABLE]. unfold entry_matches. cbn [src_state condition event].
  rewrite Z.eqb_refl. cbn [negb]. rewrite andb_false_r. cbn [Z.eqb Pos.eqb CE_COMPLETE_REQUEST negb vpn_eval_condition].
  change (can_complete env (set_recursive true v)) with (can_complete env v).
  change (should_postpone (set_recursive true v)) with (should_postpone v).
  change (is_kill_switch_on (set_recursive true v)) with (is_kill_switch_on v).
  by destruct (can_complete env v (VD_request r)), (should_postpone v), (is_kill_switch_on v).
Qed.

Lemma request_decision_eq r v :
  m_recursive (v_fsm v) = false ->
  vpn_transition env CE_COMPLETE_REQUEST (VD_request r) v =
  if can_complete env v (VD_request r) then complete_request r v
  else if should_postpone v then postpone_request r v
  else if is_kill_switch_on v then reject_request r v
  else bypass_until_connected r v.
Proof.
  intros Hr. rewrite vpn_transition_eq, taken_requests by done.
  destruct (can_complete env v (VD_request r)); [|destruct (should_postpone v); [|destruct (is_kill_switch_on v)]].
  all: destruct v as [[st rec] ? ? ? ? ? ? ? ? ? ? ? ? ? ? ? ? ? ? ? ?]; cbn in Hr; subst rec; reflexivity.
Qed.

(** A connection request gets exactly one of four answers, in this order
    of precedence: it is completed with its own action when the session can
    take it (or the action is to bypass the tunnel anyway), put off while the
    postponement window is open, rejected when the kill switch is on, and only
    otherwise let through outside the tunnel, remembered for a later reset. *)
Theorem request_decision r v :
  m_recursive (v_fsm v) = false ->
  vpn_transition env CE_COMPLETE_REQUEST (VD_request r) v =
  if can_complete env v (VD_request r) then complete_request r v
  else if should_postpone v then postpone_request r v
  else if is_kill_switch_on v then reject_request r v
  else bypass_until_connected r v.
Proof. apply request_decision_eq. Qed.

(** The entries of an event in a known state, in order. *)
Fixpoint from_state (st : Z) (l : FsmTransitionTable VpnGuard VpnAction) : FsmTransitionTable VpnGuard VpnAction :=
  match l with
  | [] => []
  | e :: l' =>
      if (src_state e =? st) || (src_state e =? ANY_SOURCE_STATE)
      then e :: from_state st l' else from_state st l'
  end.

Definition candidates (ev st : Z) : FsmTransitionTable VpnGuard VpnAction :=
  from_state st (events_of ev TRANSITION_TABLE).

Fixpoint first_open (v : Vpn) data (l : list (FsmTransitionEntry VpnGuard VpnAction)) :=
  match l with
  | [] => None
  | e :: l' =>
      if match condition e with Some g => vpn_eval_condition env g v data | None => true end
      then Some e else first_open v data l'
  end.

Lemma eval_condition_set_recursive g b v data :
  vpn_eval_condition env g (set_recursive b v) data = vpn_eval_condition env g v data.
Proof. by destruct g. Qed.

Lemma taken_candidates ev data v :
  taken ev data v = first_open v data (candidates ev (get_state v)).
Proof.
  unfold taken, candidates. rewrite first_match_events_of.
  assert (Hev : Forall (fun e => event e = ev) (events_of ev TRANSITION_TABLE)).
  { apply Forall_forall. intros e. generalize TRANSITION_TABLE as t.
    induction t as [|e' t IH]; cbn; [intros H; inversion H|].
    destruct (Z.eqb_spec ev (event e')); [|done]. intros [->|?]%elem_of_cons; auto. }
  induction Hev as [|e l He Hl IH]; [done|]. cbn [first_match]. unfold entry_matches.
  rewrite get_state_set_recursive, He, Z.eqb_refl, IH, (Z.eqb_sym (get_state v)). cbn [from_state].
  destruct (src_state e =? get_state v), (src_state e =? ANY_SOURCE_STATE); cbn [negb andb orb first_open];
    try (destruct (condition e) as [g|]; [rewrite eval_condition_set_recursive|]; done).
  done.
Qed.

(** While connecting (with attempts left), while recovering, and while
    disconnected, being told again that the network is there changes nothing:
    the procedure under way is not restarted. *)
Theorem network_renotification_ignored v :
  m_recursive (v_fsm v) = false ->
  (get_state v = VPN_SS_CONNECTING /\ no_connect_attempts v = false) \/
  get_state v = VPN_SS_RECOVERING \/ get_state v = VPN_SS_DISCONNECTED ->
  vpn_transition env CE_NETWORK_CHANGE (VD_network VPN_NS_CONNECTED) v = v.
Proof.
  intros Hr [[Hs Ha]|[Hs|Hs]].
  all: eapply transition_noop; [done|done| | | |].
  all: try (rewrite taken_candidates, Hs; cbn -[no_connect_attempts]; rewrite ?Ha; reflexivity).
  all: done.
Qed.

(** A transition whose entry raises the new state last. *)
Lemma transition_raise ev data v a st g :
  m_recursive (v_fsm v) = false -> data_fits ev data = true -> st <> SAME_TARGET_STATE ->
  taken ev data v = Some g ->
  before_transition g = Some a -> target_state g = st -> after_transition g = Some X_raise_state ->
  vpn_transition env ev data v =
  set_recursive false (raise_state (set_recursive false (set_state st
    (vpn_run_action env a data (set_recursive true v))))).
Proof.
  intros Hr Hd Hst Ht Hb Htg Ha. rewrite vpn_transition_eq, Ht by done.
  unfold take_entry, run_opt. rewrite Hb, Htg, Ha. by rewrite (proj2 (Z.eqb_neq _ _) Hst).
Qed.

Definition last_out v : option VpnOut := last (v_out v).

(** What [raise_state] tells the application on entering [VPN_SS_DISCONNECTED]. *)
Lemma raise_disconnected_out b b' v :
  let v' := set_recursive b' (raise_state (set_recursive b (set_state VPN_SS_DISCONNECTED v))) in
  get_state v' = VPN_SS_DISCONNECTED /\ v_recovery v' = v_recovery v /\
  last_out v' = Some (VO_state_changed VPN_SS_DISCONNECTED (SI_error (default no_error (v_pending_error v)))).
Proof. cbn. split_and!; [done..|]. unfold last_out. cbn. by rewrite last_snoc. Qed.

Lemma Vpn_disconnect_frame v :
  v_pending_error (Vpn_disconnect env v) = v_pending_error v /\
  v_recovery (Vpn_disconnect env v) = v_recovery v.
Proof.
  unfold Vpn_disconnect, disconnect_client, stop_pinging.
  destruct (v_pinger v); cbn; by destruct (v_client_state v).
Qed.

(** The states the application was told. *)
Definition state_report (o : VpnOut) : option (Z * StateInfo) :=
  match o with VO_state_changed s info => Some (s, info) | _ => None end.
Definition told v : list (Z * StateInfo) := omap state_report (v_out v).

(** The error that the end of the session is reported with when [e] ends it. *)
Definition ending_error (e : VpnError) v : VpnError :=
  default (if get_state v =? VPN_SS_CONNECTING then e else no_error) (v_pending_error v).

Lemma Vpn_disconnect_ended v :
  v_client_state v = CLIS_DISCONNECTED ->
  v_client (Vpn_disconnect env v) = v_client v /\ v_client_state (Vpn_disconnect env v) = CLIS_DISCONNECTED /\
  told (Vpn_disconnect env v) = told v.
Proof.
  intros Hc. unfold Vpn_disconnect, disconnect_client, stop_pinging, told.
  destruct (v_pinger v); cbn; rewrite Hc; cbn; rewrite ?omap_app, ?app_nil_r; done.
Qed.

Lemma complete_connect_fatal e v :
  v_client_state v = CLIS_DISCONNECTED -> is_fatal_error_code (code e) = true ->
  let v' := complete_connect env (VD_error e) v in
  v_client v' = v_client v /\ v_client_state v' = CLIS_DISCONNECTED /\ told v' = told v /\
  v_recovery v' = no_recovery /\ v_pending_error v' = Some (default e (v_pending_error v)).
Proof.
  intros Hc He. assert (Hne : (code e =? VPN_EC_NOERROR) = false).
  { apply Z.eqb_neq. intros Hz. by rewrite Hz in He. }
  assert (Hf : forall w, is_fatal_error env w (VD_error e) = true) by (intros w; unfold is_fatal_error; cbn; by rewrite He).
  unfold complete_connect. cbn [data_error]. rewrite Hne. destruct (v_pending_error v) as [p|] eqn:Hp.
  - rewrite Hp, Hf. cbn. by rewrite Hp.
  - destruct (Vpn_disconnect_ended v Hc) as (H1 & H2 & H3). cbn [v_pending_error assign]. rewrite Hf. done.
Qed.

(** What a fatal error of the client does. *)
Lemma fatal_handled e v :
  m_recursive (v_fsm v) = false -> 1 <= get_state v <= 5 -> is_fatal_error_code (code e) = true ->
  let v' := client_handler env v (EVENT_ERROR e) in
  get_state v' = VPN_SS_DISCONNECTED /\ v_client v' = v_client v /\ v_client_state v' = CLIS_DISCONNECTED /\
  v_recovery v' = no_recovery /\
  told v' = told v ++ [(VPN_SS_DISCONNECTED, SI_error (ending_error e v))].
Proof.
  intros Hr Hs He. cbn [client_handler]. set (w := v <| v_client_state := CLIS_DISCONNECTED |>). cbv zeta.
  change (m_recursive (v_fsm w) = false) in Hr. change (1 <= get_state w <= 5) in Hs.
  change (ending_error e v) with (ending_error e w). change (told v) with (told w). change (v_client v) with (v_client w).
  assert (Hw : v_client_state w = CLIS_DISCONNECTED) by done. clearbody w. clear v.
  assert (Hf : is_fatal_error env w (VD_error e) = true) by (unfold is_fatal_error; cbn; by rewrite He).
  assert (Ht : exists a g, taken CE_CLIENT_DISCONNECTED (VD_error e) w = Some g /\ before_transition g = Some a /\
            a = (if get_state w =? VPN_SS_CONNECTING then X_complete_connect else X_do_disconnect) /\
            target_state g = VPN_SS_DISCONNECTED /\ after_transition g = Some X_raise_state).
  { rewrite taken_candidates.
    assert (Hc : get_state w = 1 \/ get_state w = 2 \/ get_state w = 3 \/ get_state w = 4 \/ get_state w = 5) by lia.
    destruct Hc as [->|[->|[->|[->| ->]]]]; cbn -[is_fatal_error]; rewrite Hf; eauto 10. }
  destruct Ht as (a & g & Ht & Hb & Ha & Htg & Haf).
  rewrite (transition_raise _ _ _ a VPN_SS_DISCONNECTED g) by done. subst a. unfold ending_error.
  destruct (get_state w =? VPN_SS_CONNECTING); cbn [vpn_run_action].
  - assert (Hw1 : v_client_state (set_recursive true w) = CLIS_DISCONNECTED) by done.
    destruct (complete_connect_fatal e _ Hw1 He) as (H1 & H2 & H3 & H4 & H5).
    generalize dependent (complete_connect env (VD_error e) (set_recursive true w)). intros u H1 H2 H3 H4 H5.
    split_and!; [done..|]. unfold told in *. cbn. rewrite omap_app, H3, H5. done.
  - unfold do_disconnect. set (u0 := (set_recursive true w) <| v_recovery := no_recovery |>).
    assert (Hw1 : v_client_state u0 = CLIS_DISCONNECTED) by done.
    destruct (Vpn_disconnect_ended u0 Hw1) as (H1 & H2 & H3). destruct (Vpn_disconnect_frame u0) as [H4 H5].
    generalize dependent (Vpn_disconnect env u0). intros u H1 H2 H3 H4 H5.
    split_and!; [done..|]. unfold told in *. cbn. rewrite omap_app, H3, H4. done.
Qed.

(** In the connected and the recovering state the reason of such an end is
    lost: the application is told the success code instead of the fatal error
    that ended the session. *)
Theorem fatal_error_is_not_reported e v :
  m_recursive (v_fsm v) = false -> get_state v = VPN_SS_CONNECTED \/ get_state v = VPN_SS_RECOVERING ->
  v_pending_error v = None -> is_fatal_error_code (code e) = true ->
  last_out (vpn_transition env CE_CLIENT_DISCONNECTED (VD_error e) v) =
  Some (VO_state_changed VPN_SS_DISCONNECTED (SI_error no_error)).
Proof.
  intros Hr Hs Hp He.
  assert (Hf : is_fatal_error env v (VD_error e) = true) by (unfold is_fatal_error; cbn; by rewrite He).
  rewrite (transition_raise _ _ _ X_do_disconnect VPN_SS_DISCONNECTED
    (mkEntry ANY_SOURCE_STATE CE_CLIENT_DISCONNECTED (Some G_is_fatal_error) (Some X_do_disconnect)
       VPN_SS_DISCONNECTED (Some X_raise_state))); try done.
  - match goal with |- context [set_state _ ?x] => pose proof (raise_disconnected_out false false x) as (_ & _ & ->) end.
    cbn [vpn_run_action]. unfold do_disconnect. rewrite (proj1 (Vpn_disconnect_frame _)). cbn. by rewrite Hp.
  - rewrite taken_candidates. by destruct Hs as [-> | ->]; cbn -[is_fatal_error]; rewrite Hf.
Qed.
(** ** Postponed and bypassed connections *)

Lemma log_emit o c : request_log (c_emit o c) = request_log c ++ match request_out o with Some r => [r] | None => [] end.
Proof.
  unfold request_log, c_emit, assign. cbn. rewrite omap_app. cbn. by destruct (request_out o).
Qed.

Lemma log_complete id a c :
  c_tunnel c = true ->
  request_log (VpnClient_complete_connect_request id a c) = request_log c ++ [RO_complete id a] /\
  c_tunnel (VpnClient_complete_connect_request id a c) = true.
Proof.
  intros Ht. unfold VpnClient_complete_connect_request, call_tunnel. rewrite Ht. by rewrite log_emit.
Qed.

Lemma log_reset id c :
  c_tunnel c = true ->
  request_log (VpnClient_reset_connection id c) = request_log c ++ [RO_reset id] /\
  c_tunnel (VpnClient_reset_connection id c) = true.
Proof. intros Ht. unfold VpnClient_reset_connection, call_tunnel. rewrite Ht. by rewrite log_emit. Qed.

(** A client operation repeated over a list, each time with one entry in the log. *)
Lemma log_fold {T} (f : T -> VpnClient -> VpnClient) (g : T -> RequestOut) (l : list T) :
  (forall x c, c_tunnel c = true ->
     request_log (f x c) = request_log c ++ [g x] /\ c_tunnel (f x c) = true) ->
  forall c, c_tunnel c = true ->
    request_log (fold_left (fun c x => f x c) l c) = request_log c ++ map g l /\
    c_tunnel (fold_left (fun c x => f x c) l c) = true.
Proof.
  intros Hf. induction l as [|x l IH]; intros c Ht; cbn; [by rewrite app_nil_r|].
  destruct (Hf x c Ht) as [H1 H2]. destruct (IH _ H2) as [H3 H4].
  split; [|done]. by rewrite H3, H1, <-app_assoc.
Qed.

Lemma log_bypass_availability c :
  request_log (VpnClient_update_bypass_ip_availability (client_env env) c) = request_log c /\
  c_tunnel (VpnClient_update_bypass_ip_availability (client_env env) c) = c_tunnel c.
Proof.
  split; [|unfold VpnClient_update_bypass_ip_availability; by destruct (c_bypass_upstream c)].
  apply frame_request_log. by apply (client_step_frame _ CI_bypass_availability).
Qed.

Lemma finalize_recovery_log v :
  c_tunnel (v_client v) = true ->
  let v' := finalize_recovery env v in
  request_log (v_client v') =
    request_log (v_client v) ++ map (fun r => RO_complete (req_id r) (action r)) (v_postponed_requests v)
      ++ map RO_reset (v_bypassed_connection_ids v) /\
  v_postponed_requests v' = [] /\ v_bypassed_connection_ids v' = [] /\
  v_postponement_window_timer v' = false /\ v_recovery v' = no_recovery.
Proof.
  intros Ht v'. unfold v', finalize_recovery, reset_bypassed_connections, complete_postponed_requests, on_client.
  assert (Hst : forall w, v_postponed_requests (stop_pinging w) = v_postponed_requests w /\
    v_bypassed_connection_ids (stop_pinging w) = v_bypassed_connection_ids w /\
    v_client (stop_pinging w) = v_client w /\ v_recovery (stop_pinging w) = v_recovery w).
  { intros w. unfold stop_pinging. by destruct (v_pinger w). }
  match goal with |- context [stop_pinging ?x] => generalize (Hst x); generalize (stop_pinging x) end.
  intros w (Hp & Hb & Hc & Hr). cbn in Hp, Hb, Hc, Hr |- *. rewrite Hp, Hb, Hc, Hr. split_and!; try done.
  destruct (log_bypass_availability (v_client v)) as [Hl1 Ht1]. rewrite Ht in Ht1.
  destruct (log_fold (fun r c => VpnClient_complete_connect_request (req_id r) (action r) c) (fun r => RO_complete (req_id r) (action r))
    (v_postponed_requests v) ltac:(intros; by apply log_complete) _ Ht1) as [Hl2 Ht2].
  destruct (log_fold VpnClient_reset_connection RO_reset (v_bypassed_connection_ids v) ltac:(intros; by apply log_reset) _ Ht2) as [Hl3 _].
  by rewrite Hl3, Hl2, Hl1, <-app_assoc.
Qed.

(** C27.  When a recovery succeeds, every request that was put off is completed
    with its own action, in the order the requests came, then every connection
    that was let through outside the tunnel is reset, so that none of them
    outlives the outage; the window is closed and the recovery state cleared. *)
Theorem finalize_recovery_settles_requests v :
  c_tunnel (v_client v) = true ->
  let v' := finalize_recovery env v in
  request_log (v_client v') =
    request_log (v_client v) ++ map (fun r => RO_complete (req_id r) (action r)) (v_postponed_requests v)
      ++ map RO_reset (v_bypassed_connection_ids v) /\
  v_postponed_requests v' = [] /\ v_bypassed_connection_ids v' = [] /\
  v_postponement_window_timer v' = false /\ v_recovery v' = no_recovery.
Proof. apply finalize_recovery_log. Qed.

(** ** The recovery clock *)

Lemma with_min_gap_spec last_fire t :
  0 <= t ->
  let d := with_min_gap env last_fire t in
  t <= d /\ d <= Z.max t VPN_MIN_RECOVERY_FIRE_GAP_MS /\
  (last_fire <> 0 -> VPN_MIN_RECOVERY_FIRE_GAP_MS <= Z.max (to_millis (now env - last_fire)) 0 + d).
Proof.
  intros Ht. unfold with_min_gap, VPN_MIN_RECOVERY_FIRE_GAP_MS.
  destruct (Z.eqb_spec last_fire 0) as [->|Hl]; [cbn; lia|]. cbn zeta.
  destruct (Z.ltb_spec (Z.max (to_millis (now env - last_fire)) 0) 2000); lia.
Qed.

(** Falling into recovery: as long as the configured number of attempts is
    not used up, one more attempt is counted and scheduled; the delay is never
    negative, exceeds neither the current spacing nor the minimal gap, and
    keeps the minimal gap to the previous attempt that was started.  When the
    attempts are used up nothing is scheduled; the shutdown is submitted. *)
Theorem initiate_recovery_spec v :
  let r := v_recovery v in
  let limit := recovery_attempts (recovery_settings (v_upstream_config v)) in
  v_ev_loop v = true -> 0 <= r_attempts r -> limit <= UINT32_MAX -> 0 <= r_between_attempts r ->
  let v' := initiate_recovery env v in
  if r_attempts r <? limit then
    r_attempts (v_recovery v') = r_attempts r + 1 /\ r_task (v_recovery v') = true /\
    v_tasks v' = v_tasks v /\
    0 <= r_to_next (v_recovery v') <= Z.max (r_between_attempts r) VPN_MIN_RECOVERY_FIRE_GAP_MS /\
    (v_last_recovery_fire_ts v <> 0 ->
       VPN_MIN_RECOVERY_FIRE_GAP_MS <=
         Z.max (to_millis (now env - v_last_recovery_fire_ts v)) 0 + r_to_next (v_recovery v'))
  else v_tasks v' = v_tasks v ++ [VT_recovery_exhausted] /\ v_recovery v' = r.
Proof.
  intros r limit Hl Ha Hlim Hb v'. unfold v', initiate_recovery.
  fold limit. fold r. rewrite Z.leb_antisym. destruct (Z.ltb_spec (r_attempts r) limit) as [Hlt|Hge]; cbn [negb].
  2:{ unfold submit. rewrite Hl. done. }
  assert (Hclock : exists elapsed w, start_recovery_clock env v = (elapsed, w) /\ 0 <= elapsed /\
    r_between_attempts (v_recovery w) = r_between_attempts r /\ r_attempts (v_recovery w) = r_attempts r /\
    v_last_recovery_fire_ts w = v_last_recovery_fire_ts v /\ v_tasks w = v_tasks v).
  { unfold start_recovery_clock. destruct (negb _); eexists _, _; split; try reflexivity; split_and!; try done; lia. }
  destruct Hclock as (elapsed & w & -> & He & Hw1 & Hw2 & Hw3 & Hw4).
  rewrite Hw1, Hw2, Hw3.
  set (t := time_from_spacing elapsed (r_between_attempts r)).
  assert (Ht : 0 <= t <= r_between_attempts r).
  { unfold t, time_from_spacing. destruct (Z.leb_spec elapsed (r_between_attempts r)); lia. }
  destruct (with_min_gap_spec (v_last_recovery_fire_ts v) t ltac:(lia)) as (Hd1 & Hd2 & Hd3).
  assert (Hwrap : uwrap 32 (r_attempts r + 1) = r_attempts r + 1).
  { apply uwrap_id. unfold in_width, UINT32_MAX in *. lia. }
  match goal with |- context [if ?b then reset_recovery_time ?x else _] => destruct b end.
  all: cbn -[uwrap with_min_gap VPN_MIN_RECOVERY_FIRE_GAP_MS t]; rewrite Hwrap; split_and!; try done; lia.
Qed.

(** What a recovery step changes of what the next one looks at. *)
Lemma initiate_recovery_counts v :
  let limit := recovery_attempts (recovery_settings (v_upstream_config v)) in
  v_ev_loop v = true -> 0 <= r_attempts (v_recovery v) -> limit <= UINT32_MAX ->
  let v' := initiate_recovery env v in
  v_ev_loop v' = true /\ v_upstream_config v' = v_upstream_config v /\
  0 <= r_attempts (v_recovery v') /\ (exists l, v_tasks v' = v_tasks v ++ l) /\
  (VT_recovery_exhausted ∈ v_tasks v' \/
   (r_attempts (v_recovery v) < limit /\ r_attempts (v_recovery v') = r_attempts (v_recovery v) + 1)).
Proof.
  intros limit Hl Ha Hlim. unfold initiate_recovery. fold limit.
  destruct (Z.leb_spec limit (r_attempts (v_recovery v))).
  { unfold submit. rewrite Hl. split_and!; [done..|by eexists|]. left. cbn. set_solver. }
  assert (Hwrap : uwrap 32 (r_attempts (v_recovery v) + 1) = r_attempts (v_recovery v) + 1).
  { apply uwrap_id. unfold in_width, UINT32_MAX in *. lia. }
  unfold start_recovery_clock. destruct (negb _); cbn -[uwrap];
    (split_and!; [done..| |by exists []; rewrite app_nil_r|right; split; [done|]]);
    destruct (_ <=? _); cbn -[uwrap]; rewrite ?Hwrap; lia.
Qed.
End Session.

(** C28.  Recovery is bounded: whatever the clock and the answers of the other
    parts are, after more consecutive failures than the configured number of
    attempts the shutdown of the session is submitted. *)
Theorem recovery_is_bounded envs v :
  let limit := recovery_attempts (recovery_settings (v_upstream_config v)) in
  v_ev_loop v = true -> 0 <= r_attempts (v_recovery v) <= limit -> limit <= UINT32_MAX ->
  limit < r_attempts (v_recovery v) + Z.of_nat (length envs) ->
  VT_recovery_exhausted ∈ v_tasks (fold_left (fun v e => initiate_recovery e v) envs v).
Proof.
  intros limit Hl [Ha Hle] Hlim Hn.
  assert (Hor : VT_recovery_exhausted ∈ v_tasks v \/
    (r_attempts (v_recovery v) <= limit /\ limit < r_attempts (v_recovery v) + Z.of_nat (length envs))) by auto.
  clear Hle Hn. revert v limit Hl Ha Hlim Hor.
  induction envs as [|env envs IH]; intros v limit Hl Ha Hlim Hor; cbn [fold_left length] in *.
  { destruct Hor as [?|[? ?]]; [done|lia]. }
  destruct (initiate_recovery_counts env v Hl Ha Hlim) as (Hl' & Hc & Ha' & [l Ht] & Hcase).
  apply IH; rewrite ?Hc; [done..|].
  destruct Hor as [Hin|[H1 H2]]; [left; rewrite Ht; set_solver|].
  destruct Hcase as [?|[H3 H4]]; [by left|right]. rewrite H4. fold limit in H3 |- *. lia.
Qed.

(** ** Event data *)

Section Casts.
Context (env : VpnEnv) (r : Reinterpret).
Implicit Types (v : Vpn) (data : VpnData).

Abbreviation env' := (env <| reinterpret := r |>).

Ltac same_env := try change (now env') with (now env); try change (client_env env') with (client_env env).

Lemma run_client_connect_typed t v : run_client_connect env' t v = run_client_connect env t v.
Proof. unfold run_client_connect. same_env. reflexivity. Qed.

Lemma disconnect_client_typed v : disconnect_client env' v = disconnect_client env v.
Proof. unfold disconnect_client. same_env. reflexivity. Qed.

Lemma Vpn_disconnect_typed v : Vpn_disconnect env' v = Vpn_disconnect env v.
Proof. apply disconnect_client_typed. Qed.

Lemma complete_connect_typed data v :
  data_error env' data = data_error env data -> complete_connect env' data v = complete_connect env data v.
Proof. intros Hd. unfold complete_connect, is_fatal_error. rewrite Hd, Vpn_disconnect_typed. reflexivity. Qed.

Lemma initiate_recovery_typed v : initiate_recovery env' v = initiate_recovery env v.
Proof. unfold initiate_recovery, start_recovery_clock, with_min_gap. same_env. reflexivity. Qed.

Lemma prepare_for_recovery_typed data v :
  data_error env' data = data_error env data -> prepare_for_recovery env' data v = prepare_for_recovery env data v.
Proof.
  intros Hd. unfold prepare_for_recovery, keep_error. by rewrite Hd, Vpn_disconnect_typed, initiate_recovery_typed.
Qed.

(** The casts a condition makes. *)
Lemma guard_typed g data v :
  match g with
  | G_is_fatal_error => data_error env' data = data_error env data
  | G_network_lost => data_network env' data = data_network env data
  | G_can_complete => data_request env' data = data_request env data
  | _ => True
  end -> vpn_eval_condition env' g v data = vpn_eval_condition env g v data.
Proof.
  destruct g; cbn [vpn_eval_condition]; intros Hd; try reflexivity.
  - unfold network_lost. by rewrite Hd.
  - unfold is_fatal_error. by rewrite Hd.
  - unfold can_complete. by rewrite Hd.
Qed.

(** The casts an action makes. *)
Lemma action_typed a data v :
  match a with
  | X_complete_connect | X_prepare_for_recovery => data_error env' data = data_error env data
  | X_start_listening => data_listen env' data = data_listen env data
  | X_complete_request | X_postpone_request | X_reject_request | X_bypass_until_connected =>
      data_request env' data = data_request env data
  | _ => True
  end -> vpn_run_action env' a data v = vpn_run_action env a data v.
Proof.
  destruct a; cbn [vpn_run_action]; intros Hd.
  - unfold run_ping. same_env. reflexivity.
  - apply run_client_connect_typed.
  - by apply complete_connect_typed.
  - by apply complete_connect_typed.
  - unfold retry_connect. by rewrite Vpn_disconnect_typed.
  - by apply prepare_for_recovery_typed.
  - by apply prepare_for_recovery_typed.
  - unfold reconnect_client. rewrite run_client_connect_typed, disconnect_client_typed. reflexivity.
  - unfold finalize_recovery. same_env. reflexivity.
  - apply Vpn_disconnect_typed.
  - unfold start_listening. rewrite Hd. same_env. reflexivity.
  - unfold on_wrong_connect_state. by rewrite Vpn_disconnect_typed.
  - reflexivity.
  - reflexivity.
  - unfold with_request. by rewrite Hd.
  - unfold with_request. by rewrite Hd.
  - unfold with_request. by rewrite Hd.
  - unfold with_request. by rewrite Hd.
Qed.

(** The conditions and the actions of an entry read data that its event carries as
    what it is. *)
Lemma entry_typed e data :
  e ∈ TRANSITION_TABLE -> data_fits (event e) data = true ->
  (forall g v, condition e = Some g -> vpn_eval_condition env' g v data = vpn_eval_condition env g v data) /\
  (forall a v, before_transition e = Some a \/ after_transition e = Some a ->
     vpn_run_action env' a data v = vpn_run_action env a data v).
Proof.
  intros He Hd.
  assert (Hall : Forall (fun e => data_fits (event e) data = true ->
    (forall g v, condition e = Some g -> vpn_eval_condition env' g v data = vpn_eval_condition env g v data) /\
    (forall a v, before_transition e = Some a \/ after_transition e = Some a ->
       vpn_run_action env' a data v = vpn_run_action env a data v)) TRANSITION_TABLE).
  { destruct data; repeat (apply Forall_cons_2; [|]); try apply Forall_nil_2.
    all: intros Hn; first [discriminate Hn|clear Hn; split;
      [intros g v [= <-]; apply guard_typed|intros a v [[= <-]|[= <-]]; apply action_typed]; exact I || reflexivity]. }
  rewrite Forall_forall in Hall. by apply Hall.
Qed.

Lemma transition_typed ev data v :
  data_fits ev data = true -> vpn_transition env' ev data v = vpn_transition env ev data v.
Proof.
  intros Hd. unfold vpn_transition. rewrite Hd. apply perform_transition_ext. intros e He <-. by apply entry_typed.
Qed.

Lemma task_typed t v : run_vpn_task env' t v = run_vpn_task env t v.
Proof.
  destruct t; cbn [run_vpn_task]; lazymatch goal with
    | |- vpn_transition _ _ _ _ = _ => by apply transition_typed
    | |- do_connect_task _ _ _ _ = _ => by apply transition_typed
    | |- shutdown_cb _ _ = _ => by apply transition_typed
    | |- ?f env' _ = _ => idtac
    | |- ?f env' _ _ = _ => idtac
    | |- _ => reflexivity
    end.
  - unfold force_reconnect_task. destruct (_ =? _); [by apply transition_typed|].
    destruct (_ =? _); [by apply transition_typed|]. destruct (_ || _); [by apply transition_typed|done].
  - unfold vpn_complete_connect_request_task.
    change (tunnel_finalize_connect_action env') with (tunnel_finalize_connect_action env). by apply transition_typed.
  - unfold abandon_endpoint_task. destruct (negb (existsb _ _)); [by apply transition_typed|].
    destruct (negb _); [done|by apply transition_typed].
Qed.

Lemma handler_typed v e : client_handler env' v e = client_handler env v e.
Proof. destruct e; cbn [client_handler]; [by apply transition_typed..|reflexivity]. Qed.

Lemma pinger_typed result v : pinger_handler env' result v = pinger_handler env result v.
Proof.
  unfold pinger_handler. same_env. destruct (negb (ping_ok result)); [by apply transition_typed|].
  destruct (negb _); by apply transition_typed.
Qed.
End Casts.

(** C33.  Both transition tables pass the validator, and no condition or action that
    the session's state machine ever runs casts the data of an event to another type:
    whatever happens in whatever state, the outcome does not depend on what the memory
    behind the data would read as under another type. *)
Theorem tables_valid_and_typed :
  validate_transition_table CLIENT_TRANSITION_TABLE = true /\
  validate_transition_table TRANSITION_TABLE = true /\
  forall env r i v, vpn_step (env <| reinterpret := r |>) i v = vpn_step env i v.
Proof.
  split; [vm_compute; reflexivity|]. split; [vm_compute; reflexivity|].
  intros env r i v. destruct i; cbn [vpn_step]; lazymatch goal with
    | |- (vpn_listen _ _ _ _).2 = _ => idtac
    | |- run_next_task _ _ = _ => idtac
    | |- recovery_timer_cb _ _ = _ => unfold recovery_timer_cb; change (now (env <| reinterpret := r |>)) with (now env)
    | |- pinger_handler _ _ _ = _ => idtac
    | |- client_input _ _ _ = _ => idtac
    | |- _ => reflexivity
    end.
  - unfold vpn_listen. destruct listener; cbn [negb]; [|reflexivity]. destruct config; cbn [negb]; [|reflexivity].
    destruct (v_executor_thread v); cbn [negb snd]; [|reflexivity]. by apply transition_typed.
  - unfold run_next_task. destruct (v_tasks v); [reflexivity|apply task_typed].
  - by apply transition_typed.
  - apply pinger_typed.
  - unfold client_input. change (client_env (env <| reinterpret := r |>)) with (client_env env). cbv zeta.
    set (l := raised _). set (w := v <| v_client := _ |>). clearbody l w. revert w.
    induction l as [|e l IH]; intros w; cbn [fold_left]; [reflexivity|]. rewrite handler_typed. apply IH.
Qed.

(** A wrong cast would be noticed: a network change read as an error. *)
Example wrong_cast_reads_garbage :
  exists r, is_fatal_error (VpnSamples.env <| reinterpret := r |>) VpnSamples.connected (VD_network VPN_NS_CONNECTED) <>
            is_fatal_error VpnSamples.env VpnSamples.connected (VD_network VPN_NS_CONNECTED).
Proof.
  exists (mkReinterpret (fun _ => VpnSamples.auth_error) (read_network VpnSamples.garbage)
            (read_result VpnSamples.garbage) (read_listen VpnSamples.garbage)). by vm_compute.
Qed.

(** ** Examples *)

(** A request that comes while the session waits for its recovery is put off. *)
Lemma request_decision_witness :
  v_postponed_requests (vpn_transition VpnSamples.env CE_COMPLETE_REQUEST (VD_request VpnSamples.request)
    VpnSamples.waiting_recovery) = [VpnSamples.request].
Proof.
  rewrite (request_decision VpnSamples.env VpnSamples.request VpnSamples.waiting_recovery
    ltac:(vm_compute; reflexivity)). vm_compute. reflexivity.
Defined.

Lemma network_renotification_ignored_witness :
  vpn_transition VpnSamples.env CE_NETWORK_CHANGE (VD_network VPN_NS_CONNECTED) VpnSamples.connecting =
    VpnSamples.connecting /\ v_pinger VpnSamples.connecting = P_running.
Proof.
  split; [|vm_compute; reflexivity].
  refine (network_renotification_ignored VpnSamples.env VpnSamples.connecting _ _); [vm_compute; reflexivity|].
  left. vm_compute. split; reflexivity.
Defined.

Lemma fatal_error_is_not_reported_witness :
  last_out (vpn_transition VpnSamples.env CE_CLIENT_DISCONNECTED (VD_error VpnSamples.auth_error)
    VpnSamples.connected) = Some (VO_state_changed VPN_SS_DISCONNECTED (SI_error no_error)).
Proof.
  refine (fatal_error_is_not_reported VpnSamples.env VpnSamples.auth_error VpnSamples.connected _ _ _ _);
    vm_compute; try reflexivity. left. reflexivity.
Defined.

Lemma finalize_recovery_settles_requests_witness :
  let v := postpone_request VpnSamples.request VpnSamples.waiting_recovery in
  request_log (v_client (finalize_recovery VpnSamples.env v)) = request_log (v_client v) ++ [RO_complete 7 (Some VPN_CA_DEFAULT)].
Proof.
  refine (proj1 (finalize_recovery_settles_requests VpnSamples.env
    (postpone_request VpnSamples.request VpnSamples.waiting_recovery) _)). vm_compute. reflexivity.
Defined.

Lemma initiate_recovery_spec_witness :
  r_attempts (v_recovery VpnSamples.waiting_recovery) = 1 /\
  r_attempts (v_recovery (initiate_recovery VpnSamples.env VpnSamples.waiting_recovery)) =
  r_attempts (v_recovery VpnSamples.waiting_recovery) + 1.
Proof.
  split; [vm_compute; reflexivity|].
  pose proof (initiate_recovery_spec VpnSamples.env VpnSamples.waiting_recovery) as H. cbv zeta in H.
  assert (Hlt : (r_attempts (v_recovery VpnSamples.waiting_recovery) <?
    recovery_attempts (recovery_settings (v_upstream_config VpnSamples.waiting_recovery))) = true)
    by (vm_compute; reflexivity).
  rewrite Hlt in H. apply H; vm_compute; first [reflexivity|discriminate].
Defined.

(** One try more than the thirty the default settings allow. *)
Lemma recovery_is_bounded_witness :
  VT_recovery_exhausted ∈ v_tasks (fold_left (fun v e => initiate_recovery e v) (replicate 31 VpnSamples.env)
    VpnSamples.connected).
Proof.
  refine (recovery_is_bounded (replicate 31 VpnSamples.env) VpnSamples.connected _ _ _ _);
    vm_compute; try reflexivity; try discriminate. split; discriminate.
Defined.
