(* ===== verification/VpnManagerProofs.v ===== *)
(** * The VPN manager: functional properties

    Proofs about [VpnManager.v] and the configuration functions of [Vpn.v]:
    validation and defaults of the upstream configuration, what the client is
    told to connect to, certificate verification, and the choice and removal of
    endpoints. *)

From S2P Require Import Prelude Fsm VpnTypes PortRanges VpnClient VpnClientProofs Vpn VpnFsm VpnManager VpnSamples VpnFsmProofs.
From Stdlib Require Import SpecFloat.

(** ** The upstream configuration *)

Lemma default_z_pos d x : 0 < d -> 0 <= x -> 0 < default_z d x.
Proof. intros. unfold default_z. destruct (Z.eqb_spec x 0); lia. Qed.

Lemma default_z_id d x : 0 < x -> default_z d x = x.
Proof. intros. unfold default_z. destruct (Z.eqb_spec x 0); lia. Qed.

Lemma default_z_idemp d x : 0 < d -> 0 <= x -> default_z d (default_z d x) = default_z d x.
Proof. intros. by apply default_z_id, default_z_pos. Qed.

(** The backoff rate the configuration ends up with is not below one. *)
Lemma default_rate_ok : f32_ltb VPN_DEFAULT_RECOVERY_BACKOFF_RATE (f32_of_Z 1) = false.
Proof. vm_compute. reflexivity. Qed.

Definition normal_rate (rate : spec_float) : spec_float :=
  if f32_ltb rate (f32_of_Z 1) then VPN_DEFAULT_RECOVERY_BACKOFF_RATE else rate.

Lemma normal_rate_idemp rate :
  f32_ltb (normal_rate rate) (f32_of_Z 1) = false /\ normal_rate (normal_rate rate) = normal_rate rate.
Proof.
  unfold normal_rate. destruct (f32_ltb rate (f32_of_Z 1)) eqn:H; rewrite ?default_rate_ok, ?H; done.
Qed.

(** The members one by one. *)
Lemma normalize_eq c :
  normalize_upstream_config c =
  let timeout := default_z VPN_DEFAULT_ENDPOINT_UPSTREAM_TIMEOUT_MS (timeout_ms c) in
  mkVpnUpstreamConfig (main_protocol c) (http_connections_num c) (location_id c) (endpoints c)
    (default_z DEFAULT_LOCATION_PING_TIMEOUT_MS (location_ping_timeout_ms c)) timeout
    (Z.min (default_z VPN_DEFAULT_HEALTH_CHECK_TIMEOUT_MS (health_check_timeout_ms c)) timeout)
    (username c) (password c)
    (mkRecoverySettings (normal_rate (backoff_rate (recovery_settings c)))
       (default_z VPN_DEFAULT_RECOVERY_LOCATION_UPDATE_PERIOD_MS (location_update_period_ms (recovery_settings c)))
       (default_z VPN_DEFAULT_RECOVERY_ATTEMPTS (recovery_attempts (recovery_settings c))))
    (anti_dpi c).
Proof.
  unfold normalize_upstream_config, normal_rate. cbn [recovery_settings assign].
  by destruct (f32_ltb (backoff_rate (recovery_settings c)) (f32_of_Z 1)) eqn:H.
Qed.

Definition config_in_range (c : VpnUpstreamConfig) : Prop :=
  0 <= location_ping_timeout_ms c /\ 0 <= timeout_ms c /\ 0 <= health_check_timeout_ms c /\
  0 <= location_update_period_ms (recovery_settings c) /\ 0 <= recovery_attempts (recovery_settings c).

(** Whatever (unsigned) values the application configured, the stored
    configuration has positive timeouts, a health check timeout within the
    endpoint timeout, a positive re-ping period and number of recovery
    attempts, and a backoff rate not below one; nothing else is changed, and
    storing the stored configuration again changes nothing. *)
Theorem normalize_upstream_config_spec c :
  config_in_range c ->
  let c' := normalize_upstream_config c in
  0 < location_ping_timeout_ms c' /\ 0 < timeout_ms c' /\
  0 < health_check_timeout_ms c' <= timeout_ms c' /\
  0 < location_update_period_ms (recovery_settings c') /\ 0 < recovery_attempts (recovery_settings c') /\
  f32_ltb (backoff_rate (recovery_settings c')) (f32_of_Z 1) = false /\
  endpoints c' = endpoints c /\ main_protocol c' = main_protocol c /\
  normalize_upstream_config c' = c'.
Proof.
  intros (H1 & H2 & H3 & H4 & H5) c'.
  pose proof (default_z_pos DEFAULT_LOCATION_PING_TIMEOUT_MS _ ltac:(done) H1) as P1.
  pose proof (default_z_pos VPN_DEFAULT_ENDPOINT_UPSTREAM_TIMEOUT_MS _ ltac:(done) H2) as P2.
  pose proof (default_z_pos VPN_DEFAULT_HEALTH_CHECK_TIMEOUT_MS _ ltac:(done) H3) as P3.
  pose proof (default_z_pos VPN_DEFAULT_RECOVERY_LOCATION_UPDATE_PERIOD_MS _ ltac:(done) H4) as P4.
  pose proof (default_z_pos VPN_DEFAULT_RECOVERY_ATTEMPTS _ ltac:(done) H5) as P5.
  destruct (normal_rate_idemp (backoff_rate (recovery_settings c))) as [R1 R2].
  assert (Hc : normalize_upstream_config c' = c').
  { unfold c'. rewrite (normalize_eq (normalize_upstream_config c)), normalize_eq.
    cbn [recovery_settings timeout_ms health_check_timeout_ms location_ping_timeout_ms main_protocol
      http_connections_num location_id endpoints username password anti_dpi backoff_rate
      location_update_period_ms recovery_attempts].
    rewrite R2, !default_z_idemp by done.
    rewrite (default_z_id _ (Z.min _ _)) by lia. f_equal. lia. }
  split_and!; try done; unfold c'; rewrite normalize_eq; cbn -[default_z Z.min Z.lt Z.le]; (done || lia).
Qed.

Section Config.
Context (env : VpnEnv).

Definition endpoint_ok (several : bool) (ep : VpnEndpoint) : Prop :=
  name ep <> None /\ (several = true -> sa_family (address ep) <> AF_UNSPEC) /\
  (address_valid env (address ep) = true ->
     (is_ipv4 (address ep) = true \/ is_ipv6 (address ep) = true) /\ 0 < sa_port (address ep)).

Lemma check_address_None a :
  check_address env a = None <->
  (address_valid env a = true -> (is_ipv4 a = true \/ is_ipv6 a = true) /\ 0 < sa_port a).
Proof.
  unfold check_address. destruct (address_valid env a); [|split; [done|]; done].
  rewrite <-orb_true_iff. destruct (_ || _).
  - destruct (Z.ltb_spec 0 (sa_port a)); split; try done. intros Hv. destruct (Hv eq_refl). lia.
  - split; [done|]. intros Hv. by destruct (Hv eq_refl).
Qed.

Lemma validate_endpoints_spec several l :
  (validate_endpoints env several l = no_error <-> Forall (endpoint_ok several) l) /\
  (validate_endpoints env several l = no_error \/ code (validate_endpoints env several l) = VPN_EC_INVALID_SETTINGS).
Proof.
  induction l as [|ep l [IH1 IH2]]; cbn [validate_endpoints].
  { split; [|by left]. split; [constructor|done]. }
  rewrite Forall_cons. unfold endpoint_ok at 1. rewrite <-check_address_None.
  destruct (name ep); [|split; [split; [done|intros [(? & _) _]; done]|by right]].
  destruct (several && (sa_family (address ep) =? AF_UNSPEC)) eqn:Hs.
  { bool_to_prop. split; [|by right]. split; [done|]. intros [(_ & Hf & _) _]. by destruct (Hf H). }
  assert (Hf : several = true -> sa_family (address ep) <> AF_UNSPEC).
  { intros ->. cbn in Hs. bool_to_prop. done. }
  destruct (check_address env (address ep)) eqn:Hc.
  - split; [|by right]. split; [done|]. intros [(_ & _ & ?) _]. done.
  - split; [|done]. rewrite IH1. split; [by intros; split_and!|by intros [_ ?]].
Qed.

(** [vpn_connect] accepts a configuration exactly when it has endpoints,
    credentials, a name for every endpoint, an address for each of several
    endpoints, and a known family and a port in every valid address; anything
    else is refused as invalid settings before anything is started. *)
Theorem validate_upstream_config_spec c :
  (code (validate_upstream_config env c) = VPN_EC_NOERROR <->
     endpoints c <> [] /\ username c <> None /\ password c <> None /\
     Forall (endpoint_ok (1 <? Z.of_nat (length (endpoints c)))) (endpoints c)) /\
  (code (validate_upstream_config env c) = VPN_EC_NOERROR \/
   code (validate_upstream_config env c) = VPN_EC_INVALID_SETTINGS).
Proof.
  unfold validate_upstream_config. destruct (endpoints c) as [|ep eps] eqn:He; [naive_solver|].
  destruct (username c); [|naive_solver]. destruct (password c); [|naive_solver].
  set (several := 1 <? Z.of_nat (length (ep :: eps))).
  destruct (validate_endpoints_spec several (ep :: eps)) as [H1 H2]. rewrite <-H1.
  destruct H2 as [->|H2]; [by split; [|left]; naive_solver|].
  split; [|by right]. split; [rewrite H2; done|]. intros (_ & _ & _ & ->). done.
Qed.
End Config.

(** ** What the client is told to connect to *)

(** The client's configuration never leaves the choice of the protocol
    open, configures no fallback, and checks the certificate against the
    address of the endpoint that was selected even when the connection goes
    through a relay, whose address and data replace the endpoint's. *)
Theorem make_client_upstream_config_spec v sel :
  v_selected_endpoint v = Some sel ->
  exists cfg, make_client_upstream_config v = Some cfg /\
    ecc_main_protocol cfg <> VPN_UP_AUTO /\ ecc_fallback cfg = None /\
    (main_protocol (v_upstream_config v) <> VPN_UP_AUTO ->
       ecc_main_protocol cfg = main_protocol (v_upstream_config v)) /\
    ecc_verification_address cfg = address (sel_endpoint sel) /\
    name (ecc_endpoint cfg) = name (sel_endpoint sel) /\
    remote_id (ecc_endpoint cfg) = remote_id (sel_endpoint sel) /\
    address (ecc_endpoint cfg) = match sel_relay sel with
                                 | Some relay => relay_address relay
                                 | None => address (sel_endpoint sel)
                                 end.
Proof.
  intros Hs. unfold make_client_upstream_config. rewrite Hs. eexists. split; [reflexivity|].
  unfold choose_protocol. cbn.
  destruct (main_protocol (v_upstream_config v)), (c_quic_connector (v_client v)), (sel_relay sel);
    split_and!; done.
Qed.

(** ** Certificate verification *)

Section Verify.
Context (tls_verify_cert_ip tls_verify_cert_host_name : string -> bool).
Context (parse_identity : string -> option string) (host_str : SocketAddress -> string).

(** A server certificate is accepted exactly when the application asked to
    skip the check, or the application accepted the chain and the certificate
    matches the identity: the host name (as an address if it is one), else the
    peer address if there is one. *)
Theorem ssl_verify_callback_spec event_result host_name host_ip :
  ssl_verify_callback tls_verify_cert_ip tls_verify_cert_host_name parse_identity host_str
    event_result host_name host_ip = 1 <->
  event_result = VPN_SKIP_VERIFICATION_FLAG \/
  (event_result = 0 /\
   match host_name, host_ip with
   | Some n, _ => match parse_identity n with
                  | Some ip => tls_verify_cert_ip ip = true
                  | None => tls_verify_cert_host_name n = true
                  end
   | None, Some ip => sa_family ip = AF_UNSPEC \/ tls_verify_cert_ip (host_str ip) = true
   | None, None => True
   end).
Proof.
  unfold ssl_verify_callback.
  destruct (Z.eqb_spec event_result VPN_SKIP_VERIFICATION_FLAG) as [->|Hne]; [tauto|].
  assert (Hid : identity_matches tls_verify_cert_ip tls_verify_cert_host_name parse_identity host_str
            host_name host_ip = true <->
          match host_name, host_ip with
          | Some n, _ => match parse_identity n with
                         | Some ip => tls_verify_cert_ip ip = true
                         | None => tls_verify_cert_host_name n = true
                         end
          | None, Some ip => sa_family ip = AF_UNSPEC \/ tls_verify_cert_ip (host_str ip) = true
          | None, None => True
          end).
  { unfold identity_matches. destruct host_name as [n|]; [by destruct (parse_identity n)|].
    destruct host_ip as [ip|]; [|done]. destruct (Z.eqb_spec (sa_family ip) AF_UNSPEC); cbn; tauto. }
  rewrite <-Hid. destruct (identity_matches _ _ _ _ _ _); cbn [negb].
  - destruct (Z.eqb_spec event_result 0); split; try done; [intros _; right; done|]. intros [?|[? _]]; done.
  - split; [done|]. intros [?|[_ ?]]; done.
Qed.
End Verify.

(** ** Endpoints *)

Section Endpoints.
Context (env : VpnEnv).
Implicit Types (v : Vpn).

(** Abandoning an endpoint removes exactly the endpoints equal to it from
    the location and keeps the order of the others. *)
Theorem drop_endpoint_spec ep l :
  drop_endpoint ep l = filter (keeps (endpoint_eqb ep)) l.
Proof.
  unfold drop_endpoint. destruct (swap_remove_if_spec (endpoint_eqb ep) l) as (tail & -> & _ & _).
  by rewrite take_app_length.
Qed.

(** Transitions keep what the application configured. *)
Lemma submit_config t v : v_upstream_config (submit t v) = v_upstream_config v.
Proof. unfold submit. by destruct (v_ev_loop v). Qed.

End Endpoints.

(** ** Examples *)

Lemma normalize_upstream_config_spec_witness :
  0 < timeout_ms (normalize_upstream_config VpnSamples.location).
Proof.
  refine (proj1 (proj2 (normalize_upstream_config_spec VpnSamples.location _))).
  vm_compute. repeat split; discriminate.
Defined.

Lemma make_client_upstream_config_spec_witness :
  exists cfg, make_client_upstream_config VpnSamples.connected = Some cfg /\ ecc_main_protocol cfg <> VPN_UP_AUTO.
Proof.
  destruct (make_client_upstream_config_spec VpnSamples.connected (mkSelectedEndpoint Samples.endpoint None))
    as (cfg & H1 & H2 & _); [vm_compute; reflexivity|].
  exists cfg. split; [exact H1|exact H2].
Defined.
