(* ===== verification/VpnInvariant.v ===== *)
(** * The whole system: invariant and safety

    The invariant of the manager with its client, preserved by every input
    ([vpn_step] of [VpnManager.v]) under the conditions of [vpn_input_ok]: the
    client's own invariant, the manager's view of the client's state, what each
    session state implies about the client and the pinger, and the bookkeeping
    of connection requests.  The kill switch property follows. *)

From S2P Require Import Prelude Fsm VpnTypes PortRanges VpnClient VpnClientProofs ClientFrame Vpn VpnFsm VpnManager VpnFsmProofs.

(** ** The invariant *)

(** The manager's [client_state] as a view of the client's machine. *)
Definition clis_of (st : Z) (s : ClientConnectionState) : Prop :=
  match s with
  | CLIS_DISCONNECTED => st = S_DISCONNECTED
  | CLIS_CONNECTING => st = S_CONNECTING
  | CLIS_CONNECTED => st = S_CONNECTED \/ st = S_DISCONNECTING
  end.

Definition is_request_task (t : VpnTask) : Prop :=
  match t with VT_complete_request _ => True | _ => False end.

(** The assertions that can fail.  In the manager: [raise_state] without an
    endpoint, [retry_connect] under the other policy, and an event loop that does
    not start; in the client: statistics asked for while it is disconnecting.
    The theorems at the end of the file reach all but the event loop's. *)
Definition known_client_fault (f : string) : Prop := f = "not connected"%string.

Definition known_fault (f : string) : Prop :=
  f = "selected_endpoint is empty"%string \/
  f = "retry_connect without an attempts counter"%string \/
  f = "event loop did not start"%string.

(** The members the invariant speaks about. *)
Record inv (v : Vpn) : Prop := mkInv {
  i_client : client_wf (v_client v);
  i_client_faults : Forall known_client_fault (c_faults (v_client v));
  i_coupled : clis_of (get_state (v_client v)) (v_client_state v);
  i_loop : v_ev_loop v = true;
  i_window : v_postponed_requests v <> [] -> v_postponement_window_timer v = true;
  i_pinger : v_pinger v = P_running -> v_selected_endpoint v = None;
  i_listener : v_postponed_requests v <> [] \/ Exists is_request_task (v_tasks v) ->
               c_client_listener (v_client v) = true;
  i_kill : c_kill_switch_on (v_client v) = true -> v_bypassed_connection_ids v = [];
  i_actions : Forall (fun r => action r <> Some VPN_CA_FORCE_BYPASS) (v_postponed_requests v);
  i_faults : Forall known_fault (v_faults v);
}.

Definition quiet (v : Vpn) : Prop := v_client_state v = CLIS_DISCONNECTED /\ v_pinger v = P_none.

(** What the session state says about the client and the pinger. *)
Definition mode_ok (st : Z) (v : Vpn) : Prop :=
  (st = VPN_SS_CONNECTED -> v_client_state v = CLIS_CONNECTED) /\
  (st = VPN_SS_WAITING_RECOVERY \/ st = VPN_SS_WAITING_FOR_NETWORK -> quiet v).

Definition vpn_wf (v : Vpn) : Prop :=
  inv v /\ m_recursive (v_fsm v) = false /\ 0 <= get_state v <= 5 /\ mode_ok (get_state v) v.

(** Changing other members. *)
Lemma inv_same v v' :
  v_client v' = v_client v -> v_client_state v' = v_client_state v -> v_ev_loop v' = v_ev_loop v ->
  v_postponed_requests v' = v_postponed_requests v ->
  v_postponement_window_timer v' = v_postponement_window_timer v ->
  v_pinger v' = v_pinger v -> v_selected_endpoint v' = v_selected_endpoint v ->
  v_tasks v' = v_tasks v -> v_bypassed_connection_ids v' = v_bypassed_connection_ids v ->
  v_faults v' = v_faults v -> inv v -> inv v'.
Proof.
  intros H1 H2 H3 H4 H5 H6 H7 H8 H9 H10 []. constructor; rewrite ?H1, ?H2, ?H3, ?H4, ?H5, ?H6, ?H7, ?H8, ?H9, ?H10; done.
Qed.

(** [inv] of a state that differs from one with [inv] in some members. *)
Ltac inv_members := constructor; cbn; try done; try congruence; auto.

Section Actions.
Context (env : VpnEnv).
Let cenv := client_env env.
Implicit Types (v : Vpn) (c : VpnClient) (data : VpnData).

Lemma inv_fault f v : known_fault f -> inv v -> inv (v_fault f v).
Proof. intros Hf []. constructor; try done. cbn. apply Forall_app. split; [done|]. by constructor. Qed.

Lemma inv_submit t v :
  (is_request_task t -> c_client_listener (v_client v) = true) -> inv v -> inv (submit t v).
Proof.
  intros Ht Hi. unfold submit. rewrite (i_loop v Hi). destruct Hi. constructor; try done. cbn.
  rewrite Exists_app, Exists_cons, Exists_nil. intros [?|[?|[?|[]]]]; auto.
Qed.

(** A call on the client that keeps the kill switch and the listener. *)
Lemma inv_client_in s c' v :
  inv v -> client_wf c' -> c_faults c' = c_faults (v_client v) ->
  c_kill_switch_on c' = c_kill_switch_on (v_client v) ->
  (c_client_listener (v_client v) = true -> c_client_listener c' = true) ->
  clis_of (get_state c') s -> inv (v <| v_client := c' |> <| v_client_state := s |>).
Proof. intros [] Hwf Hf Hk Hl Hc. rewrite <- Hk in *. inv_members. Qed.

Lemma inv_client c' v :
  inv v -> client_wf c' -> c_faults c' = c_faults (v_client v) ->
  c_kill_switch_on c' = c_kill_switch_on (v_client v) ->
  (c_client_listener (v_client v) = true -> c_client_listener c' = true) ->
  clis_of (get_state c') (v_client_state v) -> inv (v <| v_client := c' |>).
Proof. apply inv_client_in. Qed.

Lemma clis_of_good c c' s :
  client_good false c c' -> clis_of (get_state c) s -> clis_of (get_state c') s.
Proof.
  intros (_ & _ & _ & [->|[[Hc Hd]|[? _]]]); [done| |done]. rewrite Hd, Hc. destruct s; cbn; [done..|by right].
Qed.

(** Calls that neither open nor close a session. *)
Lemma inv_call i v :
  inv v -> client_input_ok i (v_client v) -> silent_input i = true -> may_end i = false -> not_request i = true ->
  inv (on_client (client_step cenv i) v).
Proof.
  intros Hi Hok Hs Hm Hn. pose proof (client_call_good cenv i _ (i_client v Hi) Hok Hs) as Hg.
  rewrite Hm in Hg. destruct (client_step_frame cenv i (v_client v) Hn) as (Hk & Hl & _).
  apply inv_client; try done; [apply Hg..|]. apply (clis_of_good _ _ _ Hg), Hi.
Qed.

(** Answers to connection requests. *)
Lemma inv_answer i v :
  inv v -> client_input_ok i (v_client v) -> not_request i = false -> inv (on_client (client_step cenv i) v).
Proof.
  intros Hi Hok Hn.
  assert (Hs : silent_input i = true /\ may_end i = false) by (by destruct i).
  destruct Hs as [Hs Hm]. pose proof (client_call_good cenv i _ (i_client v Hi) Hok Hs) as Hg. rewrite Hm in Hg.
  pose proof (wf_tunnel _ (i_client v Hi)) as Ht. cbn in Ht.
  assert (Hk : c_kill_switch_on (client_step cenv i (v_client v)) = c_kill_switch_on (v_client v) /\
               c_client_listener (client_step cenv i (v_client v)) = c_client_listener (v_client v)).
  { destruct i; try discriminate Hn; cbn [client_step].
    - unfold VpnClient_complete_connect_request, call_tunnel. by rewrite Ht.
    - unfold VpnClient_reject_connect_request. cbn in Hok. by rewrite Hok.
    - unfold VpnClient_reset_connection, call_tunnel. by rewrite Ht. }
  destruct Hk as [Hk Hl].
  apply inv_client; try done; [apply Hg..|congruence|]. apply (clis_of_good _ _ _ Hg), Hi.
Qed.

(** What the connection procedure does not look at. *)
Lemma inv_core_same f v :
  (forall c, core (f c) = core c /\ c_kill_switch_on (f c) = c_kill_switch_on c /\
             c_client_listener (f c) = c_client_listener c) ->
  inv v -> inv (on_client f v).
Proof.
  intros Hf Hi. destruct (Hf (v_client v)) as (Hc & Hk & Hl).
  pose proof (good_core false _ _ Hc (i_client v Hi)) as Hg.
  apply inv_client; try done; [apply Hg..|congruence|]. apply (clis_of_good _ _ _ Hg), Hi.
Qed.

Lemma inv_stop_pinging v : inv v -> inv (stop_pinging v) /\ v_pinger (stop_pinging v) = P_none.
Proof.
  intros Hi. unfold stop_pinging. destruct (v_pinger v) eqn:Hp.
  - split; [|done]. by apply (inv_same v).
  - split; [|done]. destruct Hi. by constructor.
  - split; [|done]. destruct Hi. by constructor.
Qed.

Lemma inv_disconnect_client v :
  inv v -> inv (disconnect_client env v) /\ v_client_state (disconnect_client env v) = CLIS_DISCONNECTED /\
           v_pinger (disconnect_client env v) = v_pinger v /\
           v_selected_endpoint (disconnect_client env v) = v_selected_endpoint v.
Proof.
  intros Hi. pose proof (disconnect_good cenv (v_client v) (i_client v Hi)) as (Hwf & Hf & _).
  pose proof (disconnect_core cenv (v_client v) (i_client v Hi)) as [Hs _].
  destruct (client_step_frame cenv CI_disconnect (v_client v) eq_refl) as (Hk & Hl & _). cbn [client_step] in Hk, Hl.
  unfold disconnect_client.
  assert (H : inv ((on_client (VpnClient_disconnect cenv) v) <| v_client_state := CLIS_DISCONNECTED |>)).
  { by apply inv_client_in. }
  destruct (v_client_state v) eqn:Hc; done.
Qed.

Lemma inv_Vpn_disconnect v : inv v -> inv (Vpn_disconnect env v) /\ quiet (Vpn_disconnect env v).
Proof.
  intros Hi. destruct (inv_stop_pinging v Hi) as [Hi1 Hp].
  destruct (inv_disconnect_client _ Hi1) as (Hi2 & Hc & Hp2 & _). split; [done|].
  split; [done|]. unfold Vpn_disconnect. congruence.
Qed.

(** ** Actions *)

Lemma inv_recovery r v : inv v -> inv (v <| v_recovery := r |>).
Proof. intros. by apply (inv_same v). Qed.

Lemma inv_pending e v : inv v -> inv (v <| v_pending_error := e |>).
Proof. intros. by apply (inv_same v). Qed.

Lemma inv_initiate_recovery v :
  inv v -> inv (initiate_recovery env v) /\
  v_client_state (initiate_recovery env v) = v_client_state v /\ v_pinger (initiate_recovery env v) = v_pinger v.
Proof.
  intros Hi. unfold initiate_recovery. destruct (_ <=? _).
  { split; [by apply inv_submit|]. unfold submit. by rewrite (i_loop v Hi). }
  assert (Hw : forall r, inv (v <| v_recovery := r |> <| v_postponement_window_timer := true |>)).
  { intros r. destruct Hi. by constructor. }
  unfold start_recovery_clock. destruct (negb _).
  - split; [by apply inv_recovery|done].
  - split; [|done]. eapply inv_same; [..|apply (Hw no_recovery)]; done.
Qed.

Lemma inv_keep_error data v :
  inv v -> inv (keep_error env data v) /\ v_client_state (keep_error env data v) = v_client_state v.
Proof.
  intros Hi. unfold keep_error. destruct (v_pending_error v), (data_error env data) as [e|]; try done.
  destruct (code e =? VPN_EC_NOERROR); [done|]. split; [by apply inv_pending|done].
Qed.

Lemma inv_prepare_for_recovery data v :
  inv v -> inv (prepare_for_recovery env data v) /\ quiet (prepare_for_recovery env data v).
Proof.
  intros Hi. unfold prepare_for_recovery. destruct (inv_keep_error data v Hi) as [Hi1 _].
  destruct (inv_Vpn_disconnect _ Hi1) as [Hi2 [Hc Hp]].
  destruct (inv_initiate_recovery _ Hi2) as (Hi3 & Hc3 & Hp3). split; [done|]. split; congruence.
Qed.

Lemma inv_do_disconnect v : inv v -> inv (do_disconnect env v) /\ quiet (do_disconnect env v).
Proof. intros Hi. apply inv_Vpn_disconnect. by apply inv_recovery. Qed.

(** Starting a session needs an endpoint; without one the code would throw. *)
Lemma inv_run_client_connect timeout v :
  inv v -> v_selected_endpoint v <> None -> inv (run_client_connect env timeout v).
Proof.
  intros Hi Hsel. unfold run_client_connect, make_client_upstream_config.
  destruct (v_selected_endpoint v) as [sel|] eqn:Hs; [|done]. clear Hsel.
  match goal with |- context [VpnClient_connect _ ?x _ _] => set (cfg := x) end.
  assert (Hok : client_input_ok (CI_connect cfg timeout) (v_client v)).
  { unfold cfg, choose_protocol. cbn. by destruct (main_protocol (v_upstream_config v)), (c_quic_connector (v_client v)). }
  pose proof (connect_good cenv cfg timeout _ (i_client v Hi) Hok) as (Hwf & Hf & _).
  pose proof (connect_state cenv cfg timeout _ (i_client v Hi) Hok) as Hst.
  destruct (client_step_frame cenv (CI_connect cfg timeout) (v_client v) eq_refl) as (Hk & Hl & _).
  cbn [client_step] in Hk, Hl. unfold cenv in *.
  destruct (VpnClient_connect (client_env env) cfg timeout (v_client v)) as [e c']. cbn [snd] in *.
  destruct (code e =? VPN_EC_NOERROR).
  - destruct Hst as [_ Hst]. by apply inv_pending, inv_client_in.
  - apply inv_submit; [done|]. apply inv_pending, inv_client; try done. rewrite Hst. apply Hi.
Qed.

Lemma inv_run_ping v : inv v -> inv (run_ping env v).
Proof.
  intros Hi. unfold run_ping. destruct (inv_stop_pinging v Hi) as [Hi1 _]. revert Hi1. generalize (stop_pinging v).
  intros w Hw. assert (Hp : inv (w <| v_pinger := P_running |> <| v_selected_endpoint := None |>)).
  { destruct Hw. by constructor. }
  match goal with |- inv (if ?b then _ else _) => destruct b end; (eapply inv_same; [..|exact Hp]; done).
Qed.

Lemma inv_complete_connect data v :
  inv v -> inv (complete_connect env data v) /\
  (data_error env data = None -> v_client_state (complete_connect env data v) = v_client_state v).
Proof.
  intros Hi. unfold complete_connect.
  set (v1 := match v_pending_error v with Some _ => v | None => _ end).
  assert (H1 : inv v1 /\ (data_error env data = None -> v_client_state v1 = v_client_state v)).
  { unfold v1. destruct (v_pending_error v), (data_error env data) as [e|]; try done.
    destruct (code e =? VPN_EC_NOERROR); [done|]. split; [|done]. by apply inv_pending, inv_Vpn_disconnect. }
  clearbody v1. destruct H1 as [H1 Hc1].
  set (v2 := match v_pending_error v1 with Some _ => _ | None => v1 end).
  assert (H2 : inv v2 /\ v_client_state v2 = v_client_state v1).
  { unfold v2. destruct (v_pending_error v1); [|done]. destruct (_ && _); [|done]. split; [by apply inv_pending|done]. }
  clearbody v2. destruct H2 as [H2 Hc2].
  set (v3 := v2 <| v_recovery := no_recovery |>).
  assert (H3 : inv v3) by (by apply inv_recovery).
  assert (Hc3 : data_error env data = None -> v_client_state v3 = v_client_state v) by (intros; cbn; rewrite Hc2; auto).
  clearbody v3. destruct (v_pending_error v3); [done|]. split; [|done]. by apply (inv_call CI_do_health_check).
Qed.

Lemma inv_retry_connect v : inv v -> inv (retry_connect env v).
Proof.
  intros Hi. unfold retry_connect. apply inv_submit; [done|]. apply inv_Vpn_disconnect.
  destruct (v_connect_retry_info v); [by apply (inv_same v)|].
  apply inv_fault; [|done]. right; by left.
Qed.

Lemma inv_reconnect_client v :
  inv v -> v_selected_endpoint v <> None -> inv (reconnect_client env v).
Proof.
  intros Hi Hs. unfold reconnect_client. destruct (inv_disconnect_client v Hi) as (Hi1 & _ & _ & Hs1).
  apply inv_run_client_connect; [done|congruence].
Qed.

(** The client in a loop of answers. *)
Lemma inv_answers {T} (f : T -> ClientInput) (l : list T) : forall v,
  inv v -> (forall x c, not_request (f x) = false /\ client_input_ok (f x) c) ->
  inv (on_client (fun c => fold_left (fun c x => client_step cenv (f x) c) l c) v).
Proof.
  induction l as [|x l IH]; intros v Hi Hf; cbn [fold_left].
  - by apply (inv_same v).
  - pose proof (inv_answer (f x) v Hi (proj2 (Hf x _)) (proj1 (Hf x (v_client v)))) as H1.
    apply (IH _ H1 Hf).
Qed.

Lemma inv_finalize_recovery v :
  inv v -> inv (finalize_recovery env v) /\ v_client_state (finalize_recovery env v) = v_client_state v.
Proof.
  intros Hi. unfold finalize_recovery.
  pose proof (inv_call CI_bypass_availability v Hi I eq_refl eq_refl eq_refl) as H1. cbn [client_step] in H1.
  set (v1 := on_client _ v) in *. assert (Hc1 : v_client_state v1 = v_client_state v) by done. clearbody v1.
  set (v2 := v1 <| v_recovery := no_recovery |>). assert (H2 : inv v2) by (by apply inv_recovery).
  assert (Hc2 : v_client_state v2 = v_client_state v) by done. clearbody v2.
  destruct (inv_stop_pinging v2 H2) as [H3 _].
  assert (Hc3 : v_client_state (stop_pinging v2) = v_client_state v) by (unfold stop_pinging; by destruct (v_pinger v2)).
  revert H3 Hc3. generalize (stop_pinging v2). intros v3 H3 Hc3.
  assert (H4 : inv (complete_postponed_requests (v3 <| v_postponement_window_timer := false |>))).
  { pose proof (inv_answers (fun r => CI_complete_request (req_id r) (action r)) (v_postponed_requests v3) v3 H3
      ltac:(done)) as H. cbn [client_step] in H. destruct H. constructor; try done.
    cbn. intros [?|?]; [done|auto]. }
  pose proof (inv_answers CI_reset_connection
    (v_bypassed_connection_ids (complete_postponed_requests (v3 <| v_postponement_window_timer := false |>))) _ H4
    ltac:(done)) as H5. cbn [client_step] in H5.
  split; [|done]. unfold reset_bypassed_connections. destruct H5. constructor; try done.
Qed.

Lemma inv_start_listening config v :
  inv v -> inv (start_listening env (VD_listen config) v) /\
  v_client_state (start_listening env (VD_listen config) v) = v_client_state v /\
  v_pinger (start_listening env (VD_listen config) v) = v_pinger v.
Proof.
  intros Hi. unfold start_listening. cbn [data_listen].
  pose proof (inv_call (CI_listen config) v Hi I eq_refl eq_refl eq_refl) as H1.
  unfold on_client, cenv, client_step in H1. destruct (VpnClient_listen _ config (v_client v)) as [error c]. cbn [snd] in H1.
  destruct (negb _); [|split_and!; done]. split; [by apply inv_submit|]. unfold submit. by rewrite (i_loop _ H1).
Qed.

Lemma inv_on_wrong_connect_state v : inv v -> inv (on_wrong_connect_state env v).
Proof. intros Hi. by apply inv_pending, inv_Vpn_disconnect. Qed.

Lemma inv_raise_state v :
  inv v -> (get_state v = VPN_SS_CONNECTED -> v_client_state v = CLIS_CONNECTED) ->
  inv (raise_state v) /\ v_client_state (raise_state v) = v_client_state v /\
  v_pinger (raise_state v) = v_pinger v /\ v_fsm (raise_state v) = v_fsm v.
Proof.
  intros Hi Hc. unfold raise_state.
  destruct (Z.eqb_spec (get_state v) VPN_SS_WAITING_RECOVERY); [split; [by apply (inv_same v)|done]|].
  destruct (Z.eqb_spec (get_state v) VPN_SS_CONNECTED) as [Hst|].
  - set (v1 := v <| v_connected_once := true |>).
    assert (H1 : inv v1) by (by apply (inv_same v)).
    assert (Hu : c_endpoint_upstream (v_client v1) = true).
    { pose proof (i_coupled v Hi) as Hcl. rewrite (Hc Hst) in Hcl.
      pose proof (i_client v Hi) as (_ & _ & _ & _ & Hs). cbn in Hcl.
      change (get_state (v_client v)) with (m_current_state (k_fsm (core (v_client v)))) in Hcl.
      destruct Hcl as [Hcl|Hcl]; rewrite Hcl in Hs; apply Hs. }
    rewrite Hu. destruct (v_selected_endpoint v1); (split; [|done]).
    + by apply (inv_same v1).
    + apply (inv_same (v_fault "selected_endpoint is empty" v1)); try done.
      apply inv_fault; [by left|done].
  - destruct (_ =? VPN_SS_WAITING_FOR_NETWORK); (split; [by apply (inv_same v)|done]).
Qed.

(** ** Transitions

    What the actions of the session's table do to the client and the pinger:
    [silences] leaves both stopped, [keeps_both] leaves both alone, and
    [keeps_client] leaves the client's state alone unless an error came in. *)

Definition silences (a : VpnAction) : bool :=
  match a with
  | X_prepare_for_recovery | X_prepare_for_recovery_nc | X_do_disconnect => true
  | _ => false
  end.

Definition keeps_client (a : VpnAction) : bool :=
  match a with
  | X_complete_connect | X_finalize_recovery => true
  | _ => false
  end.

Definition keeps_both (a : VpnAction) : bool :=
  match a with X_start_listening | X_on_wrong_listen_state => true | _ => false end.

(** What [a] relies on. *)
Definition action_pre (a : VpnAction) data v : Prop :=
  match a with
  | X_connect_client | X_reconnect_client => v_selected_endpoint v <> None
  | X_start_listening => exists config, data = VD_listen config
  | X_complete_request | X_postpone_request | X_reject_request | X_bypass_until_connected | X_raise_state => False
  | _ => True
  end.

Lemma inv_action a data v : inv v -> action_pre a data v -> inv (vpn_run_action env a data v).
Proof.
  intros Hi Ha. destruct a; cbn [action_pre vpn_run_action] in *; try done.
  - by apply inv_run_ping.
  - by apply inv_run_client_connect.
  - by apply inv_complete_connect.
  - by apply inv_complete_connect.
  - by apply inv_retry_connect.
  - by apply inv_prepare_for_recovery.
  - by apply inv_prepare_for_recovery.
  - by apply inv_reconnect_client.
  - by apply inv_finalize_recovery.
  - by apply inv_do_disconnect.
  - destruct Ha as [config ->]. by apply inv_start_listening.
  - by apply inv_on_wrong_connect_state.
Qed.

Lemma action_silences a data v : silences a = true -> inv v -> quiet (vpn_run_action env a data v).
Proof.
  intros Ha Hi. destruct a; try discriminate Ha; cbn [vpn_run_action];
    by first [apply inv_prepare_for_recovery|apply inv_do_disconnect].
Qed.

Lemma action_keeps_client a data v :
  keeps_client a = true -> data_error env data = None -> inv v ->
  v_client_state (vpn_run_action env a data v) = v_client_state v.
Proof.
  intros Ha Hd Hi. destruct a; try discriminate Ha; cbn [vpn_run_action].
  - by apply inv_complete_connect.
  - by apply inv_finalize_recovery.
Qed.

Lemma action_keeps_both a data v :
  keeps_both a = true -> action_pre a data v -> inv v ->
  v_client_state (vpn_run_action env a data v) = v_client_state v /\
  v_pinger (vpn_run_action env a data v) = v_pinger v.
Proof.
  intros Ha Hpre Hi. destruct a; try discriminate Ha; cbn [vpn_run_action]; try done.
  destruct Hpre as [config ->]. by apply inv_start_listening.
Qed.

(** No action moves the machine. *)
Lemma fsm_submit t v : v_fsm (submit t v) = v_fsm v.
Proof. unfold submit. by destruct (v_ev_loop v). Qed.

Lemma fsm_Vpn_disconnect v : v_fsm (Vpn_disconnect env v) = v_fsm v.
Proof.
  unfold Vpn_disconnect, disconnect_client, stop_pinging.
  destruct (v_pinger v); cbn; by destruct (v_client_state v).
Qed.

Lemma fsm_run_client_connect t v : v_fsm (run_client_connect env t v) = v_fsm v.
Proof.
  unfold run_client_connect. destruct (make_client_upstream_config v); [|done].
  destruct (VpnClient_connect _ _ _ _). destruct (_ =? _); [done|]. by rewrite fsm_submit.
Qed.

Lemma fsm_complete_connect data v : v_fsm (complete_connect env data v) = v_fsm v.
Proof.
  unfold complete_connect.
  set (v1 := match v_pending_error v with Some _ => v | None => _ end).
  assert (H1 : v_fsm v1 = v_fsm v).
  { unfold v1. destruct (v_pending_error v), (data_error env data) as [e|]; try done.
    destruct (code e =? VPN_EC_NOERROR); [done|]. apply (fsm_Vpn_disconnect v). }
  clearbody v1. set (v2 := match v_pending_error v1 with Some _ => _ | None => v1 end).
  assert (H2 : v_fsm v2 = v_fsm v1) by (unfold v2; destruct (v_pending_error v1); [by destruct (_ && _)|done]).
  clearbody v2. destruct (v_pending_error _); cbn; congruence.
Qed.

Lemma fsm_initiate_recovery v : v_fsm (initiate_recovery env v) = v_fsm v.
Proof.
  unfold initiate_recovery, start_recovery_clock. destruct (_ <=? _); [apply fsm_submit|]. by destruct (negb _).
Qed.

Lemma fsm_prepare_for_recovery data v : v_fsm (prepare_for_recovery env data v) = v_fsm v.
Proof.
  unfold prepare_for_recovery. rewrite fsm_initiate_recovery, fsm_Vpn_disconnect. unfold keep_error.
  destruct (v_pending_error v), (data_error env data) as [e|]; try done. by destruct (_ =? _).
Qed.

Lemma fsm_stop_pinging v : v_fsm (stop_pinging v) = v_fsm v.
Proof. unfold stop_pinging. by destruct (v_pinger v). Qed.

Lemma fsm_action a data v : v_fsm (vpn_run_action env a data v) = v_fsm v.
Proof.
  destruct a; cbn [vpn_run_action].
  - unfold run_ping. rewrite <- (fsm_stop_pinging v). by destruct (r_task _).
  - apply fsm_run_client_connect.
  - apply fsm_complete_connect.
  - apply fsm_complete_connect.
  - unfold retry_connect. rewrite fsm_submit, fsm_Vpn_disconnect. by destruct (v_connect_retry_info v).
  - apply fsm_prepare_for_recovery.
  - apply fsm_prepare_for_recovery.
  - unfold reconnect_client. rewrite fsm_run_client_connect.
    unfold disconnect_client. by destruct (v_client_state v).
  - unfold finalize_recovery, reset_bypassed_connections, complete_postponed_requests. cbn. by destruct (v_pinger v).
  - unfold do_disconnect. by rewrite fsm_Vpn_disconnect.
  - unfold start_listening. destruct (data_listen env data); [|done]. destruct (VpnClient_listen _ _ _).
    destruct (negb _); [by rewrite fsm_submit|done].
  - apply (fsm_Vpn_disconnect v).
  - done.
  - unfold raise_state. destruct (_ =? _); [done|]. destruct (_ =? _); [|by destruct (_ =? _)].
    destruct (c_endpoint_upstream _); cbn; by destruct (v_selected_endpoint v).
  - unfold with_request. by destruct (data_request env data).
  - unfold with_request. by destruct (data_request env data).
  - unfold with_request. by destruct (data_request env data).
  - unfold with_request. by destruct (data_request env data).
Qed.

(** What the table owes the invariant, entry by entry. *)

Definition before_check (e : FsmTransitionEntry VpnGuard VpnAction) : bool :=
  match before_transition e with
  | Some (X_connect_client | X_reconnect_client) => (event e =? CE_PING_READY) || (event e =? CE_DO_RECOVERY)
  | Some X_start_listening => event e =? CE_START_LISTENING
  | Some (X_complete_request | X_postpone_request | X_reject_request | X_bypass_until_connected) =>
      event e =? CE_COMPLETE_REQUEST
  | Some X_raise_state => false
  | _ => true
  end.

Definition opt_action (f : VpnAction -> bool) (default : bool) (a : option VpnAction) : bool :=
  match a with Some a => f a | None => default end.

(** Staying needs the client and the pinger left alone where the state says
    something about them; the state with a client up is left when it goes. *)
Definition stay_check (e : FsmTransitionEntry VpnGuard VpnAction) : bool :=
  match after_transition e with Some _ => false | None => true end &&
  ((src_state e =? VPN_SS_DISCONNECTED) || (src_state e =? VPN_SS_CONNECTING) || (src_state e =? VPN_SS_RECOVERING)
   || (opt_action keeps_both true (before_transition e)
       && ((src_state e =? VPN_SS_WAITING_RECOVERY) || (src_state e =? VPN_SS_WAITING_FOR_NETWORK)
           || negb (event e =? CE_CLIENT_DISCONNECTED)))).

Definition move_check (e : FsmTransitionEntry VpnGuard VpnAction) : bool :=
  match after_transition e with Some X_raise_state => true | _ => false end
  && (0 <=? target_state e) && (target_state e <=? 5)
  && implb (target_state e =? VPN_SS_CONNECTED)
       ((event e =? CE_CLIENT_READY) && opt_action keeps_client true (before_transition e))
  && implb ((target_state e =? VPN_SS_WAITING_RECOVERY) || (target_state e =? VPN_SS_WAITING_FOR_NETWORK))
       (opt_action silences false (before_transition e)).

Definition entry_check (e : FsmTransitionEntry VpnGuard VpnAction) : bool :=
  (event e =? CE_COMPLETE_REQUEST) ||
  (before_check e && if target_state e =? SAME_TARGET_STATE then stay_check e else move_check e).

Lemma table_check : forallb entry_check TRANSITION_TABLE = true.
Proof. vm_compute. reflexivity. Qed.

(** Ready to perform [ev]: while the client is gone and the machine has not
    been told, [VPN_SS_CONNECTED] lasts until [CE_CLIENT_DISCONNECTED]. *)
Definition ready (ev : Z) v : Prop :=
  inv v /\ m_recursive (v_fsm v) = false /\ 0 <= get_state v <= 5 /\
  (ev <> CE_CLIENT_DISCONNECTED -> get_state v = VPN_SS_CONNECTED -> v_client_state v = CLIS_CONNECTED) /\
  (get_state v = VPN_SS_WAITING_RECOVERY \/ get_state v = VPN_SS_WAITING_FOR_NETWORK -> quiet v).

Lemma wf_ready ev v : vpn_wf v -> ready ev v.
Proof. intros (? & ? & ? & ? & ?). unfold ready. split_and!; auto; lia. Qed.

Definition event_pre (ev : Z) data v : Prop :=
  data_fits ev data = true /\ ev <> CE_COMPLETE_REQUEST /\
  (ev = CE_CLIENT_READY -> v_client_state v = CLIS_CONNECTED).

(** Connecting needs an endpoint. *)
Definition has_target (e : FsmTransitionEntry VpnGuard VpnAction) v : Prop :=
  match before_transition e with
  | Some (X_connect_client | X_reconnect_client) => v_selected_endpoint v <> None
  | _ => True
  end.

Lemma before_pre e a data v :
  before_check e = true -> before_transition e = Some a -> event_pre (event e) data v -> has_target e v ->
  action_pre a data v.
Proof.
  unfold before_check, has_target. intros Hb Ha (Hfit & Hev & _) Hsel. rewrite Ha in Hb, Hsel.
  destruct a; cbn; try done.
  - apply Z.eqb_eq in Hb. rewrite Hb in Hfit. destruct data; try discriminate Hfit. eauto.
  - apply Z.eqb_eq in Hb. done.
  - apply Z.eqb_eq in Hb. done.
  - apply Z.eqb_eq in Hb. done.
  - apply Z.eqb_eq in Hb. done.
Qed.

Lemma inv_set_fsm f v : inv v -> inv (v <| v_fsm := f |>).
Proof. intros. by apply (inv_same v). Qed.

Lemma run_before e data v :
  before_check e = true -> event_pre (event e) data v -> has_target e v -> inv v ->
  let v' := run_opt (vpn_run_action env) (before_transition e) data v in
  inv v' /\ v_fsm v' = v_fsm v /\
  (opt_action silences false (before_transition e) = true -> quiet v') /\
  (opt_action keeps_client true (before_transition e) = true -> data_error env data = None ->
     v_client_state v' = v_client_state v) /\
  (opt_action keeps_both true (before_transition e) = true ->
     v_client_state v' = v_client_state v /\ v_pinger v' = v_pinger v).
Proof.
  intros Hb Hpre Hsel Hi. destruct (before_transition e) as [a|] eqn:Ha; cbn [run_opt opt_action]; [|done].
  pose proof (before_pre e a data v Hb Ha Hpre Hsel) as Hap. split_and!.
  - by apply inv_action.
  - apply fsm_action.
  - intros. by apply action_silences.
  - intros. by apply action_keeps_client.
  - intros. by apply action_keeps_both.
Qed.

Lemma stay_mode e v w :
  stay_check e = true -> ready (event e) v ->
  get_state v = src_state e \/ src_state e = ANY_SOURCE_STATE ->
  (opt_action keeps_both true (before_transition e) = true ->
     v_client_state w = v_client_state v /\ v_pinger w = v_pinger v) ->
  mode_ok (get_state v) w.
Proof.
  intros Hc (_ & _ & _ & Hcon & Hwait) Hsrc Hk. apply andb_true_iff in Hc as [_ Hc].
  rewrite !orb_true_iff, !Z.eqb_eq in Hc. destruct Hc as [[[Hc|Hc]|Hc]|Hc].
  1-3: destruct Hsrc as [Hsrc|Hsrc]; [|by rewrite Hsrc in Hc]; rewrite Hsrc, Hc;
       split; [done|by intros [?|?]].
  apply andb_true_iff in Hc as [Hb Hc]. destruct (Hk Hb) as [Hk1 Hk2]. split.
  - intros Hst. rewrite Hk1. apply Hcon; [|done].
    rewrite !orb_true_iff, !Z.eqb_eq, negb_true_iff, Z.eqb_neq in Hc.
    destruct Hc as [[Hc|Hc]|Hc]; [| |done]; destruct Hsrc as [Hsrc|Hsrc]; rewrite ?Hst in Hsrc; by rewrite <- Hsrc in Hc || rewrite Hsrc in Hc.
  - intros Hw. destruct (Hwait Hw). split; congruence.
Qed.

Lemma take_entry_wf e data v :
  entry_check e = true -> ready (event e) v -> event_pre (event e) data v -> has_target e v ->
  get_state v = src_state e \/ src_state e = ANY_SOURCE_STATE ->
  vpn_wf (set_recursive false (take_entry (vpn_run_action env) data e (set_recursive true v))).
Proof.
  intros Hc Hready Hpre Hsel Hsrc. pose proof Hready as (Hi & _ & Hs & _). unfold entry_check in Hc.
  apply orb_true_iff in Hc as [Hc%Z.eqb_eq|[Hb Hc]%andb_true_iff]; [by destruct Hpre as (_ & ? & _)|].
  assert (Hpre' : event_pre (event e) data (set_recursive true v)) by done.
  destruct (run_before e data (set_recursive true v) Hb Hpre' Hsel (inv_set_fsm _ _ Hi)) as (Hi' & Hf & Hq & Hkc & Hkb).
  unfold take_entry. generalize dependent (run_opt (vpn_run_action env) (before_transition e) data (set_recursive true v)).
  intros w Hi' Hf Hq Hkc Hkb. destruct (Z.eqb_spec (target_state e) SAME_TARGET_STATE) as [Ht|Ht]; cbn [negb].
  - assert (Hst : get_state w = get_state v) by (unfold get_state; cbn; by rewrite Hf).
    pose proof (stay_mode e v w Hc Hready Hsrc Hkb) as Hm.
    unfold stay_check in Hc. destruct (after_transition e); [done|]. cbn [run_opt].
    split; [by do 2 apply inv_set_fsm|]. split; [done|].
    change (get_state (set_recursive false (set_recursive false w))) with (get_state w). by rewrite Hst.
  - unfold move_check in Hc. rewrite !andb_true_iff in Hc. destruct Hc as [[[[Ha H0%Z.leb_le] H5%Z.leb_le] Hcon] Hwait].
    destruct (after_transition e) as [[]|]; try discriminate Ha. cbn [run_opt vpn_run_action].
    set (u := set_recursive false (set_state (target_state e) w)).
    assert (Hm : mode_ok (target_state e) u).
    { split; [intros Hst|intros Hst].
      - rewrite Hst in Hcon. cbn in Hcon. apply andb_true_iff in Hcon as [Hev%Z.eqb_eq Hk].
        change (v_client_state w = CLIS_CONNECTED). rewrite Hkc; [by apply Hpre|done|].
        destruct Hpre as [Hfit _]. rewrite Hev in Hfit. by destruct data.
      - apply Hq. by destruct Hst as [Hst|Hst]; rewrite Hst in Hwait. }
    destruct (inv_raise_state u) as (Hi'' & Hcl & Hp & Hfs); [by do 2 apply inv_set_fsm|apply Hm|].
    assert (Hst : get_state (set_recursive false (raise_state u)) = target_state e).
    { rewrite get_state_set_recursive. change (m_current_state (v_fsm (raise_state u)) = target_state e). by rewrite Hfs. }
    split; [by apply inv_set_fsm|]. split; [done|]. rewrite Hst. split; [done|].
    destruct Hm as [Hm1 Hm2]. split; [intros; change (v_client_state (raise_state u) = CLIS_CONNECTED); rewrite Hcl; auto|].
    intros Hw. destruct (Hm2 Hw) as [Hq1 Hq2]. split; [by rewrite <- Hq1, <- Hcl|by rewrite <- Hq2, <- Hp].
Qed.

Lemma transition_wf ev data v :
  ready ev v -> event_pre ev data v -> vpn_wf v \/ taken env ev data v <> None ->
  (forall e, taken env ev data v = Some e -> has_target e v) -> vpn_wf (vpn_transition env ev data v).
Proof.
  intros Hr Hpre Hw Hsel. rewrite vpn_transition_eq by (apply Hr || apply Hpre).
  destruct (taken env ev data v) as [e|] eqn:He; [|by destruct Hw].
  specialize (Hsel e eq_refl). unfold taken in He. apply first_match_Some in He as [Hin Hm].
  pose proof table_check as Ht. rewrite forallb_forall in Ht.
  unfold entry_matches in Hm. rewrite get_state_set_recursive in Hm.
  destruct (_ && _) eqn:Hsrc in Hm; [done|]. destruct (Z.eqb_spec ev (event e)) as [->|]; [|done].
  apply take_entry_wf; [by apply Ht, list_elem_of_In|done..|].
  apply andb_false_iff in Hsrc as [H%negb_false_iff%Z.eqb_eq|H%negb_false_iff%Z.eqb_eq]; auto.
Qed.

(** Only two events lead to a connection. *)
Lemma taken_has_target ev data v e :
  ev <> CE_DO_RECOVERY -> ev <> CE_PING_READY \/ v_selected_endpoint v <> None -> ev <> CE_COMPLETE_REQUEST ->
  taken env ev data v = Some e -> has_target e v.
Proof.
  intros Hev Hsel Hreq He. apply first_match_Some in He as [Hin Hm].
  pose proof table_check as Ht. rewrite forallb_forall in Ht. specialize (Ht e (proj1 (list_elem_of_In _ _) Hin)).
  unfold entry_matches in Hm. destruct (_ && _) in Hm; [done|].
  destruct (Z.eqb_spec ev (event e)) as [->|]; [|done].
  unfold entry_check in Ht. rewrite (proj2 (Z.eqb_neq _ _) Hreq) in Ht. apply andb_true_iff in Ht as [Ht _].
  unfold has_target, before_check in *. destruct (before_transition e) as [[]|]; try done;
    apply orb_true_iff in Ht as [H%Z.eqb_eq|H%Z.eqb_eq]; by destruct Hsel.
Qed.

(** The states one by one. *)
Lemma state_cases v (P : Z -> Prop) :
  0 <= get_state v <= 5 ->
  P VPN_SS_DISCONNECTED -> P VPN_SS_CONNECTING -> P VPN_SS_CONNECTED -> P VPN_SS_WAITING_RECOVERY ->
  P VPN_SS_RECOVERING -> P VPN_SS_WAITING_FOR_NETWORK -> P (get_state v).
Proof.
  intros Hs. generalize dependent (get_state v). intros st Hs. unfold VPN_SS_DISCONNECTED, VPN_SS_CONNECTING,
    VPN_SS_CONNECTED, VPN_SS_WAITING_RECOVERY, VPN_SS_RECOVERING, VPN_SS_WAITING_FOR_NETWORK.
  assert (st = 0 \/ st = 1 \/ st = 2 \/ st = 3 \/ st = 4 \/ st = 5) as [->|[->|[->|[->|[->| ->]]]]] by lia; done.
Qed.

(** No state ignores that the client is gone. *)
Lemma taken_client_disconnected data v :
  0 <= get_state v <= 5 -> taken env CE_CLIENT_DISCONNECTED data v <> None.
Proof.
  intros Hs. rewrite taken_candidates. apply state_cases; [done|..]; cbn -[is_fatal_error]; by split_match.
Qed.

(** The events that bring nothing but their data. *)
Lemma plain_wf ev data v :
  vpn_wf v -> data_fits ev data = true ->
  ev <> CE_COMPLETE_REQUEST -> ev <> CE_DO_RECOVERY -> ev <> CE_PING_READY -> ev <> CE_CLIENT_READY ->
  vpn_wf (vpn_transition env ev data v).
Proof.
  intros Hwf Hfit H1 H2 H3 H4. apply transition_wf; [by apply wf_ready|by split_and!|by left|].
  intros e He. eapply taken_has_target, He; auto.
Qed.

Lemma client_gone_wf data v :
  ready CE_CLIENT_DISCONNECTED v -> data_fits CE_CLIENT_DISCONNECTED data = true ->
  vpn_wf (vpn_transition env CE_CLIENT_DISCONNECTED data v).
Proof.
  intros Hr Hfit. apply transition_wf; [done|by split_and!|right|].
  - apply taken_client_disconnected, Hr.
  - intros e He. eapply taken_has_target, He; auto.
Qed.

Lemma client_ready_wf v :
  vpn_wf v -> v_client_state v = CLIS_CONNECTED -> vpn_wf (vpn_transition env CE_CLIENT_READY VD_null v).
Proof.
  intros Hwf Hc. apply transition_wf; [by apply wf_ready|by split_and!|by left|].
  intros e He. eapply taken_has_target, He; auto.
Qed.

Lemma ping_ready_wf v :
  vpn_wf v -> v_selected_endpoint v <> None -> vpn_wf (vpn_transition env CE_PING_READY VD_null v).
Proof.
  intros Hwf Hc. apply transition_wf; [by apply wf_ready|by split_and!|by left|].
  intros e He. eapply taken_has_target, He; auto.
Qed.

(** Without an endpoint recovery pings first. *)
Lemma do_recovery_wf v : vpn_wf v -> vpn_wf (vpn_transition env CE_DO_RECOVERY VD_null v).
Proof.
  intros Hwf. apply transition_wf; [by apply wf_ready|by split_and!|by left|].
  intros e. rewrite taken_candidates. revert e. pose proof Hwf as (_ & _ & Hs & _).
  pattern (get_state v). apply state_cases; [done|..]; cbn -[need_to_ping_on_recovery]; try done.
  intros e. destruct (need_to_ping_on_recovery env v) eqn:Hn; intros [= <-]; [done|].
  unfold need_to_ping_on_recovery in Hn. cbn. by destruct (v_selected_endpoint v).
Qed.

Lemma inv_request r v :
  inv v -> c_client_listener (v_client v) = true -> m_recursive (v_fsm v) = false ->
  let v' := vpn_transition env CE_COMPLETE_REQUEST (VD_request r) v in
  inv v' /\ v_fsm v' = v_fsm v /\ v_client_state v' = v_client_state v /\ v_pinger v' = v_pinger v.
Proof.
  intros Hi Hl Hr. cbn -[vpn_transition]. rewrite request_decision_eq by done.
  destruct (can_complete env v (VD_request r)) eqn:Hcan.
  { split; [|done]. by apply (inv_answer (CI_complete_request (req_id r) (action r))). }
  destruct (should_postpone v) eqn:Hp.
  { split; [|done]. destruct Hi. constructor; try done. apply Forall_app. split; [done|].
    constructor; [|done]. intros Ha. cbn in Hcan. by rewrite Ha in Hcan. }
  destruct (is_kill_switch_on v) eqn:Hk.
  { split; [|done]. by apply (inv_answer (CI_reject_request (req_id r))). }
  split; [|done]. unfold bypass_until_connected.
  apply (inv_answer (CI_complete_request (req_id r) (Some VPN_CA_FORCE_BYPASS))); [|done..].
  destruct Hi. constructor; try done. cbn. unfold is_kill_switch_on in Hk. congruence.
Qed.

(** A change of other members that keeps the state. *)
Lemma wf_same v v' :
  vpn_wf v -> inv v' -> v_fsm v' = v_fsm v -> v_client_state v' = v_client_state v -> v_pinger v' = v_pinger v ->
  vpn_wf v'.
Proof.
  intros (_ & Hr & Hs & Hm1 & Hm2) Hi Hf Hc Hp.
  assert (Hst : get_state v' = get_state v) by (unfold get_state; cbn; by rewrite Hf).
  unfold vpn_wf, mode_ok, quiet in *. rewrite Hst, Hf, Hc, Hp. auto.
Qed.

Lemma request_wf r v :
  vpn_wf v -> c_client_listener (v_client v) = true ->
  vpn_wf (vpn_transition env CE_COMPLETE_REQUEST (VD_request r) v).
Proof.
  intros Hwf Hl. pose proof Hwf as (Hi & Hr & _). destruct (inv_request r v Hi Hl Hr) as (? & ? & ? & ?).
  by apply (wf_same v).
Qed.

(** ** Inputs *)

Definition is_callback (i : ClientInput) : bool :=
  match i with
  | CI_connector_result _ | CI_upstream_event _ | CI_bypass_event _ | CI_dns_result _ | CI_run_task _ => true
  | _ => false
  end.

(** When an input can come: the client's own inputs are its callbacks (the
    manager makes the calls), connection requests come from a listener, and
    timers and the pinger report while they are armed. *)
Definition vpn_input_may (i : VpnInput) v : Prop :=
  match i with
  | VI_complete_connect_request _ => c_client_listener (v_client v) = true
  | VI_ping_result _ => v_pinger v = P_running
  | VI_recovery_timer => r_task (v_recovery v) = true
  | VI_postponement_timer => v_postponement_window_timer v = true
  | VI_client i => is_callback i = true /\ client_input_may i (v_client v)
  | _ => True
  end.

(** The same, when it meets the assertions of the client's [vpn_upstream_handler]. *)
Definition vpn_input_ok (i : VpnInput) v : Prop :=
  match i with
  | VI_complete_connect_request _ => c_client_listener (v_client v) = true
  | VI_ping_result _ => v_pinger v = P_running
  | VI_recovery_timer => r_task (v_recovery v) = true
  | VI_postponement_timer => v_postponement_window_timer v = true
  | VI_client i => is_callback i = true /\ client_input_ok i (v_client v)
  | _ => True
  end.

Lemma submit_wf t v :
  vpn_wf v -> (is_request_task t -> c_client_listener (v_client v) = true) -> vpn_wf (submit t v).
Proof.
  intros Hwf Ht. pose proof Hwf as (Hi & _). apply (wf_same v); [done|by apply inv_submit|..];
    unfold submit; by rewrite (i_loop v Hi).
Qed.

Lemma set_wf v v' :
  vpn_wf v -> v_client v' = v_client v -> v_client_state v' = v_client_state v -> v_ev_loop v' = v_ev_loop v ->
  v_postponed_requests v' = v_postponed_requests v ->
  v_postponement_window_timer v' = v_postponement_window_timer v ->
  v_pinger v' = v_pinger v -> v_selected_endpoint v' = v_selected_endpoint v ->
  v_tasks v' = v_tasks v -> v_bypassed_connection_ids v' = v_bypassed_connection_ids v ->
  v_faults v' = v_faults v -> v_fsm v' = v_fsm v -> vpn_wf v'.
Proof. intros Hwf. intros. apply (wf_same v); try done. apply (inv_same v); try done. apply Hwf. Qed.

Lemma call_wf i v :
  vpn_wf v -> client_input_ok i (v_client v) -> silent_input i = true -> may_end i = false -> not_request i = true ->
  vpn_wf (on_client (client_step cenv i) v).
Proof. intros Hwf **. apply (wf_same v); try done. apply inv_call; try done. apply Hwf. Qed.

Lemma run_event_loop_wf v : vpn_wf v -> vpn_wf (snd (run_event_loop env v)).
Proof.
  intros Hwf. pose proof Hwf as (Hi & _). unfold run_event_loop. rewrite (i_loop v Hi). cbn iota.
  rewrite (i_loop v Hi). cbn [negb].
  destruct (event_loop_starts env); cbn [snd]; [by apply (set_wf v)|].
  apply (wf_same v); try done. apply inv_fault; [right; by right|done].
Qed.

Lemma drop_selected_wf v : vpn_wf v -> vpn_wf (v <| v_selected_endpoint := None |>).
Proof. intros Hwf. apply (wf_same v); try done. destruct Hwf as [[] _]. by constructor. Qed.

Lemma abandon_endpoint_wf endpoint v : vpn_wf v -> vpn_wf (abandon_endpoint_task env endpoint v).
Proof.
  intros Hwf. unfold abandon_endpoint_task. set (b := match v_selected_endpoint v with Some _ => _ | None => _ end).
  set (v1 := if b then _ else v).
  assert (H1 : vpn_wf v1) by (unfold v1; destruct b; [by apply drop_selected_wf|done]). clearbody b v1.
  destruct (negb (existsb _ _)); [|destruct b; cbn [negb]].
  - apply plain_wf; try done. by apply (set_wf v1).
  - apply plain_wf; try done. by apply (set_wf v1).
  - by apply (set_wf v1).
Qed.

Lemma force_reconnect_wf v : vpn_wf v -> vpn_wf (force_reconnect_task env v).
Proof.
  intros Hwf. unfold force_reconnect_task. destruct (_ =? _); [apply plain_wf; try done; by apply (set_wf v)|].
  destruct (_ =? _); [by apply do_recovery_wf|]. destruct (_ || _); [|done].
  apply plain_wf; try done. by apply (set_wf v).
Qed.

Lemma connection_stats_wf v : vpn_wf v -> vpn_wf (connection_stats_task v).
Proof.
  intros Hwf. pose proof Hwf as (Hi & _). unfold connection_stats_task.
  destruct (_ =? _) eqn:Hst; [|by apply (set_wf v)]. apply Z.eqb_eq in Hst.
  apply (set_wf (on_client VpnClient_get_connection_stats v)); try done.
  apply (wf_same v); try done. unfold VpnClient_get_connection_stats, client_state_is, on_client.
  destruct (get_state (v_client v) =? S_CONNECTED) eqn:Hc.
  - assert (Hu : c_endpoint_upstream (v_client v) = true).
    { apply Z.eqb_eq in Hc. pose proof (i_client v Hi) as (_ & _ & _ & _ & Hs).
      change (m_current_state (k_fsm (core (v_client v))) = S_CONNECTED) in Hc. rewrite Hc in Hs. apply Hs. }
    rewrite Hu. by apply (inv_same v).
  - destruct Hi. constructor; try done. cbn. apply Forall_app. split; [done|]. by constructor.
Qed.

Lemma run_task_wf t v :
  vpn_wf v -> (is_request_task t -> c_client_listener (v_client v) = true) -> vpn_wf (run_vpn_task env t v).
Proof.
  intros Hwf Ht. pose proof Hwf as (Hi & _). destruct t; cbn [run_vpn_task].
  - apply plain_wf; try done. by apply (set_wf v).
  - by apply plain_wf.
  - by apply plain_wf.
  - apply plain_wf; try done. by apply (set_wf v).
  - apply plain_wf; try done. by apply (set_wf v).
  - by apply force_reconnect_wf.
  - unfold shutdown_cb. apply plain_wf; try done. destruct error; [by apply (set_wf v)|done].
  - unfold vpn_complete_connect_request_task. pose proof (wf_tunnel _ (i_client v Hi)) as Htun. cbn in Htun. rewrite Htun.
    apply request_wf; [done|by apply Ht].
  - apply (call_wf (CI_update_exclusions mode) (on_client (VpnClient_reset_connections (-1)) v)); try done.
    by apply (call_wf (CI_reset_connections (-1))).
  - by apply (call_wf (CI_reset_connections uid)).
  - apply plain_wf; try done.
    apply (set_wf (on_client VpnClient_on_network_change v)); try done. by apply (call_wf CI_network_change).
  - by apply connection_stats_wf.
  - apply submit_wf; [|done]. by apply (call_wf CI_sleep).
  - by apply (set_wf v).
  - by apply (call_wf CI_wake).
  - by apply (call_wf CI_process_packets).
  - by apply abandon_endpoint_wf.
Qed.

Lemma run_next_task_wf v : vpn_wf v -> vpn_wf (run_next_task env v).
Proof.
  intros Hwf. unfold run_next_task. destruct (v_tasks v) as [|t rest] eqn:Ht; [done|].
  pose proof Hwf as (Hi & _). pose proof (i_listener v Hi) as Hl. rewrite Ht in Hl. apply run_task_wf.
  - apply (wf_same v); try done. destruct Hi. constructor; try done. cbn. rewrite Exists_cons in Hl.
    intros [?|?]; auto.
  - intros. apply Hl. right. by left.
Qed.

(** ** Timers and the pinger *)

Lemma expire_requests_inv l : forall v,
  inv v -> c_client_listener (v_client v) = true ->
  let v' := fold_left expire_request l v in
  inv v' /\ v_fsm v' = v_fsm v /\ v_client_state v' = v_client_state v /\ v_pinger v' = v_pinger v.
Proof.
  induction l as [|r l IH]; intros v Hi Hl; cbn [fold_left]; [done|].
  assert (H : inv (expire_request v r) /\ c_client_listener (v_client (expire_request v r)) = true /\
    v_fsm (expire_request v r) = v_fsm v /\ v_client_state (expire_request v r) = v_client_state v /\
    v_pinger (expire_request v r) = v_pinger v).
  { unfold expire_request. destruct (c_kill_switch_on (v_client v)) eqn:Hk.
    - pose proof (inv_answer (CI_reject_request (req_id r)) v Hi Hl eq_refl) as H. split_and!; try done.
      cbn. unfold VpnClient_reject_connect_request. by rewrite Hl.
    - pose proof (inv_answer (CI_complete_request (req_id r) (Some VPN_CA_FORCE_BYPASS)) v Hi I eq_refl) as H.
      assert (Hk' : c_kill_switch_on (VpnClient_complete_connect_request (req_id r) (Some VPN_CA_FORCE_BYPASS) (v_client v)) = false /\
        c_client_listener (VpnClient_complete_connect_request (req_id r) (Some VPN_CA_FORCE_BYPASS) (v_client v)) = true).
      { unfold VpnClient_complete_connect_request, call_tunnel.
        pose proof (wf_tunnel _ (i_client v Hi)) as Ht. cbn in Ht. by rewrite Ht. }
      split_and!; try done; [|apply Hk']. destruct H. constructor; try done. intros Hon.
      change (c_kill_switch_on (VpnClient_complete_connect_request (req_id r) (Some VPN_CA_FORCE_BYPASS) (v_client v)) = true) in Hon.
      destruct Hk'. congruence. }
  destruct H as (H1 & H2 & H3 & H4 & H5). destruct (IH _ H1 H2) as (? & ? & ? & ?). split_and!; [done|congruence..].
Qed.

Lemma expire_requests_timer b l : forall v,
  fold_left expire_request l (v <| v_postponement_window_timer := b |>) =
  (fold_left expire_request l v) <| v_postponement_window_timer := b |>.
Proof.
  induction l as [|r l IH]; intros v; cbn [fold_left]; [done|]. rewrite <- IH. f_equal.
  unfold expire_request. cbn. by destruct (c_kill_switch_on (v_client v)).
Qed.

Lemma postponement_timer_wf v : vpn_wf v -> vpn_wf (postponement_window_timer_cb v).
Proof.
  intros Hwf. pose proof Hwf as (Hi & _). unfold postponement_window_timer_cb. rewrite expire_requests_timer.
  set (l := v_postponed_requests _).
  assert (H : let v' := fold_left expire_request l v in
    inv v' /\ v_fsm v' = v_fsm v /\ v_client_state v' = v_client_state v /\ v_pinger v' = v_pinger v).
  { destruct l as [|r l'] eqn:Hl; [done|]. apply expire_requests_inv; [done|].
    apply (i_listener v Hi). left. unfold l in Hl. cbn in Hl. by rewrite Hl. }
  clearbody l. cbn zeta in H. generalize dependent (fold_left expire_request l v). intros w (H & Hf & Hc & Hp).
  apply (wf_same v); [done| |done..]. destruct H. constructor; try done. cbn. intros [?|?]; [done|auto].
Qed.

Lemma recovery_timer_wf v : vpn_wf v -> vpn_wf (recovery_timer_cb env v).
Proof. intros Hwf. apply do_recovery_wf. by apply (set_wf v). Qed.

(** The pinger's report is one event, in a state the table accepts. *)
Lemma pinger_handler_event r v :
  vpn_wf v -> v_pinger v = P_running ->
  exists ev data w, pinger_handler env r v = vpn_transition env ev data w /\ vpn_wf w /\
    frame (v_client v) (v_client w) /\
    ((ev = CE_PING_FAIL /\ exists e, data = VD_error e) \/
     (ev = CE_PING_READY /\ data = VD_null /\ v_selected_endpoint w <> None)).
Proof.
  intros Hwf Hp. pose proof Hwf as (Hi & Hr & Hs & Hm1 & Hm2). unfold pinger_handler.
  change (v_selected_endpoint (v <| v_pinger := P_reported |>)) with (v_selected_endpoint v).
  rewrite (i_pinger v Hi Hp).
  set (v1 := on_client (fun c => c <| c_tcp_socket := false |> <| c_quic_connector := false |>)
               (v <| v_pinger := P_reported |> <| v_selected_endpoint := None |>)).
  assert (Hq : ~ (get_state v = VPN_SS_WAITING_RECOVERY \/ get_state v = VPN_SS_WAITING_FOR_NETWORK)).
  { intros Hw. destruct (Hm2 Hw) as [_ Hn]. congruence. }
  assert (H1 : inv v1).
  { apply inv_core_same; [done|]. destruct Hi. by constructor. }
  assert (Hw1 : vpn_wf v1).
  { split; [done|]. split; [done|]. split; [done|]. split; [apply Hm1|]. intros Hw. by destruct Hq. }
  assert (Hp1 : v_pinger v1 = P_reported) by done.
  assert (Hc1 : frame (v_client v) (v_client v1)) by (by apply frame_eq).
  clearbody v1. clear Hwf Hp Hi Hr Hs Hm1 Hm2 Hq.
  destruct (negb (ping_ok r)).
  { do 3 eexists. split; [done|]. split; [by apply (set_wf v1)|]. split; [exact Hc1|]. left. eauto. }
  match goal with |- context [if ?b then _ else _] => destruct b end.
  { do 3 eexists. split; [done|]. split; [by apply (set_wf v1)|]. split; [exact Hc1|]. left. eauto. }
  set (v2 := on_client (fun c => if ping_is_quic r then _ else _) _).
  assert (H2 : inv v2).
  { apply inv_core_same; [intros; by destruct (ping_is_quic r)|]. destruct H1. constructor; try done. cbn. by rewrite Hp1. }
  do 3 eexists. split; [done|]. split; [|split; [|by right]].
  - apply (call_wf CI_bypass_availability v2); try done. by apply (wf_same v1).
  - etrans; [exact Hc1|]. etrans; [|by apply (client_step_frame cenv CI_bypass_availability (v_client v2))].
    unfold v2. cbn. destruct (ping_is_quic r); by apply frame_eq.
Qed.

Lemma ping_result_wf r v : vpn_wf v -> v_pinger v = P_running -> vpn_wf (pinger_handler env r v).
Proof.
  intros Hwf Hp. destruct (pinger_handler_event r v Hwf Hp) as (ev & data & w & -> & Hw & _ & Hev).
  destruct Hev as [[-> [e ->]]|(-> & -> & Hsel)]; [by apply plain_wf|by apply ping_ready_wf].
Qed.

(** ** Events of the client *)

Lemma no_session_event delta : forall v,
  omap session_event delta = [] ->
  exists o, fold_left (client_handler env) (raised delta) v = v <| v_out := o |> /\ omap state_report o = told v.
Proof.
  induction delta as [|d delta IH]; intros v Hd; [by exists (v_out v); destruct v|].
  destruct d; try (apply IH, Hd). match type of Hd with context [O_event ?x] => destruct x end; try discriminate Hd.
  destruct (IH (v_emit VO_dns_upstream_unavailable v) Hd) as (o & Ho & Ht). exists o. split; [apply Ho|].
  rewrite Ht. unfold told. cbn. rewrite omap_app. apply app_nil_r.
Qed.

Lemma one_session_event delta e : forall v,
  omap session_event delta = [e] ->
  exists o o', fold_left (client_handler env) (raised delta) v =
               (client_handler env (v <| v_out := o |>) e) <| v_out := o' |> /\
    omap state_report o = told v /\ omap state_report o' = told (client_handler env (v <| v_out := o |>) e).
Proof.
  induction delta as [|d delta IH]; intros v Hd; [done|].
  assert (Hsame : v <| v_out := v_out v |> = v) by (by destruct v).
  destruct d; try (apply IH, Hd). match type of Hd with context [O_event ?x] => destruct x end; try discriminate Hd.
  4:{ destruct (IH (v_emit VO_dns_upstream_unavailable v) Hd) as (o & o' & Ho & H1 & H2). exists o, o'.
      split; [apply Ho|]. split; [|apply H2]. rewrite H1. unfold told. cbn. rewrite omap_app. apply app_nil_r. }
  all: cbn [omap list_omap session_event] in Hd; injection Hd as <- Hd;
    match goal with |- context [client_handler env _ ?e] =>
      destruct (no_session_event delta (client_handler env v e) Hd) as (o & Ho & Ht);
      exists (v_out v), o; rewrite Hsame; split; [apply Ho|by split] end.
Qed.

Lemma client_event_inv c' o s v :
  inv v -> client_wf c' -> c_faults c' = c_faults (v_client v) ->
  c_kill_switch_on c' = c_kill_switch_on (v_client v) ->
  (c_client_listener (v_client v) = true -> c_client_listener c' = true) ->
  clis_of (get_state c') s ->
  inv (v <| v_client := c' |> <| v_out := o |> <| v_client_state := s |>).
Proof.
  intros. apply (inv_same (v <| v_client := c' |> <| v_client_state := s |>)); try done. by apply inv_client_in.
Qed.

Lemma client_event_wf e c' o v :
  vpn_wf v -> client_wf c' -> c_faults c' = c_faults (v_client v) ->
  c_kill_switch_on c' = c_kill_switch_on (v_client v) ->
  (c_client_listener (v_client v) = true -> c_client_listener c' = true) ->
  reports e (get_state (v_client v)) (get_state c') ->
  vpn_wf (client_handler env (v <| v_client := c' |> <| v_out := o |>) e).
Proof.
  intros Hwf Hc Hf Hk Hl Hrep. pose proof Hwf as (Hi & Hr & Hs & Hm1 & Hm2).
  assert (Hset : forall s, clis_of (get_state c') s ->
    inv (v <| v_client := c' |> <| v_out := o |> <| v_client_state := s |>)).
  { intros. by apply client_event_inv. }
  assert (Hgone : get_state c' = S_DISCONNECTED -> forall data, data_fits CE_CLIENT_DISCONNECTED data = true ->
    vpn_wf (vpn_transition env CE_CLIENT_DISCONNECTED data
      (v <| v_client := c' |> <| v_out := o |> <| v_client_state := CLIS_DISCONNECTED |>))).
  { intros Hd data Hfit. apply client_gone_wf; [|done]. split; [by apply Hset|]. do 2 (split; [done|]). split; [done|].
    intros Hw. split; [done|]. apply (Hm2 Hw). }
  destruct e; cbn [reports client_handler] in *; [|by apply Hgone..|done].
  destruct Hrep as [Hold Hnew]. apply client_ready_wf; [|done].
  split; [apply Hset; by left|]. do 2 (split; [done|]). split; [done|].
  intros Hw. destruct (Hm2 Hw) as [Hd _]. pose proof (i_coupled v Hi) as Hcl. rewrite Hd in Hcl. cbn in Hcl.
  rewrite Hcl in Hold. done.
Qed.

Lemma client_input_wf i v :
  vpn_wf v -> is_callback i = true -> client_input_ok i (v_client v) -> vpn_wf (client_input env i v).
Proof.
  intros Hwf Hcb Hok. pose proof Hwf as (Hi & _).
  assert (Hn : not_request i = true /\ may_end i = false) by (by destruct i). destruct Hn as [Hn Hm].
  destruct (client_step_frame cenv i (v_client v) Hn) as (Hk & Hl & delta & Hout & _).
  pose proof (client_step_ok cenv i _ (i_client v Hi) Hok) as Hstep.
  unfold client_input. fold cenv. rewrite Hout, drop_app_length.
  generalize dependent (client_step cenv i (v_client v)). intros c' Hk Hl Hout Hstep.
  destruct Hstep as [Hg|(Hc & Hf & e & He & Hrep)].
  - rewrite Hm in Hg. pose proof Hg as (Hc & Hf & He & _).
    rewrite Hout, omap_app in He. rewrite <- (app_nil_r (omap session_event (c_out (v_client v)))) in He at 2.
    apply app_inv_head in He. destruct (no_session_event delta (v <| v_client := c' |>) He) as (o & -> & _).
    apply (set_wf (v <| v_client := c' |>)); try done. apply (wf_same v); try done.
    apply inv_client; try done. apply (clis_of_good _ _ _ Hg), Hi.
  - rewrite Hout, omap_app in He. apply app_inv_head in He.
    destruct (one_session_event delta e (v <| v_client := c' |>) He) as (o & o' & -> & _).
    eapply set_wf; [by apply (client_event_wf e c' o v)|done..].
Qed.

(** Every input keeps the invariant. *)
Lemma vpn_step_wf i v : vpn_wf v -> vpn_input_ok i v -> vpn_wf (vpn_step env i v).
Proof.
  intros Hwf Hok. destruct i; cbn [vpn_step vpn_input_ok] in *.
  - unfold vpn_connect. destruct (negb _); [done|]. destruct (v_executor_thread v); [done|].
    pose proof (run_event_loop_wf v Hwf) as Hw. destruct (run_event_loop env v) as [b w]. cbn [snd] in Hw.
    destruct b; [by apply submit_wf|done].
  - by apply submit_wf.
  - by apply submit_wf.
  - unfold vpn_listen. destruct listener; [|done]. destruct config; [|done].
    destruct (v_executor_thread v); [|done]. by apply plain_wf.
  - unfold vpn_stop_begin. destruct (v_ev_loop v); [by apply submit_wf|done].
  - unfold vpn_complete_connect_request. destruct (v_ev_loop v); [by apply submit_wf|done].
  - unfold vpn_update_exclusions. destruct (negb _); [done|]. apply submit_wf; [|done].
    apply (wf_same v); try done. destruct Hwf as [[] _]. constructor; try done. cbn.
    intros [?|He]; [auto|]. apply i_listener0. right. apply Exists_exists in He as (t & Ht & Hr).
    apply Exists_exists. exists t. split; [|done]. by apply list_elem_of_filter in Ht as [_ Ht].
  - unfold vpn_reset_connections, submit_if_active. destruct (negb _); [done|by apply submit_wf].
  - unfold vpn_notify_network_change, submit_if_active. destruct (negb _); [done|by apply submit_wf].
  - unfold vpn_request_endpoint_connection_stats. destruct (negb _); [by apply (set_wf v)|by apply submit_wf].
  - unfold vpn_notify_sleep, submit_if_active. destruct (negb _); [done|by apply submit_wf].
  - unfold vpn_notify_wake, submit_if_active. destruct (negb _); [done|by apply submit_wf].
  - unfold vpn_process_client_packets. destruct (negb _); [done|by apply submit_wf].
  - by apply submit_wf.
  - by apply run_next_task_wf.
  - by apply recovery_timer_wf.
  - by apply postponement_timer_wf.
  - by apply ping_result_wf.
  - destruct Hok. by apply client_input_wf.
Qed.
End Actions.
