(* ===== verification/VpnSafety.v ===== *)
(** * The whole system: reachable states

    The manager after [vpn_open] and any sequence of inputs: the invariant of
    [VpnInvariant.v] holds unless an assertion of the client's upstream handler failed, with the kill switch on no connection leaves the
    tunnel unless the routing rules say so, a shutdown stops everything, and the
    sequences of inputs that reach the failing assertions. *)

From S2P Require Import Prelude Fsm VpnTypes PortRanges VpnClient VpnClientProofs ClientFrame Vpn VpnFsm VpnManager VpnSamples VpnFsmProofs VpnInvariant.

(** Everything that can happen; the answers of the other parts may differ at each
    step. *)
Inductive vpn_runs : Vpn -> Prop :=
  | VN_open env split_by_any_of to_integer st v :
      vpn_open env split_by_any_of to_integer st = Some v ->
      c_faults (v_client v) = [] -> vpn_runs v
  | VN_step env i v :
      vpn_runs v -> vpn_input_may i v -> vpn_runs (vpn_step env i v).

(** The same as long as the assertions of [vpn_upstream_handler] hold. *)
Inductive vpn_reachable : Vpn -> Prop :=
  | VR_open env split_by_any_of to_integer st v :
      vpn_open env split_by_any_of to_integer st = Some v ->
      c_faults (v_client v) = [] -> vpn_reachable v
  | VR_step env i v :
      vpn_reachable v -> vpn_input_ok i v -> vpn_reachable (vpn_step env i v).

Lemma open_wf env split_by_any_of to_integer st v :
  vpn_open env split_by_any_of to_integer st = Some v -> c_faults (v_client v) = [] -> vpn_wf v.
Proof.
  unfold vpn_open. destruct (negb _) eqn:Hl; [done|]. apply negb_false_iff in Hl.
  destruct (VpnClient_init _ _ _ _ _) as [e c] eqn:Hinit.
  assert (Hst : code e = VPN_EC_NOERROR -> client_wf c /\ get_state c = S_DISCONNECTED).
  { intros He. assert (e = no_error) as ->.
    { unfold VpnClient_init in Hinit. destruct (negb _) in Hinit; [by simplify_eq|].
      destruct (negb _) in Hinit; by simplify_eq. }
    by eapply init_wf. }
  destruct (Z.eqb_spec (code e) VPN_EC_NOERROR) as [He|]; [|done]. intros [= <-] Hf.
  destruct (Hst He) as [Hwf Hs]. cbn in Hf.
  split; [|done]. constructor; try done; cbn.
  - by rewrite Hf.
  - by intros [?|?%Exists_nil].
Qed.

Lemma reachable_wf v : vpn_reachable v -> vpn_wf v.
Proof. induction 1; [by eapply open_wf|by apply vpn_step_wf]. Qed.

(** ** The kill switch *)

Definition no_bypass (r : RequestOut) : Prop :=
  match r with RO_complete _ (Some VPN_CA_FORCE_BYPASS) => False | _ => True end.

(** The kill switch stays, and the decisions taken meanwhile satisfy [P]. *)
Definition decides (P : RequestOut -> Prop) (c c' : VpnClient) : Prop :=
  c_kill_switch_on c' = c_kill_switch_on c /\
  exists delta, request_log c' = request_log c ++ delta /\ Forall P delta.

#[export] Instance decides_preorder P : PreOrder (decides P).
Proof.
  split.
  - intros c. split; [done|]. exists []. by rewrite app_nil_r.
  - intros c1 c2 c3 [H1 (d1 & H2 & H3)] [H4 (d2 & H5 & H6)]. split; [congruence|].
    exists (d1 ++ d2). rewrite H5, H2, app_assoc. split; [done|]. by apply Forall_app.
Qed.

Lemma frame_decides P c c' : frame c c' -> decides P c c'.
Proof.
  intros Hf. pose proof (frame_request_log c c' Hf) as Hl. split; [apply Hf|]. exists []. by rewrite app_nil_r.
Qed.

Section KillSwitch.
Context (env : VpnEnv).
Implicit Types (v : Vpn) (data : VpnData).

Abbreviation client_frame v v' := (frame (v_client v) (v_client v')).

Lemma client_submit t v : v_client (submit t v) = v_client v.
Proof. unfold submit. by destruct (v_ev_loop v). Qed.

Lemma client_stop_pinging v : v_client (stop_pinging v) = v_client v.
Proof. unfold stop_pinging. by destruct (v_pinger v). Qed.

Lemma frame_disconnect_client v : client_frame v (disconnect_client env v).
Proof.
  unfold disconnect_client. destruct (v_client_state v); [reflexivity|..];
    by apply (client_step_frame (client_env env) CI_disconnect).
Qed.

Lemma frame_Vpn_disconnect v : client_frame v (Vpn_disconnect env v).
Proof. unfold Vpn_disconnect. etrans; [|apply frame_disconnect_client]. by rewrite client_stop_pinging. Qed.

Lemma frame_run_client_connect t v : client_frame v (run_client_connect env t v).
Proof.
  unfold run_client_connect. destruct (make_client_upstream_config v) as [cfg|]; [|reflexivity].
  pose proof (client_step_frame (client_env env) (CI_connect cfg t) (v_client v) eq_refl) as Hf. cbn [client_step] in Hf.
  destruct (VpnClient_connect _ _ _ _) as [e c]. destruct (_ =? _); [done|]. by rewrite client_submit.
Qed.

Lemma frame_complete_connect data v : client_frame v (complete_connect env data v).
Proof.
  unfold complete_connect.
  set (v1 := match v_pending_error v with Some _ => v | None => _ end).
  assert (H1 : client_frame v v1).
  { unfold v1. destruct (v_pending_error v), (data_error env data) as [e|]; try reflexivity.
    destruct (code e =? VPN_EC_NOERROR); [reflexivity|]. apply frame_Vpn_disconnect. }
  clearbody v1. set (v2 := match v_pending_error v1 with Some _ => _ | None => v1 end).
  assert (H2 : v_client v2 = v_client v1) by (unfold v2; destruct (v_pending_error v1); [by destruct (_ && _)|done]).
  clearbody v2. etrans; [exact H1|]. rewrite <- H2. destruct (v_pending_error _); [reflexivity|].
  by apply (client_step_frame (client_env env) CI_do_health_check).
Qed.

Lemma frame_prepare_for_recovery data v : client_frame v (prepare_for_recovery env data v).
Proof.
  unfold prepare_for_recovery. set (w := keep_error env data v).
  assert (Hw : v_client w = v_client v).
  { unfold w, keep_error. destruct (v_pending_error v), (data_error env data) as [e|]; try done. by destruct (_ =? _). }
  rewrite <- Hw. etrans; [apply frame_Vpn_disconnect|]. unfold initiate_recovery, start_recovery_clock.
  destruct (_ <=? _); [by rewrite client_submit|]. by destruct (negb _).
Qed.

Lemma frame_start_listening data v : client_frame v (start_listening env data v).
Proof.
  unfold start_listening. destruct (data_listen env data) as [config|]; [|reflexivity].
  pose proof (client_step_frame (client_env env) (CI_listen config) (v_client v) eq_refl) as Hf. unfold client_step in Hf.
  destruct (VpnClient_listen _ _ _) as [e c]. destruct (negb _); [by rewrite client_submit|done].
Qed.

Lemma client_raise_state v : v_client (raise_state v) = v_client v.
Proof.
  unfold raise_state. destruct (_ =? _); [done|]. destruct (_ =? _); [|by destruct (_ =? _)].
  destruct (c_endpoint_upstream _); cbn; by destruct (v_selected_endpoint v).
Qed.

(** The actions that settle connection requests. *)
Definition settles (a : VpnAction) : bool :=
  match a with
  | X_finalize_recovery | X_complete_request | X_postpone_request | X_reject_request | X_bypass_until_connected => true
  | _ => false
  end.

Lemma frame_action a data v : settles a = false -> client_frame v (vpn_run_action env a data v).
Proof.
  intros Ha. destruct a; try discriminate Ha; cbn [vpn_run_action].
  - unfold run_ping. rewrite <- (client_stop_pinging v). by destruct (r_task _).
  - apply frame_run_client_connect.
  - apply frame_complete_connect.
  - apply frame_complete_connect.
  - unfold retry_connect. rewrite client_submit. etrans; [|apply frame_Vpn_disconnect].
    by destruct (v_connect_retry_info v).
  - apply frame_prepare_for_recovery.
  - apply frame_prepare_for_recovery.
  - unfold reconnect_client. etrans; [apply frame_disconnect_client|apply frame_run_client_connect].
  - unfold do_disconnect. set (w := v <| v_recovery := no_recovery |>).
    change (v_client v) with (v_client w). apply frame_Vpn_disconnect.
  - apply frame_start_listening.
  - exact (frame_Vpn_disconnect v).
  - reflexivity.
  - by rewrite client_raise_state.
Qed.

(** ** Assertions of the client stay recorded *)

Abbreviation grows v v' := (c_faults (v_client v) `prefix_of` c_faults (v_client v')).

Lemma grows_fold {T} (f : Vpn -> T -> Vpn) (l : list T) v :
  (forall v x, grows v (f v x)) -> grows v (fold_left f l v).
Proof. intros Hf. revert v. induction l as [|x l IH]; intros v; [done|]. etrans; [apply (Hf v x)|apply IH]. Qed.

Lemma grows_answers {T} (f : T -> ClientInput) (l : list T) c :
  c_faults c `prefix_of` c_faults (fold_left (fun c x => client_step (client_env env) (f x) c) l c).
Proof. revert c. induction l as [|x l IH]; intros c; [done|]. etrans; [apply (client_step_faults (client_env env) (f x))|apply IH]. Qed.

Lemma grows_finalize_recovery v : grows v (finalize_recovery env v).
Proof.
  unfold finalize_recovery, reset_bypassed_connections, complete_postponed_requests, on_client.
  set (w := stop_pinging _). assert (Hw : grows v w).
  { unfold w. rewrite client_stop_pinging. apply (client_step_faults (client_env env) CI_bypass_availability). }
  clearbody w. etrans; [exact Hw|]. cbn.
  etrans; [apply (grows_answers (fun r => CI_complete_request (req_id r) (action r)) (v_postponed_requests w))|].
  apply (grows_answers CI_reset_connection).
Qed.

Lemma grows_action a data v : grows v (vpn_run_action env a data v).
Proof.
  destruct (settles a) eqn:Hs; [|by apply frame_faults, frame_action].
  destruct a; try discriminate Hs; cbn [vpn_run_action]; [apply grows_finalize_recovery|..];
    unfold with_request; destruct (data_request env data) as [r|]; try done.
  - apply (client_step_faults (client_env env) (CI_complete_request (req_id r) (action r))).
  - apply (client_step_faults (client_env env) (CI_reject_request (req_id r))).
  - apply (client_step_faults (client_env env) (CI_complete_request (req_id r) (Some VPN_CA_FORCE_BYPASS))).
Qed.

Lemma grows_run_opt a data v : grows v (run_opt (vpn_run_action env) a data v).
Proof. destruct a; [apply grows_action|done]. Qed.

Lemma grows_transition ev data v : grows v (vpn_transition env ev data v).
Proof.
  unfold vpn_transition. set (w := if data_fits ev data then v else _).
  assert (Hw : v_client w = v_client v) by (unfold w; by destruct (data_fits ev data)). rewrite <- Hw. clearbody w.
  unfold perform_transition. destruct (m_recursive (get_fsm w)); [done|].
  rewrite run_table_first_match. destruct (first_match _ _ _ _ _) as [e|]; [|done]. unfold take_entry.
  set (w1 := run_opt _ (before_transition e) _ _).
  trans (c_faults (v_client w1)); [exact (grows_run_opt (before_transition e) data (set_recursive true w))|]. clearbody w1.
  set (w2 := if negb (target_state e =? SAME_TARGET_STATE) then set_state (target_state e) w1 else w1).
  assert (H2 : v_client w2 = v_client w1) by (unfold w2; by destruct (negb _)). rewrite <- H2. clearbody w2.
  exact (grows_run_opt (after_transition e) data (set_recursive false w2)).
Qed.

(** The same after a change of members other than the client. *)
Lemma grows_set_transition ev data v w : v_client w = v_client v -> grows v (vpn_transition env ev data w).
Proof. intros <-. apply grows_transition. Qed.

Lemma grows_task t v : grows v (run_vpn_task env t v).
Proof.
  destruct t; cbn [run_vpn_task]; try (by apply grows_set_transition);
    try (by apply (client_step_faults (client_env env) (CI_reset_connections uid)));
    try done.
  - unfold force_reconnect_task. destruct (_ =? _); [by apply grows_set_transition|].
    destruct (_ =? _); [by apply grows_set_transition|]. destruct (_ || _); [by apply grows_set_transition|done].
  - unfold shutdown_cb. destruct error; by apply grows_set_transition.
  - unfold vpn_complete_connect_request_task. apply grows_set_transition. by destruct (c_tunnel (v_client v)).
  - etrans; [|apply (client_step_faults (client_env env) (CI_update_exclusions mode))].
    apply (client_step_faults (client_env env) (CI_reset_connections (-1))).
  - etrans; [apply (client_step_faults (client_env env) CI_network_change)|].
    by apply (grows_set_transition _ _ (on_client VpnClient_on_network_change v)).
  - unfold connection_stats_task. destruct (_ =? _); [|done]. cbn. unfold VpnClient_get_connection_stats.
    destruct (client_state_is _ _); [destruct (c_endpoint_upstream _); [done|]|]; by eexists.
  - rewrite client_submit. apply (client_step_faults (client_env env) CI_sleep).
  - apply (client_step_faults (client_env env) CI_wake).
  - apply (client_step_faults (client_env env) CI_process_packets).
  - unfold abandon_endpoint_task. set (b := match v_selected_endpoint v with Some _ => _ | None => _ end).
    destruct (negb (existsb _ _)), b; cbn [negb]; done || by apply grows_set_transition.
Qed.

Lemma grows_handler v e : grows v (client_handler env v e).
Proof. destruct e; cbn [client_handler]; done || by apply grows_set_transition. Qed.

Lemma grows_client_input i v : c_faults (client_step (client_env env) i (v_client v)) `prefix_of` c_faults (v_client (client_input env i v)).
Proof.
  unfold client_input. set (w := v <| v_client := _ |>). change (client_step (client_env env) i (v_client v)) with (v_client w) at 1.
  apply grows_fold, grows_handler.
Qed.

Lemma grows_expire l v : grows v (fold_left expire_request l v).
Proof.
  apply grows_fold. intros w r. unfold expire_request. destruct (c_kill_switch_on _).
  - apply (client_step_faults (client_env env) (CI_reject_request (req_id r))).
  - apply (client_step_faults (client_env env) (CI_complete_request (req_id r) (Some VPN_CA_FORCE_BYPASS))).
Qed.

Lemma grows_pinger r v : grows v (pinger_handler env r v).
Proof.
  unfold pinger_handler. set (w := match v_selected_endpoint _ with Some _ => _ | None => _ end).
  assert (Hw : v_client w = v_client v) by (unfold w; by destruct (v_selected_endpoint _)). clearbody w. rewrite <- Hw.
  destruct (negb (ping_ok r)); [by etrans; [|apply grows_transition]|].
  destruct (negb _); [by etrans; [|apply grows_transition]|].
  etrans; [|apply grows_transition].
  etrans; [|apply (client_step_faults (client_env env) CI_bypass_availability)]. cbn. by destruct (ping_is_quic r).
Qed.

Lemma client_submit_if_active t v : v_client (submit_if_active t v) = v_client v.
Proof. unfold submit_if_active. destruct (negb _); [done|apply client_submit]. Qed.

Lemma grows_step i v : grows v (vpn_step env i v).
Proof.
  destruct i; cbn [vpn_step]; rewrite ?client_submit_if_active; try done.
  - unfold vpn_connect, run_event_loop. destruct (negb _); [done|]. destruct (v_executor_thread v); [done|].
    set (w := if v_ev_loop v then v else _). assert (Hw : v_client w = v_client v) by (unfold w; by destruct (v_ev_loop v)).
    rewrite <- Hw. clearbody w. destruct (v_ev_loop w), (event_loop_starts env); cbn [negb snd]; by rewrite ?client_submit.
  - unfold vpn_force_reconnect. by rewrite client_submit.
  - unfold vpn_force_disconnect. by rewrite client_submit.
  - unfold vpn_listen. destruct listener; [|done]. destruct config; [|done].
    destruct (v_executor_thread v); [apply grows_transition|done].
  - unfold vpn_stop_begin. destruct (v_ev_loop v); by rewrite ?client_submit.
  - unfold vpn_complete_connect_request. destruct (v_ev_loop v); by rewrite ?client_submit.
  - unfold vpn_update_exclusions. destruct (negb _); by rewrite ?client_submit.
  - unfold vpn_reset_connections. by rewrite client_submit_if_active.
  - unfold vpn_notify_network_change. by rewrite client_submit_if_active.
  - unfold vpn_request_endpoint_connection_stats. destruct (negb _); by rewrite ?client_submit.
  - unfold vpn_notify_sleep. by rewrite client_submit_if_active.
  - unfold vpn_notify_wake. by rewrite client_submit_if_active.
  - unfold vpn_process_client_packets. destruct (negb _); cbn [snd]; by rewrite ?client_submit.
  - unfold vpn_abandon_endpoint. by rewrite client_submit.
  - unfold run_next_task. destruct (v_tasks v) as [|t rest]; [done|].
    set (w := v <| v_tasks := rest |>). exact (grows_task t w).
  - by apply grows_set_transition.
  - set (w := v <| v_postponement_window_timer := false |>). exact (grows_expire (v_postponed_requests w) w).
  - apply grows_pinger.
  - etrans; [apply client_step_faults|apply grows_client_input].
Qed.

Lemma kill_answers {T} (f : T -> VpnClient -> VpnClient) (l : list T) :
  (forall x c, c_kill_switch_on (f x c) = c_kill_switch_on c) ->
  forall c, c_kill_switch_on (fold_left (fun c x => f x c) l c) = c_kill_switch_on c.
Proof. intros Hf. induction l as [|x l IH]; intros c; cbn; [done|]. by rewrite IH. Qed.

Lemma kill_complete id a c :
  c_kill_switch_on (VpnClient_complete_connect_request id a c) = c_kill_switch_on c.
Proof. unfold VpnClient_complete_connect_request, call_tunnel. by destruct (c_tunnel c). Qed.

Lemma kill_reset id c : c_kill_switch_on (VpnClient_reset_connection id c) = c_kill_switch_on c.
Proof. unfold VpnClient_reset_connection, call_tunnel. by destruct (c_tunnel c). Qed.

(** A postponed request is completed with its own action. *)
Lemma decides_finalize_recovery v :
  inv v -> decides no_bypass (v_client v) (v_client (finalize_recovery env v)).
Proof.
  intros Hi. pose proof (wf_tunnel _ (i_client v Hi)) as Ht. split.
  - unfold finalize_recovery, reset_bypassed_connections, complete_postponed_requests, on_client.
    set (w := stop_pinging _). assert (Hw : c_kill_switch_on (v_client w) = c_kill_switch_on (v_client v)).
    { unfold w. rewrite client_stop_pinging. by apply (client_step_frame (client_env env) CI_bypass_availability). }
    clearbody w. cbn. rewrite (kill_answers VpnClient_reset_connection) by apply kill_reset.
    rewrite (kill_answers (fun r => VpnClient_complete_connect_request (req_id r) (action r))); [done|].
    intros. apply kill_complete.
  - destruct (finalize_recovery_log env v Ht) as [Hlog _]. rewrite Hlog. eexists. split; [done|].
    apply Forall_app. split; apply Forall_map; [|by apply Forall_forall].
    eapply Forall_impl; [apply (i_actions v Hi)|]. intros r Hr. cbn in *. by destruct (action r) as [[]|].
Qed.

(** A transition other than for a request. *)
Lemma decides_transition ev data v :
  inv v -> m_recursive (v_fsm v) = false -> data_fits ev data = true -> ev <> CE_COMPLETE_REQUEST ->
  decides no_bypass (v_client v) (v_client (vpn_transition env ev data v)).
Proof.
  intros Hi Hr Hfit Hev. rewrite vpn_transition_eq by done.
  destruct (taken env ev data v) as [e|] eqn:He; [|reflexivity].
  unfold taken in He. apply first_match_Some in He as [Hin Hm].
  pose proof table_check as Ht. rewrite forallb_forall in Ht. specialize (Ht e (proj1 (list_elem_of_In _ _) Hin)).
  unfold entry_matches in Hm. destruct (_ && _) in Hm; [done|].
  destruct (Z.eqb_spec ev (event e)) as [->|]; [|done].
  unfold entry_check in Ht. rewrite (proj2 (Z.eqb_neq _ _) Hev) in Ht. cbn [orb] in Ht.
  apply andb_true_iff in Ht as [Hb Ha]. unfold take_entry.
  set (w := run_opt _ (before_transition e) _ _).
  assert (Hw : decides no_bypass (v_client v) (v_client w)).
  { unfold w, before_check in *. destruct (before_transition e) as [a|]; [cbn [run_opt]|reflexivity].
    change (v_client v) with (v_client (set_recursive true v)).
    destruct (settles a) eqn:Hs; [|by apply frame_decides, frame_action].
    destruct a; try discriminate Hs; try (by apply Z.eqb_eq in Hb).
    apply decides_finalize_recovery. by apply inv_set_fsm. }
  clearbody w. assert (Hafter : forall u, v_client u = v_client w ->
    v_client (run_opt (vpn_run_action env) (after_transition e) data u) = v_client w).
  { intros u Hu. destruct (target_state e =? SAME_TARGET_STATE).
    - unfold stay_check in Ha. by destruct (after_transition e).
    - unfold move_check in Ha. destruct (after_transition e) as [[]|]; try done. cbn. by rewrite client_raise_state. }
  etrans; [exact Hw|]. change (decides no_bypass (v_client w) (v_client
    (run_opt (vpn_run_action env) (after_transition e) data
      (set_recursive false (if negb (target_state e =? SAME_TARGET_STATE) then set_state (target_state e) w else w))))).
  rewrite Hafter; [reflexivity|]. by destruct (target_state e =? SAME_TARGET_STATE).
Qed.

Abbreviation no_leak v v' := (decides no_bypass (v_client v) (v_client v')).

Lemma wf_transition ev data v :
  vpn_wf v -> data_fits ev data = true -> ev <> CE_COMPLETE_REQUEST -> no_leak v (vpn_transition env ev data v).
Proof. intros (Hi & Hr & _). by apply decides_transition. Qed.

(** The same after a change of members other than the client. *)
Lemma set_transition ev data v w :
  vpn_wf w -> v_client w = v_client v -> data_fits ev data = true -> ev <> CE_COMPLETE_REQUEST ->
  no_leak v (vpn_transition env ev data w).
Proof. intros Hwf <- **. by apply wf_transition. Qed.

Lemma call_no_leak i v : not_request i = true -> no_leak v (on_client (client_step (client_env env) i) v).
Proof. intros Hi. by apply frame_decides, client_step_frame. Qed.

Lemma no_leak_abandon endpoint v : vpn_wf v -> no_leak v (abandon_endpoint_task env endpoint v).
Proof.
  intros Hwf. unfold abandon_endpoint_task. set (b := match v_selected_endpoint v with Some _ => _ | None => _ end).
  set (v1 := if b then _ else v).
  assert (H1 : vpn_wf v1) by (unfold v1; destruct b; [by apply drop_selected_wf|done]).
  assert (Hc : v_client v1 = v_client v) by (unfold v1; by destruct b). clearbody b v1. rewrite <- Hc.
  destruct (negb (existsb _ _)); [|destruct b; cbn [negb]; [|reflexivity]];
    (apply set_transition; [by apply (set_wf v1)|done..]).
Qed.

Lemma no_leak_force_reconnect v : vpn_wf v -> no_leak v (force_reconnect_task env v).
Proof.
  intros Hwf. unfold force_reconnect_task. destruct (_ =? _); [apply set_transition; [by apply (set_wf v)|done..]|].
  destruct (_ =? _); [by apply wf_transition|]. destruct (_ || _); [|reflexivity].
  apply set_transition; [by apply (set_wf v)|done..].
Qed.

Lemma no_leak_task t v : vpn_wf v -> ~ is_request_task t -> no_leak v (run_vpn_task env t v).
Proof.
  intros Hwf Ht. destruct t; cbn [run_vpn_task].
  - apply set_transition; [by apply (set_wf v)|done..].
  - by apply wf_transition.
  - by apply wf_transition.
  - apply set_transition; [by apply (set_wf v)|done..].
  - apply set_transition; [by apply (set_wf v)|done..].
  - by apply no_leak_force_reconnect.
  - unfold shutdown_cb. destruct error; [apply set_transition; [by apply (set_wf v)|done..]|by apply wf_transition].
  - by destruct Ht.
  - etrans; [|apply (call_no_leak (CI_update_exclusions mode) (on_client (VpnClient_reset_connections (-1)) v))]; [|done].
    by apply (call_no_leak (CI_reset_connections (-1))).
  - by apply (call_no_leak (CI_reset_connections uid)).
  - etrans; [by apply (call_no_leak CI_network_change)|]. apply set_transition; [|done..].
    apply (set_wf (on_client VpnClient_on_network_change v)); try done. by apply (call_wf env CI_network_change).
  - unfold connection_stats_task. destruct (_ =? _); [|reflexivity]. apply frame_decides. cbn.
    unfold VpnClient_get_connection_stats. destruct (client_state_is _ _); [|apply frame_fault].
    destruct (c_endpoint_upstream _); [reflexivity|apply frame_fault].
  - rewrite client_submit. by apply (call_no_leak CI_sleep).
  - reflexivity.
  - by apply (call_no_leak CI_wake).
  - by apply (call_no_leak CI_process_packets).
  - by apply no_leak_abandon.
Qed.

Lemma no_leak_expire l : forall v,
  inv v -> c_client_listener (v_client v) = true -> c_kill_switch_on (v_client v) = true ->
  no_leak v (fold_left expire_request l v).
Proof.
  induction l as [|r l IH]; intros v Hi Hl Hk; cbn [fold_left]; [reflexivity|].
  assert (Hstep : decides no_bypass (v_client v) (v_client (expire_request v r)) /\ inv (expire_request v r) /\
    c_client_listener (v_client (expire_request v r)) = true).
  { unfold expire_request. rewrite Hk.
    pose proof (inv_answer env (CI_reject_request (req_id r)) v Hi Hl eq_refl) as H1.
    split; [|split; [done|]]; cbn; unfold VpnClient_reject_connect_request; rewrite Hl; [|done].
    split; [done|]. rewrite log_emit. eexists. split; [done|]. by repeat constructor. }
  destruct Hstep as (Hd & H1 & H2). etrans; [exact Hd|]. apply IH; [done..|]. destruct Hd as [Hd _]. congruence.
Qed.

(** What the application's routing rules forced out of the tunnel. *)
Definition ruled_out (i : VpnInput) v (r : RequestOut) : Prop :=
  i = VI_run_task /\
  exists result rest, v_tasks v = VT_complete_request result :: rest /\
    r = RO_complete (req_id result) (Some VPN_CA_FORCE_BYPASS) /\
    tunnel_finalize_connect_action env result = Some VPN_CA_FORCE_BYPASS.

Lemma no_leak_client_event e c' o v :
  vpn_wf v -> client_wf c' -> c_faults c' = c_faults (v_client v) ->
  c_kill_switch_on c' = c_kill_switch_on (v_client v) ->
  (c_client_listener (v_client v) = true -> c_client_listener c' = true) ->
  reports e (get_state (v_client v)) (get_state c') ->
  decides no_bypass c' (v_client (client_handler env (v <| v_client := c' |> <| v_out := o |>) e)).
Proof.
  intros (Hi & Hr & _) Hc Hf Hk Hl Hrep. destruct e; cbn [reports client_handler] in *; [|..|done].
  1: destruct Hrep as [_ Hrep].
  all: match goal with |- decides _ _ (v_client (vpn_transition _ _ _ ?w)) =>
         apply (decides_transition _ _ w); [apply client_event_inv; try done; by left|done..] end.
Qed.

Lemma no_leak_client i v :
  vpn_wf v -> is_callback i = true -> client_input_ok i (v_client v) -> no_leak v (client_input env i v).
Proof.
  intros Hwf Hcb Hok. pose proof Hwf as (Hi & _).
  assert (Hn : not_request i = true) by (by destruct i).
  pose proof (client_step_frame (client_env env) i (v_client v) Hn) as Hframe.
  pose proof Hframe as (Hk & Hl & delta & Hout & _).
  pose proof (client_step_ok (client_env env) i _ (i_client v Hi) Hok) as Hstep.
  unfold client_input. rewrite Hout, drop_app_length.
  generalize dependent (client_step (client_env env) i (v_client v)). intros c' Hframe Hk Hl Hout Hstep.
  etrans; [apply (frame_decides _ _ _ Hframe)|].
  destruct Hstep as [(Hc & Hf & He & _)|(Hc & Hf & e & He & Hrep)].
  - rewrite Hout, omap_app in He. rewrite <- (app_nil_r (omap session_event (c_out (v_client v)))) in He at 2.
    apply app_inv_head in He. destruct (no_session_event env delta (v <| v_client := c' |>) He) as (o & -> & _). reflexivity.
  - rewrite Hout, omap_app in He. apply app_inv_head in He.
    destruct (one_session_event env delta e (v <| v_client := c' |>) He) as (o & o' & -> & _).
    by apply (no_leak_client_event e c' o v).
Qed.

Lemma decides_mono (P Q : RequestOut -> Prop) c c' :
  (forall r, P r -> Q r) -> decides P c c' -> decides Q c c'.
Proof. intros HPQ [Hk (d & Hd & HP)]. split; [done|]. exists d. split; [done|]. by eapply Forall_impl. Qed.

(** A request with the kill switch on. *)
Lemma request_decides result v :
  vpn_wf v -> c_kill_switch_on (v_client v) = true -> c_client_listener (v_client v) = true ->
  decides (fun r => no_bypass r \/ (r = RO_complete (req_id result) (Some VPN_CA_FORCE_BYPASS) /\
                                    tunnel_finalize_connect_action env result = Some VPN_CA_FORCE_BYPASS))
    (v_client v) (v_client (vpn_complete_connect_request_task env result v)).
Proof.
  intros (Hi & Hr & _) Hk Hl. unfold vpn_complete_connect_request_task.
  pose proof (wf_tunnel _ (i_client v Hi)) as Ht. cbn in Ht. rewrite Ht.
  rewrite request_decision_eq by done. unfold is_kill_switch_on. rewrite Hk.
  destruct (can_complete _ _ _) eqn:Hc; [|destruct (should_postpone v); [reflexivity|]].
  - split; [apply kill_complete|]. cbn. destruct (log_complete (req_id result) (tunnel_finalize_connect_action env result) (v_client v) Ht) as [-> _].
    eexists. split; [done|]. constructor; [|done].
    destruct (tunnel_finalize_connect_action env result) as [[]|]; cbn; auto.
  - cbn. unfold VpnClient_reject_connect_request. rewrite Hl. split; [done|]. rewrite log_emit.
    eexists. split; [done|]. constructor; [by left|done].
Qed.

Lemma run_next_task_decides v :
  vpn_wf v -> c_kill_switch_on (v_client v) = true ->
  decides (fun r => no_bypass r \/ ruled_out VI_run_task v r) (v_client v) (v_client (run_next_task env v)).
Proof.
  intros Hwf Hk. pose proof Hwf as (Hi & _). unfold run_next_task.
  destruct (v_tasks v) as [|t rest] eqn:Ht; [reflexivity|].
  pose proof (i_listener v Hi) as Hl. rewrite Ht in Hl.
  assert (Hwf' : vpn_wf (v <| v_tasks := rest |>)).
  { apply (wf_same v); try done. destruct Hi. constructor; try done. cbn. rewrite Exists_cons in Hl. intros [?|?]; auto. }
  assert ((exists r, t = VT_complete_request r) \/ ~ is_request_task t) as [Hr|Hn] by (destruct t; eauto).
  all: change (v_client v) with (v_client (v <| v_tasks := rest |>)).
  - destruct Hr as [r ->]. eapply decides_mono; [|apply request_decides; [done..|]].
    + intros x [?|[-> ?]]; [by left|right]. split; [done|]. rewrite Ht. eauto.
    + apply Hl. right. by left.
  - eapply decides_mono; [|by apply no_leak_task]. by left.
Qed.

Lemma no_leak_postponement_timer v :
  vpn_wf v -> c_kill_switch_on (v_client v) = true -> no_leak v (postponement_window_timer_cb v).
Proof.
  intros (Hi & _) Hk. unfold postponement_window_timer_cb. rewrite expire_requests_timer.
  set (l := v_postponed_requests _). destruct l as [|r l'] eqn:Hl; [reflexivity|].
  apply no_leak_expire; [done| |done]. apply (i_listener v Hi). left. unfold l in Hl. cbn in Hl. by rewrite Hl.
Qed.

Lemma no_leak_ping_result r v : vpn_wf v -> v_pinger v = P_running -> no_leak v (pinger_handler env r v).
Proof.
  intros Hwf Hp. destruct (pinger_handler_event env r v Hwf Hp) as (ev & data & w & -> & Hw & Hf & Hev).
  etrans; [apply (frame_decides _ _ _ Hf)|].
  destruct Hev as [[-> [e ->]]|(-> & -> & _)]; by apply wf_transition.
Qed.

Lemma step_decides i v :
  vpn_wf v -> vpn_input_ok i v -> c_kill_switch_on (v_client v) = true ->
  decides (fun r => no_bypass r \/ ruled_out i v r) (v_client v) (v_client (vpn_step env i v)).
Proof.
  intros Hwf Hok Hk.
  destruct i; lazymatch goal with
    | |- context [VI_run_task] => idtac
    | _ => apply (decides_mono no_bypass); [by left|]
    end; cbn [vpn_step vpn_input_ok] in *.
  - unfold vpn_connect. destruct (negb _); [reflexivity|]. destruct (v_executor_thread v); [reflexivity|].
    unfold run_event_loop. pose proof (i_loop v (proj1 Hwf)) as Hl. rewrite Hl. cbn iota. rewrite Hl. cbn [negb].
    destruct (event_loop_starts env); [|reflexivity]. cbn [negb snd]. by rewrite client_submit.
  - unfold vpn_force_reconnect. by rewrite client_submit.
  - unfold vpn_force_disconnect. by rewrite client_submit.
  - unfold vpn_listen. destruct listener; [|reflexivity]. destruct config; [|reflexivity].
    destruct (v_executor_thread v); [|reflexivity]. by apply wf_transition.
  - unfold vpn_stop_begin. destruct (v_ev_loop v); [by rewrite client_submit|reflexivity].
  - unfold vpn_complete_connect_request. destruct (v_ev_loop v); [by rewrite client_submit|reflexivity].
  - unfold vpn_update_exclusions. destruct (negb _); [reflexivity|by rewrite client_submit].
  - unfold vpn_reset_connections. by rewrite client_submit_if_active.
  - unfold vpn_notify_network_change. by rewrite client_submit_if_active.
  - unfold vpn_request_endpoint_connection_stats. destruct (negb _); [reflexivity|by rewrite client_submit].
  - unfold vpn_notify_sleep. by rewrite client_submit_if_active.
  - unfold vpn_notify_wake. by rewrite client_submit_if_active.
  - unfold vpn_process_client_packets. destruct (negb _); [reflexivity|]. cbn [snd]. by rewrite client_submit.
  - unfold vpn_abandon_endpoint. by rewrite client_submit.
  - by apply run_next_task_decides.
  - unfold recovery_timer_cb. apply set_transition; [by apply (set_wf v)|done..].
  - by apply no_leak_postponement_timer.
  - by apply no_leak_ping_result.
  - destruct Hok. by apply no_leak_client.
Qed.
End KillSwitch.

(** C2.  The kill switch does not leak: in every reachable state with the kill
    switch on, whatever happens next, the kill switch stays on, and a connection is
    told to bypass the tunnel only when the next task completes a request that the
    tunnel's own routing resolved to a forced bypass.  Neither an expired
    postponement window nor a finished recovery nor a request that arrives while
    the session is down ever sends a connection outside. *)
Theorem kill_switch_does_not_leak env i v :
  vpn_reachable v -> vpn_input_ok i v -> c_kill_switch_on (v_client v) = true ->
  let v' := vpn_step env i v in
  c_kill_switch_on (v_client v') = true /\
  exists delta, request_log (v_client v') = request_log (v_client v) ++ delta /\
    forall id, RO_complete id (Some VPN_CA_FORCE_BYPASS) ∈ delta ->
      i = VI_run_task /\
      exists result rest, v_tasks v = VT_complete_request result :: rest /\ req_id result = id /\
        tunnel_finalize_connect_action env result = Some VPN_CA_FORCE_BYPASS.
Proof.
  intros Hv Hok Hk v'. destruct (step_decides env i v (reachable_wf v Hv) Hok Hk) as [Hk' (delta & Hd & HP)].
  split; [unfold v'; congruence|]. exists delta. split; [done|]. intros id Hin.
  rewrite Forall_forall in HP. destruct (HP _ Hin) as [[]|[Hi (result & rest & Ht & Heq & Hf)]].
  split; [done|]. injection Heq as ->. eauto.
Qed.

(** ** All runs *)

Lemma reachable_runs v : vpn_reachable v -> vpn_runs v.
Proof.
  induction 1 as [env sp ti st v Hi Hf|env i v _ IH Hi]; [by eapply VN_open|]. apply VN_step; [done|].
  destruct i; try done. destruct Hi as [? Hi]. split; [done|]. by apply client_input_ok_may.
Qed.

Lemma vpn_input_split env i v :
  vpn_input_may i v -> vpn_input_ok i v \/ upstream_asserted (v_client (vpn_step env i v)).
Proof.
  destruct i; try (by left). intros [Hcb Hi]. destruct (client_input_split (client_env env) i _ Hi) as [Hok|Ha]; [by left|right].
  eapply asserted_grows; [apply grows_client_input|done].
Qed.

(** C1.  Whatever the application, the network, the endpoint and the timers do,
    in every order: either one of the two assertions of the client's
    [vpn_upstream_handler] has failed, or all of this holds: the client's invariant
    holds; the manager's view of the client
    is right; [VPN_SS_CONNECTED] means a connected client, and in
    [VPN_SS_WAITING_RECOVERY] and [VPN_SS_WAITING_FOR_NETWORK] neither client nor
    pinger is active; postponed requests always have a running timer that will
    settle them and a listener to settle them with, and none of them is a forced
    bypass; with the kill switch on no connection is marked as bypassed; a running
    pinger never meets a selected endpoint; and no assertion of the code fails
    other than the four of [known_fault] and [known_client_fault]. *)
Theorem vpn_runs_wf v : vpn_runs v -> upstream_asserted (v_client v) \/ (vpn_reachable v /\ vpn_wf v).
Proof.
  intros Hv. assert (upstream_asserted (v_client v) \/ vpn_reachable v) as [H|H]; [|by left|right; by split; [|apply reachable_wf]].
  induction Hv as [env sp ti st v Hi Hf|env i v Hr [IH|IH] Hi].
  - right. by eapply VR_open.
  - left. eapply asserted_grows; [apply grows_step|done].
  - destruct (vpn_input_split env i v Hi); [right; by apply VR_step|by left].
Qed.

(** ** Fatal errors of the session *)

(** C32.  From every reachable state with a session or an attempt under way, a fatal
    error of the client (authentication, location, certificate) ends everything in one
    step: the session is disconnected, the client itself is disconnected, no recovery
    is scheduled, and the application is told exactly one state in that step,
    [VPN_SS_DISCONNECTED], with the error that was pending already or else, while
    connecting, the fatal error, and in the other states no error. *)
Theorem fatal_error_disconnects env i e v :
  vpn_reachable v -> vpn_input_ok (VI_client i) v -> 1 <= get_state v <= 5 ->
  let c := v_client v in
  EVENT_ERROR e ∈ raised (drop (length (c_out c)) (c_out (client_step (client_env env) i c))) ->
  is_fatal_error_code (code e) = true ->
  let v' := vpn_step env (VI_client i) v in
  get_state v' = VPN_SS_DISCONNECTED /\ v_client_state v' = CLIS_DISCONNECTED /\
  get_state (v_client v') = S_DISCONNECTED /\ v_recovery v' = no_recovery /\
  told v' = told v ++ [(VPN_SS_DISCONNECTED, SI_error (ending_error e v))].
Proof.
  intros Hv [Hcb Hok] Hs c Hin He. pose proof (reachable_wf v Hv) as (Hi & Hr & _).
  assert (Hn : not_request i = true) by (by destruct i).
  destruct (client_step_frame (client_env env) i c Hn) as (_ & _ & delta & Hout & _).
  pose proof (client_step_ok (client_env env) i _ (i_client v Hi) Hok) as Hstep.
  cbn [vpn_step]. unfold client_input. fold c. fold c in Hstep. rewrite Hout, drop_app_length in *.
  generalize dependent (client_step (client_env env) i c). intros c' Hout Hstep.
  assert (Hse : EVENT_ERROR e ∈ omap session_event delta).
  { apply list_elem_of_omap in Hin as (o & Ho & Hev). apply list_elem_of_omap. exists o. split; [done|].
    by destruct o; simplify_eq. }
  destruct Hstep as [(_ & _ & Hd & _)|(_ & _ & e' & Hd & Hrep)]; rewrite Hout, omap_app in Hd.
  - rewrite <- (app_nil_r (omap session_event (c_out c))) in Hd at 2. apply app_inv_head in Hd. rewrite Hd in Hse. by apply elem_of_nil in Hse.
  - apply app_inv_head in Hd. rewrite Hd in Hse. apply list_elem_of_singleton in Hse as <-.
    destruct (one_session_event env delta _ (v <| v_client := c' |>) Hd) as (o & o' & -> & Ho & Ho').
    set (w := v <| v_client := c' |> <| v_out := o |>) in *.
    destruct (fatal_handled env e w) as (H1 & H2 & H3 & H4 & H5); [done..|].
    generalize dependent (client_handler env w (EVENT_ERROR e)). intros w' Ho' H1 H2 H3 H4 H5.
    split_and!; [done..|exact (eq_trans (f_equal get_state H2) Hrep)|done|].
    trans (omap state_report o'); [done|]. rewrite Ho', H5. change (told w) with (omap state_report o). by rewrite Ho.
Qed.

(** ** Shutdown *)

Lemma shutdown_entry env v :
  0 <= get_state v <= 5 ->
  exists e, taken env CE_SHUTDOWN VD_null v = Some e /\ before_transition e = Some X_do_disconnect /\
    ((get_state v = VPN_SS_DISCONNECTED /\ target_state e = SAME_TARGET_STATE /\ after_transition e = None) \/
     (target_state e = VPN_SS_DISCONNECTED /\ after_transition e = Some X_raise_state)).
Proof.
  intros Hs. rewrite taken_candidates. pattern (get_state v). apply state_cases; [done|..]; cbn; eexists;
    (split; [reflexivity|]); (split; [done|]); [by left|by right..].
Qed.

Lemma shutdown_ends env v :
  vpn_wf v ->
  let v' := vpn_transition env CE_SHUTDOWN VD_null v in
  get_state v' = VPN_SS_DISCONNECTED /\ quiet v' /\ v_recovery v' = no_recovery.
Proof.
  intros (Hi & Hr & Hs & _). cbn zeta. destruct (shutdown_entry env v Hs) as (e & He & Hb & Ht).
  rewrite vpn_transition_eq, He by done. unfold take_entry. rewrite Hb. cbn [run_opt vpn_run_action].
  destruct (inv_do_disconnect env (set_recursive true v)) as [_ Hq]; [by apply inv_set_fsm|].
  pose proof (fsm_action env X_do_disconnect VD_null (set_recursive true v)) as Hf. cbn [vpn_run_action] in Hf.
  assert (Hrec : v_recovery (do_disconnect env (set_recursive true v)) = no_recovery)
    by (unfold do_disconnect; by rewrite (proj2 (Vpn_disconnect_frame env _))).
  generalize dependent (do_disconnect env (set_recursive true v)). intros w Hq Hf Hrec.
  destruct Ht as [(Hst & -> & ->)|[-> ->]]; cbn [run_opt].
  - rewrite Z.eqb_refl. cbn [negb]. split; [|done]. unfold get_state. cbn. by rewrite Hf.
  - done.
Qed.

(** C26.  The shutdown task ends everything from every reachable state: the
    session is down, the client is disconnected, no pinger runs and no recovery is
    scheduled. *)
Theorem shutdown_tears_down env error v :
  vpn_reachable v ->
  let v' := run_vpn_task env (VT_shutdown error) v in
  get_state v' = VPN_SS_DISCONNECTED /\ v_client_state v' = CLIS_DISCONNECTED /\ v_pinger v' = P_none /\
  get_state (v_client v') = S_DISCONNECTED /\ v_recovery v' = no_recovery.
Proof.
  intros Hv%reachable_wf. cbn [run_vpn_task]. unfold shutdown_cb.
  set (w := match error with Some _ => _ | None => v end).
  assert (Hw : vpn_wf w) by (unfold w; destruct error; [by apply (set_wf v)|done]). clearbody w. clear v Hv.
  assert (Hwf' : vpn_wf (vpn_transition env CE_SHUTDOWN VD_null w)) by (by apply plain_wf).
  destruct (shutdown_ends env w Hw) as (Hs & [Hc Hp] & Hr). split_and!; try done.
  pose proof (i_coupled _ (proj1 Hwf')) as Hcl. by rewrite Hc in Hcl.
Qed.

Lemma finalize_disconnect_releases c :
  let c' := VpnClient_finalize_disconnect c in
  get_state c' = S_DISCONNECTED /\ c_client_listener c' = false /\ c_tunnel c' = false /\
  c_endpoint_upstream c' = false /\ c_endpoint_connector c' = None /\ c_deferred_tasks c' = [] /\
  c_dns_proxy_listener c' = false.
Proof.
  cbn zeta. unfold VpnClient_finalize_disconnect.
  set (c1 := dns_proxy_listener_deinit c).
  assert (H1 : c_dns_proxy_listener c1 = false).
  { unfold c1, dns_proxy_listener_deinit. by destruct (c_dns_proxy_listener c) eqn:?. }
  clearbody c1. set (c2 := if c_endpoint_upstream c1 then _ else c1).
  assert (H2 : c_dns_proxy_listener c2 = false /\ c_endpoint_upstream c2 = false).
  { unfold c2. by destruct (c_endpoint_upstream c1) eqn:?. }
  clearbody c2. set (c3 := if c_bypass_upstream c2 then _ else c2).
  assert (H3 : c_dns_proxy_listener c3 = false /\ c_endpoint_upstream c3 = false).
  { unfold c3. by destruct (c_bypass_upstream c2). }
  clearbody c3. set (c4 := if c_client_listener c3 then _ else c3).
  assert (H4 : c_dns_proxy_listener c4 = false /\ c_endpoint_upstream c4 = false /\ c_client_listener c4 = false).
  { unfold c4. destruct H3. by destruct (c_client_listener c3) eqn:?. }
  clearbody c4. set (c5 := if c_tunnel c4 then _ else c4).
  assert (H5 : c_dns_proxy_listener c5 = false /\ c_endpoint_upstream c5 = false /\ c_client_listener c5 = false /\
    c_tunnel c5 = false).
  { unfold c5. destruct H4 as (? & ? & ?). by destruct (c_tunnel c4) eqn:?. }
  clearbody c5. destruct H5 as (? & ? & ? & ?). unfold clean_up_buffer_files.
  destruct (c_tmp_files_base_path _); cbn; by split_and!.
Qed.

(** [vpn_stop], after the loop has stopped, leaves nothing behind: no task,
    thread or loop, no request or timer, and the client has released the listener,
    the tunnel and the upstream to the endpoint. *)
Theorem stop_releases_everything v :
  let v' := vpn_stop_finish v in
  get_state v' = VPN_SS_DISCONNECTED /\ v_tasks v' = [] /\ v_executor_thread v' = false /\ v_ev_loop v' = false /\
  v_pinger v' = P_none /\ v_recovery v' = no_recovery /\ v_selected_endpoint v' = None /\
  v_postponed_requests v' = [] /\ v_bypassed_connection_ids v' = [] /\ v_postponement_window_timer v' = false /\
  get_state (v_client v') = S_DISCONNECTED /\ c_client_listener (v_client v') = false /\
  c_tunnel (v_client v') = false /\ c_endpoint_upstream (v_client v') = false /\
  c_endpoint_connector (v_client v') = None /\ c_deferred_tasks (v_client v') = [] /\
  c_dns_proxy_listener (v_client v') = false.
Proof.
  cbn zeta. unfold vpn_stop_finish, stop_pinging, on_client. cbn -[VpnClient_finalize_disconnect].
  pose proof (finalize_disconnect_releases (v_client v)) as Hc.
  generalize dependent (VpnClient_finalize_disconnect (v_client v)). intros c Hc.
  destruct (v_pinger v) eqn:Hp; split_and!; try done; first [exact Hp|apply Hc].
Qed.

(** ** Examples *)

Module Traces.
Import VpnSamples.

Lemma opened_reachable : vpn_reachable opened.
Proof.
  apply (VR_open env (fun s _ => [s]) (fun _ => Some 443) settings); vm_compute; reflexivity.
Qed.

Fixpoint inputs_ok (inputs : list VpnInput) (v : Vpn) : Prop :=
  match inputs with
  | [] => True
  | i :: rest => vpn_input_ok i v /\ inputs_ok rest (vpn_step env i v)
  end.

Lemma run_inputs_reachable inputs : forall v, vpn_reachable v -> inputs_ok inputs v -> vpn_reachable (run inputs v).
Proof.
  induction inputs as [|i inputs IH]; intros v Hv Hok; [done|]. destruct Hok as [Hi Hok].
  apply (IH (vpn_step env i v)); [|done]. by apply VR_step.
Qed.

Ltac solve_inputs :=
  unfold to_connected, to_connecting, session_opens, session_fails, abandons;
  cbn [inputs_ok app]; split_and!; try exact I;
  cbn [vpn_input_ok client_input_ok is_callback]; split_and?;
  try apply occ_pos; vm_compute; (done || discriminate || lia).

(** Sessions under way. *)
Lemma connected_reachable : vpn_reachable connected.
Proof. apply run_inputs_reachable; [apply opened_reachable|]. solve_inputs. Qed.

(** A listener, a lost session, and a request that waits for the recovery. *)
Definition to_postponed : list VpnInput :=
  [VI_listen true (Some (mkVpnListenerConfig 0 0))] ++ session_fails ++
  [VI_client (CI_run_task DT_deferred_disconnect); VI_complete_connect_request request; VI_run_task].
Definition postponed : Vpn := run to_postponed connected.
Lemma postponed_reachable : vpn_reachable postponed.
Proof. apply run_inputs_reachable; [apply connected_reachable|]. unfold to_postponed. solve_inputs. Qed.
End Traces.

(** The window closes on a postponed request with the kill switch on. *)
Lemma vpn_runs_wf_witness :
  vpn_wf Traces.postponed /\ v_postponed_requests Traces.postponed = [VpnSamples.request] /\
  get_state Traces.postponed = VPN_SS_WAITING_RECOVERY.
Proof.
  split; [|split; vm_compute; reflexivity].
  destruct (vpn_runs_wf Traces.postponed (reachable_runs _ Traces.postponed_reachable)) as [[Hf|Hf]|[_ H]]; [..|exact H];
    apply list_elem_of_In in Hf; vm_compute in Hf; destruct Hf.
Defined.

Lemma kill_switch_does_not_leak_witness :
  let v' := vpn_step VpnSamples.env VI_postponement_timer Traces.postponed in
  request_log (v_client v') = request_log (v_client Traces.postponed) ++ [RO_reject 7] /\
  c_kill_switch_on (v_client v') = true.
Proof.
  split; [vm_compute; reflexivity|].
  refine (proj1 (kill_switch_does_not_leak VpnSamples.env VI_postponement_timer Traces.postponed _ _ _)).
  - apply Traces.postponed_reachable.
  - vm_compute. reflexivity.
  - vm_compute. reflexivity.
Defined.

(** The endpoint rejects the credentials of a session that is established. *)
Lemma fatal_error_disconnects_witness :
  let i := CI_run_task DT_deferred_disconnect in
  let v := VpnSamples.run [VI_client (CI_upstream_event (SERVER_EVENT_ERROR NON_ID VpnSamples.auth_error))]
             VpnSamples.connected in
  get_state v = VPN_SS_CONNECTED /\
  told (vpn_step VpnSamples.env (VI_client i) v) = told v ++ [(VPN_SS_DISCONNECTED, SI_error no_error)].
Proof.
  split; [vm_compute; reflexivity|].
  refine (proj2 (proj2 (proj2 (proj2 (fatal_error_disconnects VpnSamples.env _ VpnSamples.auth_error _ _ _ _ _ _))))).
  - apply Traces.run_inputs_reachable; [apply Traces.connected_reachable|]. Traces.solve_inputs.
  - split; [reflexivity|]. apply occ_pos. vm_compute. lia.
  - vm_compute. split; discriminate.
  - apply list_elem_of_In. vm_compute. tauto.
  - reflexivity.
Defined.

Lemma shutdown_tears_down_witness :
  get_state VpnSamples.connected = VPN_SS_CONNECTED /\
  get_state (run_vpn_task VpnSamples.env (VT_shutdown None) VpnSamples.connected) = VPN_SS_DISCONNECTED.
Proof.
  split; [vm_compute; reflexivity|].
  refine (proj1 (shutdown_tears_down VpnSamples.env None VpnSamples.connected _)). apply Traces.connected_reachable.
Defined.

(** ** Reachable defects *)

(** The session fails after the connector reported it and before the client handled
    the report: the assertion of [vpn_upstream_handler] that there is no connector
    fails.  Without assertions the error is ignored, and the application is told that
    it is connected. *)
Theorem connected_over_failed_session :
  exists v, vpn_runs v /\ upstream_asserted (v_client v) /\ get_state v = VPN_SS_CONNECTED /\
    v = VpnSamples.run [VI_client (CI_upstream_event (SERVER_EVENT_ERROR NON_ID Samples.session_error));
                        VI_client (CI_run_task DT_connector_finalizer)]
          (VpnSamples.run (VpnSamples.to_connecting (VpnSamples.several_attempts 1) ++
             [VI_ping_result VpnSamples.pinged; VI_client (CI_connector_result (inl tt))]) VpnSamples.opened).
Proof.
  eexists. split; [|split; [|split; [|reflexivity]]]; [|left; apply list_elem_of_In; vm_compute; tauto|by vm_compute].
  set (v := VpnSamples.run (_ ++ _) _). assert (Hv : vpn_reachable v).
  { apply Traces.run_inputs_reachable; [apply Traces.opened_reachable|]. Traces.solve_inputs. }
  unfold VpnSamples.run. cbn [fold_left]. apply VN_step; [apply VN_step; [by apply reachable_runs|]|]; split; try done.
  apply occ_pos. vm_compute. lia.
Qed.

(** Abandoning the last endpoint while the client is connecting to it
    reports the end of the session to the application without disconnecting the
    client ([complete_connect] skips [disconnect] when an error is pending
    already).  If the connection succeeds afterwards, the application has been told
    [VPN_SS_DISCONNECTED] while a session with the endpoint is up. *)
Theorem disconnected_with_live_session :
  exists v, vpn_reachable v /\ get_state v = VPN_SS_DISCONNECTED /\ get_state (v_client v) = S_CONNECTED /\
    v_client_state v = CLIS_CONNECTED /\
    last (v_out v) = Some (VO_state_changed VPN_SS_DISCONNECTED
      (SI_error (mkVpnError VPN_EC_LOCATION_UNAVAILABLE (Some "Exhausted all endpoints in location")))).
Proof.
  exists (VpnSamples.run (VpnSamples.to_connecting (VpnSamples.several_attempts 1) ++
    [VI_ping_result VpnSamples.pinged] ++ VpnSamples.abandons ++ VpnSamples.session_opens) VpnSamples.opened).
  split; [|vm_compute; by split_and!].
  apply Traces.run_inputs_reachable; [apply Traces.opened_reachable|]. Traces.solve_inputs.
Qed.

(** In the same situation a forced reconnect lets the old connection finish
    the new attempt before an endpoint is selected: [raise_state] then reads the
    endpoint of the session from an empty [selected_endpoint]. *)
Theorem connected_without_endpoint :
  exists v, vpn_reachable v /\ get_state v = VPN_SS_CONNECTED /\ v_selected_endpoint v = None /\
    v_faults v = ["selected_endpoint is empty"%string].
Proof.
  exists (VpnSamples.run (VpnSamples.to_connecting (VpnSamples.several_attempts 1) ++
    [VI_ping_result VpnSamples.pinged] ++ VpnSamples.abandons ++ [VI_force_reconnect; VI_run_task] ++
    VpnSamples.session_opens) VpnSamples.opened).
  split; [|vm_compute; by split_and!].
  apply Traces.run_inputs_reachable; [apply Traces.opened_reachable|]. Traces.solve_inputs.
Qed.

(** Abandoning the endpoint under connection, with another one left in the
    location, retries without looking at the retry policy: after the last attempt
    the counter wraps around to 2^64 - 1, so that the configured number of attempts
    no longer bounds anything, and under the policy that has no counter the
    assertion of [retry_connect] fails. *)
Theorem abandon_ignores_retry_policy :
  (exists v, vpn_reachable v /\ v_connect_retry_info v = ConnectSeveralAttempts 0 /\
     let v' := run_vpn_task VpnSamples.env (VT_abandon_endpoint Samples.endpoint) v in
     get_state v' = VPN_SS_CONNECTING /\ v_connect_retry_info v' = ConnectSeveralAttempts UINT64_MAX) /\
  (exists v, vpn_reachable v /\ v_connect_retry_info v = ConnectFallIntoRecovery /\
     v_faults (run_vpn_task VpnSamples.env (VT_abandon_endpoint Samples.endpoint) v) =
       ["retry_connect without an attempts counter"%string]).
Proof.
  split; [exists (VpnSamples.run (VpnSamples.to_connecting (VpnSamples.two_endpoints VPN_CRP_SEVERAL_ATTEMPTS) ++
            [VI_ping_result VpnSamples.pinged]) VpnSamples.opened)
         |exists (VpnSamples.run (VpnSamples.to_connecting (VpnSamples.two_endpoints VPN_CRP_FALL_INTO_RECOVERY) ++
            [VI_ping_result VpnSamples.pinged]) VpnSamples.opened)];
  (split; [|vm_compute; by split_and!]);
  (apply Traces.run_inputs_reachable; [apply Traces.opened_reachable|]); Traces.solve_inputs.
Qed.

(** Statistics asked for between a session error and the deferred disconnect
    reach the client in [S_DISCONNECTING]: the assertion of [get_connection_stats],
    which says the manager rules this out, fails. *)
Theorem stats_while_disconnecting :
  exists v, vpn_reachable v /\ get_state v = VPN_SS_CONNECTED /\
    c_faults (v_client (run_vpn_task VpnSamples.env VT_connection_stats v)) = ["not connected"%string].
Proof.
  exists (VpnSamples.run VpnSamples.session_fails VpnSamples.connected).
  split; [|vm_compute; by split_and!].
  apply Traces.run_inputs_reachable; [apply Traces.connected_reachable|]. Traces.solve_inputs.
Qed.
