(* ===== verification/View.v ===== *)
(** * Views into buffers

    Code that parses with raw pointers and [U8View]s: a buffer has an identity, a view is a
    place in one, and every access says whether it stayed inside a buffer that is still
    there.  A computation is its value with the list of what it did wrong, [Checked]. *)

From S2P Require Import Prelude VpnTypes Wire.

(** ** Computations *)

Definition Checked (A : Type) : Type := A * list string.

#[export] Instance checked_ret : MRet Checked := fun A a => (a, []).
#[export] Instance checked_bind : MBind Checked := fun A B k x => let '(b, wrong) := k (fst x) in (b, snd x ++ wrong).

Definition wrong (what : string) : Checked unit := (tt, [what]).

(** The first thing that goes wrong, if any, is one of [E]; otherwise the value satisfies [P]. *)
Definition upto {A} (E : string -> Prop) (x : Checked A) (P : A -> Prop) : Prop :=
  match snd x with [] => P (fst x) | e :: _ => E e end.

Abbreviation safe := (upto (fun _ => False)).

Lemma upto_ret {A} E (a : A) (P : A -> Prop) : P a -> upto E (mret a) P.
Proof. done. Qed.

Lemma upto_bind {A B} E (x : Checked A) (k : A -> Checked B) P Q :
  upto E x P -> (forall a, P a -> upto E (k a) Q) -> upto E (x ≫= k) Q.
Proof.
  destruct x as [a [|e l]]; unfold upto; cbn; intros Hx Hk.
  - specialize (Hk a Hx). unfold upto in Hk. by destruct (k a) as [b []].
  - by destruct (k a).
Qed.

Lemma upto_bind_wrong {A B} (E : string -> Prop) (x : Checked A) (k : A -> Checked B) Q e l :
  snd x = e :: l -> E e -> upto E (x ≫= k) Q.
Proof. destruct x as [a l']. cbn. intros ->. unfold upto. cbn. by destruct (k a). Qed.

Lemma upto_mono {A} (E E' : string -> Prop) (x : Checked A) (P Q : A -> Prop) :
  upto E x P -> (forall e, E e -> E' e) -> (forall a, P a -> Q a) -> upto E' x Q.
Proof. unfold upto. destruct (snd x); auto. Qed.

Lemma safe_value {A} (x : Checked A) P : safe x P -> snd x = [] /\ P (fst x).
Proof. unfold upto. by destruct (snd x). Qed.

(** ** Memory *)

Record Memory := mkMemory { mem_id : Z; mem_bytes : list Z }.
Record View := mkView { v_buf : Z; v_off : Z; v_len : Z }.

Definition no_view : View := mkView (-1) 0 0.
Definition mem_size (m : Memory) : Z := Z.of_nat (length (mem_bytes m)).
Definition whole (m : Memory) : View := mkView (mem_id m) 0 (mem_size m).

(** A pointer into the view and a length. *)
Definition sub (v : View) (i n : Z) : View := mkView (v_buf v) (v_off v + i) n.
Definition is_empty (v : View) : bool := v_len v =? 0.

Definition OUT_OF_BOUNDS : string := "read out of bounds".
Definition PREFIX_TOO_LONG : string := "prefix longer than the view".

(** The [n] bytes at [i] from the start of the view, wherever the view ends. *)
Definition read (m : Memory) (v : View) (i n : Z) : Checked (list Z) :=
  let p := v_off v + i in
  let there := (v_buf v =? mem_id m) && (0 <=? p) && (0 <=? n) && (p + n <=? mem_size m) in
  (take (Z.to_nat n) (drop (Z.to_nat p) (mem_bytes m)), if there then [] else [OUT_OF_BOUNDS]).

(** A number of [n] bytes, in network byte order. *)
Definition get (m : Memory) (v : View) (i n : Z) : Checked Z := bytes ← read m v i n; mret (be_value bytes).

(** [remove_prefix] of a view, whose length is a [size_t]. *)
Definition remove_prefix (v : View) (n : Z) : Checked View :=
  (mkView (v_buf v) (v_off v + n) (uwrap 64 (v_len v - n)), if v_len v <? n then [PREFIX_TOO_LONG] else []).

(** The view lies inside the buffer. *)
Definition inside (m : Memory) (v : View) : Prop :=
  v_buf v = mem_id m /\ 0 <= v_off v /\ 0 <= v_len v /\ v_off v + v_len v <= mem_size m.

Definition mem_ok (m : Memory) : Prop := bytes_ok (mem_bytes m) /\ mem_size m < 2 ^ 64.

(** What a view shows. *)
Definition view_bytes (m : Memory) (v : View) : list Z := take (Z.to_nat (v_len v)) (drop (Z.to_nat (v_off v)) (mem_bytes m)).

(** ** Accesses that stay inside *)

Lemma inside_sub m v i n : inside m v -> 0 <= i -> 0 <= n -> i + n <= v_len v -> inside m (sub v i n).
Proof. unfold inside, sub. cbn. lia. Qed.

Lemma inside_whole m : inside m (whole m).
Proof. unfold inside, whole, mem_size. cbn. lia. Qed.

Lemma upto_read E m v i n (P : list Z -> Prop) :
  inside m v -> 0 <= i -> 0 <= n -> i + n <= v_len v ->
  P (take (Z.to_nat n) (drop (Z.to_nat (v_off v + i)) (mem_bytes m))) -> upto E (read m v i n) P.
Proof.
  intros (Hb & Ho & Hl & Hs) Hi Hn Hin HP. unfold upto, read. cbn [fst snd].
  rewrite (proj2 (Z.eqb_eq _ _) Hb), (proj2 (Z.leb_le 0 _)), (proj2 (Z.leb_le 0 _)), (proj2 (Z.leb_le _ _)) by lia. done.
Qed.

Lemma be_value_bound bytes : bytes_ok bytes -> 0 <= be_value bytes < 2 ^ (8 * Z.of_nat (length bytes)).
Proof.
  unfold be_value. intros Hok.
  enough (forall acc n, 0 <= acc < 2 ^ (8 * Z.of_nat n) ->
    0 <= fold_left (fun v b => Z.lor (Z.shiftl v 8) b) bytes acc < 2 ^ (8 * Z.of_nat (n + length bytes))) as Hgen.
  { apply (Hgen 0 0%nat). lia. }
  induction Hok as [|b bytes Hb Hok IH]; intros acc n Hacc; cbn [fold_left length]; [by rewrite Nat.add_0_r|].
  rewrite be_step by done. replace (n + S (length bytes))%nat with (S n + length bytes)%nat by lia. apply IH.
  unfold in_width in Hb. replace (8 * Z.of_nat (S n)) with (8 * Z.of_nat n + 8) by lia. rewrite Z.pow_add_r by lia. nia.
Qed.

Lemma mem_ok_take m i n : mem_ok m -> bytes_ok (take n (drop i (mem_bytes m))).
Proof. intros [Hok _]. apply Forall_take, Forall_drop, Hok. Qed.

(** A number that was read is not negative, and below the bound its width gives. *)
Lemma upto_get E m v i n (P : Z -> Prop) :
  mem_ok m -> inside m v -> 0 <= i -> 0 <= n -> i + n <= v_len v ->
  (forall x, 0 <= x < 2 ^ (8 * n) -> P x) -> upto E (get m v i n) P.
Proof.
  intros Hm Hin Hi Hn Hle HP. unfold get. eapply upto_bind; [apply (upto_read _ _ _ _ _ (fun bytes => length bytes = Z.to_nat n /\ bytes_ok bytes)); try done|].
  - split; [|by apply mem_ok_take]. destruct Hin as (_ & Ho & _ & Hs). unfold mem_size in Hs. rewrite length_take, length_drop. lia.
  - intros bytes [Hlen Hok]. apply upto_ret, HP. apply be_value_bound in Hok. rewrite Hlen, Z2Nat.id in Hok by lia. done.
Qed.

Lemma upto_remove_prefix E m v n (P : View -> Prop) :
  mem_ok m -> inside m v -> 0 <= n -> n <= v_len v -> P (sub v n (v_len v - n)) -> upto E (remove_prefix v n) P.
Proof.
  intros [_ Hm] (Hb & Ho & Hl & Hs) Hn Hle HP. unfold upto, remove_prefix. cbn [fst snd].
  rewrite (proj2 (Z.ltb_ge _ _)) by lia. rewrite uwrap_id; [done|]. unfold in_width. lia.
Qed.

(** ** What a view shows

    [shows m v bytes]: the view lies inside the buffer, with these bytes. *)
Definition shows (m : Memory) (v : View) (bytes : list Z) : Prop := inside m v /\ view_bytes m v = bytes.

Lemma checked_bind_ok {A B} (a : A) (k : A -> Checked B) : ((a, []) : Checked A) ≫= k = k a.
Proof. unfold mbind, checked_bind. cbn. by destruct (k a). Qed.

Lemma checked_bind_ret {A B} (a : A) (k : A -> Checked B) : mret a ≫= k = k a.
Proof. apply checked_bind_ok. Qed.

Lemma checked_bind_inv {A B} (x : Checked A) (k : A -> Checked B) b :
  x ≫= k = (b, []) -> exists a, x = (a, []) /\ k a = (b, []).
Proof.
  destruct x as [a w]. unfold mbind, checked_bind. cbn. destruct (k a) as [b' w'] eqn:E. intros [= -> Hw].
  apply app_nil in Hw as [-> ->]. eauto.
Qed.

Lemma shows_whole m : shows m (whole m) (mem_bytes m).
Proof. split; [apply inside_whole|]. unfold view_bytes, whole, mem_size. cbn. by rewrite Nat2Z.id, drop_0, firstn_all. Qed.

Lemma shows_len m v bytes : shows m v bytes -> v_len v = Z.of_nat (length bytes).
Proof.
  intros [(_ & Ho & Hl & Hs) <-]. unfold view_bytes, mem_size in *. rewrite length_take, length_drop. lia.
Qed.

Lemma take_middle {A} (a x c : list A) : take (length x) (drop (length a) (a ++ x ++ c)) = x.
Proof. by rewrite drop_app_length, take_app_length. Qed.

Lemma shows_sub m v bytes a x c i n :
  shows m v bytes -> bytes = a ++ x ++ c -> i = Z.of_nat (length a) -> n = Z.of_nat (length x) -> shows m (sub v i n) x.
Proof.
  intros Hv -> -> ->. pose proof (shows_len _ _ _ Hv) as Hlen. rewrite !length_app in Hlen. destruct Hv as [Hin Hv]. split.
  - apply inside_sub; [done|lia..].
  - destruct Hin as (_ & Ho & _). unfold view_bytes, sub in *. cbn. rewrite Nat2Z.id, Z2Nat.inj_add, Nat2Z.id by lia.
    rewrite <- drop_drop. rewrite <- (take_middle a x c) at 2. rewrite <- Hv, Hlen, Nat2Z.id, skipn_firstn_comm, take_take.
    f_equal. lia.
Qed.

Lemma shows_read m v bytes a x c i n :
  shows m v bytes -> bytes = a ++ x ++ c -> i = Z.of_nat (length a) -> n = Z.of_nat (length x) -> read m v i n = (x, []).
Proof.
  intros Hv Hb Hi Hn. destruct (shows_sub _ _ _ _ _ _ _ _ Hv Hb Hi Hn) as [(Eid & Ho & Hl & Hs) Ex].
  unfold view_bytes, sub, read in *. cbn in *. rewrite Ex. f_equal.
  rewrite (proj2 (Z.eqb_eq _ _) Eid), (proj2 (Z.leb_le 0 _)), (proj2 (Z.leb_le 0 _)), (proj2 (Z.leb_le _ _)) by lia. done.
Qed.

Lemma shows_get m v bytes a x c i n w :
  shows m v bytes -> bytes = a ++ be_bytes w x ++ c -> i = Z.of_nat (length a) -> n = Z.of_nat w ->
  in_width (8 * Z.of_nat w) x -> get m v i n = (x, []).
Proof.
  intros Hv Hb Hi Hn Hx. unfold get. rewrite (shows_read m v bytes a (be_bytes w x) c) by (rewrite ?be_bytes_length; done).
  rewrite checked_bind_ok. unfold mret, checked_ret. by rewrite be_value_be_bytes.
Qed.

Lemma shows_byte m v bytes a b c i : shows m v bytes -> bytes = a ++ b :: c -> i = Z.of_nat (length a) -> get m v i 1 = (b, []).
Proof. intros Hv Hb Hi. unfold get. by rewrite (shows_read m v bytes a [b] c), checked_bind_ok. Qed.

Lemma shows_remove_prefix m v bytes a c n :
  mem_size m < 2 ^ 64 -> shows m v bytes -> bytes = a ++ c -> n = Z.of_nat (length a) ->
  remove_prefix v n = (sub v n (Z.of_nat (length c)), []) /\ shows m (sub v n (Z.of_nat (length c))) c.
Proof.
  intros Hm Hv Hb Hn. pose proof (shows_len _ _ _ Hv) as Hlen. rewrite Hb, length_app in Hlen. split.
  - unfold remove_prefix, sub. rewrite (proj2 (Z.ltb_ge _ _)) by lia. rewrite uwrap_id; [do 2 f_equal; lia|].
    destruct Hv as [(_ & ? & ? & ?) _]. unfold in_width. lia.
  - eapply (shows_sub m v bytes a c []); rewrite ?app_nil_r; done.
Qed.
