(* ===== verification/Tls.v ===== *)
(** * The TLS reader

    Models the parser of [net/src/tls.cpp]: [tls_parse] takes TLS records apart as far as
    the domain lookup needs them, the server name of a client hello and the subject of the
    server's certificate.  The reader keeps views into the buffer it is given, which the
    code of the caller may have replaced in the meantime.  Decoding a certificate is left
    to BoringSSL and is an argument. *)

From S2P Require Import Prelude VpnTypes Wire View.

Definition CT_HANDSHAKE : Z := 22.
Definition HS_CLIENT_HELLO : Z := 1.
Definition HS_SERVER_HELLO : Z := 2.
Definition HS_CERTIFICATE : Z := 11.
Definition HS_SERVER_KEY_EXCHANGE : Z := 12.
Definition HS_CERTIFICATE_REQUEST : Z := 13.
Definition HS_SERVER_HELLO_DONE : Z := 14.
Definition SNI_HOST_NAME : Z := 0.
Definition EXT_SERVER_NAME : Z := 0.

(** Sizes of the packed headers. *)
Definition REC_SIZE : Z := 5.
Definition HSHAKE_SIZE : Z := 4.
Definition CLIENT_HELLO_SIZE : Z := 35.
Definition EXT_SIZE : Z := 4.
Definition SERV_NAME_SIZE : Z := 3.
Definition TLS_LENGTH_24_SIZE : Z := 3.

Inductive TlsParseResult := TLS_RERR | TLS_RMORE | TLS_RCLIENT_HELLO | TLS_RCLIENT_HELLO_SNI | TLS_RSERV_HELLO | TLS_RCERT | TLS_RDONE.
#[export] Instance tls_result_eq_dec : EqDecision TlsParseResult.
Proof. solve_decision. Defined.

Inductive ReaderState := I_REC | I_HSHAKE | I_CLIHEL | I_CLIHEL_EXTS | I_CLIHEL_EXT | I_CERTS.
#[export] Instance reader_state_eq_dec : EqDecision ReaderState.
Proof. solve_decision. Defined.

Record TlsReader := mkTlsReader {
  r_state : ReaderState;
  r_in : View;
  r_rec : View;
  r_buf : View;
  r_tls_hostname : View;
  r_x509_subject_common_name : list Z;
}.
#[export] Instance eta_TlsReader : Eta TlsReader := fun r =>
  mkTlsReader (r_state r) (r_in r) (r_rec r) (r_buf r) (r_tls_hostname r) (r_x509_subject_common_name r).

(** The reader after [= {}]. *)
Definition reader_new : TlsReader := mkTlsReader I_REC no_view no_view no_view no_view [].
Definition tls_input (v : View) (r : TlsReader) : TlsReader := r <| r_in := v |>.
Definition tls_input_hshake (v : View) (r : TlsReader) : TlsReader := r <| r_rec := v |> <| r_state := I_HSHAKE |>.

(** BoringSSL: [None] if the bytes are no certificate, [Some None] if its subject has no common name. *)
Class CertLib := decode_common_name : list Z -> option (option (list Z)).

Section Tls.
Context `{CertLib} (m : Memory).
Implicit Types (r : TlsReader) (data : View).

(** The length field of [w] bytes at [d], if the data it announces ends before [end_]; the
    pointers are offsets into [data]. *)
Definition datalen (w : Z) data (d end_ : Z) : Checked (option Z) :=
  if end_ - d <? w then mret None
  else n ← get m data d w; mret (if end_ <? d + w + n then None else Some n).

Definition datalen8 : View -> Z -> Z -> Checked (option Z) := datalen 1.
Definition datalen16 : View -> Z -> Z -> Checked (option Z) := datalen 2.
Definition datalen24 : View -> Z -> Z -> Checked (option Z) := datalen TLS_LENGTH_24_SIZE.

(** The type of the record; [0] and less on error. *)
Definition rec_parse r data : Checked (Z * TlsReader) :=
  type ← (if 2 <=? v_len data then get m data 0 1 else mret CT_HANDSHAKE);
  if negb (type =? CT_HANDSHAKE) then mret (-1, r)
  else if v_len data <? REC_SIZE then mret (0, r)
  else
    n ← get m data 3 2;
    if v_len data <? REC_SIZE + n then mret (0, r)
    else
      ver ← get m data 1 2;
      if ver <? 769 then mret (-1, r)
      else
        in_ ← remove_prefix (r_in r) (REC_SIZE + n);
        mret (type, r <| r_rec := sub data REC_SIZE n |> <| r_in := in_ |>).

(** The type of the handshake message; [0] and less on error. *)
Definition hshake_parse r data : Checked (Z * TlsReader) :=
  if v_len data <? HSHAKE_SIZE then mret (0, r)
  else
    n ← get m data 1 3;
    if uwrap 64 (v_len data - 1) <? n then mret (0, r)
    else
      rec ← remove_prefix (r_rec r) (HSHAKE_SIZE + n);
      type ← get m data 0 1;
      mret (type, r <| r_rec := rec |> <| r_buf := sub data HSHAKE_SIZE n |>).

(** Whether the client hello is one, up to its extensions. *)
Definition hello_parse r data : Checked (bool * TlsReader) :=
  if v_len data <? CLIENT_HELLO_SIZE then mret (false, r)
  else
    let end_ := v_len data in
    session_id_len ← get m data (CLIENT_HELLO_SIZE - 1) 1;
    if end_ - CLIENT_HELLO_SIZE <? session_id_len then mret (false, r)
    else
      let d := CLIENT_HELLO_SIZE + session_id_len in
      cipher_suites ← datalen16 data d end_;
      match cipher_suites with
      | None => mret (false, r)
      | Some size =>
          let d := d + (2 + size) in
          comp_meths ← datalen8 data d end_;
          match comp_meths with
          | None => mret (false, r)
          | Some size =>
              let d := d + (1 + size) in
              mret (true, r <| r_buf := sub data d (end_ - d) |>)
          end
      end.

(** The loop over the names; [None] is an error. *)
Fixpoint serv_names (fuel : nat) r data (d end_ : Z) : Checked (option TlsParseResult * TlsReader) :=
  match fuel with
  | O => _ ← wrong "out of fuel"; mret (None, r)
  | S fuel =>
    if end_ - d <? SERV_NAME_SIZE then mret (Some TLS_RDONE, r)
    else
      n ← get m data (d + 1) 2;
      if end_ <? d + SERV_NAME_SIZE + n then mret (None, r)
      else
        type ← get m data d 1;
        if type =? SNI_HOST_NAME
        then mret (Some TLS_RCLIENT_HELLO_SNI, r <| r_tls_hostname := sub data (d + SERV_NAME_SIZE) n |>)
        else serv_names fuel r data (d + SERV_NAME_SIZE + n) end_
  end.

Definition ext_servname_parse r data : Checked (option TlsParseResult * TlsReader) :=
  names ← datalen16 data 0 (v_len data);
  match names with
  | None => mret (None, r)
  | Some size => serv_names (S (Z.to_nat size)) r data 2 (2 + size)
  end.

(** The extension at the start of [r_buf], which is left behind. *)
Definition ext_parse r : Checked (option TlsParseResult * TlsReader) :=
  let data := r_buf r in
  if v_len data <? EXT_SIZE then mret (Some TLS_RERR, r)
  else
    n ← get m data 2 2;
    if v_len data <? EXT_SIZE + n then mret (Some TLS_RERR, r)
    else
      type ← get m data 0 2;
      res ← (if type =? EXT_SERVER_NAME then ext_servname_parse r (sub data EXT_SIZE n) else mret (Some TLS_RDONE, r));
      mret (fst res, (snd res) <| r_buf := sub data (EXT_SIZE + n) (v_len data - EXT_SIZE - n) |>).

Definition exts_data r data : Checked (bool * TlsReader) :=
  exts ← datalen16 data 0 (v_len data);
  match exts with
  | None => mret (false, r)
  | Some _ => data ← remove_prefix data 2; mret (true, r <| r_buf := data |>)
  end.

(** The first certificate. *)
Definition certs_parse r data : Checked (bool * TlsReader) :=
  certs ← datalen24 data 0 (v_len data);
  match certs with
  | None => mret (false, r)
  | Some size =>
      let end_ := TLS_LENGTH_24_SIZE + size in
      cert ← datalen24 data TLS_LENGTH_24_SIZE end_;
      match cert with
      | None => mret (false, r)
      | Some size =>
          bytes ← read m data (2 * TLS_LENGTH_24_SIZE) size;
          mret match decode_common_name bytes with
               | None => (false, r)
               | Some None => (false, r <| r_x509_subject_common_name := [] |>)
               | Some (Some name) => (true, r <| r_x509_subject_common_name := name |>)
               end
      end
  end.

Definition in_state (st : ReaderState) r : TlsReader := r <| r_state := st |>.

(** The loop of [tls_parse]. *)
Fixpoint parse_loop (fuel : nat) r : Checked (TlsParseResult * TlsReader) :=
  match fuel with
  | O => _ ← wrong "out of fuel"; mret (TLS_RERR, r)
  | S fuel =>
    match r_state r with
    | I_REC =>
        '(x, r) ← rec_parse r (r_in r);
        if x =? 0 then mret (TLS_RMORE, r)
        else if x <? 0 then mret (TLS_RERR, r)
        else if x =? CT_HANDSHAKE then parse_loop fuel (in_state I_HSHAKE r)
        else mret (TLS_RERR, r)
    | I_HSHAKE =>
        if is_empty (r_rec r) then mret (TLS_RDONE, in_state I_REC r)
        else
          '(x, r) ← hshake_parse r (r_rec r);
          if x <=? 0 then mret (TLS_RERR, r)
          else if x =? HS_CLIENT_HELLO then parse_loop fuel (in_state I_CLIHEL r)
          else if x =? HS_SERVER_HELLO then mret (TLS_RSERV_HELLO, in_state I_HSHAKE r)
          else if x =? HS_CERTIFICATE then parse_loop fuel (in_state I_CERTS r)
          else if (x =? HS_SERVER_KEY_EXCHANGE) || (x =? HS_CERTIFICATE_REQUEST) || (x =? HS_SERVER_HELLO_DONE)
          then mret (TLS_RDONE, in_state I_HSHAKE r)
          else mret (TLS_RERR, r)
    | I_CLIHEL =>
        res ← hello_parse r (r_buf r);
        mret (if (fst res : bool) then (TLS_RCLIENT_HELLO, in_state I_CLIHEL_EXTS (snd res)) else (TLS_RERR, snd res))
    | I_CLIHEL_EXTS =>
        res ← exts_data r (r_buf r);
        if (fst res : bool) then parse_loop fuel (in_state I_CLIHEL_EXT (snd res)) else mret (TLS_RERR, snd res)
    | I_CLIHEL_EXT =>
        if is_empty (r_buf r) then parse_loop fuel (in_state I_HSHAKE r)
        else
          '(x, r) ← ext_parse r;
          match x with
          | None => mret (TLS_RERR, r)
          | Some TLS_RDONE => parse_loop fuel r
          | Some x => mret (x, r)
          end
    | I_CERTS =>
        res ← certs_parse r (r_buf r);
        mret (if (fst res : bool) then (TLS_RCERT, in_state I_HSHAKE (snd res)) else (TLS_RERR, snd res))
    end
  end.

(** The turns a call makes at most: an extension is at least as long as its header. *)
Definition tls_parse r : Checked (TlsParseResult * TlsReader) := parse_loop (length (mem_bytes m) + 8) r.
End Tls.
