(* ===== verification/TlsProofs.v ===== *)
(** * What the TLS reader reads

    [tls_parse] stays inside the buffer except for one check, and takes records apart that
    were put together as the protocol says. *)

From S2P Require Import Prelude VpnTypes Wire View Tls.

Ltac in_bounds := first [done | lia | apply inside_sub; first [done | lia] | intros; lia].

Section Bounds.
Context `{CertLib} (m : Memory).
Hypothesis Hm : mem_ok m.
Implicit Types (r : TlsReader) (data : View).

(** The first thing that can go wrong. *)
Definition overrun (e : string) : Prop := e = PREFIX_TOO_LONG.

(** ** The reader between steps *)

(** The views the state of the reader uses are inside the buffer. *)
Record reader_ok r : Prop := mkReaderOk {
  ok_in : r_state r = I_REC -> inside m (r_in r);
  ok_rec : r_state r <> I_REC -> inside m (r_rec r);
  ok_buf : r_state r <> I_REC -> r_state r <> I_HSHAKE -> inside m (r_buf r);
}.

Lemma datalen_upto E w data d end_ (P : option Z -> Prop) :
  inside m data -> 0 <= d -> 0 <= w -> end_ <= v_len data ->
  P None -> (forall n, 0 <= n -> d + w + n <= end_ -> P (Some n)) -> upto E (datalen m w data d end_) P.
Proof.
  intros Hin Hd Hw He Hnone Hsome. unfold datalen. case_match; [by apply upto_ret|]. bool_to_prop.
  eapply (upto_bind E _ _ (fun x => 0 <= x)); [apply upto_get; in_bounds|]. intros n Hn. apply upto_ret.
  case_match; [done|]. bool_to_prop. apply Hsome; lia.
Qed.

Lemma rec_parse_upto r (P : Z * TlsReader -> Prop) :
  inside m (r_in r) ->
  (forall x, x <= 0 -> P (x, r)) ->
  (forall rec in_, inside m rec -> inside m in_ -> P (CT_HANDSHAKE, r <| r_rec := rec |> <| r_in := in_ |>)) ->
  upto overrun (rec_parse m r (r_in r)) P.
Proof.
  intros Hin Herr Hok. unfold rec_parse.
  eapply (upto_bind _ _ _ (fun _ => True)).
  { case_match; [|done]. bool_to_prop. apply upto_get; in_bounds. }
  intros type _. case_match; [by apply upto_ret, Herr|]. case_match; [by apply upto_ret, Herr|]. bool_to_prop. unfold REC_SIZE in *.
  eapply (upto_bind _ _ _ (fun n => 0 <= n)); [apply upto_get; in_bounds|]. intros n Hn.
  case_match; [by apply upto_ret, Herr|]. bool_to_prop.
  eapply (upto_bind _ _ _ (fun _ => True)); [apply upto_get; in_bounds|]. intros ver _.
  case_match; [by apply upto_ret, Herr|].
  eapply (upto_bind _ _ _ (fun v => inside m v)); [apply (upto_remove_prefix _ m); in_bounds|].
  intros in_ Hin'. subst type. apply upto_ret, Hok; [|done]. apply inside_sub; in_bounds.
Qed.

(** The length of a message is compared with the size of the record less one byte, not less its header. *)
Lemma hshake_parse_upto r (P : Z * TlsReader -> Prop) :
  inside m (r_rec r) ->
  P (0, r) ->
  (forall x rec buf, inside m rec -> inside m buf -> v_len rec + 4 <= v_len (r_rec r) -> P (x, r <| r_rec := rec |> <| r_buf := buf |>)) ->
  upto overrun (hshake_parse m r (r_rec r)) P.
Proof.
  intros Hin Herr Hok. unfold hshake_parse. unfold HSHAKE_SIZE. case_match; [by apply upto_ret|]. bool_to_prop.
  eapply (upto_bind _ _ _ (fun n => 0 <= n)); [apply upto_get; in_bounds|]. intros n Hn.
  case_match; [by apply upto_ret|].
  destruct (decide (4 + n <= v_len (r_rec r))) as [Hfit|Hlong].
  - eapply (upto_bind _ _ _ (fun v => inside m v /\ v_len v + 4 <= v_len (r_rec r))).
    { apply (upto_remove_prefix _ m); first [done | lia | split; [apply inside_sub; in_bounds|cbn; lia]]. }
    intros rec [Hrec Hlt]. eapply (upto_bind _ _ _ (fun _ => True)); [apply upto_get; in_bounds|].
    intros type _. apply upto_ret, Hok; try done. apply inside_sub; in_bounds.
  - eapply (upto_bind_wrong _ _ _ _ PREFIX_TOO_LONG []); [|done]. unfold remove_prefix. cbn. by rewrite (proj2 (Z.ltb_lt _ _)) by lia.
Qed.

Lemma hello_parse_upto r (P : bool * TlsReader -> Prop) :
  inside m (r_buf r) -> P (false, r) -> (forall buf, inside m buf -> P (true, r <| r_buf := buf |>)) ->
  upto overrun (hello_parse m r (r_buf r)) P.
Proof.
  intros Hin Herr Hok. unfold hello_parse, CLIENT_HELLO_SIZE. case_match; [by apply upto_ret|]. bool_to_prop.
  eapply (upto_bind _ _ _ (fun n => 0 <= n)); [apply upto_get; in_bounds|]. intros sid Hsid.
  case_match; [by apply upto_ret|]. bool_to_prop.
  eapply (upto_bind _ _ _ (fun o => match o with Some n => 0 <= n /\ 35 + sid + 2 + n <= v_len (r_buf r) | None => True end));
    [apply datalen_upto; in_bounds|].
  intros [n|] Hn; [|by apply upto_ret]. destruct Hn as [Hn Hle].
  eapply (upto_bind _ _ _ (fun o => match o with Some k => 0 <= k /\ 35 + sid + (2 + n) + 1 + k <= v_len (r_buf r) | None => True end));
    [apply datalen_upto; in_bounds|].
  intros [k|] Hk; [|by apply upto_ret]. destruct Hk as [Hk Hle']. apply upto_ret, Hok. in_bounds.
Qed.

Lemma serv_names_upto r data end_ (P : option TlsParseResult * TlsReader -> Prop) fuel : forall d,
  inside m data -> 0 <= d -> end_ <= v_len data -> Z.max 0 (end_ - d) < Z.of_nat fuel ->
  P (None, r) -> P (Some TLS_RDONE, r) ->
  (forall name, inside m name -> P (Some TLS_RCLIENT_HELLO_SNI, r <| r_tls_hostname := name |>)) ->
  upto overrun (serv_names m fuel r data d end_) P.
Proof.
  induction fuel as [|fuel IH]; intros d Hin Hd He Hf Hnone Hdone Hname; [lia|]. cbn [serv_names]. unfold SERV_NAME_SIZE.
  case_match; [by apply upto_ret|]. bool_to_prop.
  eapply (upto_bind _ _ _ (fun n => 0 <= n)); [apply upto_get; in_bounds|]. intros n Hn.
  case_match; [by apply upto_ret|]. bool_to_prop.
  eapply (upto_bind _ _ _ (fun _ => True)); [apply upto_get; in_bounds|]. intros type _.
  case_match; [apply upto_ret, Hname; in_bounds|]. apply IH; in_bounds.
Qed.

Lemma ext_servname_parse_upto r data (P : option TlsParseResult * TlsReader -> Prop) :
  inside m data -> P (None, r) -> P (Some TLS_RDONE, r) ->
  (forall name, inside m name -> P (Some TLS_RCLIENT_HELLO_SNI, r <| r_tls_hostname := name |>)) ->
  upto overrun (ext_servname_parse m r data) P.
Proof.
  intros Hin Hnone Hdone Hname. unfold ext_servname_parse.
  eapply (upto_bind _ _ _ (fun o => match o with Some n => 0 <= n /\ 2 + n <= v_len data | None => True end));
    [apply datalen_upto; in_bounds|].
  intros [n|] Hn; [|by apply upto_ret]. apply serv_names_upto; in_bounds.
Qed.

(** What an extension leaves: [r_buf] gets shorter, and the name that was found is inside. *)
Lemma ext_parse_upto r (P : option TlsParseResult * TlsReader -> Prop) :
  inside m (r_buf r) ->
  P (Some TLS_RERR, r) ->
  (forall x name buf, inside m buf -> v_len buf <= v_len (r_buf r) - 4 -> (x = None \/ x = Some TLS_RDONE) ->
     name = r_tls_hostname r -> P (x, r <| r_tls_hostname := name |> <| r_buf := buf |>)) ->
  (forall name buf, inside m buf -> inside m name -> P (Some TLS_RCLIENT_HELLO_SNI, r <| r_tls_hostname := name |> <| r_buf := buf |>)) ->
  upto overrun (ext_parse m r) P.
Proof.
  intros Hin Herr Hok Hname. unfold ext_parse, EXT_SIZE. case_match; [by apply upto_ret|]. bool_to_prop.
  eapply (upto_bind _ _ _ (fun n => 0 <= n)); [apply upto_get; in_bounds|]. intros n Hn.
  case_match; [by apply upto_ret|]. bool_to_prop.
  eapply (upto_bind _ _ _ (fun _ => True)); [apply upto_get; in_bounds|]. intros type _.
  assert (inside m (sub (r_buf r) (4 + n) (v_len (r_buf r) - 4 - n))) as Hbuf by in_bounds.
  assert (forall x, x = None \/ x = Some TLS_RDONE -> P (x, r <| r_buf := sub (r_buf r) (4 + n) (v_len (r_buf r) - 4 - n) |>)) as Hplain.
  { intros x Hx. apply (Hok x (r_tls_hostname r)); try done. cbn. lia. }
  eapply (upto_bind _ _ _ (fun res => P (fst res, (snd res) <| r_buf := sub (r_buf r) (4 + n) (v_len (r_buf r) - 4 - n) |>)));
    [|intros res Hres; by apply upto_ret].
  case_match; [|apply upto_ret; cbn [fst snd]; auto].
  apply ext_servname_parse_upto; cbn [fst snd]; auto. in_bounds.
Qed.

Lemma exts_data_upto r (P : bool * TlsReader -> Prop) :
  inside m (r_buf r) -> P (false, r) ->
  (forall buf, inside m buf -> v_len buf <= v_len (r_buf r) - 2 -> P (true, r <| r_buf := buf |>)) ->
  upto overrun (exts_data m r (r_buf r)) P.
Proof.
  intros Hin Herr Hok. unfold exts_data.
  eapply (upto_bind _ _ _ (fun o => match o with Some n => 0 <= n /\ 2 + n <= v_len (r_buf r) | None => True end));
    [apply datalen_upto; in_bounds|].
  intros [n|] Hn; [|by apply upto_ret].
  eapply (upto_bind _ _ _ (fun v => inside m v /\ v_len v <= v_len (r_buf r) - 2)).
  { apply (upto_remove_prefix _ m); first [done | lia | split; [in_bounds|cbn; lia]]. }
  intros v [Hv Hl]. by apply upto_ret, Hok.
Qed.

Lemma certs_parse_upto r (P : bool * TlsReader -> Prop) :
  inside m (r_buf r) -> (forall b name, P (b, r <| r_x509_subject_common_name := name |>)) ->
  upto overrun (certs_parse m r (r_buf r)) P.
Proof.
  intros Hin Hok. assert (P (false, r)) as Herr by (destruct r; apply Hok). unfold certs_parse, TLS_LENGTH_24_SIZE.
  eapply (upto_bind _ _ _ (fun o => match o with Some n => 0 <= n /\ 3 + n <= v_len (r_buf r) | None => True end));
    [apply datalen_upto; in_bounds|].
  intros [n|] Hn; [|by apply upto_ret].
  eapply (upto_bind _ _ _ (fun o => match o with Some k => 0 <= k /\ 3 + 3 + k <= 3 + n | None => True end));
    [apply datalen_upto; in_bounds|].
  intros [k|] Hk; [|by apply upto_ret].
  eapply (upto_bind _ _ _ (fun _ => True)); [apply upto_read; in_bounds|]. intros bytes _. apply upto_ret. repeat case_match; auto.
Qed.

(** ** The loop *)

(** The turns that are left. *)
Definition turns r : Z :=
  match r_state r with
  | I_REC => 4
  | I_HSHAKE => 3
  | I_CLIHEL | I_CERTS => 1
  | I_CLIHEL_EXT => 4 + v_len (r_buf r)
  | I_CLIHEL_EXTS => 5 + v_len (r_buf r)
  end.

(** What is left of the record; it gets shorter with each message. *)
Definition record_left r : Z := v_len (r_rec r) + match r_state r with I_CLIHEL | I_CERTS => 1 | _ => 0 end.

Definition is_message (x : TlsParseResult) : bool :=
  match x with TLS_RCLIENT_HELLO | TLS_RSERV_HELLO | TLS_RCERT => true | _ => false end.

(** What a call leaves: the views the next state uses, and the name it found. *)
Record left_ok r0 (res : TlsParseResult * TlsReader) : Prop := mkLeftOk {
  left_in : inside m (r_in r0) -> inside m (r_in (snd res));
  left_rec : r_state (snd res) <> I_REC -> inside m (r_rec (snd res));
  left_buf : r_state (snd res) <> I_REC -> r_state (snd res) <> I_HSHAKE -> inside m (r_buf (snd res));
  left_name : fst res = TLS_RCLIENT_HELLO_SNI -> inside m (r_tls_hostname (snd res));
  left_more : fst res = TLS_RMORE -> r_state (snd res) = I_REC;
  left_serv_hello : fst res = TLS_RSERV_HELLO -> r_state (snd res) = I_HSHAKE;
  left_within : is_message (fst res) = true -> r_state (snd res) <> I_REC;
  left_progress : r_state r0 <> I_REC -> is_message (fst res) = true -> record_left (snd res) < record_left r0;
}.

(** The loop from here on. *)
Definition goes_on (fuel : nat) : Prop :=
  forall r, reader_ok r -> turns r <= Z.of_nat fuel -> upto overrun (parse_loop m fuel r) (left_ok r).

Lemma go_on fuel r0 r1 :
  goes_on fuel -> reader_ok r1 -> turns r1 <= Z.of_nat fuel ->
  (inside m (r_in r0) -> inside m (r_in r1)) -> r_state r1 <> I_REC -> (r_state r0 <> I_REC -> record_left r1 <= record_left r0) ->
  upto overrun (parse_loop m fuel r1) (left_ok r0).
Proof.
  intros Hgo Hok Hf Hin Hst Hle. eapply upto_mono; [by apply Hgo|done|]. intros res [].
  split; try done; [auto|]. intros H0 Hx. specialize (Hle H0). specialize (left_progress0 Hst Hx). lia.
Qed.

Ltac leave := apply upto_ret; split; unfold record_left; cbn; try done; try congruence.
Ltac stay := split; cbn; try done; try congruence.

Section Turn.
Context (fuel : nat) (r : TlsReader).
Hypothesis Hgo : goes_on fuel.
Hypothesis Hok : reader_ok r.
Hypothesis Hf : turns r <= Z.of_nat (S fuel).

Lemma rec_turn : r_state r = I_REC -> upto overrun (parse_loop m (S fuel) r) (left_ok r).
Proof.
  intros Hs. pose proof (ok_in _ Hok Hs) as Hin. unfold turns in Hf. rewrite Hs in Hf. cbn [parse_loop]. rewrite Hs.
  eapply upto_bind; [apply (rec_parse_upto r (fun res => (fst res <= 0 /\ snd res = r) \/
    fst res = CT_HANDSHAKE /\ inside m (r_rec (snd res)) /\ inside m (r_in (snd res)))); [done|by left|by right]|].
  intros [x r'] Hres. cbn [fst snd] in Hres. destruct Hres as [[Hx ->]|(-> & Hrec & Hin')].
  - case_match; [leave|]. bool_to_prop. rewrite (proj2 (Z.ltb_lt _ _)) by lia. leave.
  - change (CT_HANDSHAKE =? 0) with false. change (CT_HANDSHAKE <? 0) with false. cbv iota. rewrite Z.eqb_refl.
    apply go_on; [done|stay|cbn; lia|done|done|done].
Qed.

Lemma hshake_turn : r_state r = I_HSHAKE -> upto overrun (parse_loop m (S fuel) r) (left_ok r).
Proof.
  intros Hs. pose proof (ok_rec _ Hok ltac:(congruence)) as Hr. unfold turns in Hf. rewrite Hs in Hf. cbn [parse_loop]. rewrite Hs.
  case_match; [leave|].
  eapply upto_bind; [apply (hshake_parse_upto r (fun res => (fst res = 0 /\ snd res = r) \/
    exists rec buf, inside m rec /\ inside m buf /\ v_len rec + 4 <= v_len (r_rec r) /\
      snd res = r <| r_rec := rec |> <| r_buf := buf |>)); [done|by left|naive_solver]|].
  intros [x r'] Hres. cbn [fst snd] in Hres. destruct Hres as [[-> ->]|(rec & buf & Hrec & Hbuf & Hlt & ->)]; [leave|].
  case_match; [leave|].
  assert (forall st, st = I_CLIHEL \/ st = I_CERTS ->
    upto overrun (parse_loop m fuel (in_state st (r <| r_rec := rec |> <| r_buf := buf |>))) (left_ok r)) as Hnext.
  { intros st [->| ->]; (apply go_on; [done|stay|cbn; lia|done|done|]); unfold record_left; cbn; rewrite Hs; lia. }
  repeat (case_match; [first [apply Hnext; by auto | leave; rewrite Hs; lia]|]). leave.
Qed.

Lemma clihel_turn : r_state r = I_CLIHEL -> upto overrun (parse_loop m (S fuel) r) (left_ok r).
Proof.
  intros Hs. pose proof (ok_rec _ Hok ltac:(congruence)) as Hr. pose proof (ok_buf _ Hok ltac:(congruence) ltac:(congruence)) as Hb.
  cbn [parse_loop]. rewrite Hs.
  eapply upto_bind; [apply (hello_parse_upto r (fun res => fst res = false /\ snd res = r \/
    exists buf, inside m buf /\ snd res = r <| r_buf := buf |>)); [done|by left|naive_solver]|].
  intros [x r'] Hres. cbn [fst snd] in Hres. destruct Hres as [[-> ->]|(buf & Hbuf & ->)]; cbn [fst snd]; [leave|].
  destruct x; leave. rewrite Hs. lia.
Qed.

Lemma exts_turn : r_state r = I_CLIHEL_EXTS -> upto overrun (parse_loop m (S fuel) r) (left_ok r).
Proof.
  intros Hs. pose proof (ok_rec _ Hok ltac:(congruence)) as Hr. pose proof (ok_buf _ Hok ltac:(congruence) ltac:(congruence)) as Hb.
  unfold turns in Hf. rewrite Hs in Hf. cbn [parse_loop]. rewrite Hs.
  eapply upto_bind; [apply (exts_data_upto r (fun res => fst res = false /\ snd res = r \/
    exists buf, inside m buf /\ v_len buf <= v_len (r_buf r) - 2 /\ snd res = r <| r_buf := buf |>)); [done|by left|naive_solver]|].
  intros [x r'] Hres. cbn [fst snd] in Hres. destruct Hres as [[-> ->]|(buf & Hbuf & Hlen & ->)]; cbn [fst snd]; [leave|].
  destruct x; [|leave]. apply go_on; [done|stay|unfold turns; cbn; lia|done|done|]. unfold record_left. cbn. rewrite Hs. lia.
Qed.

Lemma ext_turn : r_state r = I_CLIHEL_EXT -> upto overrun (parse_loop m (S fuel) r) (left_ok r).
Proof.
  intros Hs. pose proof (ok_rec _ Hok ltac:(congruence)) as Hr. pose proof (ok_buf _ Hok ltac:(congruence) ltac:(congruence)) as Hb.
  unfold turns in Hf. rewrite Hs in Hf. cbn [parse_loop]. rewrite Hs. unfold is_empty. case_match; bool_to_prop.
  { apply go_on; [done|stay|unfold turns; cbn; lia|done|done|]. unfold record_left. cbn. rewrite Hs. lia. }
  eapply upto_bind; [apply (ext_parse_upto r (fun res => exists name buf, inside m buf /\
    snd res = r <| r_tls_hostname := name |> <| r_buf := buf |> /\
    match fst res with
    | Some TLS_RERR | None => True
    | Some TLS_RDONE => v_len buf <= v_len (r_buf r) - 4
    | Some TLS_RCLIENT_HELLO_SNI => inside m name
    | _ => False
    end)); [done|..]|].
  - exists (r_tls_hostname r), (r_buf r). split; [done|]. by destruct r.
  - intros x name buf Hbuf Hlen [->| ->] _; cbn; eauto.
  - intros name buf Hbuf Hname. cbn. eauto.
  - intros [x r'] (name & buf & Hbuf & Hres & Hx). cbn [fst snd] in Hres, Hx. subst r'. destruct x as [[]|]; try done; try leave.
    apply go_on; [done|stay|unfold turns; cbn; rewrite Hs; lia|done|cbn; congruence|]. unfold record_left. cbn. lia.
Qed.

Lemma certs_turn : r_state r = I_CERTS -> upto overrun (parse_loop m (S fuel) r) (left_ok r).
Proof.
  intros Hs. pose proof (ok_rec _ Hok ltac:(congruence)) as Hr. pose proof (ok_buf _ Hok ltac:(congruence) ltac:(congruence)) as Hb.
  cbn [parse_loop]. rewrite Hs.
  eapply upto_bind; [apply (certs_parse_upto r (fun res => exists name, snd res = r <| r_x509_subject_common_name := name |>)); [done|eauto]|].
  intros [x r'] [name Hres]. cbn [fst snd] in *. subst r'. destruct x; leave. rewrite Hs. lia.
Qed.
End Turn.

Lemma parse_loop_upto fuel : goes_on fuel.
Proof.
  induction fuel as [|fuel IH]; intros r Hok Hf.
  - exfalso. destruct Hok as [_ _ Hb]. unfold turns in Hf. destruct (r_state r) eqn:Hs; try lia;
      specialize (Hb ltac:(done) ltac:(done)); destruct Hb as (_ & _ & ? & _); lia.
  - destruct (r_state r) eqn:Hs; [by apply rec_turn|by apply hshake_turn|by apply clihel_turn|by apply exts_turn|by apply ext_turn|by apply certs_turn].
Qed.

(** Whatever the bytes are, a call returns, and before the check of [hshake_parse] lets it leave a record it
    reads inside the buffer only, as do the views it leaves to the next call. *)
Lemma tls_parse_upto r : reader_ok r -> upto overrun (tls_parse m r) (left_ok r).
Proof.
  intros Hr. apply parse_loop_upto; [done|]. destruct Hr as [_ _ Hb]. unfold turns, inside, mem_size in *.
  destruct (r_state r); try lia; specialize (Hb ltac:(done) ltac:(done)); lia.
Qed.
End Bounds.

(** ** Messages put together as the protocol says (RFC 8446, RFC 6066) *)

(** Data behind its length. *)
Definition sized (w : nat) (data : list Z) : list Z := be_bytes w (Z.of_nat (length data)) ++ data.

Definition put_ext (e : Z * list Z) : list Z := be_bytes 2 (fst e) ++ sized 2 (snd e).
Definition server_name (host : list Z) : Z * list Z := (EXT_SERVER_NAME, sized 2 (SNI_HOST_NAME :: sized 2 host)).
Definition put_exts (exts : list (Z * list Z)) : list Z := concat (map put_ext exts).
Definition put_hshake (type : Z) (body : list Z) : list Z := type :: sized 3 body.
Definition put_record (version : Z) (body : list Z) : list Z := CT_HANDSHAKE :: be_bytes 2 version ++ sized 2 body.

(** A client hello that names the host in one of its extensions. *)
Record Hello := mkHello {
  h_version_random : list Z;
  h_session : list Z;
  h_ciphers : list Z;
  h_methods : list Z;
  h_before : list (Z * list Z);
  h_host : list Z;
  h_after : list (Z * list Z);
}.

Definition put_hello_exts (h : Hello) : list Z := put_exts (h_before h ++ server_name (h_host h) :: h_after h).
Definition put_hello (h : Hello) : list Z :=
  h_version_random h ++ sized 1 (h_session h) ++ sized 2 (h_ciphers h) ++ sized 1 (h_methods h) ++ sized 2 (put_hello_exts h).

Record hello_ok (h : Hello) : Prop := mkHelloOk {
  ho_fixed : length (h_version_random h) = 34%nat;
  ho_session : Z.of_nat (length (h_session h)) < 2 ^ 8;
  ho_methods : Z.of_nat (length (h_methods h)) < 2 ^ 8;
  ho_before : Forall (fun e => in_width 16 (fst e) /\ fst e <> EXT_SERVER_NAME) (h_before h);
  ho_length : Z.of_nat (length (put_hello h)) < 2 ^ 16;
}.

Lemma sized_length w data : length (sized w data) = (w + length data)%nat.
Proof. unfold sized. by rewrite length_app, be_bytes_length. Qed.

Lemma put_exts_cons e exts : put_exts (e :: exts) = put_ext e ++ put_exts exts.
Proof. done. Qed.

Lemma put_ext_length e : length (put_ext e) = (4 + length (snd e))%nat.
Proof. unfold put_ext. rewrite length_app, be_bytes_length, sized_length. lia. Qed.

Lemma put_hello_length h :
  length (put_hello h) = (length (h_version_random h) + (1 + length (h_session h)) + (2 + length (h_ciphers h)) +
    (1 + length (h_methods h)) + (2 + length (put_hello_exts h)))%nat.
Proof. unfold put_hello. rewrite !length_app, !sized_length. lia. Qed.

Ltac lens := repeat progress (cbn [length app]; rewrite ?length_app, ?sized_length, ?be_bytes_length, ?put_ext_length); try lia.
Ltac apps := rewrite <- ?app_assoc; try done.

Section Hello.
Context `{CertLib} (m : Memory).
Hypothesis Hm : mem_size m < 2 ^ 64.
Implicit Types (r : TlsReader).

(** Each step on a view that shows what was put. *)

Lemma datalen_sized w v bytes a data c d end_ :
  shows m v bytes -> bytes = a ++ sized w data ++ c -> d = Z.of_nat (length a) ->
  in_width (8 * Z.of_nat w) (Z.of_nat (length data)) -> d + Z.of_nat w + Z.of_nat (length data) <= end_ ->
  datalen m (Z.of_nat w) v d end_ = (Some (Z.of_nat (length data)), []).
Proof.
  intros Hv Hb Hd Hw He. unfold datalen. rewrite (proj2 (Z.ltb_ge _ _)) by lia. unfold sized in Hb. rewrite <- app_assoc in Hb.
  rewrite (shows_get m v bytes a (Z.of_nat (length data)) (data ++ c) _ _ w Hv) by done.
  rewrite checked_bind_ok. rewrite (proj2 (Z.ltb_ge _ _)) by lia. done.
Qed.

Lemma rec_parse_put r version body rest :
  shows m (r_in r) (put_record version body ++ rest) -> in_width 16 version -> 769 <= version -> Z.of_nat (length body) < 2 ^ 16 ->
  exists rec in_, rec_parse m r (r_in r) = ((CT_HANDSHAKE, r <| r_rec := rec |> <| r_in := in_ |>), []) /\
    shows m rec body /\ shows m in_ rest.
Proof.
  intros Hv Hw Hver Hlen. unfold put_record in Hv. pose proof (shows_len _ _ _ Hv) as Hl.
  revert Hl. cbn [length app]. lens. intros Hl. unfold rec_parse, REC_SIZE.
  rewrite (proj2 (Z.leb_le 2 _)) by lia. rewrite (shows_byte m _ _ [] CT_HANDSHAKE _ 0 Hv) by done.
  rewrite checked_bind_ok, Z.eqb_refl. cbn [negb]. rewrite (proj2 (Z.ltb_ge _ 5)) by lia.
  rewrite (shows_get m _ _ (CT_HANDSHAKE :: be_bytes 2 version) (Z.of_nat (length body)) (body ++ rest) 3 2 2 Hv);
    [|unfold sized; cbn; by apps|lens|done|unfold in_width; cbn; lia].
  rewrite checked_bind_ok. rewrite (proj2 (Z.ltb_ge _ _)) by lia.
  rewrite (shows_get m _ _ [CT_HANDSHAKE] version (sized 2 body ++ rest) 1 2 2 Hv); [|cbn; by apps|done..].
  rewrite checked_bind_ok. rewrite (proj2 (Z.ltb_ge _ 769)) by lia.
  destruct (shows_remove_prefix m (r_in r) _ (put_record version body) rest (5 + Z.of_nat (length body)) Hm Hv) as [E Hin]; [done|unfold put_record; lens|].
  rewrite E, checked_bind_ok. eexists _, _. split; [done|]. split; [|done].
  eapply (shows_sub m _ _ (CT_HANDSHAKE :: be_bytes 2 version ++ be_bytes 2 (Z.of_nat (length body))) body rest); [done| |lens|done].
  unfold sized. cbn. by apps.
Qed.

Lemma hshake_parse_put r type body rest :
  shows m (r_rec r) (put_hshake type body ++ rest) -> Z.of_nat (length body) < 2 ^ 24 ->
  exists rec buf, hshake_parse m r (r_rec r) = ((type, r <| r_rec := rec |> <| r_buf := buf |>), []) /\
    shows m rec rest /\ shows m buf body.
Proof.
  intros Hv Hlen. unfold put_hshake in Hv. pose proof (shows_len _ _ _ Hv) as Hl. revert Hl. cbn [length app]. lens. intros Hl.
  unfold hshake_parse, HSHAKE_SIZE. rewrite (proj2 (Z.ltb_ge _ 4)) by lia.
  rewrite (shows_get m _ _ [type] (Z.of_nat (length body)) (body ++ rest) 1 3 3 Hv);
    [|unfold sized; cbn; by apps|done|done|unfold in_width; cbn; lia].
  rewrite checked_bind_ok. rewrite uwrap_id by (destruct Hv as [(_ & ? & ? & ?) _]; unfold in_width; lia).
  rewrite (proj2 (Z.ltb_ge _ _)) by lia.
  destruct (shows_remove_prefix m (r_rec r) _ (put_hshake type body) rest (4 + Z.of_nat (length body)) Hm Hv) as [E Hin]; [done|unfold put_hshake; lens|].
  rewrite E, checked_bind_ok. rewrite (shows_byte m _ _ [] type _ 0 Hv), checked_bind_ok by done.
  eexists _, _. split; [done|]. split; [done|].
  eapply (shows_sub m _ _ (type :: be_bytes 3 (Z.of_nat (length body))) body rest); [done| |lens|done]. unfold sized. cbn. by apps.
Qed.

Lemma hello_parse_put r h :
  hello_ok h -> shows m (r_buf r) (put_hello h) ->
  exists buf, hello_parse m r (r_buf r) = ((true, r <| r_buf := buf |>), []) /\ shows m buf (sized 2 (put_hello_exts h)).
Proof.
  intros [Hfix Hsid Hcomp _ Hlen] Hv. pose proof (shows_len _ _ _ Hv) as Hl. rewrite put_hello_length in Hlen, Hl. unfold put_hello in Hv.
  unfold hello_parse, CLIENT_HELLO_SIZE. rewrite (proj2 (Z.ltb_ge _ 35)) by lia.
  rewrite (shows_get m _ _ (h_version_random h) (Z.of_nat (length (h_session h)))
    (h_session h ++ sized 2 (h_ciphers h) ++ sized 1 (h_methods h) ++ sized 2 (put_hello_exts h)) _ 1 1 Hv);
    [|unfold sized; by apps|lia|done|unfold in_width; cbn; lia].
  rewrite checked_bind_ok. rewrite (proj2 (Z.ltb_ge _ _)) by lia. unfold datalen16, datalen8.
  rewrite (datalen_sized 2 _ _ (h_version_random h ++ sized 1 (h_session h)) (h_ciphers h)
    (sized 1 (h_methods h) ++ sized 2 (put_hello_exts h)) _ _ Hv); [|by apps|lens|unfold in_width; cbn; lia|lia].
  rewrite checked_bind_ok.
  rewrite (datalen_sized 1 _ _ (h_version_random h ++ sized 1 (h_session h) ++ sized 2 (h_ciphers h)) (h_methods h)
    (sized 2 (put_hello_exts h)) _ _ Hv); [|by apps|lens|unfold in_width; cbn; lia|lia].
  rewrite checked_bind_ok. eexists. split; [done|].
  eapply (shows_sub m _ _ (h_version_random h ++ sized 1 (h_session h) ++ sized 2 (h_ciphers h) ++ sized 1 (h_methods h)) _ []);
    [done|rewrite app_nil_r; by apps|lens|lens].
Qed.

Lemma exts_data_put r exts :
  shows m (r_buf r) (sized 2 exts) -> Z.of_nat (length exts) < 2 ^ 16 ->
  exists buf, exts_data m r (r_buf r) = ((true, r <| r_buf := buf |>), []) /\ shows m buf exts.
Proof.
  intros Hv Hlen. pose proof (shows_len _ _ _ Hv) as Hl. rewrite sized_length in Hl. unfold exts_data, datalen16.
  rewrite (datalen_sized 2 _ _ [] exts [] _ _ Hv); [|by rewrite app_nil_r|done|unfold in_width; cbn; lia|lia].
  rewrite checked_bind_ok.
  destruct (shows_remove_prefix m (r_buf r) _ (be_bytes 2 (Z.of_nat (length exts))) exts 2 Hm Hv) as [E Hbuf]; [done|by lens|].
  rewrite E, checked_bind_ok. eauto.
Qed.

(** An extension is taken off the front. *)
Lemma ext_parse_put r e rest :
  shows m (r_buf r) (put_ext e ++ rest) -> in_width 16 (fst e) -> Z.of_nat (length (snd e)) < 2 ^ 16 ->
  exists v buf, shows m v (snd e) /\ shows m buf rest /\
    ext_parse m r = (res ← (if fst e =? EXT_SERVER_NAME then ext_servname_parse m r v else mret (Some TLS_RDONE, r));
                     mret (fst res, (snd res) <| r_buf := buf |>)).
Proof.
  intros Hv Hw Hlen. pose proof (shows_len _ _ _ Hv) as Hl. revert Hl. lens. intros Hl. unfold put_ext in Hv.
  unfold ext_parse, EXT_SIZE. rewrite (proj2 (Z.ltb_ge _ 4)) by lia.
  rewrite (shows_get m _ _ (be_bytes 2 (fst e)) (Z.of_nat (length (snd e))) (snd e ++ rest) 2 2 2 Hv);
    [|unfold sized; by apps|lens|done|unfold in_width; cbn; lia].
  rewrite checked_bind_ok. rewrite (proj2 (Z.ltb_ge _ _)) by lia.
  rewrite (shows_get m _ _ [] (fst e) (sized 2 (snd e) ++ rest) 0 2 2 Hv); [|by apps|done..].
  rewrite checked_bind_ok. eexists _, _. split_and!; [..|done].
  - eapply (shows_sub m _ _ (be_bytes 2 (fst e) ++ be_bytes 2 (Z.of_nat (length (snd e)))) (snd e) rest); [done|unfold sized; by apps|lens|done].
  - eapply (shows_sub m _ _ (be_bytes 2 (fst e) ++ sized 2 (snd e)) rest []); [done|rewrite app_nil_r; by apps|lens|lia].
Qed.

Lemma ext_servname_parse_put r v host :
  shows m v (snd (server_name host)) -> Z.of_nat (length host) < 2 ^ 16 - 3 ->
  exists name, ext_servname_parse m r v = ((Some TLS_RCLIENT_HELLO_SNI, r <| r_tls_hostname := name |>), []) /\ shows m name host.
Proof.
  intros Hv Hlen. unfold server_name in Hv. cbn [snd] in Hv. pose proof (shows_len _ _ _ Hv) as Hl. revert Hl. lens. intros Hl.
  unfold ext_servname_parse, datalen16.
  rewrite (datalen_sized 2 _ _ [] (SNI_HOST_NAME :: sized 2 host) [] _ _ Hv); [|by rewrite app_nil_r|done|..];
    [|unfold in_width; change (8 * Z.of_nat 2) with 16; lens|lens].
  rewrite checked_bind_ok. lens. cbn [serv_names]. unfold SERV_NAME_SIZE. rewrite (proj2 (Z.ltb_ge _ 3)) by lia.
  set (n := Z.of_nat (length (SNI_HOST_NAME :: sized 2 host))) in *.
  rewrite (shows_get m _ _ (be_bytes 2 n ++ [SNI_HOST_NAME]) (Z.of_nat (length host)) host _ 2 2 Hv);
    [|unfold sized at 1; by apps|by lens|done|unfold in_width; change (8 * Z.of_nat 2) with 16; lens].
  rewrite checked_bind_ok. rewrite (proj2 (Z.ltb_ge _ _)) by lia.
  rewrite (shows_byte m _ _ (be_bytes 2 n) SNI_HOST_NAME (sized 2 host) _ Hv); [|by unfold sized at 1|by lens].
  rewrite checked_bind_ok, Z.eqb_refl. eexists. split; [done|].
  eapply (shows_sub m _ _ (be_bytes 2 n ++ SNI_HOST_NAME :: be_bytes 2 (Z.of_nat (length host))) host []); [done| |by lens|done].
  rewrite app_nil_r. unfold sized, n. by apps.
Qed.

(** The loop over the extensions stops at the server name. *)
Lemma exts_put before host after : forall fuel r,
  r_state r = I_CLIHEL_EXT -> shows m (r_buf r) (put_exts (before ++ server_name host :: after)) ->
  Forall (fun e => in_width 16 (fst e) /\ fst e <> EXT_SERVER_NAME) before ->
  Z.of_nat (length (put_exts (before ++ server_name host :: after))) < 2 ^ 16 -> (length before < fuel)%nat ->
  exists r', parse_loop m fuel r = ((TLS_RCLIENT_HELLO_SNI, r'), []) /\ shows m (r_tls_hostname r') host.
Proof.
  induction before as [|e before IH]; intros [|fuel] r Hst Hv Hall Hlen Hfuel; cbn [length] in Hfuel; try lia;
    cbn [app] in Hv, Hlen; rewrite put_exts_cons in Hv, Hlen; revert Hlen; lens; intros Hlen; cbn [parse_loop]; rewrite Hst;
    unfold is_empty; rewrite (shows_len _ _ _ Hv); lens; rewrite (proj2 (Z.eqb_neq _ 0)) by lia.
  - destruct (ext_parse_put r _ _ Hv) as (v & buf & Hd & _ & ->); [done|lia|].
    destruct (ext_servname_parse_put r v host Hd) as (name & E & Hname); [revert Hlen; unfold server_name; cbn [snd]; lens|].
    change (fst (server_name host) =? EXT_SERVER_NAME) with true. cbv iota. rewrite E, !checked_bind_ok. eauto.
  - apply Forall_cons in Hall as [[Hw Hne] Hall].
    destruct (ext_parse_put r _ _ Hv) as (v & buf & _ & Hbuf & ->); [done|lia|].
    rewrite (proj2 (Z.eqb_neq _ _) Hne), !checked_bind_ret. apply (IH fuel (r <| r_buf := buf |>)); try done; lia.
Qed.

(** A client hello at the start of what is read: the first call stops behind its fixed part, the second at the name. *)
Lemma clihel_put fuel r h :
  r_state r = I_CLIHEL -> hello_ok h -> shows m (r_buf r) (put_hello h) ->
  exists buf, parse_loop m (S fuel) r = ((TLS_RCLIENT_HELLO, r <| r_buf := buf |> <| r_state := I_CLIHEL_EXTS |>), []) /\
    shows m buf (sized 2 (put_hello_exts h)).
Proof.
  intros Hst Hok Hv. destruct (hello_parse_put r h Hok Hv) as (buf & E & Hbuf). cbn [parse_loop]. rewrite Hst, E, checked_bind_ok. eauto.
Qed.

Lemma hshake_put fuel r h rest :
  r_state r = I_HSHAKE -> hello_ok h -> shows m (r_rec r) (put_hshake HS_CLIENT_HELLO (put_hello h) ++ rest) ->
  exists r', parse_loop m (S (S fuel)) r = ((TLS_RCLIENT_HELLO, r'), []) /\ r_state r' = I_CLIHEL_EXTS /\ r_in r' = r_in r /\
    shows m (r_buf r') (sized 2 (put_hello_exts h)).
Proof.
  intros Hst Hok Hv. destruct (hshake_parse_put r _ _ _ Hv) as (rec & buf & E & _ & Hbuf); [pose proof (ho_length _ Hok); lia|].
  remember (S fuel) as f eqn:Ef. cbn [parse_loop]. rewrite Hst, E, checked_bind_ok. unfold is_empty. rewrite (shows_len _ _ _ Hv). unfold put_hshake. lens.
  rewrite (proj2 (Z.eqb_neq _ 0)) by lia. change (HS_CLIENT_HELLO <=? 0) with false. change (HS_CLIENT_HELLO =? HS_CLIENT_HELLO) with true. cbv iota.
  destruct (clihel_put fuel (in_state I_CLIHEL (r <| r_rec := rec |> <| r_buf := buf |>)) h) as (buf' & E' & Hbuf'); try done.
  subst f. rewrite E'. eauto.
Qed.

Lemma record_put fuel r version h rest :
  r_state r = I_REC -> hello_ok h -> in_width 16 version -> 769 <= version ->
  Z.of_nat (length (put_hello h)) < 2 ^ 16 - 4 ->
  shows m (r_in r) (put_record version (put_hshake HS_CLIENT_HELLO (put_hello h)) ++ rest) ->
  exists r', parse_loop m (S (S (S fuel))) r = ((TLS_RCLIENT_HELLO, r'), []) /\ r_state r' = I_CLIHEL_EXTS /\
    shows m (r_buf r') (sized 2 (put_hello_exts h)).
Proof.
  intros Hst Hok Hw Hver Hlen Hv. destruct (rec_parse_put r _ _ _ Hv Hw Hver) as (rec & in_ & E & Hrec & _); [unfold put_hshake; lens|].
  remember (S (S fuel)) as f eqn:Ef. cbn [parse_loop]. rewrite Hst, E, checked_bind_ok. change (CT_HANDSHAKE =? 0) with false. change (CT_HANDSHAKE <? 0) with false.
  rewrite Z.eqb_refl. destruct (hshake_put fuel (in_state I_HSHAKE (r <| r_rec := rec |> <| r_in := in_ |>)) h []) as (r' & E' & Hst' & _ & Hbuf);
    [done|done|by rewrite app_nil_r|]. subst f. rewrite E'. eauto.
Qed.

Lemma second_call_put r h :
  r_state r = I_CLIHEL_EXTS -> hello_ok h -> shows m (r_buf r) (sized 2 (put_hello_exts h)) ->
  exists r', tls_parse m r = ((TLS_RCLIENT_HELLO_SNI, r'), []) /\ shows m (r_tls_hostname r') (h_host h).
Proof.
  intros Hst [_ _ _ Hbefore Hlen] Hv. rewrite put_hello_length in Hlen.
  destruct (exts_data_put r _ Hv) as (buf & E & Hbuf); [lia|]. unfold tls_parse.
  replace (length (mem_bytes m) + 8)%nat with (S (length (mem_bytes m) + 7)) by lia.
  remember (length (mem_bytes m) + 7)%nat as fuel eqn:Efuel. cbn [parse_loop]. rewrite Hst, E, checked_bind_ok. cbn [fst snd].
  destruct Hbuf as [Hin Hbytes]. pose proof (shows_len _ _ _ (conj Hin Hbytes)) as Hl.
  apply (exts_put (h_before h) (h_host h) (h_after h)); [done|done|done|unfold put_hello_exts in Hlen; lia|].
  assert (forall l : list (Z * list Z), length l <= length (put_exts l))%nat as Hle.
  { intros l. induction l as [|e l IH]; [done|]. rewrite put_exts_cons. lens. }
  specialize (Hle (h_before h ++ server_name (h_host h) :: h_after h)). rewrite length_app in Hle.
  destruct Hin as (_ & ? & _ & ?). unfold mem_size, put_hello_exts in *. lia.
Qed.
End Hello.
