(* ===== verification/Quic.v ===== *)
(** * Initial packets of QUIC

    Models [net/src/quic_utils.cpp]: the decryption of the initial packet of a QUIC
    connection and the reassembly of the handshake data in it, from which the domain lookup
    takes the server name.  The cryptography of BoringSSL and ngtcp2 is a class, with the
    sizes it documents; the header comes decoded by ngtcp2. *)

From S2P Require Import Prelude VpnTypes Wire View DomainFilter.

(** ** Numbers of variable length *)

(** [get_varint]: the length the first byte gives, and the value. *)
Definition varint_length (b : Z) : Z := Z.shiftl 1 (Z.shiftr b 6).

Definition get_varint (buf : list Z) : Z :=
  match buf with
  | [] => 0
  | b :: _ =>
      let len := varint_length b in
      if len =? 1 then b else be_value (Z.land b 63 :: take (Z.to_nat len - 1) (drop 1 buf))
  end.

Definition read_varint_advance (b : list Z) : option (Z * list Z) :=
  match b with
  | [] => None
  | b0 :: _ =>
      let len := varint_length b0 in
      if Z.of_nat (length b) <? len then None else Some (get_varint b, drop (Z.to_nat len) b)
  end.

(** ** Handshake data *)

Definition FRAME_PADDING : Z := 0.
Definition FRAME_PING : Z := 1.
Definition FRAME_CRYPTO : Z := 6.

(** [std::set<Link>]: by offset, the first of equal ones. *)
Definition Fragments : Type := list (Z * list Z).
Fixpoint emplace (offset : Z) (data : list Z) (fs : Fragments) : Fragments :=
  match fs with
  | [] => [(offset, data)]
  | (o, d) :: rest =>
      if offset <? o then (offset, data) :: fs
      else if offset =? o then fs
      else (o, d) :: emplace offset data rest
  end.

(** The loop over the frames; [None] when the payload is malformed, [wrong] when the fuel is out. *)
Fixpoint crypto_frames (fuel : nat) (payload : list Z) (fs : Fragments) : Checked (option Fragments) :=
  match fuel with
  | O => _ ← wrong "out of fuel"; mret None
  | S fuel =>
    match read_varint_advance payload with
    | None => mret (Some fs)
    | Some (type, payload) =>
        if (type =? FRAME_PADDING) || (type =? FRAME_PING) then crypto_frames fuel payload fs
        else if type =? FRAME_CRYPTO then
          match read_varint_advance payload with
          | None => mret None
          | Some (offset, payload) =>
              match read_varint_advance payload with
              | None => mret None
              | Some (len, payload) =>
                  if Z.of_nat (length payload) <? len then mret None
                  else crypto_frames fuel (drop (Z.to_nat len) payload) (emplace offset (take (Z.to_nat len) payload) fs)
              end
          end
        else mret (Some fs)
    end
  end.

Definition reassemble_initial_crypto_frames (payload : list Z) : Checked (option (list Z)) :=
  fs ← crypto_frames (S (length payload)) payload [];
  mret match (fs : option Fragments) with
       | None | Some [] => None
       | Some fs => Some (concat (map snd fs))
       end.

(** ** Headers *)

Inductive QuicPacketType := INITIAL | RETRY | HANDSHAKE | ZERO_RTT | SHORT | VERSION_NEGOTIATION.

(** The type of a header that has none of these is [0]. *)
Record QuicPacketHeader := mkQuicHeader {
  hd_version : Z;
  hd_type : option QuicPacketType;
  hd_scid : list Z;
  hd_scid_len : Z;
  hd_dcid : list Z;
  hd_dcid_len : Z;
  hd_token : list Z;
  hd_token_len : Z;
}.

Inductive Ngtcp2PacketType :=
| NGTCP2_PKT_INITIAL | NGTCP2_PKT_0RTT | NGTCP2_PKT_HANDSHAKE | NGTCP2_PKT_RETRY | NGTCP2_PKT_1RTT
| NGTCP2_PKT_VERSION_NEGOTIATION | NGTCP2_PKT_STATELESS_RESET | NGTCP2_PKT_OTHER.

(** [ngtcp2_pkt_hd]; the ids and the token with their lengths *)
Record PktHd := mkPktHd { pkt_version : Z; pkt_type : Ngtcp2PacketType; pkt_scid : list Z; pkt_dcid : list Z; pkt_token : list Z }.

(** The decoders of ngtcp2. *)
Class QuicHeaders := {
  decode_hd_long : list Z -> option PktHd;
  decode_hd_short : list Z -> option PktHd;
}.

Definition QUIC_MAX_TOKEN_LEN : nat := 128.

Definition packet_type (type : Ngtcp2PacketType) (otherwise : option QuicPacketType) : option QuicPacketType :=
  match type with
  | NGTCP2_PKT_INITIAL => Some INITIAL
  | NGTCP2_PKT_STATELESS_RESET | NGTCP2_PKT_RETRY => Some RETRY
  | NGTCP2_PKT_HANDSHAKE => Some HANDSHAKE
  | NGTCP2_PKT_0RTT => Some ZERO_RTT
  | NGTCP2_PKT_1RTT => Some SHORT
  | NGTCP2_PKT_VERSION_NEGOTIATION => Some VERSION_NEGOTIATION
  | NGTCP2_PKT_OTHER => otherwise
  end.

Definition header_of (type : option QuicPacketType) (pkt_hd : PktHd) : QuicPacketHeader := {|
  hd_version := pkt_version pkt_hd; hd_type := packet_type (pkt_type pkt_hd) type;
  hd_scid := pkt_scid pkt_hd; hd_scid_len := Z.of_nat (length (pkt_scid pkt_hd));
  hd_dcid := pkt_dcid pkt_hd; hd_dcid_len := Z.of_nat (length (pkt_dcid pkt_hd));
  hd_token := take QUIC_MAX_TOKEN_LEN (pkt_token pkt_hd); hd_token_len := Z.of_nat (length (pkt_token pkt_hd)) |}.

Definition parse_quic_header `{QuicHeaders} (initial_packet : list Z) : option QuicPacketHeader :=
  match initial_packet with
  | [] => None
  | _ => match decode_hd_long initial_packet with
         | Some pkt_hd => Some (header_of None pkt_hd)
         | None => header_of (Some SHORT) <$> decode_hd_short initial_packet
         end
  end.

(** ** Decryption *)

Definition MIN_CLIENT_INITIAL_LEN : Z := 1200.
Definition QUIC_INITIAL_SECRETLEN : nat := 32.
Definition QUIC_INITIAL_KEYLEN : nat := 16.
Definition QUIC_INITIAL_IVLEN : nat := 12.
Definition HP_SAMPLE_LEN : Z := 16.

Definition V1_SALT : list Z := [56; 118; 44; 247; 245; 89; 52; 179; 77; 23; 154; 230; 164; 200; 12; 173; 204; 187; 127; 10].
Definition DRAFT_28_SALT : list Z := [175; 191; 236; 40; 153; 147; 210; 76; 158; 151; 134; 241; 156; 97; 17; 224; 67; 144; 168; 153].
Definition QUIC_INITIAL_SALTS : list (Z * list Z) := [(4278190114, V1_SALT); (4278190108, DRAFT_28_SALT); (1, V1_SALT)].

(** The keys are derived by HKDF, the header is protected by a mask made from a sample of the packet,
    the payload by an AEAD cipher. *)
Class QuicCrypto := {
  hkdf_extract : list Z -> list Z -> option (list Z);
  hkdf_expand : nat -> list Z -> list Z -> option (list Z);
  hp_mask : list Z -> list Z -> option (list Z);
  aead_decrypt : list Z -> list Z -> list Z -> list Z -> option (list Z);
  max_overhead : Z;
  max_overhead_nonneg : 0 <= max_overhead;
  hp_mask_length key sample mask : hp_mask key sample = Some mask -> (5 <= length mask)%nat;
  aead_decrypt_length key ciphertext nonce ad plaintext :
    aead_decrypt key ciphertext nonce ad = Some plaintext ->
    Z.of_nat (length plaintext) = Z.of_nat (length ciphertext) - max_overhead;
}.

Definition WRITE_OUT_OF_BOUNDS : string := "write out of bounds".

(** [v[i] ^= x] *)
Definition xor_at (v : list Z) (i x : Z) : Checked (list Z) :=
  let old := nth (Z.to_nat i) v 0 in
  (<[Z.to_nat i := Z.lxor old x]> v, if (0 <=? i) && (i <? Z.of_nat (length v)) then [] else [WRITE_OUT_OF_BOUNDS]).

(** [v[base + i] ^= mask[i]] for each [i] *)
Fixpoint xor_range (v : list Z) (base : Z) (mask : list Z) : Checked (list Z) :=
  match mask with
  | [] => mret v
  | x :: mask => v ← xor_at v base x; xor_range v (base + 1) mask
  end.

(** Copies the bytes into the vector. *)
Definition write_at (v : list Z) (i : Z) (bytes : list Z) : Checked (list Z) :=
  (take (Z.to_nat i) v ++ bytes ++ drop (Z.to_nat i + length bytes) v,
   if (0 <=? i) && (i + Z.of_nat (length bytes) <=? Z.of_nat (length v)) then [] else [WRITE_OUT_OF_BOUNDS]).

Section Decrypt.
Context `{QuicCrypto} (m : Memory).

(** [tls13_utils::hkdf_expand_label], with no context *)
Definition hkdf_expand_label (size : nat) (secret : list Z) (label : string) : option (list Z) :=
  let full_label := txt "tls13 " ++ txt label in
  hkdf_expand size secret
    (be_bytes 2 (Z.of_nat size) ++ be_bytes 1 (Z.of_nat (length full_label)) ++ full_label ++ [0]).

(** The keys of the client for a connection id. *)
Definition initial_keys (hd : QuicPacketHeader) : option (list Z * list Z * list Z) :=
  '(_, salt) ← List.find (fun s => fst s <=? hd_version hd) QUIC_INITIAL_SALTS;
  initial_secret ← hkdf_extract (take (Z.to_nat (hd_dcid_len hd)) (hd_dcid hd)) salt;
  client_secret ← hkdf_expand_label QUIC_INITIAL_SECRETLEN initial_secret "client in";
  payload_key ← hkdf_expand_label QUIC_INITIAL_KEYLEN client_secret "quic key";
  payload_iv ← hkdf_expand_label QUIC_INITIAL_IVLEN client_secret "quic iv";
  hp_key ← hkdf_expand_label QUIC_INITIAL_KEYLEN client_secret "quic hp";
  Some (payload_key, payload_iv, hp_key).

(** Where the parts of the packet are. *)
Definition token_length_offset (hd : QuicPacketHeader) : Z := 1 + 4 + 1 + hd_dcid_len hd + 1 + hd_scid_len hd.

(** The packet with its header unprotected, and the length of its packet number. *)
Definition unprotect (packet mask : list Z) (pn_offset : Z) : Checked (list Z * Z) :=
  packet ← xor_at packet 0 (Z.land (nth 0 mask 0) 15);
  let pn_length := Z.land (nth 0 packet 0) 3 + 1 in
  packet ← xor_range packet pn_offset (take (Z.to_nat pn_length) (drop 1 mask));
  mret (packet, pn_length).

(** The nonce is the IV with the packet number folded into its end. *)
Definition nonce_of (iv packet : list Z) (pn_offset pn_length : Z) : list Z :=
  let number := take (Z.to_nat pn_length) (drop (Z.to_nat pn_offset) packet) in
  let keep := (length iv - Z.to_nat pn_length)%nat in
  take keep iv ++ zip_with Z.lxor (drop keep iv) number.

Definition decrypt_payload (key iv packet : list Z) (payload_length_offset pn_offset pn_length : Z) : Checked (option (list Z)) :=
  let copy := mkMemory (-1) packet in
  let nonce := nonce_of iv packet pn_offset pn_length in
  let payload_offset := pn_offset + pn_length in
  first ← get copy (whole copy) payload_length_offset 1;
  field ← read copy (whole copy) payload_length_offset (varint_length first);
  let payload_len := uwrap 64 (get_varint field - pn_length) in
  if uwrap 64 (mem_size copy - payload_offset) <? payload_len then mret None
  else
    ciphertext ← read m (whole m) payload_offset payload_len;
    match aead_decrypt key ciphertext nonce (take (Z.to_nat payload_offset) packet) with
    | None => mret None
    | Some plaintext =>
        packet ← write_at packet payload_offset plaintext;
        if payload_len + payload_offset <? max_overhead then mret None
        else
          let decrypted_size := payload_len + payload_offset - max_overhead in
          _ ← (if decrypted_size <? payload_offset then wrong "erase past the end" else mret tt);
          mret (Some (drop (Z.to_nat payload_offset) (take (Z.to_nat decrypted_size) packet)))
    end.

Definition decrypt_initial (hd : QuicPacketHeader) : Checked (option (list Z)) :=
  let v := whole m in
  if mem_size m <? MIN_CLIENT_INITIAL_LEN then mret None
  else match initial_keys hd with
       | None => mret None
       | Some (key, iv, hp_key) =>
           token_length ← get m v (token_length_offset hd) 1;
           let token_length_size := varint_length token_length in
           let payload_length_offset := token_length_offset hd + token_length_size + hd_token_len hd in
           payload_length ← get m v payload_length_offset 1;
           let pn_offset := 7 + hd_dcid_len hd + hd_scid_len hd + varint_length payload_length + token_length_size + hd_token_len hd in
           sample ← read m v (pn_offset + 4) HP_SAMPLE_LEN;
           match hp_mask hp_key sample with
           | None => mret None
           | Some mask =>
               res ← unprotect (mem_bytes m) mask pn_offset;
               decrypt_payload key iv (fst res) payload_length_offset pn_offset (snd res)
           end
       end.

Definition prepare_for_domain_lookup (hd : QuicPacketHeader) : Checked (option (list Z)) := decrypt_initial hd.
End Decrypt.
