(* ===== verification/QuicProofs.v ===== *)
(** * The handshake data of QUIC packets

    Numbers of variable length, the reassembly of CRYPTO frames that come in any order, and
    the accesses of the decryption. *)

From stdpp Require Import sorting.
From S2P Require Import Prelude VpnTypes Wire View DomainFilter Quic.

(** ** Numbers of variable length (RFC 9000, 16) *)

(** [2 ^ k] bytes, the first two bits of which are [k]. *)
Definition put_varint_as (k : nat) (x : Z) : list Z :=
  let w := Nat.pow 2 k in be_bytes w (x + Z.of_nat k * 2 ^ (8 * Z.of_nat w - 2)).

Definition put_varint (x : Z) : list Z :=
  put_varint_as (if x <? 2 ^ 6 then 0%nat else if x <? 2 ^ 14 then 1%nat else if x <? 2 ^ 30 then 2%nat else 3%nat) x.

Lemma be_bytes_mod n v k : 0 <= k -> be_bytes n (v + k * 2 ^ (8 * Z.of_nat n)) = be_bytes n v.
Proof.
  intros Hk. induction n as [|n IH] in k, Hk |- *; [done|]. cbn [be_bytes]. f_equal.
  - apply Z.bits_inj'. intros i Hi. rewrite !Z.land_spec, !Z.shiftr_spec by done.
    change 255 with (Z.ones 8). destruct (decide (i < 8)) as [Hlt|Hge]; [|by rewrite Z.ones_spec_high, !andb_false_r by lia].
    rewrite Z.ones_spec_low, !andb_true_r by lia. rewrite <- (Z.mod_pow2_bits_low (v + _) (8 * Z.of_nat (S n))) by lia.
    rewrite Z.mod_add by (apply Z.pow_nonzero; lia). by rewrite Z.mod_pow2_bits_low by lia.
  - replace (k * 2 ^ (8 * Z.of_nat (S n))) with (k * 256 * 2 ^ (8 * Z.of_nat n)); [apply IH; lia|].
    replace (8 * Z.of_nat (S n)) with (8 + 8 * Z.of_nat n) by lia. rewrite Z.pow_add_r by lia. lia.
Qed.

(** The first byte holds the top six bits of the number behind the two of the length. *)
Lemma put_varint_as_cons k x : (k < 4)%nat -> 0 <= x < 2 ^ (8 * 2 ^ Z.of_nat k - 2) ->
  exists b tail, put_varint_as k x = (b + 64 * Z.of_nat k) :: tail /\ 0 <= b < 64 /\ be_bytes (Nat.pow 2 k) x = b :: tail.
Proof.
  intros Hk Hx. unfold put_varint_as. destruct (Nat.pow 2 k) as [|w] eqn:Ew; [destruct k as [|[|[|[|]]]]; cbn in *; lia|].
  assert (2 ^ Z.of_nat k = Z.of_nat (S w)) as Ewz.
  { rewrite <- Ew. destruct k as [|[|[|[|]]]]; try reflexivity; lia. }
  rewrite Ewz in Hx. replace (8 * Z.of_nat (S w) - 2) with (8 * Z.of_nat w + 6) in * by lia. cbn [be_bytes].
  assert (0 <= x / 2 ^ (8 * Z.of_nat w) < 64) as Hb.
  { split; [apply Z.div_pos; lia|]. apply Z.div_lt_upper_bound; [lia|]. rewrite Z.pow_add_r in Hx by lia. lia. }
  assert (forall y, 0 <= y < 256 -> Z.land y 255 = y) as Hland.
  { intros y Hy. change 255 with (Z.ones 8). rewrite Z.land_ones by lia. by apply Z.mod_small. }
  exists (x / 2 ^ (8 * Z.of_nat w)), (be_bytes w x). rewrite !Z.shiftr_div_pow2 by lia.
  rewrite Z.pow_add_r by lia. replace (Z.of_nat k * (2 ^ (8 * Z.of_nat w) * 2 ^ 6)) with (64 * Z.of_nat k * 2 ^ (8 * Z.of_nat w)) by lia.
  rewrite Z.div_add by (apply Z.pow_nonzero; lia). rewrite be_bytes_mod by lia. rewrite !Hland by lia. done.
Qed.

Lemma varint_first_byte k b : 0 <= b < 64 -> (k < 4)%nat ->
  varint_length (b + 64 * Z.of_nat k) = Z.of_nat (Nat.pow 2 k) /\ Z.land (b + 64 * Z.of_nat k) 63 = b.
Proof.
  intros Hb Hk. unfold varint_length. rewrite Z.shiftr_div_pow2 by lia. change (2 ^ 6) with 64. split.
  - replace (b + 64 * Z.of_nat k) with (b + Z.of_nat k * 64) by lia. rewrite Z.div_add, Z.div_small by lia.
    destruct k as [|[|[|[|]]]]; [reflexivity..|lia].
  - change 63 with (Z.ones 6). rewrite Z.land_ones by lia. replace (b + 64 * Z.of_nat k) with (b + Z.of_nat k * 64) by lia.
    change (2 ^ 6) with 64. rewrite Z.mod_add by lia. by apply Z.mod_small.
Qed.

Lemma read_put_varint_as k x rest : (k < 4)%nat -> 0 <= x < 2 ^ (8 * 2 ^ Z.of_nat k - 2) ->
  read_varint_advance (put_varint_as k x ++ rest) = Some (x, rest).
Proof.
  intros Hk Hx. destruct (put_varint_as_cons k x Hk Hx) as (b & tail & -> & Hb & Hbe).
  destruct (varint_first_byte k b Hb Hk) as [Hlen Hland].
  assert (length (b :: tail) = Nat.pow 2 k) as Hw by (rewrite <- Hbe; apply be_bytes_length).
  unfold read_varint_advance. cbn [app]. rewrite Hlen.
  rewrite (proj2 (Z.ltb_ge _ _)) by (cbn [length] in *; rewrite length_app; lia). rewrite Nat2Z.id. f_equal. f_equal.
  - unfold get_varint. cbn [app]. rewrite Hlen, Hland, Nat2Z.id. change (drop 1 (_ :: ?l)) with l.
    case_match; bool_to_prop.
    + destruct k as [|k]; [|cbn in *; lia]. cbn in Hbe. injection Hbe as Hbe _. rewrite Z.shiftr_0_r in Hbe.
      change 255 with (Z.ones 8) in Hbe. rewrite Z.land_ones, Z.mod_small in Hbe by (cbn in *; lia). lia.
    + rewrite <- Hw. cbn [length]. replace (S (length tail) - 1)%nat with (length tail) by lia. rewrite take_app_length, <- Hbe.
      apply be_value_be_bytes. unfold in_width.
      assert (2 ^ Z.of_nat k = Z.of_nat (Nat.pow 2 k)) as <- by (destruct k as [|[|[|[|]]]]; [reflexivity..|lia]).
      split; [lia|]. eapply Z.lt_trans; [apply Hx|]. apply Z.pow_lt_mono_r; lia.
  - rewrite <- Hw. cbn [length drop]. apply drop_app_length.
Qed.

(** What was written is read back, and what follows is left. *)
Lemma read_put_varint x rest : 0 <= x < 2 ^ 62 -> read_varint_advance (put_varint x ++ rest) = Some (x, rest).
Proof.
  intros Hx. unfold put_varint. apply read_put_varint_as; repeat case_match; bool_to_prop; cbn; lia.
Qed.

(** ** Frames *)

Inductive Frame := F_padding | F_ping | F_crypto (offset : Z) (data : list Z).

Definition put_frame (f : Frame) : list Z :=
  match f with
  | F_padding => put_varint FRAME_PADDING
  | F_ping => put_varint FRAME_PING
  | F_crypto offset data =>
      put_varint FRAME_CRYPTO ++ put_varint offset ++ put_varint (Z.of_nat (length data)) ++ data
  end.

Definition frame_ok (f : Frame) : Prop :=
  match f with
  | F_crypto offset data => 0 <= offset < 2 ^ 62 /\ Z.of_nat (length data) < 2 ^ 62
  | _ => True
  end.

Definition put_frames (fs : list Frame) : list Z := concat (map put_frame fs).
Definition fragments_of (fs : list Frame) : Fragments :=
  omap (fun f => match f with F_crypto offset data => Some (offset, data) | _ => None end) fs.
Definition emplace_all (l fs : Fragments) : Fragments := foldl (fun fs f => emplace (fst f) (snd f) fs) fs l.

(** The frames are taken one after the other. *)
Lemma crypto_frames_put frames : forall fuel fs,
  Forall frame_ok frames -> (length frames < fuel)%nat ->
  crypto_frames fuel (put_frames frames) fs = (Some (emplace_all (fragments_of frames) fs), []).
Proof.
  induction frames as [|f frames IH]; intros [|fuel] fs Hok Hfuel; cbn [length] in Hfuel; try lia; [done|].
  apply Forall_cons in Hok as [Hf Hok]. cbn [put_frames map concat crypto_frames]. fold (put_frames frames).
  destruct f as [| |offset data]; cbn [put_frame]; rewrite <- ?app_assoc, read_put_varint by done; cbn -[read_varint_advance put_varint].
  - apply IH; [done|lia].
  - apply IH; [done|lia].
  - destruct Hf as [Ho Hl]. rewrite read_put_varint by done. rewrite read_put_varint by lia.
    rewrite (proj2 (Z.ltb_ge _ _)) by (rewrite length_app; lia). rewrite Nat2Z.id, drop_app_length, take_app_length. apply IH; [done|lia].
Qed.

Definition before (f g : Z * list Z) : Prop := fst f < fst g.

Lemma emplace_sorted offset data fs :
  StronglySorted before fs -> offset ∉ map fst fs ->
  StronglySorted before (emplace offset data fs) /\ emplace offset data fs ≡ₚ (offset, data) :: fs.
Proof.
  induction 1 as [|[o d] fs Hs IH Hall]; intros Hn; cbn [emplace]; [split; [by repeat constructor|done]|].
  cbn [map fst] in Hn. apply not_elem_of_cons in Hn as [Hne Hn]. specialize (IH Hn) as [IHs IHp].
  destruct (offset <? o) eqn:Hlt; bool_to_prop.
  - split; [|done]. constructor; [by constructor|]. constructor; [done|]. eapply Forall_impl; [done|]. unfold before. cbn. lia.
  - rewrite (proj2 (Z.eqb_neq _ _)) by lia. split; [|rewrite IHp; apply Permutation_swap].
    constructor; [done|]. rewrite IHp. constructor; [unfold before; cbn; lia|done].
Qed.

Lemma emplace_all_sorted l : forall fs,
  StronglySorted before fs -> NoDup (map fst (l ++ fs)) ->
  StronglySorted before (emplace_all l fs) /\ emplace_all l fs ≡ₚ l ++ fs.
Proof.
  induction l as [|[o d] l IH]; intros fs Hs Hnd; [done|]. cbn in Hnd |- *. apply NoDup_cons in Hnd as [Hn Hnd].
  rewrite map_app in Hn, Hnd. destruct (emplace_sorted o d fs Hs) as [Hs' Hp]; [set_solver|].
  destruct (IH (emplace o d fs)) as [Hs2 Hp2]; [done|rewrite map_app|].
  - rewrite Hp. cbn. rewrite <- Permutation_middle. by apply NoDup_cons.
  - split; [done|]. unfold emplace_all in Hp2. rewrite Hp2, Hp. by rewrite Permutation_middle.
Qed.

(** The message cut into parts, with the offset of each. *)
Fixpoint cut (offset : Z) (parts : list (list Z)) : Fragments :=
  match parts with
  | [] => []
  | p :: parts => (offset, p) :: cut (offset + Z.of_nat (length p)) parts
  end.

Lemma cut_sorted parts : forall offset, Forall (fun p => p <> []) parts ->
  StronglySorted before (cut offset parts) /\ Forall (fun f => offset <= fst f) (cut offset parts) /\ map snd (cut offset parts) = parts.
Proof.
  induction parts as [|p parts IH]; intros offset Hne; [by split_and!; constructor|]. apply Forall_cons in Hne as [Hp Hne].
  destruct (IH (offset + Z.of_nat (length p)) Hne) as (Hs & Hall & Hm). assert (0 < Z.of_nat (length p)) by (destruct p; [done|cbn; lia]).
  cbn. rewrite Hm. split_and!; [|constructor; [done|]|done].
  - constructor; [done|]. eapply Forall_impl; [done|]. unfold before. cbn. lia.
  - eapply Forall_impl; [done|]. cbn. lia.
Qed.

Lemma sorted_nodup fs : StronglySorted before fs -> NoDup (map fst fs).
Proof.
  induction 1 as [|f fs Hs IH Hall]; cbn; [constructor|]. apply NoDup_cons. split; [|done]. intros Hin.
  apply list_elem_of_fmap in Hin as (g & Eg & Hg). rewrite Forall_forall in Hall. specialize (Hall g Hg). unfold before in Hall. lia.
Qed.

Lemma put_frames_length frames : (length frames <= length (put_frames frames))%nat.
Proof.
  induction frames as [|f frames IH]; [done|]. unfold put_frames in *. cbn [map concat length]. rewrite length_app.
  destruct f; cbn [put_frame]; rewrite ?length_app; 
    [change (length (put_varint FRAME_PADDING)) with 1%nat|change (length (put_varint FRAME_PING)) with 1%nat
    |change (length (put_varint FRAME_CRYPTO)) with 1%nat]; lia.
Qed.

(** The parts of a message that come in CRYPTO frames in any order, among padding and pings, are put together again. *)
Lemma crypto_frames_reassemble frames parts :
  Forall frame_ok frames -> Forall (fun p => p <> []) parts -> parts <> [] -> fragments_of frames ≡ₚ cut 0 parts ->
  reassemble_initial_crypto_frames (put_frames frames) = (Some (concat parts), []).
Proof.
  intros Hok Hne Hparts Hp. unfold reassemble_initial_crypto_frames. pose proof (put_frames_length frames) as Hlen.
  rewrite crypto_frames_put, checked_bind_ok by (done || lia). destruct (cut_sorted parts 0 Hne) as (Hs & _ & Hm).
  destruct (emplace_all_sorted (fragments_of frames) []) as [Hs' Hp']; [constructor|rewrite app_nil_r, Hp; by apply sorted_nodup|].
  rewrite app_nil_r in Hp'. assert (emplace_all (fragments_of frames) [] = cut 0 parts) as ->.
  { apply (StronglySorted_unique_strong before); [unfold before; lia|done|done|]. by rewrite Hp', Hp. }
  destruct parts as [|p parts]; [done|]. cbn in *. do 3 f_equal. by injection Hm as ->.
Qed.

(** ** Decryption *)

Section Decrypt.
Context `{QuicCrypto} (m : Memory) (hd : QuicPacketHeader).
Hypothesis Hm : mem_ok m.
Hypothesis Hcid : 0 <= hd_dcid_len hd /\ 0 <= hd_scid_len hd /\ 0 <= hd_token_len hd.

Definition byte_at (i : Z) : Z := nth (Z.to_nat i) (mem_bytes m) 0.

(** Where the packet says that the length of its payload and its packet number are. *)
Definition length_offset : Z := token_length_offset hd + varint_length (byte_at (token_length_offset hd)) + hd_token_len hd.
Definition number_offset : Z := length_offset + varint_length (byte_at length_offset).

Lemma varint_length_bound b : in_width 8 b -> 1 <= varint_length b <= 8.
Proof.
  intros Hb. unfold varint_length, in_width in *. rewrite Z.shiftr_div_pow2 by lia. change (2 ^ 6) with 64.
  assert (0 <= b / 64 <= 3) as Hd by (split; [apply Z.div_pos|apply Z.lt_succ_r, Z.div_lt_upper_bound]; lia).
  rewrite Z.shiftl_mul_pow2 by lia. assert (b / 64 = 0 \/ b / 64 = 1 \/ b / 64 = 2 \/ b / 64 = 3) as [->|[->|[->| ->]]] by lia; cbn; lia.
Qed.

Lemma byte_at_ok i : in_width 8 (byte_at i).
Proof.
  unfold byte_at. destruct Hm as [Hok _]. destruct (nth_in_or_default (Z.to_nat i) (mem_bytes m) 0) as [Hin| ->]; [|done].
  unfold bytes_ok in Hok. rewrite List.Forall_forall in Hok. by apply Hok.
Qed.

Lemma length_offset_bound : 7 <= token_length_offset hd < length_offset /\ length_offset < number_offset.
Proof.
  pose proof (varint_length_bound _ (byte_at_ok (token_length_offset hd))). pose proof (varint_length_bound _ (byte_at_ok length_offset)).
  unfold number_offset. split; [|lia]. split; [unfold token_length_offset|unfold length_offset]; lia.
Qed.

Lemma upto_byte E m' i (P : Z -> Prop) :
  0 <= i < mem_size m' -> P (nth (Z.to_nat i) (mem_bytes m') 0) -> upto E (get m' (whole m') i 1) P.
Proof.
  intros Hi HP. set (packet := mem_bytes m') in *. unfold mem_size in Hi. fold packet in Hi.
  assert (packet = take (Z.to_nat i) packet ++ nth (Z.to_nat i) packet 0 :: drop (S (Z.to_nat i)) packet) as E'.
  { symmetry. apply take_drop_middle. destruct (nth_lookup_or_length packet (Z.to_nat i) 0); [done|lia]. }
  rewrite (shows_byte m' (whole m') packet _ _ _ i (shows_whole m') E'); [done|]. rewrite length_take. lia.
Qed.

(** The bytes changed are in the packet, and the others stay. *)
Lemma upto_xor_at E v i x (P : list Z -> Prop) :
  0 <= i < Z.of_nat (length v) ->
  (forall v', length v' = length v -> (forall j, j <> Z.to_nat i -> nth j v' 0 = nth j v 0) -> P v') -> upto E (xor_at v i x) P.
Proof.
  intros Hi HP. unfold upto, xor_at. cbn [fst snd]. rewrite (proj2 (Z.leb_le 0 i)), (proj2 (Z.ltb_lt i _)) by lia. cbn.
  apply HP; [apply length_insert|]. intros j Hj. by rewrite !nth_lookup, list_lookup_insert_ne.
Qed.

Lemma upto_xor_range E mask : forall v base (P : list Z -> Prop),
  0 <= base -> base + Z.of_nat (length mask) <= Z.of_nat (length v) ->
  (forall v', length v' = length v -> (forall j, (j < Z.to_nat base)%nat -> nth j v' 0 = nth j v 0) -> P v') ->
  upto E (xor_range v base mask) P.
Proof.
  induction mask as [|x mask IH]; intros v base P Hb Hl HP; cbn [xor_range length] in *; [apply upto_ret, HP; done|].
  eapply upto_bind; [apply (upto_xor_at _ _ _ _ (fun v' => length v' = length v /\ forall j, (j < Z.to_nat base)%nat -> nth j v' 0 = nth j v 0)); [lia|]|].
  - intros v' Hlen Hv. split; [done|]. intros j Hj. apply Hv. lia.
  - intros v' [Hlen Hv]. apply IH; [lia|rewrite Hlen; lia|]. intros v'' Hlen' Hv'. apply HP; [congruence|].
    intros j Hj. rewrite Hv' by lia. by apply Hv.
Qed.

Lemma unprotect_upto E packet mask pn_offset (P : list Z * Z -> Prop) :
  0 < pn_offset -> pn_offset + 4 <= Z.of_nat (length packet) ->
  (forall packet' n, length packet' = length packet -> 1 <= n <= 4 ->
     (forall j, (0 < j < Z.to_nat pn_offset)%nat -> nth j packet' 0 = nth j packet 0) -> P (packet', n)) ->
  upto E (unprotect packet mask pn_offset) P.
Proof.
  intros Hpn Hl HP. unfold unprotect.
  eapply upto_bind; [apply (upto_xor_at _ _ _ _ (fun v => length v = length packet /\ forall j, (0 < j)%nat -> nth j v 0 = nth j packet 0)); [lia|]|].
  { intros v Hlen Hv. split; [done|]. intros j Hj. apply Hv. lia. }
  intros v [Hlen Hv]. set (n := Z.land (nth 0 v 0) 3 + 1).
  assert (1 <= n <= 4) as Hn.
  { unfold n. change 3 with (Z.ones 2). rewrite Z.land_ones by lia. pose proof (Z.mod_pos_bound (nth 0 v 0) (2 ^ 2)). lia. }
  eapply upto_bind; [apply (upto_xor_range _ _ _ _ (fun v' => length v' = length v /\ forall j, (j < Z.to_nat pn_offset)%nat -> nth j v' 0 = nth j v 0)); [lia| |done]|].
  { rewrite length_take. lia. }
  intros v' [Hlen' Hv']. apply upto_ret, HP; [congruence|done|]. intros j Hj. rewrite Hv' by lia. apply Hv. lia.
Qed.

Lemma decrypt_payload_upto E key iv packet pn_length :
  length packet = length (mem_bytes m) -> 1 <= pn_length <= 4 -> number_offset + 20 <= mem_size m ->
  nth (Z.to_nat length_offset) packet 0 = byte_at length_offset ->
  upto E (decrypt_payload m key iv packet length_offset number_offset pn_length)
    (fun r => match r with Some payload => Z.of_nat (length payload) <= mem_size m | None => True end).
Proof.
  intros Hlen Hn Hsize Hbyte. pose proof length_offset_bound as [Ho1 Ho2]. unfold decrypt_payload.
  set (copy := mkMemory (-1) packet). assert (mem_size copy = mem_size m) as Ecopy by (unfold mem_size; cbn; by rewrite Hlen).
  eapply upto_bind; [apply (upto_byte _ _ _ (fun b => b = byte_at length_offset)); [lia|done]|]. intros first ->.
  pose proof (varint_length_bound _ (byte_at_ok length_offset)) as Hv. unfold number_offset in Hsize, Ho2.
  eapply upto_bind; [apply (upto_read _ _ _ _ _ (fun _ => True)); [apply inside_whole|cbn; lia..|done]|]. intros field _.
  set (payload_len := uwrap 64 (get_varint field - pn_length)).
  assert (0 <= payload_len) by (apply Z.mod_pos_bound; lia). fold number_offset in *. clearbody payload_len.
  rewrite uwrap_id by (destruct Hm as [_ ?]; unfold in_width; lia). destruct (_ <? payload_len) eqn:Hfit; [by apply upto_ret|]. bool_to_prop.
  eapply upto_bind; [apply (upto_read _ _ _ _ _ (fun c => length c = Z.to_nat payload_len)); [apply inside_whole|cbn; lia..|]|].
  { rewrite length_take, length_drop. unfold mem_size in *. cbn. lia. }
  intros ciphertext Hc. cbn beta in Hc. destruct (aead_decrypt _ _ _ _) as [plaintext|] eqn:Ha; [|by apply upto_ret].
  apply aead_decrypt_length in Ha. pose proof max_overhead_nonneg.
  eapply (upto_bind _ _ _ (fun _ => True)).
  { unfold upto, write_at. cbn [fst snd]. unfold mem_size in *. cbn in *.
    rewrite (proj2 (Z.leb_le 0 _)), (proj2 (Z.leb_le _ _)) by lia. done. }
  intros packet' _. rewrite (proj2 (Z.ltb_ge _ max_overhead)) by lia. rewrite (proj2 (Z.ltb_ge _ (number_offset + _))) by lia. rewrite checked_bind_ret.
  apply upto_ret. rewrite length_drop, length_take. lia.
Qed.

(** Where there are 20 bytes behind the packet number the decryption stays in the packet. *)
Lemma decrypt_initial_upto E :
  number_offset + 20 <= mem_size m ->
  upto E (decrypt_initial m hd) (fun r => match r with Some payload => Z.of_nat (length payload) <= mem_size m | None => True end).
Proof.
  intros Hsize. pose proof length_offset_bound as [Ho1 Ho2]. unfold decrypt_initial. case_match; [by apply upto_ret|].
  destruct (initial_keys hd) as [[[key iv] hp_key]|]; [|by apply upto_ret].
  eapply upto_bind; [apply (upto_byte _ _ _ (fun b => b = byte_at (token_length_offset hd))); [lia|done]|].
  intros b ->. fold length_offset. eapply upto_bind; [apply (upto_byte _ _ _ (fun b => b = byte_at length_offset)); [lia|done]|].
  intros b ->. replace (7 + _ + _ + _ + _ + _) with number_offset by (unfold number_offset, length_offset, token_length_offset; lia).
  unfold HP_SAMPLE_LEN. eapply upto_bind; [apply (upto_read _ _ _ _ _ (fun _ => True)); [apply inside_whole|cbn; lia..|done]|].
  intros sample _. destruct (hp_mask hp_key sample) as [mask|]; [|by apply upto_ret].
  eapply upto_bind; [apply (unprotect_upto _ _ _ _ (fun res => length (fst res) = length (mem_bytes m) /\ 1 <= snd res <= 4 /\
    nth (Z.to_nat length_offset) (fst res) 0 = byte_at length_offset)); [lia|unfold mem_size in Hsize; lia|]|].
  { intros packet' n Hl Hn Hp. split_and!; cbn [fst snd]; [done|lia|lia|]. apply Hp. lia. }
  intros [packet n] (Hl & Hn & Hb). by apply decrypt_payload_upto.
Qed.
End Decrypt.

(** C31. The decryption of an initial packet that has 20 bytes behind the start of its packet number stays in the packet. *)
Theorem initial_packet_stays_in_bounds `{QuicCrypto} m hd :
  mem_ok m -> 0 <= hd_dcid_len hd /\ 0 <= hd_scid_len hd /\ 0 <= hd_token_len hd -> number_offset m hd + 20 <= mem_size m ->
  safe (prepare_for_domain_lookup m hd) (fun r => forall payload, r = Some payload -> Z.of_nat (length payload) <= mem_size m).
Proof.
  intros Hm Hcid Hsize. eapply upto_mono; [by apply (decrypt_initial_upto m hd Hm Hcid (fun _ => False))|done|]. intros [payload|]; naive_solver.
Qed.
