(* ===== verification/DomainExtractor.v ===== *)
(** * Finding the domain name of a connection

    Models [core/src/domain_extractor.cpp]: the first data of a connection is tried as TLS
    and as HTTP, or as QUIC, until a domain name is found or nothing is left to try.  The
    buffer of the extractor is a vector that may move when data is added to it, so it gets
    a new identity then; the TLS reader of [Tls.v] keeps views into it. *)

From S2P Require Import Prelude VpnTypes Wire View DomainFilter Tls Quic.

Inductive DomainExtractorStatus := DES_NOTFOUND | DES_FOUND | DES_PASS | DES_WANT_MORE.
Record DomainExtractorResult := mkExtractorResult { der_status : DomainExtractorStatus; der_domain : text }.
Inductive PacketDirection := DEPD_OUTGOING | DEPD_INCOMING.

#[export] Instance extractor_status_eq_dec : EqDecision DomainExtractorStatus.
Proof. solve_decision. Defined.
#[export] Instance packet_direction_eq_dec : EqDecision PacketDirection.
Proof. solve_decision. Defined.

Definition IPPROTO_TCP : Z := 6.
Definition IPPROTO_UDP : Z := 17.

Definition result (st : DomainExtractorStatus) : DomainExtractorResult := mkExtractorResult st [].

(** ** Searching strings *)

Fixpoint find_sub (needle s : text) : option nat :=
  if starts_with s needle then Some 0%nat
  else match s with [] => None | _ :: s => S <$> find_sub needle s end.

Fixpoint find_if (p : Z -> bool) (s : text) : option nat :=
  match s with [] => None | c :: s => if p c then Some 0%nat else S <$> find_if p s end.

(** A search from a position; [None] is [npos]. *)
Definition from (find : text -> option nat) (pos : nat) (s : text) : option nat := (fun i => pos + i)%nat <$> find (drop pos s).
Definition one_of (set : string) (c : Z) : bool := bool_decide (c ∈ txt set).
Definition substr (s : text) (first last : nat) : text := take (last - first) (drop first s).

(** ** HTTP *)

Definition MIN_METHOD_LENGTH : nat := 3.
Definition MAX_METHOD_LENGTH : nat := 32.
Definition HOST_MARKER : text := Eval vm_compute in txt "Host:".
Definition SCHEME_MARKER : text := Eval vm_compute in txt "://".
Definition CRLF : text := [13; 10].

Definition isalpha (c : Z) : bool := ((65 <=? c) && (c <=? 90)) || ((97 <=? c) && (c <=? 122)).

(** The length of the method; [None] if there is none. *)
Fixpoint scan_method (i : nat) (s : text) : option nat :=
  match s with
  | [] => Some i
  | c :: s =>
      if isspace c then Some i
      else if negb (isalpha c) || (i =? MAX_METHOD_LENGTH)%nat then None
      else scan_method (S i) s
  end.

Definition host_header (seek : text) : option text :=
  host_header_pos ← find_sub HOST_MARKER seek;
  let after := (host_header_pos + length HOST_MARKER)%nat in
  if (after <? length seek)%nat then
    host_start ← from (find_if (fun c => negb (one_of " 	" c))) after seek;
    host_end ← from (find_if (fun c => bool_decide (c ∈ CRLF))) host_start seek;
    if (host_start <? host_end)%nat then Some (substr seek host_start host_end) else None
  else None.

Definition host_of_uri (seek : text) : option text :=
  uri_start ← find_if (fun c => negb (one_of " 	" c)) seek;
  if nth uri_start seek 0 =? 47 then None
  else
    host_start ← match from (find_sub SCHEME_MARKER) uri_start seek with
                 | None => Some uri_start
                 | Some pos => if (length seek <=? pos + length SCHEME_MARKER)%nat then None else Some (pos + length SCHEME_MARKER)%nat
                 end;
    host_end ← from (find_if (one_of ":/ 	")) host_start seek;
    Some (substr seek host_start host_end).

Definition http_parse (buffer : text) : DomainExtractorResult :=
  match scan_method 0 buffer with
  | None => result DES_NOTFOUND
  | Some i =>
      if (i <? MIN_METHOD_LENGTH)%nat then result DES_NOTFOUND
      else
        let seek := drop i buffer in
        match host_header seek with
        | Some host => mkExtractorResult DES_FOUND host
        | None => match host_of_uri seek with
                  | Some host => mkExtractorResult DES_FOUND host
                  | None => result DES_NOTFOUND
                  end
        end
  end.

(** ** TLS *)

Inductive TlsParserState := TPS_IDLE | TPS_SERVER_HELLO | TPS_CERT.

Record TlsParser := mkTlsParser { tp_state : TlsParserState; tp_reader : TlsReader; tp_buffer_offset : Z }.
#[export] Instance eta_TlsParser : Eta TlsParser := fun p => mkTlsParser (tp_state p) (tp_reader p) (tp_buffer_offset p).

Definition tls_parser_new : TlsParser := mkTlsParser TPS_IDLE reader_new 0.
Definition cleared (m : Memory) : Memory := mkMemory (mem_id m) [].

Section Extractor.
Context `{CertLib}.

Definition parse_cert_to_lookuper_result (r : TlsReader) (x : TlsParseResult) : DomainExtractorResult :=
  match x with
  | TLS_RMORE => result DES_PASS
  | TLS_RCERT => mkExtractorResult DES_FOUND (r_x509_subject_common_name r)
  | TLS_RSERV_HELLO => result DES_PASS
  | TLS_RERR | TLS_RCLIENT_HELLO | TLS_RCLIENT_HELLO_SNI | TLS_RDONE => result DES_NOTFOUND
  end.

Definition parse_idle (p : TlsParser) (m : Memory) : Checked (DomainExtractorResult * TlsParser * Memory) :=
  '(x, r) ← tls_parse m (tls_input (whole m) (tp_reader p));
  let p := p <| tp_reader := r |> <| tp_buffer_offset := 0 |> in
  match x with
  | TLS_RCLIENT_HELLO =>
      '(x, r) ← tls_parse m r;
      let p := p <| tp_reader := r |> in
      if bool_decide (x = TLS_RCLIENT_HELLO_SNI) && negb (is_empty (r_tls_hostname r)) then
        name ← read m (r_tls_hostname r) 0 (v_len (r_tls_hostname r));
        mret (mkExtractorResult DES_FOUND name, p, cleared m)
      else mret (result DES_PASS, p <| tp_state := TPS_SERVER_HELLO |>, cleared m)
  | TLS_RMORE => mret (result DES_WANT_MORE, p, m)
  | TLS_RERR | TLS_RCLIENT_HELLO_SNI | TLS_RSERV_HELLO | TLS_RCERT | TLS_RDONE => mret (result DES_NOTFOUND, p, m)
  end.

Definition parse_cert (p : TlsParser) (m : Memory) : Checked (DomainExtractorResult * TlsParser * Memory) :=
  let rest := sub (whole m) (tp_buffer_offset p) (uwrap 64 (mem_size m - tp_buffer_offset p)) in
  '(x, r) ← tls_parse m (tls_input rest (tp_reader p));
  mret (parse_cert_to_lookuper_result r x, p <| tp_reader := r |>, m).

Definition parse_server_hello (p : TlsParser) (m : Memory) : Checked (DomainExtractorResult * TlsParser * Memory) :=
  '(x, r) ← tls_parse m (tls_input (whole m) reader_new);
  let p := p <| tp_reader := r |> in
  match x with
  | TLS_RSERV_HELLO =>
      let p := p <| tp_state := TPS_CERT |> <| tp_buffer_offset := v_off (r_in r) |> in
      '(x, r) ← tls_parse m r;
      let p := p <| tp_reader := r |> in
      if bool_decide (x = TLS_RDONE) then parse_cert p m
      else mret (parse_cert_to_lookuper_result r x, p, m)
  | _ => mret (result DES_PASS, p, m)
  end.

Definition tls_parser_parse (dir : PacketDirection) (p : TlsParser) (m : Memory) : Checked (DomainExtractorResult * TlsParser * Memory) :=
  match tp_state p, dir with
  | TPS_IDLE, DEPD_OUTGOING => parse_idle p m
  | TPS_IDLE, DEPD_INCOMING => mret (result DES_NOTFOUND, p, m)
  | TPS_SERVER_HELLO, DEPD_OUTGOING | TPS_CERT, DEPD_OUTGOING => mret (result DES_PASS, p, m)
  | TPS_SERVER_HELLO, DEPD_INCOMING => parse_server_hello p m
  | TPS_CERT, DEPD_INCOMING => parse_cert p m
  end.

(** ** QUIC *)

(** The loop over the messages. *)
Fixpoint quic_loop (fuel : nat) (rm : Memory) (r : TlsReader) : Checked (DomainExtractorResult * TlsReader) :=
  match fuel with
  | O => _ ← wrong "out of fuel"; mret (result DES_NOTFOUND, r)
  | S fuel =>
    '(x, r) ← tls_parse rm r;
    match x with
    | TLS_RCLIENT_HELLO_SNI =>
        name ← read rm (r_tls_hostname r) 0 (v_len (r_tls_hostname r));
        mret (mkExtractorResult DES_FOUND name, r)
    | TLS_RERR | TLS_RMORE => mret (result DES_WANT_MORE, r)
    | TLS_RDONE => mret (result DES_NOTFOUND, r)
    | TLS_RCLIENT_HELLO | TLS_RSERV_HELLO | TLS_RCERT => quic_loop fuel rm r
    end
  end.

(** [id] is the identity of the vector the data is reassembled into. *)
Definition quic_parse (id : Z) (dir : PacketDirection) (r : TlsReader) (m : Memory) : Checked (DomainExtractorResult * TlsReader) :=
  if negb (bool_decide (dir = DEPD_OUTGOING)) then mret (result DES_NOTFOUND, r)
  else
    reassembled ← reassemble_initial_crypto_frames (mem_bytes m);
    match (reassembled : option (list Z)) with
    | None => mret (result DES_NOTFOUND, r)
    | Some bytes =>
        let rm := mkMemory id bytes in
        quic_loop (2 * length bytes + 2) rm (tls_input_hshake (whole rm) r)
    end.

(** ** The extractor *)

Inductive Parser := P_tls (p : TlsParser) | P_http | P_quic (r : TlsReader).

(** [DomainExtractor::Context] *)
Record Extraction := mkExtraction { cx_proto : Z; cx_idx : nat; cx_current_parser : option Parser; cx_buffer : Memory; cx_next_id : Z }.
#[export] Instance eta_Extraction : Eta Extraction := fun c =>
  mkExtraction (cx_proto c) (cx_idx c) (cx_current_parser c) (cx_buffer c) (cx_next_id c).

Definition PRODUCE_TABLE_TCP : list Parser := [P_tls tls_parser_new; P_http].
Definition PRODUCE_TABLE_UDP : list Parser := [P_quic reader_new].
Definition produce_table (proto : Z) : list Parser := if proto =? IPPROTO_TCP then PRODUCE_TABLE_TCP else PRODUCE_TABLE_UDP.

(** [ParserFactory::produce] *)
Definition produce (c : Extraction) : Extraction :=
  match produce_table (cx_proto c) !! cx_idx c with
  | None => c <| cx_current_parser := None |>
  | Some p => c <| cx_current_parser := Some p |> <| cx_idx := S (cx_idx c) |>
  end.

Definition context_new (proto : Z) : Extraction := produce (mkExtraction proto 0 None (mkMemory 0 []) 1).

(** [vector::insert] at the end: the data may move. *)
Definition append (data : list Z) (c : Extraction) : Extraction :=
  c <| cx_buffer := mkMemory (cx_next_id c) (mem_bytes (cx_buffer c) ++ data) |> <| cx_next_id := cx_next_id c + 1 |>.

Definition parser_parse (dir : PacketDirection) (p : Parser) (c : Extraction) : Checked (DomainExtractorResult * Extraction) :=
  match p with
  | P_tls p =>
      '(res, p, m) ← tls_parser_parse dir p (cx_buffer c);
      mret (res, c <| cx_current_parser := Some (P_tls p) |> <| cx_buffer := m |>)
  | P_http => mret (http_parse (mem_bytes (cx_buffer c)), c)
  | P_quic r =>
      '(res, r) ← quic_parse (cx_next_id c) dir r (cx_buffer c);
      mret (res, c <| cx_current_parser := Some (P_quic r) |> <| cx_next_id := cx_next_id c + 1 |>)
  end.

(** The loop of [Context::parse]; each turn takes the next parser of the table. *)
Fixpoint try_parsers (fuel : nat) (dir : PacketDirection) (c : Extraction) : Checked (DomainExtractorResult * Extraction) :=
  match fuel with
  | O => _ ← wrong "out of fuel"; mret (result DES_NOTFOUND, c)
  | S fuel =>
    match cx_current_parser c with
    | None => mret (result DES_NOTFOUND, c)
    | Some p =>
        '(res, c) ← parser_parse dir p c;
        match der_status res with
        | DES_WANT_MORE | DES_FOUND | DES_PASS => mret (res, c)
        | DES_NOTFOUND => try_parsers fuel dir (produce c)
        end
    end
  end.

Definition context_parse (dir : PacketDirection) (data : list Z) (c : Extraction) : Checked (DomainExtractorResult * Extraction) :=
  let c := append data c in
  try_parsers (S (S (length (produce_table (cx_proto c))))) dir c.

Definition is_printable (c : Z) : bool := (31 <? c) && (c <? 127).

Definition proceed (dir : PacketDirection) (proto : Z) (data : list Z) (e : option Extraction) :
    Checked (DomainExtractorResult * option Extraction) :=
  let c := match e with Some c => c | None => context_new proto end in
  '(r, c) ← context_parse dir data c;
  if bool_decide (der_status r = DES_FOUND) && negb (forallb is_printable (der_domain r))
  then mret (result DES_NOTFOUND, Some c)
  else mret (r, Some c).

Definition reset (e : option Extraction) : option Extraction := None.
End Extractor.
