(* ===== verification/ExtractorProofs.v ===== *)
(** * The domain extractor finds the names

    The name in a client hello is found however the hello is cut into packets, over TLS and
    in the CRYPTO frames of QUIC; the extractor returns and reads its buffer only, up to the
    check of the TLS reader ([TlsProofs.v]) and to a second server hello in a record. *)

From stdpp Require Import sorting.
From S2P Require Import Prelude VpnTypes Wire View DomainFilter Tls TlsProofs Quic QuicProofs DomainExtractor.

(** The packets one after the other. *)
Fixpoint feed `{CertLib} (proto : Z) (packets : list (list Z)) (e : option Extraction) :
    Checked (list DomainExtractorResult * option Extraction) :=
  match packets with
  | [] => mret ([], e)
  | data :: packets =>
      '(r, e) ← proceed DEPD_OUTGOING proto data e;
      '(rs, e) ← feed proto packets e;
      mret (r :: rs, e)
  end.

Definition hello_record (version : Z) (h : Hello) : list Z := put_record version (put_hshake HS_CLIENT_HELLO (put_hello h)).

(** A client hello that fits a record and names a host that is a name. *)
Record named_hello (version : Z) (h : Hello) : Prop := mkNamedHello {
  nh_hello : hello_ok h;
  nh_version : in_width 16 version /\ 769 <= version;
  nh_record : Z.of_nat (length (put_hello h)) < 2 ^ 16 - 4;
  nh_host : h_host h <> [];
  nh_printable : forallb is_printable (h_host h) = true;
}.

Section Names.
Context `{CertLib}.

(** ** TLS *)

(** The extractor has kept these bytes and waits for the rest of the record. *)
Record awaiting (bytes : list Z) (c : Extraction) : Prop := mkAwaiting {
  aw_parser : exists r off, cx_current_parser c = Some (P_tls (mkTlsParser TPS_IDLE r off)) /\ r_state r = I_REC;
  aw_buffer : mem_bytes (cx_buffer c) = bytes;
}.

Lemma context_new_awaiting : awaiting [] (context_new IPPROTO_TCP).
Proof. split; [|done]. by eexists _, _. Qed.

Lemma proceed_none dir proto data : proceed dir proto data None = proceed dir proto data (Some (context_new proto)).
Proof. done. Qed.

(** A part of a record is not enough. *)
Lemma partial_record m r version body rest :
  shows m (r_in r) (mem_bytes m) -> mem_bytes m ++ rest = put_record version body -> rest <> [] ->
  Z.of_nat (length body) < 2 ^ 16 -> rec_parse m r (r_in r) = ((0, r), []).
Proof.
  intros Hv Hb Hrest Hlen. pose proof (shows_len _ _ _ Hv) as Hl. set (bs := mem_bytes m) in *. clearbody bs. unfold rec_parse, REC_SIZE.
  unfold put_record in Hb. assert (length bs + length rest = 5 + length body)%nat as Hsum.
  { rewrite <- length_app, Hb. lens. }
  assert (length rest <> 0)%nat by (by destruct rest).
  destruct (2 <=? v_len (r_in r)) eqn:E2; bool_to_prop.
  - destruct bs as [|b bs]; [cbn in *; lia|]. cbn [app] in Hb. injection Hb as -> Hb.
    rewrite (shows_byte m _ _ [] CT_HANDSHAKE bs 0 Hv), checked_bind_ok, Z.eqb_refl by done. cbn [negb].
    case_match eqn:E5; bool_to_prop; [done|].
    assert (exists tail, bs = be_bytes 2 version ++ be_bytes 2 (Z.of_nat (length body)) ++ tail) as [tail ->].
    { exists (drop 4 bs). rewrite <- (take_drop 4 bs) at 1. rewrite app_assoc. f_equal.
      assert (take 4 bs = take 4 (bs ++ rest)) as -> by (rewrite take_app_le; [done|cbn in *; lia]).
      by rewrite Hb. }
    rewrite (shows_get m _ _ (CT_HANDSHAKE :: be_bytes 2 version) (Z.of_nat (length body)) tail 3 2 2 Hv);
      [|done|lens|done|unfold in_width; cbn; lia].
    rewrite checked_bind_ok. rewrite (proj2 (Z.ltb_lt _ _)) by lia. done.
  - rewrite checked_bind_ret, Z.eqb_refl. cbn [negb]. by rewrite (proj2 (Z.ltb_lt _ 5)) by lia.
Qed.

(** [proceed] while the TLS parser waits is its own call of the reader. *)
Lemma proceed_idle proto data bytes c res p m :
  awaiting bytes c ->
  (forall r off, r_state r = I_REC -> parse_idle (mkTlsParser TPS_IDLE r off) (mkMemory (cx_next_id c) (bytes ++ data)) = ((res, p r, m), [])) ->
  der_status res <> DES_NOTFOUND -> (der_status res = DES_FOUND -> forallb is_printable (der_domain res) = true) ->
  exists r c', r_state r = I_REC /\ proceed DEPD_OUTGOING proto data (Some c) = ((res, Some c'), []) /\
    cx_current_parser c' = Some (P_tls (p r)) /\ cx_buffer c' = m.
Proof.
  intros [(r & off & Hp & Hst) Hb] Hidle Hn Hf. unfold proceed, context_parse. cbn [try_parsers].
  change (cx_current_parser (append data c)) with (cx_current_parser c). rewrite Hp. unfold parser_parse, tls_parser_parse. cbn [tp_state].
  replace (cx_buffer (append data c)) with (mkMemory (cx_next_id c) (bytes ++ data)) by (cbn; by rewrite Hb).
  rewrite (Hidle r off Hst), !checked_bind_ok. cbn beta iota. rewrite checked_bind_ret. cbn beta iota.
  exists r. eexists. split; [done|].
  destruct (der_status res) eqn:E; [done|..]; rewrite checked_bind_ret; cbn beta iota; rewrite E, ?Hf by done; done.
Qed.

Lemma proceed_partial proto data bytes c version body rest :
  awaiting bytes c -> bytes ++ data ++ rest = put_record version body -> rest <> [] -> Z.of_nat (length body) < 2 ^ 16 ->
  exists c', proceed DEPD_OUTGOING proto data (Some c) = ((result DES_WANT_MORE, Some c'), []) /\ awaiting (bytes ++ data) c'.
Proof.
  intros Hc Hb Hrest Hlen. set (m := mkMemory (cx_next_id c) (bytes ++ data)).
  destruct (proceed_idle proto data bytes c (result DES_WANT_MORE) (fun r => mkTlsParser TPS_IDLE (tls_input (whole m) r) 0) m)
    as (r & c' & Hst & E & Hp & Hm); try done.
  - intros r off Hst. unfold parse_idle, tls_parse. fold m. replace (length (mem_bytes m) + 8)%nat with (S (length (mem_bytes m) + 7)) by lia.
    remember (length (mem_bytes m) + 7)%nat as fuel eqn:Efuel. cbn [parse_loop tp_reader].
    change (r_state (tls_input (whole m) r)) with (r_state r). rewrite Hst.
    rewrite (partial_record _ _ version body rest); [by rewrite !checked_bind_ok|apply shows_whole|by cbn; rewrite <- app_assoc|done|done].
  - exists c'. split; [done|]. split; [|by rewrite Hm]. eexists _, _. split; [done|]. exact Hst.
Qed.

Lemma proceed_complete proto data bytes c version h rest :
  awaiting bytes c -> bytes ++ data = hello_record version h ++ rest -> named_hello version h ->
  Z.of_nat (length (hello_record version h ++ rest)) < 2 ^ 64 ->
  exists c', proceed DEPD_OUTGOING proto data (Some c) = ((mkExtractorResult DES_FOUND (h_host h), Some c'), []).
Proof.
  intros Hc Hb [Hok [Hw Hver] Hrec Hhost Hprint] Hsize. set (m := mkMemory (cx_next_id c) (bytes ++ data)).
  assert (mem_size m < 2 ^ 64) as Hm by (unfold mem_size; cbn; by rewrite Hb).
  destruct Hc as [(r & off & Hp & Hst) Hbuf].
  assert (exists r1, tls_parse m (tls_input (whole m) r) = ((TLS_RCLIENT_HELLO, r1), []) /\ r_state r1 = I_CLIHEL_EXTS /\
    shows m (r_buf r1) (sized 2 (put_hello_exts h))) as (r1 & E1 & Hst1 & Hbuf1).
  { unfold tls_parse. replace (length (mem_bytes m) + 8)%nat with (S (S (S (length (mem_bytes m) + 5)))) by lia.
    apply (record_put m Hm _ _ version h rest); try done. cbn [tls_input r_in]. pose proof (shows_whole m) as Hs. cbn [mem_bytes m] in Hs.
    rewrite Hb in Hs. exact Hs. }
  destruct (second_call_put m Hm r1 h Hst1 Hok Hbuf1) as (r2 & E2 & Hname). pose proof (shows_len _ _ _ Hname) as Hl.
  assert (read m (r_tls_hostname r2) 0 (v_len (r_tls_hostname r2)) = (h_host h, [])) as E3.
  { apply (shows_read m _ _ [] (h_host h) [] _ _ Hname); [by rewrite app_nil_r|done|done]. }
  unfold proceed, context_parse. cbn [try_parsers]. change (cx_current_parser (append data c)) with (cx_current_parser c). rewrite Hp.
  unfold parser_parse, tls_parser_parse. cbn [tp_state]. replace (cx_buffer (append data c)) with m by (cbn; by rewrite Hbuf).
  unfold parse_idle. cbn [tp_reader]. rewrite E1, checked_bind_ok, E2, checked_bind_ok. unfold is_empty. rewrite Hl.
  rewrite (proj2 (Z.eqb_neq _ 0)) by (destruct (h_host h); [done|cbn; lia]). rewrite bool_decide_eq_true_2 by done. cbn [andb negb].
  rewrite <- Hl, E3, !checked_bind_ok. cbn. rewrite Hprint. cbn. by eexists.
Qed.

Lemma feed_partial proto version body packets : forall bytes c rest,
  awaiting bytes c -> bytes ++ concat packets ++ rest = put_record version body -> rest <> [] -> Z.of_nat (length body) < 2 ^ 16 ->
  exists c', feed proto packets (Some c) = ((replicate (length packets) (result DES_WANT_MORE), Some c'), []) /\
    awaiting (bytes ++ concat packets) c'.
Proof.
  induction packets as [|data packets IH]; intros bytes c rest Hc Hb Hrest Hlen; cbn [feed concat length replicate].
  { exists c. split; [done|]. by rewrite app_nil_r. }
  cbn [concat] in Hb. rewrite <- app_assoc in Hb.
  destruct (proceed_partial proto data bytes c version body (concat packets ++ rest)) as (c1 & E1 & Hc1); try done.
  { intros E. apply app_nil in E. naive_solver. }
  destruct (IH (bytes ++ data) c1 rest) as (c2 & E2 & Hc2); try done; [by rewrite <- app_assoc|].
  exists c2. rewrite E1, checked_bind_ok, E2, checked_bind_ok. split; [done|]. by rewrite app_assoc.
Qed.

Lemma feed_app proto a b e ra e1 rb e2 :
  feed proto a e = ((ra, e1), []) -> feed proto b e1 = ((rb, e2), []) -> feed proto (a ++ b) e = ((ra ++ rb, e2), []).
Proof.
  revert e ra. induction a as [|data a IH]; intros e ra Ha Hb; cbn in *; [by injection Ha as <- <-|].
  apply checked_bind_inv in Ha as ([r e'] & E1 & Ha). apply checked_bind_inv in Ha as ([rs e''] & E2 & Ha). injection Ha as <- <-.
  by rewrite E1, checked_bind_ok, (IH e' rs), checked_bind_ok.
Qed.

(** C11. However a client hello is cut into packets, and whatever follows it, the extractor asks for more
    until it is complete and then finds the name in it. *)
Theorem hello_in_pieces_is_found version h packets data rest :
  named_hello version h -> concat packets ++ data = hello_record version h ++ rest ->
  (length (concat packets) < length (hello_record version h))%nat -> Z.of_nat (length (hello_record version h ++ rest)) < 2 ^ 64 ->
  exists e, feed IPPROTO_TCP (packets ++ [data]) None =
    ((replicate (length packets) (result DES_WANT_MORE) ++ [mkExtractorResult DES_FOUND (h_host h)], e), []).
Proof.
  intros Hh Hb Hlt Hsize.
  assert (exists tail, concat packets ++ tail = hello_record version h /\ tail <> []) as (tail & Htail & Hne).
  { exists (drop (length (concat packets)) (hello_record version h)).
    assert (concat packets = take (length (concat packets)) (hello_record version h)) as E.
    { rewrite <- (take_app_le _ rest) by lia. by rewrite <- Hb, take_app_length. }
    split; [rewrite E at 1; apply take_drop|]. intros En. apply (f_equal length) in En. rewrite length_drop in En. cbn [length] in En. lia. }
  destruct (feed_partial IPPROTO_TCP version _ packets [] (context_new IPPROTO_TCP) tail context_new_awaiting Htail Hne) as (c & E & Hc).
  { pose proof (nh_record _ _ Hh). unfold put_hshake. lens. }
  destruct (proceed_complete IPPROTO_TCP data _ c version h rest Hc) as (c' & E'); [done|done|done|].
  assert (feed IPPROTO_TCP [data] (Some c) = (([mkExtractorResult DES_FOUND (h_host h)], Some c'), [])) as E1.
  { cbn [feed]. by rewrite E', checked_bind_ok. }
  exists (Some c'). rewrite <- (feed_app _ _ _ _ _ _ _ _ E E1). by destruct packets.
Qed.

(** ** QUIC *)

Lemma quic_parse_hello id r m h body parts :
  reassemble_initial_crypto_frames (mem_bytes m) = (Some (concat parts), []) ->
  concat parts = put_hshake HS_CLIENT_HELLO (put_hello h) ++ body -> hello_ok h -> Z.of_nat (length (concat parts)) < 2 ^ 64 ->
  exists r', quic_parse id DEPD_OUTGOING r m = ((mkExtractorResult DES_FOUND (h_host h), r'), []).
Proof.
  intros Hre Hb Hok Hsize. unfold quic_parse. rewrite bool_decide_eq_true_2 by done. cbn [negb]. rewrite Hre, checked_bind_ok.
  set (rm := mkMemory id (concat parts)). assert (mem_size rm < 2 ^ 64) as Hm by done. set (r0 := tls_input_hshake (whole rm) r).
  assert (exists r1, tls_parse rm r0 = ((TLS_RCLIENT_HELLO, r1), []) /\ r_state r1 = I_CLIHEL_EXTS /\
    shows rm (r_buf r1) (sized 2 (put_hello_exts h))) as (r1 & E1 & Hst1 & Hbuf1).
  { unfold tls_parse. replace (length (mem_bytes rm) + 8)%nat with (S (S (length (mem_bytes rm) + 6))) by lia.
    destruct (hshake_put rm Hm (length (mem_bytes rm) + 6) r0 h body) as (r1 & E & Hst & _ & Hbuf); [done|done| |by eauto].
    pose proof (shows_whole rm) as Hs. cbn [mem_bytes rm] in Hs. rewrite Hb in Hs. exact Hs. }
  destruct (second_call_put rm Hm r1 h Hst1 Hok Hbuf1) as (r2 & E2 & Hname). pose proof (shows_len _ _ _ Hname) as Hl.
  assert (read rm (r_tls_hostname r2) 0 (v_len (r_tls_hostname r2)) = (h_host h, [])) as E3.
  { apply (shows_read rm _ _ [] (h_host h) [] _ _ Hname); [by rewrite app_nil_r|done|done]. }
  replace (2 * length (concat parts) + 2)%nat with (S (S (2 * length (concat parts)))) by lia. cbn [quic_loop].
  rewrite E1, checked_bind_ok. rewrite E2, checked_bind_ok, E3, checked_bind_ok. by eexists.
Qed.

(** C15. The client hello in the CRYPTO frames of an initial packet, in whatever parts and order, among padding and
    pings, is put together and the name in it found. *)
Theorem quic_hello_is_found frames parts h body :
  hello_ok h -> forallb is_printable (h_host h) = true ->
  Forall frame_ok frames -> Forall (fun p => p <> []) parts -> fragments_of frames ≡ₚ cut 0 parts ->
  concat parts = put_hshake HS_CLIENT_HELLO (put_hello h) ++ body -> Z.of_nat (length (concat parts)) < 2 ^ 64 ->
  exists e, proceed DEPD_OUTGOING IPPROTO_UDP (put_frames frames) None = ((mkExtractorResult DES_FOUND (h_host h), e), []).
Proof.
  intros Hok Hprint Hfr Hne Hp Hb Hsize. assert (parts <> []) as Hparts by by intros ->.
  pose proof (crypto_frames_reassemble frames parts Hfr Hne Hparts Hp) as Hre.
  unfold proceed, context_parse. set (c := append (put_frames frames) (context_new IPPROTO_UDP)). cbn [try_parsers].
  change (cx_current_parser c) with (Some (P_quic reader_new)). cbv iota. unfold parser_parse.
  change (cx_buffer c) with (mkMemory 1 (put_frames frames)).
  destruct (quic_parse_hello (cx_next_id c) reader_new (mkMemory 1 (put_frames frames)) h body parts) as (r' & E); [done..|].
  rewrite E, !checked_bind_ok. cbn. rewrite Hprint. by eexists.
Qed.
End Names.

(** ** Bounds *)

(** *** Reassembly *)

Definition total (fs : Fragments) : nat := length (concat (map snd fs)).

Lemma emplace_total offset data fs : (total (emplace offset data fs) <= length data + total fs)%nat.
Proof.
  unfold total. induction fs as [|[o d] fs IH]; cbn; [rewrite length_app; cbn; lia|].
  repeat case_match; cbn; rewrite ?length_app; cbn; rewrite ?length_app; lia.
Qed.

Lemma emplace_bytes_ok offset data fs :
  bytes_ok data -> bytes_ok (concat (map snd fs)) -> bytes_ok (concat (map snd (emplace offset data fs))).
Proof.
  unfold bytes_ok. intros Hd. induction fs as [|[o d] fs IH]; cbn; intros Hf; [by rewrite app_nil_r|].
  apply Forall_app in Hf as [H1 H2]. repeat case_match; cbn; repeat (apply Forall_app; split); auto.
Qed.

Lemma read_varint_advance_rest b x rest :
  bytes_ok b -> read_varint_advance b = Some (x, rest) -> bytes_ok rest /\ (length rest < length b)%nat.
Proof.
  intros Hb E. destruct b as [|b0 b]; [done|]. unfold read_varint_advance in E. case_match; [done|]. injection E as <- <-. bool_to_prop.
  pose proof (varint_length_bound b0 (Forall_inv Hb)). split; [by apply Forall_drop|]. rewrite length_drop. lia.
Qed.

Lemma crypto_frames_bound fuel : forall payload fs,
  bytes_ok payload -> bytes_ok (concat (map snd fs)) -> (length payload < fuel)%nat ->
  safe (crypto_frames fuel payload fs)
    (fun o => match o with Some fs' => bytes_ok (concat (map snd fs')) /\ (total fs' <= total fs + length payload)%nat | None => True end).
Proof.
  induction fuel as [|fuel IH]; intros payload fs Hp Hfs Hfuel; [lia|]. cbn [crypto_frames].
  destruct (read_varint_advance payload) as [[type p1]|] eqn:E1; [|apply upto_ret; split; [done|lia]].
  apply read_varint_advance_rest in E1 as [Hp1 Hl1]; [|done]. case_match.
  { eapply upto_mono; [apply IH|done|]; [done..|lia|]. intros [fs'|] Hok; [|done]. split; [apply Hok|destruct Hok; lia]. }
  case_match; [|apply upto_ret; split; [done|lia]].
  destruct (read_varint_advance p1) as [[offset p2]|] eqn:E2; [|done]. apply read_varint_advance_rest in E2 as [Hp2 Hl2]; [|done].
  destruct (read_varint_advance p2) as [[len p3]|] eqn:E3; [|done]. apply read_varint_advance_rest in E3 as [Hp3 Hl3]; [|done].
  case_match; [done|].
  eapply upto_mono; [apply IH|done|]; [by apply Forall_drop|apply emplace_bytes_ok; [by apply Forall_take|done]|rewrite length_drop; lia|].
  intros [fs'|]; [|done]. intros [Hok Ht]. split; [done|]. pose proof (emplace_total offset (take (Z.to_nat len) p3) fs) as He.
  rewrite length_take in He. rewrite length_drop in Ht. lia.
Qed.

Lemma reassemble_bound payload :
  bytes_ok payload -> safe (reassemble_initial_crypto_frames payload)
    (fun o => match o with Some bytes => bytes_ok bytes /\ (length bytes <= length payload)%nat | None => True end).
Proof.
  intros Hp. unfold reassemble_initial_crypto_frames. eapply upto_bind; [apply (crypto_frames_bound _ payload []); [done|constructor|lia]|].
  intros [[|f fs]|]; [done| |done]. cbn -[concat]. intros [Hok Ht]. split; done.
Qed.

(** *** The parsers *)

Section Bounds.
Context `{CertLib}.
Implicit Types (m : Memory) (r : TlsReader) (c : Extraction).

(** The reader holds no views that the next call would use. *)
Definition parser_settled m (p : Parser) : Prop :=
  match p with
  | P_tls p =>
      match tp_state p with
      | TPS_IDLE => r_state (tp_reader p) = I_REC
      | TPS_SERVER_HELLO => True
      | TPS_CERT => r_state (tp_reader p) = I_REC /\ 0 <= tp_buffer_offset p <= mem_size m
      end
  | P_http | P_quic _ => True
  end.

(** The reader is left inside a record, after a second server hello in it. *)
Definition second_hello (p : Parser) : Prop :=
  match p with P_tls p => tp_state p = TPS_CERT /\ r_state (tp_reader p) = I_HSHAKE | P_http | P_quic _ => False end.

Definition goes_on_with (res : DomainExtractorResult) : bool :=
  match der_status res with DES_PASS | DES_WANT_MORE => true | DES_FOUND | DES_NOTFOUND => false end.

(** What a TLS parser leaves. *)
Definition tls_parser_left (out : DomainExtractorResult * TlsParser * Memory) : Prop :=
  let '(res, p, m) := out in
  mem_ok m /\ (goes_on_with res = true -> parser_settled m (P_tls p) \/ second_hello (P_tls p)).

Lemma cleared_ok m : mem_ok m -> mem_ok (cleared m).
Proof. intros _. split; [constructor|]. unfold mem_size. cbn. lia. Qed.

Lemma fresh_reader_ok m v r : inside m v -> r_state r = I_REC -> reader_ok m (tls_input v r).
Proof. intros Hv Hst. split; cbn; congruence. Qed.

Lemma left_reader_ok m r0 res : left_ok m r0 res -> inside m (r_in r0) -> reader_ok m (snd res).
Proof. intros [] Hin. split; auto. Qed.

Lemma parse_idle_upto p m : mem_ok m -> r_state (tp_reader p) = I_REC -> tp_state p = TPS_IDLE -> upto overrun (parse_idle p m) tls_parser_left.
Proof.
  intros Hm Hst Hp. unfold parse_idle. pose proof (inside_whole m) as Hw.
  eapply upto_bind; [apply tls_parse_upto; [done|by apply fresh_reader_ok]|]. intros [x r] Hleft.
  pose proof (left_reader_ok _ _ _ Hleft Hw) as Hr. cbn [snd] in Hr. cbn beta iota.
  destruct x; try (apply upto_ret; split; [done|by intros]).
  - apply upto_ret. split; [done|]. intros _. left. cbn. rewrite Hp. by apply (left_more _ _ _ Hleft).
  - eapply upto_bind; [by apply tls_parse_upto|]. intros [x2 r2] Hleft2. cbn beta iota. case_match eqn:Esni.
    + apply andb_prop in Esni as [Ex _]. apply bool_decide_eq_true in Ex. pose proof (left_name _ _ _ Hleft2 Ex) as Hname. cbn [snd] in Hname.
      eapply upto_bind; [apply (upto_read _ _ _ _ _ (fun _ => True)); [done|lia|by destruct Hname as (_ & _ & ? & _)|lia|done]|].
      intros name _. apply upto_ret. split; [by apply cleared_ok|done].
    + apply upto_ret. split; [by apply cleared_ok|]. intros _. by left.
Qed.

(** A turn in [TPS_CERT]: only a second server hello leaves the reader inside a record. *)
Lemma parse_cert_upto p m :
  mem_ok m -> tp_state p = TPS_CERT -> 0 <= tp_buffer_offset p <= mem_size m ->
  (r_state (tp_reader p) <> I_REC -> reader_ok m (tp_reader p)) -> upto overrun (parse_cert p m) tls_parser_left.
Proof.
  intros Hm Hst Hoff Hr. unfold parse_cert. set (rest := sub _ _ _).
  assert (inside m rest) as Hrest.
  { destruct Hm as [_ Hm]. unfold rest. rewrite uwrap_id by (unfold in_width; lia). apply inside_sub; [apply inside_whole|cbn; lia..]. }
  eapply upto_bind; [apply (tls_parse_upto m Hm (tls_input rest (tp_reader p)))|].
  { destruct (decide (r_state (tp_reader p) = I_REC)) as [E|Hne]; [by apply fresh_reader_ok|]. destruct (Hr Hne). split; cbn; auto. }
  intros [x r] Hleft. apply upto_ret. split; [done|]. destruct x; try by intros. intros _.
  - left. cbn. rewrite Hst. split; [by apply (left_more _ _ _ Hleft)|done].
  - right. split; [done|]. by apply (left_serv_hello _ _ _ Hleft).
Qed.

Lemma parse_server_hello_upto p m : mem_ok m -> tp_state p = TPS_SERVER_HELLO -> upto overrun (parse_server_hello p m) tls_parser_left.
Proof.
  intros Hm Hp. unfold parse_server_hello. pose proof (inside_whole m) as Hw.
  eapply upto_bind; [apply tls_parse_upto; [done|by apply fresh_reader_ok]|]. intros [x r] Hleft.
  pose proof (left_reader_ok _ _ _ Hleft Hw) as Hr. pose proof (left_in _ _ _ Hleft Hw) as Hin. cbn [snd] in Hr, Hin. cbn beta iota.
  destruct x; try (apply upto_ret; split; [done|]; intros _; left; cbn; by rewrite Hp).
  eapply upto_bind; [by apply tls_parse_upto|]. intros [x2 r2] Hleft2. cbn beta iota.
  pose proof (left_reader_ok _ _ _ Hleft2 Hin) as Hr2. cbn [snd] in Hr2. case_bool_decide.
  - destruct Hin as (_ & ? & ? & ?). apply parse_cert_upto; [done|done|cbn; lia|by intros].
  - apply upto_ret. split; [done|]. destruct x2; try by intros. intros _.
    + left. cbn. destruct Hin as (_ & ? & ? & ?). split; [by apply (left_more _ _ _ Hleft2)|lia].
    + right. split; [done|]. by apply (left_serv_hello _ _ _ Hleft2).
Qed.

Lemma tls_parser_parse_upto dir p m : mem_ok m -> parser_settled m (P_tls p) -> upto overrun (tls_parser_parse dir p m) tls_parser_left.
Proof.
  intros Hm Hp. unfold tls_parser_parse. cbn in Hp. destruct (tp_state p) eqn:Hst, dir.
  - by apply parse_idle_upto.
  - by apply upto_ret.
  - apply upto_ret. split; [done|]. left. cbn. by rewrite Hst.
  - by apply parse_server_hello_upto.
  - apply upto_ret. split; [done|]. left. cbn. by rewrite Hst.
  - destruct Hp as [Hr Ho]. by apply parse_cert_upto.
Qed.

(** The messages of a packet come to an end. *)
Lemma quic_loop_upto m fuel : forall r, mem_ok m -> reader_ok m r -> r_state r <> I_REC -> record_left r < Z.of_nat fuel ->
  upto overrun (quic_loop fuel m r) (fun _ => True).
Proof.
  induction fuel as [|fuel IH]; intros r Hm Hr Hst Hf.
  { exfalso. destruct (ok_rec _ _ Hr Hst) as (_ & _ & ? & _). unfold record_left in Hf. destruct (r_state r); lia. }
  cbn [quic_loop]. eapply upto_bind; [by apply tls_parse_upto|]. intros [x r1] Hleft. cbn beta iota.
  pose proof (left_name _ _ _ Hleft) as Hname. cbn [fst snd] in Hname.
  assert (is_message x = true -> upto overrun (quic_loop fuel m r1) (fun _ => True)) as Hnext.
  { intros Hx. pose proof (left_within _ _ _ Hleft Hx) as Hst1. pose proof (left_progress _ _ _ Hleft Hst Hx) as Hless. cbn [snd] in *.
    apply IH; [done| |done|lia]. destruct Hleft. split; auto. by intros. }
  destruct x; try (by apply upto_ret); try (by apply Hnext).
  specialize (Hname eq_refl). eapply upto_bind; [apply (upto_read _ _ _ _ _ (fun _ => True)); [done|lia|by destruct Hname as (_ & _ & ? & _)|lia|done]|].
  intros name _. by apply upto_ret.
Qed.

Lemma quic_parse_upto id dir r m : mem_ok m -> upto overrun (quic_parse id dir r m) (fun _ => True).
Proof.
  intros [Hb Hm]. unfold quic_parse. case_match; [done|].
  eapply upto_bind; [eapply upto_mono; [by apply reassemble_bound|done|intros a Ha; exact Ha]|].
  intros [bytes|]; [|done]. intros [Hok Hlen]. apply quic_loop_upto.
  - split; [done|]. unfold mem_size in *. cbn. lia.
  - split; cbn; [done|intros _; apply inside_whole|done].
  - done.
  - unfold record_left. cbn. unfold mem_size. cbn. lia.
Qed.

(** *** The extractor *)

Definition current_left (res : DomainExtractorResult) c : Prop :=
  mem_ok (cx_buffer c) /\
  (goes_on_with res = true -> exists p, cx_current_parser c = Some p /\ (parser_settled (cx_buffer c) p \/ second_hello p)).

Lemma parser_parse_upto dir p c :
  mem_ok (cx_buffer c) -> parser_settled (cx_buffer c) p -> cx_current_parser c = Some p ->
  upto overrun (parser_parse dir p c)
    (fun out => current_left (fst out) (snd out) /\ cx_proto (snd out) = cx_proto c /\ cx_idx (snd out) = cx_idx c).
Proof.
  intros Hm Hp Hc. destruct p as [p| |r]; cbn [parser_parse].
  - eapply upto_bind; [by apply tls_parser_parse_upto|]. intros [[res p'] m'] [Hm' Hleft]. apply upto_ret. split; [|done].
    split; [done|]. intros Hgo. eauto.
  - apply upto_ret. split; [|done]. split; [done|]. intros _. exists P_http. split; [done|by left].
  - eapply upto_bind; [by apply quic_parse_upto|]. intros [res r'] _. apply upto_ret. split; [|done].
    split; [done|]. intros _. eexists. split; [done|]. by left.
Qed.

(** The turns of the loop: one for each parser that is left, and a last one. *)
Definition turns_left c : nat :=
  match cx_current_parser c with None => 0 | Some _ => S (length (produce_table (cx_proto c)) - cx_idx c) end.

Lemma produce_left c n : (S (length (produce_table (cx_proto c)) - cx_idx c) < S n)%nat -> (turns_left (produce c) < n)%nat.
Proof.
  intros Hn. unfold produce. destruct (produce_table (cx_proto c) !! cx_idx c) as [p|] eqn:E; unfold turns_left; cbn; [|lia].
  apply lookup_lt_Some in E. lia.
Qed.

Lemma produce_settled c p : cx_current_parser (produce c) = Some p -> parser_settled (cx_buffer (produce c)) p.
Proof.
  unfold produce. destruct (produce_table (cx_proto c) !! cx_idx c) as [p'|] eqn:E; [|done]. intros [= ->].
  unfold produce_table in E. case_match; apply list_elem_of_lookup_2 in E; set_unfold in E; naive_solver.
Qed.

Lemma try_parsers_upto dir fuel : forall c,
  mem_ok (cx_buffer c) -> (forall p, cx_current_parser c = Some p -> parser_settled (cx_buffer c) p) -> (turns_left c < fuel)%nat ->
  upto overrun (try_parsers fuel dir c) (fun out => current_left (fst out) (snd out)).
Proof.
  induction fuel as [|fuel IH]; intros c Hm Hp Hf; [lia|]. cbn [try_parsers]. unfold turns_left in Hf.
  destruct (cx_current_parser c) as [p|] eqn:Hc; [|by apply upto_ret].
  eapply upto_bind; [by apply parser_parse_upto; auto|]. intros [res c1] ([Hm1 Hleft] & Hproto & Hidx). cbn [fst snd] in *.
  destruct (der_status res) eqn:E; [|by apply upto_ret..].
  apply IH; [|by apply produce_settled|apply produce_left; congruence].
  unfold produce. by case_match.
Qed.

(** Nothing has been received, or the last packet was to be followed by others and left the extractor without views. *)
Definition settled (e : option Extraction) : Prop :=
  match e with None => True | Some c => bytes_ok (mem_bytes (cx_buffer c)) /\ forall p, cx_current_parser c = Some p -> parser_settled (cx_buffer c) p end.

Definition kept (e : option Extraction) : list Z := match e with None => [] | Some c => mem_bytes (cx_buffer c) end.
Definition waits_in_record (e : option Extraction) : Prop :=
  exists c p, e = Some c /\ cx_current_parser c = Some p /\ second_hello p.

Lemma proceed_upto dir proto data e :
  settled e -> bytes_ok data -> Z.of_nat (length (kept e ++ data)) < 2 ^ 64 ->
  upto overrun (proceed dir proto data e) (fun out =>
    (der_status (fst out) = DES_FOUND -> forallb is_printable (der_domain (fst out)) = true) /\
    (goes_on_with (fst out) = true -> settled (snd out) \/ waits_in_record (snd out))).
Proof.
  intros He Hd Hsize. unfold proceed. set (c := match e with Some c => c | None => context_new proto end).
  assert (bytes_ok (mem_bytes (cx_buffer c) ++ data) /\ Z.of_nat (length (mem_bytes (cx_buffer c) ++ data)) < 2 ^ 64 /\
    forall p, cx_current_parser c = Some p -> parser_settled (cx_buffer c) p) as (Hb & Hl & Hp).
  { destruct e as [c'|]; [destruct He; split; [by apply Forall_app|done]|]. subst c. split_and!; [by unfold context_new, produce; case_match| |].
    - unfold context_new, produce. by case_match.
    - intros p. apply produce_settled. }
  clearbody c. eapply upto_bind.
  - unfold context_parse. apply (try_parsers_upto dir _ (append data c)).
    + by split.
    + intros p Ep. specialize (Hp p Ep). destruct p as [p| |]; [|done..]. cbn in *. destruct (tp_state p); [done..|].
      destruct Hp as [Hr Ho]. split; [done|]. unfold mem_size in *. cbn. rewrite length_app. lia.
    + unfold turns_left. case_match; lia.
  - intros [res c1] [Hm1 Hleft]. cbn [fst snd] in *.
    assert (goes_on_with res = true -> settled (Some c1) \/ waits_in_record (Some c1)) as Hgo.
    { intros Hg. destruct (Hleft Hg) as (p & Ep & [Hs|Hs]); [left|right; by exists c1, p]. split; [apply Hm1|]. intros p' Ep'. congruence. }
    case_match eqn:E; apply upto_ret; cbn [fst snd]; (split; [|done]); [done|]. intros Hf.
    rewrite bool_decide_eq_true_2 in E by done. by destruct (forallb _ _).
Qed.

Lemma settled_waits e : settled e -> ~ waits_in_record e.
Proof.
  intros He (c & p & -> & Ep & Hp). destruct He as [_ He]. specialize (He p Ep).
  destruct p as [p| |]; [|done..]. destruct Hp as [Hs Hh]. cbn in He. rewrite Hs in He. destruct He as [He _]. congruence.
Qed.

(** An extractor after packets of a connection that it read without a fault and that are to
    be followed by others, none of which left its reader inside a record. *)
Inductive extraction (proto : Z) : option Extraction -> Prop :=
| EX_new : extraction proto None
| EX_next dir data e res e' :
    extraction proto e -> bytes_ok data -> Z.of_nat (length (kept e ++ data)) < 2 ^ 64 ->
    proceed dir proto data e = ((res, e'), []) -> goes_on_with res = true -> ~ waits_in_record e' ->
    extraction proto e'.

Lemma extraction_settled proto e : extraction proto e -> settled e.
Proof.
  induction 1 as [|dir data e res e' _ IH Hd Hsize Hp Hg Hw]; [done|].
  pose proof (proceed_upto dir proto data e IH Hd Hsize) as Hup. rewrite Hp in Hup. destruct Hup as [_ Hup].
  by destruct (Hup Hg).
Qed.

(** C12. A packet of either direction, whatever bytes it holds, given to an extractor that is
    new or has read the packets before it without a fault and does not wait inside a record:
    the extractor returns, and either everything it read was in its buffer and a name it found
    is printable, or the first thing that went wrong is a handshake message longer than its
    record.  It waits inside a record only after two server hellos in one record, and the
    next packet is then not covered ([second_hello_dangles]); after any other packet that is
    to be followed by others the same holds of the next one. *)
Theorem extractor_stays_in_bounds dir proto data e :
  extraction proto e -> bytes_ok data -> Z.of_nat (length (kept e ++ data)) < 2 ^ 64 ->
  let '((res, e'), wrong) := proceed dir proto data e in
  match wrong with
  | [] => (der_status res = DES_FOUND -> forallb is_printable (der_domain res) = true) /\
          (goes_on_with res = true -> extraction proto e' \/ waits_in_record e')
  | first :: _ => first = PREFIX_TOO_LONG
  end.
Proof.
  intros He Hd Hsize. pose proof (proceed_upto dir proto data e (extraction_settled proto e He) Hd Hsize) as Hup.
  unfold upto in Hup. destruct (proceed dir proto data e) as [[res e'] wrong] eqn:Hp. cbn [fst snd] in Hup.
  destruct wrong as [|first wrong]; [|done]. destruct Hup as [Hf Hg]. split; [done|]. intros Hgo.
  destruct (Hg Hgo) as [Hs|Hw]; [left|by right]. eapply EX_next; try done. by apply settled_waits.
Qed.
End Bounds.

(** ** A sample *)

Module ExtractorSample.
(** A certificate is decoded to a name of its own. *)
#[export] Instance certs : CertLib := fun bytes => if bool_decide (bytes = []) then None else Some (Some (txt "cert.net")).

(** Keys and masks of zeros, and a cipher that adds a tag of 16 bytes. *)
#[export, refine] Instance crypto : QuicCrypto := {|
  hkdf_extract _ _ := Some (replicate 32 0);
  hkdf_expand n _ _ := Some (replicate n 0);
  hp_mask _ _ := Some (replicate 16 0);
  aead_decrypt _ ciphertext _ _ := if (length ciphertext <? 16)%nat then None else Some (take (length ciphertext - 16) ciphertext);
  max_overhead := 16;
|}.
Proof.
  - lia.
  - intros key sample mask [= <-]. cbn. lia.
  - intros key ciphertext nonce ad plaintext E. destruct (_ <? 16)%nat eqn:Hl; [done|]. apply Nat.ltb_ge in Hl. injection E as <-.
    rewrite length_take. lia.
Defined.

(** An initial packet of version 1 with a token and no ids. *)
Definition initial_header (token : list Z) : PktHd := mkPktHd 1 NGTCP2_PKT_INITIAL [] [] token.
#[export] Instance headers : QuicHeaders := {|
  decode_hd_long packet := if nth 0 packet 0 =? 192 then Some (initial_header []) else None;
  decode_hd_short packet := None;
|}.

Definition groups : Z * list Z := (10, [0; 2; 0; 29]).
Definition hello : Hello := mkHello ([3; 3] ++ replicate 32 7) [] [19; 1] [0] [groups] (txt "example.org") [(23, [])].
Definition record : list Z := Eval vm_compute in hello_record 769 hello.

(** The same without the name. *)
Definition unnamed_record : list Z := Eval vm_compute in
  put_record 769 (put_hshake HS_CLIENT_HELLO ([3; 3] ++ replicate 32 7 ++ sized 1 [] ++ sized 2 [19; 1] ++ sized 1 [0] ++ sized 2 (put_exts [groups]))).

Definition server_hello : list Z := put_hshake HS_SERVER_HELLO [3; 3].
Definition certificate : list Z := put_hshake HS_CERTIFICATE (sized 3 (sized 3 [1; 2; 3])).
Definition server_record : list Z := Eval vm_compute in put_record 771 (server_hello ++ certificate).

Lemma hello_is_ok : hello_ok hello.
Proof. split; try reflexivity. repeat constructor; discriminate. Qed.

Lemma hello_is_named : named_hello 769 hello.
Proof. split; [apply hello_is_ok|split; [split|]|..]; done. Qed.

(** The packets in both directions. *)
Fixpoint run (packets : list (PacketDirection * list Z)) (e : option Extraction) : list DomainExtractorResult * list string :=
  match packets with
  | [] => ([], [])
  | (dir, data) :: packets =>
      let '((r, e), wrong) := proceed dir IPPROTO_TCP data e in
      let '(rs, wrong') := run packets e in (r :: rs, wrong ++ wrong')
  end.
End ExtractorSample.
Import ExtractorSample.

(** *** Instances of the theorems *)

(** The hello of the sample in three parts, with other data behind it. *)
Lemma hello_in_pieces_is_found_witness :
  exists e, feed IPPROTO_TCP [take 10 record; take 30 (drop 10 record); drop 40 record ++ [1; 2]] None =
    (([result DES_WANT_MORE; result DES_WANT_MORE; mkExtractorResult DES_FOUND (txt "example.org")], e), []).
Proof.
  refine (hello_in_pieces_is_found 769 hello [take 10 record; take 30 (drop 10 record)] (drop 40 record ++ [1; 2]) [1; 2] hello_is_named _ _ _);
    [vm_compute; reflexivity|apply Nat.ltb_lt; vm_compute; reflexivity|vm_compute; reflexivity].
Defined.

Definition crypto_parts : list (list Z) := Eval vm_compute in
  let message := put_hshake HS_CLIENT_HELLO (put_hello hello) in [take 20 message; drop 20 message].
Definition crypto_packet : list Frame :=
  [F_ping; F_crypto 20 (nth 1 crypto_parts []); F_padding; F_crypto 0 (nth 0 crypto_parts []); F_padding; F_padding].

(** The hello in two frames, the second one first. *)
Lemma quic_hello_is_found_witness :
  exists e, proceed DEPD_OUTGOING IPPROTO_UDP (put_frames crypto_packet) None = ((mkExtractorResult DES_FOUND (txt "example.org"), e), []).
Proof.
  refine (quic_hello_is_found crypto_packet crypto_parts hello [] hello_is_ok eq_refl _ _ _ _ _).
  - repeat constructor; vm_compute; congruence.
  - repeat constructor; discriminate.
  - apply Permutation_swap.
  - vm_compute. reflexivity.
  - vm_compute. reflexivity.
Defined.

(** The first packet of the sample. *)
Lemma extractor_stays_in_bounds_witness :
  exists e, extraction IPPROTO_TCP e /\ kept e = take 10 record /\
    proceed DEPD_OUTGOING IPPROTO_TCP (drop 10 record) e =
      ((mkExtractorResult DES_FOUND (h_host hello), snd (fst (proceed DEPD_OUTGOING IPPROTO_TCP (drop 10 record) e))), []) /\
    forallb is_printable (h_host hello) = true.
Proof.
  set (e := snd (fst (proceed DEPD_OUTGOING IPPROTO_TCP (take 10 record) None))). exists e.
  assert (He : extraction IPPROTO_TCP e).
  { apply (EX_next IPPROTO_TCP DEPD_OUTGOING (take 10 record) None (result DES_WANT_MORE)); [apply EX_new|..].
    - vm_compute. repeat constructor; congruence.
    - vm_compute. reflexivity.
    - vm_compute. reflexivity.
    - reflexivity.
    - apply settled_waits. vm_compute. split; [repeat constructor; congruence|]. intros p [= <-]. reflexivity. }
  split; [exact He|]. split; [vm_compute; reflexivity|]. split; [vm_compute; reflexivity|].
  pose proof (extractor_stays_in_bounds DEPD_OUTGOING IPPROTO_TCP (drop 10 record) e He) as Hb.
  assert (Hp : proceed DEPD_OUTGOING IPPROTO_TCP (drop 10 record) e =
    ((mkExtractorResult DES_FOUND (h_host hello), snd (fst (proceed DEPD_OUTGOING IPPROTO_TCP (drop 10 record) e))), []))
    by (vm_compute; reflexivity).
  rewrite Hp in Hb. apply Hb; [vm_compute; repeat constructor; congruence|vm_compute; reflexivity|reflexivity].
Defined.

(** *** What the code does not do as meant *)

(** The length of a handshake message may be up to three bytes more than there are: the view of the
    record becomes as long as a [size_t] allows and is read beyond the buffer. *)
Example message_overruns_record :
  let m := mkMemory 0 (put_record 771 (HS_SERVER_HELLO :: be_bytes 3 7 ++ [3; 3; 0; 0])) in
  let '((x, r), wrong) := tls_parse m (tls_input (whole m) reader_new) in
  (x, v_len (r_rec r), wrong) = (TLS_RSERV_HELLO, 2 ^ 64 - 3, [PREFIX_TOO_LONG]) /\ OUT_OF_BOUNDS ∈ snd (tls_parse m r).
Proof. vm_compute. split; [reflexivity|]. left. Qed.

(** Two server hellos in a record leave the reader in it; the buffer has moved when the next packet comes. *)
Example second_hello_dangles :
  let first := put_record 771 (server_hello ++ server_hello ++ certificate) in
  run [(DEPD_OUTGOING, unnamed_record); (DEPD_INCOMING, first)] None = ([result DES_PASS; result DES_PASS], []) /\
  OUT_OF_BOUNDS ∈ snd (run [(DEPD_OUTGOING, unnamed_record); (DEPD_INCOMING, first); (DEPD_INCOMING, [0])] None).
Proof. vm_compute. split; [reflexivity|]. left. Qed.

(** The name in the certificate is found, unless the client has sent something in between: that stays in the buffer,
    in front of the server hello. *)
Example outgoing_data_hides_certificate :
  fst (run [(DEPD_OUTGOING, unnamed_record); (DEPD_INCOMING, server_record)] None) =
    [result DES_PASS; mkExtractorResult DES_FOUND (txt "cert.net")] /\
  fst (run [(DEPD_OUTGOING, unnamed_record); (DEPD_OUTGOING, [20; 3; 3; 0; 1; 1]); (DEPD_INCOMING, server_record)] None) =
    [result DES_PASS; result DES_PASS; result DES_PASS].
Proof. vm_compute. split; reflexivity. Qed.

(** [Host:] is looked for as it is written and anywhere; the port stays with the name. *)
Example host_headers :
  let ask header := http_parse (txt "GET / HTTP/1.1" ++ CRLF ++ txt header ++ CRLF ++ CRLF) in
  ask "Host: site.org" = mkExtractorResult DES_FOUND (txt "site.org") /\
  ask "host: site.org" = result DES_NOTFOUND /\
  ask "X-Forwarded-Host: other.net" = mkExtractorResult DES_FOUND (txt "other.net") /\
  ask "Host: site.org:8080" = mkExtractorResult DES_FOUND (txt "site.org:8080") /\
  http_parse (txt "GET http:///x") = mkExtractorResult DES_FOUND [].
Proof. vm_compute. repeat split; reflexivity. Qed.

(** Of two CRYPTO frames at the same offset the first one counts, also if it is empty; a part that is missing is not missed. *)
Example crypto_frames_not_checked :
  fst (reassemble_initial_crypto_frames (put_frames [F_crypto 0 []; F_crypto 0 [1; 2; 3]])) = Some [] /\
  fst (reassemble_initial_crypto_frames (put_frames [F_crypto 0 [1]; F_crypto 9 [2]])) = Some [1; 2].
Proof. vm_compute. split; reflexivity. Qed.

(** A packet that its token fills: the sample for the header protection is read behind its end. *)
Example sample_behind_packet :
  let token := replicate 1190 0 in
  let packet := [192; 0; 0; 0; 1; 0; 0] ++ put_varint 1190 ++ token ++ [5] in
  mem_size (mkMemory 0 packet) = 1200 /\
  head (snd (decrypt_initial (mkMemory 0 packet) (header_of None (initial_header token)))) = Some OUT_OF_BOUNDS.
Proof. vm_compute. split; reflexivity. Qed.

Definition initial_packet : list Z := Eval vm_compute in
  [192; 0; 0; 0; 1; 0; 0; 0] ++ put_varint 1190 ++ [0] ++ put_frames crypto_packet ++ replicate (1189 - length (put_frames crypto_packet)) 0.

(** The packet with the frames of the sample. *)
Lemma initial_packet_stays_in_bounds_witness :
  snd (prepare_for_domain_lookup (mkMemory 0 initial_packet) (header_of None (initial_header []))) = [] /\
  (fun payload => take (length (put_frames crypto_packet)) payload) <$>
    fst (prepare_for_domain_lookup (mkMemory 0 initial_packet) (header_of None (initial_header []))) = Some (put_frames crypto_packet).
Proof.
  split; [|vm_compute; reflexivity]. eapply proj1, safe_value.
  refine (initial_packet_stays_in_bounds (mkMemory 0 initial_packet) (header_of None (initial_header [])) _ _ _).
  - split; [apply (bool_decide_unpack (bytes_ok initial_packet)); vm_compute; exact I|vm_compute; reflexivity].
  - vm_compute. repeat split; discriminate.
  - vm_compute. discriminate.
Defined.
