(* ===== verification/Tunnel.v ===== *)
(** * The tunnel

    Models [core/src/tunnel.cpp] with the connection objects of
    [core/src/vpn_connection.cpp]: the part that takes the connections of the listeners,
    decides which upstream each goes through, and passes data both ways.

    A connection is an object on the heap that two tables point to, by the id it has on
    the client side and by the id it has on the server side.  The heap and the tables are
    part of the state, so a table entry may in principle outlive its object; that it does
    not is a theorem ([TunnelInvariant.v]).  The domain filter, the domain extractor of a
    connection, the ICMP manager and the statistics monitor are the models of their own
    files.

    The listeners and the upstreams are the other side: what they are told is an output,
    what they answer comes from [TunnelEnv], and their events are inputs.  Some of their
    calls raise an event before they return; the code after such a call only looks at the
    connection again after looking it up, so the event is the next input here. *)

From stdpp Require Import gmap.
From S2P Require Import Prelude VpnTypes PortRanges Wire View DomainFilter Tls Quic DomainExtractor Statistics Icmp.

(** ** Data *)

Definition PLAIN_DNS_PORT_NUMBER : Z := 53.

(** Error numbers, as on Linux. *)
Definition AG_ENETUNREACH : Z := 101.
Definition AG_EHOSTUNREACH : Z := 113.
Definition AG_ECONNRESET : Z := 104.
Definition AG_ETIMEDOUT : Z := 110.
Definition AG_ECONNREFUSED : Z := 111.

Inductive VpnConnectionState :=
| CONNS_WAITING_ACTION
| CONNS_WAITING_RESOLVE
| CONNS_WAITING_RESPONSE
| CONNS_WAITING_RESPONSE_MIGRATING
| CONNS_WAITING_ACCEPT
| CONNS_CONNECTED
| CONNS_CONNECTED_MIGRATING
| CONNS_REJECTED.

#[export] Instance conn_state_eq_dec : EqDecision VpnConnectionState.
Proof. solve_decision. Defined.

(** [VpnConnectionFlags], a bit each *)
Record ConnFlags := mkConnFlags {
  CONNF_FIRST_PACKET : bool;
  CONNF_FORCIBLY_BYPASSED : bool;
  CONNF_FORCIBLY_REDIRECTED : bool;
  CONNF_LOOKINGUP_DOMAIN : bool;
  CONNF_SESSION_CLOSED : bool;
  CONNF_SUSPECT_EXCLUSION : bool;
  CONNF_FAKE_CONNECTION : bool;
  CONNF_PLAIN_DNS_CONNECTION : bool;
  CONNF_MONITOR_STATS : bool;
  CONNF_CONN_INFO_SENT : bool;
}.
#[export] Instance eta_ConnFlags : Eta ConnFlags := fun r =>
  mkConnFlags (CONNF_FIRST_PACKET r) (CONNF_FORCIBLY_BYPASSED r) (CONNF_FORCIBLY_REDIRECTED r) (CONNF_LOOKINGUP_DOMAIN r)
    (CONNF_SESSION_CLOSED r) (CONNF_SUSPECT_EXCLUSION r) (CONNF_FAKE_CONNECTION r) (CONNF_PLAIN_DNS_CONNECTION r)
    (CONNF_MONITOR_STATS r) (CONNF_CONN_INFO_SENT r).

Definition no_conn_flags : ConnFlags := mkConnFlags false false false false false false false false false false.

(** The listeners, and the upstreams; the endpoint upstream is made anew for each session. *)
Inductive Listener := L_client | L_dns_proxy | L_dns_resolver | L_dns_handler.
Inductive Upstream := U_endpoint (session : Z) | U_bypass | U_fake | U_dns_handler.

#[export] Instance listener_eq_dec : EqDecision Listener.
Proof. solve_decision. Defined.
#[export] Instance upstream_eq_dec : EqDecision Upstream.
Proof. solve_decision. Defined.

(** [VpnConnection]; a weak pointer is the object it was made from. *)
Record VpnConnection := mkVpnConnection {
  vc_client_id : Z;
  vc_server_id : Z;
  vc_listener : option Listener;
  vc_upstream : option Upstream;
  vc_state : VpnConnectionState;
  vc_addr : TunnelAddressPair;
  vc_proto : Z;
  vc_flags : ConnFlags;
  vc_uid : Z;
  vc_extractor : option Extraction;
  vc_extractor_result : DomainExtractorResult;
  vc_migrating_client_id : Z;
  vc_app_name : text;
  vc_complete_task : option Z;
  vc_incoming_bytes : Z;
  vc_outgoing_bytes : Z;
  vc_buffered_packets : list (list Z);
  vc_send_buffered_task : bool;
  vc_lookup_attempts_num : Z;
  vc_action : option VpnConnectAction;
}.
#[export] Instance eta_VpnConnection : Eta VpnConnection := fun r =>
  mkVpnConnection (vc_client_id r) (vc_server_id r) (vc_listener r) (vc_upstream r) (vc_state r) (vc_addr r) (vc_proto r)
    (vc_flags r) (vc_uid r) (vc_extractor r) (vc_extractor_result r) (vc_migrating_client_id r) (vc_app_name r) (vc_complete_task r)
    (vc_incoming_bytes r) (vc_outgoing_bytes r) (vc_buffered_packets r) (vc_send_buffered_task r)
    (vc_lookup_attempts_num r) (vc_action r).

(** The protocols a connection can be made for; for another [VpnConnection::make] throws. *)
Definition is_transport_protocol (proto : Z) : bool := (proto =? IPPROTO_TCP) || (proto =? IPPROTO_UDP).

(** [VpnConnection::make] *)
Definition connection_make (client_id : Z) (addr : TunnelAddressPair) (proto : Z) : VpnConnection :=
  let dns := match tap_dst addr with TA_address dst => sa_port dst =? PLAIN_DNS_PORT_NUMBER | TA_name _ _ => false end in
  {| vc_client_id := client_id; vc_server_id := NON_ID; vc_listener := None; vc_upstream := None;
     vc_state := CONNS_WAITING_ACTION; vc_addr := addr; vc_proto := proto;
     vc_flags := no_conn_flags <| CONNF_PLAIN_DNS_CONNECTION := dns |>; vc_uid := 0;
     vc_extractor := None; vc_extractor_result := mkExtractorResult DES_NOTFOUND []; vc_migrating_client_id := NON_ID; vc_app_name := [];
     vc_complete_task := None; vc_incoming_bytes := 0; vc_outgoing_bytes := 0; vc_buffered_packets := [];
     vc_send_buffered_task := false; vc_lookup_attempts_num := 0; vc_action := None |}.

Definition make_tag (c : VpnConnection) : SockAddrTag :=
  mkTag match tap_dst (vc_addr c) with TA_address dst => dst | TA_name _ _ => no_address end (vc_app_name c).

Inductive ClientConnectResult := CCR_PASS | CCR_DROP | CCR_REJECT | CCR_UNREACH.

#[export] Instance connect_result_eq_dec : EqDecision ClientConnectResult.
Proof. solve_decision. Defined.

Inductive VpnFinalConnectionAction := VPN_FCA_BYPASS | VPN_FCA_TUNNEL | VPN_FCA_REJECT.

Inductive IpVersion := IPV4 | IPV6.
Definition get_ip_version (addr : SocketAddress) : option IpVersion :=
  if is_ipv4 addr then Some IPV4 else if is_ipv6 addr then Some IPV6 else None.

(** What [flow_control_info] tells; [no_flow] is the default-constructed one. *)
Record TcpFlowCtrlInfo := mkFlow { send_buffer_size : Z; send_window_size : Z }.
Definition no_flow : TcpFlowCtrlInfo := mkFlow 0 0.

Inductive ResolveQueue := VDRQ_BACKGROUND | VDRQ_FOREGROUND.

(** What the tunnel tells the listeners, the upstreams, the resolver and the application. *)
Inductive TunnelOut :=
| L_complete_connect_request (l : Listener) (id : Z) (result : ClientConnectResult)
| L_close_connection (l : Listener) (id : Z) (graceful async : bool)
| L_turn_read (l : Listener) (id : Z) (on : bool)
| L_send (l : Listener) (id : Z) (data : list Z)
| L_consume (l : Listener) (id n : Z)
| L_process_icmp_reply (reply : IcmpEchoReply)
| U_open_connection (u : Upstream) (id : Z) (addr : TunnelAddressPair) (proto : Z) (app_name : text)
| U_close_connection (u : Upstream) (id : Z) (graceful async : bool)
| U_send (u : Upstream) (id : Z) (data : list Z)
| U_consume (u : Upstream) (id n : Z)
| U_update_flow_control (u : Upstream) (id : Z) (info : TcpFlowCtrlInfo)
| U_do_health_check (u : Upstream)
| U_cancel_health_check (u : Upstream)
| U_on_icmp_request (u : Upstream) (request : IcmpEchoRequest)
| U_reopen_session (u : Upstream)
| U_deinit (u : Upstream)
| H_notify_vpn_resolver_connection (id : Z)
| H_update_parameters
| H_on_network_change
| R_resolve (queue : ResolveQueue) (name : text)
| R_cancel (id : Z)
| R_stop_resolving
| R_stop_background
| R_deinit
| A_connect_request (id : Z)
| A_connection_info (src : SocketAddress) (dst : TunnelAddress) (domain : option text) (proto : Z)
    (action : VpnFinalConnectionAction)
| A_connection_closed (id : Z)
| A_output.

(** What the parts the tunnel reads and calls are and answer during a step. *)
Record TunnelEnv := mkTunnelEnv {
  te_now : Z;
  te_clock_ok : bool;
  te_endpoint : option Z;
  te_bypass : bool;
  te_client_listener : bool;
  te_dns_proxy_listener : bool;
  te_listener_alive : Listener -> bool;
  te_upstream_alive : Upstream -> bool;
  te_ip_available : Upstream -> IpVersion -> bool;
  te_early_ack : bool;
  te_scannable_ports : list PortRange;
  te_preresolve : bool;
  te_preresolve_max_queries : Z;
  te_exclusions_mode : VpnMode;
  te_may_send_icmp : bool;
  te_timeout_ms : Z;
  (** answers; to [send] by the number of buffered packets there are yet *)
  te_open_connection : Upstream -> Z;
  te_send : nat -> Z;
  te_available_to_send : Z;
  te_flow : TcpFlowCtrlInfo;
  te_listener_send : Z;
  te_resolve : text -> option Z;
  te_is_vpn_resolver_connection : Z -> bool;
  te_is_loopback : SocketAddress -> bool;
  te_parse_ip : text -> Z -> option SocketAddress;
}.
#[export] Instance eta_TunnelEnv : Eta TunnelEnv := fun r =>
  mkTunnelEnv (te_now r) (te_clock_ok r) (te_endpoint r) (te_bypass r) (te_client_listener r) (te_dns_proxy_listener r)
    (te_listener_alive r) (te_upstream_alive r) (te_ip_available r) (te_early_ack r) (te_scannable_ports r)
    (te_preresolve r) (te_preresolve_max_queries r) (te_exclusions_mode r) (te_may_send_icmp r) (te_timeout_ms r)
    (te_open_connection r) (te_send r) (te_available_to_send r) (te_flow r) (te_listener_send r) (te_resolve r)
    (te_is_vpn_resolver_connection r) (te_is_loopback r)
    (te_parse_ip r).

(** The pointers of the client: the upstreams and the listeners it has. *)
Definition endpoint_upstream (env : TunnelEnv) : option Upstream := U_endpoint <$> te_endpoint env.
Definition bypass_upstream (env : TunnelEnv) : option Upstream := if te_bypass env then Some U_bypass else None.
Definition client_listener (env : TunnelEnv) : option Listener := if te_client_listener env then Some L_client else None.
Definition dns_proxy_listener (env : TunnelEnv) : option Listener := if te_dns_proxy_listener env then Some L_dns_proxy else None.

(** [weak_ptr::lock] *)
Definition lock_listener (env : TunnelEnv) (c : VpnConnection) : option Listener :=
  match vc_listener c with Some l => if te_listener_alive env l then Some l else None | None => None end.
Definition lock_upstream (env : TunnelEnv) (c : VpnConnection) : option Upstream :=
  match vc_upstream c with Some u => if te_upstream_alive env u then Some u else None | None => None end.

Record Tunnel {TC SC HC : Type} := mkTunnel {
  t_id : Z;
  t_heap : gmap Z VpnConnection;
  t_next_object : Z;
  t_by_client_id : gmap Z Z;
  t_by_server_id : gmap Z Z;
  t_icmp_manager : IcmpManager.Manager;
  t_endpoint_upstream_connected : bool;
  t_sleeping : bool;
  t_last_health_check_at : Z;
  t_dns_resolver : bool;
  t_fake_upstream : bool;
  t_dns_handler : bool;
  t_dns_resolve_waiters : gmap Z Z;
  t_repeat_exclusions_resolve_task : bool;
  t_statistics_monitor : Monitor;
  t_domain_filter : DomainFilter TC SC;
  t_hostname_cache : option HC;
  t_out : list TunnelOut;
  t_faults : list string;
}.
Arguments Tunnel : clear implicits.
#[export] Instance eta_Tunnel {TC SC HC} : Eta (Tunnel TC SC HC) := fun r =>
  mkTunnel _ _ _ (t_id r) (t_heap r) (t_next_object r) (t_by_client_id r) (t_by_server_id r) (t_icmp_manager r)
    (t_endpoint_upstream_connected r) (t_sleeping r) (t_last_health_check_at r) (t_dns_resolver r) (t_fake_upstream r)
    (t_dns_handler r) (t_dns_resolve_waiters r) (t_repeat_exclusions_resolve_task r) (t_statistics_monitor r)
    (t_domain_filter r) (t_hostname_cache r) (t_out r) (t_faults r).

(** ** Operations *)

Definition server_error_to_connect_result (err : Z) : ClientConnectResult :=
  if err =? 0 then CCR_PASS
  else if err =? AG_ETIMEDOUT then CCR_DROP
  else if (err =? AG_ENETUNREACH) || (err =? AG_EHOSTUNREACH) then CCR_UNREACH
  else CCR_REJECT.

Definition get_final_action (mode : VpnMode) (action : VpnConnectAction) : VpnFinalConnectionAction :=
  match action with
  | VPN_CA_DEFAULT => match mode with VPN_MODE_GENERAL => VPN_FCA_TUNNEL | VPN_MODE_SELECTIVE => VPN_FCA_BYPASS end
  | VPN_CA_FORCE_BYPASS => VPN_FCA_BYPASS
  | VPN_CA_FORCE_REDIRECT => VPN_FCA_TUNNEL
  | VPN_CA_REJECT => VPN_FCA_REJECT
  end.

Definition vpn_mode_to_action (mode : VpnMode) : VpnConnectAction :=
  match mode with VPN_MODE_GENERAL => VPN_CA_FORCE_REDIRECT | VPN_MODE_SELECTIVE => VPN_CA_FORCE_BYPASS end.

Definition invert_action (action : VpnConnectAction) : VpnConnectAction :=
  match action with
  | VPN_CA_FORCE_BYPASS => VPN_CA_FORCE_REDIRECT
  | VPN_CA_FORCE_REDIRECT => VPN_CA_FORCE_BYPASS
  | VPN_CA_DEFAULT | VPN_CA_REJECT => action
  end.

Inductive TunnelDomainLookupAction := TDLA_DONE | TDLA_PASS | TDLA_DROP | TDLA_SHUTDOWN | TDLA_BLOCK | TDLA_WANT_MORE.

Section Tunnel.
Context `{FilterLib} `{CertLib} `{QuicCrypto} `{QuicHeaders} {TC SC HC : Type}.
Context `{LruTimeoutCache TC SockAddrTag text} `{LruTimeoutCache SC SocketAddress Z}.
Context `{LruTimeoutCache HC TunnelAddressPair DomainExtractorResult}.
Context (env : TunnelEnv).
Implicit Types t : Tunnel TC SC HC.

Definition emit (o : TunnelOut) t : Tunnel TC SC HC := t <| t_out := t_out t ++ [o] |>.
Definition fault (what : string) t : Tunnel TC SC HC := t <| t_faults := t_faults t ++ [what] |>.

(** *** The objects and the tables *)

Definition connection (o : Z) t : option VpnConnection := t_heap t !! o.
Definition update (o : Z) (f : VpnConnection -> VpnConnection) t : Tunnel TC SC HC := t <| t_heap := alter f o (t_heap t) |>.
Definition set_state (o : Z) (st : VpnConnectionState) : Tunnel TC SC HC -> Tunnel TC SC HC :=
  update o (fun c => c <| vc_state := st |>).
Definition set_flags (o : Z) (f : ConnFlags -> ConnFlags) : Tunnel TC SC HC -> Tunnel TC SC HC :=
  update o (fun c => c <| vc_flags := f (vc_flags c) |>).

(** [vpn_connection_get_by_id]: the object an id stands for. *)
Definition get_by_client_id (id : Z) t : option (Z * VpnConnection) :=
  o ← t_by_client_id t !! id; c ← connection o t; Some (o, c).
Definition get_by_server_id (id : Z) t : option (Z * VpnConnection) :=
  o ← t_by_server_id t !! id; c ← connection o t; Some (o, c).

(** [operator new] *)
Definition allocate (c : VpnConnection) t : Z * Tunnel TC SC HC :=
  (t_next_object t, t <| t_heap := <[t_next_object t := c]> (t_heap t) |> <| t_next_object := t_next_object t + 1 |>).

Definition remove_client_id (id : Z) t : Tunnel TC SC HC := t <| t_by_client_id := delete id (t_by_client_id t) |>.
Definition remove_server_id (id : Z) t : Tunnel TC SC HC := t <| t_by_server_id := delete id (t_by_server_id t) |>.

Definition add_connection (o : Z) t : Tunnel TC SC HC :=
  match connection o t with
  | None => fault "no connection" t
  | Some c =>
      let t := if (vc_client_id c =? NON_ID) && (vc_server_id c =? NON_ID) then fault "connection without id" t else t in
      let t := if vc_client_id c =? NON_ID then t else t <| t_by_client_id := <[vc_client_id c := o]> (t_by_client_id t) |> in
      if vc_server_id c =? NON_ID then t else t <| t_by_server_id := <[vc_server_id c := o]> (t_by_server_id t) |>
  end.

(** The first waiter of a connection: a connection whose request is completed once has at most one. *)
Definition cancel_destination_resolve (c : VpnConnection) t : Tunnel TC SC HC :=
  match List.find (fun w => snd w =? vc_client_id c) (map_to_list (t_dns_resolve_waiters t)) with
  | None => t
  | Some (id, _) => (emit (R_cancel id) t) <| t_dns_resolve_waiters := delete id (t_dns_resolve_waiters t) |>
  end.

(** What [destroy_connection] does once it has found the connection. *)
Definition destroy_object (o : Z) (c : VpnConnection) t : Tunnel TC SC HC :=
  let t := if bool_decide (vc_state c = CONNS_WAITING_RESOLVE) then cancel_destination_resolve c t else t in
  let t := remove_client_id (vc_client_id c) t in
  let t := remove_server_id (vc_server_id c) t in
  let t := match t_hostname_cache t with
           | Some cache =>
               if vc_proto c =? IPPROTO_UDP
               then t <| t_hostname_cache := Some (cache_insert (te_now env) (vc_addr c) (vc_extractor_result c) cache) |>
               else t
           | None => t
           end in
  let t := if CONNF_MONITOR_STATS (vc_flags c)
           then t <| t_statistics_monitor := unregister_conn (te_now env) (vc_client_id c) true (t_statistics_monitor t) |>
           else t in
  let t := match lock_listener env c with
           | Some l => if bool_decide (Some l = client_listener env) then emit (A_connection_closed (vc_client_id c)) t else t
           | None => t
           end in
  t <| t_heap := delete o (t_heap t) |>.

Definition destroy_connection (client_id server_id : Z) t : Tunnel TC SC HC :=
  let t := if (client_id =? NON_ID) && (server_id =? NON_ID) then fault "connection without id" t else t in
  let found := if client_id =? NON_ID then None else get_by_client_id client_id t in
  let found := match found with
               | Some _ => found
               | None => if server_id =? NON_ID then None else get_by_server_id server_id t
               end in
  match found with
  | Some (o, c) => destroy_object o c t
  | None => t
  end.

(** *** Closing the client side *)

Definition close_client_side_connection (o : Z) (err_code : Z) (async : bool) t : Tunnel TC SC HC :=
  match connection o t with
  | None => fault "no connection" t
  | Some c =>
      match lock_listener env c with
      | None => destroy_connection (vc_client_id c) (vc_server_id c) t
      | Some l =>
          match vc_state c with
          | CONNS_WAITING_ACCEPT | CONNS_CONNECTED | CONNS_CONNECTED_MIGRATING | CONNS_REJECTED =>
              emit (L_close_connection l (vc_client_id c) (err_code =? 0) async) t
          | CONNS_WAITING_RESOLVE | CONNS_WAITING_RESPONSE | CONNS_WAITING_ACTION =>
              let err_code := if err_code =? 0 then AG_ECONNREFUSED else err_code in
              if negb async then
                let result := server_error_to_connect_result err_code in
                let t := emit (L_complete_connect_request l (vc_client_id c) result) t in
                if bool_decide (result = CCR_PASS) then t
                else match get_by_client_id (vc_client_id c) t with
                     | Some (o, _) => set_state o CONNS_REJECTED t
                     | None => t
                     end
              else if bool_decide (is_Some (vc_complete_task c)) then t
              else update o (fun c => c <| vc_complete_task := Some err_code |>) t
          | CONNS_WAITING_RESPONSE_MIGRATING => t
          end
      end
  end.

(** [complete_connect_request_task], the task of a connection with the error code it was made with. *)
Definition complete_connect_request_task (client_id err_code : Z) t : Tunnel TC SC HC :=
  match get_by_client_id client_id t with
  | None => fault "connection not found" t
  | Some (o, c) =>
      let t := update o (fun c => c <| vc_complete_task := None |>) t in
      match lock_listener env c with
      | None => destroy_connection client_id NON_ID t
      | Some l =>
          match vc_state c with
          | CONNS_WAITING_RESOLVE | CONNS_WAITING_RESPONSE | CONNS_WAITING_ACTION =>
              let result := server_error_to_connect_result err_code in
              let t := emit (L_complete_connect_request l (vc_client_id c) result) t in
              if bool_decide (result = CCR_PASS) then t
              else match get_by_client_id client_id t with
                   | Some (o, _) => set_state o CONNS_REJECTED t
                   | None => t
                   end
          | CONNS_REJECTED | CONNS_WAITING_ACCEPT | CONNS_CONNECTED | CONNS_CONNECTED_MIGRATING | CONNS_WAITING_RESPONSE_MIGRATING =>
              fault "invalid connection state" (emit (L_close_connection l client_id false false) t)
          end
      end
  end.

(** The client ids of the connections that satisfy a condition, in the order of the table. *)
Definition select_ids (p : VpnConnection -> bool) (order : list Z) t : list Z :=
  List.filter (fun id => match get_by_client_id id t with Some (_, c) => p c | None => false end) order.

(** The loop over collected ids, each looked up again. *)
Definition for_ids (f : Z -> Tunnel TC SC HC -> Tunnel TC SC HC) (ids : list Z) t : Tunnel TC SC HC :=
  fold_left (fun t id => match get_by_client_id id t with Some (o, _) => f o t | None => t end) ids t.

(** The connections of an upstream; a null upstream has none. *)
Definition uses (u : option Upstream) (c : VpnConnection) : bool :=
  match lock_upstream env c with Some u' => bool_decide (Some u' = u) | None => false end.

Definition close_client_side (order : list Z) (u : option Upstream) t : Tunnel TC SC HC :=
  for_ids (fun o t =>
      let t := set_flags o (fun f => f <| CONNF_SESSION_CLOSED := true |>) t in
      close_client_side_connection o (-1) false t)
    (select_ids (uses u) order t) t.

(** *** Domain lookup *)

(** What was done wrong on the way to a result. *)
Definition noting {A} (x : Checked A) t : A * Tunnel TC SC HC := (fst x, t <| t_faults := t_faults t ++ snd x |>).

(** The extractor of the connection takes the data. *)
Definition extract (dir : PacketDirection) (o : Z) (c : VpnConnection) (data : list Z) t : DomainExtractorResult * Tunnel TC SC HC :=
  let '((r, e), t) := noting (proceed dir (vc_proto c) data (vc_extractor c)) t in
  (r, update o (fun c => c <| vc_extractor := e |>) t).

(** The result of the lookup in a UDP packet: an action, or what the extractor or the cache says. *)
Definition domain_lookup_process_udp (dir : PacketDirection) (o : Z) (c : VpnConnection) (data : list Z) t :
    (TunnelDomainLookupAction + DomainExtractorResult) * Tunnel TC SC HC :=
  let other t :=
    match t_hostname_cache t with
    | None => (inl TDLA_DONE, t)
    | Some cache =>
        let value := cache_find (te_now env) cache (vc_addr c) in
        let t := t <| t_hostname_cache := Some (cache_touch (vc_addr c) cache) |> in
        (match value with Some r => inr r | None => inl TDLA_DONE end, t)
    end in
  match parse_quic_header data with
  | None => other t
  | Some quic_header =>
      match hd_type quic_header with
      | Some ZERO_RTT => (inl TDLA_DROP, t)
      | Some INITIAL =>
          let '(quic_data, t) := noting (prepare_for_domain_lookup (mkMemory 0 data) quic_header) t in
          match quic_data with
          | None => (inl TDLA_DONE, t)
          | Some quic_data => let '(r, t) := extract dir o c quic_data t in (inr r, t)
          end
      | _ => other t
      end
  end.

Definition pass_through_domain_lookup (dir : PacketDirection) (o : Z) (c : VpnConnection) (data : list Z) t :
    TunnelDomainLookupAction * Tunnel TC SC HC :=
  let '(r, t) := if vc_proto c =? IPPROTO_UDP then domain_lookup_process_udp dir o c data t
                 else let '(r, t) := extract dir o c data t in (inr r, t) in
  match r with
  | inl action => (action, t)
  | inr r =>
      let t := update o (fun c => c <| vc_extractor_result := r |>) t in
      match der_status r with
      | DES_NOTFOUND => (TDLA_DONE, update o (fun c => c <| vc_extractor := reset (vc_extractor c) |>) t)
      | DES_FOUND =>
          let action := if bool_decide (match_domain (t_domain_filter t) (der_domain r) = DFMS_EXCLUSION) then TDLA_SHUTDOWN else TDLA_DONE in
          let t := t <| t_domain_filter := add_resolved_tag (te_now env) (make_tag c) (der_domain r) (t_domain_filter t) |> in
          (action, update o (fun c => c <| vc_extractor := reset (vc_extractor c) |>) t)
      | DES_PASS => (TDLA_PASS, t)
      | DES_WANT_MORE => (TDLA_WANT_MORE, t)
      end
  end.

Definition is_domain_scannable_port (port : Z) : bool := PortRangeSet_contains (te_scannable_ports env) port.

(** *** Sending *)

Definition monitor_upload (c : VpnConnection) (n : Z) t : Tunnel TC SC HC :=
  if CONNF_MONITOR_STATS (vc_flags c)
  then t <| t_statistics_monitor := update_upload (te_now env) (vc_client_id c) n (t_statistics_monitor t) |>
  else t.

(** The loop of [send_buffered_data]: [None] after an error, otherwise whether the upstream took nothing. *)
Fixpoint send_packets (o : Z) (c : VpnConnection) (u : Upstream) (packets : list (list Z)) t : option bool * Tunnel TC SC HC :=
  match packets with
  | [] => (Some false, t)
  | packet :: rest =>
      let t := emit (U_send u (vc_server_id c) packet) t in
      let r := te_send env (length packets) in
      if r =? Z.of_nat (length packet) then
        let t := update o (fun c => c <| vc_outgoing_bytes := vc_outgoing_bytes c + r |> <| vc_buffered_packets := rest |>) t in
        send_packets o c u rest (monitor_upload c r t)
      else if r <? 0 then (None, t)
      else if r =? 0 then (Some true, t)
      else (Some false, update o (fun c => c <| vc_buffered_packets := drop (Z.to_nat r) packet :: rest |>) t)
  end.

Definition send_buffered_data (client_id : Z) t : bool * Tunnel TC SC HC :=
  match get_by_client_id client_id t with
  | None => (false, t)
  | Some (o, c) =>
      let t := update o (fun c => c <| vc_send_buffered_task := false |>) t in
      match lock_upstream env c, lock_listener env c with
      | Some u, Some l =>
          let '(sent, t) := send_packets o c u (vc_buffered_packets c) t in
          match sent with
          | None => (false, t)
          | Some sent_zero_bytes =>
              let allow_read := (0 <? te_available_to_send env) && negb sent_zero_bytes in
              let t := emit (L_turn_read l (vc_client_id c) allow_read) t in
              (true, emit (U_update_flow_control u (vc_server_id c) (te_flow env)) t)
          end
      | _, _ => (false, t)
      end
  end.

Definition schedule_send_buffered_data (o : Z) : Tunnel TC SC HC -> Tunnel TC SC HC :=
  update o (fun c => c <| vc_send_buffered_task := true |>).

Definition report_connection_info (o : Z) (domain : option text) t : Tunnel TC SC HC :=
  match connection o t with
  | None => fault "no connection" t
  | Some c =>
      if CONNF_PLAIN_DNS_CONNECTION (vc_flags c) || CONNF_LOOKINGUP_DOMAIN (vc_flags c) || CONNF_CONN_INFO_SENT (vc_flags c) then t
      else if match tap_dst (vc_addr c) with TA_address dst => te_is_loopback env dst | TA_name _ _ => false end then t
      else
        let t := set_flags o (fun f => f <| CONNF_CONN_INFO_SENT := true |>) t in
        let domain := match tap_dst (vc_addr c) with TA_address _ => domain | TA_name name _ => Some name end in
        let action := get_final_action (get_mode (t_domain_filter t)) (default VPN_CA_DEFAULT (vc_action c)) in
        let domain := if bool_decide (domain = Some []) then None else domain in
        emit (A_connection_info (tap_src (vc_addr c)) (tap_dst (vc_addr c)) domain (vc_proto c) action) t
  end.

Definition do_health_check (u : option Upstream) (force : bool) t : Tunnel TC SC HC :=
  if t_sleeping t || negb (bool_decide (u = endpoint_upstream env)) then t
  else if negb (te_clock_ok env) then t
  else
    let now_ms := te_now env / 1000 in
    let last_ms := t_last_health_check_at t / 1000 in
    if negb force && ((now_ms <? last_ms) || (now_ms - last_ms <? te_timeout_ms env)) then t
    else match u with
         | None => fault "upstream is null" t
         | Some u => (emit (U_do_health_check u) t) <| t_last_health_check_at := te_now env |>
         end.

(** *** Routing *)

(** [select_upstream] of an action that is not the default one, and of the default one. *)
Definition forced_upstream (action : VpnConnectAction) t : option Upstream * Tunnel TC SC HC :=
  match action with
  | VPN_CA_FORCE_BYPASS => (bypass_upstream env, t)
  | VPN_CA_FORCE_REDIRECT => (endpoint_upstream env, t)
  | VPN_CA_DEFAULT | VPN_CA_REJECT => (None, fault "no upstream for the action" t)
  end.

Definition fake_upstream t : option Upstream := if t_fake_upstream t then Some U_fake else None.
Definition dns_handler_upstream t : option Upstream := if t_dns_handler t then Some U_dns_handler else None.
Definition dns_handler_listener t : option Listener := if t_dns_handler t then Some L_dns_handler else None.
Definition dns_resolver_listener t : option Listener := if t_dns_resolver t then Some L_dns_resolver else None.

Definition wants_fake (c : VpnConnection) : bool :=
  CONNF_LOOKINGUP_DOMAIN (vc_flags c)
  && (CONNF_SUSPECT_EXCLUSION (vc_flags c) || te_early_ack env)
  && match tap_dst (vc_addr c) with TA_address dst => is_domain_scannable_port (sa_port dst) | TA_name _ _ => false end.

Definition select_upstream (action : VpnConnectAction) (conn : option VpnConnection) t : option Upstream * Tunnel TC SC HC :=
  match action with
  | VPN_CA_DEFAULT =>
      let by_mode := forced_upstream (vpn_mode_to_action (get_mode (t_domain_filter t))) t in
      match conn with
      | None => by_mode
      | Some c =>
          if bool_decide (lock_listener env c = dns_handler_listener t) then forced_upstream VPN_CA_FORCE_REDIRECT t
          else if CONNF_PLAIN_DNS_CONNECTION (vc_flags c) then (dns_handler_upstream t, t)
          else if wants_fake c then (fake_upstream t, t)
          else by_mode
      end
  | VPN_CA_FORCE_BYPASS | VPN_CA_FORCE_REDIRECT | VPN_CA_REJECT => forced_upstream action t
  end.

(** The result code for the event. *)
Definition initiate_connection_migration (o : Z) (u : option Upstream) (packet : list Z) t : Z * Tunnel TC SC HC :=
  match u, connection o t with
  | None, _ => (-1, t)
  | _, None => (-1, fault "no connection" t)
  | Some u, Some c =>
      let server_id := te_open_connection env u in
      let t := emit (U_open_connection u server_id (vc_addr c) (vc_proto c) []) t in
      if server_id =? NON_ID then (-1, t)
      else
        let sw := connection_make NON_ID (vc_addr c) (vc_proto c) in
        let sw := sw <| vc_server_id := server_id |> <| vc_listener := vc_listener c |> <| vc_upstream := Some u |>
                     <| vc_state := CONNS_WAITING_RESPONSE_MIGRATING |>
                     <| vc_flags := (vc_flags sw) <| CONNF_LOOKINGUP_DOMAIN := CONNF_LOOKINGUP_DOMAIN (vc_flags c) |> |>
                     <| vc_migrating_client_id := vc_client_id c |> <| vc_app_name := vc_app_name c |>
                     <| vc_extractor_result := vc_extractor_result c |> in
        let '(sw_conn, t) := allocate sw t in
        let t := add_connection sw_conn t in
        let finish t :=
          let t := set_state o CONNS_CONNECTED_MIGRATING t in
          let t := match lock_upstream env c with
                   | Some cu => emit (U_update_flow_control cu (vc_server_id c) no_flow) t
                   | None => t
                   end in
          do_health_check (Some u) false t in
        if vc_proto c =? IPPROTO_UDP then
          let t := update o (fun c => c <| vc_buffered_packets := vc_buffered_packets c ++ [packet] |>) t in
          (Z.of_nat (length packet), finish t)
        else
          let t := update sw_conn (fun s => s <| vc_buffered_packets := vc_buffered_packets c |>) t in
          let t := update o (fun c => c <| vc_buffered_packets := [] |>) t in
          match lock_listener env c with
          | Some l => (0, finish (emit (L_turn_read l (vc_client_id c) false) t))
          | None => (-1, t)
          end
  end.

(** The match of an address with the filter, which counts as a use of its caches. *)
Definition filter_match_tag (tag : SockAddrTag) t : DomainFilterMatchResult * Tunnel TC SC HC :=
  let '(result, f) := match_tag (te_now env) tag (t_domain_filter t) in (result, t <| t_domain_filter := f |>).

Definition excluded_action t : VpnConnectAction := invert_action (vpn_mode_to_action (get_mode (t_domain_filter t))).

Definition finalize_connect_action (request : ConnectRequestResult) t : option VpnConnectAction * Tunnel TC SC HC :=
  match get_by_client_id (req_id request) t with
  | None => (None, t)
  | Some (o, c) =>
      let name := if bool_decide (appname request = EmptyString) then vc_app_name c else txt (appname request) in
      let t := update o (fun c => c <| vc_app_name := name |> <| vc_uid := uid request |>) t in
      let take_action a := update o (fun c => c <| vc_action := a |>) in
      let t :=
        if negb (bool_decide (action request = None)) && negb (bool_decide (action request = Some VPN_CA_DEFAULT))
           || CONNF_PLAIN_DNS_CONNECTION (vc_flags c)
        then take_action (action request) t
        else match tap_dst (vc_addr c) with
             | TA_address dst =>
                 let '(result, t) := filter_match_tag (make_tag (c <| vc_app_name := name |>)) t in
                 match mr_status result with
                 | DFMS_DEFAULT => take_action (action request) t
                 | DFMS_EXCLUSION => report_connection_info o (mr_domain result) (take_action (Some (excluded_action t)) t)
                 | DFMS_SUSPECT_EXCLUSION =>
                     if is_domain_scannable_port (sa_port dst)
                     then set_flags o (fun f => f <| CONNF_SUSPECT_EXCLUSION := true |>) t
                     else t
                 end
             | TA_name name _ =>
                 match match_domain (t_domain_filter t) name with
                 | DFMS_SUSPECT_EXCLUSION | DFMS_DEFAULT => take_action (action request) t
                 | DFMS_EXCLUSION => report_connection_info o (Some name) (take_action (Some (excluded_action t)) t)
                 end
             end in
      (match connection o t with Some c => vc_action c | None => None end, t)
  end.

Definition dst_port (c : VpnConnection) : Z := match tap_dst (vc_addr c) with TA_address a => sa_port a | TA_name _ p => p end.

(** Whether a resolved address may be used: the upstream it would go through has its IP version. *)
Definition address_usable (c : VpnConnection) (address : SocketAddress) t : bool * Tunnel TC SC HC :=
  let '(action, t) :=
    if negb (CONNF_FORCIBLY_BYPASSED (vc_flags c)) && negb (CONNF_FORCIBLY_REDIRECTED (vc_flags c)) then
      let '(result, t) := filter_match_tag (mkTag address []) t in
      (match mr_status result with DFMS_EXCLUSION => excluded_action t | DFMS_DEFAULT | DFMS_SUSPECT_EXCLUSION => VPN_CA_DEFAULT end, t)
    else (VPN_CA_DEFAULT, t) in
  let '(u, t) := select_upstream action None t in
  match u, get_ip_version address with
  | None, _ => (false, t)
  | Some u, Some v => (te_ip_available env u v, t)
  | Some _, None => (false, fault "bad optional access" t)
  end.

Fixpoint select_resolved_destination_address (c : VpnConnection) (addresses : list SocketAddress) t :
    option SocketAddress * Tunnel TC SC HC :=
  match addresses, tap_dst (vc_addr c) with
  | [], _ => (None, t)
  | _ :: _, TA_address _ => (None, fault "bad variant access" t)
  | address :: addresses, TA_name _ port =>
      let address := with_port port address in
      let '(ok, t) := address_usable c address t in
      if ok then (Some address, t) else select_resolved_destination_address c addresses t
  end.

(** The action for a resolved address. *)
Definition resolved_action (c : VpnConnection) (address : SocketAddress) t : VpnConnectAction * Tunnel TC SC HC :=
  if CONNF_FORCIBLY_BYPASSED (vc_flags c) then (VPN_CA_FORCE_BYPASS, t)
  else if CONNF_FORCIBLY_REDIRECTED (vc_flags c) then (VPN_CA_FORCE_REDIRECT, t)
  else
    let '(result, t) := filter_match_tag (mkTag address []) t in
    (match mr_status result with DFMS_EXCLUSION => excluded_action t | DFMS_DEFAULT | DFMS_SUSPECT_EXCLUSION => VPN_CA_DEFAULT end, t).

(** Opens a connection on the upstream, if there is one, and gives its id. *)
Definition open_on (u : option Upstream) (o : Z) t : Tunnel TC SC HC :=
  match u, connection o t with
  | Some u, Some c =>
      let id := te_open_connection env u in
      update o (fun c => c <| vc_server_id := id |>) (emit (U_open_connection u id (vc_addr c) (vc_proto c) (vc_app_name c)) t)
  | _, _ => t
  end.

Definition has_server_id (o : Z) t : bool :=
  match connection o t with Some c => negb (vc_server_id c =? NON_ID) | None => false end.

(** The connection goes to the address the resolver gave. *)
Definition connect_resolved (o : Z) (c : VpnConnection) (address : SocketAddress) t : Tunnel TC SC HC :=
  let address := with_port (dst_port c) address in
  let '(action, t) := resolved_action c address t in
  let '(u, t) := select_upstream action None t in
  let t := update o (fun c => c <| vc_upstream := u |> <| vc_addr := mkPair (tap_src (vc_addr c)) (TA_address address) |>) t in
  let t := open_on u o t in
  if has_server_id o t then
    let t := set_state o CONNS_WAITING_RESPONSE t in
    let t := add_connection o t in
    do_health_check u false t
  else close_client_side_connection o 0 false t.

(** [None] is a failure of the resolver. *)
Definition on_destination_resolve_result (id : Z) (result : option (list SocketAddress)) t : Tunnel TC SC HC :=
  let erase t := t <| t_dns_resolve_waiters := delete id (t_dns_resolve_waiters t) |> in
  match t_dns_resolve_waiters t !! id with
  | None => emit (R_cancel id) t
  | Some client_id =>
      match get_by_client_id client_id t with
      | None => erase (emit (R_cancel id) t)
      | Some (o, c) =>
          if negb (bool_decide (vc_state c = CONNS_WAITING_RESOLVE)) then
            close_client_side_connection o AG_ECONNREFUSED false (erase (emit (R_cancel id) t))
          else match result with
               | None => close_client_side_connection o 0 false (erase t)
               | Some addresses =>
                   let t := erase (emit (R_cancel id) t) in
                   let '(address, t) := select_resolved_destination_address c addresses t in
                   match address with
                   | None => close_client_side_connection o 0 false t
                   | Some address => connect_resolved o c address t
                   end
               end
      end
  end.

Definition need_resolve_hostname (action : VpnConnectAction) (c : VpnConnection) t : bool * Tunnel TC SC HC :=
  match tap_dst (vc_addr c) with
  | TA_address _ => (false, t)
  | TA_name name _ =>
      if bool_decide (lock_listener env c = dns_proxy_listener env) then (false, t)
      else
        let action :=
          match action with
          | VPN_CA_DEFAULT =>
              match match_domain (t_domain_filter t) name with
              | DFMS_DEFAULT => vpn_mode_to_action (get_mode (t_domain_filter t))
              | DFMS_EXCLUSION | DFMS_SUSPECT_EXCLUSION => excluded_action t
              end
          | VPN_CA_FORCE_BYPASS | VPN_CA_FORCE_REDIRECT | VPN_CA_REJECT => action
          end in
        match action with
        | VPN_CA_DEFAULT | VPN_CA_REJECT => (false, fault "should not get here" t)
        | VPN_CA_FORCE_BYPASS => (true, t)
        | VPN_CA_FORCE_REDIRECT => (te_dns_proxy_listener env, t)
        end
  end.

Definition lacks_version (v : IpVersion) (u : option Upstream) : bool :=
  match u with Some u => negb (te_ip_available env u v) | None => false end.

Definition is_destination_reachable (c : VpnConnection) (u : option Upstream) : bool :=
  match tap_dst (vc_addr c) with
  | TA_name _ _ => true
  | TA_address dst =>
      match get_ip_version dst with
      | None => false
      | Some v =>
          if CONNF_SUSPECT_EXCLUSION (vc_flags c)
             && (lacks_version v (endpoint_upstream env) || lacks_version v (bypass_upstream env))
          then false
          else negb (lacks_version v u)
      end
  end.

(** What the action says of the connection: [None] when it rejects it. *)
Definition note_action (o : Z) (action : option VpnConnectAction) t : option VpnConnectAction * Tunnel TC SC HC :=
  match default VPN_CA_DEFAULT action with
  | VPN_CA_FORCE_BYPASS => (Some VPN_CA_FORCE_BYPASS, set_flags o (fun f => f <| CONNF_FORCIBLY_BYPASSED := true |>) t)
  | VPN_CA_FORCE_REDIRECT => (Some VPN_CA_FORCE_REDIRECT, set_flags o (fun f => f <| CONNF_FORCIBLY_REDIRECTED := true |>) t)
  | VPN_CA_DEFAULT =>
      let lookup c := match tap_dst (vc_addr c) with TA_address _ => negb (CONNF_PLAIN_DNS_CONNECTION (vc_flags c)) | TA_name _ _ => false end in
      (Some VPN_CA_DEFAULT, update o (fun c => c <| vc_flags := (vc_flags c) <| CONNF_LOOKINGUP_DOMAIN := lookup c |> |>) t)
  | VPN_CA_REJECT => (None, close_client_side_connection o AG_ECONNREFUSED true t)
  end.

(** The connection goes to the upstream. *)
Definition connect_upstream (o : Z) (u : option Upstream) t : Tunnel TC SC HC :=
  let t := update o (fun c => c <| vc_upstream := u |>) t in
  if negb (t_endpoint_upstream_connected t) && bool_decide (u = endpoint_upstream env) then
    close_client_side_connection o 0 true (update o (fun c => c <| vc_upstream := None |>) t)
  else
    let t := match u with
             | Some _ => open_on u o (set_flags o (fun f => f <| CONNF_FAKE_CONNECTION := bool_decide (fake_upstream t = u) |>) t)
             | None => t
             end in
    match connection o t with
    | None => fault "no connection" t
    | Some c =>
        if vc_server_id c =? NON_ID then close_client_side_connection o 0 true t
        else
          let t := set_state o CONNS_WAITING_RESPONSE t in
          let t := add_connection o t in
          let t := if CONNF_PLAIN_DNS_CONNECTION (vc_flags c) && bool_decide (lock_listener env c = dns_resolver_listener t)
                   then (if t_dns_handler t then emit (H_notify_vpn_resolver_connection (vc_server_id c)) t else fault "DNS handler is null" t)
                   else t in
          do_health_check u false t
    end.

Definition start_resolve (o : Z) (c : VpnConnection) t : Tunnel TC SC HC :=
  match tap_dst (vc_addr c) with
  | TA_address _ => fault "bad variant access" t
  | TA_name name _ =>
      let t := if t_dns_resolver t then emit (R_resolve VDRQ_FOREGROUND name) t else fault "DNS resolver is null" t in
      match te_resolve env name with
      | None => close_client_side_connection o AG_ECONNREFUSED true t
      | Some resolve_id =>
          let waiters := t_dns_resolve_waiters t in
          let t := t <| t_dns_resolve_waiters := match waiters !! resolve_id with Some _ => waiters | None => <[resolve_id := vc_client_id c]> waiters end |> in
          set_state o CONNS_WAITING_RESOLVE t
      end
  end.

Definition complete_connect_request (id : Z) (action : option VpnConnectAction) t : Tunnel TC SC HC :=
  match get_by_client_id id t with
  | None => t
  | Some (o, _) =>
      let '(action, t) := note_action o action t in
      match action, connection o t with
      | Some action, Some c =>
          let '(u, t) := select_upstream action (Some c) t in
          if negb (is_destination_reachable c u) then close_client_side_connection o AG_ENETUNREACH true t
          else
            let '(resolve, t) := need_resolve_hostname action c t in
            if resolve then start_resolve o c t else connect_upstream o u t
      | _, _ => t
      end
  end.

(** *** Resetting connections *)

Definition close_ids (ids : list Z) t : Tunnel TC SC HC := for_ids (fun o => close_client_side_connection o (-1) false) ids t.

Definition reset_connections_uid (order : list Z) (uid : Z) t : Tunnel TC SC HC :=
  let of_uid c := ((uid =? -1) || (vc_uid c =? uid)) && negb (bool_decide (lock_listener env c = dns_resolver_listener t)) in
  let of_handler c := bool_decide (lock_listener env c = dns_handler_listener t) in
  let resettable c := of_uid c && (negb (of_handler c) || negb (te_is_vpn_resolver_connection env (vc_client_id c))) in
  let asked := select_ids (fun c => of_uid c && of_handler c) order t in
  let ids := select_ids resettable order t in
  close_ids ids (if negb (t_dns_handler t) && negb (bool_decide (asked = [])) then fault "DNS handler is null" t else t).

Definition reset_connections_listener (order : list Z) (l : option Listener) t : Tunnel TC SC HC :=
  close_ids (select_ids (fun c => bool_decide (lock_listener env c = l)) order t) t.

Definition reset_connection (client_id : Z) t : Tunnel TC SC HC :=
  match get_by_client_id client_id t with
  | Some (o, _) => close_client_side_connection o (-1) false t
  | None => t
  end.

Definition on_before_endpoint_disconnect (order : list Z) (u : option Upstream) t : Tunnel TC SC HC :=
  if negb (bool_decide (endpoint_upstream env = u)) then t
  else
    let t := if t_dns_resolver t then emit R_stop_resolving t else fault "DNS resolver is null" t in
    let t := t <| t_repeat_exclusions_resolve_task := false |> in
    let t := close_ids (select_ids (fun _ => true) order t) t in
    t <| t_endpoint_upstream_connected := false |>.

Definition on_after_endpoint_disconnect (order : list Z) (u : option Upstream) t : Tunnel TC SC HC :=
  let t := fold_left (fun t id =>
      match get_by_client_id id t with
      | Some (o, c) =>
          if bool_decide (lock_upstream env c = u) then
            let t := set_flags o (fun f => f <| CONNF_SESSION_CLOSED := true |>) t in
            match lock_listener env c with Some l => emit (L_turn_read l (vc_client_id c) false) t | None => t end
          else t
      | None => t
      end) order t in
  if bool_decide (u = endpoint_upstream env) then
    let t := if t_dns_resolver t then emit R_deinit t else t in
    if t_fake_upstream t then emit (U_reopen_session U_fake) t else t
  else t.

(** The names come in the order of the table. *)
Definition on_exclusions_updated (names : list text) t : Tunnel TC SC HC :=
  let t := if t_dns_resolver t then emit R_stop_background t else fault "DNS resolver is null" t in
  let t := if bool_decide (is_Some (endpoint_upstream env)) && te_preresolve env
           then fold_left (fun t name => emit (R_resolve VDRQ_BACKGROUND name) t) (take (Z.to_nat (te_preresolve_max_queries env)) names) t
           else t in
  t <| t_repeat_exclusions_resolve_task := true |>.

Definition should_complete_immediately (client_id : Z) t : bool :=
  match get_by_client_id client_id t with
  | None => false
  | Some (_, c) =>
      eqb (CONNF_SUSPECT_EXCLUSION (vc_flags c)) (bool_decide (te_exclusions_mode env = VPN_MODE_GENERAL))
      || (dst_port c =? PLAIN_DNS_PORT_NUMBER)
  end.

(** *** Events of an upstream *)

Inductive ServerEvent :=
| SERVER_EVENT_SESSION_OPENED
| SERVER_EVENT_SESSION_CLOSED
| SERVER_EVENT_CONNECTION_OPENED (id : Z)
| SERVER_EVENT_CONNECTION_CLOSED (id : Z)
| SERVER_EVENT_READ (id : Z) (data : list Z)
| SERVER_EVENT_DATA_SENT (id length : Z)
| SERVER_EVENT_HEALTH_CHECK_ERROR
| SERVER_EVENT_GET_AVAILABLE_TO_SEND (id : Z)
| SERVER_EVENT_ERROR (id code : Z)
| SERVER_EVENT_ECHO_REPLY (reply : IcmpEchoReply).

(** The connection of an event: it must be one of this upstream with a live listener.  What is left
    to do when it is not is an argument. *)
Definition with_server_connection (u : Upstream) (id : Z) (otherwise : Tunnel TC SC HC -> option Z * Tunnel TC SC HC)
    (k : Z -> VpnConnection -> Listener -> option Z * Tunnel TC SC HC) t : option Z * Tunnel TC SC HC :=
  match get_by_server_id id t with
  | None => otherwise (fault "no connection" t)
  | Some (o, c) =>
      if negb (bool_decide (lock_upstream env c = Some u)) then otherwise (fault "upstream mismatch" t)
      else match lock_listener env c with
           | None => otherwise (fault "listener was deleted" t)
           | Some l => k o c l
           end
  end.

(** The replacement connection takes over: the ids of the two change places, and the old one is closed. *)
Definition finish_migration (u : Upstream) (l : Listener) (id o : Z) (c : VpnConnection) t : Tunnel TC SC HC :=
  match get_by_client_id (vc_migrating_client_id c) t with
  | None => emit (U_close_connection u id false true) t
  | Some (src, sc) =>
      let packets := if vc_proto c =? IPPROTO_UDP then vc_buffered_packets sc else vc_buffered_packets c in
      let t := update src (fun s => s <| vc_client_id := vc_client_id c |>
                 <| vc_buffered_packets := if vc_proto c =? IPPROTO_UDP then vc_buffered_packets c else vc_buffered_packets s |>) t in
      let t := update o (fun c => c <| vc_client_id := vc_client_id sc |> <| vc_state := CONNS_CONNECTED |>
                 <| vc_migrating_client_id := NON_ID |> <| vc_buffered_packets := packets |>) t in
      let t := add_connection o t in
      let t := match lock_upstream env sc with
               | Some su => emit (U_close_connection su (vc_server_id sc) false false) t
               | None => t
               end in
      if negb (bool_decide (packets = [])) then schedule_send_buffered_data o t
      else
        let t := emit (L_turn_read l (vc_client_id sc) true) t in
        emit (U_update_flow_control u (vc_server_id c) (te_flow env)) t
  end.

Definition server_connection_opened (u : Upstream) (id : Z) t : Tunnel TC SC HC :=
  let close := emit (U_close_connection u id false true) in
  snd (with_server_connection u id (fun t => (None, close t)) (fun o c l =>
    (None,
     match vc_state c with
     | CONNS_WAITING_RESPONSE =>
         let t := report_connection_info o (Some (der_domain (vc_extractor_result c))) t in
         let t := set_state o CONNS_WAITING_ACCEPT t in
         emit (L_complete_connect_request l (vc_client_id c) CCR_PASS) t
     | CONNS_WAITING_RESPONSE_MIGRATING => finish_migration u l id o c t
     | CONNS_REJECTED => close t
     | CONNS_WAITING_ACTION | CONNS_WAITING_RESOLVE | CONNS_WAITING_ACCEPT | CONNS_CONNECTED | CONNS_CONNECTED_MIGRATING =>
         close (fault "invalid connection state" t)
     end)) t).

Definition server_connection_closed (id : Z) t : Tunnel TC SC HC :=
  match get_by_server_id id t with
  | None => destroy_connection NON_ID id t
  | Some (o, c) =>
      match get_by_client_id (vc_client_id c) t, lock_listener env c with
      | Some _, Some l =>
          let t := remove_server_id (vc_server_id c) t in
          let t := emit (L_turn_read l (vc_client_id c) false) t in
          close_client_side_connection o 0 false t
      | _, _ => destroy_connection (vc_client_id c) (vc_server_id c) t
      end
  end.

(** The data goes to the listener. *)
Definition pass_to_client (u : Upstream) (l : Listener) (o : Z) (c : VpnConnection) (data : list Z) t : option Z * Tunnel TC SC HC :=
  let t := emit (L_send l (vc_client_id c) data) t in
  let r := te_listener_send env in
  if r =? 0 then (Some r, emit (U_update_flow_control u (vc_server_id c) no_flow) t)
  else if 0 <? r then
    let t := update o (fun c => c <| vc_incoming_bytes := vc_incoming_bytes c + r |>) t in
    let t := if CONNF_MONITOR_STATS (vc_flags c)
             then t <| t_statistics_monitor := update_download (te_now env) (vc_client_id c) r (t_statistics_monitor t) |>
             else t in
    (Some r, emit (U_update_flow_control u (vc_server_id c) (te_flow env)) t)
  else (Some r, t).

(** The result is [None] where the handler leaves that of the event as it is. *)
Definition server_read (u : Upstream) (id : Z) (data : list Z) t : option Z * Tunnel TC SC HC :=
  with_server_connection u id (fun t => (Some (-1), t)) (fun o c l =>
    if CONNF_LOOKINGUP_DOMAIN (vc_flags c) then
      let '(action, t) := pass_through_domain_lookup DEPD_INCOMING o c data t in
      match action with
      | TDLA_DONE => pass_to_client u l o c data (set_flags o (fun f => f <| CONNF_LOOKINGUP_DOMAIN := false |>) t)
      | TDLA_PASS | TDLA_WANT_MORE | TDLA_DROP => pass_to_client u l o c data t
      | TDLA_SHUTDOWN => (None, close_client_side_connection o 0 false t)
      | TDLA_BLOCK =>
          let t := emit (U_update_flow_control u id no_flow) t in
          (None, close_client_side_connection o (-1) false t)
      end
    else pass_to_client u l o c data t) t.

(** The id given to [close_connection] here is that of the tunnel. *)
Definition server_data_sent (u : Upstream) (id length : Z) t : Tunnel TC SC HC :=
  if bool_decide (get_by_server_id id t = None) then t
  else snd (with_server_connection u id (fun t => (None, emit (U_close_connection u (t_id t) false true) t)) (fun o c l =>
    (None,
     match vc_state c with
     | CONNS_CONNECTED =>
         let t := emit (L_consume l (vc_client_id c) length) t in
         let t := emit (L_turn_read l (vc_client_id c) (0 <? te_available_to_send env)) t in
         if bool_decide (vc_buffered_packets c = []) then t else schedule_send_buffered_data o t
     | _ => t
     end)) t).

Definition server_get_available_to_send (id : Z) t : option Z :=
  match get_by_server_id id t with
  | Some (_, c) => match lock_listener env c with Some _ => Some (send_buffer_size (te_flow env)) | None => None end
  | None => None
  end.

Definition server_error (order : list Z) (u : Upstream) (id code : Z) t : Tunnel TC SC HC :=
  if id =? NON_ID then close_client_side order (Some u) t
  else match get_by_server_id id t with
       | None => destroy_connection NON_ID id t
       | Some (o, c) =>
           match vc_state c with
           | CONNS_WAITING_RESPONSE_MIGRATING =>
               let t := match get_by_client_id (vc_migrating_client_id c) t with
                        | Some (_, sc) => emit (U_close_connection u (vc_server_id sc) false true) t
                        | None => t
                        end in
               match lock_upstream env c with
               | Some cu => emit (U_close_connection cu (vc_server_id c) false true) t
               | None => t
               end
           | _ =>
               match get_by_client_id (vc_client_id c) t with
               | Some _ => close_client_side_connection o code false (remove_server_id (vc_server_id c) t)
               | None => destroy_connection (vc_client_id c) (vc_server_id c) t
               end
           end
       end.

Definition process_icmp_reply (reply : IcmpEchoReply) t : Tunnel TC SC HC :=
  if te_client_listener env then emit (L_process_icmp_reply reply) t else fault "client listener is null" t.

Definition upstream_handler (order : list Z) (u : Upstream) (what : ServerEvent) t : option Z * Tunnel TC SC HC :=
  match what with
  | SERVER_EVENT_SESSION_OPENED =>
      (None, if bool_decide (Some u = endpoint_upstream env) then
               let t := if t_endpoint_upstream_connected t then fault "already connected" t else t in
               t <| t_endpoint_upstream_connected := true |>
             else t)
  | SERVER_EVENT_HEALTH_CHECK_ERROR => (None, t)
  | SERVER_EVENT_SESSION_CLOSED => (None, close_client_side order (Some u) t)
  | SERVER_EVENT_CONNECTION_OPENED id => (None, server_connection_opened u id t)
  | SERVER_EVENT_CONNECTION_CLOSED id => (None, server_connection_closed id t)
  | SERVER_EVENT_READ id data => server_read u id data t
  | SERVER_EVENT_DATA_SENT id length => (None, server_data_sent u id length t)
  | SERVER_EVENT_GET_AVAILABLE_TO_SEND id => (server_get_available_to_send id t, t)
  | SERVER_EVENT_ERROR id code => (None, server_error order u id code t)
  | SERVER_EVENT_ECHO_REPLY reply =>
      let '(status, reply, m) := IcmpManager.register_reply reply (t_icmp_manager t) in
      let t := t <| t_icmp_manager := m |> in
      (None, match status with IcmpManager.IM_MSGS_PASS => process_icmp_reply reply t | IcmpManager.IM_MSGS_DROP => t end)
  end.

(** *** Events of a listener *)

Inductive ClientEvent :=
| CLIENT_EVENT_CONNECT_REQUEST (id protocol : Z) (src : SocketAddress) (dst : TunnelAddress) (app_name : text) (dns_handler_bypass : bool)
| CLIENT_EVENT_CONNECTION_ACCEPTED (id : Z)
| CLIENT_EVENT_CONNECTION_CLOSED (id : Z)
| CLIENT_EVENT_READ (id : Z) (data : list Z)
| CLIENT_EVENT_DATA_SENT (id length : Z)
| CLIENT_EVENT_OUTPUT
| CLIENT_EVENT_ICMP_ECHO_REQUEST (request : IcmpEchoRequest).

(** A destination given by a name that is the text of an address is that address. *)
Definition literal_address (dst : TunnelAddress) : TunnelAddress :=
  match dst with
  | TA_address _ => dst
  | TA_name name port => match te_parse_ip env name port with Some a => TA_address a | None => dst end
  end.

Definition client_connect_request (l : Listener) (id protocol : Z) (src : SocketAddress) (dst : TunnelAddress) (app_name : text)
    (dns_handler_bypass : bool) t : Tunnel TC SC HC :=
  if negb (is_transport_protocol protocol) then fault "bad optional access" t
  else
  let c := connection_make id (mkPair src (literal_address dst)) protocol in
  let c := c <| vc_listener := Some l |> <| vc_app_name := app_name |> <| vc_flags := (vc_flags c) <| CONNF_FIRST_PACKET := true |> |> in
  let '(o, t) := allocate c t in
  let t := add_connection o t in
  if bool_decide (Some l = dns_resolver_listener t) then complete_connect_request id None t
  else if bool_decide (Some l = dns_proxy_listener env) then complete_connect_request id (Some VPN_CA_FORCE_REDIRECT) t
  else if bool_decide (Some l = dns_handler_listener t) then
    complete_connect_request id (Some (if dns_handler_bypass then VPN_CA_FORCE_BYPASS else VPN_CA_FORCE_REDIRECT)) t
  else if negb (CONNF_PLAIN_DNS_CONNECTION (vc_flags c))
          && match dst with TA_address a => te_is_loopback env a | TA_name _ _ => false end
  then complete_connect_request id (Some VPN_CA_FORCE_BYPASS) t
  else emit (A_connect_request id) t.

Definition client_connection_accepted (l : Listener) (id : Z) t : Tunnel TC SC HC :=
  match get_by_client_id id t with
  | None => fault "no connection" t
  | Some (o, c) =>
      if negb (bool_decide (vc_state c = CONNS_WAITING_ACCEPT)) then close_client_side_connection o (-1) true t
      else
        let t := set_state o CONNS_CONNECTED t in
        let t := emit (L_turn_read l id true) t in
        match lock_upstream env c with
        | None => t
        | Some u =>
            let t := emit (U_update_flow_control u (vc_server_id c) (te_flow env)) t in
            if bool_decide (Some l = client_listener env) && bool_decide (Some u = endpoint_upstream env) then
              let t := set_flags o (fun f => f <| CONNF_MONITOR_STATS := true |>) t in
              t <| t_statistics_monitor := register_conn (te_now env) id (t_statistics_monitor t) |>
            else t
        end
  end.

Definition client_connection_closed (id : Z) t : Tunnel TC SC HC :=
  match get_by_client_id id t with
  | None => t
  | Some (o, c) =>
      if CONNF_SESSION_CLOSED (vc_flags c) || bool_decide (get_by_server_id (vc_server_id c) t = None) then
        destroy_connection id (vc_server_id c) t
      else match lock_upstream env c with
           | None => destroy_connection id (vc_server_id c) t
           | Some u =>
               let t := if bool_decide (vc_state c = CONNS_CONNECTED) then emit (U_update_flow_control u (vc_server_id c) no_flow) t else t in
               emit (U_close_connection u (vc_server_id c) true true) (remove_client_id id t)
           end
  end.

Definition MAX_LOOKUP_ATTEMPTS : Z := 3.

(** The connection moves to another upstream, or is closed if that fails. *)
Definition migrate (l : Listener) (o : Z) (c : VpnConnection) (u : option Upstream) (data : list Z) t : Z * Tunnel TC SC HC :=
  let '(r, t) := initiate_connection_migration o u data t in
  if r <? 0 then
    let t := emit (L_turn_read l (vc_client_id c) false) t in
    (r, close_client_side_connection o AG_ECONNRESET true t)
  else (r, t).

(** A found domain is excluded: the connection changes the side it is routed to. *)
Definition reroute (l : Listener) (u : Upstream) (o : Z) (data : list Z) t : option Z * Tunnel TC SC HC :=
  let action := excluded_action t in
  let t := update o (fun c => c <| vc_action := Some action |> <| vc_flags := (vc_flags c) <| CONNF_LOOKINGUP_DOMAIN := false |> |>) t in
  match connection o t with
  | None => (None, fault "no connection" t)
  | Some c =>
      let t := report_connection_info o (Some (der_domain (vc_extractor_result c))) t in
      if negb (CONNF_FIRST_PACKET (vc_flags c)) then
        let t := emit (L_turn_read l (vc_client_id c) false) t in
        let t := emit (U_update_flow_control u (vc_server_id c) no_flow) t in
        (None, emit (U_close_connection u (vc_server_id c) false true) t)
      else
        let '(u', t) := select_upstream action (Some c) t in
        let '(r, t) := migrate l o c u' data t in
        (Some r, if r <? 0 then t else set_flags o (fun f => f <| CONNF_FAKE_CONNECTION := false |>) t)
  end.

(** What the domain lookup makes of the data: the handler is done with a result, or goes on. *)
Definition client_lookup (l : Listener) (u : Upstream) (o : Z) (c : VpnConnection) (data : list Z) t :
    option (option Z) * Tunnel TC SC HC :=
  let length := Z.of_nat (length data) in
  let go_on t :=
    (None, match connection o t with
           | Some c => report_connection_info o (Some (der_domain (vc_extractor_result c))) t
           | None => fault "no connection" t
           end) in
  let '(action, t) := pass_through_domain_lookup DEPD_OUTGOING o c data t in
  match action with
  | TDLA_DONE => go_on (set_flags o (fun f => f <| CONNF_LOOKINGUP_DOMAIN := false |>) t)
  | TDLA_PASS => go_on t
  | TDLA_DROP => (Some (Some length), t)
  | TDLA_WANT_MORE =>
      let t := update o (fun c => c <| vc_lookup_attempts_num := vc_lookup_attempts_num c + 1 |>) t in
      if vc_lookup_attempts_num c <? MAX_LOOKUP_ATTEMPTS
      then (Some (Some length), update o (fun c => c <| vc_buffered_packets := vc_buffered_packets c ++ [data] |>) t)
      else go_on t
  | TDLA_SHUTDOWN => let '(r, t) := reroute l u o data t in (Some r, t)
  | TDLA_BLOCK =>
      let t := emit (L_turn_read l (vc_client_id c) false) t in
      (Some (Some (-1)), close_client_side_connection o (-1) true t)
  end.

(** The upstream takes the data of a connection that has none buffered. *)
Definition pass_to_server (l : Listener) (u : Upstream) (o : Z) (c : VpnConnection) (data : list Z) t : option Z * Tunnel TC SC HC :=
  let t := emit (U_send u (vc_server_id c) data) t in
  let r := te_send env 0 in
  if (0 <? r) || (r =? Z.of_nat (length data)) then
    let t := update o (fun c => c <| vc_outgoing_bytes := vc_outgoing_bytes c + r |>) t in
    let t := monitor_upload c r t in
    (Some r, emit (L_turn_read l (vc_client_id c) (0 <? te_available_to_send env)) t)
  else if r =? 0 then (Some r, emit (L_turn_read l (vc_client_id c) false) t)
  else (Some r, t).

Definition client_send (l : Listener) (u : Upstream) (o : Z) (c : VpnConnection) (data : list Z) t : option Z * Tunnel TC SC HC :=
  match vc_state c with
  | CONNS_CONNECTED =>
      if bool_decide (vc_buffered_packets c = []) then pass_to_server l u o c data t
      else
        let '(ok, t) := send_buffered_data (vc_client_id c) t in
        if negb ok then (Some (-1), t)
        else match connection o t with
             | None => (None, fault "no connection" t)
             | Some c => if bool_decide (vc_buffered_packets c = []) then pass_to_server l u o c data t else (Some 0, t)
             end
  | CONNS_CONNECTED_MIGRATING =>
      if vc_proto c =? IPPROTO_UDP
      then (None, update o (fun c => c <| vc_buffered_packets := vc_buffered_packets c ++ [data] |>) t)
      else (Some (-1), fault "invalid connection state" t)
  | _ => (Some (-1), fault "invalid connection state" t)
  end.

(** [CLIENT_EVENT_READ]; the result is [None] where the handler leaves that of the event as it is. *)
Definition client_read (l : Listener) (id : Z) (data : list Z) t : option Z * Tunnel TC SC HC :=
  match get_by_client_id id t with
  | None => (Some (-1), fault "no connection" t)
  | Some (o, c) =>
      match lock_upstream env c with
      | None => (Some (-1), fault "upstream was deleted" t)
      | Some u =>
          let t := do_health_check (Some u) false t in
          let '(done, t) := if CONNF_LOOKINGUP_DOMAIN (vc_flags c) then client_lookup l u o c data t else (None, t) in
          match done, connection o t with
          | Some r, _ => (r, t)
          | None, None => (None, fault "no connection" t)
          | None, Some c =>
              if CONNF_FAKE_CONNECTION (vc_flags c) then
                let t := set_flags o (fun f => f <| CONNF_FAKE_CONNECTION := false |> <| CONNF_SUSPECT_EXCLUSION := false |>) t in
                let c := c <| vc_flags := (vc_flags c) <| CONNF_FAKE_CONNECTION := false |> <| CONNF_SUSPECT_EXCLUSION := false |> |> in
                let '(u', t) := select_upstream VPN_CA_DEFAULT (Some c) t in
                let '(r, t) := migrate l o c u' data t in (Some r, t)
              else
                let t := set_flags o (fun f => f <| CONNF_FIRST_PACKET := false |> <| CONNF_FAKE_CONNECTION := false |>) t in
                client_send l u o c data t
          end
      end
  end.

Definition client_data_sent (l : Listener) (id length : Z) t : Tunnel TC SC HC :=
  match get_by_client_id id t with
  | None => fault "no connection" t
  | Some (o, c) =>
      match lock_upstream env c with
      | None => t
      | Some u =>
          if vc_server_id c =? NON_ID then t
          else
            let t := emit (U_consume u (vc_server_id c) length) t in
            let t := emit (U_update_flow_control u (vc_server_id c) (te_flow env)) t in
            do_health_check (Some u) false t
      end
  end.

Definition client_icmp_echo_request (request : IcmpEchoRequest) t : option Z * Tunnel TC SC HC :=
  if negb (te_may_send_icmp env) then (Some (-1), t)
  else
    let '(status, m) := IcmpManager.register_request (te_now env) request (t_icmp_manager t) in
    let t := t <| t_icmp_manager := m |> in
    match status with
    | IcmpManager.IM_MSGS_DROP => (Some (-1), t)
    | IcmpManager.IM_MSGS_PASS =>
        let '(result, t) := filter_match_tag (mkTag (rq_peer request) []) t in
        let action := match mr_status result with
                      | DFMS_EXCLUSION => excluded_action t
                      | DFMS_DEFAULT | DFMS_SUSPECT_EXCLUSION => VPN_CA_DEFAULT
                      end in
        let '(u, t) := select_upstream action None t in
        match u with
        | Some u => (None, do_health_check (Some u) false (emit (U_on_icmp_request u request) t))
        | None => (None, t)
        end
    end.

Definition listener_handler (l : Listener) (what : ClientEvent) t : option Z * Tunnel TC SC HC :=
  match what with
  | CLIENT_EVENT_CONNECT_REQUEST id protocol src dst app_name dns_handler_bypass =>
      (None, client_connect_request l id protocol src dst app_name dns_handler_bypass t)
  | CLIENT_EVENT_CONNECTION_ACCEPTED id => (None, client_connection_accepted l id t)
  | CLIENT_EVENT_CONNECTION_CLOSED id => (None, client_connection_closed id t)
  | CLIENT_EVENT_READ id data => client_read l id data t
  | CLIENT_EVENT_DATA_SENT id length => (None, client_data_sent l id length t)
  | CLIENT_EVENT_OUTPUT => (None, emit A_output t)
  | CLIENT_EVENT_ICMP_ECHO_REQUEST request => client_icmp_echo_request request t
  end.

(** *** The rest *)

Definition on_icmp_reply_ready (reply : IcmpEchoReply) t : Tunnel TC SC HC := process_icmp_reply reply t.

Definition update_dns_handler_parameters t : Tunnel TC SC HC :=
  if t_dns_handler t then emit H_update_parameters t else fault "DNS handler is null" t.

Definition on_network_change t : Tunnel TC SC HC := if t_dns_handler t then emit H_on_network_change t else t.

Definition handle_sleep t : Tunnel TC SC HC :=
  let t := t <| t_sleeping := true |> in
  match endpoint_upstream env with
  | Some u => emit (U_cancel_health_check u) t
  | None => fault "endpoint upstream is null" t
  end.

Definition handle_wake t : Tunnel TC SC HC := do_health_check (endpoint_upstream env) true (t <| t_sleeping := false |>).

(** Destroys the connections of a table, in its order. *)
Definition clean_connection_table (lookup : Z -> Tunnel TC SC HC -> option (Z * VpnConnection)) (order : list Z) t : Tunnel TC SC HC :=
  fold_left (fun t id => match lookup id t with
                         | Some (_, c) => destroy_connection (vc_client_id c) (vc_server_id c) t
                         | None => t
                         end) order t.

Definition deinit (by_client by_server : list Z) t : Tunnel TC SC HC :=
  let t := t <| t_endpoint_upstream_connected := false |> in
  let t := clean_connection_table get_by_client_id by_client t in
  let t := clean_connection_table get_by_server_id by_server t in
  let t := if t_dns_resolver t then (emit R_deinit t) <| t_dns_resolver := false |> else t in
  let t := t <| t_repeat_exclusions_resolve_task := false |> in
  let t := if t_fake_upstream t then (emit (U_deinit U_fake) t) <| t_fake_upstream := false |> else t in
  t <| t_icmp_manager := IcmpManager.deinit (t_icmp_manager t) |> <| t_dns_handler := false |>
    <| t_statistics_monitor := (t_statistics_monitor t) <| m_stats := ∅ |> |>.

(** [Tunnel::Tunnel], with the filter of the client and the cache the tunnel is given. *)
Definition tunnel_new (id : Z) (filter : DomainFilter TC SC) (cache : option HC) : Tunnel TC SC HC :=
  {| t_id := id; t_heap := ∅; t_next_object := 0; t_by_client_id := ∅; t_by_server_id := ∅;
     t_icmp_manager := IcmpManager.init None; t_endpoint_upstream_connected := false; t_sleeping := false;
     t_last_health_check_at := 0; t_dns_resolver := false; t_fake_upstream := false; t_dns_handler := false;
     t_dns_resolve_waiters := ∅; t_repeat_exclusions_resolve_task := false;
     t_statistics_monitor := monitor_new DEFAULT_THROTTLING_PERIOD DEFAULT_THRESHOLD_BYTES;
     t_domain_filter := filter; t_hostname_cache := cache; t_out := []; t_faults := [] |}.

(** What the parts say of their initialization. *)
Record InitAnswers := mkInitAnswers { ia_icmp : bool; ia_resolver : bool; ia_fake : bool; ia_handler : bool }.

Definition init (a : InitAnswers) (by_client by_server : list Z) t : bool * Tunnel TC SC HC :=
  let failed t := (false, fault "failed to initialize" (deinit by_client by_server t)) in
  if negb (ia_icmp a) then (false, t)
  else
    let t := t <| t_icmp_manager := IcmpManager.init None |> in
    let t := t <| t_dns_resolver := true |> in
    if negb (ia_resolver a) then failed t
    else
      let t := t <| t_fake_upstream := true |> in
      if negb (ia_fake a) then failed t
      else
        let t := t <| t_dns_handler := true |> in
        if negb (ia_handler a) then failed t
        else (true, t <| t_statistics_monitor := monitor_new DEFAULT_THROTTLING_PERIOD DEFAULT_THRESHOLD_BYTES |>).

(** *** Inputs *)

(** What happens to a tunnel: events of the upstreams and the listeners, calls of the client, tasks of
    its own and answers of the resolver. *)
Inductive TunnelInput :=
| I_upstream (u : Upstream) (what : ServerEvent)
| I_listener (l : Listener) (what : ClientEvent)
| I_finalize (request : ConnectRequestResult)
| I_complete (id : Z) (action : option VpnConnectAction)
| I_complete_task (client_id err_code : Z)
| I_send_buffered (client_id : Z)
| I_resolved (id : Z) (result : option (list SocketAddress))
| I_reset_uid (uid : Z)
| I_reset_listener (l : option Listener)
| I_reset (client_id : Z)
| I_before_disconnect (u : option Upstream)
| I_after_disconnect (u : option Upstream)
| I_exclusions_updated (names : list text)
| I_icmp_reply (reply : IcmpEchoReply)
| I_dns_parameters
| I_network_change
| I_sleep
| I_wake
| I_deinit (by_server : list Z).

(** [order] is the order of the table of client ids. *)
Definition tunnel_step (order : list Z) (i : TunnelInput) t : Tunnel TC SC HC :=
  match i with
  | I_upstream u what => snd (upstream_handler order u what t)
  | I_listener l what => snd (listener_handler l what t)
  | I_finalize request => snd (finalize_connect_action request t)
  | I_complete id action => complete_connect_request id action t
  | I_complete_task client_id err_code => complete_connect_request_task client_id err_code t
  | I_send_buffered client_id => snd (send_buffered_data client_id t)
  | I_resolved id result => on_destination_resolve_result id result t
  | I_reset_uid uid => reset_connections_uid order uid t
  | I_reset_listener l => reset_connections_listener order l t
  | I_reset client_id => reset_connection client_id t
  | I_before_disconnect u => on_before_endpoint_disconnect order u t
  | I_after_disconnect u => on_after_endpoint_disconnect order u t
  | I_exclusions_updated names => on_exclusions_updated names t
  | I_icmp_reply reply => on_icmp_reply_ready reply t
  | I_dns_parameters => update_dns_handler_parameters t
  | I_network_change => on_network_change t
  | I_sleep => handle_sleep t
  | I_wake => handle_wake t
  | I_deinit by_server => deinit order by_server t
  end.
End Tunnel.
