(* ===== verification/TunnelMoves.v ===== *)
(** * The moves of the tunnel

    Every step of the tunnel is a sequence of a few kinds of move: it says something, it
    changes a connection in a way that leaves its ids alone, it gives a connection the id
    of a newly opened server side, it makes, destroys, enters or removes a connection, or
    lets a replacement take over from a migrating connection.  This file shows it once for
    every operation ([tunnel_step_moves]); the invariants are then checked on the moves.

    [may] says whether the step has a reason to send traffic past the VPN endpoint. *)

From stdpp Require Import gmap relations.
From S2P Require Import Prelude VpnTypes PortRanges Wire View DomainFilter DomainFilterProofs Tls Quic DomainExtractor Statistics Icmp Tunnel.

(** Outputs that neither use the bypass upstream nor are health checks. *)
Definition innocent (out : TunnelOut) : bool :=
  match out with
  | U_open_connection U_bypass _ _ _ _ | U_on_icmp_request U_bypass _ | U_do_health_check _ => false
  | _ => true
  end.

Definition goes_past (out : TunnelOut) : bool :=
  match out with U_open_connection U_bypass _ _ _ _ | U_on_icmp_request U_bypass _ => true | _ => false end.

(** States in which a connection has no server side yet. *)
Definition early (st : VpnConnectionState) : bool :=
  match st with CONNS_WAITING_ACTION | CONNS_WAITING_RESOLVE => true | _ => false end.

(** What an assignment to the fields of a connection leaves alone. *)
Record benign (may : Prop) (f : VpnConnection -> VpnConnection) : Prop := {
  benign_client_id c : vc_client_id (f c) = vc_client_id c;
  benign_server_id c : vc_server_id (f c) = vc_server_id c;
  benign_migrating c : vc_state (f c) = CONNS_WAITING_RESPONSE_MIGRATING -> vc_state c = CONNS_WAITING_RESPONSE_MIGRATING;
  benign_early c : early (vc_state (f c)) = true -> vc_state (f c) = vc_state c;
  benign_flag c : CONNF_FORCIBLY_BYPASSED (vc_flags (f c)) = true -> CONNF_FORCIBLY_BYPASSED (vc_flags c) = true \/ may;
  benign_action c : vc_action (f c) = Some VPN_CA_FORCE_BYPASS -> vc_action c = Some VPN_CA_FORCE_BYPASS \/ may;
}.

Definition no_new_bypass (may : Prop) (f : ConnFlags -> ConnFlags) : Prop :=
  forall fl, CONNF_FORCIBLY_BYPASSED (f fl) = true -> CONNF_FORCIBLY_BYPASSED fl = true \/ may.

Section Moves.
Context `{FilterLib} `{CertLib} `{QuicCrypto} `{QuicHeaders} {TC SC HC : Type}.
Context `{LruTimeoutCache TC SockAddrTag text} `{LruTimeoutCache SC SocketAddress Z}.
Context `{LruTimeoutCache HC TunnelAddressPair DomainExtractorResult}.
Context (env : TunnelEnv).
Implicit Types t : Tunnel TC SC HC.

Definition same_tables t t' : Prop :=
  t_heap t' = t_heap t /\ t_next_object t' = t_next_object t /\
  t_by_client_id t' = t_by_client_id t /\ t_by_server_id t' = t_by_server_id t.

(** The exclusions and the mode: what the application told the filter. *)
Definition same_rules t t' : Prop :=
  let f := t_domain_filter t in let f' := t_domain_filter t' in
  f_mode f' = f_mode f /\ f_domains f' = f_domains f /\ f_addresses f' = f_addresses f /\
  f_ports_only f' = f_ports_only f /\ f_cidr_ranges f' = f_cidr_ranges f.

(** The rules send some traffic past the endpoint. *)
Definition excused t : Prop :=
  get_mode (t_domain_filter t) = VPN_MODE_SELECTIVE \/
  (exists domain, match_domain (t_domain_filter t) domain = DFMS_EXCLUSION) \/
  (exists addr, match_address (t_domain_filter t) addr = true).

Definition same_clock t t' : Prop := t_sleeping t' = t_sleeping t /\ t_last_health_check_at t' = t_last_health_check_at t.

Record quiet t t' : Prop := mkQuiet {
  quiet_tables : same_tables t t';
  quiet_rules : same_rules t t';
  quiet_clock : same_clock t t';
  quiet_out : exists outs, t_out t' = t_out t ++ outs /\ forallb innocent outs = true;
}.

(** The connection has no id on the server side. *)
Definition no_server_side (o : Z) t : Prop := forall c, connection o t = Some c -> vc_server_id c = NON_ID.

Context (may : Prop).

Inductive move : Tunnel TC SC HC -> Tunnel TC SC HC -> Prop :=
| m_quiet t t' : quiet t t' -> move t t'
| m_past t out : goes_past out = true -> may -> move t (emit out t)
| m_health t u :
    t_sleeping t = false -> endpoint_upstream env = Some u ->
    t_last_health_check_at t / 1000 <= te_now env / 1000 ->
    te_timeout_ms env <= te_now env / 1000 - t_last_health_check_at t / 1000 ->
    move t ((emit (U_do_health_check u) t) <| t_last_health_check_at := te_now env |>)
| m_update t o f : benign may f -> move t (update o f t)
| m_not_opened t o :
    no_server_side o t -> move t (update o (fun c => c <| vc_server_id := NON_ID |>) t)
| m_opened t o id :
    no_server_side o t -> move t (set_state o CONNS_WAITING_RESPONSE (update o (fun c => c <| vc_server_id := id |>) t))
| m_resolve t o :
    no_server_side o t -> move t (set_state o CONNS_WAITING_RESOLVE t)
| m_allocate t c :
    (vc_state c = CONNS_WAITING_RESPONSE_MIGRATING -> vc_client_id c = NON_ID) ->
    (early (vc_state c) = true -> vc_server_id c = NON_ID) ->
    CONNF_FORCIBLY_BYPASSED (vc_flags c) = false -> vc_action c = None ->
    move t (snd (allocate c t))
| m_add t o : move t (add_connection o t)
| m_remove_client t id : move t (remove_client_id id t)
| m_remove_server t id : move t (remove_server_id id t)
| m_destroy t o c :
    connection o t = Some c ->
    move t (remove_server_id (vc_server_id c) (remove_client_id (vc_client_id c) t) <| t_heap := delete o (t_heap t) |>)
| m_take_over t o c src sc packets f :
    connection o t = Some c -> vc_state c = CONNS_WAITING_RESPONSE_MIGRATING ->
    get_by_client_id (vc_migrating_client_id c) t = Some (src, sc) -> benign may f ->
    move t (add_connection o
             (update o (fun c => c <| vc_client_id := vc_client_id sc |> <| vc_state := CONNS_CONNECTED |>
                        <| vc_migrating_client_id := NON_ID |> <| vc_buffered_packets := packets |>)
               (update src (fun s => (f s) <| vc_client_id := vc_client_id c |>) t))).

Definition moves : Tunnel TC SC HC -> Tunnel TC SC HC -> Prop := rtc move.

(** ** Quiet steps *)

Lemma quiet_refl t : quiet t t.
Proof. split; [done..|]. exists []. by rewrite app_nil_r. Qed.

Lemma quiet_trans t t' t'' : quiet t t' -> quiet t' t'' -> quiet t t''.
Proof.
  intros [(? & ? & ? & ?) (? & ? & ? & ? & ?) [? ?] (o1 & E1 & I1)] [(? & ? & ? & ?) (? & ? & ? & ? & ?) [? ?] (o2 & E2 & I2)].
  split; [by split_and!; congruence..|]. exists (o1 ++ o2). rewrite E2, E1, app_assoc, forallb_app, I1. done.
Qed.

Lemma quiet_emit out t : innocent out = true -> quiet t (emit out t).
Proof. intros Hi. split; [done..|]. exists [out]. cbn. by rewrite Hi. Qed.

(** A step that leaves the tables, the rules, the clock and the outputs as they are. *)
Lemma quiet_same t t' : same_tables t t' -> same_rules t t' -> same_clock t t' -> t_out t' = t_out t -> quiet t t'.
Proof. intros ??? Ho. split; [done..|]. exists []. by rewrite app_nil_r. Qed.

Lemma quiet_connection o t t' : quiet t t' -> connection o t' = connection o t.
Proof. intros [(E & _) _ _ _]. unfold connection. by rewrite E. Qed.

Lemma quiet_no_server_side o t t' : quiet t t' -> no_server_side o t -> no_server_side o t'.
Proof. intros Hq Hn c. rewrite (quiet_connection o t t' Hq). apply Hn. Qed.

Lemma rules_excused t t' : same_rules t t' -> excused t' -> excused t.
Proof.
  intros (Hm & Hd & Ha & Hp & Hr) [E|[(d & E)|(a & E)]]; [left|right; left; exists d|right; right; exists a].
  - unfold get_mode in *. congruence.
  - rewrite <- E. by apply match_domain_congr.
  - unfold match_address in *. by rewrite Ha, Hp, Hr in E.
Qed.

Lemma rules_trans t t' t'' : same_rules t t' -> same_rules t' t'' -> same_rules t t''.
Proof. intros (? & ? & ? & ? & ?) (? & ? & ? & ? & ?). by split_and!; congruence. Qed.

Lemma filter_match_tag_quiet tag t result t' : filter_match_tag env tag t = (result, t') -> quiet t t'.
Proof.
  unfold filter_match_tag, match_tag. intros Ht. split_match_hyp; injection Ht as <- <-; apply quiet_same; done.
Qed.

Lemma filter_match_tag_excused tag t result t' :
  filter_match_tag env tag t = (result, t') -> mr_status result = DFMS_EXCLUSION -> excused t.
Proof.
  unfold filter_match_tag, match_tag. intros Ht Hs. right. split_match_hyp; injection Ht as <- <-; cbn -[match_domain] in Hs; try done; eauto.
  left. eexists. rewrite <- Hs. by apply match_domain_congr.
Qed.

Lemma forced_upstream_quiet action t u t' : forced_upstream env action t = (u, t') -> quiet t t'.
Proof. unfold forced_upstream. intros Hu. split_match_hyp; injection Hu as <- <-; by apply quiet_same. Qed.

Lemma select_upstream_quiet action c t u t' : select_upstream env action c t = (u, t') -> quiet t t'.
Proof.
  unfold select_upstream. intros Hu. split_match_hyp; try (injection Hu as <- <-; apply quiet_refl); by eapply forced_upstream_quiet.
Qed.

(** The bypass upstream is chosen by its own action or, by default, in the selective mode. *)
Lemma forced_upstream_bypass action t u t' :
  forced_upstream env action t = (u, t') -> u = Some U_bypass -> action = VPN_CA_FORCE_BYPASS.
Proof. unfold forced_upstream, endpoint_upstream. intros Hu ->. destruct action, (te_endpoint env); cbn in Hu; congruence. Qed.

Lemma select_upstream_bypass action c t u t' :
  select_upstream env action c t = (u, t') -> u = Some U_bypass ->
  action = VPN_CA_FORCE_BYPASS \/ action = VPN_CA_DEFAULT /\ get_mode (t_domain_filter t) = VPN_MODE_SELECTIVE.
Proof.
  unfold select_upstream, fake_upstream, dns_handler_upstream. intros Hu ->.
  destruct action; try (left; eapply forced_upstream_bypass; done). right. split; [done|].
  destruct (get_mode (t_domain_filter t)) eqn:E; [|done]. cbn [vpn_mode_to_action] in Hu.
  split_match_hyp; try (apply forced_upstream_bypass in Hu; done); congruence.
Qed.

(** ** Sequences of moves *)

Lemma moves_refl t : moves t t.
Proof. apply rtc_refl. Qed.

Lemma moves_trans t t' t'' : moves t t' -> moves t' t'' -> moves t t''.
Proof. intros ??. by etrans. Qed.

Lemma moves_move t t' t'' : moves t t' -> move t' t'' -> moves t t''.
Proof. apply rtc_r. Qed.

Lemma moves_quiet t t' t'' : moves t t' -> quiet t' t'' -> moves t t''.
Proof. intros Hm Hq. by eapply moves_move, m_quiet. Qed.

Lemma moves_emit out t t' : innocent out = true -> moves t t' -> moves t (emit out t').
Proof. intros ??. by eapply moves_quiet, quiet_emit. Qed.

Lemma moves_fault what t t' : moves t t' -> moves t (fault what t').
Proof. intros ?. by eapply moves_quiet, quiet_same. Qed.

Lemma moves_update o f t t' : benign may f -> moves t t' -> moves t (update o f t').
Proof. intros ??. by eapply moves_move, m_update. Qed.

Lemma moves_set_state o st t t' :
  st <> CONNS_WAITING_RESPONSE_MIGRATING -> early st = false -> moves t t' -> moves t (set_state o st t').
Proof. intros ? He ?. apply moves_update; [|done]. split; intros c; cbn; intros; first [done | by left | congruence]. Qed.

Lemma moves_set_flags o f t t' :
  no_new_bypass may f -> moves t t' -> moves t (set_flags o f t').
Proof. intros ??. apply moves_update; [|done]. split; intros c; cbn; auto. Qed.

Lemma moves_add o t t' : moves t t' -> moves t (add_connection o t').
Proof. intros ?. by eapply moves_move, m_add. Qed.

Lemma moves_remove_client id t t' : moves t t' -> moves t (remove_client_id id t').
Proof. intros ?. by eapply moves_move, m_remove_client. Qed.

Lemma moves_remove_server id t t' : moves t t' -> moves t (remove_server_id id t').
Proof. intros ?. by eapply moves_move, m_remove_server. Qed.

Lemma move_rules t t' : move t t' -> same_rules t t'.
Proof.
  destruct 1; try done. 1: by apply quiet_rules.
  1,2: unfold add_connection; split_match; done.
Qed.

Lemma moves_rules t t' : moves t t' -> same_rules t t'.
Proof. induction 1; [done|]. eapply rules_trans; [by apply move_rules|done]. Qed.

(** Going back over the last assignment to a field of the tunnel. *)
Ltac before_assign :=
  match goal with
  | |- moves _ (assign _ ?x) => apply (moves_quiet _ x); [|by apply quiet_same]
  end.

Create HintDb moves discriminated.
#[local] Hint Resolve moves_refl moves_emit moves_fault moves_update moves_set_state moves_set_flags moves_add
  moves_remove_client moves_remove_server : moves.
#[local] Hint Extern 1 (innocent _ = true) => reflexivity : moves.
#[local] Hint Extern 1 (early _ = false) => reflexivity : moves.
#[local] Hint Extern 1 (_ <> CONNS_WAITING_RESPONSE_MIGRATING) => discriminate : moves.
#[local] Hint Extern 1 (benign _ _) => (split; intros; cbn in *; solve [auto | discriminate]) : moves.
#[local] Hint Extern 1 (no_new_bypass _ _) => (intros ?; cbn in *; intros; solve [auto | discriminate]) : moves.
#[local] Hint Extern 2 (moves _ (assign _ _)) => before_assign : moves.
Ltac moving := cbv zeta; repeat case_match; simplify_eq; cbn [fst snd]; auto 20 with moves.

(** *** Destroying and closing *)

Lemma cancel_destination_resolve_moves c t t' : moves t t' -> moves t (cancel_destination_resolve c t').
Proof. intros Hm. unfold cancel_destination_resolve. moving. Qed.
#[local] Hint Resolve cancel_destination_resolve_moves : moves.

Lemma cancel_destination_resolve_connection o c t : connection o (cancel_destination_resolve c t) = connection o t.
Proof. unfold cancel_destination_resolve. by repeat case_match. Qed.

Lemma destroy_object_moves o c t t' : connection o t' = Some c -> moves t t' -> moves t (destroy_object env o c t').
Proof.
  intros Hc Hm. unfold destroy_object. cbv zeta.
  set (t1 := if bool_decide (vc_state c = CONNS_WAITING_RESOLVE) then cancel_destination_resolve c t' else t').
  assert (moves t t1) as Hm1 by (subst t1; moving).
  assert (connection o t1 = Some c) as Hc1 by (subst t1; case_match; rewrite ?cancel_destination_resolve_connection; done).
  clearbody t1. eapply moves_quiet; [eapply moves_move, m_destroy; eassumption|].
  repeat case_match; (split; [done..|]); first [by exists []; rewrite app_nil_r | by eexists [_]].
Qed.
#[local] Hint Resolve destroy_object_moves : moves.

Lemma get_by_client_connection id t o c : get_by_client_id id t = Some (o, c) -> connection o t = Some c.
Proof. unfold get_by_client_id. intros. by simplify_option_eq. Qed.

Lemma get_by_server_connection id t o c : get_by_server_id id t = Some (o, c) -> connection o t = Some c.
Proof. unfold get_by_server_id. intros. by simplify_option_eq. Qed.

Lemma destroy_connection_moves client_id server_id t t' : moves t t' -> moves t (destroy_connection env client_id server_id t').
Proof.
  intros Hm. unfold destroy_connection. cbv zeta.
  set (t1 := if _ && _ then fault _ t' else t'). assert (moves t t1) as Hm1 by (subst t1; moving). clearbody t1.
  repeat case_match; simplify_eq; try done;
    eauto using destroy_object_moves, get_by_client_connection, get_by_server_connection.
Qed.
#[local] Hint Resolve destroy_connection_moves : moves.

Lemma close_client_side_connection_moves o err async t t' : moves t t' -> moves t (close_client_side_connection env o err async t').
Proof. intros Hm. unfold close_client_side_connection. moving. Qed.
#[local] Hint Resolve close_client_side_connection_moves : moves.

Lemma complete_connect_request_task_moves id err t t' : moves t t' -> moves t (complete_connect_request_task env id err t').
Proof. intros Hm. unfold complete_connect_request_task. moving. Qed.

Lemma fold_moves {A} (f : Tunnel TC SC HC -> A -> Tunnel TC SC HC) (l : list A) t :
  (forall t' a, moves t t' -> moves t (f t' a)) -> forall t', moves t t' -> moves t (fold_left f l t').
Proof. intros Hf. induction l as [|a l IH]; intros t' Hm; cbn; auto. Qed.

Lemma for_ids_moves f ids t t' :
  (forall t' o, moves t t' -> moves t (f o t')) -> moves t t' -> moves t (for_ids f ids t').
Proof. intros Hf Hm. apply fold_moves; [|done]. intros. moving. Qed.

Lemma close_ids_moves ids t t' : moves t t' -> moves t (close_ids env ids t').
Proof. intros Hm. apply for_ids_moves; [|done]. intros. moving. Qed.
#[local] Hint Resolve close_ids_moves : moves.

Lemma close_client_side_moves order u t t' : moves t t' -> moves t (close_client_side env order u t').
Proof. intros Hm. apply for_ids_moves; [|done]. intros. moving. Qed.
#[local] Hint Resolve close_client_side_moves : moves.

(** *** Sending *)

Lemma monitor_upload_moves c n t t' : moves t t' -> moves t (monitor_upload env c n t').
Proof. intros Hm. unfold monitor_upload. moving. Qed.
#[local] Hint Resolve monitor_upload_moves : moves.

Lemma send_packets_moves o c u t packets : forall t', moves t t' -> moves t (snd (send_packets env o c u packets t')).
Proof. induction packets as [|p packets IH]; intros t' Hm; cbn -[assign]; moving. Qed.

Lemma send_buffered_data_moves id t t' : moves t t' -> moves t (snd (send_buffered_data env id t')).
Proof.
  intros Hm. unfold send_buffered_data. destruct (get_by_client_id id t') as [[o c]|]; [|done]. cbv zeta.
  destruct (lock_upstream env c) as [u|]; [|moving]. destruct (lock_listener env c) as [l|]; [|moving].
  destruct (send_packets _ _ _ _ _ _) as [sent t1] eqn:E.
  assert (moves t t1) by (change t1 with (snd (sent, t1)); rewrite <- E; apply send_packets_moves; moving).
  moving.
Qed.

Lemma schedule_send_buffered_data_moves o t t' : moves t t' -> moves t (schedule_send_buffered_data o t').
Proof. intros Hm. unfold schedule_send_buffered_data. moving. Qed.
#[local] Hint Resolve schedule_send_buffered_data_moves : moves.

Lemma report_connection_info_moves o domain t t' : moves t t' -> moves t (report_connection_info env o domain t').
Proof. intros Hm. unfold report_connection_info. moving. Qed.
#[local] Hint Resolve report_connection_info_moves : moves.

Lemma do_health_check_moves u t t' : moves t t' -> moves t (do_health_check env u false t').
Proof.
  intros Hm. unfold do_health_check. destruct (t_sleeping t') eqn:Hs; [done|]. cbn [orb negb andb].
  case_bool_decide as Hu; [|done]. cbn [negb]. destruct (te_clock_ok env); [|done]. cbn [negb].
  case_match eqn:Hw; [done|]. bool_to_prop.
  destruct u as [u|]; [|moving]. eapply moves_move, m_health; done.
Qed.
#[local] Hint Resolve do_health_check_moves : moves.

(** *** Domain lookup *)

Lemma extract_moves dir o c data t t' r t1 : extract dir o c data t' = (r, t1) -> moves t t' -> moves t t1.
Proof. unfold extract, noting. intros E Hm. split_match_hyp; simplify_eq; moving. Qed.

Lemma extract_filter dir o c data t' r t1 : extract dir o c data t' = (r, t1) -> t_domain_filter t1 = t_domain_filter t'.
Proof. unfold extract, noting. intros E. by split_match_hyp; simplify_eq. Qed.

Lemma domain_lookup_process_udp_moves dir o c data t t' r t1 :
  domain_lookup_process_udp env dir o c data t' = (r, t1) -> moves t t' -> moves t t1 /\ t_domain_filter t1 = t_domain_filter t'.
Proof.
  unfold domain_lookup_process_udp, noting. cbv zeta. intros E Hm. split_match_hyp; simplify_eq; try (split; [moving|done]).
  all: match goal with E : extract _ _ _ _ _ = _ |- _ => split; [eapply extract_moves in E; [done|moving]|apply extract_filter in E; done] end.
Qed.

(** The lookup as a whole. *)
Lemma lookup_result_moves dir o c data t t' r t1 :
  (if vc_proto c =? IPPROTO_UDP then domain_lookup_process_udp env dir o c data t'
   else let '(r, t) := extract dir o c data t' in (inr r, t)) = (r, t1) ->
  moves t t' -> moves t t1 /\ t_domain_filter t1 = t_domain_filter t'.
Proof.
  intros E Hm. case_match; [by eapply domain_lookup_process_udp_moves|].
  destruct (extract _ _ _ _ _) as [r' t2] eqn:E2. simplify_eq. split; [by eapply extract_moves|by eapply extract_filter].
Qed.

Lemma pass_through_domain_lookup_moves dir o c data t t' action t1 :
  pass_through_domain_lookup env dir o c data t' = (action, t1) -> moves t t' -> moves t t1.
Proof.
  unfold pass_through_domain_lookup. intros E Hm. destruct (if _ =? _ then _ else _) as [r t2] eqn:E2.
  eapply lookup_result_moves in E2 as [Hm2 _]; [|done]. split_match_hyp; simplify_eq; moving.
Qed.

Lemma pass_through_domain_lookup_excused dir o c data t' t1 :
  pass_through_domain_lookup env dir o c data t' = (TDLA_SHUTDOWN, t1) -> excused t'.
Proof.
  unfold pass_through_domain_lookup. intros E. destruct (if _ =? _ then _ else _) as [r t2] eqn:E2.
  pose proof E2 as E3. eapply lookup_result_moves in E2 as [_ Hf]; [|apply moves_refl].
  destruct r as [action|r].
  - exfalso. simplify_eq. unfold domain_lookup_process_udp, noting in E3. split_match_hyp; simplify_eq.
  - right. left. exists (der_domain r). rewrite <- Hf. split_match_hyp; simplify_eq; by eapply bool_decide_eq_true.
Qed.

(** *** Routing *)

Lemma moves_open u id addr proto name t t' :
  (u = U_bypass -> may) -> moves t t' -> moves t (emit (U_open_connection u id addr proto name) t').
Proof.
  intros Hu Hm. destruct (decide (u = U_bypass)) as [->|Hn].
  - eapply moves_move, m_past; auto.
  - apply moves_emit; [by destruct u|done].
Qed.

Lemma moves_allocate c o t t' t1 :
  allocate c t' = (o, t1) -> moves t t' ->
  (vc_state c = CONNS_WAITING_RESPONSE_MIGRATING -> vc_client_id c = NON_ID) ->
  (early (vc_state c) = true -> vc_server_id c = NON_ID) ->
  CONNF_FORCIBLY_BYPASSED (vc_flags c) = false -> vc_action c = None -> moves t t1.
Proof. intros E Hm ????. eapply moves_move; [done|]. change t1 with (snd (o, t1)). rewrite <- E. by apply m_allocate. Qed.

Lemma migration_moves_after_open o u packet t t' c :
  connection o t' = Some c ->
  moves t (emit (U_open_connection u (te_open_connection env u) (vc_addr c) (vc_proto c) []) t') ->
  moves t (snd (initiate_connection_migration env o (Some u) packet t')).
Proof.
  intros Ec Hm. unfold initiate_connection_migration. rewrite Ec. cbv zeta. destruct (_ =? NON_ID); [done|].
  destruct (allocate _ _) as [sw t2] eqn:Ea. eapply moves_allocate in Ea; [|done..]. moving.
Qed.

Lemma initiate_connection_migration_moves o u packet t t' :
  (u = Some U_bypass -> may) -> moves t t' -> moves t (snd (initiate_connection_migration env o u packet t')).
Proof.
  intros Hu Hm. destruct u as [u|]; [|done]. destruct (connection o t') as [c|] eqn:Ec.
  - eapply migration_moves_after_open; [done|]. apply moves_open; [|done]. intros ->. auto.
  - unfold initiate_connection_migration. rewrite Ec. moving.
Qed.

(** The hypotheses of the step on its reasons: what the rules and the flags say of its first state. *)
Definition reasons t : Prop :=
  (excused t -> may) /\ (forall o c, connection o t = Some c -> CONNF_FORCIBLY_BYPASSED (vc_flags c) = true -> may).

Lemma reasons_excused t t' : reasons t -> moves t t' -> excused t' -> may.
Proof. intros [Hr _] Hm He. by eapply Hr, rules_excused, He; apply moves_rules. Qed.

Lemma select_upstream_may action c t t' u t1 :
  select_upstream env action c t' = (u, t1) -> reasons t -> moves t t' -> (action = VPN_CA_FORCE_BYPASS -> may) ->
  u = Some U_bypass -> may.
Proof.
  intros E Hr Hm Ha ->. eapply select_upstream_bypass in E as [->|[_ E]]; [auto| |done].
  eapply reasons_excused; [done..|]. by left.
Qed.

Lemma moves_action o a t t' :
  (a = Some VPN_CA_FORCE_BYPASS -> may) -> moves t t' -> moves t (update o (fun c => c <| vc_action := a |>) t').
Proof. intros Hx Ht. apply moves_update; [|done]. split; intros; cbn in *; auto. Qed.

Lemma finalize_connect_action_moves request t :
  reasons t -> (action request = Some VPN_CA_FORCE_BYPASS -> may) -> moves t (snd (finalize_connect_action env request t)).
Proof.
  intros Hr Ha. unfold finalize_connect_action. destruct (get_by_client_id _ t) as [[o c]|]; [|moving]. cbv zeta.
  match goal with |- context [update o ?f t] => set (t1 := update o f t); assert (moves t t1) as Hm by (subst t1; moving) end.
  clearbody t1. cbn [snd]. case_match; [by apply moves_action|]. destruct (tap_dst (vc_addr c)) as [dst|name port].
  - destruct (filter_match_tag _ _ _) as [result t2] eqn:E.
    pose proof (filter_match_tag_quiet _ _ _ _ E) as Hq. pose proof (filter_match_tag_excused _ _ _ _ E) as Hx.
    assert (moves t t2) by by eapply moves_quiet. destruct (mr_status result) eqn:Es; [by apply moves_action| |moving].
    apply report_connection_info_moves, moves_action; [|done]. intros _. eapply reasons_excused; [done|apply Hm|]. auto.
  - destruct (match_domain _ name) eqn:Es; try by apply moves_action.
    apply report_connection_info_moves, moves_action; [|done]. intros _. eapply reasons_excused; [done|apply Hm|]. right. left. eauto.
Qed.

(** *** Completing connect requests *)

Lemma open_on_moves u o t t' :
  no_server_side o t' -> (u = Some U_bypass -> may) -> moves t t' ->
  (has_server_id o (open_on env u o t') = false -> moves t (open_on env u o t')) /\
  moves t (set_state o CONNS_WAITING_RESPONSE (open_on env u o t')).
Proof.
  intros Hn Hu Hm. unfold open_on. destruct u as [u|]; [|split; moving]. destruct (connection o t') as [c|] eqn:Hc; [|split; moving].
  cbv zeta. set (t1 := emit _ t').
  assert (moves t t1) as Hm1 by (apply moves_open; [intros ->; auto|done]).
  assert (no_server_side o t1) as Hn1 by done. assert (connection o t1 = Some c) as Hc1 by done. clearbody t1. split.
  - unfold has_server_id, connection, update. cbn -[lookup alter]. unfold connection in Hc1. rewrite lookup_alter_eq, Hc1. cbn.
    intros E%negb_false_iff%Z.eqb_eq. rewrite E. by eapply moves_move, m_not_opened.
  - by eapply moves_move, m_opened.
Qed.

Lemma no_server_side_update o o' f t : benign may f -> no_server_side o t -> no_server_side o (update o' f t).
Proof.
  intros Hb Hn c. unfold connection, update. cbn -[lookup alter]. destruct (decide (o = o')) as [->|].
  - rewrite lookup_alter_eq. destruct (t_heap t !! o') as [c0|] eqn:E; [|done]. cbn. intros [= <-]. rewrite (benign_server_id _ _ Hb).
    by apply Hn.
  - rewrite lookup_alter_ne by done. apply Hn.
Qed.

Lemma address_usable_quiet c a t ok t' : address_usable env c a t = (ok, t') -> quiet t t'.
Proof.
  unfold address_usable. intros E.
  destruct (if negb _ && _ then _ else _) as [action t1] eqn:E1.
  assert (quiet t t1).
  { clear E. destruct (negb _ && negb _); [|simplify_eq; apply quiet_refl]. destruct (filter_match_tag _ _ _) as [r t2] eqn:E2. simplify_eq.
    by eapply filter_match_tag_quiet. }
  destruct (select_upstream _ _ _ _) as [u t2] eqn:E2.
  assert (quiet t t2) by (eapply quiet_trans; [done|by eapply select_upstream_quiet]).
  clear E1. repeat case_match; simplify_eq; first [done | eapply quiet_trans; [done|by apply quiet_same]].
Qed.

Lemma select_resolved_quiet c addresses : forall t a t', select_resolved_destination_address env c addresses t = (a, t') -> quiet t t'.
Proof.
  induction addresses as [|a0 addresses IH]; intros t a t' E; cbn in E; [simplify_eq; apply quiet_refl|].
  destruct (tap_dst (vc_addr c)); [simplify_eq; by apply quiet_same|]. destruct (address_usable _ _ _ _) as [ok t1] eqn:Ea.
  apply address_usable_quiet in Ea. destruct ok; simplify_eq; [done|]. eapply quiet_trans; eauto.
Qed.

Lemma resolved_action_quiet c a t action t' : resolved_action env c a t = (action, t') -> quiet t t'.
Proof.
  unfold resolved_action. intros E. repeat case_match; simplify_eq; try apply quiet_refl; by eapply filter_match_tag_quiet.
Qed.

Lemma resolved_action_may c a t t' action t1 :
  resolved_action env c a t' = (action, t1) -> reasons t -> moves t t' ->
  (CONNF_FORCIBLY_BYPASSED (vc_flags c) = true -> may) -> action = VPN_CA_FORCE_BYPASS -> may.
Proof.
  unfold resolved_action. intros E Hr Hm Hf ->. destruct (CONNF_FORCIBLY_BYPASSED _); [auto|]. case_match; [done|].
  destruct (filter_match_tag _ _ _) as [result t2] eqn:E2. simplify_eq. destruct (mr_status result) eqn:Es; simplify_eq.
  eapply reasons_excused; [done..|]. by eapply filter_match_tag_excused.
Qed.

Lemma connect_resolved_moves o c a t t' :
  reasons t -> (CONNF_FORCIBLY_BYPASSED (vc_flags c) = true -> may) -> no_server_side o t' -> moves t t' ->
  moves t (connect_resolved env o c a t').
Proof.
  intros Hr Hf Hn Hm. unfold connect_resolved. cbv zeta. destruct (resolved_action _ _ _ _) as [action t1] eqn:E1.
  pose proof (resolved_action_may _ _ _ _ _ _ E1 Hr Hm Hf) as Ha. apply resolved_action_quiet in E1.
  assert (moves t t1) as Hm1 by by eapply moves_quiet.
  destruct (select_upstream _ _ _ _) as [u t2] eqn:E2. pose proof (select_upstream_may _ _ _ _ _ _ E2 Hr Hm1 Ha) as Hu.
  apply select_upstream_quiet in E2. assert (moves t t2) as Hm2 by by eapply moves_quiet.
  match goal with |- context [open_on env u o ?x] => set (t3 := x) end.
  assert (moves t t3) as Hm3 by (subst t3; moving).
  assert (no_server_side o t3) as Hn3.
  { subst t3. apply no_server_side_update; [split; intros; cbn in *; auto|]. by eapply quiet_no_server_side, quiet_no_server_side. }
  clearbody t3. destruct (open_on_moves u o t t3 Hn3 Hu Hm3) as [Hno Hyes]. destruct (has_server_id _ _); moving.
Qed.

Lemma on_destination_resolve_result_moves id result t :
  reasons t -> (forall o c, connection o t = Some c -> early (vc_state c) = true -> vc_server_id c = NON_ID) ->
  moves t (on_destination_resolve_result env id result t).
Proof.
  intros Hr He. unfold on_destination_resolve_result. cbv zeta. case_match; [|moving].
  destruct (get_by_client_id _ t) as [[o c]|] eqn:Hg; [|moving]. apply get_by_client_connection in Hg.
  case_bool_decide as Hs; [|moving]. cbn [negb]. destruct result as [addresses|]; [|moving].
  match goal with |- context [select_resolved_destination_address _ _ _ ?x] => set (t1 := x) end.
  assert (quiet t t1) as Hq1 by (eapply quiet_trans; [apply (quiet_emit (R_cancel id)); done|by apply quiet_same]).
  clearbody t1. destruct (select_resolved_destination_address _ _ _ _) as [a t2] eqn:E. apply select_resolved_quiet in E.
  assert (quiet t t2) as Hq2 by by eapply quiet_trans.
  assert (moves t t2) by (eapply moves_quiet; [apply moves_refl|done]).
  destruct a as [a|]; [|moving]. apply connect_resolved_moves; try done.
  - intros Hf. by eapply Hr.
  - eapply quiet_no_server_side; [done|]. intros c' Hc'. simplify_eq. eapply He; [done|]. by rewrite Hs.
Qed.

Lemma need_resolve_hostname_quiet action c t b t' : need_resolve_hostname env action c t = (b, t') -> quiet t t'.
Proof. unfold need_resolve_hostname. intros E. repeat case_match; simplify_eq; by apply quiet_same. Qed.

Lemma note_action_moves o action t t' a t1 :
  note_action env o action t' = (a, t1) -> (action = Some VPN_CA_FORCE_BYPASS -> may) -> no_server_side o t' -> moves t t' ->
  moves t t1 /\ (a = Some VPN_CA_FORCE_BYPASS -> may) /\ (is_Some a -> no_server_side o t1).
Proof.
  unfold note_action. intros E Ha Hn Hm. destruct (default VPN_CA_DEFAULT action) eqn:Ea; simplify_eq.
  - split_and!; [moving|done|]. intros _. apply no_server_side_update; [split; intros; cbn in *; auto|done].
  - assert may by (apply Ha; by destruct action; simplify_eq/=). split_and!; [moving|done|]. intros _.
    apply no_server_side_update; [split; intros; cbn in *; auto|done].
  - split_and!; [moving|done|]. intros _. apply no_server_side_update; [split; intros; cbn in *; auto|done].
  - split_and!; [moving|done|]. by intros [].
Qed.

Lemma has_server_id_connection o t c : connection o t = Some c -> has_server_id o t = negb (vc_server_id c =? NON_ID).
Proof. unfold has_server_id. by intros ->. Qed.

Lemma connect_upstream_moves o u t t' :
  (u = Some U_bypass -> may) -> no_server_side o t' -> moves t t' -> moves t (connect_upstream env o u t').
Proof.
  intros Hu Hn Hm. unfold connect_upstream. cbv zeta.
  match goal with |- context [update o (fun c => c <| vc_upstream := u |>) t'] => set (t1 := update o _ t') end.
  assert (moves t t1) as Hm1 by (subst t1; moving).
  assert (no_server_side o t1) as Hn1 by (apply no_server_side_update; [split; intros; cbn in *; auto|done]).
  clearbody t1. case_match; [moving|].
  match goal with |- context [connection o ?x] => set (t2 := x) end.
  assert ((has_server_id o t2 = false -> moves t t2) /\ moves t (set_state o CONNS_WAITING_RESPONSE t2)) as [Hno Hyes].
  { subst t2. destruct u as [u|]; [|split; moving]. apply open_on_moves; [|done|moving].
    apply no_server_side_update; [split; intros; cbn in *; auto|done]. }
  clearbody t2. destruct (connection o t2) as [c|] eqn:Hc.
  - rewrite (has_server_id_connection _ _ _ Hc) in Hno. destruct (_ =? NON_ID); moving.
  - apply moves_fault, Hno. unfold has_server_id. by rewrite Hc.
Qed.

Lemma start_resolve_moves o c t t' : no_server_side o t' -> moves t t' -> moves t (start_resolve env o c t').
Proof.
  intros Hn Hm. unfold start_resolve. destruct (tap_dst (vc_addr c)); [moving|]. cbv zeta.
  set (t1 := if t_dns_resolver t' then _ else _). assert (moves t t1) as Hm1 by (subst t1; moving).
  assert (no_server_side o t1) as Hn1 by (subst t1; by case_match). clearbody t1. case_match; [|moving].
  eapply moves_move, m_resolve; [moving|done].
Qed.

(** A request that may be completed: its connection, if there is yet, has no server side. *)
Definition completable (id : Z) t : Prop :=
  match get_by_client_id id t with Some (_, c) => vc_server_id c = NON_ID | None => True end.

Lemma completable_no_server_side id t o c : completable id t -> get_by_client_id id t = Some (o, c) -> no_server_side o t.
Proof. unfold completable. intros Hc Hg c' Hc'. rewrite Hg in Hc. apply get_by_client_connection in Hg. by simplify_eq. Qed.

Lemma complete_connect_request_moves id action t t' :
  reasons t -> (action = Some VPN_CA_FORCE_BYPASS -> may) -> completable id t' -> moves t t' ->
  moves t (complete_connect_request env id action t').
Proof.
  intros Hr Ha Hid Hm. unfold complete_connect_request. destruct (get_by_client_id id t') as [[o c0]|] eqn:Hg; [|done].
  apply (completable_no_server_side _ _ _ _ Hid) in Hg as Hn. destruct (note_action _ _ _ _) as [a t1] eqn:E1.
  destruct (note_action_moves _ _ _ _ _ _ E1 Ha Hn Hm) as (Hm1 & Ha1 & Hn1). destruct a as [a|]; [|done].
  specialize (Hn1 ltac:(eauto)). destruct (connection o t1) as [c|]; [|done].
  destruct (select_upstream _ _ _ _) as [u t2] eqn:E2.
  pose proof (select_upstream_may _ _ _ _ _ _ E2 Hr Hm1 ltac:(naive_solver)) as Hu. apply select_upstream_quiet in E2.
  assert (moves t t2) as Hm2 by by eapply moves_quiet. case_match; [moving|].
  destruct (need_resolve_hostname _ _ _ _) as [resolve t3] eqn:E3. apply need_resolve_hostname_quiet in E3.
  assert (moves t t3) by by eapply moves_quiet. assert (no_server_side o t3) by by eapply quiet_no_server_side, quiet_no_server_side.
  destruct resolve; [by apply start_resolve_moves|by apply connect_upstream_moves].
Qed.

(** *** Resets and the session *)

Lemma reset_connections_uid_moves order uid t t' : moves t t' -> moves t (reset_connections_uid env order uid t').
Proof. intros Hm. unfold reset_connections_uid. moving. Qed.

Lemma reset_connections_listener_moves order l t t' : moves t t' -> moves t (reset_connections_listener env order l t').
Proof. intros Hm. unfold reset_connections_listener. moving. Qed.

Lemma reset_connection_moves id t t' : moves t t' -> moves t (reset_connection env id t').
Proof. intros Hm. unfold reset_connection. moving. Qed.

Lemma on_before_endpoint_disconnect_moves order u t t' : moves t t' -> moves t (on_before_endpoint_disconnect env order u t').
Proof. intros Hm. unfold on_before_endpoint_disconnect. cbv zeta. case_match; [done|]. before_assign. apply close_ids_moves. before_assign. moving. Qed.

Lemma on_after_endpoint_disconnect_moves order u t t' : moves t t' -> moves t (on_after_endpoint_disconnect env order u t').
Proof.
  intros Hm. unfold on_after_endpoint_disconnect. cbv zeta. set (t1 := fold_left _ order t').
  assert (moves t t1) by (apply fold_moves; [intros; moving|done]). clearbody t1. moving.
Qed.

Lemma on_exclusions_updated_moves names t t' : moves t t' -> moves t (on_exclusions_updated env names t').
Proof.
  intros Hm. unfold on_exclusions_updated. cbv zeta. before_assign. case_match; [|moving].
  apply fold_moves; [intros; moving|]. moving.
Qed.

(** *** Events of the upstreams *)

Lemma finish_migration_moves u l id o c t t' :
  connection o t' = Some c -> vc_state c = CONNS_WAITING_RESPONSE_MIGRATING -> moves t t' ->
  moves t (finish_migration env u l id o c t').
Proof.
  intros Hc Hs Hm. unfold finish_migration. destruct (get_by_client_id _ t') as [[src sc]|] eqn:Hg; [|moving]. cbv zeta.
  match goal with |- context [add_connection o ?x] => set (t1 := add_connection o x) end.
  assert (moves t t1) as Hm1.
  { eapply moves_move; [exact Hm|]. subst t1.
    refine (m_take_over t' o c src sc (if vc_proto c =? IPPROTO_UDP then vc_buffered_packets sc else vc_buffered_packets c)
      (fun s => s <| vc_buffered_packets := if vc_proto c =? IPPROTO_UDP then vc_buffered_packets c else vc_buffered_packets s |>)
      Hc Hs Hg _).
    split; intros; cbn in *; auto. }
  clearbody t1. moving.
Qed.

Lemma with_server_connection_moves u id otherwise k t t' :
  (forall t', moves t t' -> moves t (snd (otherwise t'))) ->
  (forall o c l, connection o t' = Some c -> moves t (snd (k o c l))) ->
  moves t t' -> moves t (snd (with_server_connection env u id otherwise k t')).
Proof.
  intros Ho Hk Hm. unfold with_server_connection. destruct (get_by_server_id id t') as [[o c]|] eqn:Hg; [|apply Ho; moving].
  apply get_by_server_connection in Hg. repeat case_match; try (apply Ho; moving). auto.
Qed.

Lemma server_connection_opened_moves u id t t' : moves t t' -> moves t (server_connection_opened env u id t').
Proof.
  intros Hm. unfold server_connection_opened. apply with_server_connection_moves; [intros; moving| |done].
  intros o c l Hc. destruct (vc_state c) eqn:Hs; cbn [snd]; try solve [moving]. by apply finish_migration_moves.
Qed.

Lemma server_connection_closed_moves id t t' : moves t t' -> moves t (server_connection_closed env id t').
Proof. intros Hm. unfold server_connection_closed. moving. Qed.

Lemma pass_to_client_moves u l o c data t t' : moves t t' -> moves t (snd (pass_to_client env u l o c data t')).
Proof. intros Hm. unfold pass_to_client. moving. Qed.
#[local] Hint Resolve pass_to_client_moves : moves.

Lemma server_read_moves u id data t t' : moves t t' -> moves t (snd (server_read env u id data t')).
Proof.
  intros Hm. unfold server_read. apply with_server_connection_moves; [intros; moving| |done].
  intros o c l Hc. destruct (CONNF_LOOKINGUP_DOMAIN _); [|moving].
  destruct (pass_through_domain_lookup _ _ _ _) as [action t1] eqn:E. eapply pass_through_domain_lookup_moves in E; [|done].
  destruct action; moving.
Qed.

Lemma server_data_sent_moves u id length t t' : moves t t' -> moves t (server_data_sent env u id length t').
Proof.
  intros Hm. unfold server_data_sent. case_match; [done|].
  apply with_server_connection_moves; [intros; moving| |done]. intros o c l Hc. moving.
Qed.

Lemma server_error_moves order u id code t t' : moves t t' -> moves t (server_error env order u id code t').
Proof. intros Hm. unfold server_error. moving. Qed.

Lemma process_icmp_reply_moves reply t t' : moves t t' -> moves t (process_icmp_reply env reply t').
Proof. intros Hm. unfold process_icmp_reply. moving. Qed.
#[local] Hint Resolve server_connection_opened_moves server_connection_closed_moves server_read_moves server_data_sent_moves
  server_error_moves process_icmp_reply_moves : moves.

Lemma upstream_handler_moves order u what t t' : moves t t' -> moves t (snd (upstream_handler env order u what t')).
Proof. intros Hm. unfold upstream_handler. destruct what; moving. Qed.

(** *** Events of the listeners *)

Lemma migrate_moves l o c u data t t' :
  (u = Some U_bypass -> may) -> moves t t' -> moves t (snd (migrate env l o c u data t')).
Proof.
  intros Hu Hm. unfold migrate. pose proof (initiate_connection_migration_moves o u data t t' Hu Hm) as Hm1.
  destruct (initiate_connection_migration _ _ _ _ _) as [r t1]. moving.
Qed.

Lemma reroute_moves l u o data t t' :
  may -> moves t t' -> moves t (snd (reroute env l u o data t')).
Proof.
  intros Hmay Hm. unfold reroute. cbv zeta.
  match goal with |- context [connection o ?x] => set (t1 := x) end.
  assert (moves t t1) as Hm1 by (apply moves_update; [split; intros; cbn in *; auto|done]). clearbody t1.
  destruct (connection o t1) as [c|]; [|moving].
  assert (moves t (report_connection_info env o (Some (der_domain (vc_extractor_result c))) t1)) as Hm2 by moving.
  case_match; [moving|]. destruct (select_upstream _ _ _ _) as [u' t2] eqn:E2. apply select_upstream_quiet in E2.
  assert (moves t t2) as Hm3 by by eapply moves_quiet.
  pose proof (migrate_moves l o c u' data t t2 (fun _ => Hmay) Hm3). destruct (migrate _ _ _ _ _ _ _) as [r t3]. moving.
Qed.

Lemma client_lookup_moves l u o c data t t' :
  reasons t -> moves t t' -> moves t (snd (client_lookup env l u o c data t')).
Proof.
  intros Hr Hm. unfold client_lookup. cbv zeta. destruct (pass_through_domain_lookup _ _ _ _) as [action t1] eqn:E.
  assert (action = TDLA_SHUTDOWN -> may) as Hx.
  { intros ->. eapply reasons_excused, pass_through_domain_lookup_excused; done. }
  eapply pass_through_domain_lookup_moves in E as Hm1; [|done]. clear E. destruct action; try solve [moving].
  destruct (reroute _ _ _ _ _ _) as [r t2] eqn:E. cbn [snd]. change t2 with (snd (r, t2)). rewrite <- E. apply reroute_moves; auto.
Qed.

Lemma pass_to_server_moves l u o c data t t' : moves t t' -> moves t (snd (pass_to_server env l u o c data t')).
Proof. intros Hm. unfold pass_to_server. moving. Qed.
#[local] Hint Resolve pass_to_server_moves : moves.

Lemma client_send_moves l u o c data t t' : moves t t' -> moves t (snd (client_send env l u o c data t')).
Proof.
  intros Hm. unfold client_send. destruct (vc_state c); try solve [moving]. case_match; [moving|].
  pose proof (send_buffered_data_moves (vc_client_id c) t t' Hm). destruct (send_buffered_data _ _ _) as [ok t1]. moving.
Qed.
#[local] Hint Resolve client_send_moves : moves.

Lemma client_read_moves l id data t t' : reasons t -> moves t t' -> moves t (snd (client_read env l id data t')).
Proof.
  intros Hr Hm. unfold client_read. destruct (get_by_client_id id t') as [[o c]|]; [|moving].
  destruct (lock_upstream env c) as [u|]; [|moving]. cbv zeta. set (t1 := do_health_check _ _ _ t').
  assert (moves t t1) as Hm1 by (subst t1; moving). clearbody t1.
  assert (moves t (snd (if CONNF_LOOKINGUP_DOMAIN (vc_flags c) then client_lookup env l u o c data t1 else (None, t1)))) as Hm2
    by (case_match; [by apply client_lookup_moves|done]).
  destruct (if CONNF_LOOKINGUP_DOMAIN _ then _ else _) as [done2 t2]. cbn [snd] in Hm2. destruct done2; [done|].
  destruct (connection o t2) as [c2|]; [|moving]. case_match; [|moving].
  destruct (select_upstream _ _ _ _) as [u' t3] eqn:E.
  match type of E with select_upstream _ _ _ ?x = _ => assert (moves t x) as Hm3 by moving end.
  pose proof (select_upstream_may _ _ _ _ _ _ E Hr Hm3 ltac:(done)) as Hu. apply select_upstream_quiet in E.
  assert (moves t t3) as Hm4 by by eapply moves_quiet.
  match goal with |- context [migrate env l o ?c3 u' data t3] => pose proof (migrate_moves l o c3 u' data t t3 Hu Hm4) as Hm5;
    destruct (migrate env l o c3 u' data t3) as [r t4] end.
  done.
Qed.

Lemma client_connection_accepted_moves l id t t' : moves t t' -> moves t (client_connection_accepted env l id t').
Proof. intros Hm. unfold client_connection_accepted. moving. Qed.

Lemma client_connection_closed_moves id t t' : moves t t' -> moves t (client_connection_closed env id t').
Proof. intros Hm. unfold client_connection_closed. moving. Qed.

Lemma client_data_sent_moves l id length t t' : moves t t' -> moves t (client_data_sent env l id length t').
Proof. intros Hm. unfold client_data_sent. moving. Qed.
#[local] Hint Resolve client_connection_accepted_moves client_connection_closed_moves client_data_sent_moves : moves.

Lemma client_icmp_echo_request_moves request t t' :
  reasons t -> moves t t' -> moves t (snd (client_icmp_echo_request env request t')).
Proof.
  intros Hr Hm. unfold client_icmp_echo_request. case_match; [done|].
  destruct (IcmpManager.register_request _ _ _) as [status m]. cbv zeta.
  match goal with |- context [filter_match_tag _ _ ?x] => set (t1 := x) end.
  assert (moves t t1) as Hm1 by (subst t1; moving). clearbody t1. destruct status; [|done].
  destruct (filter_match_tag _ _ _) as [result t2] eqn:E1. pose proof (filter_match_tag_excused _ _ _ _ E1) as Hx.
  apply filter_match_tag_quiet in E1. assert (moves t t2) as Hm2 by by eapply moves_quiet.
  destruct (select_upstream _ _ _ _) as [u t3] eqn:E2.
  pose proof (select_upstream_may _ _ _ _ _ _ E2 Hr Hm2) as Hu. apply select_upstream_quiet in E2.
  assert (moves t t3) as Hm3 by by eapply moves_quiet. destruct u as [u|]; [|done]. cbn [snd]. apply do_health_check_moves.
  destruct (decide (u = U_bypass)) as [->|Hn]; [|apply moves_emit; [by destruct u|done]].
  eapply moves_move, m_past; [done|done|]. apply Hu; [|done]. intros Ha. destruct (mr_status result); try done.
  by eapply reasons_excused; [..|apply Hx].
Qed.

(** A request that a listener or its address sends past the endpoint. *)
Definition bypass_request (dst : TunnelAddress) (dns_handler_bypass : bool) : bool :=
  dns_handler_bypass || match dst with TA_address a => te_is_loopback env a | TA_name _ _ => false end.

Lemma connection_allocate c o t t1 : allocate c t = (o, t1) -> connection o t1 = Some c.
Proof. intros [= <- <-]. unfold connection. cbn -[lookup insert]. by rewrite lookup_insert_eq. Qed.

Lemma add_connection_same_object o o' t : connection o' (add_connection o t) = connection o' t.
Proof. unfold add_connection. by repeat case_match. Qed.

Lemma client_connect_request_moves l id protocol src dst app_name bypass t :
  reasons t -> (bypass_request dst bypass = true -> may) ->
  t_by_client_id t !! NON_ID = None ->
  moves t (client_connect_request env l id protocol src dst app_name bypass t).
Proof.
  intros Hr Hb Hnon. unfold client_connect_request. destruct (negb _); [moving|]. cbv zeta.
  match goal with |- context [allocate ?c t] => set (conn := c) end.
  destruct (allocate conn t) as [o t1] eqn:E.
  assert (moves t t1) as Hm1 by (eapply moves_allocate; [done|apply moves_refl|done..]).
  assert (moves t (add_connection o t1)) as Hm2 by by apply moves_add.
  assert (completable id (add_connection o t1)) as Hc.
  { pose proof (connection_allocate _ _ _ _ E) as Hconn. injection E as <- <-.
    unfold completable, get_by_client_id, add_connection. rewrite Hconn.
    change (vc_client_id conn) with id. change (vc_server_id conn) with NON_ID. cbn -[lookup insert connection].
    destruct (decide (id = NON_ID)) as [->|Hid].
    - rewrite Z.eqb_refl. cbn -[lookup insert connection]. by rewrite Hnon.
    - rewrite (proj2 (Z.eqb_neq _ _) Hid). cbn -[lookup insert connection]. rewrite lookup_insert_eq. cbn -[connection].
      unfold connection in *. cbn -[lookup insert] in *. by rewrite Hconn. }
  assert (forall a, (a = Some VPN_CA_FORCE_BYPASS -> may) -> moves t (complete_connect_request env id a (add_connection o t1))) as Hcomp.
  { intros. by apply complete_connect_request_moves. }
  unfold bypass_request in Hb. destruct (bool_decide (Some l = dns_resolver_listener _)); [by apply Hcomp|].
  destruct (bool_decide (Some l = dns_proxy_listener _)); [by apply Hcomp|].
  destruct (bool_decide (Some l = dns_handler_listener _)); [apply Hcomp; destruct bypass; [auto|done]|].
  destruct (negb _ && _) eqn:Hl; [|moving].
  apply Hcomp. intros _. apply Hb. apply andb_true_iff in Hl as [_ Hl]. rewrite Hl. by destruct bypass.
Qed.

Definition listener_asks (what : ClientEvent) : bool :=
  match what with
  | CLIENT_EVENT_CONNECT_REQUEST _ _ _ dst _ dns_handler_bypass => bypass_request dst dns_handler_bypass
  | _ => false
  end.

Lemma listener_handler_moves l what t :
  reasons t -> (listener_asks what = true -> may) -> t_by_client_id t !! NON_ID = None ->
  moves t (snd (listener_handler env l what t)).
Proof.
  intros Hr Ha Hn. unfold listener_handler. destruct what; cbn [snd]; try solve [moving].
  - by apply client_connect_request_moves.
  - apply client_read_moves; [done|moving].
  - apply client_icmp_echo_request_moves; [done|moving].
Qed.

(** *** The step *)

Lemma clean_connection_table_moves lookup order t t' : moves t t' -> moves t (clean_connection_table env lookup order t').
Proof. intros Hm. apply fold_moves; [|done]. intros. moving. Qed.

Lemma deinit_moves by_client by_server t : moves t (deinit env by_client by_server t).
Proof.
  unfold deinit. cbv zeta. set (t1 := clean_connection_table _ _ by_server _).
  assert (moves t t1) as Hm1 by (subst t1; do 2 apply clean_connection_table_moves; moving). clearbody t1.
  set (t2 := if t_dns_resolver t1 then _ else _). assert (moves t t2) as Hm2 by (subst t2; moving). clearbody t2.
  set (t3 := t2 <| t_repeat_exclusions_resolve_task := false |>). assert (moves t t3) as Hm3 by (subst t3; moving). clearbody t3.
  set (t4 := if t_fake_upstream t3 then _ else _). assert (moves t t4) as Hm4 by (subst t4; moving). clearbody t4.
  set (t5 := t4 <| t_icmp_manager := _ |>). assert (moves t t5) as Hm5 by (subst t5; moving).
  change (t_statistics_monitor t4) with (t_statistics_monitor t5). clearbody t5. moving.
Qed.

(** What an input asks of the tunnel: to send something past the endpoint. *)
Definition asks_bypass (i : TunnelInput) : bool :=
  match i with
  | I_listener _ what => listener_asks what
  | I_finalize request => bool_decide (action request = Some VPN_CA_FORCE_BYPASS)
  | I_complete _ action => bool_decide (action = Some VPN_CA_FORCE_BYPASS)
  | _ => false
  end.

(** The client completes a request once. *)
Definition input_ok (i : TunnelInput) t : Prop := match i with I_complete id _ => completable id t | _ => True end.

Definition sets_clock (i : TunnelInput) : bool := match i with I_sleep | I_wake => true | _ => false end.

Lemma tunnel_step_moves order i t :
  reasons t -> (asks_bypass i = true -> may) -> input_ok i t -> sets_clock i = false ->
  t_by_client_id t !! NON_ID = None ->
  (forall o c, connection o t = Some c -> early (vc_state c) = true -> vc_server_id c = NON_ID) ->
  moves t (tunnel_step env order i t).
Proof.
  intros Hr Ha Hok Hc Hn He. pose proof (moves_refl t) as Hm. destruct i; cbn [tunnel_step asks_bypass] in *; try done.
  - by apply upstream_handler_moves.
  - by apply listener_handler_moves.
  - apply finalize_connect_action_moves; [done|]. intros E. apply Ha. by apply bool_decide_eq_true.
  - apply complete_connect_request_moves; try done. intros E. apply Ha. by apply bool_decide_eq_true.
  - by apply complete_connect_request_task_moves.
  - by apply send_buffered_data_moves.
  - by apply on_destination_resolve_result_moves.
  - by apply reset_connections_uid_moves.
  - by apply reset_connections_listener_moves.
  - by apply reset_connection_moves.
  - by apply on_before_endpoint_disconnect_moves.
  - by apply on_after_endpoint_disconnect_moves.
  - by apply on_exclusions_updated_moves.
  - by apply process_icmp_reply_moves.
  - unfold update_dns_handler_parameters. moving.
  - unfold on_network_change. moving.
  - apply deinit_moves.
Qed.
End Moves.
