(* ===== verification/TunnelInvariant.v ===== *)
(** * The tables of the tunnel, traffic past the endpoint, and health checks

    Invariants of every run of the tunnel, checked on its moves ([TunnelMoves.v]). *)

From stdpp Require Import gmap relations.
From S2P Require Import Prelude VpnTypes PortRanges Wire View DomainFilter DomainFilterProofs Tls Quic DomainExtractor Statistics Icmp Tunnel TunnelMoves.

Section Invariant.
Context `{FilterLib} `{CertLib} `{QuicCrypto} `{QuicHeaders} {TC SC HC : Type}.
Context `{LruTimeoutCache TC SockAddrTag text} `{LruTimeoutCache SC SocketAddress Z}.
Context `{LruTimeoutCache HC TunnelAddressPair DomainExtractorResult}.
Implicit Types t : Tunnel TC SC HC.

(** ** The tables *)

(** An entry of a table points to a live object that has the id of the entry. *)
Record Tables t : Prop := mkTables {
  tb_client id o : t_by_client_id t !! id = Some o ->
    exists c, connection o t = Some c /\ vc_client_id c = id /\ id <> NON_ID;
  tb_server id o : t_by_server_id t !! id = Some o ->
    exists c, connection o t = Some c /\ vc_server_id c = id /\ id <> NON_ID;
  tb_allocated o c : connection o t = Some c -> o < t_next_object t;
  tb_migrating o c : connection o t = Some c -> vc_state c = CONNS_WAITING_RESPONSE_MIGRATING -> vc_client_id c = NON_ID;
  tb_early o c : connection o t = Some c -> early (vc_state c) = true -> vc_server_id c = NON_ID;
}.

Lemma tables_no_client t : Tables t -> t_by_client_id t !! NON_ID = None.
Proof. intros Ht. destruct (t_by_client_id t !! NON_ID) eqn:E; [|done]. apply (tb_client _ Ht) in E. naive_solver. Qed.

Lemma tables_same t t' : same_tables t t' -> Tables t -> Tables t'.
Proof.
  intros (Eh & En & Ec & Es) [Hc Hs Ha Hm He]. split; unfold connection in *; rewrite ?Eh, ?En, ?Ec, ?Es; eauto.
Qed.

(** An object after an assignment to it. *)
Lemma connection_update o f o' t :
  connection o' (update o f t) = if decide (o' = o) then f <$> connection o t else connection o' t.
Proof.
  unfold connection, update. cbn -[lookup alter]. destruct (decide (o' = o)) as [->|]; [apply lookup_alter_eq|by apply lookup_alter_ne].
Qed.

(** An assignment keeps the tables if it keeps the ids of an object that is in them. *)
Lemma tables_update o f t :
  Tables t ->
  (forall c, connection o t = Some c ->
     vc_client_id (f c) = vc_client_id c /\
     (vc_server_id (f c) = vc_server_id c \/ vc_server_id c = NON_ID) /\
     (vc_state (f c) = CONNS_WAITING_RESPONSE_MIGRATING -> vc_client_id c = NON_ID) /\
     (early (vc_state (f c)) = true -> vc_server_id (f c) = NON_ID)) ->
  Tables (update o f t).
Proof.
  intros [Hc Hs Ha Hm He] Hf. split.
  - intros id o' E. destruct (Hc id o' E) as (c & Ec & Ei & En). rewrite connection_update. destruct (decide _) as [->|]; [|eauto].
    rewrite Ec. destruct (Hf c Ec) as [Ef _]. exists (f c). rewrite Ef. eauto.
  - intros id o' E. destruct (Hs id o' E) as (c & Ec & Ei & En). rewrite connection_update. destruct (decide _) as [->|]; [|eauto].
    rewrite Ec. destruct (Hf c Ec) as (_ & [Ef|Ef] & _); [|congruence]. exists (f c). rewrite Ef. eauto.
  - intros o' c. rewrite connection_update. destruct (decide _) as [->|]; [|eauto].
    destruct (connection o t) eqn:E; [|done]. intros _. by apply (Ha _ _ E).
  - intros o' c. rewrite connection_update. destruct (decide _) as [->|]; [|eauto].
    destruct (connection o t) as [c0|] eqn:E; [|done]. cbn. intros [= <-]. destruct (Hf c0 eq_refl) as (-> & _ & Hmig & _). auto.
  - intros o' c. rewrite connection_update. destruct (decide _) as [->|]; [|eauto].
    destruct (connection o t) as [c0|] eqn:E; [|done]. cbn. intros [= <-]. destruct (Hf c0 eq_refl) as (_ & _ & _ & Hear). auto.
Qed.

Lemma tables_add o t : Tables t -> Tables (add_connection o t).
Proof.
  intros Ht. unfold add_connection. destruct (connection o t) as [c|] eqn:Ec; [|by eapply tables_same, Ht].
  cbv zeta. set (t1 := if (_ && _) then _ else t).
  assert (Tables t1) as Ht1 by (subst t1; case_match; by eapply tables_same, Ht).
  assert (connection o t1 = Some c) as Ec1 by (subst t1; by case_match). clearbody t1. clear Ht Ec.
  set (t2 := if vc_client_id c =? NON_ID then _ else _).
  assert (Tables t2 /\ connection o t2 = Some c) as [Ht2 Ec2].
  { subst t2. destruct (_ =? NON_ID) eqn:En; bool_to_prop; [done|]. split; [|done]. destruct Ht1 as [Hc Hs Ha Hm He].
    split; unfold connection in *; cbn -[lookup insert]; eauto. intros id o'.
    intros [[<- <-]|[Hne E]]%lookup_insert_Some; eauto. }
  clearbody t2. clear Ht1 Ec1. destruct (_ =? NON_ID) eqn:En; bool_to_prop; [done|]. destruct Ht2 as [Hc Hs Ha Hm He].
  split; unfold connection in *; cbn -[lookup insert]; eauto. intros id o'. intros [[<- <-]|[Hne E]]%lookup_insert_Some; eauto.
Qed.

Lemma tables_destroy o c t :
  connection o t = Some c -> Tables t ->
  Tables (remove_server_id (vc_server_id c) (remove_client_id (vc_client_id c) t) <| t_heap := delete o (t_heap t) |>).
Proof.
  intros Ec [Hc Hs Ha Hm He]. split; unfold connection in *; cbn -[lookup delete].
  - intros id o' [Hne E]%lookup_delete_Some. destruct (Hc id o' E) as (c' & Ec' & Ei & En).
    rewrite lookup_delete_ne; [eauto|]. intros <-. congruence.
  - intros id o' [Hne E]%lookup_delete_Some. destruct (Hs id o' E) as (c' & Ec' & Ei & En).
    rewrite lookup_delete_ne; [eauto|]. intros <-. congruence.
  - intros o' c' [_ E]%lookup_delete_Some. eauto.
  - intros o' c' [_ E]%lookup_delete_Some. eauto.
  - intros o' c' [_ E]%lookup_delete_Some. eauto.
Qed.

Lemma connection_allocated c o t : connection o (snd (allocate c t)) = if decide (o = t_next_object t) then Some c else connection o t.
Proof.
  unfold connection, allocate. cbn -[lookup insert]. destruct (decide _) as [->|]; [apply lookup_insert_eq|by apply lookup_insert_ne].
Qed.

Lemma tables_allocate c t :
  (vc_state c = CONNS_WAITING_RESPONSE_MIGRATING -> vc_client_id c = NON_ID) ->
  (early (vc_state c) = true -> vc_server_id c = NON_ID) -> Tables t -> Tables (snd (allocate c t)).
Proof.
  intros Hcm Hce [Hc Hs Ha Hm He].
  assert (forall o c', connection o t = Some c' -> connection o (snd (allocate c t)) = Some c') as Hold.
  { intros o c' E. rewrite connection_allocated, decide_False; [done|]. apply Ha in E. lia. }
  split.
  - intros id o E. destruct (Hc id o E) as (c' & Ec & Hi). eauto.
  - intros id o E. destruct (Hs id o E) as (c' & Ec & Hi). eauto.
  - intros o c'. rewrite connection_allocated. cbn. destruct (decide _) as [->|]; [lia|]. intros E. apply Ha in E. lia.
  - intros o c'. rewrite connection_allocated. destruct (decide _) as [->|]; [|eauto]. by intros [= <-].
  - intros o c'. rewrite connection_allocated. destruct (decide _) as [->|]; [|eauto]. by intros [= <-].
Qed.

Lemma get_by_client_table id t o c : get_by_client_id id t = Some (o, c) -> t_by_client_id t !! id = Some o /\ connection o t = Some c.
Proof. unfold get_by_client_id. intros. by simplify_option_eq. Qed.

(** The replacement takes the entry of the migrating connection over. *)
Lemma tables_take_over t o c src sc f g :
  connection o t = Some c -> vc_state c = CONNS_WAITING_RESPONSE_MIGRATING ->
  get_by_client_id (vc_migrating_client_id c) t = Some (src, sc) ->
  (forall s, vc_server_id (f s) = vc_server_id s /\ vc_client_id (f s) = vc_client_id c /\
     (vc_state (f s) = CONNS_WAITING_RESPONSE_MIGRATING -> vc_state s = CONNS_WAITING_RESPONSE_MIGRATING) /\
     (early (vc_state (f s)) = true -> vc_state (f s) = vc_state s)) ->
  (forall s, vc_server_id (g s) = vc_server_id s /\ vc_client_id (g s) = vc_client_id sc /\ vc_state (g s) = CONNS_CONNECTED) ->
  Tables t -> Tables (add_connection o (update o g (update src f t))).
Proof.
  intros Ec Hst Hg Hf Hgg Ht. apply get_by_client_table in Hg as [Esrc Esc]. pose proof Ht as [Hc Hs Ha Hm He].
  destruct (Hc _ _ Esrc) as (sc' & Esc' & Hid & Hnon). assert (sc' = sc) as -> by congruence. clear Esc'.
  pose proof (Hm _ _ Ec Hst) as Hcn. assert (src <> o) as Hne by (intros ->; congruence).
  set (t1 := update o g (update src f t)).
  assert (connection o t1 = Some (g c)) as Eo.
  { subst t1. rewrite connection_update, decide_True, connection_update, decide_False by done. by rewrite Ec. }
  assert (forall o', o' <> o -> o' <> src -> connection o' t1 = connection o' t) as Eother.
  { intros o' H1' H2'. subst t1. by rewrite !connection_update, !decide_False. }
  assert (connection src t1 = Some (f sc)) as Es.
  { subst t1. rewrite connection_update, decide_False, connection_update, decide_True by done. by rewrite Esc. }
  destruct (Hf sc) as (Hfs & Hfc & Hfm & Hfe). destruct (Hgg c) as (Hgs & Hgc & Hgst).
  set (t2 := t1 <| t_by_client_id := <[vc_client_id sc := o]> (t_by_client_id t1) |>).
  assert (Tables t2) as Ht2.
  { subst t2. split; change (connection ?o' (t1 <| t_by_client_id := _ |>)) with (connection o' t1); cbn -[lookup insert t1].
    - intros id o' [[<- <-]|[Hid' E]]%lookup_insert_Some; [exists (g c); rewrite Hgc, Hid; naive_solver congruence|].
      destruct (Hc _ _ E) as (c' & Ec' & Hi & Hn). rewrite Eother; [eauto|..]; intros ->; congruence.
    - intros id o' E. destruct (Hs _ _ E) as (c' & Ec' & Hi & Hn). destruct (decide (o' = o)) as [->|]; [exists (g c); naive_solver congruence|].
      destruct (decide (o' = src)) as [->|]; [exists (f sc); naive_solver congruence|]. rewrite Eother by done. eauto.
    - intros o' c'. destruct (decide (o' = o)) as [->|]; [intros _; by apply (Ha _ _ Ec)|].
      destruct (decide (o' = src)) as [->|]; [intros _; by apply (Ha _ _ Esc)|]. rewrite Eother by done. apply Ha.
    - intros o' c'. destruct (decide (o' = o)) as [->|]; [rewrite Eo; intros [= <-]; congruence|].
      destruct (decide (o' = src)) as [->|]; [rewrite Es; intros [= <-]; congruence|]. rewrite Eother by done. apply Hm.
    - intros o' c'. destruct (decide (o' = o)) as [->|]; [rewrite Eo; intros [= <-]; rewrite Hgst; done|].
      destruct (decide (o' = src)) as [->|]; [rewrite Es; intros [= <-] Hx|rewrite Eother by done; apply He].
      rewrite Hfs. apply (He _ _ Esc). by rewrite <- Hfe. }
  pose proof (tables_add o t2 Ht2) as Ht3.
  assert (connection o t2 = Some (g c)) as Eo2 by exact Eo. clearbody t1.
  revert Ht3. subst t2. unfold add_connection. rewrite Eo, Eo2, Hgc, Hid, (proj2 (Z.eqb_neq _ _) Hnon).
  cbn -[lookup insert]. intros Ht3. eapply tables_same, Ht3. case_match; split_and!; cbn -[insert]; rewrite ?insert_insert_eq; done.
Qed.

Lemma alter_twice {A} (f g : A -> A) (k : Z) (m : gmap Z A) : alter g k (alter f k m) = alter (fun x => g (f x)) k m.
Proof.
  apply map_eq. intros i. destruct (decide (i = k)) as [->|]; [|by rewrite !lookup_alter_ne].
  rewrite !lookup_alter_eq. by destruct (m !! k).
Qed.

Lemma move_tables env may t t' : move env may t t' -> Tables t -> Tables t'.
Proof.
  intros Hmove Ht. destruct Hmove.
  - by eapply tables_same, Ht; apply quiet_tables.
  - by eapply tables_same, Ht.
  - by eapply tables_same, Ht.
  - apply tables_update; [done|]. intros c Ec. match goal with Hb : benign _ _ |- _ => destruct Hb as [B1 B2 B3 B4 _ _] end. rewrite B1, B2. split_and!; [done|by left| |].
    + intros Hs. eapply tb_migrating; [done..|auto].
    + intros Hs. eapply tb_early; eauto. by rewrite <- B4.
  - apply tables_update; [done|]. intros c Ec. cbn. split_and!; [done|right; auto| |done]. intros Hs. eapply tb_migrating; [done..|auto].
  - unfold set_state. set (t1 := update o _ t).
    assert (Tables (update o (fun c => c <| vc_server_id := id |> <| vc_state := CONNS_WAITING_RESPONSE |>) t)) as Ht1.
    { apply tables_update; [done|]. intros c Ec. cbn. split_and!; [done|right; auto|done..]. }
    eapply tables_same, Ht1. subst t1. unfold update. split_and!; [|done..]. cbn -[alter]. by rewrite alter_twice.
  - apply tables_update; [done|]. intros c Ec. cbn. split_and!; [done|by left|done|auto].
  - by apply tables_allocate.
  - by apply tables_add.
  - destruct Ht as [Hc Hs Ha Hm He]. split; unfold connection in *; cbn -[lookup delete]; eauto. intros id' o' [_ E]%lookup_delete_Some. eauto.
  - destruct Ht as [Hc Hs Ha Hm He]. split; unfold connection in *; cbn -[lookup delete]; eauto. intros id' o' [_ E]%lookup_delete_Some. eauto.
  - by apply tables_destroy.
  - eapply tables_take_over; try done. intros s. cbn. match goal with Hb : benign _ _ |- _ => destruct Hb as [B1 B2 B3 B4 _ _] end. rewrite B2. auto 10.
Qed.

Lemma moves_tables env may t t' : moves env may t t' -> Tables t -> Tables t'.
Proof. induction 1; eauto using move_tables. Qed.

Lemma reasons_true t : reasons True t.
Proof. done. Qed.

Lemma step_tables env order i t : Tables t -> input_ok i t -> Tables (tunnel_step env order i t).
Proof.
  intros Ht Hok. destruct (sets_clock i) eqn:Hc.
  - destruct i; try done; cbn [tunnel_step]; eapply tables_same, Ht; unfold handle_sleep, handle_wake, do_health_check; by repeat case_match.
  - eapply (moves_tables env True); [|done]. apply tunnel_step_moves; [apply reasons_true|done|done|done|by apply tables_no_client|].
    intros. by eapply tb_early.
Qed.

(** ** Runs *)

(** The states a tunnel gets to: it is made and initialized, and then takes inputs in any order,
    with any answers of the other parts. *)
Inductive reachable : Tunnel TC SC HC -> Prop :=
| reach_init env a by_client by_server id filter cache :
    reachable (snd (init env a by_client by_server (tunnel_new id filter cache)))
| reach_step env order i t : reachable t -> input_ok i t -> reachable (tunnel_step env order i t).

Lemma new_tables id filter cache : Tables (tunnel_new id filter cache : Tunnel TC SC HC).
Proof. by split. Qed.

Lemma tables_fault what t : Tables t -> Tables (fault what t).
Proof. intros Ht. by eapply tables_same, Ht. Qed.

Lemma init_tables env a by_client by_server t : Tables t -> Tables (snd (init env a by_client by_server t)).
Proof.
  intros Ht. unfold init. cbv zeta.
  assert (forall t', same_tables t t' -> Tables (fault "failed to initialize" (deinit env by_client by_server t'))) as Hd.
  { intros t' Hs. apply tables_fault. eapply (moves_tables env True); [apply deinit_moves|]. by eapply tables_same. }
  repeat case_match; cbn [snd]; first [done | by apply Hd | by eapply tables_same, Ht].
Qed.

Lemma reachable_tables t : reachable t -> Tables t.
Proof. induction 1; [by apply init_tables, new_tables|by apply step_tables]. Qed.

(** C8. No table entry of the tunnel outlives its connection: whatever the events of the
    upstreams, the listeners, the resolver and the client and whatever they answer, as long
    as the client completes a request once, every entry of the two tables points to a live
    connection that has the id of the entry, and no entry has the reserved id. *)
Theorem tables_never_dangle t :
  reachable t ->
  (forall id o, t_by_client_id t !! id = Some o -> exists c, t_heap t !! o = Some c /\ vc_client_id c = id /\ id <> NON_ID) /\
  (forall id o, t_by_server_id t !! id = Some o -> exists c, t_heap t !! o = Some c /\ vc_server_id c = id /\ id <> NON_ID).
Proof. intros Hr. destruct (reachable_tables t Hr) as [Hc Hs _ _ _]. done. Qed.

(** ** Traffic past the endpoint *)

(** Nothing sends traffic past the endpoint: the mode is the general one, the list of exclusions
    excludes nothing, and no connection was told to go past it. *)
Record Private t : Prop := mkPrivate {
  pr_rules : ~ excused t;
  pr_flags o c : connection o t = Some c -> CONNF_FORCIBLY_BYPASSED (vc_flags c) = false;
  pr_actions o c : connection o t = Some c -> vc_action c <> Some VPN_CA_FORCE_BYPASS;
}.

Lemma private_same t t' : t_heap t' = t_heap t -> same_rules t t' -> Private t -> Private t'.
Proof.
  intros Eh Hr [Hx Hf Ha]. split; unfold connection in *; rewrite ?Eh; eauto. intros Hx'. by eapply Hx, rules_excused.
Qed.

Lemma private_heap t t' :
  same_rules t t' -> Private t ->
  (forall o c', connection o t' = Some c' ->
     CONNF_FORCIBLY_BYPASSED (vc_flags c') = false /\ vc_action c' <> Some VPN_CA_FORCE_BYPASS) -> Private t'.
Proof. intros Hr [Hx Hf Ha] Hall. split; [|intros; by eapply Hall..]. intros Hx'. by eapply Hx, rules_excused. Qed.

Lemma private_update o f t :
  Private t -> (forall c, connection o t = Some c ->
    CONNF_FORCIBLY_BYPASSED (vc_flags (f c)) = false /\ vc_action (f c) <> Some VPN_CA_FORCE_BYPASS) -> Private (update o f t).
Proof.
  intros Hp Hf. apply (private_heap t); [done|exact Hp|]. intros o' c'. rewrite connection_update. destruct (decide _) as [->|].
  - destruct (connection o t) as [c|] eqn:E; [|done]. cbn. intros [= <-]. auto.
  - intros E. split; [by eapply pr_flags|by eapply pr_actions].
Qed.

Lemma private_benign o f t : benign False f -> Private t -> Private (update o f t).
Proof.
  intros [_ _ _ _ Hf Ha] Hp. apply private_update; [done|]. intros c Ec. split.
  - apply not_true_iff_false. intros Hx. apply Hf in Hx as [Hx|[]]. by rewrite (pr_flags _ Hp _ _ Ec) in Hx.
  - intros Hx. apply Ha in Hx as [Hx|[]]. by eapply pr_actions.
Qed.

Lemma private_add o t : Private t -> Private (add_connection o t).
Proof.
  intros Hp. apply (private_heap t); [|exact Hp|].
  - unfold add_connection. by repeat case_match.
  - intros o' c'. rewrite add_connection_same_object. intros E. split; [by eapply pr_flags|by eapply pr_actions].
Qed.

Lemma private_keeps o f t :
  (forall c, vc_flags (f c) = vc_flags c /\ vc_action (f c) = vc_action c) -> Private t -> Private (update o f t).
Proof.
  intros Hf Hp. apply private_update; [done|]. intros c Ec. destruct (Hf c) as [-> ->].
  split; [by eapply pr_flags|by eapply pr_actions].
Qed.

Lemma move_private env t t' : move env False t t' -> Private t -> Private t'.
Proof.
  intros Hmove Hp. destruct Hmove; try done; try solve [by eapply private_same, Hp | by apply private_keeps | by apply private_benign].
  - eapply private_same, Hp; [by apply quiet_tables|by apply quiet_rules].
  - apply private_keeps; [done|]. by apply private_keeps.
  - apply (private_heap t); [done|exact Hp|]. intros o c'. rewrite connection_allocated. destruct (decide _).
    + intros [= <-]. by split; [|congruence].
    + intros E. split; [by eapply pr_flags|by eapply pr_actions].
  - by apply private_add.
  - apply (private_heap t); [done|exact Hp|]. unfold connection. cbn -[lookup delete]. intros o' c' [_ E]%lookup_delete_Some.
    split; [by eapply pr_flags|by eapply pr_actions].
  - apply private_add, private_keeps; [done|].
    apply private_update; [done|]. intros c0 Ec0. cbn.
    match goal with Hb : benign _ _ |- _ => destruct Hb as [_ _ _ _ Hf Ha] end. split.
    + apply not_true_iff_false. intros Hx. apply Hf in Hx as [Hx|[]]. by rewrite (pr_flags _ Hp _ _ Ec0) in Hx.
    + intros Hx. apply Ha in Hx as [Hx|[]]. by eapply pr_actions.
Qed.

(** A move without a reason sends nothing past the endpoint. *)
Lemma move_kept_in env t t' : move env False t t' ->
  exists outs, t_out t' = t_out t ++ outs /\ forallb (fun out => negb (goes_past out)) outs = true.
Proof.
  assert (forall out, innocent out = true -> negb (goes_past out) = true) as Hi by (intros []; try done; by destruct u).
  destruct 1; try (by exists []; rewrite app_nil_r); try done.
  - match goal with Hq : quiet _ _ |- _ => destruct (quiet_out _ _ Hq) as (outs & E & Hin) end. exists outs. split; [done|].
    rewrite forallb_forall in *. auto.
  - by eexists [_].
  - exists []. rewrite app_nil_r. unfold add_connection. by repeat case_match.
  - exists []. rewrite app_nil_r. unfold add_connection. by repeat case_match.
Qed.

Lemma moves_kept_in env t t' : moves env False t t' -> Private t ->
  Private t' /\ exists outs, t_out t' = t_out t ++ outs /\ forallb (fun out => negb (goes_past out)) outs = true.
Proof.
  induction 1 as [t|t t1 t2 Hmove _ IH]; intros Hp; [split; [done|]; exists []; by rewrite app_nil_r|].
  destruct (move_kept_in _ _ _ Hmove) as (o1 & E1 & F1). destruct IH as (Hp2 & o2 & E2 & F2); [by eapply move_private|].
  split; [done|]. exists (o1 ++ o2). by rewrite E2, E1, app_assoc, forallb_app, F1.
Qed.

Lemma private_reasons t : Private t -> reasons False t.
Proof. intros Hp. split; [by apply pr_rules|]. intros o c Ec. by rewrite (pr_flags _ Hp _ _ Ec). Qed.

Lemma step_kept_in env order i t :
  Tables t -> Private t -> input_ok i t -> asks_bypass env i = false ->
  Private (tunnel_step env order i t) /\
  exists outs, t_out (tunnel_step env order i t) = t_out t ++ outs /\ forallb (fun out => negb (goes_past out)) outs = true.
Proof.
  intros Ht Hp Hok Ha. destruct (sets_clock i) eqn:Hc.
  - split.
    + destruct i; try done; cbn [tunnel_step]; eapply private_same, Hp; unfold handle_sleep, handle_wake, do_health_check; by repeat case_match.
    + destruct i; try done; cbn [tunnel_step]; unfold handle_sleep, handle_wake, do_health_check; repeat case_match;
        first [by exists []; rewrite app_nil_r | by eexists [_]].
  - apply moves_kept_in with env; [|done]. apply tunnel_step_moves; [by apply private_reasons|by rewrite Ha|done|done| |].
    + by apply tables_no_client.
    + intros. by eapply tb_early.
Qed.

(** A run: the answers, the order of the table and the input of each step. *)
Fixpoint tunnel_run (steps : list (TunnelEnv * list Z * TunnelInput)) t : Tunnel TC SC HC :=
  match steps with
  | [] => t
  | (env, order, i) :: steps => tunnel_run steps (tunnel_step env order i t)
  end.

(** Each request is completed once, and none of the inputs asks to go past the endpoint. *)
Fixpoint modest (steps : list (TunnelEnv * list Z * TunnelInput)) t : Prop :=
  match steps with
  | [] => True
  | (env, order, i) :: steps => input_ok i t /\ asks_bypass env i = false /\ modest steps (tunnel_step env order i t)
  end.

Lemma tunnel_run_reachable steps : forall t, reachable t -> modest steps t -> reachable (tunnel_run steps t).
Proof.
  induction steps as [|[[env order] i] steps IH]; intros t Hr Hm; [done|]. destruct Hm as (Hok & _ & Hm). cbn.
  apply IH; [by apply reach_step|done].
Qed.

Lemma run_kept_in steps : forall t, Tables t -> Private t -> modest steps t ->
  Private (tunnel_run steps t) /\
  exists outs, t_out (tunnel_run steps t) = t_out t ++ outs /\ forallb (fun out => negb (goes_past out)) outs = true.
Proof.
  induction steps as [|[[env order] i] steps IH]; intros t Ht Hp Hm; cbn; [split; [done|]; exists []; by rewrite app_nil_r|].
  destruct Hm as (Hok & Ha & Hm). destruct (step_kept_in env order i t Ht Hp Hok Ha) as (Hp1 & o1 & E1 & F1).
  destruct (IH _ (step_tables _ _ _ _ Ht Hok) Hp1 Hm) as (Hp2 & o2 & E2 & F2). split; [done|].
  exists (o1 ++ o2). by rewrite E2, E1, app_assoc, forallb_app, F1.
Qed.

(** C3. Nothing leaks past the VPN endpoint.  In the general mode with nothing excluded,
    from a state where no connection was told to bypass the VPN, whatever inputs come that
    do not ask for a bypass themselves (an application or a DNS handler that asks for one,
    a loopback destination): no connection is opened and no echo request is sent on the
    bypass upstream, including by migration and for names that are resolved first; and the
    action the tunnel then decides for a request that does not ask for a bypass is none. *)
Theorem nothing_leaks (steps : list (TunnelEnv * list Z * TunnelInput)) t :
  reachable t ->
  get_mode (t_domain_filter t) = VPN_MODE_GENERAL ->
  (forall domain, match_domain (t_domain_filter t) domain <> DFMS_EXCLUSION) ->
  (forall addr, match_address (t_domain_filter t) addr = false) ->
  (forall o c, t_heap t !! o = Some c ->
     CONNF_FORCIBLY_BYPASSED (vc_flags c) = false /\ vc_action c <> Some VPN_CA_FORCE_BYPASS) ->
  modest steps t ->
  exists outs, t_out (tunnel_run steps t) = t_out t ++ outs /\
    (forall id addr proto name, U_open_connection U_bypass id addr proto name ∉ outs) /\
    (forall request, U_on_icmp_request U_bypass request ∉ outs) /\
    (forall env request, action request <> Some VPN_CA_FORCE_BYPASS ->
       fst (finalize_connect_action env request (tunnel_run steps t)) <> Some VPN_CA_FORCE_BYPASS).
Proof.
  intros Hr Hmode Hdom Haddr Hconn Hm. apply reachable_tables in Hr.
  assert (Private t) as Hp.
  { split; [|intros o c Ec; by apply (Hconn o c)..]. intros [E|[(d & E)|(a & E)]]; [congruence|by eapply Hdom|congruence]. }
  destruct (run_kept_in steps t Hr Hp Hm) as (Hp' & outs & E & F). exists outs. rewrite forallb_forall in F.
  split_and!; [done| | |].
  - intros * Hin%list_elem_of_In. by apply F in Hin.
  - intros * Hin%list_elem_of_In. by apply F in Hin.
  - intros env request Ha.
    assert (Private (snd (finalize_connect_action env request (tunnel_run steps t)))) as Hp2.
    { eapply moves_kept_in; [|done]. apply finalize_connect_action_moves; [by apply private_reasons|done]. }
    unfold finalize_connect_action in *. destruct (get_by_client_id _ _) as [[o c]|]; [|done]. cbn [fst snd] in *.
    match goal with |- context [connection o ?x] => set (t2 := x) in * end.
    destruct (connection o t2) as [c2|] eqn:E2; [|done]. by eapply pr_actions.
Qed.

(** ** Health checks *)

Definition is_health_check (out : TunnelOut) : bool := match out with U_do_health_check _ => true | _ => false end.
Definition health_checks t : list TunnelOut := List.filter is_health_check (t_out t).

Lemma innocent_no_health outs : forallb innocent outs = true -> List.filter is_health_check outs = [].
Proof. induction outs as [|out outs IH]; [done|]. cbn. destruct out as []; cbn; auto; try done; by destruct u. Qed.

Lemma move_health env may t t' : move env may t t' ->
  t_sleeping t' = t_sleeping t /\
  (health_checks t' = health_checks t /\ t_last_health_check_at t' = t_last_health_check_at t \/
   exists u, health_checks t' = health_checks t ++ [U_do_health_check u] /\ endpoint_upstream env = Some u /\
     t_sleeping t = false /\ te_timeout_ms env <= te_now env / 1000 - t_last_health_check_at t / 1000 /\
     t_last_health_check_at t' = te_now env).
Proof.
  unfold health_checks. intros Hmove; destruct Hmove; try (by split; [|left]).
  - match goal with Hq : quiet _ _ |- _ => destruct Hq as [_ _ [Hs Hl] (outs & E & Hin)] end. split; [done|]. left. split; [|done].
    rewrite E, List.filter_app, (innocent_no_health outs), app_nil_r by done. done.
  - split; [done|]. left. split; [|done]. cbn. rewrite List.filter_app. destruct out; cbn; rewrite ?app_nil_r; done.
  - split; [done|]. right. exists u. cbn. rewrite List.filter_app. done.
  - unfold add_connection. by repeat case_match; (split; [|left]).
  - unfold add_connection. by repeat case_match; (split; [|left]).
Qed.

Lemma moves_health env may t t' : 0 < te_timeout_ms env -> moves env may t t' ->
  t_sleeping t' = t_sleeping t /\
  (health_checks t' = health_checks t /\ t_last_health_check_at t' = t_last_health_check_at t \/
   exists u, health_checks t' = health_checks t ++ [U_do_health_check u] /\ endpoint_upstream env = Some u /\
     t_sleeping t = false /\ te_timeout_ms env <= te_now env / 1000 - t_last_health_check_at t / 1000 /\
     t_last_health_check_at t' = te_now env).
Proof.
  intros Hpos. induction 1 as [t|t t1 t2 Hmove _ (Hs2 & IH)]; [by split; [|left]|].
  destruct (move_health _ _ _ _ Hmove) as (Hs1 & H1'). rewrite Hs2, Hs1. split; [done|].
  destruct H1' as [(E1 & L1)|(u & E1 & Hu & Hsl & Ht & L1)].
  - rewrite E1, L1, Hs1 in IH. done.
  - right. exists u. destruct IH as [(E2 & L2)|(u2 & _ & _ & _ & Ht2 & _)]; [|rewrite L1 in Ht2; lia]. rewrite E2, L2. done.
Qed.

(** C30. Health checks are issued on the endpoint upstream only, at most one in a step, never
    while the tunnel sleeps, and not before the timeout of the upstream has passed since the
    last one; waking up issues one in any case if the clock can be read, and the time of
    the last one is kept. *)
Theorem health_checks_are_paced env order i t :
  reachable t -> input_ok i t -> 0 < te_timeout_ms env ->
  let t' := tunnel_step env order i t in
  (health_checks t' = health_checks t /\ t_last_health_check_at t' = t_last_health_check_at t /\
     (i = I_wake -> endpoint_upstream env = None \/ te_clock_ok env = false) \/
   exists u, health_checks t' = health_checks t ++ [U_do_health_check u] /\ endpoint_upstream env = Some u /\
     t_last_health_check_at t' = te_now env /\
     (i = I_wake \/
      t_sleeping t = false /\ te_timeout_ms env <= te_now env / 1000 - t_last_health_check_at t / 1000)) /\
  (t_sleeping t' = match i with I_sleep => true | I_wake => false | _ => t_sleeping t end).
Proof.
  intros Hr Hok Hpos. apply reachable_tables in Hr. destruct (sets_clock i) eqn:Hc.
  - destruct i; try done; cbn [tunnel_step]; unfold health_checks, handle_sleep, handle_wake, do_health_check; cbn -[List.filter Z.div].
    + destruct (endpoint_upstream env); cbn -[List.filter]; rewrite ?List.filter_app, ?app_nil_r; (split; [|done]); by left.
    + rewrite bool_decide_eq_true_2 by done. cbn -[List.filter]. destruct (te_clock_ok env); [|split; [|done]; left; by auto]. cbn -[List.filter].
      destruct (endpoint_upstream env) as [u|]; cbn -[List.filter].
      * split; [|done]. right. exists u. rewrite List.filter_app. split_and!; [done..|by left].
      * split; [|done]. left. auto.
  - assert (i <> I_wake /\ i <> I_sleep) as [Hw Hsl] by by destruct i.
    destruct (moves_health env True t (tunnel_step env order i t) Hpos) as (Hs & Hh).
    { apply tunnel_step_moves; [apply reasons_true|done|done|done|by apply tables_no_client|]. intros. by eapply tb_early. }
    cbv zeta. rewrite Hs. split; [|by destruct i]. destruct Hh as [(E & L)|(u & E & Hu & Hz & Ht & L)]; [by left|].
    right. exists u. auto 10.
Qed.
End Invariant.
