(* ===== verification/TunnelProofs.v ===== *)
(** * What the tunnel does with a connection

    The migration of a connection to another upstream, the choice of the upstream, and a
    sample tunnel, with what the code does not do as meant. *)

From stdpp Require Import gmap relations.
From S2P Require Import Prelude VpnTypes PortRanges Wire View DomainFilter DomainFilterProofs Tls TlsProofs Quic DomainExtractor ExtractorProofs Statistics Icmp Tunnel TunnelMoves TunnelInvariant.

Section Proofs.
Context `{FilterLib} `{CertLib} `{QuicCrypto} `{QuicHeaders} {TC SC HC : Type}.
Context `{LruTimeoutCache TC SockAddrTag text} `{LruTimeoutCache SC SocketAddress Z}.
Context `{LruTimeoutCache HC TunnelAddressPair DomainExtractorResult}.
Implicit Types t : Tunnel TC SC HC.

(** ** Migration *)

Lemma same_tables_connection o t t' : same_tables t t' -> connection o t' = connection o t.
Proof. intros (E & _). unfold connection. by rewrite E. Qed.

Lemma do_health_check_tables env u force t : same_tables t (do_health_check env u force t).
Proof. unfold do_health_check. cbv zeta. by repeat case_match. Qed.

Lemma add_connection_tables o c t :
  connection o t = Some c ->
  t_by_client_id (add_connection o t) = (if vc_client_id c =? NON_ID then t_by_client_id t else <[vc_client_id c := o]> (t_by_client_id t)) /\
  t_by_server_id (add_connection o t) = (if vc_server_id c =? NON_ID then t_by_server_id t else <[vc_server_id c := o]> (t_by_server_id t)).
Proof. intros Ec. unfold add_connection. rewrite Ec. by repeat case_match. Qed.

(** The end of [initiate_connection_migration]. *)
Lemma migration_finish env u o c cb t :
  connection o t = Some cb ->
  let tf := do_health_check env (Some u) false
              match lock_upstream env c with
              | Some cu => emit (U_update_flow_control cu (vc_server_id c) no_flow) (set_state o CONNS_CONNECTED_MIGRATING t)
              | None => set_state o CONNS_CONNECTED_MIGRATING t
              end in
  t_by_client_id tf = t_by_client_id t /\ t_by_server_id tf = t_by_server_id t /\
  connection o tf = Some (cb <| vc_state := CONNS_CONNECTED_MIGRATING |>) /\
  (forall o', o' <> o -> connection o' tf = connection o' t).
Proof.
  intros Ecb. set (tx := match lock_upstream env c with Some _ => _ | None => _ end). cbv zeta.
  destruct (do_health_check_tables env (Some u) false tx) as (E1 & E2 & E3 & E4).
  assert (forall o', connection o' (do_health_check env (Some u) false tx) = connection o' (set_state o CONNS_CONNECTED_MIGRATING t)) as Hy.
  { intros. unfold connection. rewrite E1. subst tx. by destruct (lock_upstream env c). }
  rewrite E3, E4. split_and!; [subst tx; by destruct (lock_upstream env c)..| |].
  - rewrite Hy. unfold set_state. rewrite connection_update, decide_True by done. by rewrite Ecb.
  - intros o' Hne. rewrite Hy. unfold set_state. by rewrite connection_update, decide_False.
Qed.

(** The replacement is entered. *)
Lemma migration_enter sw t :
  vc_client_id sw = NON_ID -> vc_server_id sw <> NON_ID ->
  let ta := add_connection (t_next_object t) (snd (allocate sw t)) in
  t_by_client_id ta = t_by_client_id t /\ t_by_server_id ta !! vc_server_id sw = Some (t_next_object t) /\
  connection (t_next_object t) ta = Some sw /\ (forall o, o <> t_next_object t -> connection o ta = connection o t).
Proof.
  intros Hc Hs. cbv zeta. set (ts := snd (allocate sw t)).
  assert (connection (t_next_object t) ts = Some sw) as Esw by (subst ts; rewrite connection_allocated; by apply decide_True).
  destruct (add_connection_tables _ _ _ Esw) as [-> ->]. rewrite Hc, Z.eqb_refl, (proj2 (Z.eqb_neq _ _) Hs), lookup_insert_eq.
  split_and!; [done..| |]; [by rewrite add_connection_same_object|].
  intros o Hne. rewrite add_connection_same_object. subst ts. by rewrite connection_allocated, decide_False.
Qed.

(** The state a started migration leaves: the replacement is known by the id of its server side only. *)
Lemma initiate_migration_spec env u packet t o c l :
  o <> t_next_object t -> get_by_client_id (vc_client_id c) t = Some (o, c) -> te_open_connection env u <> NON_ID -> lock_listener env c = Some l ->
  let sid := te_open_connection env u in
  let udp := vc_proto c =? IPPROTO_UDP in
  let '(r, t1) := initiate_connection_migration env o (Some u) packet t in
  r = (if udp then Z.of_nat (length packet) else 0) /\
  t_by_client_id t1 = t_by_client_id t /\
  t_by_server_id t1 !! sid = Some (t_next_object t) /\
  (exists c1, connection o t1 = Some c1 /\ vc_client_id c1 = vc_client_id c /\ vc_server_id c1 = vc_server_id c /\
     vc_state c1 = CONNS_CONNECTED_MIGRATING /\ vc_upstream c1 = vc_upstream c /\
     vc_buffered_packets c1 = (if udp then vc_buffered_packets c ++ [packet] else [])) /\
  (exists sw, connection (t_next_object t) t1 = Some sw /\ vc_client_id sw = NON_ID /\ vc_server_id sw = sid /\
     vc_state sw = CONNS_WAITING_RESPONSE_MIGRATING /\ vc_migrating_client_id sw = vc_client_id c /\
     vc_listener sw = vc_listener c /\ vc_upstream sw = Some u /\ vc_addr sw = vc_addr c /\ vc_proto sw = vc_proto c /\
     vc_buffered_packets sw = (if udp then [] else vc_buffered_packets c)).
Proof.
  intros Hne Hg Hsid Hl. apply get_by_client_table in Hg as [Eo Ec]. unfold initiate_connection_migration. rewrite Ec. cbv zeta.
  rewrite (proj2 (Z.eqb_neq _ _) Hsid), Hl.
  match goal with |- context [allocate ?c0 ?t0] => set (sw := c0); set (t0' := t0) end.
  change (allocate sw t0') with (t_next_object t0', snd (allocate sw t0')). cbv iota beta.
  destruct (migration_enter sw t0' eq_refl Hsid) as (Hbc & Hbs & Esw & Hother).
  change (t_next_object t0') with (t_next_object t) in *. change (vc_server_id sw) with (te_open_connection env u) in Hbs.
  set (ta := add_connection _ _) in *. assert (connection o ta = Some c) as Eoa by (rewrite Hother by done; exact Ec).
  change (t_by_client_id t0') with (t_by_client_id t) in Hbc. clearbody ta. destruct (vc_proto c =? IPPROTO_UDP).
  - set (tb := update o _ ta). assert (connection o tb = Some (c <| vc_buffered_packets := vc_buffered_packets c ++ [packet] |>)) as Etb
      by (subst tb; rewrite connection_update, decide_True, Eoa; done).
    destruct (migration_finish env u o c _ tb Etb) as (-> & -> & Eo' & Hoth). split_and!; [done..| |].
    + eexists. split; [exact Eo'|]. by split_and!.
    + exists sw. split; [|by split_and!]. rewrite Hoth by done. subst tb. by rewrite connection_update, decide_False.
  - set (tb0 := update (t_next_object t) _ ta). set (tb := update o _ tb0).
    assert (connection o tb = Some (c <| vc_buffered_packets := [] |>)) as Etb
      by (subst tb tb0; rewrite connection_update, decide_True, connection_update, decide_False, Eoa; done).
    match goal with |- context [emit (L_turn_read l ?i false) tb] => set (tc := emit (L_turn_read l i false) tb) end.
    destruct (migration_finish env u o c _ tc Etb) as (-> & -> & Eo' & Hoth). split_and!; [done..| |].
    + eexists. split; [exact Eo'|]. by split_and!.
    + exists (sw <| vc_buffered_packets := vc_buffered_packets c |>). split; [|by split_and!]. rewrite Hoth by done.
      change (connection (t_next_object t) tc) with (connection (t_next_object t) tb). subst tb tb0.
      rewrite connection_update, decide_False, connection_update, decide_True, Esw; done.
Qed.

(** A finished migration: the replacement has the id of the client, the old connection has none. *)
Lemma finish_migration_spec env u l id o c src sc t :
  connection o t = Some c -> get_by_client_id (vc_migrating_client_id c) t = Some (src, sc) -> src <> o -> vc_client_id sc <> NON_ID ->
  let t' := finish_migration env u l id o c t in
  (exists c', get_by_client_id (vc_client_id sc) t' = Some (o, c') /\ vc_client_id c' = vc_client_id sc /\
     vc_server_id c' = vc_server_id c /\ vc_state c' = CONNS_CONNECTED /\ vc_upstream c' = vc_upstream c /\ vc_addr c' = vc_addr c /\
     vc_buffered_packets c' = (if vc_proto c =? IPPROTO_UDP then vc_buffered_packets sc else vc_buffered_packets c)) /\
  (exists s', connection src t' = Some s' /\ vc_client_id s' = vc_client_id c /\ vc_server_id s' = vc_server_id sc) /\
  (exists outs, t_out t' = t_out t ++ outs /\ forall su, lock_upstream env sc = Some su -> U_close_connection su (vc_server_id sc) false false ∈ outs).
Proof.
  intros Ec Hg Hne Hnon. cbv zeta. unfold finish_migration. rewrite Hg. apply get_by_client_table in Hg as [_ Esc]. cbv zeta.
  set (packets := if vc_proto c =? IPPROTO_UDP then vc_buffered_packets sc else vc_buffered_packets c).
  set (ts := update src _ t). set (to := update o _ ts).
  assert (exists cx, connection o to = Some cx /\ vc_client_id cx = vc_client_id sc /\ vc_server_id cx = vc_server_id c /\
    vc_state cx = CONNS_CONNECTED /\ vc_upstream cx = vc_upstream c /\ vc_addr cx = vc_addr c /\ vc_buffered_packets cx = packets)
    as (cx & Ecx & Hcx & Hrest).
  { eexists. split; [subst to ts; rewrite connection_update, decide_True, connection_update, decide_False, Ec by done; reflexivity|].
    by split_and!. }
  assert (exists s', connection src to = Some s' /\ vc_client_id s' = vc_client_id c /\ vc_server_id s' = vc_server_id sc) as (s' & Es' & Hs').
  { eexists. split; [subst to ts; rewrite connection_update, decide_False, connection_update, decide_True, Esc by done; reflexivity|].
    by split_and!. }
  assert (t_out to = t_out t) as Eto by done. clearbody to. clear ts. pose proof (add_connection_tables _ _ _ Ecx) as [Hbc _]. rewrite Hcx, (proj2 (Z.eqb_neq _ _) Hnon) in Hbc.
  set (ta := add_connection o to) in *.
  assert (forall o', connection o' ta = connection o' to) as Hta by (intros; apply add_connection_same_object).
  assert (t_out ta = t_out t) as Eta by (rewrite <- Eto; subst ta; unfold add_connection; by repeat case_match). clearbody ta.
  set (tc := match lock_upstream env sc with Some _ => _ | None => ta end).
  assert (t_by_client_id tc = t_by_client_id ta) as Htc1 by (subst tc; by case_match).
  assert (forall o', connection o' tc = connection o' ta) as Htc2 by (intros; subst tc; by case_match).
  assert (exists outs, t_out tc = t_out t ++ outs /\ forall su, lock_upstream env sc = Some su -> U_close_connection su (vc_server_id sc) false false ∈ outs)
    as (outs & Eouts & Hclose).
  { subst tc. destruct (lock_upstream env sc) as [su|]; [|exists []; by rewrite app_nil_r]. exists [U_close_connection su (vc_server_id sc) false false].
    cbn. rewrite Eta. split; [done|]. intros su' [= <-]. by apply list_elem_of_singleton. }
  clearbody tc. unfold get_by_client_id. case_match.
  - split_and!; [|exists s'|by exists outs]; cycle 1.
    + unfold schedule_send_buffered_data. rewrite connection_update, decide_False, Htc2, Hta by done. done.
    + eexists. unfold schedule_send_buffered_data. cbn -[lookup alter connection update].
      change (t_by_client_id (update o _ tc)) with (t_by_client_id tc). rewrite Htc1, Hbc, lookup_insert_eq. cbn -[connection update].
      rewrite connection_update, decide_True, Htc2, Hta, Ecx by done. cbn. split; [done|]. by split_and!; try apply Hrest.
  - split_and!.
    + exists cx. cbn -[lookup]. rewrite Htc1, Hbc, lookup_insert_eq. cbn -[connection].
      match goal with |- context [connection o ?x] => change (connection o x) with (connection o tc) end. rewrite Htc2, Hta, Ecx. done.
    + exists s'. match goal with |- context [connection src ?x] => change (connection src x) with (connection src tc) end.
      rewrite Htc2, Hta. done.
    + cbn. rewrite Eouts, <- !app_assoc. eexists. split; [done|]. intros su E. apply elem_of_app. left. by apply Hclose.
Qed.

(** The upstream opens the replacement: the migration that was started ends. *)
Lemma migration_completes env u l t o c so sw :
  t_by_server_id t !! vc_server_id sw = Some so -> connection so t = Some sw -> so <> o -> vc_state sw = CONNS_WAITING_RESPONSE_MIGRATING ->
  vc_upstream sw = Some u -> te_upstream_alive env u = true -> lock_listener env sw = Some l ->
  get_by_client_id (vc_migrating_client_id sw) t = Some (o, c) -> vc_client_id c <> NON_ID ->
  let t' := server_connection_opened env u (vc_server_id sw) t in
  (exists c', get_by_client_id (vc_client_id c) t' = Some (so, c') /\ vc_server_id c' = vc_server_id sw /\
     vc_state c' = CONNS_CONNECTED /\ vc_upstream c' = Some u /\ vc_addr c' = vc_addr sw /\
     vc_buffered_packets c' = (if vc_proto sw =? IPPROTO_UDP then vc_buffered_packets c else vc_buffered_packets sw)) /\
  (exists s', connection o t' = Some s' /\ vc_client_id s' = vc_client_id sw /\ vc_server_id s' = vc_server_id c) /\
  (exists outs, t_out t' = t_out t ++ outs /\ forall old, lock_upstream env c = Some old -> U_close_connection old (vc_server_id c) false false ∈ outs).
Proof.
  intros Hbs Esw Hne Hst Hup Halive Hl Hg Hnon. cbv zeta.
  assert (server_connection_opened env u (vc_server_id sw) t = finish_migration env u l (vc_server_id sw) so sw t) as ->.
  { unfold server_connection_opened, with_server_connection, get_by_server_id. rewrite Hbs. cbn -[connection]. rewrite Esw. cbn -[connection].
    assert (lock_upstream env sw = Some u) as -> by (unfold lock_upstream; by rewrite Hup, Halive).
    rewrite bool_decide_eq_true_2 by done. cbn -[connection]. rewrite Hl. cbn -[connection]. by rewrite Hst. }
  destruct (finish_migration_spec env u l (vc_server_id sw) so sw o c t Esw Hg) as ((c' & Hg' & _ & Hc') & (s' & Es & Hs') & Hclose); [done|done|].
  split_and!; [|by exists s'|done]. exists c'. split; [done|]. by rewrite <- Hup.
Qed.

(** C24. Migration loses and reorders nothing.  When a connection is moved to another
    upstream that opens it, the client's id stands afterwards for the replacement, which is
    connected through the new upstream to the same address and has buffered what the old
    connection had, followed for UDP by the packet that started the migration (the listener
    offers the data of a TCP connection again); the old connection has given up the client's
    id and is closed on the old upstream. *)
Theorem migration_keeps_data env env' u packet t o c l :
  reachable t -> get_by_client_id (vc_client_id c) t = Some (o, c) -> te_open_connection env u <> NON_ID ->
  lock_listener env c = Some l -> lock_listener env' c = Some l -> te_upstream_alive env' u = true ->
  let sid := te_open_connection env u in
  let udp := vc_proto c =? IPPROTO_UDP in
  let '(r, t1) := initiate_connection_migration env o (Some u) packet t in
  let t2 := server_connection_opened env' u sid t1 in
  r = (if udp then Z.of_nat (length packet) else 0) /\
  (exists sw c', get_by_client_id (vc_client_id c) t2 = Some (sw, c') /\ sw <> o /\ vc_server_id c' = sid /\
     vc_state c' = CONNS_CONNECTED /\ vc_upstream c' = Some u /\ vc_addr c' = vc_addr c /\
     vc_buffered_packets c' = vc_buffered_packets c ++ (if udp then [packet] else [])) /\
  (exists c1, connection o t2 = Some c1 /\ vc_client_id c1 = NON_ID) /\
  (forall old, lock_upstream env' c = Some old -> U_close_connection old (vc_server_id c) false false ∈ t_out t2).
Proof.
  intros Hr Hg Hsid Hl Hl' Hu. apply reachable_tables in Hr. pose proof (get_by_client_table _ _ _ _ Hg) as [Eo Ec].
  pose proof (tb_client _ Hr _ _ Eo) as (_ & _ & _ & Hnon). pose proof (tb_allocated _ Hr _ _ Ec) as Hlt.
  pose proof (initiate_migration_spec env u packet t o c l ltac:(lia) Hg Hsid Hl) as Hspec. cbv zeta in *.
  destruct (initiate_connection_migration env o (Some u) packet t) as [r t1].
  destruct Hspec as (-> & Hbc & Hbs & (c1 & E1 & Hid1 & Hs1 & Hst1 & Hu1 & Hb1) &
    (sw & E2 & Hid2 & Hs2 & Hst2 & Hm2 & Hl2 & Hu2 & Ha2 & Hp2 & Hb2)).
  assert (get_by_client_id (vc_migrating_client_id sw) t1 = Some (o, c1)) as Hg1.
  { unfold get_by_client_id. rewrite Hm2, Hbc, Eo. cbn -[connection]. by rewrite E1. }
  rewrite <- Hs2 in *. assert (lock_listener env' sw = Some l) as Hls by (unfold lock_listener in *; by rewrite Hl2).
  destruct (migration_completes env' u l t1 o c1 (t_next_object t) sw Hbs E2) as ((c' & Hg' & Hsv & Hst & Hup & Had & Hbuf) & (s' & Es & Hi & _) & (outs & Eo' & Hclose));
    [lia|done|done|done|done|done|congruence|].
  rewrite Hid1 in Hg'. split; [done|]. split_and!.
  - exists (t_next_object t), c'. split_and!; try congruence; try lia. rewrite Hbuf, Hp2, Hb1, Hb2. destruct (_ =? IPPROTO_UDP); [done|by rewrite app_nil_r].
  - exists s'. split; [done|congruence].
  - intros old Hold. rewrite <- Hs1, Eo'. apply elem_of_app. right. apply Hclose. unfold lock_upstream in *. by rewrite Hu1.
Qed.

(** ** The fake upstream *)

Lemma move_out env may t t' : move env may t t' -> exists outs, t_out t' = t_out t ++ outs.
Proof.
  destruct 1; try (by exists []; rewrite app_nil_r); try by eexists [_].
  - match goal with Hq : quiet _ _ |- _ => destruct (quiet_out _ _ Hq) as (outs & E & _) end. eauto.
  - exists []. rewrite app_nil_r. unfold add_connection. by repeat case_match.
  - exists []. rewrite app_nil_r. unfold add_connection. by repeat case_match.
Qed.

Lemma moves_out env may t t' out : moves env may t t' -> out ∈ t_out t -> out ∈ t_out t'.
Proof.
  induction 1 as [|t t1 t2 Hmove _ IH]; [done|]. intros Hin. apply IH. destruct (move_out _ _ _ _ Hmove) as (outs & ->). set_solver.
Qed.

Lemma migrate_opens env l u o c c' packet t :
  connection o t = Some c ->
  U_open_connection u (te_open_connection env u) (vc_addr c) (vc_proto c) [] ∈ t_out (snd (migrate env l o c' (Some u) packet t)).
Proof.
  intros Ec. pose proof (migration_moves_after_open env True o u packet _ t c Ec (moves_refl _ _ _)) as Hm. unfold migrate.
  destruct (initiate_connection_migration _ _ _ _ _) as [r t1]. cbn [snd] in Hm.
  eapply (moves_out env True); [|instantiate (1 := emit (U_open_connection u (te_open_connection env u) (vc_addr c) (vc_proto c) []) t); cbn; set_solver].
  case_match; [|done]. by apply close_client_side_connection_moves, moves_emit.
Qed.

(** With early acknowledgement, a connection to a scanned port whose first packet is a TLS
    hello without a server name is not routed as usual once the lookup has passed: the lookup
    has not ended, so it is moved from the fake upstream to the fake upstream. *)
Theorem unnamed_hello_stays_on_fake env l id data t o c dst :
  get_by_client_id id t = Some (o, c) -> lock_upstream env c = Some U_fake -> vc_proto c <> IPPROTO_UDP ->
  te_early_ack env = true -> t_fake_upstream t = true -> lock_listener env c <> dns_handler_listener t ->
  CONNF_LOOKINGUP_DOMAIN (vc_flags c) = true -> CONNF_FAKE_CONNECTION (vc_flags c) = true ->
  CONNF_PLAIN_DNS_CONNECTION (vc_flags c) = false ->
  tap_dst (vc_addr c) = TA_address dst -> is_domain_scannable_port env (sa_port dst) = true ->
  der_status (fst (fst (proceed DEPD_OUTGOING (vc_proto c) data (vc_extractor c)))) = DES_PASS ->
  U_open_connection U_fake (te_open_connection env U_fake) (vc_addr c) (vc_proto c) [] ∈ t_out (snd (client_read env l id data t)).
Proof.
  intros Hg Hu Hudp Hearly Hfake Hl Hlook Hf Hdns Hdst Hscan Hpass. unfold client_read. rewrite Hg, Hu. cbv zeta.
  assert (do_health_check env (Some U_fake) false t = t) as ->.
  { unfold do_health_check, endpoint_upstream. rewrite bool_decide_eq_false_2; [by rewrite orb_true_r|]. by destruct (te_endpoint env). }
  rewrite Hlook. apply get_by_client_table in Hg as [_ Ec].
  unfold client_lookup, pass_through_domain_lookup. rewrite (proj2 (Z.eqb_neq _ _) Hudp). unfold extract, noting.
  destruct (proceed _ _ _ _) as [[res e] wrong]. cbn [fst snd] in *. rewrite Hpass. cbv zeta iota beta.
  set (t0 := t <| t_faults := _ |>). set (t1 := update o _ (update o _ t0)).
  assert (exists c1, connection o t1 = Some c1 /\ vc_flags c1 = vc_flags c /\ vc_addr c1 = vc_addr c /\ vc_proto c1 = vc_proto c /\
    vc_listener c1 = vc_listener c) as (c1 & E1 & Hf1 & Ha1 & Hp1 & Hl1).
  { eexists. split; [subst t1; rewrite !connection_update, !decide_True by done; change (connection o t0) with (connection o t); rewrite Ec; done|]. done. }
  assert (t_fake_upstream t1 = true /\ dns_handler_listener t1 = dns_handler_listener t) as [Hfake1 Hh1] by done. clearbody t1.
  rewrite E1. unfold report_connection_info. rewrite E1, Hf1, Hlook, orb_true_r. cbn [orb]. rewrite E1, Hf1, Hf.
  set (t2 := set_flags o _ t1). set (c2 := c1 <| vc_flags := _ |>).
  assert (connection o t2 = Some c2) as E2 by (subst t2 c2; unfold set_flags; rewrite connection_update, decide_True, E1 by done; cbn; by rewrite Hf1).
  assert (select_upstream env VPN_CA_DEFAULT (Some c2) t2 = (Some U_fake, t2)) as ->.
  { unfold select_upstream. assert (lock_listener env c2 = lock_listener env c) as -> by (unfold lock_listener; by subst c2; cbn; rewrite Hl1).
    rewrite bool_decide_eq_false_2 by (rewrite <- Hh1 in Hl; exact Hl). subst c2. cbn -[wants_fake]. rewrite Hdns.
    unfold wants_fake. cbn. rewrite Hlook, Hearly, Ha1, Hdst, Hscan. cbn. unfold fake_upstream. cbn. by rewrite Hfake1. }
  replace (vc_addr c) with (vc_addr c2) by by subst c2. replace (vc_proto c) with (vc_proto c2) by by subst c2.
  pose proof (migrate_opens env l U_fake o c2 c2 data t2 E2) as Hin. destruct (migrate _ _ _ _ _ _ _) as [r t3]. exact Hin.
Qed.

(** *** What a connection that is looked up keeps *)

(** The ids, the sides and the data of a connection. *)
Definition akin (c c' : VpnConnection) : Prop :=
  vc_client_id c' = vc_client_id c /\ vc_server_id c' = vc_server_id c /\ vc_state c' = vc_state c /\ vc_upstream c' = vc_upstream c /\
  vc_listener c' = vc_listener c /\ vc_addr c' = vc_addr c /\ vc_proto c' = vc_proto c /\ vc_buffered_packets c' = vc_buffered_packets c.

(** Nothing is sent to an upstream. *)
Definition unsent (out : TunnelOut) : Prop := match out with U_send _ _ _ => False | _ => True end.

(** Something was noted of the connection, and the rest is as it was. *)
Record noted o t t' : Prop := mkNoted {
  nt_next : t_next_object t' = t_next_object t;
  nt_client : t_by_client_id t' = t_by_client_id t;
  nt_this : forall c, connection o t = Some c -> exists c', connection o t' = Some c' /\ akin c c';
  nt_out : exists outs, t_out t' = t_out t ++ outs /\ Forall unsent outs;
}.

#[local] Instance noted_preorder o : PreOrder (noted o).
Proof.
  split.
  - intros t. split; try done; [intros c Ec; exists c; by split_and!|exists []; by rewrite app_nil_r].
  - intros t1 t2 t3 [A1 A2 A4 (o1 & A6 & A7)] [B1 B2 B4 (o2 & B6 & B7)]. split; try congruence.
    + intros c Ec. destruct (A4 c Ec) as (c2 & E2 & (K1 & K2 & K3 & K4 & K5 & K6 & K7 & K8)). destruct (B4 c2 E2) as (c3 & E3 & (L1 & L2 & L3 & L4 & L5 & L6 & L7 & L8)).
      exists c3. split; [done|]. split_and!; congruence.
    + exists (o1 ++ o2). split; [by rewrite B6, A6, app_assoc|by apply Forall_app].
Qed.

Lemma noted_update o f t : (forall c, akin c (f c)) -> noted o t (update o f t).
Proof.
  intros Hf. split; try done.
  - intros c Ec. exists (f c). rewrite connection_update, decide_True, Ec by done. by split.
  - exists []. by rewrite app_nil_r.
Qed.

Lemma noted_same o t t' : same_tables t t' -> (exists outs, t_out t' = t_out t ++ outs /\ Forall unsent outs) -> noted o t t'.
Proof.
  intros (E1 & E2 & E3 & E4) Ho. split; try done. unfold connection. rewrite E1. intros c Ec. exists c. by split_and!.
Qed.

Lemma health_check_unsent env u force t : exists outs, t_out (do_health_check env u force t) = t_out t ++ outs /\ Forall unsent outs.
Proof.
  unfold do_health_check. cbv zeta. repeat case_match; try (exists []; by rewrite app_nil_r).
  eexists. split; [done|]. by repeat constructor.
Qed.

Lemma noted_report env o domain t : noted o t (report_connection_info env o domain t).
Proof.
  unfold report_connection_info. destruct (connection o t) as [c|]; [|apply noted_same; [done|exists []; by rewrite app_nil_r]]. do 2 (case_match; [done|]). cbv zeta.
  set (t1 := set_flags o _ t). transitivity t1; [by apply noted_update|]. apply noted_same; [done|]. eexists. split; [done|]. by repeat constructor.
Qed.

(** The lookup of a hello that arrives at once ends with the name in it. *)
Lemma lookup_finds_name env o c version h rest t :
  vc_proto c = IPPROTO_TCP -> vc_extractor c = None -> named_hello version h ->
  Z.of_nat (length (hello_record version h ++ rest)) < 2 ^ 64 ->
  match_domain (t_domain_filter t) (h_host h) = DFMS_EXCLUSION -> connection o t = Some c ->
  exists t' c', pass_through_domain_lookup env DEPD_OUTGOING o c (hello_record version h ++ rest) t = (TDLA_SHUTDOWN, t') /\ noted o t t' /\
    connection o t' = Some c' /\ vc_flags c' = vc_flags c /\ get_mode (t_domain_filter t') = get_mode (t_domain_filter t).
Proof.
  intros Hp He Hh Hsize Hmatch Ec.
  destruct (proceed_complete IPPROTO_TCP (hello_record version h ++ rest) [] (context_new IPPROTO_TCP) version h rest context_new_awaiting)
    as (e & E); [done..|].
  unfold pass_through_domain_lookup, extract, noting. rewrite Hp, He. change (IPPROTO_TCP =? IPPROTO_UDP) with false. cbv iota.
  rewrite proceed_none, E. cbn [fst snd der_status der_domain].
  set (t0 := t <| t_faults := _ |>). set (t1 := update o _ (update o _ t0)).
  assert (noted o t t1) as Hn.
  { transitivity t0; [apply noted_same; [done|exists []; by rewrite app_nil_r]|]. etransitivity; [|by apply noted_update]. by apply noted_update. }
  assert (t_domain_filter t1 = t_domain_filter t) as Hf by done.
  assert (connection o t1 = Some (c <| vc_extractor := Some e |> <| vc_extractor_result := mkExtractorResult DES_FOUND (h_host h) |>)) as E1.
  { subst t1. rewrite !connection_update, !decide_True by done. change (connection o t0) with (connection o t). by rewrite Ec. }
  clearbody t1. rewrite Hf, Hmatch, bool_decide_eq_true_2 by done. eexists _, _. split; [done|]. split_and!.
  - transitivity t1; [done|]. etransitivity; [|by apply noted_update]. apply noted_same; [done|exists []; by rewrite app_nil_r].
  - rewrite connection_update, decide_True by done. match goal with |- _ <$> connection o ?x = _ => change (connection o x) with (connection o t1) end. by rewrite E1.
  - done.
  - done.
Qed.

(** What is told when a TCP connection starts to migrate. *)
Lemma initiate_migration_out env u cu packet t o c l :
  connection o t = Some c -> te_open_connection env u <> NON_ID -> lock_listener env c = Some l -> lock_upstream env c = Some cu -> vc_proto c = IPPROTO_TCP ->
  exists outs, t_out (snd (initiate_connection_migration env o (Some u) packet t)) = t_out t ++ outs /\ Forall unsent outs /\
    U_open_connection u (te_open_connection env u) (vc_addr c) (vc_proto c) [] ∈ outs /\ L_turn_read l (vc_client_id c) false ∈ outs /\
    U_update_flow_control cu (vc_server_id c) no_flow ∈ outs.
Proof.
  intros Ec Hsid Hl Hcu Hp. unfold initiate_connection_migration. rewrite Ec. cbv zeta. rewrite (proj2 (Z.eqb_neq _ _) Hsid), Hl, Hcu, Hp.
  change (IPPROTO_TCP =? IPPROTO_UDP) with false. match goal with |- context [allocate ?c0 ?t0] => set (sw := c0); set (t0' := t0) end.
  change (allocate sw t0') with (t_next_object t0', snd (allocate sw t0')). cbv iota beta. set (ta := add_connection _ _).
  assert (t_out ta = t_out t ++ [U_open_connection u (te_open_connection env u) (vc_addr c) IPPROTO_TCP []]) as Ea.
  { change (t_out t ++ _) with (t_out (snd (allocate sw t0'))). subst ta. unfold add_connection. by repeat case_match. }
  clearbody ta. cbn [snd]. match goal with |- context [do_health_check env (Some u) false ?x] => set (tx := x) end.
  destruct (health_check_unsent env (Some u) false tx) as (outs & Eo & Hu).
  assert (t_out tx = (t_out ta ++ [L_turn_read l (vc_client_id c) false]) ++ [U_update_flow_control cu (vc_server_id c) no_flow]) as Ex by done. clearbody tx.
  rewrite Eo, Ex, Ea, <- !app_assoc. eexists. split; [done|]. split_and!; [by repeat constructor|rewrite !elem_of_app, !list_elem_of_singleton; tauto..].
Qed.

(** The connection is routed anew: what [reroute] does with a first packet that is to go past the endpoint. *)
Lemma reroute_bypasses env l u data t o c :
  get_by_client_id (vc_client_id c) t = Some (o, c) -> o <> t_next_object t -> vc_client_id c <> NON_ID -> lock_upstream env c = Some u -> lock_listener env c = Some l ->
  vc_proto c = IPPROTO_TCP -> CONNF_FIRST_PACKET (vc_flags c) = true -> get_mode (t_domain_filter t) = VPN_MODE_GENERAL -> te_bypass env = true ->
  te_open_connection env U_bypass <> NON_ID ->
  let sid := te_open_connection env U_bypass in
  let '(r, t1) := reroute env l u o data t in
  r = Some 0 /\
  (exists outs, t_out t1 = t_out t ++ outs /\ Forall unsent outs /\ U_open_connection U_bypass sid (vc_addr c) (vc_proto c) [] ∈ outs /\
     L_turn_read l (vc_client_id c) false ∈ outs /\ U_update_flow_control u (vc_server_id c) no_flow ∈ outs) /\
  (exists c1 sw, get_by_client_id (vc_client_id c) t1 = Some (o, c1) /\ vc_client_id c1 = vc_client_id c /\ vc_server_id c1 = vc_server_id c /\
     vc_upstream c1 = vc_upstream c /\ t_by_server_id t1 !! sid = Some (t_next_object t) /\ connection (t_next_object t) t1 = Some sw /\ vc_server_id sw = sid /\
     vc_state sw = CONNS_WAITING_RESPONSE_MIGRATING /\ vc_migrating_client_id sw = vc_client_id c /\ vc_listener sw = vc_listener c /\
     vc_upstream sw = Some U_bypass /\ vc_addr sw = vc_addr c /\ vc_proto sw = IPPROTO_TCP /\ vc_buffered_packets sw = vc_buffered_packets c).
Proof.
  intros Hg Hne Hnon Hu Hl Hp Hfirst Hmode Hby Hsid. pose proof (get_by_client_table _ _ _ _ Hg) as [Eo Ec]. cbv zeta.
  unfold reroute, excluded_action. rewrite Hmode. cbn [vpn_mode_to_action invert_action]. set (t2 := update o _ t).
  assert (noted o t t2) as Hn by by apply noted_update. assert (exists c2, connection o t2 = Some c2 /\ CONNF_FIRST_PACKET (vc_flags c2) = true) as (c2 & Ec2 & Hf2).
  { eexists. split; [subst t2; rewrite connection_update, decide_True, Ec by done; done|]. done. }
  clearbody t2. rewrite Ec2. set (t3 := report_connection_info env o _ t2). assert (noted o t t3) as Hn3 by (transitivity t2; [done|apply noted_report]). clearbody t3. clear Hn.
  rewrite Hf2. cbn [negb select_upstream forced_upstream]. unfold bypass_upstream. rewrite Hby.
  destruct (nt_this _ _ _ Hn3 c Ec) as (c3 & Ec3 & (K1 & K2 & K3 & K4 & K5 & K6 & K7 & K8)). destruct (nt_out _ _ _ Hn3) as (o1 & Eo1 & Hq1).
  assert (get_by_client_id (vc_client_id c3) t3 = Some (o, c3)) as Hg3 by (unfold get_by_client_id; rewrite (nt_client _ _ _ Hn3), K1, Eo; cbn -[connection]; by rewrite Ec3).
  assert (lock_listener env c3 = Some l) as Hl3 by (unfold lock_listener in *; by rewrite K5). assert (lock_upstream env c3 = Some u) as Hu3 by (unfold lock_upstream in *; by rewrite K4).
  pose proof (initiate_migration_spec env U_bypass data t3 o c3 l ltac:(by rewrite (nt_next _ _ _ Hn3)) Hg3 Hsid Hl3) as Hspec.
  destruct (initiate_migration_out env U_bypass u data t3 o c3 l Ec3 Hsid Hl3 Hu3 ltac:(congruence)) as (o2 & Eo2 & Hq2 & Hin). unfold migrate.
  rewrite K7, Hp in Hspec. change (IPPROTO_TCP =? IPPROTO_UDP) with false in Hspec. cbv zeta iota in Hspec.
  destruct (initiate_connection_migration env o (Some U_bypass) data t3) as [r t4]. cbn [snd] in Eo2.
  destruct Hspec as (-> & Hbc & Hbs & (c1 & E1 & Hid1 & Hs1 & Hst1 & Hu1 & Hb1) & (sw & E2 & Hid2 & Hs2 & Hst2 & Hm2 & Hl2 & Hu2 & Ha2 & Hp2 & Hb2)).
  rewrite (nt_next _ _ _ Hn3) in *. cbn [Z.ltb Z.compare]. set (t5 := set_flags o _ t4).
  assert (t_out t5 = t_out t4 /\ t_by_client_id t5 = t_by_client_id t4 /\ t_by_server_id t5 = t_by_server_id t4) as (F1 & F2 & F3) by done.
  assert (exists c5, connection o t5 = Some c5 /\ akin c1 c5) as (c5 & E5 & (L1 & L2 & L3 & L4 & _)).
  { eexists. split; [subst t5; unfold set_flags; rewrite connection_update, decide_True, E1 by done; done|]. by split_and!. }
  assert (connection (t_next_object t) t5 = Some sw) as E6 by (subst t5; unfold set_flags; rewrite connection_update, decide_False; [done|congruence]).
  clearbody t5. split; [done|]. split.
  - exists (o1 ++ o2). rewrite F1, Eo2, Eo1, app_assoc. rewrite K1, K2, K6, K7 in Hin. destruct Hin as (I1 & I2 & I3).
    split_and!; [done|by apply Forall_app|rewrite elem_of_app; by right..].
  - exists c5, sw. rewrite F3. unfold get_by_client_id. rewrite F2, Hbc, (nt_client _ _ _ Hn3), Eo. cbn -[connection]. rewrite E5. split_and!; (done || congruence).
Qed.

(** C4. A TCP connection whose first packet is a client hello that names an excluded host goes past the endpoint, in the
    general mode, in which all others go through it.  The packet goes to no upstream: the listener is told that none of
    it was taken, and not to read on; the connection is opened anew on the bypass upstream, and its reading on the
    upstream it was on is stopped.  When the bypass upstream opens it, the client's id stands for the replacement, which
    is connected to the same address past the endpoint, with what was buffered before, and the old connection is closed
    on its upstream.  The conditions are that the connection is still looked up and nothing of it has been sent, that its
    upstream, its listener and the bypass upstream are there, and that the bypass upstream gives the replacement an id. *)
Theorem excluded_hello_is_bypassed env l u id version h rest t o c :
  reachable t -> get_by_client_id id t = Some (o, c) -> lock_upstream env c = Some u -> lock_listener env c = Some l ->
  vc_proto c = IPPROTO_TCP -> vc_extractor c = None ->
  CONNF_LOOKINGUP_DOMAIN (vc_flags c) = true -> CONNF_FIRST_PACKET (vc_flags c) = true ->
  get_mode (t_domain_filter t) = VPN_MODE_GENERAL -> match_domain (t_domain_filter t) (h_host h) = DFMS_EXCLUSION ->
  te_bypass env = true -> te_open_connection env U_bypass <> NON_ID ->
  named_hello version h -> Z.of_nat (length (hello_record version h ++ rest)) < 2 ^ 64 ->
  let sid := te_open_connection env U_bypass in
  let '(r, t1) := client_read env l id (hello_record version h ++ rest) t in
  r = Some 0 /\
  (exists outs, t_out t1 = t_out t ++ outs /\ Forall unsent outs /\ U_open_connection U_bypass sid (vc_addr c) (vc_proto c) [] ∈ outs /\
     L_turn_read l id false ∈ outs /\ U_update_flow_control u (vc_server_id c) no_flow ∈ outs) /\
  (forall env', lock_listener env' c = Some l -> lock_upstream env' c = Some u -> te_upstream_alive env' U_bypass = true ->
     let t2 := server_connection_opened env' U_bypass sid t1 in
     (exists sw c', get_by_client_id id t2 = Some (sw, c') /\ sw <> o /\ vc_server_id c' = sid /\ vc_state c' = CONNS_CONNECTED /\
        vc_upstream c' = Some U_bypass /\ vc_addr c' = vc_addr c /\ vc_buffered_packets c' = vc_buffered_packets c) /\
     (exists outs, t_out t2 = t_out t1 ++ outs /\ U_close_connection u (vc_server_id c) false false ∈ outs)).
Proof.
  intros Hr Hg Hu Hl Hp He Hlook Hfirst Hmode Hmatch Hby Hsid Hh Hsize. apply reachable_tables in Hr. pose proof (get_by_client_table _ _ _ _ Hg) as [Eo Ec].
  destruct (tb_client _ Hr _ _ Eo) as (c' & Ec' & Eid & Hnon). rewrite Ec in Ec'. injection Ec' as <-. pose proof (tb_allocated _ Hr _ _ Ec) as Hlt.
  unfold client_read. rewrite Hg, Hu. cbv zeta. set (t0 := do_health_check env (Some u) false t).
  assert (noted o t t0) as Hn0 by (apply noted_same; [apply do_health_check_tables|apply health_check_unsent]).
  assert (connection o t0 = Some c) as Ec0 by (subst t0; rewrite (same_tables_connection o t); [done|apply do_health_check_tables]).
  assert (t_domain_filter t0 = t_domain_filter t) as Hf0 by (subst t0; unfold do_health_check; by repeat case_match).
  clearbody t0. rewrite Hlook. unfold client_lookup.
  destruct (lookup_finds_name env o c version h rest t0) as (t1 & c1 & E & Hn1 & Ec1 & Hfl & Hm1); [done..|by rewrite Hf0|done|].
  rewrite E. cbv zeta. assert (noted o t t1) as Hn by by transitivity t0. destruct (nt_this _ _ _ Hn c Ec) as (c1' & Ec1' & (K1 & K2 & K3 & K4 & K5 & K6 & K7 & K8)).
  rewrite Ec1 in Ec1'. injection Ec1' as <-. destruct (nt_out _ _ _ Hn) as (o1 & Eo1 & Hq1).
  assert (get_by_client_id (vc_client_id c1) t1 = Some (o, c1)) as Hg1 by (unfold get_by_client_id; rewrite (nt_client _ _ _ Hn), K1, Eid, Eo; cbn -[connection]; by rewrite Ec1).
  pose proof (reroute_bypasses env l u (hello_record version h ++ rest) t1 o c1 Hg1 ltac:(rewrite (nt_next _ _ _ Hn); lia) ltac:(congruence)
    ltac:(unfold lock_upstream in *; by rewrite K4) ltac:(unfold lock_listener in *; by rewrite K5) ltac:(congruence) ltac:(congruence) ltac:(congruence) Hby Hsid) as Hre.
  cbv zeta in Hre. destruct (reroute env l u o _ t1) as [r t2]. destruct Hre as (-> & (o2 & Eo2 & Hq2 & Hin) & (c2 & sw & Hg2 & Hid2 & Hs2 & Hu2 & Hbs & Esw & Hs & Hst & Hm & Hls & Hus & Has & Hps & Hbf)).
  rewrite K1, K2, K6, K7, Eid in *. split; [done|]. split.
  - exists (o1 ++ o2). rewrite Eo2, Eo1, app_assoc. destruct Hin as (I1 & I2 & I3). split_and!; [done|by apply Forall_app|rewrite elem_of_app; by right..].
  - intros env' Hl' Hu' Halive. rewrite <- Hs in Hbs |- *.
    destruct (migration_completes env' U_bypass l t2 o c2 (t_next_object t1) sw Hbs Esw) as ((c' & Hg' & Hsv & Hst' & Hup & Had & Hbuf) & _ & (outs & Eouts & Hclose));
      [rewrite (nt_next _ _ _ Hn); lia|done|done|done|unfold lock_listener in *; by rewrite Hls, K5|by rewrite Hm|congruence|].
    split; [|exists outs; split; [done|]; rewrite <- Hs2; apply Hclose; unfold lock_upstream in *; by rewrite Hu2, K4].
    exists (t_next_object t1), c'. rewrite Hid2 in Hg'. rewrite Hps in Hbuf. change (IPPROTO_TCP =? IPPROTO_UDP) with false in Hbuf.
    cbv iota in Hbuf. split_and!; try congruence. rewrite (nt_next _ _ _ Hn). lia.
Qed.
End Proofs.

(** ** A sample *)

Module TunnelSample.
Import FilterSample ExtractorSample.

Definition HostnameCache : Type := list (TunnelAddressPair * DomainExtractorResult).
Definition SampleTunnel : Type := Tunnel (list (SockAddrTag * text)) (list (SocketAddress * Z)) HostnameCache.

Definition client : SocketAddress := mkSocketAddress AF_INET [10; 0; 0; 1] 5000.
Definition site : SocketAddress := mkSocketAddress AF_INET [8; 8; 4; 4] 443.

(** Everything is there and answers; [ids] gives the ids of newly opened connections. *)
Definition env (ids : Upstream -> Z) : TunnelEnv := {|
  te_now := 5000000; te_clock_ok := true; te_endpoint := Some 1; te_bypass := true; te_client_listener := true; te_dns_proxy_listener := false;
  te_listener_alive _ := true; te_upstream_alive _ := true; te_ip_available _ _ := true; te_early_ack := true;
  te_scannable_ports := [(443, 443)]; te_preresolve := false; te_preresolve_max_queries := 0;
  te_exclusions_mode := VPN_MODE_GENERAL; te_may_send_icmp := true; te_timeout_ms := 1000;
  te_open_connection := ids; te_send _ := Z.of_nat (length unnamed_record); te_available_to_send := 10; te_flow := mkFlow 10 10; te_listener_send := 3;
  te_resolve _ := Some 1; te_is_vpn_resolver_connection _ := false; te_is_loopback a := bool_decide (take 1 (sa_addr a) = [127]); te_parse_ip _ _ := None |}.

Definition start : SampleTunnel := snd (init (env (fun _ => 100)) (mkInitAnswers true true true true) [] [] (tunnel_new 7 empty_filter None)).

(** A TCP connection of the client to the site, as far as its first data. *)
Definition request : TunnelInput := I_listener L_client (CLIENT_EVENT_CONNECT_REQUEST 1 6 client (TA_address site) [] false).
Definition opening (ids : Upstream -> Z) : list (TunnelEnv * list Z * TunnelInput) :=
  let env := env ids in
  [(env, [], I_upstream (U_endpoint 1) SERVER_EVENT_SESSION_OPENED); (env, [], request); (env, [], I_complete 1 (Some VPN_CA_DEFAULT))].
Definition accepted (ids : Upstream -> Z) (u : Upstream) : list (TunnelEnv * list Z * TunnelInput) :=
  let env := env ids in
  opening ids ++ [(env, [], I_upstream u (SERVER_EVENT_CONNECTION_OPENED (ids u))); (env, [], I_listener L_client (CLIENT_EVENT_CONNECTION_ACCEPTED 1))].
Definition reading (data : list Z) : TunnelInput := I_listener L_client (CLIENT_EVENT_READ 1 data).
Definition request_line : list Z := Eval vm_compute in txt "GET / HTTP/1.1".
End TunnelSample.
Import FilterSample ExtractorSample TunnelSample.

(** *** What the code does not do as meant *)

(** The sample: the hello goes to the fake upstream, which takes no data. *)
Example hello_without_name_reaches_fake :
  let steps := accepted (fun _ => 100) U_fake ++
    [(env (fun _ => 101), [], reading unnamed_record);
     (env (fun _ => 101), [], I_upstream U_fake (SERVER_EVENT_CONNECTION_OPENED 101));
     (env (fun _ => 102), [], reading unnamed_record)] in
  List.filter (fun out => match out with U_send _ _ _ => true | _ => false end) (t_out (tunnel_run steps start)) =
    [U_send U_fake 101 unnamed_record].
Proof. vm_compute. reflexivity. Qed.

(** The application is told that the connection without an id was closed when a migrated
    connection is given up. *)
Example migration_reports_reserved_id :
  let steps := accepted (fun _ => 100) U_fake ++
    [(env (fun _ => 101), [], reading request_line);
     (env (fun _ => 101), [], I_upstream (U_endpoint 1) (SERVER_EVENT_CONNECTION_OPENED 101));
     (env (fun _ => 101), [], I_upstream U_fake (SERVER_EVENT_CONNECTION_CLOSED 100))] in
  last (t_out (tunnel_run steps start)) = Some (A_connection_closed NON_ID).
Proof. vm_compute. reflexivity. Qed.

(** A request that is completed twice leaves an entry that outlives its connection. *)
Example completing_twice_dangles :
  let steps := opening (fun _ => 100) ++
    [(env (fun _ => 101), [], I_complete 1 (Some VPN_CA_DEFAULT));
     (env (fun _ => 101), [], I_upstream U_fake (SERVER_EVENT_CONNECTION_CLOSED 101));
     (env (fun _ => 101), [], I_listener L_client (CLIENT_EVENT_CONNECTION_CLOSED 1))] in
  let t := tunnel_run steps start in
  t_by_server_id t !! 100 = Some 0 /\ t_heap t !! 0 = None.
Proof. vm_compute. done. Qed.

(** The upstreams a failed migration is closed on: both ids are given to the new upstream. *)
Example failed_migration_closes_on_wrong_upstream :
  let steps := accepted (fun _ => 100) U_fake ++
    [(env (fun _ => 101), [], reading request_line);
     (env (fun _ => 101), [], I_upstream (U_endpoint 1) (SERVER_EVENT_ERROR 101 AG_ETIMEDOUT))] in
  List.filter (fun out => match out with U_close_connection _ _ _ _ => true | _ => false end) (t_out (tunnel_run steps start)) =
    [U_close_connection (U_endpoint 1) 100 false true; U_close_connection (U_endpoint 1) 101 false true].
Proof. vm_compute. reflexivity. Qed.

(** *** Instances of the theorems *)

(** A connection that is opened on the fake upstream and moves to the endpoint with its first packet. *)
Definition usual : list (TunnelEnv * list Z * TunnelInput) :=
  accepted (fun _ => 100) U_fake ++
  [(env (fun _ => 101), [], reading record);
   (env (fun _ => 101), [], I_upstream (U_endpoint 1) (SERVER_EVENT_CONNECTION_OPENED 101));
   (env (fun _ => 101), [], I_upstream U_fake (SERVER_EVENT_CONNECTION_CLOSED 100));
   (env (fun _ => 101), [], reading request_line)].

Lemma start_reachable : reachable start.
Proof. apply reach_init. Qed.

Lemma usual_modest : modest usual start.
Proof. vm_compute. repeat split. Qed.

Lemma usual_reachable : reachable (tunnel_run usual start).
Proof. apply tunnel_run_reachable; [apply start_reachable|apply usual_modest]. Qed.

(** After the migration of the sample the id of the client stands for a live connection. *)
Lemma tables_never_dangle_witness :
  exists c, t_heap (tunnel_run usual start) !! 1 = Some c /\ vc_client_id c = 1 /\ 1 <> NON_ID.
Proof.
  refine (proj1 (tables_never_dangle (tunnel_run usual start) usual_reachable) 1 1 _). vm_compute. reflexivity.
Defined.

Lemma empty_match_domain domain : match_domain empty_filter domain = DFMS_DEFAULT.
Proof.
  unfold match_domain, match_domain_fuel.
  generalize (if negb (starts_with domain WWW_PREFIX) then domain else drop (length WWW_PREFIX) domain).
  induction (S (length domain)) as [|n IH]; intros seek; [done|]. cbn -[lookup]. rewrite lookup_empty.
  repeat case_match; auto.
Qed.

Lemma empty_match_address addr : match_address empty_filter addr = false.
Proof. unfold match_address. cbn. repeat case_bool_decide; set_solver. Qed.

(** The sample connection opens nothing past the endpoint. *)
Lemma nothing_leaks_witness :
  exists outs, t_out (tunnel_run usual start) = t_out start ++ outs /\
    (forall id addr proto name, U_open_connection U_bypass id addr proto name ∉ outs).
Proof.
  destruct (nothing_leaks usual start start_reachable) as (outs & E & Ho & _).
  - reflexivity.
  - intros domain. change (t_domain_filter start) with empty_filter. rewrite empty_match_domain. discriminate.
  - intros addr. change (t_domain_filter start) with empty_filter. apply empty_match_address.
  - intros o c Ec. discriminate Ec.
  - apply usual_modest.
  - exists outs. split; [exact E|exact Ho].
Defined.

(** Waking up issues a health check. *)
Lemma health_checks_are_paced_witness :
  health_checks (tunnel_step (env (fun _ => 100)) [] I_wake start) = [U_do_health_check (U_endpoint 1)].
Proof.
  destruct (health_checks_are_paced (env (fun _ => 100)) [] I_wake start start_reachable) as [[(_ & _ & Hn)|(u & E & Hu & _)] _].
  - exact I.
  - reflexivity.
  - destruct (Hn eq_refl) as [Hx|Hx]; discriminate Hx.
  - rewrite E. injection Hu as <-. reflexivity.
Defined.

(** The state of the sample connection when it was accepted. *)
Definition on_fake : SampleTunnel := tunnel_run (accepted (fun _ => 100) U_fake) start.
Definition on_fake_connection : VpnConnection :=
  match connection 0 on_fake with Some c => c | None => connection_make 0 (mkPair client (TA_address site)) 0 end.

Lemma on_fake_reachable : reachable on_fake.
Proof. apply tunnel_run_reachable; [apply start_reachable|]. vm_compute. repeat split. Qed.

(** The sample connection is on the endpoint after its migration. *)
Lemma migration_keeps_data_witness :
  exists sw c', get_by_client_id 1
      (server_connection_opened (env (fun _ => 101)) (U_endpoint 1) 101
        (snd (initiate_connection_migration (env (fun _ => 101)) 0 (Some (U_endpoint 1)) [22; 3; 1] on_fake))) = Some (sw, c') /\
    vc_server_id c' = 101 /\ vc_state c' = CONNS_CONNECTED.
Proof.
  assert (vc_client_id on_fake_connection = 1) as Hid by (vm_compute; reflexivity).
  pose proof (migration_keeps_data (env (fun _ => 101)) (env (fun _ => 101)) (U_endpoint 1) [22; 3; 1] on_fake 0
    on_fake_connection L_client on_fake_reachable ltac:(vm_compute; reflexivity) ltac:(vm_compute; discriminate)
    ltac:(vm_compute; reflexivity) ltac:(vm_compute; reflexivity) eq_refl) as Hm.
  rewrite Hid in Hm. cbv zeta in Hm. destruct (initiate_connection_migration _ _ _ _ _) as [r t1].
  destruct Hm as (_ & (sw & c' & Hg & _ & Hs & Hst & _) & _). exists sw, c'. split; [exact Hg|]. split; [exact Hs|exact Hst].
Defined.

(** The hello of the sample opens a second connection on the fake upstream. *)
Lemma unnamed_hello_stays_on_fake_witness :
  U_open_connection U_fake 101 (mkPair client (TA_address site)) 6 [] ∈
    t_out (snd (client_read (env (fun _ => 101)) L_client 1 unnamed_record on_fake)).
Proof.
  refine (unnamed_hello_stays_on_fake (env (fun _ => 101)) L_client 1 unnamed_record on_fake 0
    on_fake_connection site _ _ _ _ _ _ _ _ _ _ _ _); vm_compute; first [reflexivity | discriminate].
Defined.

(** The same tunnel with the host of the sample excluded. *)
Definition excluding_start : SampleTunnel :=
  snd (init (env (fun _ => 100)) (mkInitAnswers true true true true) [] []
    (tunnel_new 7 (snd (update_exclusions VPN_MODE_GENERAL (txt "example.org") empty_filter)) None)).
Definition excluding : SampleTunnel := tunnel_run (accepted (fun _ => 100) U_fake) excluding_start.

Lemma excluding_reachable : reachable excluding.
Proof. apply tunnel_run_reachable; [apply reach_init|]. vm_compute. repeat split. Qed.

(** The hello of the sample moves the connection past the endpoint. *)
Lemma excluded_hello_is_bypassed_witness :
  let t1 := snd (client_read (env (fun _ => 101)) L_client 1 (hello_record 769 hello ++ []) excluding) in
  exists sw c', get_by_client_id 1 (server_connection_opened (env (fun _ => 101)) U_bypass 101 t1) = Some (sw, c') /\ vc_upstream c' = Some U_bypass.
Proof.
  pose proof (excluded_hello_is_bypassed (env (fun _ => 101)) L_client U_fake 1 769 hello [] excluding 0 on_fake_connection excluding_reachable
    ltac:(vm_compute; reflexivity) ltac:(vm_compute; reflexivity) ltac:(vm_compute; reflexivity) ltac:(vm_compute; reflexivity) ltac:(vm_compute; reflexivity)
    ltac:(vm_compute; reflexivity) ltac:(vm_compute; reflexivity) ltac:(vm_compute; reflexivity) ltac:(vm_compute; reflexivity) eq_refl
    ltac:(vm_compute; discriminate) hello_is_named ltac:(vm_compute; reflexivity)) as Ht.
  cbv zeta in Ht |- *. destruct (client_read _ _ _ _ _) as [r t1]. destruct Ht as (_ & _ & Ht).
  destruct (Ht (env (fun _ => 101)) ltac:(vm_compute; reflexivity) ltac:(vm_compute; reflexivity) eq_refl) as ((sw & c' & Hg & _ & _ & _ & Hu & _) & _).
  exists sw, c'. split; [exact Hg|exact Hu].
Defined.

(** *** More of what the code does not do as meant *)

(** An event of an upstream the connection does not belong to closes the id of the tunnel, here 7, on it. *)
Example sent_event_closes_tunnel_id :
  last (t_out (server_data_sent (env (fun _ => 100)) U_bypass 100 0 (tunnel_run (opening (fun _ => 100)) start))) =
    Some (U_close_connection U_bypass 7 false true).
Proof. vm_compute. reflexivity. Qed.

(** A loopback destination is sent past the endpoint when it is given as an address, but not as a name. *)
Example loopback_by_name :
  let loopback := mkSocketAddress AF_INET [127; 0; 0; 1] 8080 in
  let env := (env (fun _ => 100))
    <| te_parse_ip := fun name port => if bool_decide (name = txt "127.0.0.1") then Some (mkSocketAddress AF_INET [127; 0; 0; 1] port) else None |> in
  let ask dst := t_out (client_connect_request env L_client 1 6 client dst [] false start) in
  ask (TA_address loopback) = [U_open_connection U_bypass 100 (mkPair client (TA_address loopback)) 6 []] /\
  ask (TA_name (txt "127.0.0.1") 8080) = [A_connect_request 1].
Proof. vm_compute. split; reflexivity. Qed.

(** The bytes of a packet that is taken in part are sent but not counted. *)
Example partial_send_is_not_counted :
  let c := on_fake_connection <| vc_buffered_packets := [[1; 2; 3; 4; 5]] |> in
  let t := on_fake <| t_heap := {[0 := c]} |> in
  let t' := snd (send_buffered_data ((env (fun _ => 100)) <| te_send := fun _ => 3 |>) 1 t) in
  (fun c => (vc_outgoing_bytes c, vc_buffered_packets c)) <$> connection 0 t' = Some (0, [[4; 5]]).
Proof. vm_compute. reflexivity. Qed.

(** A UDP packet read while the connection migrates is kept, but the result of the event is not set. *)
Example udp_read_while_migrating :
  let c := on_fake_connection <| vc_proto := IPPROTO_UDP |> <| vc_state := CONNS_CONNECTED_MIGRATING |> <| vc_flags := no_conn_flags |> in
  let t := on_fake <| t_heap := {[0 := c]} |> in
  let '(r, t') := client_read (env (fun _ => 100)) L_client 1 [9] t in
  r = None /\ vc_buffered_packets <$> connection 0 t' = Some [[9]].
Proof. vm_compute. split; reflexivity. Qed.

(** A name of a request that must bypass the VPN is resolved, and the address is chosen by what the
    endpoint can reach: an IPv6 address is used although the bypass upstream has no IPv6. *)
Example forced_bypass_checks_endpoint :
  let v6 := mkSocketAddress AF_INET6 [0; 0; 0; 0; 0; 0; 0; 0; 0; 0; 0; 0; 0; 0; 0; 9] 0 in
  let env := (env (fun _ => 100)) <| te_ip_available := fun u v => match u, v with U_bypass, IPV6 => false | _, _ => true end |> in
  let steps := [(env, [], I_listener L_client (CLIENT_EVENT_CONNECT_REQUEST 1 6 client (TA_name (txt "a.net") 443) [] false));
                (env, [], I_complete 1 (Some VPN_CA_FORCE_BYPASS)); (env, [], I_resolved 1 (Some [v6]))] in
  last (t_out (tunnel_run steps start)) =
    Some (U_open_connection U_bypass 100 (mkPair client (TA_address (with_port 443 v6))) 6 []).
Proof. vm_compute. reflexivity. Qed.
