(* ===== verification/Socks5.v ===== *)
(** * The SOCKS5 listener

    Models [net/src/socks5_listener.cpp]: the connections of local applications, their
    authentication and requests as SOCKS5 defines them, and the UDP relays.

    A connection is found by the low 32 bits of its id, the key of the table; an object that
    is used after it was destroyed is a fault.  Sockets and the handler of the events answer
    through [SocksEnv]; the handler may close connections before it returns, and such a
    close raises its event but no further one.  [socks_step] is the step of any input. *)

From stdpp Require Import gmap.
From S2P Require Import Prelude VpnTypes Wire View.

(** ** The protocol *)

Definition SOCKS5_VER : Z := 5.
Definition USERNAME_PASSWORD_VER : Z := 1.

Definition S5AM_NO_AUTHENTICATION_REQUIRED : Z := 0.
Definition S5AM_USERNAME_PASSWORD : Z := 2.
Definition S5AM_USERNAME_PASSWORD_APPNAME : Z := 130.
Definition S5AM_NO_ACCEPTABLE_METHODS : Z := 255.

Definition S5CMD_CONNECT : Z := 1.
Definition S5CMD_UDP_ASSOCIATE : Z := 3.

Definition S5AT_IPV4 : Z := 1.
Definition S5AT_DOMAINNAME : Z := 3.
Definition S5AT_IPV6 : Z := 4.
Definition S5AT_IPV4_APPNAME : Z := 241.
Definition S5AT_DOMAINNAME_APPNAME : Z := 243.
Definition S5AT_IPV6_APPNAME : Z := 244.

Definition S5RS_SOCKS_SERVER_FAILURE : Z := 1.
Definition S5RS_COMMAND_NOT_SUPPORTED : Z := 7.
Definition S5RS_ADDRESS_TYPE_NOT_SUPPORTED : Z := 8.

Inductive Socks5ConnectResult := S5LCR_SUCCESS | S5LCR_REJECT | S5LCR_TIMEOUT | S5LCR_UNREACHABLE.
#[export] Instance connect_result_eq_dec : EqDecision Socks5ConnectResult.
Proof. solve_decision. Defined.

(** The status of the reply: succeeded, connection refused, TTL expired, host unreachable. *)
Definition CONNECT_RESULT_TO_STATUS (r : Socks5ConnectResult) : Z :=
  match r with S5LCR_SUCCESS => 0 | S5LCR_REJECT => 5 | S5LCR_TIMEOUT => 6 | S5LCR_UNREACHABLE => 4 end.

Definition IPPROTO_TCP : Z := 6.
Definition IPPROTO_UDP : Z := 17.
Definition AG_ETIMEDOUT : Z := 110.
Definition IPV4_ADDR_SIZE : Z := 4.
Definition IPV6_ADDR_SIZE : Z := 16.
Definition HEADER_SIZE : Z := 4.

Definition LOOPBACK4 : list Z := [127; 0; 0; 1].
Definition LOOPBACK6 : list Z := [0; 0; 0; 0; 0; 0; 0; 0; 0; 0; 0; 0; 0; 0; 0; 1].

(** A [Socks5ConnectionAddress] is an address or a name with a port, as a [TunnelAddress] is. *)
Definition socks_atyp_by_addr (addr : TunnelAddress) : Z :=
  match addr with
  | TA_address ip => if is_ipv4 ip then S5AT_IPV4 else S5AT_IPV6
  | TA_name _ _ => S5AT_DOMAINNAME
  end.

(** ** Requests

    The bytes are read where the code reads them. *)

Definition bytes_of (data : list Z) (i n : Z) : Checked (list Z) := read (mkMemory 0 data) (whole (mkMemory 0 data)) i n.
Definition byte_of (data : list Z) (i : Z) : Checked Z := get (mkMemory 0 data) (whole (mkMemory 0 data)) i 1.
Definition port_of (data : list Z) (i : Z) : Checked Z := get (mkMemory 0 data) (whole (mkMemory 0 data)) i 2.

Definition has_app_name (type : Z) : bool :=
  (type =? S5AT_DOMAINNAME_APPNAME) || (type =? S5AT_IPV4_APPNAME) || (type =? S5AT_IPV6_APPNAME).

(** The length of the address in the [length] bytes at [i], negative if more is needed. *)
Definition addr_length_from_request (type : Z) (data : list Z) (i length : Z) : Checked Z :=
  if type =? S5AT_IPV4 then mret IPV4_ADDR_SIZE
  else if type =? S5AT_DOMAINNAME then
    if length =? 0 then mret (-1) else n ← byte_of data i; mret (1 + n)
  else if type =? S5AT_IPV6 then mret IPV6_ADDR_SIZE
  else if type =? S5AT_IPV4_APPNAME then
    if length =? 0 then mret (-1) else n ← byte_of data i; mret (1 + n + IPV4_ADDR_SIZE)
  else if type =? S5AT_DOMAINNAME_APPNAME then
    if length =? 0 then mret (-1)
    else n ← byte_of data i;
         if length <? n + 2 then mret (-1) else k ← byte_of data (i + n + 1); mret (1 + n + 1 + k)
  else if type =? S5AT_IPV6_APPNAME then
    if length =? 0 then mret (-1) else n ← byte_of data i; mret (1 + n + IPV6_ADDR_SIZE)
  else mret 0.

Definition app_name_from_request (type : Z) (data : list Z) (i : Z) : Checked (list Z) :=
  if has_app_name type then n ← byte_of data i; bytes_of data (i + 1) n else mret [].

Definition dst_addr_from_request `{SocketAddressLib} (type : Z) (data : list Z) (i : Z) : Checked TunnelAddress :=
  skip ← (if has_app_name type then n ← byte_of data i; mret (n + 1) else mret 0);
  let i := i + skip in
  let type := if has_app_name type then Z.lxor type 240 else type in
  if type =? S5AT_DOMAINNAME then
    n ← byte_of data i;
    name ← bytes_of data (i + 1) n;
    port ← port_of data (i + n + 1);
    mret (TA_name name port)
  else
    let addr_len := if type =? S5AT_IPV4 then IPV4_ADDR_SIZE else IPV6_ADDR_SIZE in
    addr ← bytes_of data i addr_len;
    port ← port_of data (i + addr_len);
    mret (TA_address (socket_address addr port)).

(** [read_username_password_request]: the bytes consumed, the version, the name and the password. *)
Definition read_username_password_request (data : list Z) : option (Z * Z * list Z * list Z) :=
  match data with
  | ver :: ulen :: data =>
      if Z.of_nat (length data) <=? ulen then None
      else
        let uname := take (Z.to_nat ulen) data in
        let plen := nth (Z.to_nat ulen) data 0 in
        let data := drop (Z.to_nat ulen + 1) data in
        if Z.of_nat (length data) <? plen then None
        else Some (3 + ulen + plen, ver, uname, take (Z.to_nat plen) data)
  | _ => None
  end.

(** The method for the authentication: the last supported one, or the first one with application names. *)
Fixpoint choose_method (supported : Z) (chosen : option Z) (methods : list Z) : option Z :=
  match methods with
  | [] => chosen
  | m :: methods =>
      if m =? supported then choose_method supported (Some m) methods
      else if m =? supported + 128 then Some m
      else choose_method supported chosen methods
  end.

(** ** The state *)

Inductive ConnectionState :=
| S5CONNS_IDLE | S5CONNS_WAITING_USERNAME_PASSWORD | S5CONNS_WAITING_REQUEST | S5CONNS_WAITING_CONNECT_RESULT
| S5CONNS_WAITING_ACCEPT | S5CONNS_ESTABLISHED | S5CONNS_FAILED.
#[export] Instance connection_state_eq_dec : EqDecision ConnectionState.
Proof. solve_decision. Defined.

(** The handler is told about the end of a connection in a state from [S5CONNS_WAITING_CONNECT_RESULT] on. *)
Definition is_announced (st : ConnectionState) : bool :=
  match st with
  | S5CONNS_IDLE | S5CONNS_WAITING_USERNAME_PASSWORD | S5CONNS_WAITING_REQUEST => false
  | S5CONNS_WAITING_CONNECT_RESULT | S5CONNS_WAITING_ACCEPT | S5CONNS_ESTABLISHED | S5CONNS_FAILED => true
  end.

(** [k_relay] is the key of the TCP connection of the UDP relay. *)
Record Connection := mkConnection {
  k_state : ConnectionState;
  k_id : Z;
  k_addr : TunnelAddressPair;
  k_proto : Z;
  k_app_name : list Z;
  k_readable : bool;
  k_sent_bytes_since_flush : Z;
  k_pending_udp_packets : list (list Z);
  k_relay : option Z;
}.
#[export] Instance eta_Connection : Eta Connection := fun c =>
  mkConnection (k_state c) (k_id c) (k_addr c) (k_proto c) (k_app_name c) (k_readable c) (k_sent_bytes_since_flush c)
    (k_pending_udp_packets c) (k_relay c).

Definition connection_new (id : Z) : Connection :=
  mkConnection S5CONNS_IDLE id (mkPair no_address (TA_address no_address)) 0 [] false 0 [] None.

(** The table of a relay, [None] until it is made; its key is the address of the connection. *)
Definition AddressTable : Type := list (TunnelAddressPair * Z).

Inductive SocksOut :=
| E_CONNECT_REQUEST (id proto : Z) (src : SocketAddress) (dst : TunnelAddress) (app_name : list Z)
| E_CONNECTION_ACCEPTED (id : Z)
| E_READ (id : Z) (data : list Z)
| E_DATA_SENT (id length : Z)
| E_CONNECTION_CLOSED (id error : Z)
| E_PROTECT_SOCKET
| T_write (key : Z) (data : list Z)
| T_drain (key n : Z)
| T_set_read_enabled (key : Z) (on : bool)
| T_set_rst (key : Z)
| T_set_timeout (key : Z)
| T_destroy (key : Z)
| U_open (relay : Z)
| U_sendto (relay : Z) (data : list Z) (dst : SocketAddress)
| U_close (relay : Z).

Inductive PeekResult := NoData | Eof | Chunk (data : list Z).

(** What sockets and the handler answer during a step; [se_order] is the order of the tables, [se_bucket] the
    place of a key in them, [se_stack] what the stack holds, and [se_closes] the connections the handler closes
    in reply to an event. *)
Record SocksEnv := mkSocksEnv {
  se_new_id : Z;
  se_socket : bool;
  se_write : Z;
  se_drain : Z -> bool;
  se_local_port : Z;
  se_remote : SocketAddress;
  se_udp_socket : option SocketAddress;
  se_sendto : Z * bool;
  se_read_enabled : nat -> bool;
  se_read_result : nat -> Z;
  se_peek : nat -> PeekResult;
  se_closes : SocksOut -> list (Z * bool);
  se_order : list Z;
  se_bucket : Z -> Z;
  se_stack : list Z;
}.

Record Socks5Listener := mkSocks5Listener {
  l_username : list Z;
  l_password : list Z;
  l_connections : gmap Z Connection;
  l_udp_relays : gmap Z (option AddressTable);
  l_async_task : bool;
  l_conns_with_pending_udp : list Z;
  l_out : list SocksOut;
  l_faults : list string;
}.
#[export] Instance eta_Socks5Listener : Eta Socks5Listener := fun l =>
  mkSocks5Listener (l_username l) (l_password l) (l_connections l) (l_udp_relays l) (l_async_task l)
    (l_conns_with_pending_udp l) (l_out l) (l_faults l).

(** [socks5_listener_create] *)
Definition socks5_listener_create (is_loopback : bool) (username password : list Z) : option Socks5Listener :=
  if negb (eqb (bool_decide (username = [])) (bool_decide (password = []))) then None
  else if negb is_loopback && bool_decide (username = []) then None
  else Some (mkSocks5Listener username password ∅ ∅ false [] [] []).

(** ** Operations *)

Section Socks5.
Context `{SocketAddressLib} (env : SocksEnv).
Implicit Types (l : Socks5Listener) (c : Connection) (key id : Z).

Definition emit (o : SocksOut) l : Socks5Listener := l <| l_out := l_out l ++ [o] |>.
Definition fault (what : string) l : Socks5Listener := l <| l_faults := l_faults l ++ [what] |>.
Definition noting {A} (x : Checked A) l : A * Socks5Listener := (fst x, l <| l_faults := l_faults l ++ snd x |>).

Definition USE_AFTER_FREE : string := "use after free".

(** The keys of the tables have 32 bits. *)
Definition key_of (id : Z) : Z := uwrap 32 id.
Definition find id l : option Connection := l_connections l !! key_of id.

(** An assignment to the fields of a connection that the code has a pointer to. *)
Definition update key (f : Connection -> Connection) l : Socks5Listener :=
  match l_connections l !! key with
  | None => fault USE_AFTER_FREE l
  | Some c => l <| l_connections := <[key := f c]> (l_connections l) |>
  end.
Definition set_state key (st : ConnectionState) : Socks5Listener -> Socks5Listener := update key (fun c => c <| k_state := st |>).

Definition is_udp_association_tcp_connection key c l : bool :=
  (k_proto c =? 0) && bool_decide (l_udp_relays l !! key <> None).

Definition table_remove (addr : TunnelAddressPair) (table : AddressTable) : AddressTable :=
  List.filter (fun e => negb (bool_decide (fst e = addr))) table.

Definition destroy_connection key l : Socks5Listener :=
  match l_connections l !! key with
  | None => fault USE_AFTER_FREE l
  | Some c =>
      let l := l <| l_connections := delete key (l_connections l) |> in
      let l :=
        if k_proto c =? IPPROTO_UDP then
          match k_relay c with
          | None => fault "null pointer" l
          | Some relay =>
              match l_udp_relays l !! relay with
              | None => fault USE_AFTER_FREE l
              | Some None => l
              | Some (Some table) => l <| l_udp_relays := <[relay := Some (table_remove (k_addr c) table)]> (l_udp_relays l) |>
              end
          end
        else l in
      emit (T_destroy key) l
  end.

(** [socks5_listener_close_connection], from the handler of an event. *)
Definition close_now id (graceful : bool) l : Socks5Listener :=
  match find id l with
  | None => l
  | Some c =>
      let l := if negb graceful && (k_proto c =? IPPROTO_TCP) then emit (T_set_rst (key_of id)) l else l in
      destroy_connection (key_of id) (emit (E_CONNECTION_CLOSED (k_id c) 0) l)
  end.

(** The handler is called. *)
Definition raise (e : SocksOut) l : Socks5Listener :=
  fold_left (fun l x => close_now (fst x) (snd x) l) (se_closes env e) (emit e l).

(** *** Replies *)

Definition addr_bytes (dst : TunnelAddress) : list Z :=
  match dst with
  | TA_address ip => sa_addr ip
  | TA_name name _ => uwrap 8 (Z.of_nat (length name)) :: name
  end.

Definition complete_tcp_connection key c (result : Socks5ConnectResult) l : Socks5Listener :=
  let dst := tap_dst (k_addr c) in
  let reply := [SOCKS5_VER; CONNECT_RESULT_TO_STATUS result; 0; socks_atyp_by_addr dst] ++ addr_bytes dst ++ be_bytes 2 (se_local_port env) in
  let l := emit (T_write key reply) l in
  if se_write env =? 0 then l
  else destroy_connection key (raise (E_CONNECTION_CLOSED (k_id c) (se_write env)) l).

Definition complete_udp_connection key c (result : Socks5ConnectResult) l : Socks5Listener :=
  if bool_decide (result = S5LCR_SUCCESS) then
    let l := raise (E_CONNECTION_ACCEPTED (k_id c)) l in
    let l := set_state key S5CONNS_ESTABLISHED l in
    l <| l_conns_with_pending_udp := l_conns_with_pending_udp l ++ [k_id c] |> <| l_async_task := true |>
  else destroy_connection key (raise (E_CONNECTION_CLOSED (k_id c) 0) l).

Definition socks5_listener_complete_connect_request id (result : Socks5ConnectResult) l : Socks5Listener :=
  match find id l with
  | None => l
  | Some c =>
      match k_state c with
      | S5CONNS_FAILED => l
      | st =>
          let l := if bool_decide (st = S5CONNS_WAITING_CONNECT_RESULT) then l else fault "not waiting for a connect result" l in
          let l := set_state (key_of id) (if bool_decide (result = S5LCR_SUCCESS) then S5CONNS_WAITING_ACCEPT else S5CONNS_FAILED) l in
          if k_proto c =? IPPROTO_TCP then complete_tcp_connection (key_of id) c result l
          else complete_udp_connection (key_of id) c result l
      end
  end.

(** *** UDP packets that came before the connection was there *)

Fixpoint send_packets key id (packets : list (list Z)) l : Socks5Listener :=
  match packets with
  | [] => l
  | data :: packets =>
      let l := raise (E_READ id data) l in
      if se_read_result env (length packets) <? 0
      then destroy_connection key (raise (E_CONNECTION_CLOSED id (-1)) l)
      else send_packets key id packets l
  end.

Definition send_pending id l : Socks5Listener :=
  match find id l with
  | None => l
  | Some c =>
      let l := update (key_of id) (fun c => c <| k_pending_udp_packets := [] |>) l in
      send_packets (key_of id) (k_id c) (k_pending_udp_packets c) l
  end.

Definition send_pending_udp_data l : Socks5Listener :=
  let ids := l_conns_with_pending_udp l in
  fold_left (fun l id => send_pending id l) ids (l <| l_async_task := false |> <| l_conns_with_pending_udp := [] |>).

(** *** Data *)

(** The packet for the client; a name has no place in it. *)
Definition udp_reply (dst : TunnelAddress) (data : list Z) : Checked (list Z) :=
  match dst with
  | TA_address ip => mret ([0; 0; 0; socks_atyp_by_addr dst] ++ sa_addr ip ++ be_bytes 2 (sa_port ip) ++ data)
  | TA_name _ _ => _ ← wrong "address type"; mret []
  end.

Definition socks5_listener_send_data id (data : list Z) l : Z * Socks5Listener :=
  match find id l with
  | None => (-1, l)
  | Some c =>
      let key := key_of id in
      let l := if bool_decide (k_state c = S5CONNS_ESTABLISHED) then l else fault "not established" l in
      if k_proto c =? IPPROTO_TCP then (se_write env, emit (T_write key data) l)
      else
        let '(reply, l) := noting (udp_reply (tap_dst (k_addr c)) data) l in
        match k_relay c with
        | None => (-1, fault "null pointer" l)
        | Some relay =>
            let l := if bool_decide (l_udp_relays l !! relay = None) then fault USE_AFTER_FREE l else l in
            let l := emit (U_sendto relay reply (tap_src (k_addr c))) l in
            let '(r, ok) := se_sendto env in
            if ok : bool then
              (0, update key (fun c => c <| k_sent_bytes_since_flush := k_sent_bytes_since_flush c + Z.of_nat (length data) |>) l)
            else (r, l)
        end
  end.

Definition socks5_listener_turn_read id (on : bool) l : Socks5Listener :=
  match find id l with
  | None => l
  | Some c =>
      if k_proto c =? IPPROTO_TCP then emit (T_set_read_enabled (key_of id) on) l
      else update (key_of id) (fun c => c <| k_readable := on |>) l
  end.

Definition socks5_listener_close_connection id (graceful : bool) l : Socks5Listener :=
  match find id l with
  | None => l
  | Some c =>
      let l := if negb graceful && (k_proto c =? IPPROTO_TCP) then emit (T_set_rst (key_of id)) l else l in
      destroy_connection (key_of id) (raise (E_CONNECTION_CLOSED (k_id c) 0) l)
  end.

Definition raise_connect_request c : Socks5Listener -> Socks5Listener :=
  raise (E_CONNECT_REQUEST (k_id c) (k_proto c) (tap_src (k_addr c)) (tap_dst (k_addr c)) (k_app_name c)).

Definition pend_udp_packet key (data : list Z) : Socks5Listener -> Socks5Listener :=
  update key (fun c => c <| k_pending_udp_packets := k_pending_udp_packets c ++ [data] |>).

Definition handle_udp_read key (data : list Z) l : Socks5Listener :=
  match l_connections l !! key with
  | None => fault USE_AFTER_FREE l
  | Some c =>
      match k_state c with
      | S5CONNS_IDLE =>
          let l := pend_udp_packet key data (set_state key S5CONNS_WAITING_CONNECT_RESULT l) in
          raise_connect_request c l
      | S5CONNS_WAITING_ACCEPT | S5CONNS_WAITING_REQUEST | S5CONNS_WAITING_USERNAME_PASSWORD =>
          destroy_connection key (fault "UDP packet in a wrong state" l)
      | S5CONNS_WAITING_CONNECT_RESULT => pend_udp_packet key data l
      | S5CONNS_ESTABLISHED => if k_readable c then raise (E_READ (k_id c) data) l else l
      | S5CONNS_FAILED => l
      end
  end.

(** *** UDP associations *)

(** The connections in the table, in the order of the table. *)
Definition in_order : list Z -> list Z := in_table_order (se_order env).
Definition relay_table (relay : Z) l : AddressTable := match l_udp_relays l !! relay with Some (Some table) => table | _ => [] end.

Definition close_relayed (relay error key : Z) l : Socks5Listener :=
  if bool_decide (key ∈ map snd (relay_table relay l)) then
    match l_connections l !! key with
    | None => fault USE_AFTER_FREE l
    | Some c => destroy_connection key (raise (E_CONNECTION_CLOSED (k_id c) error) l)
    end
  else l.

Definition terminate_udp_association key (error : Z) l : Socks5Listener :=
  match l_connections l !! key with
  | None => fault USE_AFTER_FREE l
  | Some c =>
      if negb (is_udp_association_tcp_connection key c l) then fault "not a UDP association" l
      else
        let l := fold_left (fun l k => close_relayed key error k l) (in_order (map snd (relay_table key l))) l in
        let l := emit (U_close key) (l <| l_udp_relays := delete key (l_udp_relays l) |>) in
        destroy_connection key l
  end.

Definition reply_address (bound : option SocketAddress) (atyp : Z) : list Z :=
  let loopback := if atyp =? S5AT_IPV4 then LOOPBACK4 else LOOPBACK6 in
  match bound with
  | Some a => if is_ipv4 a || is_ipv6 a then sa_addr a ++ be_bytes 2 (sa_port a) else loopback
  | None => loopback
  end.

(** Whether the association is there; the connection may be gone if it is not. *)
Definition complete_udp_association key c l : bool * Socks5Listener :=
  let bound := se_udp_socket env in
  let has_event := bool_decide (bound <> None) in
  let atyp := match bound with
              | Some a => if is_ipv4 a then S5AT_IPV4 else if is_ipv6 a then S5AT_IPV6 else socks_atyp_by_addr (tap_dst (k_addr c))
              | None => socks_atyp_by_addr (tap_dst (k_addr c))
              end in
  let addr_size := if atyp =? S5AT_IPV4 then IPV4_ADDR_SIZE else if atyp =? S5AT_IPV6 then IPV6_ADDR_SIZE else 0 in
  let l := if atyp =? S5AT_DOMAINNAME then fault "address type" l else l in
  let reply := take (Z.to_nat (HEADER_SIZE + addr_size + 2))
    ([SOCKS5_VER; if has_event then 0 else 1; 0; atyp] ++ reply_address bound atyp ++ se_stack env) in
  let l := if has_event then
             let l := emit (U_open key) (if bool_decide (l_udp_relays l !! key = None) then l else fault "relay exists" l) in
             l <| l_udp_relays := <[key := None]> (l_udp_relays l) |>
           else l in
  let l := emit (T_write key reply) l in
  if se_write env =? 0 then
    (has_event, if has_event then emit (T_set_read_enabled key true) (emit (T_set_timeout key) l) else l)
  else (false, terminate_udp_association key (se_write env) l).

Definition lookup_address (addr : TunnelAddressPair) (table : AddressTable) : option Z :=
  snd <$> List.find (fun e => bool_decide (fst e = addr)) table.

(** The bytes of the header and the connection; [0] and less if there are none. *)
Definition process_udp_header (relay : Z) (data : list Z) (src : SocketAddress) l : Z * Z * Socks5Listener :=
  let length := Z.of_nat (length data) in
  if length <? HEADER_SIZE then (0, 0, l)
  else
    let atyp := nth 3 data 0 in
    let '(addr_len, l) := noting (addr_length_from_request atyp data HEADER_SIZE (length - HEADER_SIZE)) l in
    if (addr_len <? 0) || (length <? HEADER_SIZE + addr_len + 2) then (0, 0, l)
    else if negb (be_value (take 2 data) =? 0) then (-1, 0, l)
    else if negb (nth 2 data 0 =? 0) then (-1, 0, l)
    else if negb ((atyp =? S5AT_IPV4) || (atyp =? S5AT_IPV6)) then (0, 0, l)
    else
      let table := relay_table relay l in
      let '(dst, l) := noting (dst_addr_from_request atyp data HEADER_SIZE) l in
      let addr := mkPair src dst in
      let processed := HEADER_SIZE + addr_len + 2 in
      match lookup_address addr table with
      | Some key => (processed, key, l <| l_udp_relays := <[relay := Some table]> (l_udp_relays l) |>)
      | None =>
          let '(app_name, l) := noting (app_name_from_request atyp data HEADER_SIZE) l in
          let id := se_new_id env in
          let key := key_of id in
          let c := (connection_new id) <| k_addr := addr |> <| k_proto := IPPROTO_UDP |> <| k_relay := Some relay |> <| k_app_name := app_name |> in
          let l := l <| l_udp_relays := <[relay := Some (table ++ [(addr, key)])]> (l_udp_relays l) |> in
          let l := if bool_decide (l_connections l !! key = None) then l else fault "id is in use" l in
          (processed, key, l <| l_connections := <[key := c]> (l_connections l) |>)
      end.

Inductive UdpEvent := UDP_read (data : list Z) (src : SocketAddress) | UDP_read_error | UDP_timeout.

(** [info->id] is the key of the TCP connection. *)
Definition udp_event_handler (relay : Z) (what : UdpEvent) l : Socks5Listener :=
  match l_connections l !! relay, l_udp_relays l !! relay with
  | Some _, Some _ =>
      match what with
      | UDP_read [] _ | UDP_read_error => l
      | UDP_read data src =>
          let '(processed, key, l) := process_udp_header relay data src l in
          if 0 <? processed then handle_udp_read key (drop (Z.to_nat processed) data) l else l
      | UDP_timeout => terminate_udp_association relay AG_ETIMEDOUT l
      end
  | _, _ => fault "no relay" l
  end.

(** *** The sockets of the clients *)

(** What a chunk comes to: so many bytes are taken from the socket, or the connection is closed. *)
Inductive Verdict := V_drain (n : Z) | V_close (error : Z).

(** The end of the cases that reply. *)
Definition send_reply key (reply : list Z) (to_drain : Z) l : Verdict * Socks5Listener :=
  (if se_write env =? 0 then V_drain to_drain else V_close (se_write env), emit (T_write key reply) l).

Definition read_auth_request key (chunk : list Z) l : Verdict * Socks5Listener :=
  let size := Z.of_nat (length chunk) in
  let auth_failed l := send_reply key [SOCKS5_VER; S5AM_NO_ACCEPTABLE_METHODS] size (set_state key S5CONNS_FAILED l) in
  match chunk with
  | ver :: nmethods :: methods =>
      if negb (ver =? SOCKS5_VER) then auth_failed l
      else if size <? 2 + nmethods then (V_drain 0, l)
      else
        let supported := if bool_decide (l_username l = []) then S5AM_NO_AUTHENTICATION_REQUIRED else S5AM_USERNAME_PASSWORD in
        match choose_method supported None (take (Z.to_nat nmethods) methods) with
        | None => auth_failed l
        | Some method =>
            let st := if (method =? S5AM_USERNAME_PASSWORD) || (method =? S5AM_USERNAME_PASSWORD_APPNAME)
                      then S5CONNS_WAITING_USERNAME_PASSWORD else S5CONNS_WAITING_REQUEST in
            send_reply key [SOCKS5_VER; method] (2 + nmethods) (set_state key st l)
        end
  | _ => (V_drain 0, l)
  end.

Definition read_credentials key (chunk : list Z) l : Verdict * Socks5Listener :=
  match read_username_password_request chunk with
  | None => (V_drain 0, l)
  | Some (processed, ver, username, password) =>
      if (ver =? USERNAME_PASSWORD_VER) && bool_decide (l_username l = username) && bool_decide (l_password l = password)
      then send_reply key [USERNAME_PASSWORD_VER; 0] processed (set_state key S5CONNS_WAITING_REQUEST l)
      else send_reply key [USERNAME_PASSWORD_VER; 1] (Z.of_nat (length chunk)) (set_state key S5CONNS_FAILED l)
  end.

(** The label [invalid_request]: the address of the request is copied into the reply. *)
Definition refuse_request key (chunk : list Z) (addr_len status : Z) l : Verdict * Socks5Listener :=
  let '(addr, l) := noting (bytes_of chunk HEADER_SIZE addr_len) (set_state key S5CONNS_FAILED l) in
  let reply := [SOCKS5_VER; status; 0; nth 3 chunk 0] ++ addr ++ be_bytes 2 (se_local_port env) in
  send_reply key reply (Z.of_nat (length chunk)) l.

Definition is_address_type (atyp : Z) : bool :=
  bool_decide (atyp ∈ [S5AT_IPV4; S5AT_DOMAINNAME; S5AT_IPV6; S5AT_IPV4_APPNAME; S5AT_DOMAINNAME_APPNAME; S5AT_IPV6_APPNAME]).

Definition take_request key (chunk : list Z) (addr_len : Z) l : Verdict * Socks5Listener :=
  let atyp := nth 3 chunk 0 in
  let '(dst, l) := noting (dst_addr_from_request atyp chunk HEADER_SIZE) l in
  let '(app_name, l) := noting (app_name_from_request atyp chunk HEADER_SIZE) l in
  let l := update key (fun c => c <| k_addr := mkPair (tap_src (k_addr c)) dst |> <| k_app_name := app_name |>) l in
  let l :=
    if nth 1 chunk 0 =? S5CMD_CONNECT then
      let l := update key (fun c => c <| k_state := S5CONNS_WAITING_CONNECT_RESULT |> <| k_addr := mkPair (se_remote env) dst |>) l in
      let l := match l_connections l !! key with Some c => raise_connect_request c l | None => fault USE_AFTER_FREE l end in
      if bool_decide (l_connections l !! key = None) then l else emit (T_set_read_enabled key false) l
    else
      match l_connections l !! key with
      | None => fault USE_AFTER_FREE l
      | Some c =>
          let '(ok, l) := complete_udp_association key c l in
          set_state key (if ok : bool then S5CONNS_ESTABLISHED else S5CONNS_FAILED) l
      end in
  (V_drain (HEADER_SIZE + addr_len + 2), l).

Definition read_request key (chunk : list Z) l : Verdict * Socks5Listener :=
  let size := Z.of_nat (length chunk) in
  if size <? HEADER_SIZE then (V_drain 0, l)
  else
    let ver := nth 0 chunk 0 in let cmd := nth 1 chunk 0 in let rsv := nth 2 chunk 0 in let atyp := nth 3 chunk 0 in
    let '(addr_len, l) := noting (addr_length_from_request atyp chunk HEADER_SIZE (size - HEADER_SIZE)) l in
    if negb (ver =? SOCKS5_VER) then refuse_request key chunk addr_len S5RS_SOCKS_SERVER_FAILURE l
    else if negb ((cmd =? S5CMD_CONNECT) || (cmd =? S5CMD_UDP_ASSOCIATE))
    then refuse_request key chunk addr_len S5RS_COMMAND_NOT_SUPPORTED l
    else
      let l := if cmd =? S5CMD_CONNECT then update key (fun c => c <| k_proto := IPPROTO_TCP |>) l else l in
      if negb (rsv =? 0) then refuse_request key chunk addr_len S5RS_SOCKS_SERVER_FAILURE l
      else if negb (is_address_type atyp) then refuse_request key chunk addr_len S5RS_ADDRESS_TYPE_NOT_SUPPORTED l
      else if (addr_len <? 0) || (size <? HEADER_SIZE + addr_len + 2) then (V_drain 0, l)
      else take_request key chunk addr_len l.

Definition READ_BUDGET : nat := 64.

(** The loop over the data of an established connection; [None] if the connection was closed meanwhile. *)
Fixpoint read_data (budget : nat) key id (chunk : list Z) l : option Verdict * Socks5Listener :=
  match budget with
  | O => (Some (V_drain 0), l)
  | S budget =>
    if negb (se_read_enabled env budget) then (Some (V_drain 0), l)
    else
      let l := raise (E_READ id chunk) l in
      let r := se_read_result env budget in
      if bool_decide (l_connections l !! key = None) then (None, fault USE_AFTER_FREE l)
      else if r <? 0 then (Some (V_close 0), l)
      else if r =? 0 then (Some (V_drain 0), l)
      else
        let l := emit (T_drain key r) l in
        if negb (se_drain env r) then (Some (V_close 0), l)
        else match se_peek env budget with
             | NoData => (Some (V_drain 0), l)
             | Eof => (Some (V_close 0), l)
             | Chunk chunk => read_data budget key id chunk l
             end
  end.

Definition read_chunk key c (chunk : list Z) l : option Verdict * Socks5Listener :=
  let some (x : Verdict * Socks5Listener) := (Some (fst x), snd x) in
  match k_state c with
  | S5CONNS_IDLE => some (read_auth_request key chunk l)
  | S5CONNS_WAITING_USERNAME_PASSWORD => some (read_credentials key chunk l)
  | S5CONNS_WAITING_REQUEST => some (read_request key chunk l)
  | S5CONNS_WAITING_ACCEPT | S5CONNS_WAITING_CONNECT_RESULT => (Some (V_close 0), l)
  | S5CONNS_ESTABLISHED => read_data READ_BUDGET key (k_id c) chunk l
  | S5CONNS_FAILED => (Some (V_drain (Z.of_nat (length chunk))), l)
  end.

(** The label [close]. *)
Definition close_socket key (error : Z) l : Socks5Listener :=
  match l_connections l !! key with
  | None => fault USE_AFTER_FREE l
  | Some c =>
      let l := if is_announced (k_state c) then raise (E_CONNECTION_CLOSED (k_id c) error) l else l in
      if bool_decide (l_connections l !! key = None) then l else destroy_connection key l
  end.

Definition finish_read key (v : Verdict) l : Socks5Listener :=
  match v with
  | V_close error => close_socket key error l
  | V_drain n =>
      if bool_decide (l_connections l !! key = None) then fault USE_AFTER_FREE l
      else
        let l := emit (T_drain key n) l in
        if se_drain env n then l else close_socket key 0 l
  end.

Definition on_readable key c (result : PeekResult) l : Socks5Listener :=
  match result with
  | NoData => l
  | Eof => if is_udp_association_tcp_connection key c l then terminate_udp_association key (-1) l else close_socket key 0 l
  | Chunk chunk =>
      if is_udp_association_tcp_connection key c l then terminate_udp_association key (-1) l
      else
        let '(v, l) := read_chunk key c chunk l in
        match v with None => l | Some v => finish_read key v l end
  end.

(** The packets sent to the connections of a relay are reported. *)
Definition report_sent (relay key : Z) l : Socks5Listener :=
  if bool_decide (key ∈ map snd (relay_table relay l)) then
    match l_connections l !! key with
    | None => fault USE_AFTER_FREE l
    | Some c =>
        if bool_decide (k_state c = S5CONNS_ESTABLISHED) && (0 <? k_sent_bytes_since_flush c) then
          let l := raise (E_DATA_SENT (k_id c) (k_sent_bytes_since_flush c)) l in
          update key (fun c => c <| k_sent_bytes_since_flush := 0 |>) l
        else l
    end
  else l.

Definition on_write_flush key c l : Socks5Listener :=
  if is_udp_association_tcp_connection key c l then
    match k_state c with
    | S5CONNS_ESTABLISHED => fold_left (fun l k => report_sent key k l) (in_order (map snd (relay_table key l))) l
    | S5CONNS_FAILED => terminate_udp_association key (-1) l
    | _ => l
    end
  else if k_proto c =? IPPROTO_TCP then
    match k_state c with
    | S5CONNS_WAITING_ACCEPT => set_state key S5CONNS_ESTABLISHED (raise (E_CONNECTION_ACCEPTED (k_id c)) l)
    | S5CONNS_FAILED => close_socket key 0 l
    | _ => l
    end
  else l.

Inductive TcpSocketEvent :=
| TCP_SOCKET_EVENT_CONNECTED | TCP_SOCKET_EVENT_READABLE (result : PeekResult) | TCP_SOCKET_EVENT_ERROR (error : Z)
| TCP_SOCKET_EVENT_SENT (bytes : Z) | TCP_SOCKET_EVENT_WRITE_FLUSH | TCP_SOCKET_EVENT_PROTECT.

Definition sock_handler id (what : TcpSocketEvent) l : Socks5Listener :=
  match what with
  | TCP_SOCKET_EVENT_PROTECT => raise E_PROTECT_SOCKET l
  | _ =>
      match find id l with
      | None => l
      | Some c =>
          let key := key_of id in
          match what with
          | TCP_SOCKET_EVENT_PROTECT => l
          | TCP_SOCKET_EVENT_CONNECTED => fault "connected" l
          | TCP_SOCKET_EVENT_READABLE result => on_readable key c result l
          | TCP_SOCKET_EVENT_ERROR error =>
              if is_udp_association_tcp_connection key c l then terminate_udp_association key error l else close_socket key error l
          | TCP_SOCKET_EVENT_SENT bytes =>
              if negb (is_udp_association_tcp_connection key c l) && bool_decide (k_state c = S5CONNS_ESTABLISHED)
              then raise (E_DATA_SENT (k_id c) bytes) l else l
          | TCP_SOCKET_EVENT_WRITE_FLUSH => on_write_flush key c l
          end
      end
  end.

(** A connection that could not be set up is destroyed, with whatever has its key in the table. *)
Definition on_accept l : Socks5Listener :=
  let id := se_new_id env in
  if se_socket env then
    emit (T_set_read_enabled (key_of id) true) (l <| l_connections := <[key_of id := connection_new id]> (l_connections l) |>)
  else l <| l_connections := delete (key_of id) (l_connections l) |>.

(** *** The end *)

Definition clean_up_udp_relays l : Socks5Listener :=
  fold_left (fun l key => terminate_udp_association key 0 l) (in_order (map fst (map_to_list (l_udp_relays l)))) l.

(** The handler is given the place of the connection in the table for its id. *)
Definition clean_up_connection key l : Socks5Listener :=
  raise (E_CONNECTION_CLOSED (se_bucket env key) 0) (destroy_connection key l).

Definition clean_up_connections l : Socks5Listener :=
  fold_left (fun l key => clean_up_connection key l) (in_order (map fst (map_to_list (l_connections l)))) l.

Definition socks5_listener_stop l : Socks5Listener :=
  clean_up_connections (clean_up_udp_relays (l <| l_async_task := false |>)).

(** [socks5_listener_destroy] of a listener that was stopped finds nothing. *)
Definition socks5_listener_destroy l : Socks5Listener :=
  let l := if bool_decide (l_udp_relays l = ∅) then l else fault "relays are left" (clean_up_udp_relays l) in
  if bool_decide (l_connections l = ∅) then l else fault "connections are left" (clean_up_connections l).

Inductive SocksInput :=
| I_accept
| I_socket (id : Z) (what : TcpSocketEvent)
| I_udp (relay : Z) (what : UdpEvent)
| I_async
| I_complete_connect_request (id : Z) (result : Socks5ConnectResult)
| I_send_data (id : Z) (data : list Z)
| I_turn_read (id : Z) (on : bool)
| I_close_connection (id : Z) (graceful : bool)
| I_stop
| I_destroy.

Definition socks_step (i : SocksInput) l : Socks5Listener :=
  match i with
  | I_accept => on_accept l
  | I_socket id what => sock_handler id what l
  | I_udp relay what => udp_event_handler relay what l
  | I_async => if l_async_task l then send_pending_udp_data l else l
  | I_complete_connect_request id result => socks5_listener_complete_connect_request id result l
  | I_send_data id data => snd (socks5_listener_send_data id data l)
  | I_turn_read id on => socks5_listener_turn_read id on l
  | I_close_connection id graceful => socks5_listener_close_connection id graceful l
  | I_stop => socks5_listener_stop l
  | I_destroy => socks5_listener_destroy l
  end.
End Socks5.
