(* ===== verification/Socks5Proofs.v ===== *)
(** * What the SOCKS5 listener lets through

    Without the credentials nothing is requested on behalf of a client; requests put together
    as the protocol says are understood, however they arrive; and what the code does not do
    as meant. *)

From stdpp Require Import gmap.
From S2P Require Import Prelude VpnTypes Wire View Socks5.

(** ** Authentication *)

(** Past the authentication. *)
Definition past (st : ConnectionState) : bool :=
  match st with
  | S5CONNS_IDLE | S5CONNS_WAITING_USERNAME_PASSWORD | S5CONNS_FAILED => false
  | S5CONNS_WAITING_REQUEST | S5CONNS_WAITING_CONNECT_RESULT | S5CONNS_WAITING_ACCEPT | S5CONNS_ESTABLISHED => true
  end.

(** Outputs that request nothing. *)
Definition innocent (o : SocksOut) : bool :=
  match o with E_CONNECT_REQUEST _ _ _ _ _ | U_open _ => false | _ => true end.

(** The entries of the tables are connections of their relays. *)
Definition tables_hold (l : Socks5Listener) : Prop :=
  forall r t a k, l_udp_relays l !! r = Some (Some t) -> (a, k) ∈ t ->
  exists c, l_connections l !! k = Some c /\ k_relay c = Some r /\ k_addr c = a /\ k_proto c = IPPROTO_UDP.

(** What identifies a connection stays, and it does not get past the authentication. *)
Definition keeps (f : Connection -> Connection) : Prop :=
  forall c, k_id (f c) = k_id c /\ k_relay (f c) = k_relay c /\ k_addr (f c) = k_addr c /\ k_proto (f c) = k_proto c /\
    (past (k_state (f c)) = true -> past (k_state c) = true).

Section Auth.
Context `{Lib : SocketAddressLib} (env : SocksEnv).
Implicit Types (l : Socks5Listener) (key id : Z).

(** The ids of the connections that may get past the authentication, the keys of new connections, and what may
    be requested. *)
Context (ok new : Z -> Prop) (allow : SocksOut -> Prop).

Definition authorised (relay : Z) : Prop := exists id, ok id /\ key_of id = relay.

Definition newcomer key (c : Connection) : Prop :=
  new key /\ key = key_of (k_id c) /\
  match k_relay c with None => past (k_state c) = true -> ok (k_id c) | Some r => authorised r end.

(** Nothing else gets past the authentication and nothing else is requested. *)
Record calm l l' : Prop := mkCalm {
  calm_config : l_username l' = l_username l /\ l_password l' = l_password l;
  calm_tables : tables_hold l -> tables_hold l';
  calm_connections : forall k c', l_connections l' !! k = Some c' ->
    newcomer k c' \/ exists c, l_connections l !! k = Some c /\ k_id c' = k_id c /\ k_relay c' = k_relay c /\
      (k_relay c = None -> past (k_state c') = true -> past (k_state c) = true \/ ok (k_id c));
  calm_relays : forall r, l_udp_relays l' !! r <> None -> l_udp_relays l !! r <> None \/ authorised r;
  calm_out : exists outs, l_out l' = l_out l ++ outs /\ Forall (fun o => innocent o = true \/ allow o) outs;
}.

#[export] Instance calm_preorder : PreOrder calm.
Proof.
  split.
  - intros l. split; [done|done|by eauto 8|by auto|]. exists []. by rewrite app_nil_r.
  - intros l1 l2 l3 [[Hu1 Hp1] Ht1 Hc1 Hr1 (o1 & E1 & Ho1)] [[Hu2 Hp2] Ht2 Hc2 Hr2 (o2 & E2 & Ho2)]. split.
    + by rewrite Hu2, Hp2.
    + auto.
    + intros k c3 H3. destruct (Hc2 _ _ H3) as [Hn|(c2 & H2 & E2a & E2b & Hp)]; [by left|].
      destruct (Hc1 _ _ H2) as [(Hnew & Hk & Hn)|(c1 & H1 & E1a & E1b & Hp')].
      * left. split_and!; [done|congruence|]. rewrite E2b, E2a. case_match; [done|]. intros Hpast. destruct (Hp eq_refl Hpast); auto.
      * right. exists c1. split_and!; [done|congruence|congruence|]. intros Hr Hpast. rewrite <- E1b in Hr.
        destruct (Hp Hr Hpast) as [H2p|H2p]; [apply Hp'; congruence|right; congruence].
    + intros r Hr. destruct (Hr2 r Hr); auto.
    + exists (o1 ++ o2). split; [by rewrite E2, E1, app_assoc|by apply Forall_app].
Qed.

(** A step of this kind at the end. *)
Lemma calm_say o l l' : innocent o = true \/ allow o -> calm l l' -> calm l (emit o l').
Proof.
  intros Ho Hl. transitivity l'; [done|]. split; [done|done|by eauto 8|by auto|]. exists [o]. split; [done|by constructor].
Qed.

Lemma calm_emit o l l' : innocent o = true -> calm l l' -> calm l (emit o l').
Proof. intros Ho. apply calm_say. by left. Qed.

Lemma calm_same l l' l'' : l_username l'' = l_username l' -> l_password l'' = l_password l' ->
  l_connections l'' = l_connections l' -> l_udp_relays l'' = l_udp_relays l' -> l_out l'' = l_out l' -> calm l l' -> calm l l''.
Proof.
  intros E1 E2 E3 E4 E5 Hl. transitivity l'; [done|].
  split; unfold tables_hold; rewrite ?E1, ?E2, ?E3, ?E4, ?E5; [done|done|by eauto 8|by auto|].
  exists []. by rewrite app_nil_r.
Qed.

Lemma calm_fault what l l' : calm l l' -> calm l (fault what l').
Proof. by apply calm_same. Qed.

Lemma calm_noting {A} (x : Checked A) l l' : calm l l' -> calm l (snd (noting x l')).
Proof. by apply calm_same. Qed.

(** A connection is put in the place of one, or in a free place. *)
Lemma calm_put key c0 c1 l l' :
  l_connections l' !! key = Some c0 -> k_id c1 = k_id c0 -> k_relay c1 = k_relay c0 ->
  (k_relay c0 = None -> past (k_state c1) = true -> past (k_state c0) = true \/ ok (k_id c0)) ->
  (k_relay c0 <> None -> k_addr c1 = k_addr c0 /\ k_proto c1 = k_proto c0) ->
  calm l l' -> calm l (l' <| l_connections := <[key := c1]> (l_connections l') |>).
Proof.
  intros E Hid Hrel Hpast Hsame Hl. transitivity l'; [done|]. split; [done| | |by auto|exists []; by rewrite app_nil_r].
  - intros Ht r t a k Hr Ha. destruct (Ht r t a k Hr Ha) as (c & Hc & Hcr & Hca & Hcp). cbn.
    destruct (decide (k = key)) as [->|Hne]; [|rewrite lookup_insert_ne by done; eauto].
    rewrite lookup_insert_eq. simplify_eq. destruct Hsame; [congruence|]. exists c1. split_and!; congruence.
  - intros k c' Hk. cbn in Hk. right. destruct (decide (k = key)) as [->|Hne].
    + rewrite lookup_insert_eq in Hk. injection Hk as <-. eauto 6.
    + rewrite lookup_insert_ne in Hk by done. eauto 8.
Qed.

Lemma calm_join key c1 l l' : l_connections l' !! key = None -> newcomer key c1 ->
  calm l l' -> calm l (l' <| l_connections := <[key := c1]> (l_connections l') |>).
Proof.
  intros E Hn Hl. transitivity l'; [done|]. split; [done| | |by auto|exists []; by rewrite app_nil_r].
  - intros Ht r t a k Hr Ha. destruct (Ht r t a k Hr Ha) as (c & Hc & Hrest). exists c. split; [|done]. cbn.
    by rewrite lookup_insert_ne by congruence.
  - intros k c' Hk. cbn in Hk. destruct (decide (k = key)) as [->|Hne].
    + rewrite lookup_insert_eq in Hk. injection Hk as <-. by left.
    + rewrite lookup_insert_ne in Hk by done. eauto 8.
Qed.

Lemma calm_update key f l l' : keeps f -> calm l l' -> calm l (update key f l').
Proof.
  intros Hf Hl. unfold update. case_match eqn:E; [|by apply calm_fault].
  destruct (Hf c) as (? & ? & ? & ? & ?). apply (calm_put key c); auto.
Qed.

(** The connection of the step itself. *)
Lemma calm_own key c f l l' : ~ new key -> l_connections l !! key = Some c -> (k_relay c = None -> ok (k_id c)) ->
  (forall c', k_id (f c') = k_id c' /\ k_relay (f c') = k_relay c' /\
     (k_relay c <> None -> k_addr (f c') = k_addr c' /\ k_proto (f c') = k_proto c')) ->
  calm l l' -> calm l (update key f l').
Proof.
  intros Hnew Hc Hok Hf Hl. unfold update. case_match eqn:E; [|by apply calm_fault].
  destruct (Hf c0) as (? & ? & Hs). destruct (calm_connections _ _ Hl _ _ E) as [[? _]|(c1 & Hc1 & E1 & E2 & _)]; [done|].
  simplify_eq. apply (calm_put key c0); auto; rewrite ?E2, ?E1; auto.
Qed.

(** A relay whose table loses entries or which goes away. *)
Lemma calm_relay r t l l' : (forall e, e ∈ t -> e ∈ relay_table r l') -> l_udp_relays l' !! r <> None \/ authorised r ->
  calm l l' -> calm l (l' <| l_udp_relays := <[r := Some t]> (l_udp_relays l') |>).
Proof.
  intros Hsub Hr Hl. transitivity l'; [done|]. split; [done| |by eauto 8| |exists []; by rewrite app_nil_r].
  - intros Ht r' t' a k Hr' Ha. cbn in *. destruct (decide (r' = r)) as [->|Hne].
    + rewrite lookup_insert_eq in Hr'. simplify_eq. apply Hsub in Ha. unfold relay_table in Ha.
      case_match eqn:E; [|by apply not_elem_of_nil in Ha]. case_match; [|by apply not_elem_of_nil in Ha]. subst. eauto.
    + rewrite lookup_insert_ne in Hr' by done. eauto.
  - intros r' Hr'. cbn in Hr'. destruct (decide (r' = r)) as [->|Hne]; [done|]. rewrite lookup_insert_ne in Hr' by done. by left.
Qed.

Lemma table_remove_subset addr t e : e ∈ table_remove addr t <-> e ∈ t /\ fst e <> addr.
Proof. unfold table_remove. rewrite list_elem_of_In, filter_In, <- list_elem_of_In. by rewrite negb_true_iff, bool_decide_eq_false. Qed.

(** A connection goes away with its entry. *)
Lemma calm_delete key c relays l l' : l_connections l' !! key = Some c ->
  (forall r t a k, relays !! r = Some (Some t) -> (a, k) ∈ t -> exists t', l_udp_relays l' !! r = Some (Some t') /\ (a, k) ∈ t' /\
     (k = key -> k_relay c = Some r -> k_proto c = IPPROTO_UDP -> k_addr c <> a)) ->
  (forall r, relays !! r <> None -> l_udp_relays l' !! r <> None) ->
  calm l l' -> calm l (l' <| l_connections := delete key (l_connections l') |> <| l_udp_relays := relays |>).
Proof.
  intros E HT Hr Hl. transitivity l'; [done|]. split; [done| | |by auto|exists []; by rewrite app_nil_r].
  - intros Ht r t a k Hrt Ha. cbn in *. destruct (HT _ _ _ _ Hrt Ha) as (t' & Ht' & Ha' & Hk).
    destruct (Ht _ _ _ _ Ht' Ha') as (c' & Hc' & Hrel & Haddr & Hp). exists c'.
    rewrite lookup_delete_ne by (intros ->; simplify_eq; by apply Hk). done.
  - intros k c' Hk. cbn in Hk. apply lookup_delete_Some in Hk as [_ Hk]. eauto 8.
Qed.

Lemma calm_destroy key l l' : calm l l' -> calm l (destroy_connection key l').
Proof.
  intros Hl. unfold destroy_connection. destruct (l_connections l' !! key) as [c|] eqn:E; [|by apply calm_fault].
  apply calm_emit; [done|]. pose proof (calm_delete key c (l_udp_relays l') l l' E) as Hd.
  assert (~ (k_proto c = IPPROTO_UDP /\ exists r t, k_relay c = Some r /\ l_udp_relays l' !! r = Some (Some t)) ->
    calm l (l' <| l_connections := delete key (l_connections l') |>)) as Hplain.
  { intros Hn. eapply calm_same; [..|apply Hd; [|done|done]]; try done. intros r t a k Hr Ha. exists t. split_and!; [done|done|].
    intros -> Hrel Hp. exfalso. apply Hn. eauto. }
  case_match eqn:Hp; [|apply Hplain; lia]. cbn. case_match eqn:Hrel; [|apply calm_fault, Hplain; naive_solver].
  case_match eqn:Hr; [|apply calm_fault, Hplain; naive_solver]. case_match; [|apply Hplain; naive_solver]. subst. clear Hplain Hd.
  apply (calm_delete key c _ l l' E); [| |done].
  - intros r t a' k Hr' Ha. destruct (decide (r = z)) as [->|Hne].
    + rewrite lookup_insert_eq in Hr'. simplify_eq. apply table_remove_subset in Ha as [Ha Hne]. cbn in Hne. eauto 10.
    + rewrite lookup_insert_ne in Hr' by done. exists t. split_and!; [done|done|]. congruence.
  - intros r Hr'. destruct (decide (r = z)) as [->|Hne]; [by rewrite Hr|by rewrite lookup_insert_ne in Hr'].
Qed.

Ltac calming := repeat first
  [ done
  | reflexivity
  | apply calm_emit; [done|]
  | apply calm_fault
  | apply calm_destroy
  | apply calm_update; [by intros ?; cbn; auto|]
  | match goal with |- calm _ (if ?b then _ else _) => destruct b eqn:? end
  | match goal with |- calm _ (match ?b with _ => _ end) => destruct b eqn:? end ].

Lemma calm_close_now id graceful l l' : calm l l' -> calm l (close_now id graceful l').
Proof. intros Hl. unfold close_now. calming. Qed.

Lemma calm_tell e l l' : innocent e = true \/ allow e -> calm l l' -> calm l (raise env e l').
Proof.
  intros He Hl. unfold raise. assert (calm l (emit e l')) as H1 by by apply calm_say. revert H1. generalize (emit e l').
  induction (se_closes env e) as [|x xs IH]; intros l1 H1; [done|]. cbn. apply IH. by apply calm_close_now.
Qed.

Lemma calm_raise e l l' : innocent e = true -> calm l l' -> calm l (raise env e l').
Proof. intros He. apply calm_tell. by left. Qed.

Lemma calm_fold {A} (f : Socks5Listener -> A -> Socks5Listener) xs l : forall l',
  (forall l' x, calm l l' -> calm l (f l' x)) -> calm l l' -> calm l (fold_left f xs l').
Proof. induction xs as [|x xs IH]; intros l' Hf Hl; [done|]. cbn. apply IH; auto. Qed.

Ltac calming ::= repeat first
  [ done
  | reflexivity
  | apply calm_emit; [done|]
  | apply calm_fault
  | apply calm_destroy
  | apply calm_raise; [done|]
  | apply calm_update; [by intros ?; cbn; auto|]
  | match goal with |- calm _ (if ?b then _ else _) => destruct b eqn:? end
  | match goal with |- calm _ (match ?b with _ => _ end) => destruct b eqn:? end ].

Lemma calm_send_packets key id packets l : forall l', calm l l' -> calm l (send_packets env key id packets l').
Proof. induction packets as [|data packets IH]; intros l' Hl; cbn; [done|]. case_match; [calming|]. apply IH. calming. Qed.

Lemma calm_send_pending id l l' : calm l l' -> calm l (send_pending env id l').
Proof. intros Hl. unfold send_pending. case_match; [|done]. apply calm_send_packets. calming. Qed.

Lemma calm_send_pending_udp_data l l' : calm l l' -> calm l (send_pending_udp_data env l').
Proof.
  intros Hl. unfold send_pending_udp_data. apply calm_fold; [intros; by apply calm_send_pending|]. by apply (calm_same l l').
Qed.

Lemma calm_terminate key error l l' : calm l l' -> calm l (terminate_udp_association env key error l').
Proof.
  intros Hl. unfold terminate_udp_association. case_match; [|calming]. case_match; [calming|].
  apply calm_destroy, calm_emit; [done|]. set (l1 := fold_left _ _ _).
  assert (calm l l1) as H1 by (apply calm_fold; [intros l2 k H2; unfold close_relayed; calming|done]). clearbody l1.
  transitivity l1; [done|]. split; [done| |by eauto 8| |exists []; by rewrite app_nil_r].
  - intros Ht r t a k Hr Ha. cbn in Hr. apply lookup_delete_Some in Hr as [_ Hr]. cbn. eauto.
  - intros r Hr. left. cbn in Hr. destruct (l_udp_relays l1 !! r) eqn:E; [done|]. by rewrite lookup_delete_None in Hr; tauto.
Qed.

Lemma calm_close_socket key error l l' : calm l l' -> calm l (close_socket env key error l').
Proof. intros Hl. unfold close_socket. calming. Qed.

Lemma calm_turn_read id on l l' : calm l l' -> calm l (socks5_listener_turn_read id on l').
Proof. intros Hl. unfold socks5_listener_turn_read. calming. Qed.

Lemma calm_close_connection id graceful l l' : calm l l' -> calm l (socks5_listener_close_connection env id graceful l').
Proof. intros Hl. unfold socks5_listener_close_connection. calming. Qed.

Lemma calm_send_data id data l l' : calm l l' -> calm l (snd (socks5_listener_send_data env id data l')).
Proof.
  intros Hl. unfold socks5_listener_send_data. case_match; [|done]. case_match; [cbn; calming|].
  case_match eqn:En. pose proof (calm_noting (udp_reply (tap_dst (k_addr c)) data) l) as Hn. rewrite surjective_pairing in En.
  injection En as _ <-. case_match; [|cbn; apply calm_fault, Hn; calming]. case_match. case_match; cbn; [apply calm_update; [by intros ?; cbn; auto|]|].
  all: apply calm_emit; [done|]; calming; apply Hn; calming.
Qed.

Lemma calm_report_sent relay key l l' : calm l l' -> calm l (report_sent env relay key l').
Proof. intros Hl. unfold report_sent. calming. Qed.

Lemma calm_read_data budget key id l : forall chunk l', calm l l' -> calm l (snd (read_data env budget key id chunk l')).
Proof.
  induction budget as [|budget IH]; intros chunk l' Hl; [done|]. cbn [read_data]. case_match; [done|].
  assert (calm l (raise env (E_READ id chunk) l')) as H1 by calming.
  destruct (bool_decide _); [cbn; calming|]. repeat (case_match; [cbn; calming|]). case_match; cbn; calming. by apply IH; calming.
Qed.

Lemma calm_finish_read key v l l' : calm l l' -> calm l (finish_read env key v l').
Proof. intros Hl. unfold finish_read. case_match; [|by apply calm_close_socket]. calming. apply calm_close_socket. calming. Qed.

Lemma calm_clean_relays l l' : calm l l' -> calm l (clean_up_udp_relays env l').
Proof. intros Hl. apply calm_fold; [intros l2 k H2; by apply calm_terminate|done]. Qed.

Lemma calm_clean_connections l l' : calm l l' -> calm l (clean_up_connections env l').
Proof. intros Hl. apply calm_fold; [intros l2 k H2; unfold clean_up_connection; calming|done]. Qed.

Lemma calm_stop l l' : calm l l' -> calm l (socks5_listener_stop env l').
Proof. intros Hl. apply calm_clean_connections, calm_clean_relays. by apply (calm_same l l'). Qed.

Lemma calm_destroy_listener l l' : calm l l' -> calm l (socks5_listener_destroy env l').
Proof.
  intros Hl. unfold socks5_listener_destroy. set (l1 := if bool_decide (l_udp_relays l' = ∅) then l' else _).
  assert (calm l l1) by (subst l1; case_match; [done|by apply calm_fault, calm_clean_relays]).
  case_match; [done|by apply calm_fault, calm_clean_connections].
Qed.

(** The steps of a connection that is past the authentication. *)
Section Own.
Context (key : Z) (c : Connection) (l : Socks5Listener).
Context (Hnew : ~ new key) (Hc : l_connections l !! key = Some c) (Hok : k_relay c = None -> ok (k_id c)).

Lemma calm_set_state st l' : calm l l' -> calm l (set_state key st l').
Proof. by apply (calm_own key c); [..|intros c'; cbn; auto]. Qed.

Lemma calm_complete_tcp result l' : calm l l' -> calm l (complete_tcp_connection env key c result l').
Proof. intros Hl. unfold complete_tcp_connection. calming. Qed.

Lemma calm_complete_udp result l' : calm l l' -> calm l (complete_udp_connection env key c result l').
Proof.
  intros Hl. unfold complete_udp_connection. case_match; [|calming].
  set (l1 := set_state _ _ _). apply (calm_same l l1); [done..|]. apply calm_set_state. calming.
Qed.

Context (Hrel : k_relay c = None) (Hkey : key = key_of (k_id c)).
Context (Hreq : forall proto src dst app_name, allow (E_CONNECT_REQUEST (k_id c) proto src dst app_name)).
Context (Hopen : forall r, authorised r -> allow (U_open r)).

Lemma calm_mine f l' : (forall c', k_id (f c') = k_id c' /\ k_relay (f c') = k_relay c') -> calm l l' -> calm l (update key f l').
Proof. intros Hf. apply (calm_own key c); auto. intros c'. destruct (Hf c'). by rewrite Hrel. Qed.

Lemma mine_authorised : authorised key.
Proof. exists (k_id c). auto. Qed.

Lemma calm_complete_association c' l' : calm l l' -> calm l (snd (complete_udp_association env key c' l')).
Proof.
  intros Hl. unfold complete_udp_association. set (l1 := if _ =? S5AT_DOMAINNAME then fault _ l' else l').
  assert (calm l l1) as H1 by (subst l1; calming). clearbody l1.
  match goal with |- context [emit (T_write key _) ?x] => set (l2 := x) end. assert (calm l l2) as H2.
  { subst l2. case_match; [|done]. set (l3 := emit _ _).
    assert (calm l l3) as H3 by (subst l3; apply calm_say; [right; apply Hopen, mine_authorised|calming]). clearbody l3.
    transitivity l3; [done|]. split; [done| |by eauto 8| |exists []; by rewrite app_nil_r].
    - intros Ht r t a k Hr Ha. cbn in *. apply lookup_insert_Some in Hr as [[_ ?]|[_ Hr]]; [done|]. eauto.
    - intros r Hr. cbn in Hr. destruct (decide (r = key)) as [->|Hne]; [right; apply mine_authorised|].
      rewrite lookup_insert_ne in Hr by done. by left. }
  clearbody l2. case_match; cbn [snd]; [|apply calm_terminate]; calming.
Qed.

Lemma calm_take_request chunk addr_len l' : calm l l' -> calm l (snd (take_request env key chunk addr_len l')).
Proof.
  intros Hl. unfold take_request, noting. cbn [snd].
  match goal with |- context [update key ?f ?x] => lazymatch x with context [update] => fail | _ => set (l1 := update key f x) end end.
  assert (calm l l1) as H1.
  { subst l1. apply calm_mine; [by cbn|]. by apply (calm_same l l'). }
  clearbody l1. case_match.
  - set (l2 := update key _ l1). assert (calm l l2) as H2 by (apply calm_mine; done). clearbody l2.
    set (l3 := match _ with Some _ => _ | None => _ end). enough (calm l l3) by (destruct (bool_decide _); calming).
    subst l3. case_match eqn:E; [|calming]. apply calm_tell; [|done]. right.
    destruct (calm_connections _ _ H2 _ _ E) as [[? _]|(c1 & Hc1 & -> & _)]; [done|]. simplify_eq. apply Hreq.
  - case_match; [|calming]. destruct (complete_udp_association env key c0 l1) as [b l2] eqn:E.
    apply calm_set_state. change l2 with (snd (b, l2)). rewrite <- E. by apply calm_complete_association.
Qed.

Lemma calm_refuse chunk addr_len status l' : calm l l' -> calm l (snd (refuse_request env key chunk addr_len status l')).
Proof.
  intros Hl. unfold refuse_request, send_reply, noting. cbn [snd]. apply calm_emit; [done|].
  apply (calm_same l (set_state key S5CONNS_FAILED l')); [done..|]. by apply calm_set_state.
Qed.

Lemma calm_read_request chunk l' : calm l l' -> calm l (snd (read_request env key chunk l')).
Proof.
  intros Hl. unfold read_request. case_match; [done|]. destruct (noting _ l') as [addr_len l1] eqn:En.
  assert (calm l l1) as Hl1 by (change l1 with (snd (addr_len, l1)); rewrite <- En; by apply calm_noting). clear En.
  do 2 (case_match; [by apply calm_refuse|]).
  set (l2 := if nth 1 chunk 0 =? S5CMD_CONNECT then update key _ l1 else l1). assert (calm l l2) as Hl2.
  { subst l2. case_match; [|done]. by apply calm_mine. }
  clearbody l2. do 2 (case_match; [by apply calm_refuse|]). case_match; [done|]. by apply calm_take_request.
Qed.
End Own.

Lemma calm_on_write_flush key c l : ~ new key -> l_connections l !! key = Some c ->
  (past (k_state c) = true -> k_relay c = None -> ok (k_id c)) -> calm l (on_write_flush env key c l).
Proof.
  intros Hnew Hc Hok. unfold on_write_flush. case_match.
  - case_match; try reflexivity; [|by apply calm_terminate]. apply calm_fold; [|done]. intros. by apply calm_report_sent.
  - case_match; [|done]. destruct (k_state c) eqn:E; try reflexivity; [|by apply calm_close_socket].
    apply (calm_set_state key c); [done|done|by auto|]. calming.
Qed.

Lemma calm_complete id result l : ~ new (key_of id) ->
  (forall c, find id l = Some c -> is_announced (k_state c) = true) ->
  (forall c, find id l = Some c -> past (k_state c) = true -> k_relay c = None -> ok (k_id c)) ->
  calm l (socks5_listener_complete_connect_request env id result l).
Proof.
  intros Hnew Ha Hok. unfold socks5_listener_complete_connect_request. destruct (find id l) as [c|] eqn:Hc; [|done].
  assert (k_state c = S5CONNS_FAILED \/ past (k_state c) = true) as [E|Hp].
  { specialize (Ha c eq_refl). destruct (k_state c); auto. }
  { by rewrite E. }
  assert (k_relay c = None -> ok (k_id c)) as Hown by auto.
  assert (forall l1 st, calm l l1 -> calm l (set_state (key_of id) st l1)) as Hset by (intros; by apply (calm_set_state _ c)).
  destruct (k_state c); try done;
    (case_match; [apply calm_complete_tcp|apply calm_complete_udp; [done..|]]; apply Hset; calming).
Qed.

(** The steps before the authentication. *)
Lemma choose_method_spec supported methods : forall chosen m, (forall m, chosen = Some m -> m = supported) ->
  choose_method supported chosen methods = Some m -> m = supported \/ m = supported + 128.
Proof.
  induction methods as [|x methods IH]; intros chosen m Hc Hm; cbn in Hm; [left; auto|].
  destruct (Z.eqb_spec x supported) as [->|_]; [apply (IH (Some supported)); [by intros ? [= <-]|done]|].
  destruct (Z.eqb_spec x (supported + 128)) as [->|_]; [injection Hm as <-; auto|]. by apply (IH chosen).
Qed.

Lemma calm_read_auth key chunk l l' : l_username l' <> [] -> calm l l' -> calm l (snd (read_auth_request env key chunk l')).
Proof.
  intros Hu Hl. unfold read_auth_request, send_reply. do 2 (case_match; [done|]). case_match; [cbn; calming|]. case_match; [done|].
  rewrite (bool_decide_eq_false_2 (l_username l' = [])) by done. case_match eqn:Hm; [|cbn; calming].
  apply choose_method_spec in Hm; [|done]. cbn [snd]. replace (_ || _) with true by (destruct Hm as [->| ->]; done). calming.
Qed.

Lemma calm_read_credentials key c chunk l : ~ new key -> l_connections l !! key = Some c ->
  (forall n, read_username_password_request chunk = Some (n, USERNAME_PASSWORD_VER, l_username l, l_password l) -> ok (k_id c)) ->
  calm l (snd (read_credentials env key chunk l)).
Proof.
  intros Hnew Hc Hok. unfold read_credentials, send_reply. destruct (read_username_password_request chunk) as [[[[n ver] u] p]|] eqn:E; [|done].
  case_match eqn:Hb; cbn [snd]; [|calming]. repeat (apply andb_prop in Hb as [Hb ?]). apply Z.eqb_eq in Hb. subst ver.
  repeat match goal with H : bool_decide _ = true |- _ => apply bool_decide_eq_true_1 in H; subst end.
  apply calm_emit; [done|]. apply (calm_set_state key c); [done|done| |done]. intros _. by eapply Hok.
Qed.

(** A UDP connection and its entry. *)
Lemma relay_table_hold r l a k : tables_hold l -> (a, k) ∈ relay_table r l ->
  exists c, l_connections l !! k = Some c /\ k_relay c = Some r /\ k_addr c = a /\ k_proto c = IPPROTO_UDP.
Proof. intros Ht. unfold relay_table. repeat case_match; try by intros ?%not_elem_of_nil. subst. by apply Ht. Qed.

Lemma calm_enroll r a key c l l' : l_connections l' !! key = None -> newcomer key c -> k_relay c = Some r -> k_addr c = a ->
  k_proto c = IPPROTO_UDP -> authorised r -> calm l l' ->
  calm l (l' <| l_udp_relays := <[r := Some (relay_table r l' ++ [(a, key)])]> (l_udp_relays l') |>
             <| l_connections := <[key := c]> (l_connections l') |>).
Proof.
  intros E Hn Hrel Ha Hp Hr Hl. transitivity l'; [done|]. split; [done| | | |exists []; by rewrite app_nil_r].
  - intros Ht r' t a' k Hr' Hin. cbn in *. apply lookup_insert_Some in Hr' as [[-> [= <-]]|[_ Hr']].
    + apply elem_of_app in Hin as [Hin|Hin%list_elem_of_singleton].
      * destruct (relay_table_hold _ _ _ _ Ht Hin) as (c' & ? & ?). exists c'. by rewrite lookup_insert_ne by congruence.
      * simplify_eq. exists c. by rewrite lookup_insert_eq.
    + destruct (Ht _ _ _ _ Hr' Hin) as (c' & ? & ?). exists c'. by rewrite lookup_insert_ne by congruence.
  - intros k c' Hk. cbn in Hk. apply lookup_insert_Some in Hk as [[<- <-]|[_ Hk]]; [by left|eauto 8].
  - intros r' Hr'. cbn in Hr'. destruct (decide (r' = r)) as [->|Hne]; [by right|]. rewrite lookup_insert_ne in Hr' by done. by left.
Qed.

Lemma lookup_address_elem addr t k : lookup_address addr t = Some k -> (addr, k) ∈ t.
Proof.
  unfold lookup_address. destruct (List.find _ t) as [[a k']|] eqn:E; [|done]. cbn. intros [= ->].
  apply find_some in E as [Hin Ha%bool_decide_eq_true_1]. cbn in Ha. subst. by apply list_elem_of_In.
Qed.

Ltac leave := match goal with |- context [if ?b then _ else _] => destruct b; [by split|] end.

Lemma calm_udp_header relay data src l l' : l_connections l' !! key_of (se_new_id env) = None -> new (key_of (se_new_id env)) ->
  authorised relay -> tables_hold l' -> calm l l' ->
  let '(n, key, l1) := process_udp_header env relay data src l' in
  calm l l1 /\ (0 < n -> exists c, l_connections l1 !! key = Some c /\ k_relay c = Some relay).
Proof.
  intros Hfree Hnew Hr Ht Hl. unfold process_udp_header, noting. cbv zeta.
  leave. cbn [fst snd].
  set (l1 := l' <| l_faults := _ |>). assert (calm l l1) as H1 by by apply (calm_same l l').
  do 4 leave.
  set (l2 := l1 <| l_faults := _ |>). assert (calm l l2) as H2 by by apply (calm_same l l1).
  change (relay_table relay l1) with (relay_table relay l2).
  assert (l_connections l2 = l_connections l') as Ec by done. assert (tables_hold l2) as Ht2 by done. clearbody l2.
  destruct (lookup_address _ _) eqn:Ha.
  - apply lookup_address_elem in Ha. split.
    + apply calm_relay; auto.
    + intros _. cbn. destruct (relay_table_hold _ _ _ _ Ht2 Ha) as (c & ? & ? & _). eauto.
  - set (l3 := l2 <| l_faults := _ |>). assert (calm l l3) as H3 by by apply (calm_same l l2).
    change (relay_table relay l2) with (relay_table relay l3). change (l_connections (l3 <| l_udp_relays := _ |>)) with (l_connections l3).
    assert (l_connections l3 = l_connections l') as Ec3 by done. clearbody l3.
    rewrite bool_decide_eq_true_2 by by rewrite Ec3. split.
    + apply (calm_enroll relay _ _ _ l l3); try done; by rewrite ?Ec3.
    + intros _. cbn. rewrite lookup_insert_eq. eauto.
Qed.

Lemma calm_handle_udp key data l l' c : l_connections l' !! key = Some c -> k_relay c <> None ->
  (forall proto src dst app_name, allow (E_CONNECT_REQUEST (k_id c) proto src dst app_name)) ->
  calm l l' -> calm l (handle_udp_read env key data l').
Proof.
  intros Hc Hrel Hreq Hl. unfold handle_udp_read. rewrite Hc. case_match; [|unfold pend_udp_packet; calming..].
  apply calm_tell; [by right|]. unfold pend_udp_packet. apply calm_update; [by intros ?; cbn; auto|].
  unfold set_state, update. rewrite Hc. apply (calm_put key c); auto.
Qed.

Lemma calm_udp_event relay what l : l_connections l !! key_of (se_new_id env) = None -> new (key_of (se_new_id env)) ->
  (l_udp_relays l !! relay <> None -> authorised relay) -> tables_hold l ->
  (forall id proto src dst app_name, authorised relay -> allow (E_CONNECT_REQUEST id proto src dst app_name)) ->
  calm l (udp_event_handler env relay what l).
Proof.
  intros Hfree Hnew Hr Ht Hreq. unfold udp_event_handler. case_match; [|calming]. case_match eqn:Er; [|calming].
  assert (authorised relay) as Ha by (apply Hr; congruence).
  case_match; [|done|by apply calm_terminate]. case_match; [done|].
  pose proof (calm_udp_header relay (z :: l0) src l l) as Hh. case_match eqn:E. case_match. subst.
  destruct Hh as [H1 Hc]; [done..|]. case_match eqn:Hn; [|done]. destruct Hc as (c' & Hc' & Hrel'); [lia|].
  apply (calm_handle_udp _ _ _ _ c'); auto. congruence.
Qed.

Lemma calm_accept l : l_connections l !! key_of (se_new_id env) = None -> new (key_of (se_new_id env)) -> calm l (on_accept env l).
Proof.
  intros Hfree Hnew. unfold on_accept. case_match; [apply calm_emit; [done|]; by apply calm_join|].
  rewrite delete_id by done. by apply (calm_same l l).
Qed.

Lemma calm_send_async l : calm l (if l_async_task l then send_pending_udp_data env l else l).
Proof. case_match; [by apply calm_send_pending_udp_data|done]. Qed.
End Auth.

(** ** Sessions *)

(** The connections whose client has shown the credentials of the listener. *)
Definition presented (i : SocksInput) (l : Socks5Listener) : list Z :=
  match i with
  | I_socket id (TCP_SOCKET_EVENT_READABLE (Chunk chunk)) =>
      match find id l with
      | None => []
      | Some c =>
          match read_username_password_request chunk with
          | None => []
          | Some (_, ver, username, password) =>
              if bool_decide (k_state c = S5CONNS_WAITING_USERNAME_PASSWORD) && (ver =? USERNAME_PASSWORD_VER) &&
                 bool_decide (l_username l = username) && bool_decide (l_password l = password)
              then [k_id c] else []
          end
      end
  | _ => []
  end.

(** Only clients have sockets, connections that were asked for are completed, and new ids are not in use. *)
Definition proper (env : SocksEnv) (i : SocksInput) (l : Socks5Listener) : Prop :=
  match i with
  | I_socket id _ => forall c, find id l = Some c -> k_relay c = None
  | I_complete_connect_request id _ => forall c, find id l = Some c -> is_announced (k_state c) = true
  | I_accept | I_udp _ _ => find (se_new_id env) l = None
  | _ => True
  end.

(** What happens to a listener, with the connections that have shown the credentials. *)
Inductive session `{Lib : SocketAddressLib} (username password : list Z) : list Z -> Socks5Listener -> Prop :=
| session_start is_loopback l : socks5_listener_create is_loopback username password = Some l -> session username password [] l
| session_step A l env i : session username password A l -> proper env i l ->
    session username password (presented i l ++ A) (socks_step env i l).

(** What an input may request: for the client of the socket, or for the client of the relay. *)
Definition permitted (A : list Z) (i : SocksInput) (o : SocksOut) : Prop :=
  match o with
  | E_CONNECT_REQUEST id _ _ _ _ =>
      match i with
      | I_socket sid _ => key_of sid = key_of id /\ id ∈ A
      | I_udp relay _ => authorised (fun id => id ∈ A) relay
      | _ => False
      end
  | U_open relay => authorised (fun id => id ∈ A) relay
  | _ => True
  end.

Record secured (A : list Z) (l : Socks5Listener) : Prop := mkSecured {
  secured_keys : forall k c, l_connections l !! k = Some c -> k = key_of (k_id c);
  secured_past : forall k c, l_connections l !! k = Some c -> k_relay c = None -> past (k_state c) = true -> k_id c ∈ A;
  secured_relayed : forall k c r, l_connections l !! k = Some c -> k_relay c = Some r -> authorised (fun id => id ∈ A) r;
  secured_relays : forall r, l_udp_relays l !! r <> None -> authorised (fun id => id ∈ A) r;
  secured_tables : tables_hold l;
}.

Lemma authorised_mono (A A' : list Z) r : A ⊆ A' -> authorised (fun id => id ∈ A) r -> authorised (fun id => id ∈ A') r.
Proof. intros HA (id & Hid & E). exists id. auto. Qed.

Lemma calm_secured A A' new allow l l' : A ⊆ A' -> calm (fun id => id ∈ A') new allow l l' -> secured A l -> secured A' l'.
Proof.
  intros HA [_ Ht Hc Hr _] [Sk Sp Sd Sr St]. split; [..|auto].
  - intros k c' Hk. destruct (Hc _ _ Hk) as [(_ & ? & _)|(c & Hk' & E & _)]; [done|]. rewrite E. eauto.
  - intros k c' Hk Hrel Hp. destruct (Hc _ _ Hk) as [(_ & _ & Hn)|(c & Hk' & E1 & E2 & Hpast)]; [rewrite Hrel in Hn; auto|].
    rewrite E1. rewrite Hrel in E2. destruct (Hpast (eq_sym E2) Hp); eauto.
  - intros k c' r Hk Hrel. destruct (Hc _ _ Hk) as [(_ & _ & Hn)|(c & Hk' & E1 & E2 & _)]; [by rewrite Hrel in Hn|].
    apply (authorised_mono A); [done|]. eapply Sd; [done|congruence].
  - intros r Hr'. destruct (Hr _ Hr') as [H|H]; [|done]. apply (authorised_mono A); auto.
Qed.

(** The step of any input. *)
Section Step.
Context `{Lib : SocketAddressLib} (env : SocksEnv) (A : list Z) (l : Socks5Listener) (i : SocksInput).
Context (Hu : l_username l <> []) (Hs : secured A l) (Hi : proper env i l).
Abbreviation A' := (presented i l ++ A).
Abbreviation ok := (fun id => id ∈ A').
Abbreviation new := (fun k => match i with I_accept | I_udp _ _ => k = key_of (se_new_id env) | _ => False end).
Abbreviation calmly := (calm ok new (permitted A' i) l).

Lemma step_readable id c chunk : i = I_socket id (TCP_SOCKET_EVENT_READABLE (Chunk chunk)) -> find id l = Some c ->
  calmly (snd (read_chunk env (key_of id) c chunk l)).
Proof.
  intros Ei Hc. assert (~ new (key_of id)) as Hnew by (cbn; rewrite Ei; tauto).
  assert (k_relay c = None) as Hrel by (rewrite Ei in Hi; by apply Hi).
  assert (past (k_state c) = true -> k_id c ∈ A') as Hpast.
  { intros Hp. apply elem_of_app. right. by eapply secured_past. }
  unfold read_chunk. destruct (k_state c) eqn:Est; cbn [snd]; try reflexivity.
  - by apply calm_read_auth.
  - apply (calm_read_credentials env _ _ _ _ c); [done|done|]. intros n Hn. apply elem_of_app. left. rewrite Ei. cbn. rewrite Hc, Hn.
    rewrite !bool_decide_eq_true_2 by done. cbn. by apply list_elem_of_singleton.
  - pose proof (secured_keys _ _ Hs _ _ Hc) as Hkey.
    apply (calm_read_request env _ _ _ (key_of id) c); auto; [|reflexivity].
    intros. cbn. rewrite Ei. split; [done|]. rewrite <- Ei. auto.
  - by apply calm_read_data.
Qed.

Local Ltac branch := match goal with |- calm _ _ _ _ (if ?b then _ else _) => destruct b end.

Lemma step_socket id what : i = I_socket id what -> calmly (sock_handler env id what l).
Proof.
  intros Ei. assert (~ new (key_of id)) as Hnew by (cbn; rewrite Ei; tauto). unfold sock_handler.
  assert (forall c, find id l = Some c -> past (k_state c) = true -> k_relay c = None -> k_id c ∈ A') as Hpast.
  { intros c Hc Hp Hrel. apply elem_of_app. right. by eapply secured_past. }
  destruct what; try (by apply calm_raise); (destruct (find id l) as [c|] eqn:Hc; [|reflexivity]).
  - by apply calm_fault.
  - unfold on_readable. destruct result; [reflexivity| |].
    + branch; [by apply calm_terminate|by apply calm_close_socket].
    + branch; [by apply calm_terminate|]. pose proof (step_readable id c data Ei Hc) as Hr.
      destruct (read_chunk env (key_of id) c data l) as [[v|] l1]; [|done]. by apply calm_finish_read.
  - branch; [by apply calm_terminate|by apply calm_close_socket].
  - branch; [by apply calm_raise|reflexivity].
  - apply calm_on_write_flush; auto.
Qed.
End Step.

Definition is_new (env : SocksEnv) (i : SocksInput) (k : Z) : Prop :=
  match i with I_accept | I_udp _ _ => k = key_of (se_new_id env) | _ => False end.

Lemma step_calm `{Lib : SocketAddressLib} env A l i : l_username l <> [] -> secured A l -> proper env i l ->
  calm (fun id => id ∈ presented i l ++ A) (is_new env i) (permitted (presented i l ++ A) i) l (socks_step env i l).
Proof.
  intros Hu Hs Hi.
  assert (forall id c, find id l = Some c -> past (k_state c) = true -> k_relay c = None -> k_id c ∈ presented i l ++ A) as Hpast.
  { intros id c Hc Hp Hrel. apply elem_of_app. right. by eapply secured_past. }
  destruct i as [|id what|relay what| |id result|id data|id on|id graceful| |] eqn:Ei; cbn [socks_step].
  - by apply calm_accept.
  - by apply (step_socket env A l (I_socket id what)).
  - apply calm_udp_event; [done|done| |by apply (secured_tables A)|by intros].
    intros Hr. apply (authorised_mono A); [set_solver|]. by apply (secured_relays _ _ Hs).
  - apply calm_send_async.
  - apply calm_complete; [by intros []|done|by apply Hpast].
  - by apply calm_send_data.
  - by apply calm_turn_read.
  - by apply calm_close_connection.
  - by apply calm_stop.
  - by apply calm_destroy_listener.
Qed.

Lemma session_secured `{Lib : SocketAddressLib} username password A l : username <> [] -> session username password A l ->
  l_username l = username /\ l_password l = password /\ secured A l.
Proof.
  intros Hu. induction 1 as [lo l Hl|A l env i _ (Eu & Ep & IH) Hi].
  - unfold socks5_listener_create in Hl. repeat case_match; simplify_eq. split_and!; [done|done|].
    split; cbn; intros *; rewrite ?lookup_empty; try done.
  - assert (l_username l <> []) as Hu' by congruence. pose proof (step_calm env A l i Hu' IH Hi) as Hc.
    split_and!; [by rewrite (proj1 (calm_config _ _ _ _ _ Hc))|by rewrite (proj2 (calm_config _ _ _ _ _ Hc))|].
    eapply calm_secured; [|exact Hc|exact IH]. set_solver.
Qed.

(** C5. Nobody gets anything from a listener that has credentials without showing them.
    Whatever happens to the listener, and whatever the handler of its events closes meanwhile,
    a step asks for a connection only for the client whose socket the input came from, which
    has shown the credentials, or for a client of a relay that such a client has opened; and a
    relay is opened only for such a client. *)
Theorem requests_need_credentials `{Lib : SocketAddressLib} username password A l env i :
  username <> [] -> session username password A l -> proper env i l ->
  exists outs, l_out (socks_step env i l) = l_out l ++ outs /\ forall o, o ∈ outs -> permitted (presented i l ++ A) i o.
Proof.
  intros Hu Hl Hi. destruct (session_secured _ _ _ _ Hu Hl) as (Eu & _ & Hs). rewrite <- Eu in Hu.
  destruct (calm_out _ _ _ _ _ (step_calm env A l i Hu Hs Hi)) as (outs & E & Hout). exists outs. split; [done|].
  intros o Ho. rewrite Forall_forall in Hout. destruct (Hout o Ho) as [Hin|]; [|done]. by destruct o.
Qed.

(** ** A session *)

#[local] Existing Instance WireSample.lib.

Module Socks5Sample.
Definition username : list Z := [117; 115; 101; 114].
Definition password : list Z := [112; 97; 115; 115].

Definition env : SocksEnv :=
  mkSocksEnv 7 true 0 (fun _ => true) 1080 (WireSample.host4 1 5000) (Some (WireSample.host4 9 2000)) (0, true)
    (fun _ => true) (fun _ => 0) (fun _ => NoData) (fun _ => []) [] (fun k => k + 100) (replicate 32 170).

Definition started : Socks5Listener := mkSocks5Listener username password ∅ ∅ false [] [] [].
Definition run (inputs : list SocksInput) (l : Socks5Listener) : Socks5Listener :=
  fold_left (fun l i => socks_step env i l) inputs l.
Definition says (data : list Z) : SocksInput := I_socket 7 (TCP_SOCKET_EVENT_READABLE (Chunk data)).

Definition greeting : list Z := [5; 2; 0; 2].
Definition credentials : list Z := [1; 4; 117; 115; 101; 114; 4; 112; 97; 115; 115].
Definition connect : list Z := [5; 1; 0; 1; 192; 0; 2; 8; 0; 80].
Definition associate : list Z := [5; 3; 0; 1; 0; 0; 0; 0; 0; 0].

Definition admitted : Socks5Listener := run [I_accept; says greeting; says credentials] started.

Lemma admitted_session : session username password [7] admitted.
Proof.
  apply (session_step username password [] (run [I_accept; says greeting] started) env (says credentials));
    [|by intros c [= <-]].
  apply (session_step username password [] (run [I_accept] started) env (says greeting)); [|by intros c [= <-]].
  apply (session_step username password [] started env I_accept); [|done].
  by apply (session_start username password false).
Qed.

(** Without the credentials a request is not even looked at. *)
Example request_before_credentials :
  l_out (run [I_accept; says greeting; says connect] started) =
  [T_set_read_enabled 7 true; T_write 7 [5; 2]; T_drain 7 4; T_write 7 [1; 1]; T_drain 7 10].
Proof. by vm_compute. Qed.
End Socks5Sample.

Lemma requests_need_credentials_witness :
  let l := Socks5Sample.admitted in let i := Socks5Sample.says Socks5Sample.connect in
  let l' := socks_step Socks5Sample.env i l in
  E_CONNECT_REQUEST 7 IPPROTO_TCP (WireSample.host4 1 5000) (TA_address (WireSample.host4 8 80)) [] ∈ l_out l' /\
  exists outs, l_out l' = l_out l ++ outs /\ forall o, o ∈ outs -> permitted [7] i o.
Proof.
  split; [vm_compute; set_solver|].
  apply (requests_need_credentials Socks5Sample.username Socks5Sample.password [7]); [done| |].
  - apply Socks5Sample.admitted_session.
  - by intros c [= <-].
Defined.
