(* ===== verification/Socks5Requests.v ===== *)
(** * The requests of the SOCKS5 clients

    Requests, credentials and packets put together as the protocol says are understood,
    however they arrive, and the packets for the client are read back; what the code does not
    do as meant. *)

From stdpp Require Import gmap.
From S2P Require Import Prelude VpnTypes Wire View Socks5 Socks5Proofs.

(** ** Putting together *)

Definition address_ok (dst : TunnelAddress) : Prop :=
  match dst with
  | TA_address ip => in_width 16 (sa_port ip) /\
      ((sa_family ip = AF_INET /\ length (sa_addr ip) = 4%nat) \/ (sa_family ip = AF_INET6 /\ length (sa_addr ip) = 16%nat))
  | TA_name name port => in_width 16 port /\ Z.of_nat (length name) < 256
  end.

Definition address_port (dst : TunnelAddress) : Z := match dst with TA_address ip => sa_port ip | TA_name _ port => port end.

Definition string_put (s : list Z) : list Z := Z.of_nat (length s) :: s.

(** The type and the bytes of an address, with the name of the application if there is one. *)
Definition type_put (app : option (list Z)) (dst : TunnelAddress) : Z :=
  socks_atyp_by_addr dst + match app with Some _ => 240 | None => 0 end.
Definition address_put (app : option (list Z)) (dst : TunnelAddress) : list Z :=
  match app with Some name => string_put name | None => [] end ++
  match dst with TA_address ip => sa_addr ip | TA_name name _ => string_put name end.

Definition request_put (cmd : Z) (app : option (list Z)) (dst : TunnelAddress) : list Z :=
  [SOCKS5_VER; cmd; 0; type_put app dst] ++ address_put app dst ++ be_bytes 2 (address_port dst).

Definition app_ok (app : option (list Z)) : Prop := match app with Some name => Z.of_nat (length name) < 256 | None => True end.

(** ** Reading *)

Lemma bytes_of_at data a x c i n : data = a ++ x ++ c -> i = Z.of_nat (length a) -> n = Z.of_nat (length x) -> bytes_of data i n = (x, []).
Proof. intros E Hi Hn. unfold bytes_of. by apply (shows_read _ _ data a x c); [apply shows_whole|..]. Qed.

Lemma byte_of_at data a b c i : data = a ++ b :: c -> i = Z.of_nat (length a) -> byte_of data i = (b, []).
Proof. intros E Hi. unfold byte_of. by apply (shows_byte _ _ data a b c); [apply shows_whole|..]. Qed.

Lemma byte_of_start chunk more a b c i : chunk ++ more = a ++ b :: c -> (length a < length chunk)%nat -> i = Z.of_nat (length a) ->
  byte_of chunk i = (b, []).
Proof.
  intros E Hlt Hi. assert (chunk !! length a = Some b) as Hb.
  { rewrite <- (lookup_app_l chunk more) by done. rewrite E. by apply list_lookup_middle. }
  apply (byte_of_at _ (take (length a) chunk) b (drop (S (length a)) chunk)); [by rewrite take_drop_middle|rewrite length_take; lia].
Qed.

Lemma port_of_at data a port c i : data = a ++ be_bytes 2 port ++ c -> i = Z.of_nat (length a) -> in_width 16 port -> port_of data i = (port, []).
Proof. intros E Hi Hp. unfold port_of. by apply (shows_get _ _ data a port c i 2 2); [apply shows_whole|..]. Qed.

Section Reading.
Context `{Lib : SocketAddressLib} (app : option (list Z)) (dst : TunnelAddress) (pre rest : list Z).
Context (Happ : app_ok app) (Hdst : address_ok dst).

Abbreviation data := (pre ++ address_put app dst ++ be_bytes 2 (address_port dst) ++ rest).
Abbreviation at_ := (Z.of_nat (length pre)).

Lemma type_plain : has_app_name (socks_atyp_by_addr dst) = false.
Proof. destruct dst as [ip|name port]; cbn; [by destruct (is_ipv4 ip)|done]. Qed.

Lemma type_with_app : has_app_name (socks_atyp_by_addr dst + 240) = true /\ Z.lxor (socks_atyp_by_addr dst + 240) 240 = socks_atyp_by_addr dst.
Proof. destruct dst as [ip|name port]; cbn; [by destruct (is_ipv4 ip)|done]. Qed.

Lemma app_name_put : app_name_from_request (type_put app dst) data at_ = (default [] app, []).
Proof.
  unfold app_name_from_request, type_put. destruct app as [name|].
  - rewrite (proj1 type_with_app). unfold address_put, string_put. rewrite <- !app_assoc, <- app_comm_cons.
    erewrite byte_of_at by done. rewrite checked_bind_ok. cbn [default].
    eapply (bytes_of_at _ (pre ++ [_])); [by rewrite <- !app_assoc|rewrite length_app; cbn; lia|done].
  - by rewrite Z.add_0_r, type_plain.
Qed.

Lemma dst_addr_plain pre' : dst_addr_from_request (socks_atyp_by_addr dst)
    (pre' ++ address_put None dst ++ be_bytes 2 (address_port dst) ++ rest) (Z.of_nat (length pre')) = (dst, []).
Proof.
  unfold dst_addr_from_request. rewrite type_plain, checked_bind_ret, Z.add_0_r. destruct dst as [[f ip port]|name port]; cbn in Hdst;
    unfold address_put; cbn [socks_atyp_by_addr address_port Datatypes.app].
  - destruct Hdst as [Hp Hip].
    assert (exists v4, (f =? AF_INET) = v4 /\ Z.of_nat (length ip) = (if v4 then 4 else 16) /\
      socket_address ip port = mkSocketAddress f ip port) as (v4 & Hv & Hlen & Hsa).
    { destruct Hip as [[-> Hl]|[-> Hl]]; eexists; (split; [done|]); rewrite Hl; (split; [done|]); by first [apply socket_address_v4|apply socket_address_v6]. }
    unfold is_ipv4. cbn [sa_family sa_addr sa_port]. rewrite Hv. replace ((if v4 then S5AT_IPV4 else S5AT_IPV6) =? S5AT_DOMAINNAME) with false by by destruct v4.
    replace (if (if v4 then S5AT_IPV4 else S5AT_IPV6) =? S5AT_IPV4 then IPV4_ADDR_SIZE else IPV6_ADDR_SIZE) with (Z.of_nat (length ip))
      by (rewrite Hlen; by destruct v4).
    erewrite (bytes_of_at _ pre' ip) by done. rewrite checked_bind_ok.
    rewrite (port_of_at _ (pre' ++ ip) port rest) by (rewrite ?length_app, <- ?app_assoc; cbn; done || lia).
    by rewrite checked_bind_ok, Hsa.
  - destruct Hdst as [Hp Hn]. replace (S5AT_DOMAINNAME =? S5AT_DOMAINNAME) with true by done. unfold string_put. cbn [Datatypes.app]. erewrite byte_of_at by done. rewrite checked_bind_ok.
    rewrite (bytes_of_at _ (pre' ++ [Z.of_nat (length name)]) name (be_bytes 2 port ++ rest))
      by (rewrite ?length_app, <- ?app_assoc; cbn; done || lia).
    rewrite checked_bind_ok. rewrite (port_of_at _ (pre' ++ Z.of_nat (length name) :: name) port rest)
      by (rewrite ?length_app, <- ?app_assoc; cbn; done || lia).
    by rewrite checked_bind_ok.
Qed.

Lemma dst_addr_put : dst_addr_from_request (type_put app dst) data at_ = (dst, []).
Proof.
  unfold type_put. destruct app as [name|]; [|rewrite Z.add_0_r; apply dst_addr_plain].
  pose proof (dst_addr_plain (pre ++ string_put name)) as Hplain. rewrite <- app_assoc in Hplain.
  replace (pre ++ address_put (Some name) dst ++ be_bytes 2 (address_port dst) ++ rest)
    with (pre ++ string_put name ++ address_put None dst ++ be_bytes 2 (address_port dst) ++ rest)
    by (unfold address_put; by rewrite <- !app_assoc).
  set (D := pre ++ _) in *. assert (byte_of D at_ = (Z.of_nat (length name), [])) as Hb by by eapply byte_of_at.
  revert Hplain. unfold dst_addr_from_request. destruct type_with_app as [-> ->].
  rewrite type_plain, checked_bind_ret, Hb, checked_bind_ok, checked_bind_ret, Z.add_0_r.
  replace (Z.of_nat (length (pre ++ string_put name))) with (at_ + (Z.of_nat (length name) + 1)) by (rewrite length_app; cbn; lia).
  done.
Qed.

(** The length of an address that may not be there as a whole. *)
Lemma addr_length_put chunk more : chunk ++ more = data -> (length pre <= length chunk)%nat ->
  exists n, addr_length_from_request (type_put app dst) chunk at_ (Z.of_nat (length chunk) - at_) = (n, []) /\
    (n = Z.of_nat (length (address_put app dst)) \/
     (n < 0 /\ Z.of_nat (length chunk) < at_ + Z.of_nat (length (address_put app dst)))).
Proof.
  intros E Hlen. assert (forall a b c i, data = a ++ b :: c -> (length a < length chunk)%nat -> i = Z.of_nat (length a) ->
    byte_of chunk i = (b, [])) as Hbyte by (intros a b c i Ed; rewrite Ed in E; by eapply byte_of_start).
  unfold type_put, address_put in *. clear E. unfold addr_length_from_request.
  destruct dst as [[f ip port]|name port]; cbn [socks_atyp_by_addr address_port sa_addr sa_port] in *.
  - assert (exists v4, is_ipv4 (mkSocketAddress f ip port) = v4 /\ Z.of_nat (length ip) = (if v4 then 4 else 16)) as (v4 & -> & Hip).
    { destruct Hdst as [_ [[Hf Hl]|[Hf Hl]]]; cbn in Hf, Hl; rewrite Hf, Hl; eexists; by split. }
    destruct app as [name|]; rewrite ?length_app, ?Nat2Z.inj_add; cbn [length string_put]; rewrite ?Nat2Z.inj_succ.
    + assert (forall k, (if Z.of_nat (length chunk) - at_ =? 0 then mret (-1) else n ← byte_of chunk at_; mret (1 + n + k)) =
        (if Z.of_nat (length chunk) - at_ =? 0 then -1 else 1 + Z.of_nat (length name) + k, [])) as Hk.
      { intros k. destruct (Z.eqb_spec (Z.of_nat (length chunk) - at_) 0); [done|].
        erewrite Hbyte by (done || lia). by rewrite checked_bind_ok. }
      destruct v4; cbn [Z.eqb]; eexists; (split; [apply Hk|]); destruct (Z.eqb_spec (Z.of_nat (length chunk) - at_) 0); unfold IPV4_ADDR_SIZE, IPV6_ADDR_SIZE; lia.
    + destruct v4; eexists; (split; [done|]); left; unfold IPV4_ADDR_SIZE, IPV6_ADDR_SIZE; cbn [Datatypes.app length]; lia.
  - clear Hdst. destruct app as [app_name|]; rewrite ?length_app, ?Nat2Z.inj_add; cbn [length string_put]; rewrite ?Nat2Z.inj_succ.
    + change (exists n, (if Z.of_nat (length chunk) - at_ =? 0 then mret (-1)
        else m ← byte_of chunk at_; if Z.of_nat (length chunk) - at_ <? m + 2 then mret (-1)
             else k ← byte_of chunk (at_ + m + 1); mret (1 + m + 1 + k)) = (n, []) /\
        (n = Z.succ (Z.of_nat (length app_name)) + Z.succ (Z.of_nat (length name)) \/
         n < 0 /\ Z.of_nat (length chunk) < at_ + (Z.succ (Z.of_nat (length app_name)) + Z.succ (Z.of_nat (length name))))).
      destruct (Z.eqb_spec (Z.of_nat (length chunk) - at_) 0) as [Hz|]; [exists (-1); split; [by cbn|]; lia|].
      erewrite Hbyte by (done || lia). rewrite checked_bind_ok.
      destruct (Z.ltb_spec (Z.of_nat (length chunk) - at_) (Z.of_nat (length app_name) + 2)); [exists (-1); split; [done|]; lia|].
      rewrite (Hbyte (pre ++ string_put app_name) (Z.of_nat (length name)) (name ++ be_bytes 2 port ++ rest))
        by (rewrite ?length_app, <- ?app_assoc; cbn; done || lia).
      rewrite checked_bind_ok. eexists. split; [done|]. left. cbn. lia.
    + destruct (Z.eqb_spec (Z.of_nat (length chunk) - at_) 0); [exists (-1); split; [done|]; lia|].
      erewrite Hbyte by (done || lia). rewrite checked_bind_ok. eexists. split; [done|]. left. cbn. lia.
Qed.
End Reading.

(** ** A request to connect *)

Lemma noting_ok {A} (x : Checked A) a l : x = (a, []) -> noting x l = (a, l).
Proof. intros ->. unfold noting. cbn. rewrite app_nil_r. by destruct l. Qed.

Lemma request_length cmd app dst :
  Z.of_nat (length (request_put cmd app dst)) = HEADER_SIZE + Z.of_nat (length (address_put app dst)) + 2.
Proof. unfold request_put, HEADER_SIZE. rewrite !length_app, be_bytes_length. cbn [length]. lia. Qed.

(** The first bytes of a request. *)
Lemma request_start chunk more cmd app dst rest k : chunk ++ more = request_put cmd app dst ++ rest -> (4 <= length chunk)%nat -> (k < 4)%nat ->
  nth k chunk 0 = nth k [SOCKS5_VER; cmd; 0; type_put app dst] 0.
Proof.
  intros E Hlen Hk. rewrite <- (app_nth1 chunk more) by lia. rewrite E. unfold request_put. rewrite <- !app_assoc, app_nth1 by (cbn; lia). done.
Qed.

Lemma type_is_known app dst : is_address_type (type_put app dst) = true.
Proof. unfold type_put. destruct dst as [ip|name port]; cbn; [destruct (is_ipv4 ip)|]; by destruct app. Qed.

Lemma update_there key f l c : l_connections l !! key = Some c -> update key f l = l <| l_connections := <[key := f c]> (l_connections l) |>.
Proof. intros Hc. unfold update. by rewrite Hc. Qed.

Lemma update_put key f c l : update key f (l <| l_connections := <[key := c]> (l_connections l) |>) =
  l <| l_connections := <[key := f c]> (l_connections l) |>.
Proof. erewrite update_there by (cbn; apply lookup_insert_eq). cbn. by rewrite insert_insert_eq. Qed.

Lemma raise_quietly env e l : se_closes env e = [] -> raise env e l = emit e l.
Proof. intros Hc. unfold raise. by rewrite Hc. Qed.

Section Request.
Context `{Lib : SocketAddressLib} (env : SocksEnv) (id : Z) (app : option (list Z)) (dst : TunnelAddress).
Context (Happ : app_ok app) (Hdst : address_ok dst).
Abbreviation key := (key_of id).
Abbreviation req := (request_put S5CMD_CONNECT app dst).

(** The length of the address is read from any start of the request that has the header. *)
Lemma request_addr_length chunk more rest l : chunk ++ more = req ++ rest -> (4 <= length chunk)%nat ->
  exists n, noting (addr_length_from_request (nth 3 chunk 0) chunk HEADER_SIZE (Z.of_nat (length chunk) - HEADER_SIZE)) l = (n, l) /\
    (n = Z.of_nat (length (address_put app dst)) \/
     (n < 0 /\ Z.of_nat (length chunk) < HEADER_SIZE + Z.of_nat (length (address_put app dst)))).
Proof.
  intros E Hlen. rewrite (request_start _ _ _ _ _ _ _ E Hlen) by lia. unfold request_put in E. rewrite <- !app_assoc in E.
  destruct (addr_length_put app dst _ rest Happ Hdst chunk more E Hlen) as (n & Hn & Hcase).
  exists n. split; [|done]. by apply noting_ok.
Qed.

Definition with_proto (c : Connection) : Connection := c <| k_proto := IPPROTO_TCP |>.

Lemma request_waits chunk more l : chunk ++ more = req -> (length chunk < length req)%nat ->
  exists l', read_request env key chunk l = (V_drain 0, l') /\ (l' = l \/ l' = update key with_proto l).
Proof.
  intros E Hlt. unfold read_request. destruct (Z.ltb_spec (Z.of_nat (length chunk)) HEADER_SIZE) as [|Hlen]; [eauto|].
  assert (4 <= length chunk)%nat as Hlen' by (unfold HEADER_SIZE in Hlen; lia).
  assert (chunk ++ more = req ++ []) as E' by by rewrite app_nil_r.
  destruct (request_addr_length _ _ _ l E' Hlen') as (n & -> & Hn).
  rewrite !(request_start _ _ _ _ _ _ _ E' Hlen') by lia. cbn [nth]. rewrite type_is_known. cbn [negb orb].
  replace ((n <? 0) || _) with true; [eauto|]. symmetry. apply orb_true_iff. pose proof (request_length S5CMD_CONNECT app dst). lia.
Qed.

Abbreviation asked c := (E_CONNECT_REQUEST (k_id c) IPPROTO_TCP (se_remote env) dst (default [] app)).

Definition asking (c : Connection) : Connection :=
  c <| k_state := S5CONNS_WAITING_CONNECT_RESULT |> <| k_proto := IPPROTO_TCP |> <| k_addr := mkPair (se_remote env) dst |>
    <| k_app_name := default [] app |>.

Lemma request_taken rest l c : l_connections l !! key = Some c -> se_closes env (asked c) = [] ->
  read_request env key (req ++ rest) l =
    (V_drain (Z.of_nat (length req)),
     emit (T_set_read_enabled key false) (emit (asked c) (l <| l_connections := <[key := asking c]> (l_connections l) |>))).
Proof.
  intros Hc Hclose. unfold read_request. pose proof (request_length S5CMD_CONNECT app dst) as Hreq.
  assert (4 <= length (req ++ rest))%nat as Hlen by (rewrite length_app; unfold HEADER_SIZE in Hreq; lia).
  assert ((req ++ rest) ++ [] = req ++ rest) as E by apply app_nil_r.
  replace (Z.of_nat (length (req ++ rest)) <? HEADER_SIZE) with false by (unfold HEADER_SIZE; lia).
  destruct (request_addr_length _ _ _ l E Hlen) as (n & -> & Hn).
  assert (n = Z.of_nat (length (address_put app dst))) as ->.
  { rewrite length_app in Hn. lia. }
  rewrite !(request_start _ _ _ _ _ _ _ E Hlen) by lia. cbn [nth]. rewrite type_is_known.
  assert ((Z.of_nat (length (address_put app dst)) <? 0) ||
    (Z.of_nat (length (req ++ rest)) <? HEADER_SIZE + Z.of_nat (length (address_put app dst)) + 2) = false) as ->.
  { rewrite (length_app req). apply orb_false_iff. split; [lia|]. apply Z.ltb_ge. rewrite Nat2Z.inj_add, Hreq. clear. lia. }
  cbn [negb orb Z.eqb]. unfold take_request. rewrite !(request_start _ _ _ _ _ _ _ E Hlen) by lia. cbn [nth].
  rewrite Hreq.
  assert (req ++ rest = [SOCKS5_VER; S5CMD_CONNECT; 0; type_put app dst] ++ address_put app dst ++ be_bytes 2 (address_port dst) ++ rest) as Ereq.
  { unfold request_put. by rewrite <- !app_assoc. }
  rewrite Ereq. erewrite !noting_ok by (by apply dst_addr_put || by apply app_name_put). clear Ereq E Hlen Hn.
  f_equal. replace (S5CMD_CONNECT =? S5CMD_CONNECT) with true by done.
  erewrite (update_there _ with_proto) by done. rewrite !update_put.
  match goal with |- context [match l_connections (?l <| l_connections := <[_ := ?c]> _ |>) !! key with _ => _ end] =>
    replace (l_connections (l <| l_connections := <[key := c]> (l_connections l) |>) !! key) with (Some c) by (symmetry; apply lookup_insert_eq) end.
  unfold raise_connect_request. rewrite raise_quietly by done.
  rewrite bool_decide_eq_false_2; [done|]. cbn. by rewrite lookup_insert_eq.
Qed.

Context (Hdrain : forall n, se_drain env n = true).
Abbreviation arrive data l := (socks_step env (I_socket id (TCP_SOCKET_EVENT_READABLE (Chunk data))) l).

Lemma arrive_request chunk l c n l' : find id l = Some c -> k_state c = S5CONNS_WAITING_REQUEST -> l_udp_relays l !! key = None ->
  read_request env key chunk l = (V_drain n, l') -> l_connections l' !! key <> None -> arrive chunk l = emit (T_drain key n) l'.
Proof.
  intros Hc Hst Hr Hread Hthere. cbn [socks_step sock_handler]. rewrite Hc. cbn [on_readable].
  unfold is_udp_association_tcp_connection. rewrite bool_decide_eq_false_2, andb_false_r by tauto. unfold read_chunk.
  rewrite Hst, Hread. cbn [fst snd finish_read]. rewrite bool_decide_eq_false_2 by done. by rewrite Hdrain.
Qed.

Lemma arrive_piece k l c : (k < length req)%nat -> find id l = Some c -> k_state c = S5CONNS_WAITING_REQUEST -> l_udp_relays l !! key = None ->
  exists c', arrive (take k req) l = emit (T_drain key 0) (l <| l_connections := <[key := c']> (l_connections l) |>) /\ (c' = c \/ c' = with_proto c).
Proof.
  intros Hk Hc Hst Hr. assert (length (take k req) < length req)%nat as Hlt by (rewrite length_take; lia).
  destruct (request_waits (take k req) (drop k req) l (take_drop _ _) Hlt) as (l' & Hread & [->| ->]).
  - exists c. split; [|by left]. rewrite (arrive_request _ _ c 0 l) by (done || by unfold find in Hc; rewrite Hc).
    unfold find in Hc. rewrite insert_id by done. by destruct l.
  - exists (with_proto c). split; [|by right]. unfold find in Hc. erewrite update_there in Hread by done.
    erewrite arrive_request; [done|exact Hc|done|done|exact Hread|]. cbn. by rewrite lookup_insert_eq.
Qed.

Lemma arrive_pieces pieces rest : forall l c, Forall (fun k => k < length req)%nat pieces ->
  find id l = Some c -> k_state c = S5CONNS_WAITING_REQUEST -> l_udp_relays l !! key = None -> se_closes env (asked c) = [] ->
  let l' := arrive (req ++ rest) (fold_left (fun l k => arrive (take k req) l) pieces l) in
  l_out l' = l_out l ++ map (fun _ => T_drain key 0) pieces ++ [asked c; T_set_read_enabled key false; T_drain key (Z.of_nat (length req))] /\
  l_faults l' = l_faults l /\ find id l' = Some (asking c).
Proof.
  induction pieces as [|k pieces IH]; intros l c Hp Hc Hst Hr Hclose.
  - cbn [fold_left map]. cbv zeta. erewrite arrive_request; [|exact Hc|done|done|by apply request_taken|cbn; by rewrite lookup_insert_eq].
    split_and!; [cbn; by rewrite <- !app_assoc|done|cbn; apply lookup_insert_eq].
  - apply Forall_cons in Hp as [Hk Hp]. cbn [fold_left map]. destruct (arrive_piece k l c Hk Hc Hst Hr) as (c' & -> & Hc').
    set (l1 := emit _ _). assert (find id l1 = Some c') as Hc1 by (cbn; apply lookup_insert_eq).
    assert (k_id c' = k_id c /\ k_state c' = k_state c /\ asking c' = asking c) as (E1 & E2 & E3) by by destruct Hc' as [->| ->].
    specialize (IH l1 c' Hp Hc1). rewrite E1, E2, E3 in IH. destruct (IH Hst Hr Hclose) as (Ho & Hf & Hfind).
    split_and!; [|done|done]. cbv zeta in Ho. rewrite Ho. cbn. by rewrite <- app_assoc.
Qed.
End Request.

(** C16. A request to connect put together as the protocol says is taken, in however many
    pieces it arrives: until it is whole nothing is taken from the socket, and then it is
    passed on with its address and the name of the application, exactly its bytes are taken,
    and reading pauses until the answer. *)
Theorem request_in_pieces_is_taken `{Lib : SocketAddressLib} env id app dst pieces rest l c :
  app_ok app -> address_ok dst -> (forall n, se_drain env n = true) ->
  find id l = Some c -> k_state c = S5CONNS_WAITING_REQUEST -> l_udp_relays l !! key_of id = None ->
  let req := request_put S5CMD_CONNECT app dst in
  let asked := E_CONNECT_REQUEST (k_id c) IPPROTO_TCP (se_remote env) dst (default [] app) in
  se_closes env asked = [] -> Forall (fun k => k < length req)%nat pieces ->
  let arrive data l := socks_step env (I_socket id (TCP_SOCKET_EVENT_READABLE (Chunk data))) l in
  let l' := arrive (req ++ rest) (fold_left (fun l k => arrive (take k req) l) pieces l) in
  l_out l' = l_out l ++ map (fun _ => T_drain (key_of id) 0) pieces ++
    [asked; T_set_read_enabled (key_of id) false; T_drain (key_of id) (Z.of_nat (length req))] /\
  l_faults l' = l_faults l /\ find id l' = Some (asking env app dst c).
Proof. intros Happ Hdst Hdrain Hc Hst Hr req asked Hclose Hp. by apply arrive_pieces. Qed.

(** ** Packets of the UDP clients *)

(** A packet as the protocol puts it together; addresses are all the code takes. *)
Definition packet_put (dst : SocketAddress) (data : list Z) : list Z :=
  [0; 0; 0; type_put None (TA_address dst)] ++ address_put None (TA_address dst) ++ be_bytes 2 (sa_port dst) ++ data.

(** The packets for the client are put together so, too. *)
Lemma udp_reply_put dst data : udp_reply (TA_address dst) data = mret (packet_put dst data).
Proof. unfold udp_reply, packet_put, type_put, address_put. by rewrite Z.add_0_r. Qed.

Definition header_length (dst : SocketAddress) : Z := HEADER_SIZE + Z.of_nat (length (sa_addr dst)) + 2.

Lemma header_length_pos dst : (0 <? header_length dst) = true.
Proof. unfold header_length, HEADER_SIZE. apply Z.ltb_lt. lia. Qed.

Lemma packet_payload dst data : drop (Z.to_nat (header_length dst)) (packet_put dst data) = data.
Proof.
  unfold packet_put, address_put. cbn [Datatypes.app]. rewrite !app_comm_cons, app_assoc. apply drop_app_length'.
  rewrite length_app, be_bytes_length. unfold header_length, HEADER_SIZE. cbn [length]. lia.
Qed.

Section Packets.
Context `{Lib : SocketAddressLib} (env : SocksEnv) (relay : Z) (src dst : SocketAddress).
Context (Hdst : address_ok (TA_address dst)).
Abbreviation addr := (mkPair src (TA_address dst)).
Abbreviation id := (se_new_id env).
Abbreviation key := (key_of id).

(** The header of a packet is understood. *)
Lemma packet_header data l : process_udp_header env relay (packet_put dst data) src l =
  let table := relay_table relay l in
  match lookup_address addr table with
  | Some k => (header_length dst, k, l <| l_udp_relays := <[relay := Some table]> (l_udp_relays l) |>)
  | None =>
      let c := (connection_new id) <| k_addr := addr |> <| k_proto := IPPROTO_UDP |> <| k_relay := Some relay |> <| k_app_name := [] |> in
      let l := l <| l_udp_relays := <[relay := Some (table ++ [(addr, key)])]> (l_udp_relays l) |> in
      let l := if bool_decide (l_connections l !! key = None) then l else fault "id is in use" l in
      (header_length dst, key, l <| l_connections := <[key := c]> (l_connections l) |>)
  end.
Proof.
  unfold process_udp_header. set (p := packet_put dst data).
  assert (p ++ [] = [0; 0; 0; type_put None (TA_address dst)] ++ address_put None (TA_address dst) ++ be_bytes 2 (sa_port dst) ++ data) as E
    by by rewrite app_nil_r.
  assert (Z.of_nat (length p) = header_length dst + Z.of_nat (length data)) as Hlen.
  { subst p. unfold packet_put. rewrite !length_app, be_bytes_length. unfold header_length, HEADER_SIZE, address_put. cbn [length Datatypes.app]. lia. }
  unfold header_length in *. rewrite Hlen.
  replace (HEADER_SIZE + _ + 2 + _ <? HEADER_SIZE) with false by lia.
  destruct (addr_length_put None (TA_address dst) [0; 0; 0; type_put None (TA_address dst)] data I Hdst p [] E) as (n & Hn & Hcase);
    [cbn; unfold HEADER_SIZE in Hlen; lia|].
  assert (n = Z.of_nat (length (sa_addr dst))) as ->.
  { destruct Hcase as [->|[_ Hlt]]; [done|]. exfalso. unfold address_put in Hlt. cbn [Datatypes.app length] in Hlt. unfold HEADER_SIZE in Hlen. lia. }
  rewrite <- Hlen. change (nth 3 p 0) with (type_put None (TA_address dst)). change (nth 2 p 0) with 0. change (take 2 p) with [0; 0].
  cbv zeta. change (Z.of_nat (length [0; 0; 0; type_put None (TA_address dst)])) with HEADER_SIZE in Hn. rewrite (noting_ok _ _ l Hn).
  replace ((Z.of_nat (length (sa_addr dst)) <? 0) || (Z.of_nat (length p) <? HEADER_SIZE + Z.of_nat (length (sa_addr dst)) + 2)) with false
    by (symmetry; apply orb_false_iff; lia).
  replace (negb ((type_put None (TA_address dst) =? S5AT_IPV4) || (type_put None (TA_address dst) =? S5AT_IPV6))) with false
    by (unfold type_put; cbn; by destruct (is_ipv4 dst)).
  cbn [negb Z.eqb be_value fold_left Z.lor Z.shiftl].
  pose proof (dst_addr_put None (TA_address dst) [0; 0; 0; type_put None (TA_address dst)] data I Hdst) as Hd.
  pose proof (app_name_put None (TA_address dst) [0; 0; 0; type_put None (TA_address dst)] data I Hdst) as Ha.
  erewrite noting_ok by exact Hd. cbv zeta. destruct (lookup_address _ _); [done|]. erewrite noting_ok by exact Ha. done.
Qed.

(** The connection of the packets, before the answer and after it. *)
Definition relayed (st : ConnectionState) (readable : bool) (pending : list (list Z)) : Connection :=
  mkConnection st id addr IPPROTO_UDP [] readable 0 pending (Some relay).
Abbreviation asked := (E_CONNECT_REQUEST id IPPROTO_UDP src (TA_address dst) []).
Abbreviation receive data l := (socks_step env (I_udp relay (UDP_read (packet_put dst data) src)) l).
Context (Hquiet : forall e, se_closes env e = []).

Record relaying (l l' : Socks5Listener) (pending : list (list Z)) : Prop := mkRelaying {
  relaying_out : l_out l' = l_out l ++ [asked];
  relaying_faults : l_faults l' = l_faults l;
  relaying_connection : find id l' = Some (relayed S5CONNS_WAITING_CONNECT_RESULT false pending);
  relaying_client : l_connections l' !! relay <> None;
  relaying_table : exists table, l_udp_relays l' !! relay = Some (Some table) /\ lookup_address addr table = Some key;
  relaying_pending : l_conns_with_pending_udp l' = l_conns_with_pending_udp l;
}.

Lemma lookup_address_last table k : lookup_address addr table = None -> lookup_address addr (table ++ [(addr, k)]) = Some k.
Proof.
  unfold lookup_address. induction table as [|[a k'] table IH]; cbn; [by rewrite bool_decide_eq_true_2|].
  destruct (bool_decide _); [done|]. apply IH.
Qed.

Lemma packet_cons data : exists b bs, packet_put dst data = b :: bs.
Proof. unfold packet_put. cbn. eauto. Qed.

Lemma receive_there data l : l_connections l !! relay <> None -> l_udp_relays l !! relay <> None ->
  receive data l = (let '(n, k, l) := process_udp_header env relay (packet_put dst data) src l in
    if 0 <? n then handle_udp_read env k (drop (Z.to_nat n) (packet_put dst data)) l else l).
Proof.
  intros Hc Hr. cbn [socks_step udp_event_handler]. unfold udp_event_handler.
  destruct (l_connections l !! relay); [|done]. destruct (l_udp_relays l !! relay); [|done].
  destruct (packet_cons data) as (b & bs & ->). done.
Qed.

Lemma handle_idle k c data l : l_connections l !! k = Some c -> k_state c = S5CONNS_IDLE ->
  handle_udp_read env k data l =
  emit (E_CONNECT_REQUEST (k_id c) (k_proto c) (tap_src (k_addr c)) (tap_dst (k_addr c)) (k_app_name c))
    (l <| l_connections := <[k := c <| k_state := S5CONNS_WAITING_CONNECT_RESULT |>
                                    <| k_pending_udp_packets := k_pending_udp_packets c ++ [data] |>]> (l_connections l) |>).
Proof.
  intros Hc Hst. unfold handle_udp_read, pend_udp_packet, set_state, raise_connect_request. rewrite Hc, Hst.
  rewrite raise_quietly by done. by rewrite (update_there k _ l c Hc), update_put.
Qed.

Lemma receive_first data l : l_connections l !! relay <> None -> l_udp_relays l !! relay <> None -> find id l = None ->
  lookup_address addr (relay_table relay l) = None -> relaying l (receive data l) [data].
Proof.
  intros Hc Hr Hid Hl. rewrite receive_there, packet_header by done. cbv zeta. rewrite Hl.
  rewrite header_length_pos, packet_payload, bool_decide_eq_true_2 by done. set (l0 := l <| l_udp_relays := _ |>).
  erewrite handle_idle; [|by apply lookup_insert_eq|done]. split; cbn; try done.
  - apply lookup_insert_eq.
  - by destruct (decide (relay = key)) as [->|]; [rewrite lookup_insert_eq|rewrite !lookup_insert_ne by done].
  - rewrite lookup_insert_eq. eexists. split; [done|]. by apply lookup_address_last.
Qed.

Lemma receive_more data l l' pending : relaying l l' pending -> relaying l (receive data l') (pending ++ [data]).
Proof.
  intros [Ho Hf Hc Hcl (table & Ht & Ha) Hp]. rewrite receive_there, packet_header by (done || by rewrite Ht). cbv zeta.
  unfold relay_table. rewrite Ht, Ha, header_length_pos, packet_payload. rewrite (insert_id _ _ _ Ht).
  unfold handle_udp_read. cbn [l_connections]. change (l_connections (l' <| l_udp_relays := l_udp_relays l' |>)) with (l_connections l').
  unfold find in Hc. rewrite Hc. cbn [relayed k_state]. unfold pend_udp_packet. erewrite update_there by exact Hc.
  split; cbn; try done.
  - apply lookup_insert_eq.
  - by destruct (decide (relay = key)) as [->|]; [rewrite lookup_insert_eq|rewrite !lookup_insert_ne by done].
  - eauto.
Qed.

Lemma receive_all more l : forall l' pending, relaying l l' pending ->
  relaying l (fold_left (fun l data => receive data l) more l') (pending ++ more).
Proof.
  induction more as [|data more IH]; intros l' pending Hl; [by rewrite app_nil_r|].
  cbn [fold_left]. rewrite cons_middle, app_assoc. by apply IH, receive_more.
Qed.

Lemma send_packets_quietly packets : forall l, (forall n, 0 <= se_read_result env n) ->
  send_packets env key id packets l = l <| l_out := l_out l ++ map (E_READ id) packets |>.
Proof.
  induction packets as [|p packets IH]; intros l Hres; cbn [send_packets map]; [rewrite app_nil_r; by destruct l|].
  rewrite !raise_quietly by done. replace (_ <? 0) with false by (symmetry; apply Z.ltb_ge, Hres). rewrite IH by done.
  cbn. by rewrite <- app_assoc.
Qed.

(** The connection is accepted, and then the packets are passed on. *)
Lemma accepted l pending : find id l = Some (relayed S5CONNS_WAITING_CONNECT_RESULT false pending) ->
  let l' := socks_step env (I_complete_connect_request id S5LCR_SUCCESS) l in
  l_out l' = l_out l ++ [E_CONNECTION_ACCEPTED id] /\ l_faults l' = l_faults l /\ l_async_task l' = true /\
  l_conns_with_pending_udp l' = l_conns_with_pending_udp l ++ [id] /\ find id l' = Some (relayed S5CONNS_ESTABLISHED false pending).
Proof.
  intros Hc. cbn [socks_step]. unfold socks5_listener_complete_connect_request. rewrite Hc. cbn [relayed k_state k_id].
  rewrite !bool_decide_eq_true_2 by done. unfold find in *. unfold complete_udp_connection, set_state. cbn [k_proto k_id].
  replace (IPPROTO_UDP =? IPPROTO_TCP) with false by done. rewrite !bool_decide_eq_true_2 by done.
  rewrite raise_quietly by done. rewrite (update_there key _ l _ Hc).
  erewrite update_there; [|cbn; by apply lookup_insert_eq]. cbn. by rewrite lookup_insert_eq.
Qed.

Lemma passed_on l pending : find id l = Some (relayed S5CONNS_ESTABLISHED false pending) -> l_async_task l = true ->
  l_conns_with_pending_udp l = [id] -> (forall n, 0 <= se_read_result env n) ->
  let l' := socks_step env I_async l in
  l_out l' = l_out l ++ map (E_READ id) pending /\ l_faults l' = l_faults l /\ find id l' = Some (relayed S5CONNS_ESTABLISHED false []).
Proof.
  intros Hc Ha Hp Hres. cbn [socks_step]. rewrite Ha. unfold send_pending_udp_data. rewrite Hp. cbn [fold_left]. unfold send_pending, find in *.
  cbn [l_connections]. change (l_connections (l <| l_async_task := false |> <| l_conns_with_pending_udp := [] |>)) with (l_connections l).
  rewrite Hc. erewrite update_there by exact Hc. cbn [relayed k_id k_pending_udp_packets]. rewrite send_packets_quietly by done.
  cbn. by rewrite lookup_insert_eq.
Qed.
End Packets.

(** C17. The packets of a UDP client are delivered in order: the first one to a new address
    asks for a connection, those that come before the answer wait, and when the connection is
    accepted all of them are passed on; nothing else is reported and nothing goes wrong. *)
Theorem packets_wait_for_answer `{Lib : SocketAddressLib} env relay src dst data more l :
  address_ok (TA_address dst) -> (forall e, se_closes env e = []) -> (forall n, 0 <= se_read_result env n) ->
  l_connections l !! relay <> None -> l_udp_relays l !! relay <> None -> l_conns_with_pending_udp l = [] ->
  find (se_new_id env) l = None -> lookup_address (mkPair src (TA_address dst)) (relay_table relay l) = None ->
  let id := se_new_id env in
  let receive l data := socks_step env (I_udp relay (UDP_read (packet_put dst data) src)) l in
  let l' := socks_step env I_async (socks_step env (I_complete_connect_request id S5LCR_SUCCESS) (fold_left receive (data :: more) l)) in
  l_out l' = l_out l ++ [E_CONNECT_REQUEST id IPPROTO_UDP src (TA_address dst) []; E_CONNECTION_ACCEPTED id] ++
    map (E_READ id) (data :: more) /\
  l_faults l' = l_faults l /\ find id l' = Some (relayed env relay src dst S5CONNS_ESTABLISHED false []).
Proof.
  intros Hdst Hquiet Hres Hc Hr Hp Hid Hl id receive l'. subst l'. cbn [fold_left]. set (l1 := fold_left receive more (receive l data)).
  assert (relaying env relay src dst l l1 (data :: more)) as [Ho Hf Hc1 _ _ Hp1].
  { refine (receive_all env relay src dst Hdst more l (receive l data) [data] _). by apply receive_first. }
  destruct (accepted env relay src dst Hquiet l1 (data :: more) Hc1) as (Ho2 & Hf2 & Ha2 & Hp2 & Hc2). rewrite Hp1, Hp in Hp2.
  destruct (passed_on env relay src dst Hquiet _ _ Hc2 Ha2 Hp2 Hres) as (Ho3 & Hf3 & Hc3). subst id.
  rewrite Ho3, Ho2, Ho, Hf3, Hf2, <- !app_assoc. done.
Qed.

(** ** Examples *)

#[local] Existing Instance WireSample.lib.
Import Socks5Sample.

Module Socks5Cases.
Definition run_in (env : SocksEnv) (inputs : list SocksInput) (l : Socks5Listener) : Socks5Listener :=
  fold_left (fun l i => socks_step env i l) inputs l.

Definition no_write : SocksEnv :=
  mkSocksEnv 7 true 5 (fun _ => true) 1080 (WireSample.host4 1 5000) (Some (WireSample.host4 9 2000)) (0, true)
    (fun _ => true) (fun _ => 0) (fun _ => NoData) (fun _ => []) [] (fun k => k + 100) (replicate 32 170).
Definition no_relay : SocksEnv :=
  mkSocksEnv 7 true 0 (fun _ => true) 1080 (WireSample.host4 1 5000) None (0, true)
    (fun _ => true) (fun _ => 0) (fun _ => NoData) (fun _ => []) [] (fun k => k + 100) (replicate 32 170).
Definition closing : SocksEnv :=
  mkSocksEnv 7 true 0 (fun _ => true) 1080 (WireSample.host4 1 5000) None (0, true)
    (fun _ => true) (fun _ => 0) (fun _ => NoData) (fun o => match o with E_CONNECT_REQUEST id _ _ _ _ => [(id, false)] | _ => [] end)
    [] (fun k => k + 100) (replicate 32 170).
Definition next : SocksEnv :=
  mkSocksEnv 8 true 0 (fun _ => true) 1080 (WireSample.host4 1 5000) None (0, true)
    (fun _ => true) (fun _ => 0) (fun _ => NoData) (fun _ => []) [] (fun k => k + 100) (replicate 32 170).

(** The address is copied into the refusal of a command before it is known to be there. *)
Example refusal_reads_behind_request :
  l_faults (run [says [5; 2; 0; 1]] admitted) = [OUT_OF_BOUNDS] /\ l_faults (run [says [5; 2; 0; 3]] admitted) = [OUT_OF_BOUNDS].
Proof. by vm_compute. Qed.

(** The connections that are left when the listener stops are reported by their place in the table. *)
Example stop_reports_places : last (l_out (run [I_stop] admitted)) = Some (E_CONNECTION_CLOSED 107 0).
Proof. by vm_compute. Qed.

(** When the reply to an association cannot be written, the connection is used after it was destroyed. *)
Example association_not_replied : l_faults (run_in no_write [says associate] admitted) = [USE_AFTER_FREE; USE_AFTER_FREE].
Proof. by vm_compute. Qed.

(** So it is when the handler closes the connection while it is told about the request. *)
Example request_closed_at_once : l_faults (run_in closing [says connect] admitted) = [USE_AFTER_FREE].
Proof. by vm_compute. Qed.

(** The port in the reply to an association that failed is what the stack holds. *)
Example failed_association_leaks :
  T_write 7 [5; 1; 0; 1; 127; 0; 0; 1; 170; 170] ∈ l_out (run_in no_relay [says associate] admitted).
Proof. vm_compute. set_solver. Qed.

(** A client whose greeting was refused is not closed when the refusal is sent. *)
Example refused_client_stays :
  k_state <$> find 7 (run [I_accept; says [4; 1; 0]; I_socket 7 TCP_SOCKET_EVENT_WRITE_FLUSH] started) = Some S5CONNS_FAILED.
Proof. by vm_compute. Qed.

Definition associated : Socks5Listener := run [says associate] admitted.
End Socks5Cases.

(** Packets with the name of an application are dropped. *)
Example packet_with_app_name :
  l_out (Socks5Cases.run_in Socks5Cases.next
    [I_udp 7 (UDP_read [0; 0; 0; 241; 1; 97; 192; 0; 2; 8; 0; 80; 1] (WireSample.host4 1 6000))] Socks5Cases.associated) =
  l_out Socks5Cases.associated.
Proof. by vm_compute. Qed.

Lemma request_in_pieces_is_taken_witness :
  let req := request_put S5CMD_CONNECT (Some [97]) (TA_address (WireSample.host4 8 80)) in
  let arrive data l := socks_step env (I_socket 7 (TCP_SOCKET_EVENT_READABLE (Chunk data))) l in
  let asked := E_CONNECT_REQUEST 7 IPPROTO_TCP (WireSample.host4 1 5000) (TA_address (WireSample.host4 8 80)) [97] in
  let l' := arrive (req ++ [22; 3]) (fold_left (fun l k => arrive (take k req) l) [3; 5; 11]%nat admitted) in
  l_out l' = l_out admitted ++ [T_drain 7 0; T_drain 7 0; T_drain 7 0; asked; T_set_read_enabled 7 false; T_drain 7 12] /\
  l_faults l' = l_faults admitted /\
  find 7 l' = Some (asking env (Some [97]) (TA_address (WireSample.host4 8 80)) ((connection_new 7) <| k_state := S5CONNS_WAITING_REQUEST |>)).
Proof.
  refine (request_in_pieces_is_taken env 7 (Some [97]) (TA_address (WireSample.host4 8 80)) [3; 5; 11]%nat [22; 3] admitted
    ((connection_new 7) <| k_state := S5CONNS_WAITING_REQUEST |>) _ _ _ _ _ _ _ _); try done.
  - split; [done|by left].
  - repeat constructor; cbn; lia.
Defined.

Lemma packets_wait_for_answer_witness :
  let l := Socks5Cases.associated in
  let receive l data := socks_step Socks5Cases.next (I_udp 7 (UDP_read (packet_put (WireSample.host4 8 53) data) (WireSample.host4 1 6000))) l in
  let l' := socks_step Socks5Cases.next I_async (socks_step Socks5Cases.next (I_complete_connect_request 8 S5LCR_SUCCESS)
    (fold_left receive [[1]; [2]; [3]] l)) in
  l_out l' = l_out l ++ [E_CONNECT_REQUEST 8 IPPROTO_UDP (WireSample.host4 1 6000) (TA_address (WireSample.host4 8 53)) [];
    E_CONNECTION_ACCEPTED 8; E_READ 8 [1]; E_READ 8 [2]; E_READ 8 [3]] /\
  l_faults l' = l_faults l /\
  find 8 l' = Some (relayed Socks5Cases.next 7 (WireSample.host4 1 6000) (WireSample.host4 8 53) S5CONNS_ESTABLISHED false []).
Proof.
  refine (packets_wait_for_answer Socks5Cases.next 7 (WireSample.host4 1 6000) (WireSample.host4 8 53) [1] [[2]; [3]] Socks5Cases.associated
    _ _ _ _ _ _ _ _); try done.
  split; [done|by left].
Defined.
