(* ===== verification/RingBuffer.v ===== *)
(** * The ring buffer of records in a file

    Models [trusttunnel/src/persistent_ring_buffer.cpp]: a file has a header and a number of
    slots for records; a new record takes the slot of the oldest one.  The file at the path of
    the buffer is the state.  [RingEnv] says which of the calls of an operation fail and how
    much a read or a write transfers. *)

From S2P Require Import Prelude Wire DataBuffer MemfileBuffer.

(** The answer of [file::open], of [file::set_position], of [file::write] with so many bytes left to write, of
    [file::pread] with so many left to read, and of [fs::remove].  The writes of an operation are that of a new
    header, of the slot and of the header after it; a read is known by its place in the file. *)
Record RingEnv := mkRingEnv {
  re_open : bool;
  re_seek : nat -> bool;
  re_write : nat -> Z -> Z;
  re_read : Z -> Z -> Z;
  re_remove : bool;
}.

(** ** Integers in the byte order of the processor *)

Definition le_bytes (n : nat) (v : Z) : list Z := rev (be_bytes n v).
Definition le_value (bytes : list Z) : Z := be_value (rev bytes).

(** The [n] bytes at [i]. *)
Definition bytes_at (i n : nat) (bytes : list Z) : list Z := take n (drop i bytes).
Definition le_at (i n : nat) (bytes : list Z) : Z := le_value (bytes_at i n bytes).

(** ** The file *)

Definition FILE_MAGIC : Z := 1363956290.
Definition FILE_VERSION : Z := 1.
Definition SLOT_MARKER : Z := 82.
Definition SLOT_MARKER_SIZE : Z := 1.
Definition SLOT_LENGTH_SIZE : Z := 4.

Record Header := mkHeader {
  h_magic : Z;
  h_version : Z;
  h_capacity : Z;
  h_max_record_bytes : Z;
  h_write_slot : Z;
  h_count : Z;
  h_next_sequence : Z;
}.
#[export] Instance eta_Header : Eta Header := fun h =>
  mkHeader (h_magic h) (h_version h) (h_capacity h) (h_max_record_bytes h) (h_write_slot h) (h_count h) (h_next_sequence h).

Definition HEADER_BYTES : nat := 32.

Definition header_bytes (h : Header) : list Z :=
  le_bytes 4 (h_magic h) ++ le_bytes 4 (h_version h) ++ le_bytes 4 (h_capacity h) ++ le_bytes 4 (h_max_record_bytes h) ++
  le_bytes 4 (h_write_slot h) ++ le_bytes 4 (h_count h) ++ le_bytes 8 (h_next_sequence h).

Definition header_of (bytes : list Z) : Header :=
  mkHeader (le_at 0 4 bytes) (le_at 4 4 bytes) (le_at 8 4 bytes) (le_at 12 4 bytes) (le_at 16 4 bytes) (le_at 20 4 bytes) (le_at 24 8 bytes).

(** Bytes that are written at a position; a gap before it is filled with zeros. *)
Definition put_at (pos : nat) (bytes f : list Z) : list Z :=
  take pos f ++ replicate (pos - length f) 0 ++ bytes ++ drop (pos + length bytes) f.

(** The loop of [write_at]: what is left of the data goes to the position.  A turn writes at least one byte. *)
Fixpoint write_loop (answer : Z -> Z) (fuel : nat) (pos : nat) (data f : list Z) : bool * list Z :=
  match data, fuel with
  | [], _ => (true, f)
  | _, O => (false, f)
  | _, S fuel =>
      let result := write_count (answer (zlen data)) (zlen data) in
      if result <=? 0 then (false, f)
      else write_loop answer fuel (pos + Z.to_nat result) (drop (Z.to_nat result) data) (put_at pos (take (Z.to_nat result) data) f)
  end.

(** The loop of [read_at]: [left] bytes are to be read yet. *)
Fixpoint read_at_loop (answer : Z -> Z) (fuel : nat) (pos left : nat) (data f : list Z) : option (list Z) :=
  match left, fuel with
  | O, _ => Some data
  | _, O => None
  | _, S fuel =>
      let result := read_count (answer (Z.of_nat left)) (Z.of_nat left) (zlen (drop pos f)) in
      if result <=? 0 then None
      else read_at_loop answer fuel (pos + Z.to_nat result) (left - Z.to_nat result) (data ++ bytes_at pos (Z.to_nat result) f) f
  end.

Record PersistentRingBuffer := mkRing { m_max_records : Z; m_max_record_bytes : Z }.

Record RingBufferReadResult := mkReadResult { records : list (list Z); next_sequence : Z }.

Section Ring.
Context (env : RingEnv).

Definition write_at (call : nat) (pos : Z) (data f : list Z) : bool * list Z :=
  if re_seek env call then write_loop (re_write env call) (length data) (Z.to_nat pos) data f else (false, f).

Definition read_at (size : nat) (pos : Z) (f : list Z) : option (list Z) :=
  read_at_loop (re_read env pos) size (Z.to_nat pos) size [] f.

(** ** The slots *)

Context (b : PersistentRingBuffer).

Definition slot_size : Z := SLOT_MARKER_SIZE + SLOT_LENGTH_SIZE + m_max_record_bytes b.
Definition slot_offset (index : Z) : Z := uwrap 64 (Z.of_nat HEADER_BYTES + index * slot_size).

Definition header_valid (h : Header) : bool :=
  (h_magic h =? FILE_MAGIC) && (h_version h =? FILE_VERSION) && (h_capacity h =? m_max_records b) &&
  (h_max_record_bytes h =? m_max_record_bytes b) && (h_write_slot h <? h_capacity h) &&
  (h_count h <=? h_capacity h) && (h_count h <=? h_next_sequence h).

Definition read_header (f : list Z) : option Header :=
  bytes ← read_at HEADER_BYTES 0 f;
  let h := header_of bytes in
  if header_valid h then Some h else None.

Definition write_header (call : nat) (h : Header) (f : list Z) : bool * list Z := write_at call 0 (header_bytes h) f.

Definition slot_bytes (record : list Z) : list Z :=
  SLOT_MARKER :: le_bytes 4 (uwrap 32 (zlen record)) ++ record ++ replicate (Z.to_nat (m_max_record_bytes b) - length record) 0.

Definition write_slot (slot_index : Z) (record f : list Z) : bool * list Z :=
  write_at 1 (slot_offset slot_index) (slot_bytes record) f.

Definition read_slot (slot_index : Z) (f : list Z) : option (list Z) :=
  slot ← read_at (Z.to_nat slot_size) (slot_offset slot_index) f;
  if negb (nth 0 slot 0 =? SLOT_MARKER) then None
  else
    let length := le_at 1 4 slot in
    if m_max_record_bytes b <? length then None else Some (bytes_at 5 (Z.to_nat length) slot).

(** ** The operations

    The file at the path, if there is one. *)

Definition new_header : Header := mkHeader FILE_MAGIC FILE_VERSION (m_max_records b) (m_max_record_bytes b) 0 0 0.

Definition next_header (h : Header) : Header :=
  h <| h_write_slot := uwrap 32 (h_write_slot h + 1) mod h_capacity h |>
    <| h_count := Z.min (uwrap 32 (h_count h + 1)) (h_capacity h) |>
    <| h_next_sequence := uwrap 64 (h_next_sequence h + 1) |>.

Definition append (record : list Z) (file : option (list Z)) : bool * option (list Z) :=
  if m_max_record_bytes b <? zlen record then (false, file)
  else if negb (re_open env) then (false, file)
  else
    let f := default [] file in
    let '(ok, f) := if bool_decide (file = None) then write_header 0 new_header f else (true, f) in
    if negb ok then (false, Some f)
    else match read_header f with
         | None => (false, Some f)
         | Some h =>
             let '(ok, f) := write_slot (h_write_slot h) record f in
             if negb ok then (false, Some f)
             else let '(ok, f) := write_header 2 (next_header h) f in (ok, Some f)
         end.

(** [n] records from the sequence number [seq] on. *)
Fixpoint read_records (h : Header) (f : list Z) (n : nat) (seq : Z) : option (list (list Z)) :=
  match n with
  | O => Some []
  | S n => record ← read_slot (seq mod h_capacity h) f; rest ← read_records h f n (seq + 1); Some (record :: rest)
  end.

Definition read_since (since : option Z) (file : option (list Z)) : option RingBufferReadResult :=
  match file with
  | None => Some (mkReadResult [] 0)
  | Some f =>
      if negb (re_open env) then None
      else
        h ← read_header f;
        let earliest_retained := uwrap 64 (h_next_sequence h - h_count h) in
        let start_sequence := Z.min (Z.max (default earliest_retained since) earliest_retained) (h_next_sequence h) in
        rs ← read_records h f (Z.to_nat (h_next_sequence h - start_sequence)) start_sequence;
        Some (mkReadResult rs (h_next_sequence h))
  end.

Definition read_all : option (list Z) -> option RingBufferReadResult := read_since None.

Definition clear (file : option (list Z)) : bool * option (list Z) := if re_remove env then (true, None) else (false, file).
End Ring.
