(* ===== verification/RingBufferProofs.v ===== *)
(** * The ring buffer is the end of a log

    While the file system makes no errors, whatever it transfers at a time, the buffer is the
    log of all records of which the last ones can be read; a record that could not be written
    changes nothing while there is room, and what happens when there is none. *)

From S2P Require Import Prelude Wire DataBuffer MemfileBuffer RingBuffer.

(** ** Bytes in the file *)

Lemma bytes_at_lookup i n (l : list Z) k : bytes_at i n l !! k = if decide (k < n)%nat then l !! (i + k)%nat else None.
Proof.
  unfold bytes_at. case_decide; [by rewrite lookup_take_lt, lookup_drop by done|]. apply lookup_take_ge. lia.
Qed.

Lemma bytes_at_length i n (l : list Z) : (i + n <= length l)%nat -> length (bytes_at i n l) = n.
Proof. intros H. unfold bytes_at. rewrite length_take, length_drop. lia. Qed.

Lemma bytes_at_full i n (l : list Z) : length (bytes_at i n l) = n -> (0 < n)%nat -> (i + n <= length l)%nat.
Proof. unfold bytes_at. rewrite length_take, length_drop. lia. Qed.

Lemma put_at_length pos d (f : list Z) : length (put_at pos d f) = Nat.max (length f) (pos + length d).
Proof. unfold put_at. rewrite !length_app, length_take, length_drop, length_replicate. lia. Qed.

Lemma put_at_lookup pos d (f : list Z) j :
  put_at pos d f !! j =
    if decide (j < pos)%nat then (if decide (j < length f)%nat then f !! j else Some 0)
    else if decide (j < pos + length d)%nat then d !! (j - pos)%nat else f !! j.
Proof.
  unfold put_at. case_decide.
  - case_decide; [rewrite lookup_app_l, lookup_take_lt by (rewrite ?length_take; lia); done|].
    rewrite lookup_app_r, lookup_app_l, lookup_replicate_2 by (rewrite ?length_take, ?length_replicate; lia). done.
  - rewrite !lookup_app_r by (rewrite ?length_take, ?length_replicate; lia). rewrite length_replicate, length_take.
    case_decide.
    + rewrite lookup_app_l by lia. f_equal. lia.
    + rewrite lookup_app_r, lookup_drop by lia. f_equal. lia.
Qed.

Lemma put_at_put_at pos d1 d2 (f : list Z) : put_at (pos + length d1) d2 (put_at pos d1 f) = put_at pos (d1 ++ d2) f.
Proof.
  apply list_eq. intros j. rewrite !put_at_lookup, put_at_length, length_app.
  repeat case_decide; try lia; try done; rewrite ?lookup_app_l, ?lookup_app_r by lia; try done; f_equal; lia.
Qed.

Lemma put_at_nil pos (f : list Z) : (pos <= length f)%nat -> put_at pos [] f = f.
Proof. intros H. unfold put_at. rewrite Nat.add_0_r. replace (pos - length f)%nat with 0%nat by lia. apply take_drop. Qed.

(** What was written is there, and the rest is as it was. *)
Lemma bytes_at_put pos d (f : list Z) : bytes_at pos (length d) (put_at pos d f) = d.
Proof.
  apply list_eq. intros k. rewrite bytes_at_lookup. case_decide as Hk.
  - rewrite put_at_lookup. repeat case_decide; try lia. f_equal. lia.
  - symmetry. apply lookup_ge_None. lia.
Qed.

Lemma bytes_at_other pos d (f : list Z) i n : (i + n <= length f)%nat -> (i + n <= pos \/ pos + length d <= i)%nat ->
  bytes_at i n (put_at pos d f) = bytes_at i n f.
Proof.
  intros Hf Hd. apply list_eq. intros k. rewrite !bytes_at_lookup. case_decide; [|done].
  rewrite put_at_lookup. repeat case_decide; try lia; done.
Qed.

(** ** Transfers *)

Lemma write_loop_step answer fuel pos d f : d <> [] ->
  write_loop answer (S fuel) pos d f =
  let r := write_count (answer (zlen d)) (zlen d) in
  if r <=? 0 then (false, f) else write_loop answer fuel (pos + Z.to_nat r) (drop (Z.to_nat r) d) (put_at pos (take (Z.to_nat r) d) f).
Proof. by destruct d. Qed.

Lemma write_loop_fails answer pos data f : data <> [] -> (forall n, answer n <= 0) -> write_loop answer (length data) pos data f = (false, f).
Proof.
  intros Hd Ha. destruct data as [|x data]; [done|]. cbn [length]. rewrite write_loop_step by done. unfold write_count.
  by rewrite (proj2 (Z.leb_le _ _) (Ha _)).
Qed.

(** A write that fails has put a part of the data. *)
Lemma write_loop_part answer fuel : forall pos data f, exists k, (k <= length data)%nat /\
  snd (write_loop answer fuel pos data f) = match k with O => f | S _ => put_at pos (take k data) f end /\
  (fst (write_loop answer fuel pos data f) = true -> k = length data).
Proof.
  induction fuel as [|fuel IH]; intros pos [|x data] f; try by exists 0%nat.
  - exists 0%nat. cbn. split; [lia|done].
  - assert (x :: data <> []) as Hd by done. revert Hd. generalize (x :: data). clear x data. intros d Hd.
    rewrite write_loop_step by done. cbv zeta. destruct (Z.leb_spec (write_count (answer (zlen d)) (zlen d)) 0) as [|Hpos].
    { exists 0%nat. cbn. split; [lia|done]. }
    assert (write_count (answer (zlen d)) (zlen d) <= zlen d) as Hle by (unfold write_count; destruct (answer (zlen d) <=? 0); unfold zlen; lia).
    set (r := Z.to_nat (write_count (answer (zlen d)) (zlen d))). assert (0 < r <= length d)%nat as Hr by (subst r; unfold zlen in *; lia).
    destruct (IH (pos + r)%nat (drop r d) (put_at pos (take r d) f)) as (k & Hk & Hs & Hf). rewrite length_drop in *.
    exists (r + k)%nat. split_and!; [lia| |intros Ht; specialize (Hf Ht); lia]. rewrite Hs.
    destruct k as [|k]; [replace (r + 0)%nat with r by lia; by destruct r; [lia|]|].
    replace (r + S k)%nat with (S (r + k)) by lia. cbn [Nat.add].
    pose proof (put_at_put_at pos (take r d) (take (S k) (drop r d)) f) as Hp. rewrite length_take, Nat.min_l in Hp by lia.
    rewrite Hp, take_take_drop. do 2 f_equal. lia.
Qed.

Lemma write_loop_ok answer fuel : (forall n, 0 < answer n) -> forall pos data f, (length data <= fuel)%nat ->
  fst (write_loop answer fuel pos data f) = true.
Proof.
  intros Ha. induction fuel as [|fuel IH]; intros pos [|x data] f Hf; try done; [cbn in Hf; lia|].
  revert Hf. assert (x :: data <> []) as Hd by done. revert Hd. generalize (x :: data). clear x data. intros d Hd Hf.
  rewrite write_loop_step by done. cbv zeta. unfold write_count. rewrite (proj2 (Z.leb_gt _ _) (Ha (zlen d))).
  pose proof (Ha (zlen d)). assert (0 < zlen d) by (destruct d; [done|]; unfold zlen; cbn; lia). rewrite (proj2 (Z.leb_gt _ _)) by lia.
  apply IH. rewrite length_drop. lia.
Qed.

(** What is read is what is there, if it is read at all. *)
Lemma read_loop_some answer fuel : forall pos left data f d,
  read_at_loop answer fuel pos left data f = Some d -> d = data ++ bytes_at pos left f.
Proof.
  induction fuel as [|fuel IH]; intros pos [|left] data f d; cbn [read_at_loop]; try (intros [= <-]; by rewrite app_nil_r).
  set (r := read_count _ _ _). destruct (Z.leb_spec r 0) as [|Hr]; [done|]. intros Hd. apply IH in Hd. rewrite Hd, <- app_assoc. f_equal.
  assert (r <= Z.of_nat (S left)) as Hle by (subst r; unfold read_count in *; case_match; lia).
  unfold bytes_at. rewrite <- (drop_drop f), take_take_drop. f_equal. lia.
Qed.

Lemma read_loop_ok answer fuel : (forall n, 0 <= answer n) -> forall pos left data f, (left <= fuel)%nat -> (pos + left <= length f)%nat ->
  read_at_loop answer fuel pos left data f = Some (data ++ bytes_at pos left f).
Proof.
  intros Ha. induction fuel as [|fuel IH]; intros pos [|left] data f Hf Hl; try (by rewrite app_nil_r); [lia|].
  cbn [read_at_loop]. unfold zlen. rewrite length_drop. unfold read_count. pose proof (Ha (Z.of_nat (S left))) as Ha'.
  rewrite (proj2 (Z.ltb_ge _ _) Ha'). set (r := Z.min _ _). assert (0 < r <= Z.of_nat (S left)) as Hr by lia. clearbody r.
  rewrite (proj2 (Z.leb_gt _ _)) by lia. rewrite IH by lia. f_equal. rewrite <- app_assoc. f_equal.
  unfold bytes_at. rewrite <- (drop_drop f), take_take_drop. f_equal. lia.
Qed.

(** ** Headers and slots *)

Lemma le_value_le_bytes n v : in_width (8 * Z.of_nat n) v -> le_value (le_bytes n v) = v.
Proof. unfold le_value, le_bytes. rewrite rev_involutive. apply be_value_be_bytes. Qed.

Lemma le_bytes_length n v : length (le_bytes n v) = n.
Proof. unfold le_bytes. by rewrite length_rev, be_bytes_length. Qed.

Lemma le_at_app a n v c : in_width (8 * Z.of_nat n) v -> le_at (length a) n (a ++ le_bytes n v ++ c) = v.
Proof.
  intros Hv. unfold le_at, bytes_at. rewrite drop_app_length, take_app_length' by by rewrite le_bytes_length.
  by apply le_value_le_bytes.
Qed.

Definition header_ok (h : Header) : Prop :=
  Forall (in_width 32) [h_magic h; h_version h; h_capacity h; h_max_record_bytes h; h_write_slot h; h_count h] /\ in_width 64 (h_next_sequence h).

Lemma header_bytes_length h : length (header_bytes h) = HEADER_BYTES.
Proof. unfold header_bytes. by rewrite !length_app, !le_bytes_length. Qed.

Lemma header_roundtrip h : header_ok h -> header_of (header_bytes h) = h.
Proof.
  destruct h as [m v c x w n s]. intros [Hf Hs]. cbn in Hf. repeat (apply Forall_cons in Hf as [? Hf]). clear Hf. unfold header_of, header_bytes.
  cbn [h_magic h_version h_capacity h_max_record_bytes h_write_slot h_count h_next_sequence] in *.
  assert (forall a n v c i, i = length a -> in_width (8 * Z.of_nat n) v -> le_at i n (a ++ le_bytes n v ++ c) = v) as Hat.
  { intros a k y c' i ->. apply le_at_app. }
  f_equal.
  - by apply (Hat [] 4%nat).
  - by apply (Hat (le_bytes 4 m) 4%nat).
  - rewrite app_assoc. by apply (Hat (le_bytes 4 m ++ le_bytes 4 v) 4%nat).
  - rewrite 2!app_assoc. by apply (Hat ((le_bytes 4 m ++ le_bytes 4 v) ++ le_bytes 4 c) 4%nat).
  - rewrite 3!app_assoc. by apply (Hat (((le_bytes 4 m ++ le_bytes 4 v) ++ le_bytes 4 c) ++ le_bytes 4 x) 4%nat).
  - rewrite 4!app_assoc. by apply (Hat ((((le_bytes 4 m ++ le_bytes 4 v) ++ le_bytes 4 c) ++ le_bytes 4 x) ++ le_bytes 4 w) 4%nat).
  - rewrite 5!app_assoc, <- (app_nil_r (le_bytes 8 s)).
    by apply (Hat (((((le_bytes 4 m ++ le_bytes 4 v) ++ le_bytes 4 c) ++ le_bytes 4 x) ++ le_bytes 4 w) ++ le_bytes 4 n) 8%nat).
Qed.

(** ** The buffer and its log *)

(** What can be read of a log: its records from a number on, but no more than the last ones. *)
Definition log_read (b : PersistentRingBuffer) (since : option Z) (log : list (list Z)) : RingBufferReadResult :=
  let n := Z.of_nat (length log) in
  let first := Z.max 0 (n - m_max_records b) in
  mkReadResult (drop (Z.to_nat (Z.max first (default first since))) log) n.

Section Log.
Context (b : PersistentRingBuffer).
Abbreviation cap := (m_max_records b).
Abbreviation limit := (m_max_record_bytes b).

(** The parameters have their widths, and the file has a size. *)
Definition ring_ok : Prop := 0 < cap < 2 ^ 32 - 1 /\ 0 <= limit < 2 ^ 32 /\ 32 + cap * slot_size b < 2 ^ 64.
Context (Hb : ring_ok).

Lemma slot_size_eq : slot_size b = 5 + limit.
Proof. unfold slot_size, SLOT_MARKER_SIZE, SLOT_LENGTH_SIZE. lia. Qed.

Lemma slot_offset_eq k : 0 <= k < cap -> slot_offset b k = 32 + k * slot_size b.
Proof.
  intros Hk. unfold slot_offset. destruct Hb as (Hc & Hl & Hs). rewrite slot_size_eq in *.
  apply uwrap_id. unfold in_width, HEADER_BYTES. nia.
Qed.

(** Slots do not overlap. *)
Lemma slots_apart j k : 0 <= j < cap -> 0 <= k < cap -> j <> k ->
  slot_offset b j + slot_size b <= slot_offset b k \/ slot_offset b k + slot_size b <= slot_offset b j.
Proof.
  intros Hj Hk Hne. rewrite !slot_offset_eq by done. destruct Hb as (_ & Hl & _). pose proof slot_size_eq.
  destruct (Z.lt_total j k) as [|[|]]; [left|done|right]; nia.
Qed.

Lemma mod_apart i n : 0 < n - i < cap -> i mod cap <> n mod cap.
Proof.
  intros Hi Heq. assert (0 < cap) as Hc by (destruct Hb; lia). assert ((n - i) mod cap = 0) as H0.
  { rewrite Zminus_mod, <- Heq, Z.sub_diag. apply Zmod_0_l. }
  rewrite Z.mod_small in H0 by lia. lia.
Qed.

(** The header of a log of [n] records. *)
Definition header_for (n : Z) : Header := mkHeader FILE_MAGIC FILE_VERSION cap limit (n mod cap) (Z.min n cap) n.

Lemma header_for_ok n : in_width 64 n -> header_ok (header_for n) /\ header_valid b (header_for n) = true.
Proof.
  intros Hn. destruct Hb as (Hc & Hl & _). pose proof (Z.mod_pos_bound n cap). unfold in_width in Hn. split.
  - split; [|done]. repeat apply Forall_cons_2; try apply Forall_nil; unfold in_width, header_for, FILE_MAGIC, FILE_VERSION;
      cbn [h_magic h_version h_capacity h_max_record_bytes h_write_slot h_count]; lia.
  - unfold header_valid, header_for. cbn [h_magic h_version h_capacity h_max_record_bytes h_write_slot h_count h_next_sequence].
    rewrite !Z.eqb_refl. repeat (apply andb_true_intro; split); try done; lia.
Qed.

Lemma new_header_for : new_header b = header_for 0.
Proof. unfold new_header, header_for. rewrite Zmod_0_l, Z.min_l by (destruct Hb; lia). done. Qed.

Lemma next_header_for n : in_width 64 (n + 1) -> 0 <= n -> next_header (header_for n) = header_for (n + 1).
Proof.
  intros Hn H0. destruct Hb as (Hc & _). pose proof (Z.mod_pos_bound n cap). unfold next_header, header_for. cbn.
  rewrite !uwrap_id by (unfold in_width in *; lia). rewrite Zplus_mod_idemp_l.
  replace (Z.min (Z.min n cap + 1) cap) with (Z.min (n + 1) cap) by lia. done.
Qed.

(** The file that has the log. *)
Record holds (log : list (list Z)) (f : list Z) : Prop := mkHolds {
  holds_header : bytes_at 0 HEADER_BYTES f = header_bytes (header_for (Z.of_nat (length log)));
  holds_slots : forall i r, log !! i = Some r -> Z.of_nat (length log) - cap <= Z.of_nat i ->
    bytes_at (Z.to_nat (slot_offset b (Z.of_nat i mod cap))) (Z.to_nat (slot_size b)) f = slot_bytes b r;
}.

Lemma slot_bytes_length r : zlen r <= limit -> length (slot_bytes b r) = Z.to_nat (slot_size b).
Proof.
  intros Hr. unfold slot_bytes. cbn [length]. rewrite !length_app, le_bytes_length, length_replicate, slot_size_eq. unfold zlen in Hr. lia.
Qed.

Lemma mod_slot n : 0 <= n mod cap < cap.
Proof. destruct Hb as (Hc & _). apply Z.mod_pos_bound. lia. Qed.

Lemma slot_behind_header k : 0 <= k < cap -> (HEADER_BYTES <= Z.to_nat (slot_offset b k))%nat.
Proof. intros Hk. rewrite slot_offset_eq by done. destruct Hb as (_ & Hl & _). pose proof slot_size_eq. unfold HEADER_BYTES. nia. Qed.

Lemma holds_header_there log f : holds log f -> (HEADER_BYTES <= length f)%nat.
Proof.
  intros [Hh _]. apply (bytes_at_full 0 HEADER_BYTES f); [by rewrite Hh, header_bytes_length|unfold HEADER_BYTES; lia].
Qed.

(** Records of a log. *)
Definition fits (log : list (list Z)) : Prop := Forall (fun r => zlen r <= limit) log.

Lemma holds_slot_there log f i r : fits log -> holds log f -> log !! i = Some r -> Z.of_nat (length log) - cap <= Z.of_nat i ->
  (Z.to_nat (slot_offset b (Z.of_nat i mod cap)) + Z.to_nat (slot_size b) <= length f)%nat.
Proof.
  intros Hfit [_ Hs] Hi Hle. apply bytes_at_full.
  - rewrite (Hs i r Hi Hle). apply slot_bytes_length. exact (Forall_lookup_1 _ _ _ _ Hfit Hi).
  - destruct Hb as (_ & Hl & _). rewrite slot_size_eq. lia.
Qed.

(** Bytes that go into the slot of the next record leave the others alone. *)
Lemma slot_write_others log f d i r : fits log -> holds log f -> (length d <= Z.to_nat (slot_size b))%nat ->
  log !! i = Some r -> Z.of_nat (length log) - cap < Z.of_nat i ->
  let f' := put_at (Z.to_nat (slot_offset b (Z.of_nat (length log) mod cap))) d f in
  bytes_at (Z.to_nat (slot_offset b (Z.of_nat i mod cap))) (Z.to_nat (slot_size b)) f' = slot_bytes b r.
Proof.
  intros Hfit Hh Hd Hi Hle. cbv zeta. pose proof (lookup_lt_Some _ _ _ Hi) as Hlt.
  rewrite bytes_at_other; [apply (holds_slots _ _ Hh); [done|lia]|apply (holds_slot_there log f i r); [done|done|done|lia]|].
  pose proof (mod_slot (Z.of_nat i)) as H1. pose proof (mod_slot (Z.of_nat (length log))) as H2.
  assert (Z.of_nat i mod cap <> Z.of_nat (length log) mod cap) as Hne by (apply mod_apart; lia).
  pose proof (slots_apart _ _ H1 H2 Hne) as Hap. pose proof (slot_offset_eq _ H1). pose proof (slot_offset_eq _ H2).
  destruct Hb as (_ & Hl & _). pose proof slot_size_eq. nia.
Qed.

Lemma slot_write_header log f d : holds log f ->
  bytes_at 0 HEADER_BYTES (put_at (Z.to_nat (slot_offset b (Z.of_nat (length log) mod cap))) d f) = bytes_at 0 HEADER_BYTES f.
Proof.
  intros Hh. apply bytes_at_other; [by apply (holds_header_there log)|left; apply slot_behind_header, mod_slot].
Qed.

(** While there is room, a part of a record changes nothing. *)
Lemma holds_part log f d : fits log -> holds log f -> Z.of_nat (length log) < cap -> (length d <= Z.to_nat (slot_size b))%nat ->
  holds log (put_at (Z.to_nat (slot_offset b (Z.of_nat (length log) mod cap))) d f).
Proof.
  intros Hfit Hh Hroom Hd. split.
  - rewrite slot_write_header by done. apply (holds_header _ _ Hh).
  - intros i r Hi _. apply slot_write_others; auto. lia.
Qed.

(** A record and the header after it. *)
Lemma holds_append log f r : fits log -> holds log f -> zlen r <= limit ->
  holds (log ++ [r]) (put_at 0 (header_bytes (header_for (Z.of_nat (length log) + 1)))
    (put_at (Z.to_nat (slot_offset b (Z.of_nat (length log) mod cap))) (slot_bytes b r) f)).
Proof.
  intros Hfit Hh Hr. set (f1 := put_at _ _ f). pose proof (header_bytes_length (header_for (Z.of_nat (length log) + 1))) as Hlen.
  split; rewrite length_app; cbn [length]; rewrite Nat2Z.inj_add.
  - rewrite <- Hlen at 1. by rewrite bytes_at_put.
  - intros i r' Hi Hle. pose proof (mod_slot (Z.of_nat i)) as Hm.
    assert (bytes_at (Z.to_nat (slot_offset b (Z.of_nat i mod cap))) (Z.to_nat (slot_size b)) f1 = slot_bytes b r' /\ zlen r' <= limit) as [E Hr'].
    { apply lookup_app_Some in Hi as [Hi|[Hge Hi]].
      - split; [apply slot_write_others; auto; [by rewrite slot_bytes_length|lia]|]. exact (Forall_lookup_1 _ _ _ _ Hfit Hi).
      - apply list_lookup_singleton_Some in Hi as [Hi <-]. split; [|done]. replace i with (length log) by lia. subst f1.
        rewrite <- (slot_bytes_length r Hr). apply bytes_at_put. }
    rewrite bytes_at_other; [done| |right; rewrite Hlen; by apply slot_behind_header].
    apply bytes_at_full; [by rewrite E, slot_bytes_length|]. destruct Hb as (_ & Hl & _). rewrite slot_size_eq. lia.
Qed.

Lemma holds_empty f : holds [] (put_at 0 (header_bytes (header_for 0)) f).
Proof. split; [|done]. rewrite <- (header_bytes_length (header_for 0)). apply bytes_at_put. Qed.

(** Writing, with any answers. *)
Lemma write_at_part env call pos data f : exists k, (k <= length data)%nat /\
  snd (write_at env call pos data f) = match k with O => f | S _ => put_at (Z.to_nat pos) (take k data) f end /\
  (fst (write_at env call pos data f) = true -> k = length data).
Proof. unfold write_at. destruct (re_seek env call); [apply write_loop_part|]. exists 0%nat. split_and!; [lia|done|done]. Qed.

(** ** A file system without errors *)

Record quiet (env : RingEnv) : Prop := mkQuiet {
  quiet_open : re_open env = true;
  quiet_seek : forall call, re_seek env call = true;
  quiet_write : forall call n, 0 < re_write env call n;
  quiet_read : forall pos n, 0 <= re_read env pos n;
  quiet_remove : re_remove env = true;
}.

Section Quiet.
Context (env : RingEnv) (Henv : quiet env).

Lemma write_at_ok call pos data f : data <> [] -> write_at env call pos data f = (true, put_at (Z.to_nat pos) data f).
Proof.
  intros Hd. destruct (write_at_part env call pos data f) as (k & _ & Hs & Hk).
  assert (fst (write_at env call pos data f) = true) as Ht.
  { unfold write_at. rewrite (quiet_seek _ Henv). apply write_loop_ok; [apply (quiet_write _ Henv)|done]. }
  rewrite (surjective_pairing (write_at _ _ _ _ _)), Hs, Ht, (Hk Ht), firstn_all. by destruct data.
Qed.

Lemma read_at_ok size pos f : (Z.to_nat pos + size <= length f)%nat -> read_at env size pos f = Some (bytes_at (Z.to_nat pos) size f).
Proof. intros Hf. unfold read_at. by rewrite read_loop_ok by (done || apply (quiet_read _ Henv)). Qed.

Lemma read_header_ok log f : holds log f -> in_width 64 (Z.of_nat (length log)) ->
  read_header env b f = Some (header_for (Z.of_nat (length log))).
Proof.
  intros Hh Hn. unfold read_header. rewrite read_at_ok by (cbn; by apply (holds_header_there log)). cbn [mbind option_bind].
  change (Z.to_nat 0) with 0%nat. rewrite (holds_header _ _ Hh). destruct (header_for_ok _ Hn) as [Hok Hv].
  rewrite header_roundtrip by done. by rewrite Hv.
Qed.

Lemma read_slot_ok k f r : zlen r <= limit -> bytes_at (Z.to_nat (slot_offset b k)) (Z.to_nat (slot_size b)) f = slot_bytes b r ->
  read_slot env b k f = Some r.
Proof.
  intros Hr E. destruct Hb as (_ & Hl & _). unfold read_slot.
  rewrite read_at_ok by (apply bytes_at_full; [by rewrite E, slot_bytes_length|rewrite slot_size_eq; lia]).
  rewrite E. cbn [mbind option_bind]. unfold slot_bytes. cbn [nth]. rewrite Z.eqb_refl. cbn [negb].
  assert (in_width 32 (zlen r)) as Hw by (unfold in_width, zlen in *; lia). rewrite uwrap_id by done.
  change (SLOT_MARKER :: le_bytes 4 (zlen r) ++ ?x) with ([SLOT_MARKER] ++ le_bytes 4 (zlen r) ++ x).
  rewrite (le_at_app [SLOT_MARKER] 4) by done. rewrite (proj2 (Z.ltb_ge _ _)) by done. f_equal.
  unfold bytes_at. rewrite app_assoc. rewrite drop_app_length' by by rewrite length_app, le_bytes_length.
  apply take_app_length'. unfold zlen. lia.
Qed.

Lemma read_records_ok log f : fits log -> holds log f -> forall n start,
  (n + start = length log)%nat -> Z.of_nat (length log) - cap <= Z.of_nat start ->
  read_records env b (header_for (Z.of_nat (length log))) f n (Z.of_nat start) = Some (drop start log).
Proof.
  intros Hfit Hh. induction n as [|n IH]; intros start Hn Hs.
  - cbn. by rewrite drop_ge by lia.
  - assert (is_Some (log !! start)) as [r Hr] by (apply lookup_lt_is_Some_2; lia).
    cbn [read_records]. cbn [header_for h_capacity].
    rewrite (read_slot_ok _ _ r) by (exact (Forall_lookup_1 _ _ _ _ Hfit Hr) || by apply (holds_slots _ _ Hh)).
    cbn [mbind option_bind]. replace (Z.of_nat start + 1) with (Z.of_nat (S start)) by lia. rewrite (IH (S start)) by lia. cbn. by rewrite (drop_S _ _ _ Hr).
Qed.

(** The operations on a file that has the log. *)
Definition has (log : list (list Z)) (file : option (list Z)) : Prop :=
  fits log /\ match file with None => log = [] | Some f => holds log f end.

Lemma append_some log f r : fits log -> holds log f -> in_width 64 (Z.of_nat (length log) + 1) -> zlen r <= limit ->
  exists f', append env b r (Some f) = (true, Some f') /\ holds (log ++ [r]) f'.
Proof.
  intros Hfit Hh Hn Hr. unfold append. rewrite (proj2 (Z.ltb_ge _ _)) by done. rewrite (quiet_open _ Henv). cbn [negb default].
  rewrite bool_decide_eq_false_2 by done. cbn [negb id]. rewrite (read_header_ok log) by (done || unfold in_width in *; lia).
  unfold write_slot, write_header. rewrite write_at_ok by done. cbn [negb].
  rewrite write_at_ok by (intros E; by apply (f_equal length) in E; rewrite header_bytes_length in E).
  rewrite next_header_for by (done || lia). eexists. split; [done|]. by apply holds_append.
Qed.

Lemma append_ok log file r : has log file -> in_width 64 (Z.of_nat (length log) + 1) -> zlen r <= limit ->
  exists file', append env b r file = (true, file') /\ has (log ++ [r]) file'.
Proof.
  intros [Hfit Hh] Hn Hr. assert (fits (log ++ [r])) as Hfit' by (apply Forall_app; split; [done|by constructor]).
  destruct file as [f|]; [destruct (append_some log f r) as (f' & -> & ?); try done; by exists (Some f')|]. subst log.
  destruct (append_some [] (put_at 0 (header_bytes (header_for 0)) []) r) as (f' & E & Hf'); [done|apply holds_empty|done|done|].
  exists (Some f'). split; [|done]. rewrite <- E. unfold append. rewrite (proj2 (Z.ltb_ge _ _)) by done.
  rewrite (quiet_open _ Henv), bool_decide_eq_true_2, bool_decide_eq_false_2 by done. cbn [negb default id].
  unfold write_header at 1. rewrite write_at_ok by (intros E'; by apply (f_equal length) in E'; rewrite header_bytes_length in E').
  by rewrite new_header_for.
Qed.

Lemma read_since_ok log file since : has log file -> in_width 64 (Z.of_nat (length log)) ->
  read_since env b since file = Some (log_read b since log).
Proof.
  intros [Hfit Hh] Hn. unfold log_read. destruct file as [f|]; cbn [read_since]; [|subst log; by rewrite drop_nil].
  rewrite (quiet_open _ Henv). cbn [negb]. rewrite (read_header_ok log) by done. cbn [mbind option_bind].
  set (n := Z.of_nat (length log)) in *. cbn [header_for h_next_sequence h_count h_capacity]. destruct Hb as (Hc & _).
  rewrite uwrap_id by (unfold in_width in *; lia). replace (n - Z.min n cap) with (Z.max 0 (n - cap)) by lia.
  set (first := Z.max 0 (n - cap)). set (from := default first since).
  set (start := Z.to_nat (Z.min (Z.max from first) n)).
  replace (Z.min (Z.max from first) n) with (Z.of_nat start) by lia.
  rewrite (read_records_ok log f) by (done || lia). cbn [mbind option_bind]. do 2 f_equal.
  destruct (Z.le_gt_cases (Z.max first from) n) as [Hle|Hgt]; [f_equal; lia|]. by rewrite !drop_ge by lia.
Qed.
End Quiet.
End Log.

(** ** Refinement *)

Inductive RingOp := Append (record : list Z) | ReadSince (since : option Z) | Clear.
Inductive RingResult := R_done (ok : bool) | R_read (result : option RingBufferReadResult).

Definition ring_step (b : PersistentRingBuffer) (env : RingEnv) (op : RingOp) (file : option (list Z)) : RingResult * option (list Z) :=
  match op with
  | Append record => let '(ok, file) := append env b record file in (R_done ok, file)
  | ReadSince since => (R_read (read_since env b since file), file)
  | Clear => let '(ok, file) := clear env file in (R_done ok, file)
  end.

(** The log the buffer stands for. *)
Definition log_step (b : PersistentRingBuffer) (op : RingOp) (log : list (list Z)) : RingResult * list (list Z) :=
  match op with
  | Append record => if m_max_record_bytes b <? zlen record then (R_done false, log) else (R_done true, log ++ [record])
  | ReadSince since => (R_read (Some (log_read b since log)), log)
  | Clear => (R_done true, [])
  end.

Fixpoint ring_run (b : PersistentRingBuffer) (ops : list (RingEnv * RingOp)) (file : option (list Z)) : list RingResult :=
  match ops with
  | [] => []
  | (env, op) :: ops => let '(r, file) := ring_step b env op file in r :: ring_run b ops file
  end.

Fixpoint log_run (b : PersistentRingBuffer) (ops : list RingOp) (log : list (list Z)) : list RingResult :=
  match ops with
  | [] => []
  | op :: ops => let '(r, log) := log_step b op log in r :: log_run b ops log
  end.

Lemma ring_step_refines b env op log file : ring_ok b -> quiet env -> has b log file -> in_width 64 (Z.of_nat (length log) + 1) ->
  exists file', ring_step b env op file = (fst (log_step b op log), file') /\ has b (snd (log_step b op log)) file'.
Proof.
  intros Hb Henv Hl Hn. destruct op as [r|since|]; cbn [ring_step log_step].
  - destruct (Z.ltb_spec (m_max_record_bytes b) (zlen r)) as [Hbig|Hr].
    + exists file. unfold append. by rewrite (proj2 (Z.ltb_lt _ _)).
    + destruct (append_ok b Hb env Henv log file r Hl Hn Hr) as (file' & -> & Hl'). by exists file'.
  - exists file. rewrite (read_since_ok b Hb env Henv log) by (done || unfold in_width in *; lia). done.
  - exists None. unfold clear. rewrite (quiet_remove _ Henv). split; [done|]. split; [apply Forall_nil|]; done.
Qed.

(** C23. The ring buffer refines a log: while the file system makes no errors, in however small
    pieces it reads and writes, the answers to any sequence of operations are those of a log to
    which records are appended and of which the last ones, as many as the buffer has slots, can
    be read from any number on. *)
Theorem ring_buffer_is_log b ops : ring_ok b -> Forall (fun x => quiet (fst x)) ops -> Z.of_nat (length ops) < 2 ^ 64 ->
  ring_run b ops None = log_run b (map snd ops) [].
Proof.
  intros Hb Hq Hlen.
  enough (forall log file, has b log file -> Z.of_nat (length log) + Z.of_nat (length ops) < 2 ^ 64 ->
    ring_run b ops file = log_run b (map snd ops) log) as Hgen by (apply Hgen; [split; [apply Forall_nil|]; done|done]).
  clear Hlen. induction Hq as [|[env op] ops Henv Hq IH]; intros log file Hl Hlen; [done|]. cbn [length] in Hlen.
  destruct (ring_step_refines b env op log file) as (file' & E & Hl'); [done|done|done|unfold in_width; lia|].
  cbn [ring_run log_run map snd]. rewrite E. destruct (log_step b op log) as [r log'] eqn:El. cbn [fst snd] in *. f_equal. apply IH; [done|].
  destruct op; cbn in El; [destruct (_ <? _)| |]; injection El as <- <-; rewrite ?length_app; cbn [length]; lia.
Qed.

Lemma append_eq env b r f : append env b r (Some f) =
  if m_max_record_bytes b <? zlen r then (false, Some f)
  else if negb (re_open env) then (false, Some f)
  else match read_header env b f with
       | None => (false, Some f)
       | Some h =>
           let w := write_at env 1 (slot_offset b (h_write_slot h)) (slot_bytes b r) f in
           if negb (fst w) then (false, Some (snd w))
           else let w' := write_at env 2 0 (header_bytes (next_header h)) (snd w) in (fst w', Some (snd w'))
       end.
Proof.
  unfold append. destruct (_ <? _); [done|]. destruct (negb _); [done|]. rewrite bool_decide_eq_false_2 by done. cbn [negb default id].
  destruct (read_header env b f) as [h|]; [|done]. unfold write_slot, write_header. destruct (write_at env 1 _ _ f) as [ok f1]. cbn [fst snd].
  destruct (negb ok); [done|]. by destruct (write_at env 2 _ _ f1).
Qed.

Lemma read_at_some env size pos f d : read_at env size pos f = Some d -> d = bytes_at (Z.to_nat pos) size f.
Proof. intros Hd. by apply read_loop_some in Hd. Qed.

Lemma read_header_some env b log f h : ring_ok b -> holds b log f -> Z.of_nat (length log) < m_max_records b -> read_header env b f = Some h ->
  h = header_for b (Z.of_nat (length log)).
Proof.
  intros Hb Hh Hroom. assert (in_width 64 (Z.of_nat (length log))) as Hn by (destruct Hb as (Hc & _); unfold in_width; lia).
  destruct (header_for_ok b Hb _ Hn) as [Hok Hv]. apply header_roundtrip in Hok. pose proof (holds_header _ _ _ Hh) as Hd. revert Hok Hv Hd.
  generalize (header_for b (Z.of_nat (length log))). intros h' Hok Hv Hd. unfold read_header. pose proof (read_at_some env HEADER_BYTES 0 f) as Hs.
  destruct (read_at env HEADER_BYTES 0 f) as [d|]; [|done]. specialize (Hs d eq_refl). change (Z.to_nat 0) with 0%nat in Hs. rewrite Hd in Hs. subst d.
  cbn [mbind option_bind]. rewrite Hok, Hv. congruence.
Qed.

Lemma append_fails b env log f r : ring_ok b -> has b log (Some f) -> Z.of_nat (length log) < m_max_records b -> (forall n, re_write env 2 n <= 0) ->
  let '(ok, file) := append env b r (Some f) in ok = false /\ has b log file.
Proof.
  intros Hb [Hfit Hh] Hroom Hw. assert (has b log (Some f)) as Hl by done. rewrite append_eq.
  destruct (Z.ltb_spec (m_max_record_bytes b) (zlen r)) as [|Hr]; [done|]. destruct (negb (re_open env)); [done|].
  destruct (read_header env b f) as [h|] eqn:Ehdr; [|done]. rewrite (read_header_some env b log f h Hb Hh Hroom Ehdr).
  pose proof (write_at_part env 1 (slot_offset b (Z.of_nat (length log) mod m_max_records b)) (slot_bytes b r) f) as (k & Hk & Hs & _).
  change (h_write_slot (header_for b (Z.of_nat (length log)))) with (Z.of_nat (length log) mod m_max_records b).
  destruct (write_at env 1 _ _ f) as [ok1 f1]. cbn [fst snd] in *.
  assert (has b log (Some f1)) as Hl1.
  { split; [done|]. rewrite slot_bytes_length in Hk by done. subst f1. destruct k; [done|]. apply holds_part; try done.
    rewrite length_take. lia. }
  destruct ok1; [|done]. cbn [negb]. assert (header_bytes (next_header (header_for b (Z.of_nat (length log)))) <> []) as Hne.
  { intros E. by apply (f_equal length) in E; rewrite header_bytes_length in E. }
  revert Hne. generalize (header_bytes (next_header (header_for b (Z.of_nat (length log))))). intros d Hd. unfold write_at.
  destruct (re_seek env 2); [|done]. by rewrite write_loop_fails.
Qed.

(** While there is room in the buffer, a record that could not be stored leaves the log as
    it was, wherever opening, reading, seeking or writing it stopped, if nothing of the header
    behind it was written: the operation fails and every later reader gets the old records. *)
Theorem failed_append_keeps_log b env log f r : ring_ok b -> has b log (Some f) -> Z.of_nat (length log) < m_max_records b ->
  (forall n, re_write env 2 n <= 0) ->
  let '(ok, file) := append env b r (Some f) in
  ok = false /\ has b log file /\ forall reader since, quiet reader -> read_since reader b since file = Some (log_read b since log).
Proof.
  intros Hb Hl Hroom Hw. pose proof (append_fails b env log f r Hb Hl Hroom Hw) as Hok.
  destruct (append env b r (Some f)) as [ok file]. destruct Hok as [-> Hf]. split_and!; [done|done|]. intros reader since Hq.
  apply read_since_ok; try done. destruct Hb as (Hc & _). unfold in_width. lia.
Qed.

(** ** Examples *)

Module RingSample.
Definition ring : PersistentRingBuffer := mkRing 2 4.
Definition bytewise : RingEnv := mkRingEnv true (fun _ => true) (fun _ _ => 1) (fun _ _ => 3) true.
Definition no_header (n : Z) : RingEnv :=
  mkRingEnv true (fun _ => true) (fun call left => if (call =? 1)%nat then left else if left =? 32 then n else 0) (fun _ left => left) true.
Definition full : option (list Z) := snd (append bytewise ring [2] (snd (append bytewise ring [1] None))).

Lemma ring_is_ok : ring_ok ring.
Proof. by vm_compute. Qed.

Lemma bytewise_quiet : quiet bytewise.
Proof. by split. Qed.

(** When the buffer is full, a record that could not be stored has taken the place of the oldest one. *)
Example failed_append_replaces_oldest :
  let '(ok, file) := append (no_header 0) ring [3] full in
  ok = false /\ read_all bytewise ring file = Some (mkReadResult [[3]; [2]] 2).
Proof. by vm_compute. Qed.

(** When the header of a new file could not be written, the buffer does not work any more. *)
Example unfinished_file_is_corrupted :
  let '(ok, file) := append (no_header 0) ring [1] None in
  ok = false /\ append bytewise ring [1] file = (false, file) /\ read_all bytewise ring file = None.
Proof. by vm_compute. Qed.

(** When a part of the header was written, a record that is stored later is lost and the one that was not is read. *)
Example torn_header_confuses :
  let b := mkRing 3 4 in
  let file := snd (append bytewise b [1] None) in
  let '(ok, file) := append (no_header 20) b [2] file in
  let '(ok', file) := append bytewise b [3] file in
  ok = false /\ ok' = true /\ read_all bytewise b file = Some (mkReadResult [[1]; [2]] 2).
Proof. by vm_compute. Qed.
End RingSample.

Lemma ring_buffer_is_log_witness :
  let ops := [Append [1]; Append [2; 2]; ReadSince None; Append [3]; ReadSince (Some 0); Append [1; 2; 3; 4; 5]; ReadSince (Some 2); Clear; ReadSince None] in
  ring_run RingSample.ring (map (pair RingSample.bytewise) ops) None =
  [R_done true; R_done true; R_read (Some (mkReadResult [[1]; [2; 2]] 2)); R_done true;
   R_read (Some (mkReadResult [[2; 2]; [3]] 3)); R_done false; R_read (Some (mkReadResult [[3]] 3)); R_done true; R_read (Some (mkReadResult [] 0))].
Proof.
  cbv zeta. rewrite (ring_buffer_is_log RingSample.ring); [by vm_compute|apply RingSample.ring_is_ok| |done].
  repeat constructor; apply RingSample.bytewise_quiet.
Defined.

Lemma failed_append_keeps_log_witness :
  let file := snd (append RingSample.bytewise RingSample.ring [1] None) in
  exists f, file = Some f /\
  let '(ok, file) := append (RingSample.no_header 0) RingSample.ring [2] (Some f) in
  ok = false /\ has RingSample.ring [[1]] file /\
  forall reader since, quiet reader -> read_since reader RingSample.ring since file = Some (log_read RingSample.ring since [[1]]).
Proof.
  eexists. split; [by vm_compute|].
  apply (failed_append_keeps_log RingSample.ring (RingSample.no_header 0) [[1]]); [apply RingSample.ring_is_ok| |done|].
  - split; [by constructor|]. split; [by vm_compute|]. intros [|i] r; [|done]. intros [= <-] _. by vm_compute.
  - intros n. cbn. by case_match.
Defined.
