(* ===== verification/UpstreamMux.v ===== *)
(** * The multiplexer of upstreams

    Models [core/src/upstream_multiplexer.cpp]: the connections to an endpoint are spread over
    several sessions with it.  A session is an upstream of its own, a child of the
    multiplexer; the code of the children answers through [MuxEnv].  A child that is told to
    close its session reports the end of its connections before it returns; the handler of the
    multiplexer's own events does not call back.  The upstreams that are to be destroyed are
    closed by tasks of the event loop.  [mux_step] is the step of any input. *)

From stdpp Require Import gmap.
From S2P Require Import Prelude VpnTypes Icmp Tunnel.

Definition DEFAULT_UPSTREAMS_NUM : Z := 8.
Definition NEW_UPSTREAM_CONNECTIONS_NUM_THRESHOLD : Z := 5.

Inductive UpstreamState := US_OPENING_SESSION | US_SESSION_OPENED.
#[export] Instance upstream_state_eq_dec : EqDecision UpstreamState.
Proof. solve_decision. Defined.

Record PendingConnection := mkPending {
  pc_upstream_id : Z;
  pc_addr : TunnelAddressPair;
  pc_proto : Z;
  pc_app_name : list Z;
}.

(** What the multiplexer raises, and what it tells its children. *)
Inductive MuxOut :=
| P_event (e : ServerEvent)
| C_open_session (u : Z)
| C_close_session (u : Z)
| C_destroy (u : Z)
| C_open_connection (u id : Z) (addr : TunnelAddressPair) (proto : Z) (app_name : list Z)
| C_close_connection (u id : Z) (graceful async : bool)
| C_send (u id : Z) (data : list Z)
| C_consume (u id length : Z)
| C_update_flow_control (u id : Z) (info : Z)
| C_do_health_check (u : Z)
| C_cancel_health_check (u : Z)
| C_icmp_request (u : Z)
| C_sleep (u : Z)
| C_wake (u : Z).

(** The end of a connection that a child reports while it closes its session. *)
Inductive ConnEnd := End_closed (id : Z) | End_error (id code : Z).

(** The order of the tables, new ids, what the children answer, and the codes of errors that
    the common library gives for the platform. *)
Record MuxEnv := mkMuxEnv {
  xe_order : list Z;
  xe_order_pending : list Z;
  xe_new_upstream : Z;
  xe_new_conn : Z;
  xe_open_session : Z -> bool;
  xe_open_connection : Z -> Z -> bool;
  xe_connections_num : Z -> Z;
  xe_ends : Z -> list ConnEnd;
  xe_send : Z;
  xe_available : Z;
  xe_icmp : Z;
  xe_kex_group_nid : Z -> Z;
  AG_ECONNRESET : Z;
  AG_ECONNREFUSED : Z;
}.

(** [x_tasks] are the tasks in the event loop, each with the upstreams it closes. *)
Record UpstreamMultiplexer := mkMux {
  x_connections : gmap Z Z;
  x_pool : gmap Z UpstreamState;
  x_max_upstreams_num : Z;
  x_pending : gmap Z PendingConnection;
  x_pending_error : option Z;
  x_session_open : bool;
  x_tasks : list (list Z);
  x_out : list MuxOut;
  x_faults : list string;
}.
#[export] Instance eta_UpstreamMultiplexer : Eta UpstreamMultiplexer := fun m =>
  mkMux (x_connections m) (x_pool m) (x_max_upstreams_num m) (x_pending m) (x_pending_error m) (x_session_open m) (x_tasks m) (x_out m) (x_faults m).

Definition mux_new (upstreams_num : Z) : UpstreamMultiplexer :=
  mkMux ∅ ∅ (if upstreams_num =? 0 then DEFAULT_UPSTREAMS_NUM else upstreams_num) ∅ None false [] [] [].

Section Mux.
Context (env : MuxEnv).
Implicit Types (m : UpstreamMultiplexer) (u id : Z).

Definition emit (o : MuxOut) m : UpstreamMultiplexer := m <| x_out := x_out m ++ [o] |>.
Definition raise (e : ServerEvent) : UpstreamMultiplexer -> UpstreamMultiplexer := emit (P_event e).
Definition fault (what : string) m : UpstreamMultiplexer := m <| x_faults := x_faults m ++ [what] |>.

(** Loops over the tables. *)
Definition pool_order m : list Z := in_table_order (xe_order env) (map fst (map_to_list (x_pool m))).
Definition pending_order m : list Z := in_table_order (xe_order_pending env) (map fst (map_to_list (x_pending m))).
Definition for_each (xs : list Z) (f : Z -> UpstreamMultiplexer -> UpstreamMultiplexer) m : UpstreamMultiplexer :=
  fold_left (fun m x => f x m) xs m.

(** *** The choice of an upstream *)

Definition pending_on u m : Z := Z.of_nat (size (filter (fun x => pc_upstream_id (snd x) = u) (x_pending m))).
Definition connections_num_by_upstream u m : Z := xe_connections_num env u + pending_on u m.

(** The first of the least loaded ones. *)
Fixpoint least_loaded (best : option Z) (us : list Z) : option Z :=
  match us with
  | [] => best
  | u :: us =>
      least_loaded (match best with
                    | Some b => if xe_connections_num env u <? xe_connections_num env b then Some u else best
                    | None => Some u
                    end) us
  end.

Definition select_existing_upstream (ignored : option Z) (allow_underflow : bool) m : option Z :=
  let us := List.filter (fun u => negb (bool_decide (ignored = Some u))) (pool_order m) in
  match List.find (fun u => connections_num_by_upstream u m <? NEW_UPSTREAM_CONNECTIONS_NUM_THRESHOLD) us with
  | Some u => Some u
  | None =>
      if allow_underflow || (x_max_upstreams_num m <=? Z.of_nat (size (x_pool m))) then least_loaded None us else None
  end.

Definition select_upstream_for_connection m : Z := default (xe_new_upstream env) (select_existing_upstream None false m).

(** *** Opening *)

Definition open_new_upstream u m : bool * UpstreamMultiplexer :=
  let m := if bool_decide (x_pool m !! u = None) then m else fault "upstream exists" m in
  let m := emit (C_open_session u) m in
  if xe_open_session env u then (true, m <| x_pool := <[u := US_OPENING_SESSION]> (x_pool m) |>)
  else (false, emit (C_destroy u) m).

Definition open_session m : bool * UpstreamMultiplexer :=
  if negb (bool_decide (x_pool m = ∅)) then (false, fault "session is open" m)
  else open_new_upstream (select_upstream_for_connection m) m.

(** A key that is in the table keeps its value. *)
Definition postpone id (pc : PendingConnection) m : UpstreamMultiplexer :=
  if bool_decide (x_pending m !! id = None) then m <| x_pending := <[id := pc]> (x_pending m) |> else m.

Definition open_connection_on u id (pc : PendingConnection) m : bool * UpstreamMultiplexer :=
  match x_pool m !! u with
  | None => (false, fault "upstream not found" m)
  | Some US_OPENING_SESSION => (true, postpone id (mkPending u (pc_addr pc) (pc_proto pc) (pc_app_name pc)) m)
  | Some US_SESSION_OPENED =>
      let m := emit (C_open_connection u id (pc_addr pc) (pc_proto pc) (pc_app_name pc)) m in
      if xe_open_connection env u id then
        (true, if bool_decide (x_connections m !! id = None) then m <| x_connections := <[id := u]> (x_connections m) |> else m)
      else (false, m)
  end.

(** The new id, or [NON_ID]. *)
Definition open_connection (addr : TunnelAddressPair) (proto : Z) (app_name : list Z) m : Z * UpstreamMultiplexer :=
  if bool_decide (x_pool m = ∅) then (NON_ID, m)
  else
    let u := select_upstream_for_connection m in
    let id := xe_new_conn env in
    let pc := mkPending u addr proto app_name in
    match x_pool m !! u with
    | Some _ => let '(ok, m) := open_connection_on u id pc m in (if ok : bool then id else NON_ID, m)
    | None =>
        let '(ok, m) := open_new_upstream u m in
        if ok : bool then (id, postpone id pc m)
        else match select_existing_upstream (Some u) true m with
             | Some u' => let '(ok, m) := open_connection_on u' id pc m in (if ok : bool then id else NON_ID, m)
             | None => (NON_ID, m)
             end
    end.

Definition proceed_pending_connection u id (pc : PendingConnection) m : UpstreamMultiplexer :=
  let '(ok, m) := open_connection_on u id pc m in
  if ok : bool then m
  else match pool_order m with
       | [] => fault "no upstreams" m
       | fallback :: _ =>
           let '(ok, m) := open_connection_on fallback id pc m in
           if ok : bool then m else raise (SERVER_EVENT_ERROR id (AG_ECONNREFUSED env)) m
       end.

(** *** Closing *)

Definition forget_pending id m : UpstreamMultiplexer := m <| x_pending := delete id (x_pending m) |>.

(** The postponed connections of an upstream are taken from the table one by one. *)
Definition for_each_pending u (f : Z -> PendingConnection -> UpstreamMultiplexer -> UpstreamMultiplexer) m : UpstreamMultiplexer :=
  for_each (pending_order m) (fun id m =>
    match x_pending m !! id with
    | Some pc => if pc_upstream_id pc =? u then forget_pending id (f id pc m) else m
    | None => m
    end) m.

Definition refuse_pending u : UpstreamMultiplexer -> UpstreamMultiplexer :=
  for_each_pending u (fun id _ => raise (SERVER_EVENT_ERROR id (AG_ECONNREFUSED env))).

Definition close_upstream u m : UpstreamMultiplexer :=
  match x_pool m !! u with
  | None => m
  | Some _ =>
      let m := m <| x_connections := filter (fun x => snd x <> u) (x_connections m) |> in
      let m := refuse_pending u m in
      let m := emit (C_destroy u) (m <| x_pool := delete u (x_pool m) |>) in
      if negb (bool_decide (x_pool m = ∅)) then m
      else
        let m := m <| x_session_open := false |> in
        match x_pending_error m with
        | Some code => raise (SERVER_EVENT_ERROR NON_ID code) (m <| x_pending_error := None |>)
        | None => raise SERVER_EVENT_SESSION_CLOSED m
        end
  end.

Definition connection_ended (e : ConnEnd) m : UpstreamMultiplexer :=
  match e with
  | End_closed id => raise (SERVER_EVENT_CONNECTION_CLOSED id) (m <| x_connections := delete id (x_connections m) |>)
  | End_error id code => raise (SERVER_EVENT_ERROR id code) (m <| x_connections := delete id (x_connections m) |>)
  end.

(** The child's [close_session]. *)
Definition close_child u m : UpstreamMultiplexer := fold_left (fun m e => connection_ended e m) (xe_ends env u) (emit (C_close_session u) m).

Definition close_session m : UpstreamMultiplexer :=
  let m := for_each (pool_order m) close_child m in
  let m := for_each (pool_order m) (fun u => emit (C_destroy u)) m in
  let m := m <| x_pool := ∅ |> <| x_connections := ∅ |> in
  let ids := pending_order m in
  let m := for_each ids (fun id => raise (SERVER_EVENT_ERROR id (AG_ECONNRESET env))) (m <| x_pending := ∅ |>) in
  m <| x_pending_error := None |>.

(** *** Connections *)

Definition get_upstream_by_conn id m : option Z :=
  u ← x_connections m !! id; if bool_decide (x_pool m !! u = None) then None else Some u.

Definition close_connection id (graceful async : bool) m : UpstreamMultiplexer :=
  match get_upstream_by_conn id m with Some u => emit (C_close_connection u id graceful async) m | None => m end.
Definition send id (data : list Z) m : Z * UpstreamMultiplexer :=
  match get_upstream_by_conn id m with Some u => (xe_send env, emit (C_send u id data) m) | None => (-1, m) end.
Definition consume id (length : Z) m : UpstreamMultiplexer :=
  match get_upstream_by_conn id m with Some u => emit (C_consume u id length) m | None => m end.
Definition available_to_send id m : Z := match get_upstream_by_conn id m with Some _ => xe_available env | None => 0 end.
Definition update_flow_control id (info : Z) m : UpstreamMultiplexer :=
  match get_upstream_by_conn id m with Some u => emit (C_update_flow_control u id info) m | None => m end.

(** *** The children together *)

Definition cancel_health_check m : UpstreamMultiplexer := for_each (pool_order m) (fun u => emit (C_cancel_health_check u)) m.

Definition do_health_check m : UpstreamMultiplexer :=
  let m := cancel_health_check m in
  let started := List.filter (fun u => bool_decide (x_pool m !! u = Some US_SESSION_OPENED)) (pool_order m) in
  match started with
  | [] => raise SERVER_EVENT_HEALTH_CHECK_ERROR m
  | _ => for_each started (fun u => emit (C_do_health_check u)) m
  end.

Definition first_open m : option Z := List.find (fun u => bool_decide (x_pool m !! u = Some US_SESSION_OPENED)) (pool_order m).

Definition on_icmp_request m : Z * UpstreamMultiplexer :=
  match first_open m with
  | Some u => (xe_icmp env, emit (C_icmp_request u) m)
  | None => (-1, fault "no connected upstream" m)
  end.

Definition NID_undef : Z := 0.
Definition kex_group_nid m : Z := match first_open m with Some u => xe_kex_group_nid env u | None => NID_undef end.

Definition handle_sleep m : UpstreamMultiplexer := for_each (pool_order m) (fun u => emit (C_sleep u)) m.
Definition handle_wake m : UpstreamMultiplexer := for_each (pool_order m) (fun u => emit (C_wake u)) m.

(** *** Events of the children *)

Definition submit_close (us : list Z) m : UpstreamMultiplexer := m <| x_tasks := x_tasks m ++ [us] |>.

Definition is_fatal_error (code : Z) : bool := (code =? VPN_EC_AUTH_REQUIRED) || (code =? VPN_EC_CERTIFICATE_VERIFICATION_FAILED).

Definition session_opened u m : UpstreamMultiplexer :=
  let m := if x_session_open m then m else raise SERVER_EVENT_SESSION_OPENED (m <| x_session_open := true |>) in
  let m := m <| x_pool := <[u := US_SESSION_OPENED]> (x_pool m) |> in
  for_each_pending u (proceed_pending_connection u) m.

Definition child_failed u (code : Z) m : UpstreamMultiplexer :=
  if is_fatal_error code then
    let m := if code =? 0 then m else m <| x_pending_error := Some code |> in
    let us := pool_order m in
    submit_close us (for_each us close_child m)
  else submit_close [u] (close_child u m).

Definition child_upstream_handler u (what : ServerEvent) m : UpstreamMultiplexer :=
  match x_pool m !! u with
  | None => fault "event of a closed upstream" m
  | Some _ =>
      match what with
      | SERVER_EVENT_SESSION_OPENED => session_opened u m
      | SERVER_EVENT_SESSION_CLOSED => submit_close [u] (refuse_pending u m)
      | SERVER_EVENT_CONNECTION_CLOSED id => raise what (m <| x_connections := delete id (x_connections m) |>)
      | SERVER_EVENT_READ _ _ | SERVER_EVENT_CONNECTION_OPENED _ | SERVER_EVENT_DATA_SENT _ _
      | SERVER_EVENT_GET_AVAILABLE_TO_SEND _ | SERVER_EVENT_ECHO_REPLY _ | SERVER_EVENT_HEALTH_CHECK_ERROR => raise what m
      | SERVER_EVENT_ERROR id code =>
          if id =? NON_ID then child_failed u code m
          else raise what (m <| x_connections := delete id (x_connections m) |>)
      end
  end.

(** The first task in the loop. *)
Definition run_task m : UpstreamMultiplexer :=
  match x_tasks m with
  | [] => m
  | us :: tasks => for_each us close_upstream (m <| x_tasks := tasks |>)
  end.

Inductive MuxInput :=
| X_open_session
| X_close_session
| X_open_connection (addr : TunnelAddressPair) (proto : Z) (app_name : list Z)
| X_close_connection (id : Z) (graceful async : bool)
| X_send (id : Z) (data : list Z)
| X_consume (id length : Z)
| X_update_flow_control (id info : Z)
| X_do_health_check
| X_cancel_health_check
| X_icmp_request
| X_sleep
| X_wake
| X_child (u : Z) (what : ServerEvent)
| X_task.

Definition mux_step (i : MuxInput) m : UpstreamMultiplexer :=
  match i with
  | X_open_session => snd (open_session m)
  | X_close_session => close_session m
  | X_open_connection addr proto app_name => snd (open_connection addr proto app_name m)
  | X_close_connection id graceful async => close_connection id graceful async m
  | X_send id data => snd (send id data m)
  | X_consume id length => consume id length m
  | X_update_flow_control id info => update_flow_control id info m
  | X_do_health_check => do_health_check m
  | X_cancel_health_check => cancel_health_check m
  | X_icmp_request => snd (on_icmp_request m)
  | X_sleep => handle_sleep m
  | X_wake => handle_wake m
  | X_child u what => child_upstream_handler u what m
  | X_task => run_task m
  end.
End Mux.
