(* ===== verification/UpstreamMuxProofs.v ===== *)
(** * The multiplexer of upstreams keeps its tables

    The invariant of the multiplexer, the choice of the upstream for a connection, what becomes
    of the connections that wait for a session, and what the code does not do as meant. *)

From stdpp Require Import gmap.
From S2P Require Import Prelude VpnTypes Icmp Tunnel UpstreamMux.

Lemma for_each_emit (g : Z -> MuxOut) xs m : for_each xs (fun x => emit (g x)) m = m <| x_out := x_out m ++ map g xs |>.
Proof.
  revert m. induction xs as [|x xs IH]; intros m; cbn; [rewrite app_nil_r; by destruct m|].
  unfold for_each in IH. rewrite IH. cbn. by rewrite <- app_assoc.
Qed.

(** ** The invariant *)

(** Whether the parent takes the session for open. *)
Definition heard (b : bool) (o : MuxOut) : bool :=
  match o with
  | P_event SERVER_EVENT_SESSION_OPENED => true
  | P_event SERVER_EVENT_SESSION_CLOSED => false
  | P_event (SERVER_EVENT_ERROR id _) => if id =? NON_ID then false else b
  | _ => b
  end.
Definition told_open (outs : list MuxOut) : bool := fold_left heard outs false.

#[local] Arguments told_open : simpl never.

(** Outputs that say nothing of the session. *)
Definition quiet (o : MuxOut) : Prop := forall b, heard b o = b.

Lemma told_open_quiet outs outs' : Forall quiet outs' -> told_open (outs ++ outs') = told_open outs.
Proof.
  intros Hq. unfold told_open. rewrite fold_left_app. generalize (fold_left heard outs false).
  induction Hq as [|o outs' Ho Hq IH]; intros b; [done|]. cbn. by rewrite Ho.
Qed.

(** The assertions that depend on when the client and the children call: a session that is
    open is opened, an echo request comes while no session is open, an upstream that is not in
    the pool raises an event.  The code returns after each of them. *)
Definition untimely (f : string) : Prop :=
  f = "session is open"%string \/ f = "no connected upstream"%string \/ f = "event of a closed upstream"%string.

Record mux_wf (m : UpstreamMultiplexer) : Prop := mkMuxWf {
  wf_connections : forall id u, x_connections m !! id = Some u -> x_pool m !! u = Some US_SESSION_OPENED;
  wf_pending : forall id pc, x_pending m !! id = Some pc -> x_pool m !! pc_upstream_id pc = Some US_OPENING_SESSION;
  wf_disjoint : forall id, x_pending m !! id <> None -> x_connections m !! id = None;
  wf_ids : x_connections m !! NON_ID = None /\ x_pending m !! NON_ID = None;
  wf_size : 0 < x_max_upstreams_num m /\ Z.of_nat (size (x_pool m)) <= x_max_upstreams_num m;
  wf_faults : Forall untimely (x_faults m);
  wf_told : x_session_open m = told_open (x_out m);
}.

(** Steps that at most end connections. *)
Record ends_only (m m' : UpstreamMultiplexer) : Prop := mkEndsOnly {
  ends_pool : x_pool m' = x_pool m;
  ends_pending : x_pending m' = x_pending m;
  ends_max : x_max_upstreams_num m' = x_max_upstreams_num m;
  ends_session : x_session_open m' = x_session_open m;
  ends_faults : x_faults m' = x_faults m;
  ends_connections : x_connections m' ⊆ x_connections m;
  ends_out : exists outs, x_out m' = x_out m ++ outs /\ Forall quiet outs;
}.

#[export] Instance ends_only_preorder : PreOrder ends_only.
Proof.
  split.
  - intros m. split; try done. exists []. by rewrite app_nil_r.
  - intros m1 m2 m3 [? ? ? ? ? Hc (o1 & E1 & H1)] [? ? ? ? ? Hc' (o2 & E2 & H2)]. split; try congruence; [by etransitivity|].
    exists (o1 ++ o2). split; [by rewrite E2, E1, app_assoc|by apply Forall_app].
Qed.

Lemma ends_only_wf m m' : ends_only m m' -> mux_wf m -> mux_wf m'.
Proof.
  intros [E1 E2 E3 E4 E5 Hc (outs & E & Hq)] [W1 W2 W3 W4 W5 W6 W7]. split; rewrite ?E1, ?E2, ?E3, ?E4, ?E5, ?E; try done.
  - intros id u Hu. eapply W1, lookup_weaken; done.
  - intros id Hid. apply W3 in Hid. destruct (x_connections m' !! id) eqn:Eid; [|done]. by rewrite (lookup_weaken _ _ _ _ Eid Hc) in Hid.
  - destruct W4 as [W4 W4']. split; [|done]. destruct (x_connections m' !! NON_ID) eqn:Eid; [|done]. by rewrite (lookup_weaken _ _ _ _ Eid Hc) in W4.
  - by rewrite told_open_quiet.
Qed.

Lemma ends_emit o m : quiet o -> ends_only m (emit o m).
Proof. intros Ho. split; try done. exists [o]. split; [done|by constructor]. Qed.

Lemma ends_emits outs m : Forall quiet outs -> ends_only m (m <| x_out := x_out m ++ outs |>).
Proof. intros Ho. split; try done. by exists outs. Qed.

Definition end_id (e : ConnEnd) : Z := match e with End_closed id | End_error id _ => id end.

Lemma ends_connection_ended e m : end_id e <> NON_ID -> ends_only m (connection_ended e m).
Proof.
  intros He. destruct e as [id|id code]; cbn in *; (split; try done; [apply delete_subseteq|]); eexists; (split; [done|]);
    (constructor; [|done]); intros b; cbn; [done|]. by destruct (Z.eqb_spec id NON_ID).
Qed.

Lemma ends_close_child env u m : (forall e, e ∈ xe_ends env u -> end_id e <> NON_ID) -> ends_only m (close_child env u m).
Proof.
  intros He. unfold close_child. transitivity (emit (C_close_session u) m); [by apply ends_emit|].
  revert He. generalize (emit (C_close_session u) m). induction (xe_ends env u) as [|e es IH]; intros m1 He; [done|]. cbn.
  transitivity (connection_ended e m1); [apply ends_connection_ended, He; set_solver|]. apply IH. set_solver.
Qed.

Lemma ends_for_each f xs m : (forall x m, x ∈ xs -> ends_only m (f x m)) -> ends_only m (for_each xs f m).
Proof.
  revert m. induction xs as [|x xs IH]; intros m Hf; [done|]. cbn. transitivity (f x m); [apply Hf; set_solver|].
  apply IH. intros. apply Hf. set_solver.
Qed.

(** ** The choice of an upstream *)

Lemma pool_order_elem env m u : u ∈ pool_order env m <-> x_pool m !! u <> None.
Proof.
  unfold pool_order. rewrite in_table_order_elem. split.
  - intros Hu. apply list_elem_of_fmap in Hu as ([u' st] & -> & Hu). apply elem_of_map_to_list in Hu. cbn. by rewrite Hu.
  - intros Hu. destruct (x_pool m !! u) as [st|] eqn:E; [|done]. apply list_elem_of_fmap. exists (u, st). split; [done|]. by apply elem_of_map_to_list.
Qed.

Lemma least_loaded_spec env us : forall best u, least_loaded env best us = Some u ->
  (u ∈ us \/ best = Some u) /\
  (forall v, v ∈ us \/ best = Some v -> xe_connections_num env u <= xe_connections_num env v).
Proof.
  induction us as [|x us IH]; intros best u Hu; cbn in Hu.
  - subst best. split; [by right|]. intros v [Hv|[= <-]]; [by apply not_elem_of_nil in Hv|lia].
  - apply IH in Hu as [Hin Hmin]. set (best' := match best with Some b => _ | None => _ end) in *.
    assert (best' = Some x \/ best' = best /\ best <> None) as Hb by (subst best'; destruct best as [b|]; [case_match|]; auto).
    split.
    + destruct Hin as [Hin|Hin]; [left; by apply list_elem_of_further|]. destruct Hb as [Hb|[Hb _]]; rewrite Hb in Hin; simplify_eq; [left|by right].
      apply list_elem_of_here.
    + assert (xe_connections_num env u <= xe_connections_num env x /\ forall b, best = Some b -> xe_connections_num env u <= xe_connections_num env b) as [Hx Hbest].
      { subst best'. destruct best as [b|]; [|split; [apply Hmin; by right|done]].
        destruct (Z.ltb_spec (xe_connections_num env x) (xe_connections_num env b)).
        - pose proof (Hmin x (or_intror eq_refl)). split; [lia|]. intros ? [= <-]. lia.
        - pose proof (Hmin b (or_intror eq_refl)). split; [lia|]. intros ? [= <-]. lia. }
      intros v [Hv|Hv]; [|by apply Hbest]. apply elem_of_cons in Hv as [->|Hv]; [done|]. apply Hmin. by left.
Qed.

Lemma least_loaded_some env us : forall best, best <> None \/ us <> [] -> least_loaded env best us <> None.
Proof.
  induction us as [|x us IH]; intros best Hb; cbn; [by destruct Hb|]. apply IH. left. by destruct best as [b|]; [case_match|].
Qed.

(** The upstreams that may be chosen. *)
Definition candidates (env : MuxEnv) (ignored : option Z) (m : UpstreamMultiplexer) : list Z :=
  List.filter (fun u => negb (bool_decide (ignored = Some u))) (pool_order env m).

Lemma candidates_elem env ignored m u : u ∈ candidates env ignored m <-> x_pool m !! u <> None /\ ignored <> Some u.
Proof.
  unfold candidates. rewrite elem_of_list_filter_bool, pool_order_elem. by rewrite negb_true_iff, bool_decide_eq_false.
Qed.

Lemma select_existing_in env ignored allow m u : select_existing_upstream env ignored allow m = Some u ->
  x_pool m !! u <> None /\ ignored <> Some u.
Proof.
  unfold select_existing_upstream. fold (candidates env ignored m). rewrite <- (candidates_elem env). destruct (List.find _ _) as [v|] eqn:E.
  - intros [= <-]. apply find_some in E as [E _]. by apply list_elem_of_In.
  - destruct (_ || _); [|done]. intros Hl. apply least_loaded_spec in Hl as [[Hl|Hl] _]; done.
Qed.

Lemma select_none_room env m : 0 < x_max_upstreams_num m -> select_existing_upstream env None false m = None ->
  Z.of_nat (size (x_pool m)) < x_max_upstreams_num m.
Proof.
  intros Hmax. unfold select_existing_upstream. fold (candidates env None m). destruct (List.find _ _); [done|]. cbn [orb].
  destruct (Z.leb_spec (x_max_upstreams_num m) (Z.of_nat (size (x_pool m)))) as [Hle|]; [|done]. intros Hl. exfalso.
  destruct (decide (x_pool m = ∅)) as [E|Hne]; [rewrite E, map_size_empty in Hle; lia|].
  apply map_choose in Hne as (u & st & Hu). apply (least_loaded_some env (candidates env None m) None); [|done]. right.
  assert (u ∈ candidates env None m) as Hin by (apply candidates_elem; by rewrite Hu). by destruct (candidates env None m); [apply not_elem_of_nil in Hin|].
Qed.

(** C22. New connections are spread over the sessions: if an upstream has fewer connections,
    open or waiting, than the threshold, such a one is chosen; otherwise a new upstream is made
    while there are fewer of them than allowed, and then the one with the fewest open
    connections is chosen. *)
Theorem connections_are_balanced env m : 0 < x_max_upstreams_num m ->
  let u := select_upstream_for_connection env m in
  let load v := connections_num_by_upstream env v m in
  let room v := x_pool m !! v <> None /\ load v < NEW_UPSTREAM_CONNECTIONS_NUM_THRESHOLD in
  ((exists v, room v) -> room u) /\
  ((forall v, ~ room v) ->
    if decide (Z.of_nat (size (x_pool m)) < x_max_upstreams_num m) then u = xe_new_upstream env
    else x_pool m !! u <> None /\ forall v, x_pool m !! v <> None -> xe_connections_num env u <= xe_connections_num env v).
Proof.
  intros Hmax u load room. subst u. unfold select_upstream_for_connection. split.
  - intros (v & Hv & Hload). unfold select_existing_upstream. fold (candidates env None m). destruct (List.find _ _) as [w|] eqn:E.
    + apply find_some in E as [Ew Hw]. apply list_elem_of_In, candidates_elem in Ew as [Ew _]. apply Z.ltb_lt in Hw. by split.
    + exfalso. assert (In v (candidates env None m)) as Hin by (apply list_elem_of_In, candidates_elem; done).
      apply (find_none _ _ E v) in Hin. apply Z.ltb_ge in Hin. subst load. cbn beta in Hload. lia.
  - intros Hno. case_decide as Hsize.
    + destruct (select_existing_upstream env None false m) as [w|] eqn:E; [|done]. exfalso. unfold select_existing_upstream in E.
      fold (candidates env None m) in E. rewrite (proj2 (Z.leb_gt _ _)) in E by done. destruct (List.find _ _) as [v|] eqn:Ef; [|done].
      apply find_some in Ef as [Ev Hv]. apply list_elem_of_In, candidates_elem in Ev as [Ev _]. apply Z.ltb_lt in Hv. by apply (Hno v).
    + destruct (select_existing_upstream env None false m) as [w|] eqn:E; [|by apply select_none_room in E]. cbn [default].
      split; [by apply select_existing_in in E as [E _]|]. intros v Hv. unfold select_existing_upstream in E. fold (candidates env None m) in E.
      destruct (List.find _ _) as [x|] eqn:Ef.
      * exfalso. apply find_some in Ef as [Ex Hx]. apply list_elem_of_In, candidates_elem in Ex as [Ex _]. apply Z.ltb_lt in Hx. by apply (Hno x).
      * destruct (_ || _); [|done]. apply least_loaded_spec in E as [_ E]. apply E. left. by apply candidates_elem.
Qed.

(** ** The steps keep the invariant *)

Section Steps.
Context (env : MuxEnv).
Implicit Types (m : UpstreamMultiplexer) (u id : Z).

Lemma wf_quiet_emit o m : quiet o -> mux_wf m -> mux_wf (emit o m).
Proof. intros Ho. apply ends_only_wf. by apply ends_emit. Qed.

Lemma wf_new_upstream u m : mux_wf m -> x_pool m !! u = None -> Z.of_nat (size (x_pool m)) < x_max_upstreams_num m ->
  mux_wf (snd (open_new_upstream env u m)) /\
  (fst (open_new_upstream env u m) = true -> x_pool (snd (open_new_upstream env u m)) !! u = Some US_OPENING_SESSION) /\
  (fst (open_new_upstream env u m) = false -> x_pool (snd (open_new_upstream env u m)) = x_pool m) /\
  x_connections (snd (open_new_upstream env u m)) = x_connections m /\ x_pending (snd (open_new_upstream env u m)) = x_pending m.
Proof.
  intros Hm Hu Hsize. unfold open_new_upstream. rewrite bool_decide_eq_true_2 by done.
  assert (mux_wf (emit (C_open_session u) m)) as H1 by by apply wf_quiet_emit.
  destruct (xe_open_session env u); cbn [fst snd]; [|split_and!; try done; by apply wf_quiet_emit].
  assert (forall v st, x_pool m !! v = Some st -> <[u := US_OPENING_SESSION]> (x_pool m) !! v = Some st) as Hkeep.
  { intros v st Hv. rewrite lookup_insert_ne; [done|]. intros <-. congruence. }
  split_and!; [|intros _; apply lookup_insert_eq|done|done|done]. destruct H1 as [W1 W2 W3 W4 W5 W6 W7]. split; cbn in *; try done.
  - intros id v Hv. apply Hkeep. by eapply W1.
  - intros id pc Hp. apply Hkeep. by eapply W2.
  - rewrite map_size_insert_None by done. lia.
Qed.

Lemma wf_postpone id pc m : mux_wf m -> x_connections m !! id = None -> id <> NON_ID ->
  x_pool m !! pc_upstream_id pc = Some US_OPENING_SESSION -> mux_wf (postpone id pc m).
Proof.
  intros Hm Hc Hid Hu. unfold postpone. case_bool_decide as Hp; [|done]. destruct Hm as [W1 W2 W3 W4 W5 W6 W7]. split; cbn in *; try done.
  - intros id' pc' H'. apply lookup_insert_Some in H' as [[<- <-]|[_ H']]; [done|by eapply W2].
  - intros id' H'. destruct (decide (id = id')) as [<-|]; [done|]. rewrite lookup_insert_ne in H' by done. by apply W3.
  - destruct W4 as [? ?]. by rewrite lookup_insert_ne.
Qed.

Lemma wf_open_on u id pc m : mux_wf m -> x_pool m !! u <> None -> x_connections m !! id = None -> x_pending m !! id = None -> id <> NON_ID ->
  mux_wf (snd (open_connection_on env u id pc m)).
Proof.
  intros Hm Hu Hc Hp Hid. unfold open_connection_on. destruct (x_pool m !! u) as [[|]|] eqn:E; [by apply wf_postpone| |done].
  assert (mux_wf (emit (C_open_connection u id (pc_addr pc) (pc_proto pc) (pc_app_name pc)) m)) as H1 by by apply wf_quiet_emit.
  destruct (xe_open_connection env u id); [|done]. cbn [snd]. rewrite bool_decide_eq_true_2 by done.
  destruct H1 as [W1 W2 W3 W4 W5 W6 W7]. split; cbn in *; try done.
  - intros id' u' H'. apply lookup_insert_Some in H' as [[<- <-]|[_ H']]; [done|by eapply W1].
  - intros id' H'. rewrite lookup_insert_ne by congruence. by apply W3.
  - destruct W4 as [? ?]. by rewrite lookup_insert_ne.
Qed.

Lemma wf_open_connection addr proto app_name m : mux_wf m -> x_connections m !! xe_new_conn env = None -> x_pending m !! xe_new_conn env = None ->
  xe_new_conn env <> NON_ID -> x_pool m !! xe_new_upstream env = None -> mux_wf (snd (open_connection env addr proto app_name m)).
Proof.
  intros Hm Hc Hp Hid Hu. unfold open_connection. case_bool_decide; [done|].
  set (u := select_upstream_for_connection env m). set (pc := mkPending _ _ _ _). destruct (x_pool m !! u) as [st|] eqn:E.
  - pose proof (wf_open_on u (xe_new_conn env) pc m Hm) as Ho. destruct (open_connection_on env u _ pc m) as [ok m1]. apply Ho; congruence.
  - assert (Z.of_nat (size (x_pool m)) < x_max_upstreams_num m) as Hsize.
    { apply (select_none_room env); [apply (wf_size _ Hm)|]. destruct (select_existing_upstream env None false m) as [v|] eqn:Ev; [|done].
      exfalso. subst u. unfold select_upstream_for_connection in E. rewrite Ev in E. cbn in E. apply select_existing_in in Ev as [Ev _]. congruence. }
    destruct (wf_new_upstream u m Hm E Hsize) as (H1 & Ht & Hf & Ec & Ep). destruct (open_new_upstream env u m) as [ok m1]. cbn [fst snd] in *.
    destruct ok; [cbn; apply wf_postpone; [done|congruence|done|by apply Ht]|].
    destruct (select_existing_upstream env (Some u) true m1) as [u'|] eqn:Es; [|done]. apply select_existing_in in Es as [Es _].
    pose proof (wf_open_on u' (xe_new_conn env) pc m1 H1 Es) as Ho. destruct (open_connection_on env u' _ pc m1) as [ok m2]. apply Ho; congruence.
Qed.

(** *** The connections that wait *)

Definition waits u id m : bool := match x_pending m !! id with Some pc => pc_upstream_id pc =? u | None => false end.
Definition error_for (code id : Z) : MuxOut := P_event (SERVER_EVENT_ERROR id code).

Lemma quiet_error code id : id <> NON_ID -> quiet (error_for code id).
Proof. intros Hid b. cbn. by destruct (Z.eqb_spec id NON_ID). Qed.

Lemma pending_order_elem m id : id ∈ pending_order env m <-> x_pending m !! id <> None.
Proof.
  unfold pending_order. rewrite in_table_order_elem. split.
  - intros Hu. apply list_elem_of_fmap in Hu as ([u' st] & -> & Hu). apply elem_of_map_to_list in Hu. cbn. by rewrite Hu.
  - intros Hu. destruct (x_pending m !! id) as [st|] eqn:E; [|done]. apply list_elem_of_fmap. exists (id, st). split; [done|]. by apply elem_of_map_to_list.
Qed.

Lemma pending_order_NoDup m : NoDup (pending_order env m).
Proof. apply in_table_order_NoDup, NoDup_fst_map_to_list. Qed.

Definition refuse_one u id m : UpstreamMultiplexer :=
  match x_pending m !! id with
  | Some pc => if pc_upstream_id pc =? u then forget_pending id (raise (SERVER_EVENT_ERROR id (AG_ECONNREFUSED env)) m) else m
  | None => m
  end.

Lemma refuse_loop u xs : NoDup xs -> forall m, for_each xs (refuse_one u) m =
  m <| x_pending := filter (fun x => pc_upstream_id (snd x) <> u \/ fst x ∉ xs) (x_pending m) |>
    <| x_out := x_out m ++ map (error_for (AG_ECONNREFUSED env)) (List.filter (fun id => waits u id m) xs) |>.
Proof.
  induction 1 as [|id xs Hid Hnd IH]; intros m.
  - cbn. rewrite app_nil_r. rewrite map_filter_id by (intros; right; set_solver). by destruct m.
  - cbn [for_each fold_left]. change (fold_left _ xs ?x) with (for_each xs (refuse_one u) x). rewrite IH. cbn [List.filter].
    destruct (waits u id m) eqn:W; unfold waits in W; destruct (x_pending m !! id) as [pc|] eqn:E; try done.
    + apply Z.eqb_eq in W. assert (refuse_one u id m = forget_pending id (raise (SERVER_EVENT_ERROR id (AG_ECONNREFUSED env)) m)) as ->.
      { unfold refuse_one. by rewrite E, W, Z.eqb_refl. }
      assert (filter (fun x => pc_upstream_id (snd x) <> u \/ fst x ∉ xs) (delete id (x_pending m)) =
        filter (fun x => pc_upstream_id (snd x) <> u \/ fst x ∉ id :: xs) (x_pending m)) as Hf.
      { apply map_eq. intros k. apply option_eq. intros pc'. rewrite !map_lookup_filter_Some, lookup_delete_Some. cbn. rewrite not_elem_of_cons.
        destruct (decide (k = id)) as [->|]; naive_solver. }
      assert (List.filter (fun x => waits u x (forget_pending id (raise (SERVER_EVENT_ERROR id (AG_ECONNREFUSED env)) m))) xs =
        List.filter (fun x => waits u x m) xs) as Hw.
      { apply filter_ext_in. intros x Hx. unfold waits. cbn. rewrite lookup_delete_ne; [done|]. intros <-. by apply Hid, list_elem_of_In. }
      rewrite Hw. cbn. by rewrite <- app_assoc, Hf.
    + apply Z.eqb_neq in W. assert (refuse_one u id m = m) as ->.
      { unfold refuse_one. rewrite E. by rewrite (proj2 (Z.eqb_neq _ _)). }
      f_equal. f_equal. apply map_eq. intros k. apply option_eq. intros pc'. rewrite !map_lookup_filter_Some. cbn. rewrite not_elem_of_cons.
      destruct (decide (k = id)) as [->|]; naive_solver.
    + assert (refuse_one u id m = m) as -> by (unfold refuse_one; by rewrite E).
      f_equal. f_equal. apply map_eq. intros k. apply option_eq. intros pc'. rewrite !map_lookup_filter_Some. cbn. rewrite not_elem_of_cons.
      destruct (decide (k = id)) as [->|]; naive_solver.
Qed.

(** All connections that wait for an upstream are refused, each once. *)
Lemma refuse_pending_eq u m : refuse_pending env u m =
  m <| x_pending := filter (fun x => pc_upstream_id (snd x) <> u) (x_pending m) |>
    <| x_out := x_out m ++ map (error_for (AG_ECONNREFUSED env)) (List.filter (fun id => waits u id m) (pending_order env m)) |>.
Proof.
  unfold refuse_pending, for_each_pending. change (fun id m => _) with (refuse_one u). rewrite refuse_loop by apply pending_order_NoDup.
  f_equal. f_equal. apply map_eq. intros k. apply option_eq. intros pc. rewrite !map_lookup_filter_Some. cbn. split; [|naive_solver].
  intros [Hk [Hu|Hin]]; [done|]. exfalso. apply Hin, pending_order_elem. by rewrite Hk.
Qed.

Lemma wf_refused u m code : mux_wf m -> Forall quiet (map (error_for code) (List.filter (fun id => waits u id m) (pending_order env m))).
Proof.
  intros Hm. apply Forall_map, Forall_forall. intros id Hid. apply quiet_error. intros ->.
  apply elem_of_list_filter_bool in Hid as [_ Hid]. unfold waits in Hid. by rewrite (proj2 (wf_ids _ Hm)) in Hid.
Qed.

Lemma wf_refuse u m : mux_wf m -> mux_wf (refuse_pending env u m).
Proof.
  intros Hm. rewrite refuse_pending_eq. pose proof (wf_refused u m (AG_ECONNREFUSED env) Hm) as Hq.
  destruct Hm as [W1 W2 W3 W4 W5 W6 W7]. split; cbn; try done.
  - intros id pc Hp. apply map_lookup_filter_Some in Hp as [Hp _]. by eapply W2.
  - intros id Hp. apply W3. intros E. apply Hp. by apply map_lookup_filter_None; left.
  - destruct W4. split; [done|]. by apply map_lookup_filter_None; left.
  - by rewrite told_open_quiet.
Qed.

Lemma wf_close_upstream u m : mux_wf m -> mux_wf (close_upstream env u m).
Proof.
  intros Hm. unfold close_upstream. destruct (x_pool m !! u) as [st|] eqn:Eu; [|done].
  set (m1 := m <| x_connections := _ |>). assert (mux_wf m1) as H1.
  { eapply ends_only_wf; [|exact Hm]. split; try done; [apply map_filter_subseteq|]. exists []. by rewrite app_nil_r. }
  assert (forall id v, x_connections m1 !! id = Some v -> v <> u) as Hc by (intros id v Hv; by apply map_lookup_filter_Some in Hv as [_ Hv]).
  assert (x_pool (refuse_pending env u m1) = x_pool m1 /\ x_connections (refuse_pending env u m1) = x_connections m1) as [Ep Ec]
    by by rewrite refuse_pending_eq.
  assert (forall id pc, x_pending (refuse_pending env u m1) !! id = Some pc -> pc_upstream_id pc <> u) as Hp.
  { intros id pc. rewrite refuse_pending_eq. cbn. intros Hp. by apply map_lookup_filter_Some in Hp as [_ Hp]. }
  apply (wf_refuse u) in H1. set (m2 := refuse_pending env u m1) in *. clearbody m2. rewrite <- Ec in Hc. clear Ec Ep.
  set (m3 := emit (C_destroy u) _). assert (mux_wf m3) as H3.
  { destruct H1 as [W1 W2 W3 W4 W5 W6 W7]. split; cbn in *; try done.
    - intros id v Hv. rewrite lookup_delete_ne; [by eapply W1|]. intros <-. by apply (Hc _ _ Hv).
    - intros id pc Hpc. rewrite lookup_delete_ne; [by eapply W2|]. intros E. by apply (Hp _ _ Hpc).
    - destruct (x_pool m2 !! u) as [st'|] eqn:E; [rewrite map_size_delete_Some by by rewrite E|rewrite map_size_delete_None by done]; lia.
    - by rewrite told_open_quiet by by constructor. }
  clearbody m3. case_bool_decide as He; [|done]. cbn [negb].
  destruct H3 as [W1 W2 W3 W4 W5 W6 W7]. cbn. destruct (x_pending_error m3) as [code|]; split; cbn; try done;
    unfold told_open; by rewrite fold_left_app.
Qed.

(** How often the end of a connection is reported. *)
Definition ends_id id (o : MuxOut) : bool :=
  match o with P_event (SERVER_EVENT_ERROR id' _) | P_event (SERVER_EVENT_CONNECTION_CLOSED id') => id' =? id | _ => false end.
Definition reports id (outs : list MuxOut) : nat := length (List.filter (ends_id id) outs).

Lemma reports_app id outs outs' : reports id (outs ++ outs') = (reports id outs + reports id outs')%nat.
Proof. unfold reports. by rewrite List.filter_app, length_app. Qed.

Lemma reports_errors code id xs : NoDup xs -> reports id (map (error_for code) xs) = if decide (id ∈ xs) then 1%nat else 0%nat.
Proof.
  induction 1 as [|x xs Hx Hnd IH]; [done|]. unfold reports in *. cbn. destruct (Z.eqb_spec x id) as [->|Hne]; cbn; rewrite IH.
  - rewrite (decide_False (P := id ∈ xs)) by done. by rewrite decide_True by set_solver.
  - apply decide_ext. set_solver.
Qed.

(** *** The session of an upstream opens *)

Definition open_one u id m : UpstreamMultiplexer :=
  match x_pending m !! id with
  | Some pc => if pc_upstream_id pc =? u then forget_pending id (proceed_pending_connection env u id pc m) else m
  | None => m
  end.

Record can_proceed u m : Prop := mkCanProceed {
  cp_opened : x_pool m !! u = Some US_SESSION_OPENED;
  cp_disjoint : forall id, x_pending m !! id <> None -> x_connections m !! id = None;
  cp_id : x_pending m !! NON_ID = None;
}.

(** The connections [xs] that wait for the upstream have been tried. *)
Record proceeded u (xs : list Z) m m' : Prop := mkProceeded {
  pr_pool : x_pool m' = x_pool m;
  pr_max : x_max_upstreams_num m' = x_max_upstreams_num m;
  pr_session : x_session_open m' = x_session_open m;
  pr_faults : x_faults m' = x_faults m;
  pr_pending : forall id, x_pending m' !! id = if waits u id m && bool_decide (id ∈ xs) then None else x_pending m !! id;
  pr_same : forall id, waits u id m && bool_decide (id ∈ xs) = false -> x_connections m' !! id = x_connections m !! id;
  pr_new : forall id v, waits u id m && bool_decide (id ∈ xs) = true -> x_connections m' !! id = Some v -> x_pool m !! v = Some US_SESSION_OPENED;
  pr_out : exists outs, x_out m' = x_out m ++ outs /\ Forall quiet outs /\
    ((forall v, x_pool m !! v <> Some US_OPENING_SESSION) -> forall id, reports id outs =
      if waits u id m && bool_decide (id ∈ xs) then if x_connections m' !! id is Some _ then 0%nat else 1%nat else 0%nat);
}.

Lemma proceeded_refl u m : proceeded u [] m m.
Proof.
  assert (forall id, waits u id m && bool_decide (id ∈ []) = false) as E by (intros id; rewrite bool_decide_eq_false_2 by set_solver; apply andb_false_r).
  split; try done; intros; rewrite ?E; try done; [by rewrite E in *|]. exists []. rewrite app_nil_r. split_and!; try done. intros _ id. by rewrite E.
Qed.

Lemma proceeded_can u xs m m' : proceeded u xs m m' -> can_proceed u m -> can_proceed u m'.
Proof.
  intros Hp [C1 C2 C3]. split.
  - by rewrite (pr_pool _ _ _ _ Hp).
  - intros id. rewrite (pr_pending _ _ _ _ Hp). destruct (waits u id m && _) eqn:E; [done|]. rewrite (pr_same _ _ _ _ Hp) by done. apply C2.
  - rewrite (pr_pending _ _ _ _ Hp). by case_match.
Qed.
Lemma proceeded_cons u x xs m m1 m2 : x ∉ xs -> proceeded u [x] m m1 -> proceeded u xs m1 m2 -> proceeded u (x :: xs) m m2.
Proof.
  intros Hx [A1 A2 A3 A4 A5 A6 A7 (o1 & Eo1 & Q1 & R1)] [B1 B2 B3 B4 B5 B6 B7 (o2 & Eo2 & Q2 & R2)].
  assert (forall id, waits u id m1 = waits u id m && bool_decide (id <> x)) as Hw.
  { intros id. unfold waits at 1. rewrite A5. destruct (decide (id = x)) as [->|Hne].
    - rewrite (bool_decide_eq_true_2 (x ∈ [x])), (bool_decide_eq_false_2 (x <> x)) by set_solver. rewrite andb_true_r, andb_false_r. unfold waits.
      destruct (x_pending m !! x) as [pc|] eqn:E; [|done]. by destruct (pc_upstream_id pc =? u) eqn:Eu.
    - rewrite (bool_decide_eq_false_2 (id ∈ [x])), bool_decide_eq_true_2 by set_solver. by rewrite andb_false_r, andb_true_r. }
  assert (forall id, (id = x /\ bool_decide (id ∈ [x]) = true /\ bool_decide (id <> x) = false /\ bool_decide (id ∈ xs) = false /\ bool_decide (id ∈ x :: xs) = true) \/
    (id <> x /\ bool_decide (id ∈ [x]) = false /\ bool_decide (id <> x) = true /\ bool_decide (id ∈ x :: xs) = bool_decide (id ∈ xs))) as Hcase.
  { intros id. clear -Hx. destruct (decide (id = x)) as [->|Hne]; [left|right]; (split; [done|]).
    - rewrite !bool_decide_eq_true, !bool_decide_eq_false. split_and!; [apply list_elem_of_here|naive_solver|done|apply list_elem_of_here].
    - rewrite bool_decide_eq_false, bool_decide_eq_true. split_and!; [by rewrite list_elem_of_singleton|done|]. apply bool_decide_ext. rewrite elem_of_cons. naive_solver. }
  split; try congruence.
  - intros id. rewrite B5, A5, Hw. destruct (Hcase id) as [(-> & E1 & E2 & E3 & E4)|(Hne & E1 & E2 & E3)]; rewrite ?E1, ?E2, ?E3, ?E4; by rewrite ?andb_true_r, ?andb_false_r.
  - intros id Hid. destruct (Hcase id) as [(-> & E1 & E2 & E3 & E4)|(Hne & E1 & E2 & E3)].
    + rewrite B6 by by rewrite E3, andb_false_r. apply A6. by rewrite E4 in Hid; rewrite E1.
    + rewrite B6 by by rewrite Hw, E2, andb_true_r, <- E3. apply A6. by rewrite E1, andb_false_r.
  - intros id v Hid Hv. destruct (Hcase id) as [(-> & E1 & E2 & E3 & E4)|(Hne & E1 & E2 & E3)].
    + rewrite B6 in Hv by by rewrite E3, andb_false_r. apply (A7 x); [|done]. by rewrite E4 in Hid; rewrite E1.
    + rewrite <- A1. apply (B7 id); [|done]. by rewrite Hw, E2, andb_true_r, <- E3.
  - exists (o1 ++ o2). split_and!; [by rewrite Eo2, Eo1, app_assoc|by apply Forall_app|]. intros Hall id. rewrite reports_app.
    rewrite R1, R2 by by rewrite ?A1. rewrite Hw. destruct (Hcase id) as [(-> & E1 & E2 & E3 & E4)|(Hne & E1 & E2 & E3)].
    + rewrite E1, E2, E3, E4, !andb_false_r, !andb_true_r. rewrite (B6 x) by by rewrite E3, andb_false_r. destruct (waits u x m); [|done]. lia.
    + by rewrite E1, E2, E3, andb_false_r, andb_true_r.
Qed.

(** One connection: opened on its upstream or on the first of the pool, or refused, or lost. *)
Inductive outcome u id m : gmap Z Z -> list MuxOut -> Prop :=
| O_opened v outs : x_pool m !! v = Some US_SESSION_OPENED -> (forall id', reports id' outs = 0%nat) -> Forall quiet outs ->
    outcome u id m (<[id := v]> (x_connections m)) outs
| O_refused outs : (forall id', reports id' outs = if decide (id' = id) then 1%nat else 0%nat) -> Forall quiet outs ->
    outcome u id m (x_connections m) outs
| O_lost v outs : x_pool m !! v = Some US_OPENING_SESSION -> Forall quiet outs -> outcome u id m (x_connections m) outs.

Lemma proceed_outcome u id pc m : can_proceed u m -> x_pending m !! id = Some pc ->
  exists conns outs, outcome u id m conns outs /\
    proceed_pending_connection env u id pc m = m <| x_connections := conns |> <| x_out := x_out m ++ outs |>.
Proof.
  intros [C1 C2 C3] Hp. assert (x_connections m !! id = None) as Hc by (apply C2; by rewrite Hp). assert (id <> NON_ID) as Hid by congruence.
  unfold proceed_pending_connection, open_connection_on. rewrite C1. set (o1 := C_open_connection u id _ _ _).
  assert (forall v, quiet (C_open_connection v id (pc_addr pc) (pc_proto pc) (pc_app_name pc))) as Hq by done.
  destruct (xe_open_connection env u id).
  { change (x_connections (emit o1 m)) with (x_connections m). rewrite bool_decide_eq_true_2 by done. eexists _, [o1]. split; [by apply (O_opened _ _ _ u); try constructor|done]. }
  destruct (pool_order env (emit o1 m)) as [|v vs] eqn:Eo.
  { exfalso. assert (u ∈ pool_order env (emit o1 m)) as Hu by (apply pool_order_elem; cbn; by rewrite C1). rewrite Eo in Hu. by apply not_elem_of_nil in Hu. }
  assert (x_pool m !! v <> None) as Hv.
  { change (x_pool m) with (x_pool (emit o1 m)). apply (pool_order_elem env). rewrite Eo. apply list_elem_of_here. }
  change (x_pool (emit o1 m)) with (x_pool m). set (o2 := C_open_connection v id _ _ _). destruct (x_pool m !! v) as [[|]|] eqn:Ev; [| |done].
  - exists (x_connections m), [o1]. split; [by apply (O_lost _ _ _ v); try constructor|]. unfold postpone. change (x_pending (emit o1 m)) with (x_pending m).
    rewrite Hp. rewrite bool_decide_eq_false_2 by done. by destruct m.
  - destruct (xe_open_connection env v id).
    + change (x_connections (emit o2 (emit o1 m))) with (x_connections m). rewrite bool_decide_eq_true_2 by done. eexists _, [o1; o2]. split; [by apply (O_opened _ _ _ v); repeat constructor|].
      change [o1; o2] with ([o1] ++ [o2]). rewrite app_assoc. done.
    + exists (x_connections m), [o1; o2; error_for (AG_ECONNREFUSED env) id]. split.
      * apply O_refused; [|repeat constructor; try done; by apply quiet_error]. intros id'. unfold reports. cbn.
        destruct (Z.eqb_spec id id') as [<-|]; [by rewrite decide_True|by rewrite decide_False].
      * change [o1; o2; error_for (AG_ECONNREFUSED env) id] with ([o1] ++ [o2] ++ [error_for (AG_ECONNREFUSED env) id]). rewrite !app_assoc. by destruct m.
Qed.

Lemma open_one_proceeded u id m : can_proceed u m -> proceeded u [id] m (open_one u id m).
Proof.
  intros Hcan. assert (forall id', waits u id' m && bool_decide (id' ∈ [id]) = if decide (id' = id) then waits u id m else false) as Hw.
  { intros id'. case_decide as Hd; [subst; rewrite bool_decide_eq_true_2 by set_solver; apply andb_true_r|].
    rewrite bool_decide_eq_false_2 by set_solver. apply andb_false_r. }
  unfold open_one. destruct (waits u id m) eqn:W.
  - destruct (x_pending m !! id) as [pc|] eqn:E; [|unfold waits in W; by rewrite E in W]. pose proof W as Wu. unfold waits in Wu. rewrite E in Wu. rewrite Wu.
    destruct (proceed_outcome u id pc m Hcan E) as (conns & outs & Ho & ->).
    assert (forall id', id' <> id -> conns !! id' = x_connections m !! id') as Hne by (intros; destruct Ho; rewrite ?lookup_insert_ne; done).
    split; try done; cbn.
    + intros id'. rewrite Hw. case_decide as Hd; [subst; apply lookup_delete_eq|by apply lookup_delete_ne].
    + intros id'. rewrite Hw. case_decide as Hd; [done|]. intros _. by apply Hne.
    + intros id' v. rewrite Hw. case_decide as Hd; [|done]. subst. intros _ Hv. destruct Ho as [v' ? Hv'| |]; [by rewrite lookup_insert_eq in Hv; simplify_eq| |];
      by rewrite (cp_disjoint _ _ Hcan) in Hv by by rewrite E.
    + exists outs. split_and!; [done|by destruct Ho|]. intros Hall id'. rewrite Hw. destruct Ho as [v outs _ Hr _|outs Hr _|v outs Hv _]; [| |by apply Hall in Hv].
      * rewrite Hr. case_decide as Hd; [|done]. subst. by rewrite lookup_insert_eq.
      * rewrite Hr. case_decide as Hd; [|done]. subst. by rewrite (cp_disjoint _ _ Hcan) by by rewrite E.
  - assert (forall id', (if decide (id' = id) then false else false) = false) as Hf by (intros; by case_decide).
    assert (match x_pending m !! id with
      | Some pc => if pc_upstream_id pc =? u then forget_pending id (proceed_pending_connection env u id pc m) else m
      | None => m end = m) as -> by (unfold waits in W; destruct (x_pending m !! id); [by rewrite W|done]).
    split; try done; intros; rewrite ?Hw, ?Hf in *; try done.
    exists []. rewrite app_nil_r. split_and!; try done. intros _ id'. by rewrite Hw, Hf.
Qed.

Lemma open_loop u xs : NoDup xs -> forall m, can_proceed u m -> proceeded u xs m (for_each xs (open_one u) m).
Proof.
  induction 1 as [|x xs Hx Hnd IH]; intros m Hm; [apply proceeded_refl|]. cbn. pose proof (open_one_proceeded u x m Hm) as H1.
  eapply proceeded_cons; [done|exact H1|]. apply IH. by eapply proceeded_can.
Qed.

(** The upstream becomes usable and the parent hears of the first one. *)
Definition opened_state u m : UpstreamMultiplexer :=
  let m := if x_session_open m then m else raise SERVER_EVENT_SESSION_OPENED (m <| x_session_open := true |>) in
  m <| x_pool := <[u := US_SESSION_OPENED]> (x_pool m) |>.

Lemma opened_state_fields u m : x_pool (opened_state u m) = <[u := US_SESSION_OPENED]> (x_pool m) /\ x_connections (opened_state u m) = x_connections m /\
  x_pending (opened_state u m) = x_pending m /\ x_max_upstreams_num (opened_state u m) = x_max_upstreams_num m /\ x_faults (opened_state u m) = x_faults m /\
  x_session_open (opened_state u m) = true /\
  x_out (opened_state u m) = x_out m ++ (if x_session_open m then [] else [P_event SERVER_EVENT_SESSION_OPENED]).
Proof. unfold opened_state. destruct (x_session_open m) eqn:E; cbn; by rewrite ?app_nil_r. Qed.

Lemma session_opened_proceeded u m : mux_wf m -> proceeded u (pending_order env m) (opened_state u m) (session_opened env u m).
Proof.
  intros Hm. destruct (opened_state_fields u m) as (E1 & E2 & E3 & _).
  replace (pending_order env m) with (pending_order env (opened_state u m)) by (unfold pending_order; by rewrite E3).
  apply (open_loop u (pending_order env (opened_state u m))); [apply pending_order_NoDup|]. split; rewrite ?E1, ?E2, ?E3.
  - apply lookup_insert_eq.
  - apply (wf_disjoint _ Hm).
  - apply (wf_ids _ Hm).
Qed.

Lemma waits_opened u id m : waits u id (opened_state u m) && bool_decide (id ∈ pending_order env m) = waits u id m.
Proof.
  destruct (opened_state_fields u m) as (_ & _ & E3 & _). unfold waits. rewrite E3. destruct (x_pending m !! id) eqn:E; [|done].
  rewrite bool_decide_eq_true_2; [apply andb_true_r|]. apply pending_order_elem. by rewrite E.
Qed.

Lemma wf_session_opened u m : mux_wf m -> x_pool m !! u <> None -> mux_wf (session_opened env u m).
Proof.
  intros Hm Hu. pose proof (session_opened_proceeded u m Hm) as Hp. destruct (opened_state_fields u m) as (E1 & E2 & E3 & E4 & E5 & E6 & E7).
  pose proof (fun id => waits_opened u id m) as Hw. destruct Hp as [P1 P2 P3 P4 P5 P6 P7 (outs & P8 & P9 & _)]. destruct Hm as [W1 W2 W3 W4 W5 W6 W7].
  rewrite E1 in P1, P7. assert (forall v, x_pool m !! v = Some US_SESSION_OPENED -> <[u:=US_SESSION_OPENED]> (x_pool m) !! v = Some US_SESSION_OPENED) as Hk.
  { intros v Hv. destruct (decide (u = v)) as [<-|]; [apply lookup_insert_eq|by rewrite lookup_insert_ne]. }
  split.
  - intros id v Hv. rewrite P1. specialize (P6 id). specialize (P7 id v). rewrite Hw in P6, P7. destruct (waits u id m); [by apply P7|].
    rewrite P6, E2 in Hv by done. by eapply Hk, W1.
  - intros id pc Hpc. rewrite P5, Hw, E3, P1 in *. destruct (waits u id m) eqn:W; [done|]. unfold waits in W. rewrite Hpc in W. apply Z.eqb_neq in W.
    rewrite lookup_insert_ne by done. by eapply W2.
  - intros id. rewrite P5, Hw. destruct (waits u id m) eqn:W; [done|]. rewrite E3, P6, E2 by by rewrite Hw. apply W3.
  - destruct W4 as [W4 W4']. assert (waits u NON_ID m = false) as W by (unfold waits; by rewrite W4'). rewrite P5, P6, Hw, W, E2, E3 by by rewrite Hw. done.
  - rewrite P1, P2, E4. destruct (x_pool m !! u) eqn:E; [|done]. by rewrite map_size_insert_Some by by rewrite E.
  - congruence.
  - rewrite P8, told_open_quiet by done. rewrite P3, E6, E7. destruct (x_session_open m) eqn:Es; [by rewrite app_nil_r|]. unfold told_open. by rewrite fold_left_app.
Qed.

(** *** The rest *)

(** A child reports the ends of its own connections. *)
Definition ends_known m : Prop := forall u e, e ∈ xe_ends env u -> x_connections m !! end_id e = Some u.

Lemma ends_known_id m : mux_wf m -> ends_known m -> forall u e, e ∈ xe_ends env u -> end_id e <> NON_ID.
Proof. intros Hm He u e Hin Eid. apply He in Hin. rewrite Eid, (proj1 (wf_ids _ Hm)) in Hin. done. Qed.

Lemma ends_close_children us m : mux_wf m -> ends_known m -> ends_only m (for_each us (close_child env) m).
Proof. intros Hm He. apply ends_for_each. intros u m' _. apply ends_close_child. intros e. by eapply ends_known_id. Qed.

(** What [close_session] leaves. *)
Lemma close_session_eq m : mux_wf m -> ends_known m -> exists outs ids, NoDup ids /\ (forall id, id ∈ ids <-> x_pending m !! id <> None) /\ Forall quiet outs /\
  x_out (close_session env m) = x_out (for_each (pool_order env m) (close_child env) m) ++ outs ++ map (error_for (AG_ECONNRESET env)) ids /\
  (forall id, reports id outs = 0%nat) /\
  x_pool (close_session env m) = ∅ /\ x_connections (close_session env m) = ∅ /\ x_pending (close_session env m) = ∅ /\
  x_max_upstreams_num (close_session env m) = x_max_upstreams_num m /\ x_session_open (close_session env m) = x_session_open m /\
  x_faults (close_session env m) = x_faults m.
Proof.
  intros Hm He. destruct (ends_close_children (pool_order env m) m Hm He) as [N1 N2 N3 N4 N5 _ _]. unfold close_session, raise.
  set (m1 := for_each (pool_order env m) (close_child env) m) in *. rewrite !for_each_emit. cbn -[map pending_order].
  set (m2 := m1 <| x_out := _ |>). set (ids := pending_order env _). exists (map C_destroy (pool_order env m1)), ids.
  assert (forall xs id, reports id (map C_destroy xs) = 0%nat) as Hr by (intros xs id; induction xs as [|x xs IH]; [done|exact IH]).
  split_and!; try done.
  - apply pending_order_NoDup.
  - intros id. subst ids. rewrite pending_order_elem. cbn. by rewrite N2.
  - apply Forall_map, Forall_forall. done.
  - by rewrite <- app_assoc.
Qed.

Lemma wf_close_session m : mux_wf m -> ends_known m -> mux_wf (close_session env m).
Proof.
  intros Hm He. pose proof (ends_close_children (pool_order env m) m Hm He) as Hc. apply ends_only_wf in Hc; [|done].
  destruct (close_session_eq m Hm He) as (outs & ids & Hnd & Hin & Hq & Eo & _ & Ep & Ec & Epe & Em & Es & Ef).
  assert (Forall quiet (outs ++ map (error_for (AG_ECONNRESET env)) ids)) as Hquiet.
  { apply Forall_app. split; [done|]. apply Forall_map, Forall_forall. intros id Hid. apply quiet_error. intros ->. apply Hin in Hid. by apply Hid, (wf_ids _ Hm). }
  split; rewrite ?Ep, ?Ec, ?Epe, ?Em, ?Es, ?Ef; try done.
  - rewrite map_size_empty. pose proof (wf_size _ Hm). lia.
  - apply (wf_faults _ Hm).
  - rewrite Eo, told_open_quiet by done. rewrite <- (wf_told _ Hc). symmetry. apply (ends_session m). by apply ends_close_children.
Qed.

Lemma ends_drop id e m : quiet (P_event e) -> ends_only m (raise e (m <| x_connections := delete id (x_connections m) |>)).
Proof. intros Hq. split; try done; [apply delete_subseteq|]. exists [P_event e]. split; [done|by constructor]. Qed.

Lemma ends_submit us m m' : ends_only m m' -> ends_only m (submit_close us m').
Proof. by intros [? ? ? ? ? ? ?]. Qed.

Lemma wf_child_failed u code m : mux_wf m -> ends_known m -> mux_wf (child_failed env u code m).
Proof.
  intros Hm He. unfold child_failed. destruct (is_fatal_error code).
  - set (m1 := if code =? 0 then m else _). assert (ends_only m m1) as H1.
    { subst m1. destruct (code =? 0); [done|]. split; try done. exists []. by rewrite app_nil_r. }
    apply ends_only_wf with m; [|done]. apply ends_submit. transitivity m1; [done|]. apply ends_for_each. intros v m' _. apply ends_close_child. intros e. by eapply ends_known_id.
  - apply ends_only_wf with m; [|done]. apply ends_submit, ends_close_child. intros e. by eapply ends_known_id.
Qed.

Lemma wf_child u what m : mux_wf m -> ends_known m -> x_pool m !! u <> None -> mux_wf (child_upstream_handler env u what m).
Proof.
  intros Hm He Hu. unfold child_upstream_handler. destruct (x_pool m !! u) as [st|] eqn:E; [|done].
  destruct what; try (by apply wf_quiet_emit).
  - apply wf_session_opened; [done|by rewrite E].
  - apply ends_only_wf with (refuse_pending env u m); [by apply ends_submit|by apply wf_refuse].
  - apply ends_only_wf with m; [by apply ends_drop|done].
  - destruct (Z.eqb_spec id NON_ID) as [->|Hid]; [by apply wf_child_failed|]. apply ends_only_wf with m; [|done]. apply ends_drop.
    intros b. cbn. by destruct (Z.eqb_spec id NON_ID).
Qed.

Lemma wf_run_task m : mux_wf m -> mux_wf (run_task env m).
Proof.
  intros Hm. unfold run_task. destruct (x_tasks m) as [|us tasks]; [done|].
  assert (mux_wf (m <| x_tasks := tasks |>)) as H1.
  { apply ends_only_wf with m; [|done]. split; try done. exists []. by rewrite app_nil_r. }
  revert H1. generalize (m <| x_tasks := tasks |>). induction us as [|u us IH]; intros m1 H1; [done|]. cbn. by apply IH, wf_close_upstream.
Qed.

Lemma ends_health_check m : ends_only m (do_health_check env m).
Proof.
  unfold do_health_check. transitivity (cancel_health_check env m); [apply ends_for_each; intros; by apply ends_emit|].
  generalize (cancel_health_check env m). intros m1. destruct (List.filter _ _); [by apply ends_emit|]. apply ends_for_each. intros. by apply ends_emit.
Qed.
End Steps.

(** What the children and the generators of ids owe: a child that closes its session reports
    the end of connections of its own, and new ids are new. *)
Definition proper (env : MuxEnv) (i : MuxInput) (m : UpstreamMultiplexer) : Prop :=
  ends_known env m /\
  match i with
  | X_open_connection _ _ _ =>
      x_connections m !! xe_new_conn env = None /\ x_pending m !! xe_new_conn env = None /\ xe_new_conn env <> NON_ID /\
      x_pool m !! xe_new_upstream env = None
  | _ => True
  end.

Inductive reachable : UpstreamMultiplexer -> Prop :=
| R_new n : 0 <= n -> reachable (mux_new n)
| R_step env i m : reachable m -> proper env i m -> reachable (mux_step env i m).

Lemma wf_new n : 0 <= n -> mux_wf (mux_new n).
Proof.
  intros Hn. split; cbn; try done. rewrite map_size_empty. destruct (Z.eqb_spec n 0); unfold DEFAULT_UPSTREAMS_NUM; lia.
Qed.

Lemma wf_fault f m : untimely f -> mux_wf m -> mux_wf (fault f m).
Proof. intros Hf [W1 W2 W3 W4 W5 W6 W7]. split; try done. apply Forall_app. split; [done|by constructor]. Qed.

Lemma wf_step env i m : mux_wf m -> proper env i m -> mux_wf (mux_step env i m).
Proof.
  intros Hm [He Hi]. destruct i; cbn [mux_step].
  - unfold open_session. case_bool_decide as Ep; cbn [negb]; [|apply wf_fault; [by left|done]].
    assert (x_pool m !! xe_new_upstream env = None) as Hu by by rewrite Ep.
    assert (pool_order env m = []) as Eo by (destruct (pool_order env m) as [|v vs] eqn:Eo; [done|]; assert (v ∈ pool_order env m) as Hv by (rewrite Eo; apply list_elem_of_here);
      apply pool_order_elem in Hv; by rewrite Ep in Hv).
    assert (Z.of_nat (size (x_pool m)) < x_max_upstreams_num m) as Hs by (rewrite Ep, map_size_empty; apply (wf_size _ Hm)).
    assert (select_upstream_for_connection env m = xe_new_upstream env) as ->.
    { unfold select_upstream_for_connection, select_existing_upstream. rewrite Eo. cbn [List.filter List.find]. by case_match. }
    by apply wf_new_upstream.
  - by apply wf_close_session.
  - destruct Hi as (? & ? & ? & ?). by apply wf_open_connection.
  - unfold close_connection. case_match; [by apply wf_quiet_emit|done].
  - unfold send. case_match; [by apply wf_quiet_emit|done].
  - unfold consume. case_match; [by apply wf_quiet_emit|done].
  - unfold update_flow_control. case_match; [by apply wf_quiet_emit|done].
  - apply ends_only_wf with m; [apply ends_health_check|done].
  - apply ends_only_wf with m; [apply ends_for_each; intros; by apply ends_emit|done].
  - unfold on_icmp_request. destruct (first_open env m) as [v|] eqn:E; [by apply wf_quiet_emit|]. apply wf_fault; [right; by left|done].
  - apply ends_only_wf with m; [apply ends_for_each; intros; by apply ends_emit|done].
  - apply ends_only_wf with m; [apply ends_for_each; intros; by apply ends_emit|done].
  - destruct (decide (x_pool m !! u = None)) as [Hu|Hu]; [|by apply wf_child].
    unfold child_upstream_handler. rewrite Hu. apply wf_fault; [right; by right|done].
  - by apply wf_run_task.
Qed.

Lemma multiplexer_wf m : reachable m -> mux_wf m.
Proof. induction 1; [by apply wf_new|by apply wf_step]. Qed.

(** C20. Whatever the client and the sessions do, at any time, the tables of the multiplexer
    stay consistent: a connection is on an upstream of the pool whose session is open, a
    connection that waits is on one whose session is being opened, no connection does both,
    there are never more upstreams than configured, and the session is open for the multiplexer
    exactly if the last that its parent was told is that it is.  The only assertions that fail
    are the three for calls that come when they should not ([untimely]), and these change
    nothing. *)
Theorem multiplexer_tables_agree m : reachable m ->
  (forall id u, x_connections m !! id = Some u -> x_pool m !! u = Some US_SESSION_OPENED) /\
  (forall id pc, x_pending m !! id = Some pc -> x_pool m !! pc_upstream_id pc = Some US_OPENING_SESSION /\ x_connections m !! id = None) /\
  Z.of_nat (size (x_pool m)) <= x_max_upstreams_num m /\
  Forall untimely (x_faults m) /\
  x_session_open m = told_open (x_out m).
Proof.
  intros [W1 W2 W3 W4 W5 W6 W7]%multiplexer_wf. split_and!; try done; [|lia]. intros id pc Hp. split; [by eapply W2|]. apply W3. by rewrite Hp.
Qed.

(** *** Connections that wait *)

(** A waiting connection is open now, or its end has been reported, once. *)
Definition settled (id : Z) (m m' : UpstreamMultiplexer) : Prop :=
  x_pending m' !! id = None /\
  exists outs, x_out m' = x_out m ++ outs /\ reports id outs = if x_connections m' !! id is Some _ then 0%nat else 1%nat.

Lemma refused_settled env u id m m' outs' : mux_wf m -> waits u id m = true -> (forall id, x_pending m' !! id = x_pending (refuse_pending env u m) !! id) ->
  x_connections m' !! id = None -> x_out m' = x_out (refuse_pending env u m) ++ outs' -> reports id outs' = 0%nat -> settled id m m'.
Proof.
  intros Hm Hw Ep Ec Eo Hr. split.
  - rewrite Ep, refuse_pending_eq. cbn. apply map_lookup_filter_None. right. intros pc Hpc. unfold waits in Hw. rewrite Hpc in Hw.
    apply Z.eqb_eq in Hw. intros Hne. by apply Hne.
  - rewrite Eo, refuse_pending_eq. cbn. rewrite <- app_assoc. eexists. split; [done|]. rewrite Ec, reports_app, Hr, reports_errors; [|apply NoDup_ListNoDup, List.NoDup_filter, NoDup_ListNoDup, pending_order_NoDup].
    rewrite decide_True; [done|]. apply elem_of_list_filter_bool. split; [|done]. apply pending_order_elem. unfold waits in Hw. by destruct (x_pending m !! id).
Qed.

Lemma waiting_not_open u id m : mux_wf m -> waits u id m = true -> x_connections m !! id = None.
Proof. intros Hm Hw. apply (wf_disjoint _ Hm). unfold waits in Hw. by destruct (x_pending m !! id). Qed.

Lemma session_opened_settles env u id m : mux_wf m -> (forall v, v <> u -> x_pool m !! v <> Some US_OPENING_SESSION) -> waits u id m = true ->
  settled id m (session_opened env u m).
Proof.
  intros Hm Hall Hw. pose proof (session_opened_proceeded env u m Hm) as [P1 P2 P3 P4 P5 P6 P7 (outs & P8 & P9 & P10)].
  pose proof (waits_opened env u id m) as Ew. rewrite Hw in Ew. destruct (opened_state_fields u m) as (E1 & _ & _ & _ & _ & _ & E7). split; [by rewrite P5, Ew|].
  rewrite P8, E7, <- app_assoc. eexists. split; [done|]. rewrite reports_app, P10, Ew; [by destruct (x_session_open m)|]. intros v. rewrite E1.
  destruct (decide (u = v)) as [<-|]; [by rewrite lookup_insert_eq|]. rewrite lookup_insert_ne by done. by apply Hall.
Qed.

Lemma reports_close_children env id us m : (forall u e, e ∈ xe_ends env u -> end_id e <> id) ->
  exists outs, x_out (for_each us (close_child env) m) = x_out m ++ outs /\ reports id outs = 0%nat.
Proof.
  intros He. revert m. induction us as [|u us IH]; intros m; [exists []; by rewrite app_nil_r|]. cbn.
  assert (exists outs, x_out (close_child env u m) = x_out m ++ outs /\ reports id outs = 0%nat) as (o1 & E1 & R1).
  { unfold close_child. specialize (He u). assert (exists outs, x_out (emit (C_close_session u) m) = x_out m ++ outs /\ reports id outs = 0%nat) as H by by exists [C_close_session u].
    revert H. generalize (emit (C_close_session u) m). induction (xe_ends env u) as [|e es IHe]; intros m1 (o & Eo & Ro); [by exists o|]. cbn. apply IHe.
    - intros e' He'. apply He. by apply list_elem_of_further.
    - assert (end_id e <> id) as Hne by (apply He, list_elem_of_here). destruct e as [id'|id' code]; cbn in *; rewrite Eo, <- app_assoc; eexists; (split; [done|]);
        rewrite reports_app, Ro; unfold reports; cbn; by destruct (Z.eqb_spec id' id). }
  destruct (IH (close_child env u m)) as (o2 & E2 & R2). unfold for_each in E2. rewrite E2, E1, <- app_assoc. eexists. split; [done|]. by rewrite reports_app, R1, R2.
Qed.

(** C19. A connection that waits for the session of an upstream is not forgotten: when that
    session opens and no other is being opened, when it closes, when its upstream is destroyed
    and when the client closes the session, the connection stops waiting and is either open or
    has its end reported, exactly once. *)
Theorem waiting_connections_are_settled env u id m : reachable m -> ends_known env m -> waits u id m = true ->
  ((forall v, v <> u -> x_pool m !! v <> Some US_OPENING_SESSION) -> settled id m (child_upstream_handler env u SERVER_EVENT_SESSION_OPENED m)) /\
  settled id m (child_upstream_handler env u SERVER_EVENT_SESSION_CLOSED m) /\
  settled id m (close_upstream env u m) /\
  settled id m (close_session env m).
Proof.
  intros Hm%multiplexer_wf He Hw. pose proof (waiting_not_open u id m Hm Hw) as Hc.
  assert (x_pool m !! u = Some US_OPENING_SESSION) as Hu.
  { unfold waits in Hw. destruct (x_pending m !! id) as [pc|] eqn:E; [|done]. apply Z.eqb_eq in Hw. rewrite <- Hw. by eapply wf_pending. }
  unfold child_upstream_handler, close_upstream. rewrite Hu. split_and!.
  - intros Hall. by apply session_opened_settles.
  - eapply (refused_settled env u id m _ []); try done; [by rewrite refuse_pending_eq|by rewrite app_nil_r].
  - set (m1 := m <| x_connections := _ |>). assert (mux_wf m1) as H1.
    { eapply ends_only_wf; [|exact Hm]. split; try done; [apply map_filter_subseteq|]. exists []. by rewrite app_nil_r. }
    change (settled id m) with (settled id m1). set (m2 := emit (C_destroy u) _). assert (x_connections m2 !! id = None) as Hc2.
    { subst m2. rewrite refuse_pending_eq. cbn. apply map_lookup_filter_None. by left. }
    destruct (negb _); [by apply (refused_settled env u id m1 _ [C_destroy u])|]. change (x_pending_error (m2 <| x_session_open := false |>)) with (x_pending_error m2).
    destruct (x_pending_error m2) as [code|].
    + apply (refused_settled env u id m1 _ [C_destroy u; P_event (SERVER_EVENT_ERROR NON_ID code)]); try done; [subst m2; cbn; by rewrite <- app_assoc|].
      unfold reports. cbn [List.filter ends_id]. destruct (Z.eqb_spec NON_ID id) as [E|]; [|done]. exfalso. unfold waits in Hw. by rewrite <- E, (proj2 (wf_ids _ Hm)) in Hw.
    + apply (refused_settled env u id m1 _ [C_destroy u; P_event SERVER_EVENT_SESSION_CLOSED]); try done. subst m2. cbn. by rewrite <- app_assoc.
  - destruct (close_session_eq env m Hm He) as (outs & ids & Hnd & Hin & _ & Eo & Hr & Ep & Ec & Epe & _).
    destruct (reports_close_children env id (pool_order env m) m) as (o1 & E1 & R1).
    { intros v e Hve <-. apply He in Hve. by rewrite Hc in Hve. }
    split; [by rewrite Epe|]. rewrite Eo, E1, <- app_assoc. eexists. split; [done|]. rewrite Ec, !reports_app, R1, Hr, reports_errors by done. rewrite decide_True; [done|].
    apply Hin. unfold waits in Hw. by destruct (x_pending m !! id).
Qed.

(** *** Fatal errors *)

(** The session is reported to have failed with [code], or this is what its end will be reported
    as. *)
Definition ended_with (code : Z) (m : UpstreamMultiplexer) : Prop :=
  x_pool m = ∅ /\ x_session_open m = false /\ last (x_out m) = Some (P_event (SERVER_EVENT_ERROR NON_ID code)).
Definition ending_with (code : Z) (m : UpstreamMultiplexer) : Prop := x_pool m <> ∅ /\ x_pending_error m = Some code.

Lemma close_upstream_pool env u m :
  x_pool (close_upstream env u m) = delete u (x_pool m) /\ x_tasks (close_upstream env u m) = x_tasks m.
Proof.
  unfold close_upstream. destruct (x_pool m !! u) as [st|] eqn:E; [|by rewrite delete_id]. rewrite refuse_pending_eq. cbn.
  case_bool_decide; cbn; [|done]. by destruct (x_pending_error m).
Qed.

Lemma close_upstream_ends env code u m :
  ending_with code m \/ ended_with code m -> ending_with code (close_upstream env u m) \/ ended_with code (close_upstream env u m).
Proof.
  intros [[Hp He]|[Hp He]]; unfold close_upstream.
  - destruct (x_pool m !! u) as [st|] eqn:E; [|by left]. rewrite refuse_pending_eq. cbn.
    case_bool_decide as Ee; cbn; [|by left]. rewrite He. right. split_and!; [exact Ee|done|]. cbn. by rewrite last_snoc.
  - rewrite Hp, lookup_empty. by right.
Qed.

Lemma close_all env code us : forall m,
  ending_with code m \/ ended_with code m ->
  let m' := for_each us (close_upstream env) m in
  (ending_with code m' \/ ended_with code m') /\ x_tasks m' = x_tasks m /\
  (forall u, x_pool m' !! u <> None -> x_pool m !! u <> None /\ u ∉ us).
Proof.
  induction us as [|u us IH]; intros m Hm; [cbn; split_and!; [done|done|]; intros u Hu; split; [done|apply not_elem_of_nil]|].
  destruct (IH (close_upstream env u m) (close_upstream_ends env code u m Hm)) as (H1 & H2 & H3).
  destruct (close_upstream_pool env u m) as [Ep Et].
  change (for_each (u :: us) (close_upstream env) m) with (for_each us (close_upstream env) (close_upstream env u m)).
  split_and!; [done|congruence|]. intros v Hv. apply H3 in Hv as [Hv Hn]. rewrite Ep in Hv.
  destruct (decide (u = v)) as [<-|Hne]; [by rewrite lookup_delete_eq in Hv|]. rewrite lookup_delete_ne in Hv by done.
  split; [done|]. rewrite not_elem_of_cons. naive_solver.
Qed.

(** All the tasks in the loop, one after the other. *)
Lemma run_all_tasks code envs : forall m,
  length envs = length (x_tasks m) -> ending_with code m \/ ended_with code m ->
  (forall u, x_pool m !! u <> None -> exists us, us ∈ x_tasks m /\ u ∈ us) ->
  ended_with code (fold_left (fun m env => run_task env m) envs m).
Proof.
  induction envs as [|env envs IH]; intros m Hl Hm Hall; cbn [fold_left].
  - destruct (x_tasks m) as [|us tasks] eqn:Et; [|done]. destruct Hm as [[Hp _]|Hm]; [|done]. destruct Hp. apply map_empty. intros u.
    destruct (x_pool m !! u) eqn:Eu; [|done]. destruct (Hall u) as (us & Hus & _); [by rewrite Eu|]. by apply not_elem_of_nil in Hus.
  - destruct (x_tasks m) as [|us tasks] eqn:Et; [done|]. cbn in Hl. injection Hl as Hl.
    set (m1 := m <| x_tasks := tasks |>). destruct (close_all env code us m1) as (H1 & H2 & H3); [done|].
    assert (run_task env m = for_each us (close_upstream env) m1) as -> by (unfold run_task; by rewrite Et).
    apply IH; [by rewrite H2|done|]. intros u Hu. apply H3 in Hu as [Hu Hn]. rewrite H2. cbn.
    destruct (Hall u Hu) as (us' & Hus & Hin). apply elem_of_cons in Hus as [->|Hus]; [done|]. by exists us'.
Qed.

Lemma wf_emptied m : mux_wf m -> x_pool m = ∅ -> x_connections m = ∅ /\ x_pending m = ∅.
Proof.
  intros [W1 W2 _ _ _ _ _] E. rewrite E in *. split; apply map_empty; intros id.
  - destruct (x_connections m !! id) eqn:Ei; [|done]. by apply W1 in Ei.
  - destruct (x_pending m !! id) eqn:Ei; [|done]. by apply W2 in Ei.
Qed.

Lemma close_children_keep env us m : x_tasks (for_each us (close_child env) m) = x_tasks m /\ x_pending_error (for_each us (close_child env) m) = x_pending_error m.
Proof.
  revert m. induction us as [|u us IH]; intros m; [done|].
  change (for_each (u :: us) (close_child env) m) with (for_each us (close_child env) (close_child env u m)).
  destruct (IH (close_child env u m)) as [-> ->]. unfold close_child.
  change (x_tasks m) with (x_tasks (emit (C_close_session u) m)). change (x_pending_error m) with (x_pending_error (emit (C_close_session u) m)).
  generalize (emit (C_close_session u) m). induction (xe_ends env u) as [|e es IHe]; intros m1; [done|]. cbn.
  destruct (IHe (connection_ended e m1)) as [-> ->]. by destruct e.
Qed.

Lemma wf_run_tasks envs : forall m, mux_wf m -> mux_wf (fold_left (fun m env => run_task env m) envs m).
Proof. induction envs as [|env envs IH]; intros m Hm; [done|]. cbn. by apply IH, wf_run_task. Qed.

(** C21. An error that no other session can help with ends all of them: when the tasks that are
    then in the loop have run, the one of the error last and nothing else in between, there is
    no upstream, no connection and no waiting connection, and the last that the parent hears is
    this error of the session.  A connection that is asked for in between is not covered
    ([fatal_error_goes_stale]). *)
Theorem fatal_error_ends_session env envs u code m :
  reachable m -> ends_known env m -> x_pool m !! u <> None -> is_fatal_error code = true ->
  let m1 := child_upstream_handler env u (SERVER_EVENT_ERROR NON_ID code) m in
  length envs = length (x_tasks m1) ->
  let m' := fold_left (fun m env => run_task env m) envs m1 in
  x_pool m' = ∅ /\ x_connections m' = ∅ /\ x_pending m' = ∅ /\ x_session_open m' = false /\
  last (x_out m') = Some (P_event (SERVER_EVENT_ERROR NON_ID code)).
Proof.
  intros Hm%multiplexer_wf He Hu Hf m1 Hl m'. assert (mux_wf m') as Hm' by by apply wf_run_tasks, wf_child.
  assert (ended_with code m') as (E1 & E2 & E3).
  { apply run_all_tasks; [done|..]; clear Hm' Hl m'; subst m1; unfold child_upstream_handler, child_failed;
      (destruct (x_pool m !! u) as [st|] eqn:Eu; [|done]); rewrite Z.eqb_refl, Hf;
      (assert ((code =? 0) = false) as -> by
        (unfold is_fatal_error in Hf; apply orb_true_iff in Hf as [Hf|Hf]; apply Z.eqb_eq in Hf; by subst));
      set (m1 := m <| x_pending_error := Some code |>); change (pool_order env m1) with (pool_order env m);
      (assert (ends_only m1 (for_each (pool_order env m) (close_child env) m1)) as [N1 _ _ _ _ _ _] by
        (apply ends_for_each; intros v m' _; apply ends_close_child; intros e; by eapply ends_known_id));
      destruct (close_children_keep env (pool_order env m) m1) as [K1 K2];
      set (m2 := for_each (pool_order env m) (close_child env) m1) in *; clearbody m2.
    - left. split; [|exact K2]. change (x_pool (submit_close (pool_order env m) m2)) with (x_pool m2). rewrite N1.
      intros Ep. change (x_pool m = ∅) in Ep. by rewrite Ep in Eu.
    - intros v Hv. exists (pool_order env m). change (x_pool (submit_close (pool_order env m) m2)) with (x_pool m2) in Hv. rewrite N1 in Hv.
      split; [apply elem_of_app; right; by left|]. by apply pool_order_elem. }
  destruct (wf_emptied m' Hm' E1). by split_and!.
Qed.

(** ** A session with two upstreams *)

Module MuxSample.

(** Upstream 1 is the first, connections that upstream 2 is asked for fail if [fails]. *)
Definition senv (u id : Z) (num : Z) (fails : bool) : MuxEnv :=
  mkMuxEnv [1; 2; 3] [] u id (fun _ => true) (fun v _ => negb (fails && (v =? 2))) (fun _ => num) (fun _ => []) 0 0 0 (fun _ => 0) 104 111.

Definition address : TunnelAddressPair := mkPair (mkSocketAddress 0 [] 0) (TA_name [] 0).
Definition connect : MuxInput := X_open_connection address 6 [].

Definition run (xs : list (MuxEnv * MuxInput)) (m : UpstreamMultiplexer) : UpstreamMultiplexer := fold_left (fun m x => mux_step (fst x) (snd x) m) xs m.

(** Two connections wait for the first session. *)
Definition waiting : UpstreamMultiplexer := run [(senv 1 0 0 false, X_open_session); (senv 2 10 0 false, connect); (senv 2 11 0 false, connect)] (mux_new 2).

(** The first session is open and busy, connection 20 waits for the second. *)
Definition second : UpstreamMultiplexer :=
  run [(senv 1 0 0 false, X_open_session); (senv 1 0 0 false, X_child 1 SERVER_EVENT_SESSION_OPENED); (senv 2 20 9 false, connect)] (mux_new 3).

Lemma proper_quiet u id num fails i m :
  match i with
  | X_open_connection _ _ _ => x_connections m !! id = None /\ x_pending m !! id = None /\ id <> NON_ID /\ x_pool m !! u = None
  | _ => True
  end -> proper (senv u id num fails) i m.
Proof. intros Hi. split; [|by destruct i]. intros v e He. by apply not_elem_of_nil in He. Qed.

Lemma waiting_reachable : reachable waiting.
Proof.
  repeat (apply R_step; [|apply proper_quiet; by vm_compute]). by apply R_new.
Qed.

Lemma second_reachable : reachable second.
Proof.
  repeat (apply R_step; [|apply proper_quiet; by vm_compute]). by apply R_new.
Qed.

(** The session of the only open upstream is lost while another one is being opened.  The client
    still takes the session for open, and an echo request fails an assertion. *)
Theorem echo_without_open_session :
  let m := run [(senv 3 0 9 false, X_child 1 SERVER_EVENT_SESSION_CLOSED); (senv 3 0 9 false, X_task)] second in
  reachable m /\ x_session_open m = true /\ told_open (x_out m) = true /\ x_pool m !! 2 = Some US_OPENING_SESSION /\ x_faults m = [] /\
  x_faults (run [(senv 3 0 9 false, X_icmp_request)] m) = ["no connected upstream"%string].
Proof.
  split; [|by vm_compute]. apply R_step; [apply R_step; [exact second_reachable|]|]; by apply proper_quiet.
Qed.

(** If the second session opens before the first, cannot open the connection that waits for it
    and the first of the pool is the one whose session is still being opened, the connection is
    put back in the table it is in, then taken from there: it is in no table, and nobody is
    told. *)
Example waiting_connection_is_lost :
  let m := run [(senv 1 0 0 false, X_open_session); (senv 2 20 9 false, connect); (senv 3 0 9 true, X_child 2 SERVER_EVENT_SESSION_OPENED)] (mux_new 2) in
  x_pending m !! 20 = None /\ x_connections m !! 20 = None /\ reports 20 (x_out m) = 0%nat /\
  x_pool m !! 1 = Some US_OPENING_SESSION /\ x_pool m !! 2 = Some US_SESSION_OPENED.
Proof. by vm_compute. Qed.

(** The client closes a connection that waits: nothing happens, and it is opened later. *)
Example closed_connection_is_opened :
  let m := run [(senv 3 0 0 false, X_close_connection 10 false false)] waiting in
  x_pending m !! 10 = x_pending waiting !! 10 /\ x_out m = x_out waiting /\
  x_connections (run [(senv 3 0 0 false, X_child 1 SERVER_EVENT_SESSION_OPENED)] m) !! 10 = Some 1.
Proof. by vm_compute. Qed.

(** The last upstream fails with an error that is not fatal: the session is reported as
    closed, and the code of the error is not passed on. *)
Example soft_error_closes_session :
  let m := run [(senv 1 0 0 false, X_open_session); (senv 1 0 0 false, X_child 1 SERVER_EVENT_SESSION_OPENED);
                (senv 1 0 0 false, X_child 1 (SERVER_EVENT_ERROR NON_ID VPN_EC_ERROR)); (senv 1 0 0 false, X_task)] (mux_new 1) in
  last (x_out m) = Some (P_event SERVER_EVENT_SESSION_CLOSED) /\ ~ In (P_event (SERVER_EVENT_ERROR NON_ID VPN_EC_ERROR)) (x_out m).
Proof. split; [by vm_compute|]. vm_compute. naive_solver. Qed.

(** A connection that is asked for between a fatal error and the task that closes the upstreams
    makes a new one, the task does not close it, and the error is reported when that one ends
    without an error. *)
Example fatal_error_goes_stale :
  let m := run [(senv 2 0 9 false, X_child 1 (SERVER_EVENT_ERROR NON_ID VPN_EC_AUTH_REQUIRED)); (senv 3 30 9 false, connect); (senv 3 0 0 false, X_task)] second in
  x_pool m !! 3 = Some US_OPENING_SESSION /\ x_session_open m = true /\ x_pending_error m = Some VPN_EC_AUTH_REQUIRED /\
  last (x_out (run [(senv 3 0 0 false, X_child 3 SERVER_EVENT_SESSION_OPENED); (senv 3 0 0 false, X_child 3 SERVER_EVENT_SESSION_CLOSED); (senv 3 0 0 false, X_task)] m)) =
    Some (P_event (SERVER_EVENT_ERROR NON_ID VPN_EC_AUTH_REQUIRED)).
Proof. by vm_compute. Qed.
End MuxSample.
Import MuxSample.

(** The upstream whose session is being opened has room. *)
Lemma connections_are_balanced_witness : 0 < x_max_upstreams_num waiting /\ select_upstream_for_connection (senv 3 0 0 false) waiting = 1 /\
  connections_num_by_upstream (senv 3 0 0 false) (select_upstream_for_connection (senv 3 0 0 false) waiting) waiting < NEW_UPSTREAM_CONNECTIONS_NUM_THRESHOLD.
Proof.
  split; [by vm_compute|]. split; [by vm_compute|]. eapply (proj1 (connections_are_balanced (senv 3 0 0 false) waiting _)).
  exists 1. by vm_compute.
  Unshelve. by vm_compute.
Defined.

Lemma multiplexer_tables_agree_witness : x_connections second = ∅ /\ x_session_open second = told_open (x_out second) /\ told_open (x_out second) = true.
Proof. split; [by vm_compute|]. split; [|by vm_compute]. exact (proj2 (proj2 (proj2 (proj2 (multiplexer_tables_agree second second_reachable))))). Defined.

Lemma waiting_connections_are_settled_witness : waits 1 10 waiting = true /\ waits 1 11 waiting = true /\
  settled 10 waiting (child_upstream_handler (senv 2 0 0 false) 1 SERVER_EVENT_SESSION_OPENED waiting) /\
  settled 11 waiting (close_session (senv 2 0 0 false) waiting).
Proof.
  assert (ends_known (senv 2 0 0 false) waiting) as He by (intros v e He; by apply not_elem_of_nil in He).
  split; [by vm_compute|]. split; [by vm_compute|]. split.
  - apply (waiting_connections_are_settled (senv 2 0 0 false) 1 10 waiting waiting_reachable He); [by vm_compute|].
    intros v Hv. assert (x_pool waiting = {[1 := US_OPENING_SESSION]}) as -> by by vm_compute. by rewrite lookup_singleton_ne.
  - apply (waiting_connections_are_settled (senv 2 0 0 false) 1 11 waiting waiting_reachable He). by vm_compute.
Defined.

(** A task of the second session is in the loop when the first one fails. *)
Lemma fatal_error_ends_session_witness :
  let e := senv 3 0 0 false in
  let m := run [(e, X_child 2 SERVER_EVENT_SESSION_CLOSED)] second in
  let m' := run_task e (run_task e (child_upstream_handler e 1 (SERVER_EVENT_ERROR NON_ID VPN_EC_AUTH_REQUIRED) m)) in
  x_pool m !! 1 = Some US_SESSION_OPENED /\ length (x_tasks m) = 1%nat /\
  x_pool m' = ∅ /\ last (x_out m') = Some (P_event (SERVER_EVENT_ERROR NON_ID VPN_EC_AUTH_REQUIRED)).
Proof.
  intros e m m'. split; [by vm_compute|]. split; [by vm_compute|].
  destruct (fatal_error_ends_session e [e; e] 1 VPN_EC_AUTH_REQUIRED m) as (H1 & _ & _ & _ & H2); [|..|by split].
  - apply R_step; [exact second_reachable|]. by apply proper_quiet.
  - intros v x Hx. by apply not_elem_of_nil in Hx.
  - by vm_compute.
  - by vm_compute.
  - by vm_compute.
Defined.
