(* ===== verification/Http2.v ===== *)
(** * The upstream over HTTP/2

    Models [net/src/http2.cpp], the HTTP/2 session over the nghttp2 library, with the headers
    of [net/src/http_header.cpp], and [core/src/http2_upstream.cpp], the session with an endpoint
    whose connections are its streams.  The multiplexers of UDP and of ICMP are those of [UdpMux]
    and [Icmp], the buffers of unread data any [DataBuffer].

    nghttp2 answers a call with a result and with calls of the callbacks while it runs, and the
    callbacks raise events of the upstream, which may call nghttp2 again; [he_depth] is how deep
    the calls nest.  The n-th output asks for the n-th answer.  The handler of the upstream's events
    answers a read with a result, and with the calls that it makes before it returns: those of
    [update_flow_control] and of [close_connection] from the event loop, for the connection that was
    read.  The sockets and the handler of other events do not call back otherwise. *)

From stdpp Require Import gmap.
From S2P Require Import Prelude VpnTypes Wire DataBuffer DomainFilter DomainExtractor UdpMux Icmp Tunnel.

(** ** Headers *)

Record HttpHeaders := mkHeaders {
  hd_has_body : bool;
  hd_status_code : Z;
  hd_path : text;
  hd_method : text;
  hd_scheme : text;
  hd_authority : text;
  hd_fields : list (text * text);
}.
#[export] Instance eta_HttpHeaders : Eta HttpHeaders := fun r =>
  mkHeaders (hd_has_body r) (hd_status_code r) (hd_path r) (hd_method r) (hd_scheme r) (hd_authority r) (hd_fields r).

Definition no_headers : HttpHeaders := mkHeaders false 0 [] [] [] [] [].

Definition ascii_lower (c : Z) : Z := if (65 <=? c) && (c <=? 90) then c + 32 else c.
Definition case_equals (a b : text) : bool := bool_decide (map ascii_lower a = map ascii_lower b).

Definition get_field (name : text) (headers : HttpHeaders) : option text :=
  snd <$> List.find (fun field => case_equals (fst field) name) (hd_fields headers).

(** [to_integer] is that of the common library. *)
Definition put_field (to_integer : text -> option Z) (name value : text) (headers : HttpHeaders) : HttpHeaders :=
  let field := headers <| hd_fields := hd_fields headers ++ [(name, value)] |> in
  if bool_decide (head name = Some 58) then
    if case_equals name (txt ":method") then headers <| hd_method := value |>
    else if case_equals name (txt ":scheme") then headers <| hd_scheme := value |>
    else if case_equals name (txt ":authority") then headers <| hd_authority := value |>
    else if case_equals name (txt ":path") then headers <| hd_path := value |>
    else if case_equals name (txt ":status") then headers <| hd_status_code := default 0 (to_integer value) |>
    else field
  else field.

Definition HTTP_AUTH_REQUIRED_STATUS : Z := 407.
Definition HTTP_STATUS_502_BAD_GATEWAY : Z := 502.
Definition HOST_UNREACHABLE : Z := 301.
Definition CONNECTION_TIMEDOUT : Z := 302.

(** The code of the error. *)
Definition bad_http_response_to_connect_error (to_integer : text -> option Z) (response : HttpHeaders) : Z :=
  if negb (hd_status_code response =? HTTP_STATUS_502_BAD_GATEWAY) then AG_ECONNREFUSED
  else match get_field (txt "X-Adguard-Vpn-Error") response, get_field (txt "X-Warning") response with
       | Some _, _ => AG_ECONNREFUSED
       | None, Some warning =>
           match to_integer warning with
           | Some n => if n =? HOST_UNREACHABLE then AG_ENETUNREACH else if n =? CONNECTION_TIMEDOUT then AG_ETIMEDOUT else AG_ECONNREFUSED
           | None => AG_ECONNREFUSED
           end
       | None, None => AG_ECONNREFUSED
       end.

(** ** The session and the upstream *)

Definition NGHTTP2_NO_ERROR : Z := 0.
Definition NGHTTP2_CANCEL : Z := 8.
Definition NGHTTP2_ERR_BUFFER_ERROR : Z := -502.
Definition NGHTTP2_ERR_INVALID_STREAM_STATE : Z := -514.
Definition NGHTTP2_ERR_INVALID_STATE : Z := -519.
Definition NGHTTP2_ERR_TEMPORAL_CALLBACK_FAILURE : Z := -521.
Definition NGHTTP2_ERR_DEFERRED : Z := -508.
Definition HTTP_SESSION_INVALID_STATE_ERROR : Z := -5.
Definition HTTP_ERROR_AUTH_REQUIRED : Z := 100.
Definition SESSION_LOCAL_WINDOW_SIZE : Z := 8 * 1024 * 1024.
Definition MAX_STREAM_WINDOW_SIZE : Z := 4 * 1024 * 1024.
Definition READ_BUDGET : nat := 512.
Definition UINT32_MAX : Z := 2 ^ 32 - 1.

(** Data that nghttp2 is to send. *)
Record DataSource := mkDataSource { ds_buf : list Z; ds_has_eof : bool; ds_scheduled : bool }.
#[export] Instance eta_DataSource : Eta DataSource := fun r => mkDataSource (ds_buf r) (ds_has_eof r) (ds_scheduled r).

Record HttpStream := mkStream { hs_headers : HttpHeaders; hs_data_source : option DataSource }.
#[export] Instance eta_HttpStream : Eta HttpStream := fun r => mkStream (hs_headers r) (hs_data_source r).

Inductive HttpEvent :=
| HTTP_EVENT_HEADERS (stream_id : Z) (headers : HttpHeaders)
| HTTP_EVENT_DATA (stream_id : Z) (data : list Z)
| HTTP_EVENT_DATA_FINISHED (stream_id : Z)
| HTTP_EVENT_STREAM_PROCESSED (stream_id error_code : Z)
| HTTP_EVENT_DATA_SENT (stream_id length : Z)
| HTTP_EVENT_GOAWAY (error_code : Z)
| HTTP_EVENT_OUTPUT (data : list Z).

(** Functions of nghttp2. *)
Inductive NgCall :=
| NG_submit_settings
| NG_set_local_window_size (stream_id size : Z)
| NG_submit_headers (stream_id : Z) (headers : HttpHeaders)
| NG_submit_data (stream_id : Z)
| NG_resume_data (stream_id : Z)
| NG_submit_rst_stream (stream_id error_code : Z)
| NG_consume_stream (stream_id length : Z)
| NG_consume_connection (length : Z)
| NG_mem_recv (data : list Z)
| NG_session_send
| NG_terminate.

Inductive NgFrame :=
| F_headers (stream_id : Z) (end_headers end_stream : bool)
| F_data (stream_id : Z) (end_stream : bool)
| F_push_promise (stream_id : Z)
| F_goaway (error_code : Z)
| F_window_update (stream_id increment : Z)
| F_other.

(** Callbacks of nghttp2. *)
Inductive NgCallback :=
| CB_begin_headers (stream_id : Z)
| CB_header (stream_id : Z) (name value : text)
| CB_frame_recv (frame : NgFrame)
| CB_data_chunk_recv (stream_id : Z) (data : list Z)
| CB_stream_close (stream_id error_code : Z)
| CB_send (data : list Z)
| CB_data_source_read (stream_id length : Z).

Record NgAnswer := mkNgAnswer { na_result : Z; na_callbacks : list NgCallback }.

Inductive H2Out :=
| P_event (e : ServerEvent)
| P_read (id : Z) (data : list Z) (result : Z)
| P_protect_socket
| N_call (c : NgCall)
| N_returned (r : Z)
| S_write (data : list Z)
| S_set_timeout
| S_read_enabled.

(** What a read from the socket gives. *)
Inductive PeekResult := PR_disabled | PR_no_data | PR_eof | PR_chunk (data : list Z) (drained : bool).

#[local] Existing Instance IcmpMux.eta_Mux.

Section Http2.
Context {E B : Type} `{DataBuffer E B} `{SocketAddressLib}.

Record TcpConnection := mkTcp {
  tc_stream_id : Z;
  TCF_READ_ENABLED : bool;
  TCF_STREAM_CLOSED : bool;
  TCF_CLIENT_CLOSED : bool;
  tc_unread_data : option B;
  tc_complete_read_task : bool;
  tc_pending_error : option Z;
  tc_close_task : option bool;
}.
#[export] Instance eta_TcpConnection : Eta TcpConnection := fun r =>
  mkTcp (tc_stream_id r) (TCF_READ_ENABLED r) (TCF_STREAM_CLOSED r) (TCF_CLIENT_CLOSED r) (tc_unread_data r) (tc_complete_read_task r)
    (tc_pending_error r) (tc_close_task r).

Record HealthCheckInfo := mkHealthCheck { hc_stream_id : Z; hc_error : Z; hc_need_result : bool }.

(** [h_session] is the pointer to the session, [h_streams] the session; [h_busy] counts the
    calls of nghttp2 that have not returned. *)
Record Http2Upstream := mkHttp2 {
  h_session : bool;
  h_streams : option (gmap Z HttpStream);
  h_busy : nat;
  h_socket : bool;
  h_in_handler : nat;
  h_closed : bool;
  h_closing : bool;
  h_cert_verify_failed : bool;
  h_pending_session_error : option Z;
  h_tcp_connections : gmap Z TcpConnection;
  h_conn_id_by_stream_id : gmap Z Z;
  h_udp_mux : UdpMux.Mux;
  h_icmp_mux : IcmpMux.Mux;
  h_health_check_info : option HealthCheckInfo;
  h_last_inbound : option Z;
  h_streams_to_reset : list Z;
  h_next_stream_id : Z;
  h_out : list H2Out;
  h_faults : list string;
}.
#[export] Instance eta_Http2Upstream : Eta Http2Upstream := fun r =>
  mkHttp2 (h_session r) (h_streams r) (h_busy r) (h_socket r) (h_in_handler r) (h_closed r) (h_closing r) (h_cert_verify_failed r)
    (h_pending_session_error r) (h_tcp_connections r) (h_conn_id_by_stream_id r) (h_udp_mux r) (h_icmp_mux r) (h_health_check_info r)
    (h_last_inbound r) (h_streams_to_reset r) (h_next_stream_id r) (h_out r) (h_faults r).

Definition http2_new : Http2Upstream :=
  mkHttp2 false None 0 false 0 false false false None ∅ ∅ UdpMux.mux_new IcmpMux.new None None [] 1 [] [].

(** What the rest answers during a step. *)
Record ReadAnswer := mkReadAnswer { ra_result : Z; ra_calls : list ReadCall }.

Record H2Env := mkH2Env {
  he_depth : nat;
  he_nghttp2 : nat -> NgCall -> NgAnswer;
  he_want_write : nat -> bool;
  he_stream : Z -> option bool;
  he_remote_window : Z -> Z;
  he_local_window : Z -> Z;
  he_evbuffer_add : bool;
  he_kh_put : Z;
  he_session_init : bool;
  he_read : nat -> ReadAnswer;
  he_write : nat -> bool * bool;
  he_socket_room : Z;
  he_alpn : text;
  he_handed_off : option bool;
  he_socket_create : bool;
  he_make_ssl : bool;
  he_connect : bool;
  he_order : list Z;
  he_order_udp : list Z;
  he_order_streams : list Z;
  he_buf : E;
  he_make_buffer : Z -> B;
  he_buffer_init : bool;
  he_to_integer : text -> option Z;
  he_authority : TunnelAddress -> text;
  he_user_agent : text -> text;
  he_credentials : text;
  he_now : Z;
  he_health_check_timeout : Z;
  he_timeout : Z;
}.

Context (env : H2Env).
Implicit Types (h : Http2Upstream) (id : Z).

Definition emit (o : H2Out) h : Http2Upstream := h <| h_out := h_out h ++ [o] |>.
Definition raise (e : ServerEvent) : Http2Upstream -> Http2Upstream := emit (P_event e).
Definition fault (what : string) h : Http2Upstream := h <| h_faults := h_faults h ++ [what] |>.
Definition now_at h : nat := length (h_out h).

Definition set_connection id (c : TcpConnection) h : Http2Upstream := h <| h_tcp_connections := <[id := c]> (h_tcp_connections h) |>.
Definition update_connection id (f : TcpConnection -> TcpConnection) h : Http2Upstream :=
  match h_tcp_connections h !! id with Some c => set_connection id (f c) h | None => h end.
Definition conn_ids h : list Z := in_table_order (he_order env) (map fst (map_to_list (h_tcp_connections h))).
Definition for_ids (xs : list Z) (f : Z -> Http2Upstream -> Http2Upstream) h : Http2Upstream := fold_left (fun h x => f x h) xs h.

(** ** The session *)

Section Session.
Context (ng : NgCall -> Http2Upstream -> Z * Http2Upstream).

(** The code dereferences the pointer to the session. *)
Definition need_session h : Http2Upstream := if h_session h then h else fault "no session" h.
Definition stream_of (stream_id : Z) h : option HttpStream := streams ← h_streams h; streams !! stream_id.
Definition put_stream (stream_id : Z) (s : HttpStream) h : Http2Upstream :=
  match h_streams h with Some streams => h <| h_streams := Some (<[stream_id := s]> streams) |> | None => fault "no session" h end.
Definition drop_stream (stream_id : Z) h : Http2Upstream :=
  match h_streams h with Some streams => h <| h_streams := Some (delete stream_id streams) |> | None => fault "no session" h end.

Definition new_stream : HttpStream := mkStream no_headers None.

Definition http_session_send_settings h : Z * Http2Upstream :=
  let h := need_session h in
  let '(r, h) := ng NG_submit_settings h in
  if negb (r =? 0) then (r, h)
  else
    let '(r, h) := ng (NG_set_local_window_size 0 SESSION_LOCAL_WINDOW_SIZE) h in
    if negb (r =? 0) then (r, h) else ng NG_session_send h.

Definition http2_session_send_headers (stream_id : Z) (headers : HttpHeaders) h : Z * Http2Upstream :=
  let h := need_session h in
  let h := if bool_decide (hd_method headers = []) then h
           else match stream_of stream_id h with Some _ => h | None => put_stream stream_id new_stream h end in
  let '(_, h) := ng (NG_submit_headers stream_id headers) h in
  ng NG_session_send h.

Definition data_source_add (stream_id : Z) (s : HttpStream) (data : list Z) (eof : bool) h : Z * Http2Upstream :=
  let source := default (mkDataSource [] false false) (hs_data_source s) in
  let source := source <| ds_has_eof := ds_has_eof source || eof |> in
  if he_evbuffer_add env
  then (0, put_stream stream_id (s <| hs_data_source := Some (source <| ds_buf := ds_buf source ++ data |>) |>) h)
  else (-1, put_stream stream_id (s <| hs_data_source := Some source |>) h).

Definition data_source_schedule_send (stream_id : Z) h : Z * Http2Upstream :=
  match stream_of stream_id h with
  | Some s =>
      match hs_data_source s with
      | Some source =>
          if ds_scheduled source then
            match he_stream env stream_id with
            | None => (NGHTTP2_ERR_INVALID_STREAM_STATE, h)
            | Some deferred => if deferred then ng (NG_resume_data stream_id) h else (0, h)
            end
          else
            let '(rv, h) := ng (NG_submit_data stream_id) h in
            (rv, match stream_of stream_id h with
                 | Some s => put_stream stream_id (s <| hs_data_source := (fun source => source <| ds_scheduled := true |>) <$> hs_data_source s |>) h
                 | None => fault "no stream" h
                 end)
      | None => (0, fault "no data source" h)
      end
  | None => (0, fault "no stream" h)
  end.

Definition http2_session_send_data (stream_id : Z) (data : list Z) (eof : bool) h : Z * Http2Upstream :=
  let h := need_session h in
  match stream_of stream_id h with
  | None => (NGHTTP2_ERR_INVALID_STREAM_STATE, h)
  | Some s =>
      let '(rv, h) := data_source_add stream_id s data eof h in
      if negb (rv =? 0) then (rv, h)
      else
        let '(rv, h) := data_source_schedule_send stream_id h in
        if negb (rv =? 0) then (rv, h) else ng NG_session_send h
  end.

Definition http_session_reset_stream (stream_id error_code : Z) h : Z * Http2Upstream :=
  let h := need_session h in
  let '(r, h) := ng (NG_submit_rst_stream stream_id error_code) h in
  if negb (r =? 0) then (r, h) else ng NG_session_send h.

Definition http_session_data_consume (stream_id length : Z) h : Z * Http2Upstream :=
  let h := need_session h in
  let '(r, h) := ng (NG_consume_stream stream_id length) h in
  if r =? 0 then ng NG_session_send h else (r, h).

Definition http_session_set_recv_window (stream_id size : Z) h : Z * Http2Upstream :=
  let h := need_session h in
  let new_window := Z.min (Z.max (he_local_window env stream_id) (if 2 ^ 31 - 1 <? size then 2 ^ 31 - 1 else size)) MAX_STREAM_WINDOW_SIZE in
  let '(r, h) := ng (NG_set_local_window_size stream_id new_window) h in
  if r =? 0 then ng NG_session_send h else (r, h).

Definition http2_session_input (data : list Z) h : Z * Http2Upstream :=
  let h := need_session h in
  let '(r, h) := ng (NG_mem_recv data) h in
  if r <? 0 then (r, h)
  else if he_want_write env (now_at h) then let '(_, h) := ng NG_session_send h in (r, h)
  else (r, h).

Definition http_session_available_to_write (stream_id : Z) h : Z * Http2Upstream :=
  let h := need_session h in
  let r := he_remote_window env stream_id in
  (if 0 <? r then r else 0, h).

Definition close_stream (processed : Z -> Z -> Http2Upstream -> Http2Upstream) (stream_id error_code : Z) h : Http2Upstream :=
  match stream_of stream_id h with
  | Some _ => drop_stream stream_id (processed stream_id error_code h)
  | None => h
  end.

(** The pointer is null already. *)
Definition http2_session_close (processed : Z -> Z -> Http2Upstream -> Http2Upstream) h : Http2Upstream :=
  let h := if (0 <? h_busy h)%nat then fault "session is destroyed while it runs" h else h in
  let '(_, h) := ng NG_terminate h in
  let '(_, h) := ng NG_session_send h in
  let leftover := in_table_order (he_order_streams env) (map fst (map_to_list (default ∅ (h_streams h)))) in
  let h := for_ids leftover (fun s => close_stream processed s HTTP_SESSION_INVALID_STATE_ERROR) h in
  h <| h_streams := None |>.
End Session.

(** ** Connections *)

Section Upstream.
Context (ng : NgCall -> Http2Upstream -> Z * Http2Upstream).

(** The multiplexer of UDP raises events of the upstream. *)
Definition udp_event (o : UdpMux.Out) : list H2Out :=
  match o with
  | SERVER_CONNECTION_OPENED id => [P_event (SERVER_EVENT_CONNECTION_OPENED id)]
  | SERVER_CONNECTION_CLOSED id => [P_event (SERVER_EVENT_CONNECTION_CLOSED id)]
  | SERVER_ERROR id error => [P_event (SERVER_EVENT_ERROR id (code error))]
  | SERVER_READ id data => [P_event (SERVER_EVENT_READ id data)]
  | SERVER_DATA_SENT id length => [P_event (SERVER_EVENT_DATA_SENT id length)]
  | UdpMux.CONNECT_REQUEST _ | UdpMux.SEND_DATA _ _ | UdpMux.CONSUME _ _ => []
  end.
Definition put_udp (m : UdpMux.Mux) h : Http2Upstream :=
  h <| h_udp_mux := m <| UdpMux.m_out := [] |> |> <| h_out := h_out h ++ flat_map udp_event (UdpMux.m_out m) |>.

Definition icmp_event (o : IcmpMux.Out) : list H2Out :=
  match o with IcmpMux.SERVER_ECHO_REPLY reply => [P_event (SERVER_EVENT_ECHO_REPLY reply)] | _ => [] end.
Definition put_icmp (m : IcmpMux.Mux) h : Http2Upstream :=
  h <| h_icmp_mux := m <| IcmpMux.m_out := [] |> |> <| h_out := h_out h ++ flat_map icmp_event (IcmpMux.m_out m) |>.

Definition udp_env (connect : option Z) (sent : bool) : UdpMux.Env := UdpMux.mkEnv (he_now env) connect sent AG_ECONNREFUSED (fun _ => []).
(** The handler of the datagrams that are read. *)
Definition udp_read_env h : UdpMux.Env :=
  UdpMux.mkEnv (he_now env) None false AG_ECONNREFUSED (fun reads => ra_calls (he_read env (now_at h + length reads))).

(** The id, and the connection if it is still there. *)
Definition get_conn_by_stream_id (stream_id : Z) h : option (Z * TcpConnection) :=
  id ← h_conn_id_by_stream_id h !! stream_id; c ← h_tcp_connections h !! id; Some (id, c).

Definition clean_tcp_connection_data id h : Http2Upstream :=
  match h_tcp_connections h !! id with
  | Some c => h <| h_conn_id_by_stream_id := delete (tc_stream_id c) (h_conn_id_by_stream_id h) |>
                <| h_tcp_connections := delete id (h_tcp_connections h) |>
  | None => h
  end.

Definition close_tcp_connection id (graceful : bool) h : Http2Upstream :=
  match h_tcp_connections h !! id with
  | Some c =>
      if h_session h then
        if negb (TCF_STREAM_CLOSED c) then
          let h := set_connection id (c <| TCF_CLIENT_CLOSED := true |>) h in
          snd (http_session_reset_stream ng (tc_stream_id c) (if graceful then NGHTTP2_NO_ERROR else NGHTTP2_CANCEL) h)
        else clean_tcp_connection_data id (raise (SERVER_EVENT_CONNECTION_CLOSED id) h)
      else clean_tcp_connection_data id h
  | None => h
  end.

Definition close_connection id (graceful async : bool) h : Http2Upstream :=
  if UdpMux.check_connection id (h_udp_mux h) then
    put_udp ((if async then UdpMux.close_connection_async else UdpMux.close_connection) id (h_udp_mux h)) h
  else match h_tcp_connections h !! id with
       | None => raise (SERVER_EVENT_CONNECTION_CLOSED id) h
       | Some c => if async then set_connection id (c <| tc_close_task := Some graceful |>) h else close_tcp_connection id graceful h
       end.

(** The task of [close_connection]. *)
Definition close_task id h : Http2Upstream :=
  match h_tcp_connections h !! id with
  | Some c =>
      match tc_close_task c with
      | Some graceful => close_tcp_connection id graceful (set_connection id (c <| tc_close_task := None |>) h)
      | None => h
      end
  | None => h
  end.

Definition update_flow_control id (send_buffer_size send_window_size : Z) h : Http2Upstream :=
  match h_tcp_connections h !! id with
  | Some c =>
      let h := set_connection id (c <| TCF_READ_ENABLED := 0 <? send_buffer_size |>) h in
      let h := if TCF_STREAM_CLOSED c then h else snd (http_session_set_recv_window ng (tc_stream_id c) send_window_size h) in
      match h_tcp_connections h !! id with
      | None => fault "connection is gone" h
      | Some c =>
          if TCF_READ_ENABLED c && negb (tc_complete_read_task c)
             && match tc_unread_data c with Some b => 0 <? buf_size (he_buf env) b | None => false end
          then set_connection id (c <| tc_complete_read_task := true |>) h
          else h
      end
  | None =>
      if UdpMux.check_connection id (h_udp_mux h) then put_udp (UdpMux.set_read_enabled id (0 <? send_buffer_size) (h_udp_mux h)) h
      else h
  end.

(** What the handler calls before it returns. *)
Definition read_call id h (c : ReadCall) : Http2Upstream :=
  match c with
  | CALL_update_flow_control send_buffer_size send_window_size => update_flow_control id send_buffer_size send_window_size h
  | CALL_close_connection graceful => close_connection id graceful true h
  end.

Definition handle_read id (data : list Z) h : Z * Http2Upstream :=
  let answer := he_read env (now_at h) in
  let result := ra_result answer in
  let h := emit (P_read id data result) h in
  let h := fold_left (read_call id) (ra_calls answer) h in
  (result, if result <? 0 then close_tcp_connection id false h else h).

(** *** The end of the session *)

Definition health_check_busy_skip_max_age_ms (health_check_timeout_ms endpoint_timeout_ms : Z) : Z :=
  Z.min (Z.max 1 health_check_timeout_ms) (Z.max 1 endpoint_timeout_ms).
Definition should_skip_health_check_probe (age_ms : option Z) (max_age_ms : Z) : bool :=
  match age_ms with Some age => age <? max_age_ms | None => false end.
Definition max_age_ms : Z := health_check_busy_skip_max_age_ms (he_health_check_timeout env) (he_timeout env).
Definition inbound_age h : option Z := last ← h_last_inbound h; if last <=? he_now env then Some (he_now env - last) else None.

Definition report_health_check_error (need_result : bool) (error : Z) h : Http2Upstream :=
  if need_result then raise SERVER_EVENT_HEALTH_CHECK_ERROR h
  else if negb (bool_decide (h_tcp_connections h = ∅)) then h
  else match inbound_age h with
       | Some age => if age <=? max_age_ms then h else raise (SERVER_EVENT_ERROR NON_ID error) h
       | None => raise (SERVER_EVENT_ERROR NON_ID error) h
       end.

(** A stream that is a connection. *)
Definition connection_processed (stream_id error_code : Z) h : Http2Upstream :=
  match get_conn_by_stream_id stream_id h with
  | None => h
  | Some (id, c) =>
      let c := c <| TCF_STREAM_CLOSED := true |> in
      let h := set_connection id c h in
      let error := match tc_pending_error c with
                   | Some e => Some e
                   | None => if error_code =? NGHTTP2_NO_ERROR then None else Some AG_ECONNREFUSED
                   end in
      match error with
      | Some e => clean_tcp_connection_data id (raise (SERVER_EVENT_ERROR id e) h)
      | None =>
          if TCF_CLIENT_CLOSED c || match tc_unread_data c with None => true | Some b => buf_size (he_buf env) b =? 0 end
          then clean_tcp_connection_data id (raise (SERVER_EVENT_CONNECTION_CLOSED id) h)
          else h
      end
  end.

Definition stream_processed (stream_id error_code : Z) h : Http2Upstream :=
  if bool_decide (UdpMux.get_stream_id (h_udp_mux h) = Some stream_id) then
    put_udp (UdpMux.close (he_order_udp env) (mkVpnError error_code None) (h_udp_mux h)) h
  else if bool_decide (IcmpMux.get_stream_id (h_icmp_mux h) = Some stream_id) then put_icmp (IcmpMux.close (h_icmp_mux h)) h
  else match h_health_check_info h with
       | Some info =>
           if hc_stream_id info =? stream_id then
             let h := h <| h_health_check_info := None |> in
             if h_closing h then h
             else
               let error := if (hc_error info =? 0) && negb (error_code =? NGHTTP2_NO_ERROR) then VPN_EC_ERROR else hc_error info in
               if negb (error =? 0) then report_health_check_error (hc_need_result info) error h else h
           else connection_processed stream_id error_code h
       | None => connection_processed stream_id error_code h
       end.

Definition close_session h : Http2Upstream :=
  if negb (h_socket h) && negb (h_session h) && bool_decide (h_tcp_connections h = ∅) then h
  else
    let h := h <| h_closing := true |> in
    let h := for_ids (conn_ids h) (fun id => close_connection id false false) h in
    let reset (id : option Z) h := match id with Some s => snd (http_session_reset_stream ng s NGHTTP2_CANCEL h) | None => h end in
    let h := reset (UdpMux.get_stream_id (h_udp_mux h)) h in
    let h := reset (IcmpMux.get_stream_id (h_icmp_mux h)) h in
    let h := if h_session h then http2_session_close ng stream_processed (h <| h_session := false |>) else h in
    let h := h <| h_socket := false |> <| h_tcp_connections := ∅ |> <| h_conn_id_by_stream_id := ∅ |> in
    let h := put_udp (UdpMux.close (he_order_udp env) no_error (h_udp_mux h)) h in
    let h := put_icmp (IcmpMux.close (h_icmp_mux h)) h in
    h <| h_next_stream_id := 1 |> <| h_health_check_info := None |> <| h_closing := false |>.

Definition close_session_inner (error : option Z) h : Http2Upstream :=
  if (0 <? h_in_handler h)%nat then h <| h_closed := true |> <| h_pending_session_error := error |>
  else
    let h := close_session h in
    match error with
    | Some code => raise (SERVER_EVENT_ERROR NON_ID code) h
    | None => raise SERVER_EVENT_SESSION_CLOSED h
    end.

(** *** Requests *)

Definition make_http_connect_request (dst_addr : TunnelAddress) (app_name : text) : HttpHeaders :=
  no_headers <| hd_method := txt "CONNECT" |> <| hd_authority := he_authority env dst_addr |>
    <| hd_fields := [(txt "user-agent", he_user_agent env (if bool_decide (app_name = []) then txt "unknown" else app_name));
                     (txt "proxy-authorization", txt "Basic " ++ he_credentials env)] |>.

Definition send_connect_request (dst_addr : TunnelAddress) (app_name : text) h : option Z * Http2Upstream :=
  if negb (h_session h) then (None, h)
  else
    let stream_id := uwrap 32 (h_next_stream_id h) in
    let h := h <| h_next_stream_id := uwrap 64 (h_next_stream_id h + 2) |> in
    let '(r, h) := http2_session_send_headers ng stream_id (make_http_connect_request dst_addr app_name) h in
    (if r =? 0 then Some stream_id else None, h).

(** The callbacks of the multiplexers. *)
Definition send_data_callback (stream_id : Z) (data : list Z) h : bool * Http2Upstream :=
  let '(r, h) := http2_session_send_data ng stream_id data false h in (r =? 0, h).
Definition consume_callback (stream_id size : Z) h : Http2Upstream := snd (http_session_data_consume ng stream_id size h).

(** The multiplexer of UDP sends its request before it stores the connection. *)
Definition udp_open_connection id (addr : TunnelAddressPair) (app_name : text) h : bool * Http2Upstream :=
  let asks := match UdpMux.m_state (h_udp_mux h), tap_dst addr, UdpMux.m_connections (h_udp_mux h) !! id with
              | UdpMux.MS_IDLE, TA_address _, None => true
              | _, _, _ => false
              end in
  let '(ok, h) :=
    if asks then
      let '(connect, h) := send_connect_request (TA_name (txt "_udp2") 0) (txt "_udp2") h in
      let '(ok, m) := UdpMux.open_stream (udp_env connect false) (h_udp_mux h) in (ok, put_udp m h)
    else (true, h) in
  if negb ok then (false, h)
  else let '(ok, m) := UdpMux.open_connection (udp_env None false) id addr app_name (h_udp_mux h) in (ok, put_udp m h).

Definition udp_packets (outs : list UdpMux.Out) : list (Z * list Z) :=
  flat_map (fun o => match o with UdpMux.SEND_DATA s data => [(s, data)] | _ => [] end) outs.

(** It looks at the connection again after the packet was sent. *)
Definition udp_send id (data : list Z) h : Z * Http2Upstream :=
  let '(sent, h) :=
    fold_left (fun '(_, h) '(s, packet) => send_data_callback s packet h)
      (udp_packets (UdpMux.m_out (snd (UdpMux.send (udp_env None true) id data (h_udp_mux h))))) (false, h) in
  let h := if UdpMux.check_connection id (h_udp_mux h) then h else fault "connection is gone" h in
  let '(r, m) := UdpMux.send (udp_env None sent) id data (h_udp_mux h) in (r, put_udp m h).

Definition udp_process_read_event (data : list Z) h : Z * Http2Upstream :=
  let m := UdpMux.process_read_event (udp_read_env h) data (h_udp_mux h) in
  (0, fold_left (fun h o => match o with UdpMux.CONSUME s size => consume_callback s size h | _ => h end) (UdpMux.m_out m) (put_udp m h)).

Definition icmp_process_read_event (data : list Z) h : Z * Http2Upstream :=
  let m := IcmpMux.process_read_event data (h_icmp_mux h) in
  (0, fold_left (fun h o => match o with IcmpMux.CONSUME s size => consume_callback s size h | _ => h end) (IcmpMux.m_out m) (put_icmp m h)).

Definition icmp_open_stream h : bool * Http2Upstream :=
  let '(connect, h) := send_connect_request (TA_name (txt "_icmp") 0) (txt "_icmp") h in
  let '(ok, m) := IcmpMux.open_stream (IcmpMux.mkEnv connect false false) (h_icmp_mux h) in (ok, put_icmp m h).

Definition icmp_send_request_established (request : IcmpEchoRequest) h : bool * Http2Upstream :=
  match IcmpMux.m_stream_id (h_icmp_mux h) with
  | Some s => send_data_callback s (writer_buffer (IcmpMux.compose_request request)) h
  | None => (false, fault "bad optional access" h)
  end.

Definition icmp_send_request (request : IcmpEchoRequest) h : bool * Http2Upstream :=
  match IcmpMux.m_state (h_icmp_mux h) with
  | IcmpMux.MS_IDLE =>
      let '(ok, h) := icmp_open_stream h in
      if negb ok then (false, h) else icmp_send_request_established request h
  | IcmpMux.MS_ESTABLISHED =>
      let '(ok, h) := icmp_send_request_established request h in
      if ok : bool then (true, h)
      else
        let '(ok, h) := icmp_open_stream (put_icmp (IcmpMux.close (h_icmp_mux h)) h) in
        if negb ok then (false, h) else icmp_send_request_established request h
  end.

(** ** Events of the session *)

Definition handle_response (stream_id : Z) (headers : HttpHeaders) h : Http2Upstream :=
  if hd_status_code headers =? HTTP_AUTH_REQUIRED_STATUS then close_session_inner (Some VPN_EC_AUTH_REQUIRED) h
  else if bool_decide (UdpMux.get_stream_id (h_udp_mux h) = Some stream_id) then
    put_udp (UdpMux.handle_response (udp_env None false) (hd_status_code headers) (h_udp_mux h)) h
  else if bool_decide (IcmpMux.get_stream_id (h_icmp_mux h) = Some stream_id) then put_icmp (IcmpMux.handle_response (h_icmp_mux h)) h
  else
    let connection_response h :=
      match get_conn_by_stream_id stream_id h with
      | None => h <| h_streams_to_reset := h_streams_to_reset h ++ [stream_id] |>
      | Some (id, c) =>
          if hd_status_code headers =? HTTP_OK_STATUS then raise (SERVER_EVENT_CONNECTION_OPENED id) h
          else set_connection id (c <| tc_pending_error := Some (bad_http_response_to_connect_error (he_to_integer env) headers) |>) h
      end in
    match h_health_check_info h with
    | Some info =>
        if hc_stream_id info =? stream_id then
          if hd_status_code headers =? HTTP_OK_STATUS then h
          else h <| h_health_check_info := Some (mkHealthCheck (hc_stream_id info) VPN_EC_ERROR (hc_need_result info)) |>
        else connection_response h
    | None => connection_response h
    end.

(** The loop over the buffered data: a turn takes some of them. *)
Fixpoint read_out_loop (fuel : nat) id h : Z * Http2Upstream :=
  match h_tcp_connections h !! id with
  | Some c =>
      match tc_unread_data c with
      | Some b =>
          if TCF_READ_ENABLED c && (0 <? buf_size (he_buf env) b) then
            match fuel with
            | O => (0, fault "out of fuel" h)
            | S fuel =>
                let '(err, data, b) := buf_peek (he_buf env) b in
                let h := set_connection id (c <| tc_unread_data := Some b |>) h in
                match err with
                | Some _ => (-1, h)
                | None =>
                    let '(r, h) := handle_read id data h in
                    if 0 <? r then
                      read_out_loop fuel id (update_connection id (fun c => c <| tc_unread_data := buf_drain (he_buf env) r <$> tc_unread_data c |>) h)
                    else if r <? 0 then (r, h)
                    else (0, h)
                end
            end
          else (0, h)
      | None => (0, fault "no buffer" h)
      end
  | None => (0, fault "connection is gone" h)
  end.

(** The code dereferences the pointer to the connection. *)
Definition need_connection id h : Http2Upstream :=
  match h_tcp_connections h !! id with Some _ => h | None => fault "connection is gone" h end.

(** An empty buffer is released. *)
Definition release_buffer id h : Http2Upstream :=
  update_connection id (fun c =>
    match tc_unread_data c with
    | Some b => if buf_size (he_buf env) b =? 0 then c <| tc_unread_data := None |> else c
    | None => c
    end) (need_connection id h).

Definition read_out_pending_data id h : Z * Http2Upstream :=
  match h_tcp_connections h !! id with
  | Some c =>
      match tc_unread_data c with
      | None => (0, h)
      | Some b =>
          let '(r, h) := read_out_loop (Z.to_nat (buf_size (he_buf env) b)) id h in
          if r <? 0 then (r, h) else (0, release_buffer id h)
      end
  | None => (0, fault "connection is gone" h)
  end.

(** [pending] is the buffer that there was before anything was read: if it has been released
    since, it is written to nevertheless. *)
Definition keep_unread id (pending : bool) (unread : list Z) h : Z * Http2Upstream :=
  match h_tcp_connections h !! id with
  | None => (0, fault "connection is gone" h)
  | Some c =>
      let push b h :=
        let '(err, b) := buf_push (he_buf env) unread b in
        (match err with Some _ => -1 | None => 0 end, set_connection id (c <| tc_unread_data := Some b |>) h) in
      if pending then
        match tc_unread_data c with
        | Some b => push b h
        | None => (0, fault "buffer is gone" h)
        end
      else
        let b := he_make_buffer env id in
        if he_buffer_init env then push b h else (-1, set_connection id (c <| tc_unread_data := Some b |>) h)
  end.

(** What the code asserts not to be so when it passes new data on. *)
Definition unread_left id h : bool :=
  match h_tcp_connections h !! id with
  | Some c => match tc_unread_data c with Some b => negb (buf_size (he_buf env) b =? 0) | None => false end
  | None => false
  end.

Definition handle_data (stream_id : Z) (data : list Z) h : Z * Http2Upstream :=
  if bool_decide (UdpMux.get_stream_id (h_udp_mux h) = Some stream_id) then udp_process_read_event data h
  else if bool_decide (IcmpMux.get_stream_id (h_icmp_mux h) = Some stream_id) then icmp_process_read_event data h
  else match get_conn_by_stream_id stream_id h with
       | None => (zlen data, h)
       | Some (id, c) =>
           let pending := match tc_unread_data c with Some _ => true | None => false end in
           let '(r, h) := if pending then read_out_pending_data id h else (0, h) in
           if r <? 0 then (r, h)
           else
             let h := need_connection id h in
             let enabled := match h_tcp_connections h !! id with Some c => TCF_READ_ENABLED c | None => false end in
             let h := if enabled && unread_left id h then fault "unread data is kept" h else h in
             let '(r, h) := if enabled then handle_read id data h else (0, h) in
             if r <? 0 then (r, h)
             else if r <? zlen data then keep_unread id pending (drop (Z.to_nat r) data) h
             else (0, h)
       end.

(** *** The socket takes data *)

Definition write_flush h : Http2Upstream :=
  let h := for_ids (conn_ids h) (fun id => raise (SERVER_EVENT_DATA_SENT id 0)) h in
  match UdpMux.get_stream_id (h_udp_mux h) with
  | Some s =>
      let '(room, h) := http_session_available_to_write s h in
      if 0 <? room then put_udp (UdpMux.report_sent_bytes (he_order_udp env) (h_udp_mux h)) h else h
  | None => h
  end.

Definition enter_handler h : Http2Upstream := h <| h_in_handler := S (h_in_handler h) |>.
Definition leave_handler h : Http2Upstream :=
  let h := h <| h_in_handler := pred (h_in_handler h) |> in
  if h_closed h then close_session_inner (h_pending_session_error h) (h <| h_closed := false |> <| h_pending_session_error := None |>) else h.

(** The socket may report that everything was sent before the write returns. *)
Definition tcp_socket_write (data : list Z) h : bool * Http2Upstream :=
  let '(ok, flushed) := he_write env (now_at h) in
  let h := emit (S_write data) h in
  (ok, if flushed : bool then leave_handler (write_flush (enter_handler h)) else h).

Definition http_handler (what : HttpEvent) h : Z * Http2Upstream :=
  match what with
  | HTTP_EVENT_HEADERS stream_id headers => (0, handle_response stream_id headers h)
  | HTTP_EVENT_DATA stream_id data => handle_data stream_id data h
  | HTTP_EVENT_DATA_FINISHED stream_id => (0, snd (http2_session_send_data ng stream_id [] true h))
  | HTTP_EVENT_STREAM_PROCESSED stream_id error_code => (0, stream_processed stream_id error_code h)
  | HTTP_EVENT_DATA_SENT stream_id length =>
      (0, if bool_decide (UdpMux.get_stream_id (h_udp_mux h) = Some stream_id) then h
          else match get_conn_by_stream_id stream_id h with
               | Some (id, _) => raise (SERVER_EVENT_DATA_SENT id length) h
               | None => h
               end)
  | HTTP_EVENT_GOAWAY error_code =>
      (0, close_session_inner (if error_code =? NGHTTP2_NO_ERROR then None
                                  else if error_code =? HTTP_ERROR_AUTH_REQUIRED then Some VPN_EC_AUTH_REQUIRED else Some VPN_EC_ERROR) h)
  | HTTP_EVENT_OUTPUT data =>
      let '(ok, h) := tcp_socket_write data h in
      (0, if ok : bool then h else close_session_inner (Some VPN_EC_ERROR) h)
  end.

(** ** Callbacks of nghttp2 *)

Definition on_begin_headers_callback (stream_id : Z) h : Http2Upstream :=
  match stream_of stream_id h with
  | Some s => emit (N_returned 0) (put_stream stream_id (s <| hs_headers := no_headers |>) h)
  | None => emit (N_returned (he_kh_put env)) (put_stream stream_id new_stream h)
  end.

Definition on_header_callback (stream_id : Z) (name value : text) h : Http2Upstream :=
  match stream_of stream_id h with
  | Some s => emit (N_returned 0) (put_stream stream_id (s <| hs_headers := put_field (he_to_integer env) name value (hs_headers s) |>) h)
  | None => emit (N_returned NGHTTP2_ERR_TEMPORAL_CALLBACK_FAILURE) h
  end.

Definition on_send_callback (data : list Z) h : Http2Upstream := snd (http_handler (HTTP_EVENT_OUTPUT data) h).

Definition on_end_headers (stream_id : Z) (end_stream : bool) (s : HttpStream) h : Http2Upstream :=
  let headers := (hs_headers s) <| hd_has_body := negb end_stream |> in
  snd (http_handler (HTTP_EVENT_HEADERS stream_id headers) (put_stream stream_id (s <| hs_headers := headers |>) h)).

Definition on_end_stream (stream_id : Z) h : Http2Upstream := snd (http_handler (HTTP_EVENT_DATA_FINISHED stream_id) h).

Definition on_frame_recv_callback (frame : NgFrame) h : Http2Upstream :=
  let h :=
    match frame with
    | F_headers stream_id end_headers end_stream =>
        let h := match stream_of stream_id h with Some s => if end_headers then on_end_headers stream_id end_stream s h else h | None => h end in
        match stream_of stream_id h with Some _ => if end_stream then on_end_stream stream_id h else h | None => h end
    | F_data stream_id end_stream =>
        match stream_of stream_id h with Some _ => if end_stream then on_end_stream stream_id h else h | None => h end
    | F_push_promise stream_id =>
        match stream_of stream_id h with Some s => put_stream stream_id (s <| hs_headers := no_headers |>) h | None => h end
    | F_goaway error_code => snd (http_handler (HTTP_EVENT_GOAWAY error_code) h)
    | F_window_update stream_id increment =>
        if negb (stream_id =? 0) && (0 <? increment) then snd (http_handler (HTTP_EVENT_DATA_SENT stream_id 0) h) else h
    | F_other => h
    end in
  if he_want_write env (now_at h) then snd (ng NG_session_send h) else h.

(** Nothing sets the flag by which the data would be decompressed. *)
Definition on_data_chunk_recv_callback (stream_id : Z) (data : list Z) h : Http2Upstream :=
  let '(r, h) := match stream_of stream_id h with
                 | Some _ => http_handler (HTTP_EVENT_DATA stream_id data) h
                 | None => (NGHTTP2_ERR_INVALID_STATE, h)
                 end in
  emit (N_returned r) (snd (ng (NG_consume_connection (zlen data)) h)).

Definition on_stream_close_callback (stream_id error_code : Z) h : Http2Upstream :=
  match stream_of stream_id h with
  | Some _ => emit (N_returned 0) (close_stream stream_processed stream_id error_code h)
  | None => emit (N_returned NGHTTP2_ERR_INVALID_STATE) h
  end.

Definition data_source_readcb (stream_id length : Z) h : Http2Upstream :=
  match s ← stream_of stream_id h; source ← hs_data_source s; Some (s, source) with
  | None => fault "no data source" h
  | Some (s, source) =>
      if negb (ds_has_eof source) && bool_decide (ds_buf source = []) then emit (N_returned NGHTTP2_ERR_DEFERRED) h
      else
        let n := Z.min length (zlen (ds_buf source)) in
        let h := put_stream stream_id (s <| hs_data_source := Some (source <| ds_buf := drop (Z.to_nat n) (ds_buf source) |>) |>) h in
        emit (N_returned n) (snd (http_handler (HTTP_EVENT_DATA_SENT stream_id n) h))
  end.

Definition callback (cb : NgCallback) : Http2Upstream -> Http2Upstream :=
  match cb with
  | CB_begin_headers stream_id => on_begin_headers_callback stream_id
  | CB_header stream_id name value => on_header_callback stream_id name value
  | CB_frame_recv frame => on_frame_recv_callback frame
  | CB_data_chunk_recv stream_id data => on_data_chunk_recv_callback stream_id data
  | CB_stream_close stream_id error_code => on_stream_close_callback stream_id error_code
  | CB_send data => on_send_callback data
  | CB_data_source_read stream_id length => data_source_readcb stream_id length
  end.
End Upstream.

(** A call of nghttp2, with the callbacks that it makes. *)
Fixpoint nghttp2 (depth : nat) (c : NgCall) h : Z * Http2Upstream :=
  let answer := he_nghttp2 env (now_at h) c in
  let h := emit (N_call c) h in
  match depth with
  | O => (na_result answer, h)
  | S depth =>
      let h := fold_left (fun h cb => callback (nghttp2 depth) cb h) (na_callbacks answer) (h <| h_busy := S (h_busy h) |>) in
      (na_result answer, h <| h_busy := pred (h_busy h) |>)
  end.

Abbreviation ng := (nghttp2 (he_depth env)).

(** ** Events of the socket *)

Definition establish_http_session h : bool * Http2Upstream :=
  let h := if h_session h then fault "session exists" h else h in
  let h := if he_session_init env then h <| h_session := true |> <| h_streams := Some ∅ |> else h in
  if h_session h then let '(r, h) := http_session_send_settings ng h in (r =? 0, h) else (true, h).

Definition cancel_health_check h : Http2Upstream := h <| h_health_check_info := None |>.

Fixpoint read_loop (budget : nat) (reads : list PeekResult) h : Http2Upstream :=
  match budget, reads with
  | S budget, PR_chunk data drained :: reads =>
      let '(r, h) := http2_session_input ng data h in
      if r <=? 0 then close_session_inner ng (Some VPN_EC_ERROR) (h <| h_streams_to_reset := [] |>)
      else
        let h := h <| h_last_inbound := Some (he_now env) |> in
        let h := cancel_health_check h in
        let h := for_ids (h_streams_to_reset h) (fun s h => snd (http_session_reset_stream ng s NGHTTP2_CANCEL h)) h in
        let h := h <| h_streams_to_reset := [] |> in
        if drained then read_loop budget reads h else close_session_inner ng (Some VPN_EC_ERROR) h
  | S _, PR_eof :: _ => close_session_inner ng None h
  | _, _ => h
  end.

Inductive TcpSocketEvent :=
| TCP_SOCKET_EVENT_CONNECTED
| TCP_SOCKET_EVENT_READABLE (reads : list PeekResult)
| TCP_SOCKET_EVENT_ERROR
| TCP_SOCKET_EVENT_SENT
| TCP_SOCKET_EVENT_WRITE_FLUSH
| TCP_SOCKET_EVENT_PROTECT.

Definition socket_connected h : Http2Upstream :=
  let h := emit S_set_timeout h in
  if negb (bool_decide (he_alpn env = txt "h2")) then close_session_inner ng (Some VPN_EC_ERROR) h
  else
    let '(ok, h) := establish_http_session h in
    if ok : bool then raise SERVER_EVENT_SESSION_OPENED (emit S_read_enabled h) else close_session_inner ng (Some VPN_EC_ERROR) h.

Definition net_event (what : TcpSocketEvent) h : Http2Upstream :=
  match what with
  | TCP_SOCKET_EVENT_CONNECTED => socket_connected h
  | TCP_SOCKET_EVENT_READABLE reads => read_loop READ_BUDGET reads (emit S_set_timeout h)
  | TCP_SOCKET_EVENT_ERROR =>
      close_session_inner ng (Some (if h_cert_verify_failed h then VPN_EC_CERTIFICATE_VERIFICATION_FAILED else VPN_EC_ERROR)) h
  | TCP_SOCKET_EVENT_SENT => h
  | TCP_SOCKET_EVENT_WRITE_FLUSH => write_flush h
  | TCP_SOCKET_EVENT_PROTECT => emit P_protect_socket h
  end.

Definition net_handler (what : TcpSocketEvent) h : Http2Upstream := leave_handler ng (net_event what (enter_handler h)).

(** ** Operations *)

Definition open_session h : bool * Http2Upstream :=
  let h := h <| h_cert_verify_failed := false |> in
  if bool_decide (he_handed_off env = Some true) then (true, h <| h_socket := true |>)
  else if negb (he_socket_create env) then (false, h <| h_socket := false |>)
  else if negb (he_make_ssl env) then (false, h <| h_socket := true |>)
  else (he_connect env, h <| h_socket := he_connect env |>).

Definition verify_callback (verified : bool) h : Http2Upstream := h <| h_cert_verify_failed := negb verified |>.

Definition open_connection id (addr : TunnelAddressPair) (proto : Z) (app_name : text) h : bool * Http2Upstream :=
  if proto =? IPPROTO_UDP then udp_open_connection ng id addr app_name h
  else
    let '(stream_id, h) := send_connect_request ng (tap_dst addr) app_name h in
    match stream_id with
    | Some s =>
        let c := match h_tcp_connections h !! id with
                 | Some c => c <| tc_stream_id := s |>
                 | None => mkTcp s false false false None false None None
                 end in
        (true, (set_connection id c h) <| h_conn_id_by_stream_id := <[s := id]> (h_conn_id_by_stream_id h) |>)
    | None => (false, h)
    end.

Definition on_icmp_request (request : IcmpEchoRequest) h : Z * Http2Upstream :=
  let '(ok, h) := icmp_send_request ng request h in (if ok : bool then 0 else -1, h).

Definition send id (data : list Z) h : Z * Http2Upstream :=
  match h_tcp_connections h !! id with
  | Some c =>
      if negb (TCF_STREAM_CLOSED c) then
        let '(r, h) := http2_session_send_data ng (tc_stream_id c) data false h in
        (if r =? 0 then zlen data else if r =? NGHTTP2_ERR_BUFFER_ERROR then 0 else r, h)
      else (-1, h)
  | None => if UdpMux.check_connection id (h_udp_mux h) then udp_send ng id data h else (-1, h)
  end.

Definition get_stream_id id h : option Z :=
  if UdpMux.check_connection id (h_udp_mux h) then UdpMux.get_stream_id (h_udp_mux h)
  else tc_stream_id <$> h_tcp_connections h !! id.

Definition consume id (length : Z) h : Http2Upstream :=
  if UdpMux.check_connection id (h_udp_mux h) then h
  else match get_stream_id id h with
       | None => h
       | Some s => if s =? 0 then h else snd (http_session_data_consume ng s length h)
       end.

Definition available_to_send id h : Z * Http2Upstream :=
  match get_stream_id id h with
  | None => (0, h)
  | Some s =>
      if s =? 0 then (0, h)
      else let '(room, h) := http_session_available_to_write s h in (Z.min (he_socket_room env) room, h)
  end.

Definition complete_read id h : Http2Upstream :=
  match h_tcp_connections h !! id with
  | None => h
  | Some c =>
      let h := set_connection id (c <| tc_complete_read_task := false |>) h in
      let '(r, h) := read_out_pending_data ng id h in
      if r <? 0 then close_tcp_connection ng id false h
      else match h_tcp_connections h !! id with
           | None => fault "connection is gone" h
           | Some c =>
               if match tc_unread_data c with None => true | Some b => buf_size (he_buf env) b =? 0 end && TCF_STREAM_CLOSED c
               then clean_tcp_connection_data id (raise (SERVER_EVENT_CONNECTION_CLOSED id) h)
               else h
           end
  end.

Definition connections_num h : Z := Z.of_nat (size (h_tcp_connections h)) + Z.of_nat (UdpMux.connections_num (h_udp_mux h)).

(** *** Health checks *)

Definition do_health_check (need_result : bool) h : Http2Upstream :=
  let h := h <| h_health_check_info := None |> in
  if negb need_result && negb (bool_decide (h_tcp_connections h = ∅)) then h
  else if should_skip_health_check_probe (inbound_age h) max_age_ms then h
  else
    let '(stream_id, h) := send_connect_request ng (TA_name (txt "_check") 0) [] h in
    h <| h_health_check_info := Some (mkHealthCheck (default UINT32_MAX stream_id) 0 need_result) |>.

(** The timer of a check that could not be started, or has timed out. *)
Definition health_check_timer h : Http2Upstream :=
  match h_health_check_info h with
  | Some info => report_health_check_error (hc_need_result info) VPN_EC_ERROR (h <| h_health_check_info := None |>)
  | None => h
  end.

(** ** Any input *)

Inductive H2Input :=
| H_open_session
| H_close_session
| H_open_connection (id : Z) (addr : TunnelAddressPair) (proto : Z) (app_name : text)
| H_close_connection (id : Z) (graceful async : bool)
| H_send (id : Z) (data : list Z)
| H_consume (id length : Z)
| H_available_to_send (id : Z)
| H_update_flow_control (id send_buffer_size send_window_size : Z)
| H_do_health_check (need_result : bool)
| H_cancel_health_check
| H_icmp_request (request : IcmpEchoRequest)
| H_net (what : TcpSocketEvent)
| H_verify (verified : bool)
| H_close_task (id : Z)
| H_complete_read (id : Z)
| H_health_check_timer
| H_udp_open_task (id : Z)
| H_udp_close_task (id : Z)
| H_udp_timer.

Definition http2_step (i : H2Input) h : Http2Upstream :=
  match i with
  | H_open_session => snd (open_session h)
  | H_close_session => close_session ng h
  | H_open_connection id addr proto app_name => snd (open_connection id addr proto app_name h)
  | H_close_connection id graceful async => close_connection ng id graceful async h
  | H_send id data => snd (send id data h)
  | H_consume id length => consume id length h
  | H_available_to_send id => snd (available_to_send id h)
  | H_update_flow_control id size window => update_flow_control ng id size window h
  | H_do_health_check need_result => do_health_check need_result h
  | H_cancel_health_check => cancel_health_check h
  | H_icmp_request request => snd (on_icmp_request request h)
  | H_net what => net_handler what h
  | H_verify verified => verify_callback verified h
  | H_close_task id => close_task ng id h
  | H_complete_read id => complete_read id h
  | H_health_check_timer => health_check_timer h
  | H_udp_open_task id => put_udp (UdpMux.complete_udp_connection id (h_udp_mux h)) h
  | H_udp_close_task id => put_udp (UdpMux.close_connection id (h_udp_mux h)) h
  | H_udp_timer => put_udp (UdpMux.timer_callback (udp_env None false) (he_order_udp env) (h_udp_mux h)) h
  end.
End Http2.
