(* ===== verification/Http2Proofs.v ===== *)
(** * The upstream over HTTP/2 keeps its tables and forgets no connection

    The invariant of the upstream of [Http2] over any nghttp2 that receives only when it is given
    data, while the socket takes what is written; and what the code does not do as meant. *)

From stdpp Require Import gmap.
From S2P Require Import Prelude VpnTypes Wire DataBuffer DomainFilter DomainExtractor UdpMux Icmp Tunnel Http2.

#[local] Existing Instance IcmpMux.eta_Mux.

(** ** The multiplexers keep their streams *)

Definition fewer {A} (a a' : option A) : Prop := a' = a \/ a' = None.

Lemma fewer_some {A} (a a' : option A) x : fewer a a' -> a' = Some x -> a = Some x.
Proof. intros [->| ->]; done. Qed.

Lemma fewer_trans {A} (a b c : option A) : fewer a b -> fewer b c -> fewer a c.
Proof. intros [->| ->] [->| ->]; (by left) || by right. Qed.

Section Streams.
Context `{SocketAddressLib} (env : UdpMux.Env).
Implicit Types (m : UdpMux.Mux).

(** The multiplexer of UDP opens no stream and no connection. *)
Definition narrows m m' : Prop := fewer (UdpMux.get_stream_id m) (UdpMux.get_stream_id m') /\
  forall id, UdpMux.check_connection id m' = true -> UdpMux.check_connection id m = true.

#[export] Instance narrows_preorder : PreOrder narrows.
Proof.
  split; [by split; [left|]|]. intros m1 m2 m3 [F1 S1] [F2 S2]. split; [by eapply fewer_trans|auto].
Qed.

Lemma narrows_same m m' : UdpMux.get_stream_id m' = UdpMux.get_stream_id m -> UdpMux.m_connections m' = UdpMux.m_connections m -> narrows m m'.
Proof. intros E1 E2. split; [by left|]. intros id. unfold UdpMux.check_connection. by rewrite E2. Qed.

Lemma narrows_set id c c' m : UdpMux.m_connections m !! id = Some c -> narrows m (UdpMux.set_connection id c' m).
Proof.
  intros Hc. split; [by left|]. intros id'. unfold UdpMux.check_connection. cbn. destruct (decide (id = id')) as [<-|]; [by rewrite Hc|by rewrite lookup_insert_ne].
Qed.

Lemma narrows_clean id m : narrows m (snd (UdpMux.clean_connection_data id m)).
Proof.
  unfold UdpMux.clean_connection_data. destruct (UdpMux.m_connections m !! id); [|done]. cbn [snd]. set (m1 := if _ =? _ then _ else m).
  transitivity m1; [subst m1; by destruct (_ =? _); [apply narrows_same|]|]. clearbody m1. split; [by left|]. intros id'. unfold UdpMux.check_connection. cbn.
  destruct (decide (id = id')) as [<-|]; [by rewrite lookup_delete_eq|by rewrite lookup_delete_ne].
Qed.

Ltac alike := by apply narrows_same.

Lemma narrows_close_connection id m : narrows m (UdpMux.close_connection id m).
Proof.
  unfold UdpMux.close_connection. pose proof (narrows_clean id m) as Hn. destruct (UdpMux.clean_connection_data id m) as [[|] m']; [|done].
  transitivity m'; [done|alike].
Qed.

Lemma narrows_close_async id m : narrows m (UdpMux.close_connection_async id m).
Proof. unfold UdpMux.close_connection_async. destruct (UdpMux.m_connections m !! id) eqn:Ec; [by eapply narrows_set|alike]. Qed.

Lemma narrows_fold (f : UdpMux.Mux -> Z -> UdpMux.Mux) order m : (forall m id, narrows m (f m id)) -> narrows m (fold_left f order m).
Proof. intros Hf. revert m. induction order as [|id order IH]; intros m; [done|]. cbn. transitivity (f m id); auto. Qed.

Lemma narrows_timer order m : narrows m (UdpMux.timer_callback env order m).
Proof.
  apply narrows_fold. intros m1 id. unfold UdpMux.timer_one. destruct (UdpMux.m_connections m1 !! id); [|done]. destruct (_ <=? _); [|done].
  etransitivity; [apply (narrows_clean id)|alike].
Qed.

Lemma narrows_report order m : narrows m (UdpMux.report_sent_bytes order m).
Proof.
  apply narrows_fold. intros m1 id. unfold UdpMux.report_one. destruct (UdpMux.m_connections m1 !! id) as [c|] eqn:Ec; [|done]. destruct (0 <? _); [|done].
  etransitivity; [|by eapply (narrows_set id c)]. alike.
Qed.

Lemma narrows_read_enabled id v m : narrows m (UdpMux.set_read_enabled id v m).
Proof. unfold UdpMux.set_read_enabled. destruct (UdpMux.m_connections m !! id) eqn:Ec; [by eapply narrows_set|done]. Qed.

Lemma narrows_complete id m : narrows m (UdpMux.complete_udp_connection id m).
Proof.
  unfold UdpMux.complete_udp_connection. destruct (UdpMux.established m) eqn:E; [|done]. destruct (UdpMux.m_connections m !! id) as [c|] eqn:Ec; [|done]. cbv zeta.
  set (m1 := UdpMux.set_connection id _ m). transitivity m1; [by eapply (narrows_set id c)|alike].
Qed.

Lemma narrows_assert m : narrows m (UdpMux.assert_established m).
Proof. unfold UdpMux.assert_established. destruct (UdpMux.established m); [done|alike]. Qed.

Lemma narrows_send id data m : narrows m (snd (UdpMux.send env id data m)).
Proof.
  unfold UdpMux.send. transitivity (UdpMux.assert_established m); [apply narrows_assert|]. generalize (UdpMux.assert_established m). clear m. intros m.
  destruct (UdpMux.m_connections m !! id) as [conn|] eqn:Ec; [|done]. destruct (tap_dst (cn_addr conn)); [|alike]. cbv zeta.
  destruct (UdpMux.send_data_ok env); [|alike]. etransitivity; [|by eapply (narrows_set id conn)]. alike.
Qed.

Lemma narrows_read id data m : narrows m (UdpMux.raise_read env id data m).
Proof.
  unfold UdpMux.raise_read. generalize (UdpMux.on_read env (UdpMux.reads (UdpMux.emit (UdpMux.SERVER_READ id data) m))). intros calls.
  transitivity (UdpMux.emit (UdpMux.SERVER_READ id data) m); [alike|]. generalize (UdpMux.emit (UdpMux.SERVER_READ id data) m). clear m.
  induction calls as [|c calls IH]; intros m; [done|]. cbn [fold_left]. etransitivity; [|apply IH].
  destruct c; [apply narrows_read_enabled|apply narrows_close_async].
Qed.

Lemma narrows_iteration data m : narrows m (snd (UdpMux.recv_iteration env data m)).
Proof.
  unfold UdpMux.recv_iteration. destruct (rc_state (UdpMux.m_recv_connection m)).
  - unfold UdpMux.recv_idle. set (m1 := if _ <? _ then m else _). transitivity m1; [subst m1; destruct (_ <? _); [done|alike]|].
    clearbody m1. destruct (_ <? _); [alike|]. destruct (UdpMux.read_prefix _ m1); alike.
  - unfold UdpMux.recv_payload. set (m1 := match _ with Some conn => _ | None => _ end).
    transitivity m1; [subst m1; destruct (UdpMux.m_connections m !! _) eqn:Ec; [by eapply narrows_set|alike]|].
    clearbody m1. destruct (_ =? 0); [|alike]. etransitivity; [apply narrows_read|alike].
  - unfold UdpMux.recv_dropping. destruct (_ =? 0); alike.
Qed.

Lemma narrows_loop fuel : forall data m, narrows m (UdpMux.recv_loop env fuel data m).
Proof.
  induction fuel as [|fuel IH]; intros [|x data] m; cbn [UdpMux.recv_loop]; try done; [alike|].
  pose proof (narrows_iteration (x :: data) m) as Hn. destruct (UdpMux.recv_iteration env (x :: data) m) as [data' m']. by transitivity m'.
Qed.

Lemma narrows_process data m : narrows m (UdpMux.process_read_event env data m).
Proof.
  unfold UdpMux.process_read_event, UdpMux.receive. transitivity (UdpMux.assert_established m); [apply narrows_assert|].
  generalize (UdpMux.assert_established m). clear m. intros m. etransitivity; [apply (narrows_loop (2 * length data) data m)|alike].
Qed.

Lemma narrows_response status m : narrows m (UdpMux.handle_response env status m).
Proof.
  unfold UdpMux.handle_response. transitivity (UdpMux.assert_established m); [apply narrows_assert|]. cbv zeta. destruct (status =? HTTP_OK_STATUS); [done|alike].
Qed.

Lemma narrows_close order error m : narrows m (UdpMux.close order error m).
Proof.
  unfold UdpMux.close. cbv zeta. set (e := match UdpMux.m_pending_error m with Some e => Some e | None => _ end). set (m1 := fold_left _ order m).
  transitivity m1; [|split; [by right|done]]. apply narrows_fold. intros m2 id. unfold UdpMux.close_one.
  etransitivity; [|apply narrows_clean]. destruct e; alike.
Qed.

Lemma icmp_keep_loop fuel : forall data (m : IcmpMux.Mux), IcmpMux.m_stream_id (IcmpMux.process_loop fuel data m) = IcmpMux.m_stream_id m.
Proof.
  induction fuel as [|fuel IH]; intros [|x data] m; cbn [IcmpMux.process_loop]; try done.
  assert (IcmpMux.m_stream_id (snd (IcmpMux.process_reply_chunk (x :: data) m)) = IcmpMux.m_stream_id m) as E.
  { assert (forall raw (m : IcmpMux.Mux), IcmpMux.m_stream_id (IcmpMux.handle_reply raw m) = IcmpMux.m_stream_id m) as Hr
      by (intros raw m1; unfold IcmpMux.handle_reply; by destruct (IcmpMux.read_reply raw)).
    unfold IcmpMux.process_reply_chunk. destruct (_ && _); [apply Hr|]. set (m1 := m <| IcmpMux.m_reply_buffer := _ |>).
    change (IcmpMux.m_stream_id m) with (IcmpMux.m_stream_id m1). clearbody m1. destruct (_ <? _)%nat; [done|]. cbn [snd]. rewrite Hr. by destruct (_ =? _)%nat. }
  destruct (IcmpMux.process_reply_chunk (x :: data) m) as [data' m']. by rewrite IH.
Qed.

Lemma icmp_keep_process data (m : IcmpMux.Mux) : IcmpMux.m_stream_id (IcmpMux.process_read_event data m) = IcmpMux.m_stream_id m.
Proof.
  unfold IcmpMux.process_read_event. set (m1 := IcmpMux.process_loop _ _ _). assert (IcmpMux.m_stream_id m1 = IcmpMux.m_stream_id m) as <-.
  { subst m1. rewrite icmp_keep_loop. unfold IcmpMux.assert_established. by destruct (IcmpMux.established m). }
  clearbody m1. destruct (IcmpMux.m_stream_id m1) eqn:E; cbn; exact E.
Qed.
End Streams.

(** ** The tables *)

Section Calm.
Context {E B : Type} `{DataBuffer E B} `{SocketAddressLib}.
Implicit Types (h : Http2Upstream (B := B)) (id s : Z).

(** How often the end of a connection is reported. *)
Definition h2_ends id (o : H2Out) : bool :=
  match o with P_event (SERVER_EVENT_ERROR id' _) | P_event (SERVER_EVENT_CONNECTION_CLOSED id') => id' =? id | _ => false end.
Definition h2_reports id (outs : list H2Out) : nat := length (List.filter (h2_ends id) outs).

Lemma h2_reports_app id outs outs' : h2_reports id (outs ++ outs') = (h2_reports id outs + h2_reports id outs')%nat.
Proof. unfold h2_reports. by rewrite List.filter_app, length_app. Qed.

Definition udp_stream h : option Z := UdpMux.get_stream_id (h_udp_mux h).
Definition icmp_stream h : option Z := IcmpMux.get_stream_id (h_icmp_mux h).
Definition check_stream h : option Z := hc_stream_id <$> h_health_check_info h.

(** The table of streams is that of the connections. *)
Definition agree h : Prop := forall s id, h_conn_id_by_stream_id h !! s = Some id <-> exists c, h_tcp_connections h !! id = Some c /\ tc_stream_id c = s.

(** The streams of connections are not those of the multiplexers and of the health check. *)
Definition apart h : Prop := forall id c, h_tcp_connections h !! id = Some c ->
  udp_stream h <> Some (tc_stream_id c) /\ icmp_stream h <> Some (tc_stream_id c) /\ check_stream h <> Some (tc_stream_id c).

(** The session knows the streams that are not closed. *)
Definition covered h : Prop := forall id c, h_tcp_connections h !! id = Some c -> TCF_STREAM_CLOSED c = false -> stream_of (tc_stream_id c) h <> None.

(** The client has closed the connection and waits for the end of the stream. *)
Definition leaving (c : TcpConnection (B := B)) : Prop := TCF_CLIENT_CLOSED c = true /\ TCF_STREAM_CLOSED c = false.

(** Steps that at most end connections, streams of the multiplexers and health checks: a connection does not go
    without a report. *)
Record calm h h' : Prop := mkCalm {
  calm_in_handler : h_in_handler h' = h_in_handler h;
  calm_closed : h_closed h' = true -> h_closed h = true \/ (0 < h_in_handler h)%nat;
  calm_session : h_session h' = h_session h;
  calm_next : h_next_stream_id h' = h_next_stream_id h;
  calm_streams : h_streams h <> None -> h_streams h' <> None;
  calm_tcp : forall id c', h_tcp_connections h' !! id = Some c' ->
    exists c, h_tcp_connections h !! id = Some c /\ tc_stream_id c' = tc_stream_id c /\ (leaving c -> leaving c');
  calm_agree : agree h -> agree h';
  calm_covered : agree h -> apart h -> covered h -> covered h';
  calm_udp : narrows (h_udp_mux h) (h_udp_mux h');
  calm_icmp : fewer (icmp_stream h) (icmp_stream h');
  calm_check : fewer (check_stream h) (check_stream h');
  calm_out : exists outs, h_out h' = h_out h ++ outs /\
    forall id, h_tcp_connections h !! id <> None -> h_tcp_connections h' !! id = None -> (1 <= h2_reports id outs)%nat;
}.

Lemma calm_apart h h' : calm h h' -> apart h -> apart h'.
Proof.
  intros Hc Ha id c' Hid. destruct (calm_tcp _ _ Hc id c' Hid) as (c & E1 & -> & _). destruct (Ha id c E1) as (A1 & A2 & A3).
  split_and!; intros Es; [apply A1|apply A2|apply A3].
  - by eapply fewer_some; [apply (proj1 (calm_udp _ _ Hc))|].
  - by eapply fewer_some; [apply (calm_icmp _ _ Hc)|].
  - by eapply fewer_some; [apply (calm_check _ _ Hc)|].
Qed.

#[export] Instance calm_preorder : PreOrder calm.
Proof.
  split.
  - intros h. split; try done; try (by left); [intros id c Hc; by exists c|]. exists []. rewrite app_nil_r. split; [done|]. congruence.
  - intros h1 h2 h3 H12 H23. pose proof (calm_apart _ _ H12) as Hap. destruct H12 as [A1 A2 A3 A4 A5 A6 A7 A8 A9 A10 A11 (o1 & Eo1 & R1)].
    destruct H23 as [B1 B2 B3 B4 B5 B6 B7 B8 B9 B10 B11 (o2 & Eo2 & R2)]. split; try congruence; try (by eapply fewer_trans); try (by etransitivity); auto.
    + intros Hc. apply B2 in Hc as [Hc|Hc]; [by apply A2|right; by rewrite A1 in Hc].
    + intros id c3 H3. destruct (B6 id c3 H3) as (c2 & H2 & E2 & L2). destruct (A6 id c2 H2) as (c1 & H1 & E1 & L1). exists c1. split_and!; [done|congruence|auto].
    + exists (o1 ++ o2). split; [by rewrite Eo2, Eo1, app_assoc|]. intros id Hid1 Hid3. rewrite h2_reports_app.
      destruct (h_tcp_connections h2 !! id) eqn:E2; [specialize (R2 id)|specialize (R1 id Hid1 E2); lia]. rewrite E2 in R2. specialize (R2 ltac:(done) Hid3). lia.
Qed.

(** Nothing of it is touched. *)
Lemma calm_unchanged h h' : h_in_handler h' = h_in_handler h -> h_closed h' = h_closed h -> h_session h' = h_session h -> h_next_stream_id h' = h_next_stream_id h ->
  h_streams h' = h_streams h -> h_tcp_connections h' = h_tcp_connections h -> h_conn_id_by_stream_id h' = h_conn_id_by_stream_id h ->
  narrows (h_udp_mux h) (h_udp_mux h') -> fewer (icmp_stream h) (icmp_stream h') -> fewer (check_stream h) (check_stream h') ->
  (exists outs, h_out h' = h_out h ++ outs) -> calm h h'.
Proof.
  intros E1 E2 E3 E4 E5 E6 E7 F1 F2 F3 (outs & Eo). split; try done; try congruence.
  - rewrite E2. by left.
  - intros id c Hc. rewrite E6 in Hc. by exists c.
  - unfold agree. by rewrite E6, E7.
  - intros _ _ Hcov id c. rewrite E6. unfold stream_of. rewrite E5. apply Hcov.
  - exists outs. split; [done|]. intros id. rewrite E6. congruence.
Qed.

Ltac same := apply calm_unchanged; try done; try (by left); (by eexists; first [reflexivity|symmetry; apply app_nil_r]).

Lemma calm_emitted o h : calm h (emit o h).
Proof. same. Qed.

Lemma calm_raised e h : calm h (raise e h).
Proof. same. Qed.

Lemma calm_faulted what h : calm h (fault what h).
Proof. same. Qed.

Lemma calm_need h : calm h (need_session h).
Proof. unfold need_session. destruct (h_session h); [done|apply calm_faulted]. Qed.

Lemma calm_put_stream s st h : calm h (put_stream s st h).
Proof.
  unfold put_stream. destruct (h_streams h) as [streams|] eqn:E'; [|apply calm_faulted]. split; try done; try (by left).
  - intros id c Hc. by exists c.
  - intros _ _ Hcov id c Hid Hsc. specialize (Hcov id c Hid Hsc). unfold stream_of in *. rewrite E' in Hcov. cbn in *.
    destruct (decide (s = tc_stream_id c)) as [->|]; [by rewrite lookup_insert_eq|by rewrite lookup_insert_ne].
  - exists []. rewrite app_nil_r. split; [done|]. cbn. congruence.
Qed.

Lemma calm_set id c c' h : h_tcp_connections h !! id = Some c -> tc_stream_id c' = tc_stream_id c -> (leaving c -> leaving c') ->
  (TCF_STREAM_CLOSED c' = false -> TCF_STREAM_CLOSED c = false) -> calm h (set_connection id c' h).
Proof.
  intros Hc Es Hl Hsc. split; try done; try (by left); cbn.
  - intros id' c1 H1. apply lookup_insert_Some in H1 as [[<- <-]|[_ H1]]; [by exists c|by exists c1].
  - intros Ha s id'. cbn. rewrite (Ha s id'). destruct (decide (id = id')) as [<-|].
    + rewrite lookup_insert_eq. split; intros (c1 & E1 & E2); simplify_eq; [exists c'|exists c]; split; congruence.
    + by rewrite lookup_insert_ne.
  - intros _ _ Hcov id' c1 H1. cbn in H1. apply lookup_insert_Some in H1 as [[<- <-]|[_ H1]]; [|exact (Hcov id' c1 H1)].
    intros Hf. change (stream_of (tc_stream_id c') h <> None). rewrite Es. apply (Hcov id c Hc). by apply Hsc.
  - exists []. rewrite app_nil_r. split; [done|]. intros id' Hn H1. apply lookup_insert_None in H1 as [H1 _]. done.
Qed.

Lemma calm_clean id e h : h2_ends id (P_event e) = true -> calm h (clean_tcp_connection_data id (raise e h)).
Proof.
  intros He. unfold clean_tcp_connection_data. change (h_tcp_connections (raise e h)) with (h_tcp_connections h).
  destruct (h_tcp_connections h !! id) as [c|] eqn:Hc; [|apply calm_raised]. split; try done; try (by left); cbn.
  - intros id' c' H1. apply lookup_delete_Some in H1 as [_ H1]. by exists c'.
  - intros Ha s id'. cbn. rewrite lookup_delete_Some, (Ha s id'). split.
    + intros [Hs (c1 & E1 & E2)]. exists c1. rewrite lookup_delete_ne; [done|]. intros <-. congruence.
    + intros (c1 & E1 & E2). apply lookup_delete_Some in E1 as [Hne E1]. split; [|by exists c1]. intros <-.
      assert (h_conn_id_by_stream_id h !! tc_stream_id c = Some id) as Et by (apply Ha; by exists c).
      assert (h_conn_id_by_stream_id h !! tc_stream_id c = Some id') as Et' by (apply Ha; by exists c1). congruence.
  - intros _ _ Hcov id' c1 H1. cbn in H1. apply lookup_delete_Some in H1 as [_ H1]. exact (Hcov id' c1 H1).
  - exists [P_event e]. split; [done|]. intros id' Hn H1. apply lookup_delete_None in H1 as [<-|H1]; [|done]. unfold h2_reports. cbn -[h2_ends]. by rewrite He.
Qed.

Lemma calm_put_udp m h : narrows (h_udp_mux h) m -> calm h (put_udp m h).
Proof. intros Hn. apply calm_unchanged; try done; try (by left); by eexists. Qed.

Lemma calm_put_icmp m h : fewer (icmp_stream h) (IcmpMux.get_stream_id m) -> calm h (put_icmp m h).
Proof. intros Hf. apply calm_unchanged; try done; try (by left). by eexists. Qed.

Lemma calm_for_ids (f : Z -> Http2Upstream -> Http2Upstream) xs h : (forall x h, calm h (f x h)) -> calm h (for_ids xs f h).
Proof. intros Hf. revert h. induction xs as [|x xs IH]; intros h; [done|]. cbn. transitivity (f x h); auto. Qed.
End Calm.

Definition plain (cb : NgCallback) : Prop :=
  match cb with CB_stream_close _ _ | CB_send _ | CB_data_source_read _ _ => True | _ => False end.

(** nghttp2 receives nothing but what it is given, and the socket takes what is written. *)
Record tame {E B : Type} (env : H2Env (E := E) (B := B)) : Prop := mkTame {
  tame_write : forall n, fst (he_write env n) = true;
  tame_callbacks : forall n c, (forall data, c <> NG_mem_recv data) -> Forall plain (na_callbacks (he_nghttp2 env n c));
}.

Section Plain.
Context {E B : Type} `{DataBuffer E B} `{SocketAddressLib} (env : H2Env (E := E) (B := B)).
Implicit Types (h : Http2Upstream (B := B)) (id s : Z).

(** A session that is to be closed waits for the handler to return. *)
Definition deferred h : Prop := h_closed h = true -> (0 < h_in_handler h)%nat.
Definition quietly h h' : Prop := deferred h -> calm h h'.

Lemma calm_deferred h h' : calm h h' -> deferred h -> deferred h'.
Proof. intros Hc Hd Hcl. rewrite (calm_in_handler _ _ Hc). apply (calm_closed _ _ Hc) in Hcl as [Hcl|Hcl]; [by apply Hd|done]. Qed.

Lemma calm_quietly h h' : calm h h' -> quietly h h'.
Proof. by intros Hc _. Qed.

#[export] Instance quietly_preorder : PreOrder quietly.
Proof.
  split; [by intros h Hd|]. intros h1 h2 h3 H12 H23 Hd. transitivity h2; [by apply H12|]. apply H23. eapply calm_deferred; [by apply H12|done].
Qed.

Lemma quietly_for_ids (f : Z -> Http2Upstream -> Http2Upstream) xs h : (forall x h, quietly h (f x h)) -> quietly h (for_ids xs f h).
Proof. intros Hf. revert h. induction xs as [|x xs IH]; intros h; [done|]. cbn. transitivity (f x h); auto. Qed.

Lemma get_conn_some s h id c : get_conn_by_stream_id s h = Some (id, c) -> h_conn_id_by_stream_id h !! s = Some id /\ h_tcp_connections h !! id = Some c.
Proof.
  unfold get_conn_by_stream_id. destruct (h_conn_id_by_stream_id h !! s) as [id'|]; [|done]. cbn. destruct (h_tcp_connections h !! id') as [c'|] eqn:Ec; [|done].
  cbn. intros [= <- <-]. done.
Qed.

(** What was changed of a connection that goes does not matter. *)
Lemma clean_set id c c' e h : h_tcp_connections h !! id = Some c -> tc_stream_id c' = tc_stream_id c ->
  clean_tcp_connection_data id (raise e (set_connection id c' h)) = clean_tcp_connection_data id (raise e h).
Proof.
  intros Hc Es. unfold clean_tcp_connection_data, set_connection. cbn. rewrite Hc, lookup_insert_eq, Es. cbn. rewrite delete_insert_eq. by destruct h.
Qed.

Lemma calm_connection_processed s code h : calm h (connection_processed env s code h).
Proof.
  unfold connection_processed. destruct (get_conn_by_stream_id s h) as [[id c]|] eqn:Eg; [|done]. apply get_conn_some in Eg as [Et Ec].
  cbv zeta. set (c' := c <| TCF_STREAM_CLOSED := true |>). destruct (match tc_pending_error c' with Some e => Some e | None => _ end) as [e|].
  - rewrite (clean_set id c) by done. apply calm_clean. apply Z.eqb_refl.
  - destruct (TCF_CLIENT_CLOSED c') eqn:Ecl; cbn [orb].
    + rewrite (clean_set id c) by done. apply calm_clean. apply Z.eqb_refl.
    + destruct (match tc_unread_data c' with None => true | Some b => _ end).
      * rewrite (clean_set id c) by done. apply calm_clean. apply Z.eqb_refl.
      * apply (calm_set id c); try done. intros [Hl _]. change (TCF_CLIENT_CLOSED c') with (TCF_CLIENT_CLOSED c) in Ecl. congruence.
Qed.

(** Nothing waits for the end of the stream any more. *)
Lemma connection_processed_closed s code h id c : agree h -> h_tcp_connections (connection_processed env s code h) !! id = Some c -> tc_stream_id c = s ->
  TCF_STREAM_CLOSED c = true.
Proof.
  intros Ha Hc Es. destruct (calm_tcp _ _ (calm_connection_processed s code h) id c Hc) as (c0 & Hc0 & E0 & _). rewrite Es in E0.
  assert (h_conn_id_by_stream_id h !! s = Some id) as Et by (apply Ha; by exists c0).
  revert Hc. unfold connection_processed, get_conn_by_stream_id. rewrite Et. cbn [mbind option_bind]. rewrite Hc0. cbn [mbind option_bind]. cbv zeta.
  set (c' := c0 <| TCF_STREAM_CLOSED := true |>).
  assert (forall e, h_tcp_connections (clean_tcp_connection_data id (raise e (set_connection id c' h))) !! id = Some c -> False) as Hgone.
  { intros e. rewrite (clean_set id c0) by done. unfold clean_tcp_connection_data. cbn. rewrite Hc0. cbn. by rewrite lookup_delete_eq. }
  destruct (match tc_pending_error c' with Some e => Some e | None => _ end) as [e|]; [intros Hc; by apply Hgone in Hc|].
  destruct (_ || _); [intros Hc; by apply Hgone in Hc|]. cbn. rewrite lookup_insert_eq. by intros [= <-].
Qed.

Lemma calm_report_check need error h : calm h (report_health_check_error env need error h).
Proof.
  unfold report_health_check_error. destruct need; [apply calm_raised|]. destruct (negb _); [done|].
  destruct (inbound_age env h); [destruct (_ <=? _); [done|]|]; apply calm_raised.
Qed.

Lemma calm_no_check h : calm h (h <| h_health_check_info := None |>).
Proof. apply calm_unchanged; try done; try (by left); [by right|]. exists []. by rewrite app_nil_r. Qed.

Lemma calm_stream_processed s code h : calm h (stream_processed env s code h).
Proof.
  unfold stream_processed. destruct (bool_decide _); [apply calm_put_udp, narrows_close|]. destruct (bool_decide _); [apply calm_put_icmp; by right|].
  destruct (h_health_check_info h) as [info|]; [|apply calm_connection_processed]. destruct (_ =? s); [|apply calm_connection_processed].
  transitivity (h <| h_health_check_info := None |>); [apply calm_no_check|]. cbv zeta. destruct (h_closing _); [done|]. destruct (negb _); [|done].
  apply calm_report_check.
Qed.

Lemma stream_processed_closed s code h id c : agree h -> apart h -> h_tcp_connections (stream_processed env s code h) !! id = Some c -> tc_stream_id c = s ->
  TCF_STREAM_CLOSED c = true.
Proof.
  intros Ha Hap Hc Es. destruct (calm_tcp _ _ (calm_stream_processed s code h) id c Hc) as (c0 & Hc0 & E0 & _).
  destruct (Hap id c0 Hc0) as (A1 & A2 & A3). rewrite <- E0, Es in A1, A2, A3. revert Hc. unfold stream_processed.
  rewrite (bool_decide_eq_false_2 (UdpMux.get_stream_id _ = _)) by done. rewrite (bool_decide_eq_false_2 (IcmpMux.get_stream_id _ = _)) by done.
  unfold check_stream in A3. destruct (h_health_check_info h) as [info|]; [|intros Hc; by eapply connection_processed_closed].
  destruct (Z.eqb_spec (hc_stream_id info) s) as [Ei|]; [exfalso; apply A3; cbn; by rewrite Ei|]. intros Hc. by eapply connection_processed_closed.
Qed.

Lemma calm_close_stream s code h : calm h (close_stream (stream_processed env) s code h).
Proof.
  unfold close_stream. destruct (stream_of s h) as [st|] eqn:Es; [|done]. pose proof (calm_stream_processed s code h) as Hp.
  pose proof (stream_processed_closed s code h) as Hcl. set (h1 := stream_processed env s code h) in *. clearbody h1.
  unfold drop_stream. destruct (h_streams h1) as [streams|] eqn:E1; [|transitivity h1; [done|apply calm_faulted]].
  destruct Hp as [A1 A2 A3 A4 A5 A6 A7 A8 A9 A10 A11 A12]. split; try done.
  intros Ha Hap Hcov id c Hid Hsc. specialize (A8 Ha Hap Hcov id c Hid Hsc). unfold stream_of in *. rewrite E1 in A8. cbn in *.
  destruct (decide (s = tc_stream_id c)) as [Eq|]; [|by rewrite lookup_delete_ne]. exfalso. specialize (Hcl id c Ha Hap Hid (eq_sym Eq)). congruence.
Qed.

Ltac same := apply calm_unchanged; try done; try (by left); (by eexists; first [reflexivity|symmetry; apply app_nil_r]).

(** *** Callbacks while something is sent *)

Lemma calm_write_flush h : calm h (write_flush env h).
Proof.
  unfold write_flush. set (h1 := for_ids _ _ h). transitivity h1; [apply calm_for_ids; intros; apply calm_raised|]. clearbody h1.
  destruct (UdpMux.get_stream_id (h_udp_mux h1)) as [s|]; [|done]. unfold http_session_available_to_write. transitivity (need_session h1); [apply calm_need|].
  generalize (need_session h1). intros h2. destruct (0 <? _); [|done]. apply calm_put_udp, narrows_report.
Qed.

Lemma write_flush_closed h : h_closed (write_flush env h) = h_closed h.
Proof.
  assert (forall xs h, h_closed (for_ids xs (fun id => raise (SERVER_EVENT_DATA_SENT id 0)) h) = h_closed h) as Hf.
  { induction xs as [|x xs IH]; intros h1; [done|]. etransitivity; [apply IH|done]. }
  unfold write_flush. rewrite <- (Hf (conn_ids env h) h). set (h1 := for_ids _ _ h). clearbody h1. destruct (UdpMux.get_stream_id (h_udp_mux h1)); [|done].
  unfold http_session_available_to_write, need_session. by destruct (h_session h1), (0 <? _).
Qed.

Lemma quietly_write ng data h : quietly h (snd (tcp_socket_write env ng data h)).
Proof.
  intros Hd. unfold tcp_socket_write. destruct (he_write env (now_at h)) as [ok [|]]; cbn [snd]; [|apply calm_emitted].
  set (h1 := emit (S_write data) h). assert (calm h h1) as H1 by apply calm_emitted. pose proof (calm_deferred _ _ H1 Hd) as Hd1. transitivity h1; [done|].
  clearbody h1. clear H1 Hd h. pose proof (calm_write_flush (enter_handler h1)) as Hf. pose proof (write_flush_closed (enter_handler h1)) as Ecl.
  set (h2 := write_flush env (enter_handler h1)) in *. clearbody h2. change (h_closed (enter_handler h1)) with (h_closed h1) in Ecl.
  destruct Hf as [A1 A2 A3 A4 A5 A6 A7 A8 A9 A10 A11 A12]. cbn in A1. unfold leave_handler.
  set (h3 := h2 <| h_in_handler := pred (h_in_handler h2) |>). assert (calm h1 h3) as Hc.
  { split; try done; cbn; [by rewrite A1|]. rewrite Ecl. by left. }
  change (h_closed h3) with (h_closed h2). rewrite Ecl. destruct (h_closed h1) eqn:Ec1; [|done]. transitivity h3; [done|].
  assert (0 < h_in_handler h3)%nat as Hin by (rewrite (calm_in_handler _ _ Hc); by apply Hd1).
  unfold close_session_inner. change (h_in_handler (h3 <| h_closed := false |> <| h_pending_session_error := None |>)) with (h_in_handler h3).
  rewrite (proj2 (Nat.ltb_lt _ _) Hin). split; try done; try (by left); cbn; [intros id c Hid; by exists c|].
  exists []. rewrite app_nil_r. split; [done|]. congruence.
Qed.

Lemma quietly_defer ng error h : (0 < h_in_handler h)%nat -> calm h (close_session_inner env ng error h).
Proof.
  intros Hin. unfold close_session_inner. rewrite (proj2 (Nat.ltb_lt _ _) Hin). split; try done; try (by left); cbn; [intros _; by right|intros id c Hid; by exists c|].
  exists []. rewrite app_nil_r. split; [done|]. congruence.
Qed.

Lemma calm_data_sent s length h : calm h (snd (http_handler env (fun _ h => (0, h)) (HTTP_EVENT_DATA_SENT s length) h)).
Proof.
  cbn. destruct (bool_decide _); [done|]. destruct (get_conn_by_stream_id s h) as [[id c]|]; [apply calm_raised|done].
Qed.

Context (Htame : tame env).

Lemma quietly_plain ng cb h : plain cb -> quietly h (callback env ng cb h).
Proof.
  intros Hp. destruct cb as [| | | |s code|data|s length]; try done; cbn [callback].
  - apply calm_quietly. unfold on_stream_close_callback. destruct (stream_of s h); [|apply calm_emitted].
    transitivity (close_stream (stream_processed env) s code h); [apply calm_close_stream|apply calm_emitted].
  - unfold on_send_callback. cbn [http_handler snd]. pose proof (quietly_write ng data h) as Hw. pose proof (tame_write _ Htame (now_at h)) as Hok.
    unfold tcp_socket_write in *. destruct (he_write env (now_at h)) as [ok flushed]. cbn [fst snd] in *. by subst ok.
  - apply calm_quietly. unfold data_source_readcb. destruct (s' ← stream_of s h; _) as [[st source]|]; [|apply calm_faulted].
    destruct (negb _ && _); [apply calm_emitted|]. set (h1 := put_stream _ _ h). transitivity h1; [apply calm_put_stream|]. clearbody h1.
    etransitivity; [apply (calm_data_sent s (Z.min length (zlen (ds_buf source))) h1)|apply calm_emitted].
Qed.

(** A call of nghttp2 that does not receive. *)
Lemma quietly_nghttp2 depth c h : (forall data, c <> NG_mem_recv data) -> quietly h (snd (nghttp2 env depth c h)).
Proof.
  intros Hc. destruct depth as [|depth]; cbn [nghttp2 snd]; [apply calm_quietly, calm_emitted|].
  set (h1 := (emit (N_call c) h) <| h_busy := _ |>). transitivity h1; [apply calm_quietly; same|]. clearbody h1.
  set (cbs := na_callbacks _). assert (Forall plain cbs) as Hp by by apply (tame_callbacks _ Htame). clearbody cbs.
  set (h2 := fold_left _ cbs h1). transitivity h2; [|apply calm_quietly; same]. subst h2. revert h1.
  induction Hp as [|cb cbs Hcb Hp IH]; intros h1; [done|]. cbn. transitivity (callback env (nghttp2 env depth) cb h1); [by apply quietly_plain|apply IH].
Qed.
End Plain.

(** *** Operations *)

Section Operations.
Context {E B : Type} `{DataBuffer E B} `{SocketAddressLib} (env : H2Env (E := E) (B := B)).
Context (ng : NgCall -> Http2Upstream (B := B) -> Z * Http2Upstream (B := B)).
Context (ng_quiet : forall c h, (forall data, c <> NG_mem_recv data) -> quietly h (snd (ng c h))).
Implicit Types (h : Http2Upstream (B := B)) (id s : Z).

Ltac call c h r h1 := let Hq := fresh in pose proof (ng_quiet c h ltac:(done)) as Hq; destruct (ng c h) as [r h1]; cbn [snd] in Hq;
  transitivity h1; [exact Hq|clear Hq].
Ltac needed h := transitivity (need_session h); [apply calm_quietly, calm_need|]; generalize (need_session h); clear h; intros h.

Lemma quietly_send_settings h : quietly h (snd (http_session_send_settings ng h)).
Proof.
  unfold http_session_send_settings. needed h. call NG_submit_settings h r h1. destruct (negb _); [done|].
  call (NG_set_local_window_size 0 SESSION_LOCAL_WINDOW_SIZE) h1 r' h2. destruct (negb _); [done|]. by apply ng_quiet.
Qed.

Lemma quietly_reset s code h : quietly h (snd (http_session_reset_stream ng s code h)).
Proof.
  unfold http_session_reset_stream. needed h. call (NG_submit_rst_stream s code) h r h1. destruct (negb _); [done|]. by apply ng_quiet.
Qed.

Lemma quietly_consume s n h : quietly h (snd (http_session_data_consume ng s n h)).
Proof.
  unfold http_session_data_consume. needed h. call (NG_consume_stream s n) h r h1. destruct (_ =? 0); [|done]. by apply ng_quiet.
Qed.

Lemma quietly_set_recv_window s n h : quietly h (snd (http_session_set_recv_window env ng s n h)).
Proof.
  unfold http_session_set_recv_window. needed h. cbv zeta. set (w := Z.min _ _). call (NG_set_local_window_size s w) h r h1. destruct (_ =? 0); [|done].
  by apply ng_quiet.
Qed.

Lemma quietly_send_headers s headers h : quietly h (snd (http2_session_send_headers ng s headers h)).
Proof.
  unfold http2_session_send_headers. needed h. cbv zeta. set (h1 := if bool_decide _ then h else _). transitivity h1.
  { subst h1. apply calm_quietly. destruct (bool_decide _); [done|]. destruct (stream_of s h); [done|apply calm_put_stream]. }
  clearbody h1. call (NG_submit_headers s headers) h1 r h2. by apply ng_quiet.
Qed.

Lemma quietly_send_data s data eof h : quietly h (snd (http2_session_send_data env ng s data eof h)).
Proof.
  unfold http2_session_send_data. needed h. cbv zeta. destruct (stream_of s h) as [st|]; [|done].
  assert (calm h (snd (data_source_add env s st data eof h))) as Ha by (unfold data_source_add; destruct (he_evbuffer_add env); apply calm_put_stream).
  destruct (data_source_add env s st data eof h) as [rv h1]. cbn [snd] in Ha. transitivity h1; [by apply calm_quietly|]. destruct (negb _); [done|].
  assert (quietly h1 (snd (data_source_schedule_send env ng s h1))) as Hs.
  { unfold data_source_schedule_send. destruct (stream_of s h1) as [st1|]; [|apply calm_quietly, calm_faulted].
    destruct (hs_data_source st1) as [source|]; [|apply calm_quietly, calm_faulted]. destruct (ds_scheduled source).
    - destruct (he_stream env s) as [[|]|]; [|done|done]. by apply ng_quiet.
    - call (NG_submit_data s) h1 rv' h2. apply calm_quietly. destruct (stream_of s h2); [apply calm_put_stream|apply calm_faulted]. }
  destruct (data_source_schedule_send env ng s h1) as [rv' h2]. cbn [snd] in Hs. transitivity h2; [done|]. destruct (negb _); [done|]. by apply ng_quiet.
Qed.

(** *** Connections *)

(** There are connections only while there is a session. *)
Definition alive h : Prop := h_session h = true \/ h_tcp_connections h = ∅.
Definition lively h h' : Prop := alive h -> quietly h h'.

Lemma calm_alive h h' : calm h h' -> alive h -> alive h'.
Proof.
  intros Hc [Hs|He]; [left; by rewrite (calm_session _ _ Hc)|right]. apply map_empty. intros id. destruct (h_tcp_connections h' !! id) as [c'|] eqn:E'; [|done].
  destruct (calm_tcp _ _ Hc id c' E') as (c & E1 & _). by rewrite He in E1.
Qed.

#[export] Instance lively_preorder : PreOrder lively.
Proof.
  split; [by intros h Ha|]. intros h1 h2 h3 H12 H23 Ha Hd. specialize (H12 Ha Hd). transitivity h2; [done|]. apply H23; [by eapply calm_alive|by eapply calm_deferred].
Qed.

Lemma quietly_lively h h' : quietly h h' -> lively h h'.
Proof. by intros Hq _. Qed.

Lemma calm_lively h h' : calm h h' -> lively h h'.
Proof. intros Hc. by apply quietly_lively, calm_quietly. Qed.

Lemma lively_close_tcp id graceful h : lively h (close_tcp_connection ng id graceful h).
Proof.
  intros Ha. unfold close_tcp_connection. destruct (h_tcp_connections h !! id) as [c|] eqn:Ec; [|done].
  destruct Ha as [Hs|He]; [|by rewrite He in Ec]. rewrite Hs. destruct (TCF_STREAM_CLOSED c) eqn:Esc; cbn [negb].
  - apply calm_quietly, calm_clean, Z.eqb_refl.
  - cbv zeta. set (h1 := set_connection id _ h). transitivity h1; [|apply quietly_reset]. apply calm_quietly, (calm_set id c); done.
Qed.

Lemma lively_close_connection id graceful async h : lively h (close_connection ng id graceful async h).
Proof.
  unfold close_connection. destruct (UdpMux.check_connection _ _).
  - apply calm_lively, calm_put_udp. destruct async; [apply narrows_close_async|apply narrows_close_connection].
  - destruct (h_tcp_connections h !! id) as [c|] eqn:Ec; [|apply calm_lively, calm_raised]. destruct async; [|apply lively_close_tcp].
    apply calm_lively, (calm_set id c); done.
Qed.

Lemma lively_close_task id h : lively h (close_task ng id h).
Proof.
  unfold close_task. destruct (h_tcp_connections h !! id) as [c|] eqn:Ec; [|done]. destruct (tc_close_task c) as [graceful|]; [|done].
  set (h1 := set_connection id _ h). transitivity h1; [apply calm_lively, (calm_set id c); done|apply lively_close_tcp].
Qed.

Lemma lively_flow_control id size window h : lively h (update_flow_control env ng id size window h).
Proof.
  unfold update_flow_control. destruct (h_tcp_connections h !! id) as [c|] eqn:Ec.
  - cbv zeta. set (h1 := set_connection id _ h). transitivity h1; [apply calm_lively, (calm_set id c); done|]. clearbody h1.
    set (h2 := if TCF_STREAM_CLOSED c then h1 else _). transitivity h2.
    { subst h2. destruct (TCF_STREAM_CLOSED c); [done|]. apply quietly_lively, quietly_set_recv_window. }
    clearbody h2. destruct (h_tcp_connections h2 !! id) as [c2|] eqn:Ec2; [|apply calm_lively, calm_faulted]. destruct (_ && _); [|done].
    by apply calm_lively, (calm_set id c2).
  - destruct (UdpMux.check_connection _ _); [|done]. apply calm_lively, calm_put_udp, narrows_read_enabled.
Qed.

Lemma lively_read_calls id calls : forall h, lively h (fold_left (read_call env ng id) calls h).
Proof.
  induction calls as [|c calls IH]; intros h; [done|]. cbn [fold_left]. etransitivity; [|apply IH].
  destruct c; [apply lively_flow_control|apply lively_close_connection].
Qed.

Lemma lively_handle_read id data h : lively h (snd (handle_read env ng id data h)).
Proof.
  unfold handle_read. cbn [snd]. set (h1 := emit _ h). transitivity h1; [apply calm_lively, calm_emitted|].
  set (h2 := fold_left _ _ h1). transitivity h2; [apply lively_read_calls|]. destruct (_ <? 0); [apply lively_close_tcp|done].
Qed.

Lemma calm_updated id f h : (forall c, tc_stream_id (f c) = tc_stream_id c /\ (leaving c -> leaving (f c)) /\ TCF_STREAM_CLOSED (f c) = TCF_STREAM_CLOSED c) ->
  calm h (update_connection id f h).
Proof.
  intros Hf. unfold update_connection. destruct (h_tcp_connections h !! id) as [c|] eqn:Ec; [|done]. destruct (Hf c) as (F1 & F2 & F3).
  apply (calm_set id c); try done. congruence.
Qed.

Lemma lively_read_out_loop fuel id : forall h, lively h (snd (read_out_loop env ng fuel id h)).
Proof.
  induction fuel as [|fuel IH]; intros h; cbn [read_out_loop]; (destruct (h_tcp_connections h !! id) as [c|] eqn:Ec; [|apply calm_lively, calm_faulted]);
    (destruct (tc_unread_data c) as [b|]; [|apply calm_lively, calm_faulted]); (destruct (_ && _); [|done]); [apply calm_lively, calm_faulted|].
  destruct (buf_peek (he_buf env) b) as [[err data] b']. set (h1 := set_connection id _ h). transitivity h1; [apply calm_lively, (calm_set id c); done|].
  destruct err; [done|]. pose proof (lively_handle_read id data h1) as Hr. destruct (handle_read env ng id data h1) as [r h2]. cbn [snd] in Hr.
  transitivity h2; [done|]. destruct (0 <? r); [|by destruct (r <? 0)]. set (h3 := update_connection id _ h2). transitivity h3; [|apply IH].
  apply calm_lively, calm_updated. done.
Qed.

Lemma calm_need_connection id h : calm h (need_connection id h).
Proof. unfold need_connection. destruct (h_tcp_connections h !! id); [done|apply calm_faulted]. Qed.

Lemma lively_read_out id h : lively h (snd (read_out_pending_data env ng id h)).
Proof.
  unfold read_out_pending_data. destruct (h_tcp_connections h !! id) as [c|]; [|apply calm_lively, calm_faulted]. destruct (tc_unread_data c) as [b|]; [|done].
  pose proof (lively_read_out_loop (Z.to_nat (buf_size (he_buf env) b)) id h) as Hr. destruct (read_out_loop _ _ _ id h) as [r h1]. cbn [snd] in Hr.
  transitivity h1; [done|]. destruct (r <? 0); [done|]. unfold release_buffer. cbn [snd]. transitivity (need_connection id h1); [apply calm_lively, calm_need_connection|].
  apply calm_lively, calm_updated. intros c'. destruct (tc_unread_data c'); [|done]. by destruct (_ =? 0).
Qed.

Lemma calm_keep_unread id pending unread h : calm h (snd (keep_unread env id pending unread h)).
Proof.
  unfold keep_unread. destruct (h_tcp_connections h !! id) as [c|] eqn:Ec; [|apply calm_faulted].
  assert (forall b, calm h (set_connection id (c <| tc_unread_data := Some b |>) h)) as Hs by (intros b; by apply (calm_set id c)).
  destruct pending; [destruct (tc_unread_data c) as [b|]; [|apply calm_faulted]|destruct (he_buffer_init env); [|apply Hs]];
    (destruct (buf_push _ _ _) as [err b']; apply Hs).
Qed.

Lemma lively_consume_callback s n h : lively h (consume_callback ng s n h).
Proof. apply quietly_lively, quietly_consume. Qed.

Lemma lively_fold {A} (f : Http2Upstream -> A -> Http2Upstream) xs h : (forall h x, lively h (f h x)) -> lively h (fold_left f xs h).
Proof. intros Hf. revert h. induction xs as [|x xs IH]; intros h; [done|]. cbn. transitivity (f h x); auto. Qed.

Lemma lively_udp_process data h : lively h (snd (udp_process_read_event env ng data h)).
Proof.
  unfold udp_process_read_event. cbn [snd]. set (m := UdpMux.process_read_event _ data _). transitivity (put_udp m h).
  - apply calm_lively, calm_put_udp, narrows_process.
  - apply lively_fold. intros h1 []; try done. apply lively_consume_callback.
Qed.

Lemma lively_icmp_process data h : lively h (snd (icmp_process_read_event ng data h)).
Proof.
  unfold icmp_process_read_event. cbn [snd]. set (m := IcmpMux.process_read_event data _). transitivity (put_icmp m h).
  - apply calm_lively, calm_put_icmp. left. apply icmp_keep_process.
  - apply lively_fold. intros h1 []; try done. apply lively_consume_callback.
Qed.

(** The last part of [handle_data]. *)
Lemma lively_new_data id (pending : bool) data h : lively h (snd (
  let h := need_connection id h in
  let enabled := match h_tcp_connections h !! id with Some c => TCF_READ_ENABLED c | None => false end in
  let h := if enabled && unread_left env id h then fault "unread data is kept" h else h in
  let '(r, h) := if enabled then handle_read env ng id data h else (0, h) in
  if r <? 0 then (r, h) else if r <? zlen data then keep_unread env id pending (drop (Z.to_nat r) data) h else (0, h))).
Proof.
  cbv zeta. transitivity (need_connection id h); [apply calm_lively, calm_need_connection|]. generalize (need_connection id h). clear h. intros h1.
  set (enabled := match h_tcp_connections h1 !! id with Some c => TCF_READ_ENABLED c | None => false end).
  set (h2 := if enabled && _ then _ else h1). transitivity h2; [subst h2; destruct (enabled && _); [apply calm_lively, calm_faulted|done]|]. clearbody h2 enabled. clear h1.
  rename h2 into h1.
  assert (lively h1 (snd (if enabled then handle_read env ng id data h1 else (0, h1)))) as H2 by (destruct enabled; [apply lively_handle_read|done]).
  destruct (if enabled then _ else _) as [r' h2]. cbn [snd] in H2. transitivity h2; [done|]. clear H2. destruct (r' <? 0); [done|].
  destruct (_ <? _); [|done]. apply calm_lively, calm_keep_unread.
Qed.

Lemma lively_handle_data s data h : lively h (snd (handle_data env ng s data h)).
Proof.
  unfold handle_data. destruct (bool_decide _); [apply lively_udp_process|]. destruct (bool_decide _); [apply lively_icmp_process|].
  destruct (get_conn_by_stream_id s h) as [[id c]|]; [|done]. cbv zeta. set (pending := match tc_unread_data c with Some _ => true | None => false end).
  assert (lively h (snd (if pending then read_out_pending_data env ng id h else (0, h)))) as H1 by (destruct pending; [apply lively_read_out|done]).
  destruct (if pending then _ else _) as [r h1]. cbn [snd] in H1. transitivity h1; [done|]. clear H1. destruct (r <? 0); [done|]. apply lively_new_data.
Qed.

(** *** While the socket is handled *)

Definition handled h h' : Prop := (0 < h_in_handler h)%nat -> lively h h'.

#[export] Instance handled_preorder : PreOrder handled.
Proof.
  split; [by intros h Ha|]. intros h1 h2 h3 H12 H23 Hin Ha Hd. specialize (H12 Hin Ha Hd). transitivity h2; [done|].
  apply H23; [by rewrite (calm_in_handler _ _ H12)|by eapply calm_alive|by eapply calm_deferred].
Qed.

Lemma lively_handled h h' : lively h h' -> handled h h'.
Proof. by intros Hl _. Qed.

Lemma handled_defer error h : handled h (close_session_inner env ng error h).
Proof. intros Hin. by apply calm_lively, quietly_defer. Qed.

Ltac same := apply calm_unchanged; try done; try (by left); (by eexists; first [reflexivity|symmetry; apply app_nil_r]).

Lemma handled_response s headers h : handled h (handle_response env ng s headers h).
Proof.
  unfold handle_response. destruct (_ =? _); [apply handled_defer|]. apply lively_handled, calm_lively.
  destruct (bool_decide _); [apply calm_put_udp, narrows_response|].
  destruct (bool_decide _); [apply calm_put_icmp; left; unfold IcmpMux.handle_response, IcmpMux.assert_established; by destruct (IcmpMux.established _)|].
  cbv zeta. set (response := match get_conn_by_stream_id s h with Some _ => _ | None => _ end). assert (calm h response) as Hr.
  { subst response. destruct (get_conn_by_stream_id s h) as [[id c]|] eqn:Eg; [|same]. destruct (_ =? _); [apply calm_raised|].
    apply get_conn_some in Eg as [_ Ec]. apply (calm_set id c); done. }
  destruct (h_health_check_info h) as [info|] eqn:Ei; [|done]. destruct (_ =? s); [|done]. destruct (_ =? _); [done|].
  apply calm_unchanged; try done; try (by left); [|by exists []; rewrite app_nil_r]. left. unfold check_stream. cbn. by rewrite Ei.
Qed.

Context (Hwrite : forall n, fst (he_write env n) = true).

Lemma handled_event what h : handled h (snd (http_handler env ng what h)).
Proof.
  destruct what as [s headers|s data|s|s code|s length|code|data].
  - apply handled_response.
  - apply lively_handled, lively_handle_data.
  - apply lively_handled, quietly_lively, quietly_send_data.
  - apply lively_handled, calm_lively, calm_stream_processed.
  - apply lively_handled, calm_lively. exact (calm_data_sent env s length h).
  - apply handled_defer.
  - apply lively_handled, quietly_lively. pose proof (quietly_write env ng data h) as Hw. pose proof (Hwrite (now_at h)) as Hok. cbn [http_handler].
    unfold tcp_socket_write in *. destruct (he_write env (now_at h)) as [ok flushed]. cbn [fst snd] in *. by subst ok.
Qed.

Lemma handled_frame frame h : handled h (on_frame_recv_callback env ng frame h).
Proof.
  unfold on_frame_recv_callback. set (h1 := match frame with F_headers _ _ _ => _ | _ => _ end). assert (handled h h1) as H1.
  { assert (forall s end_stream h, handled h (match stream_of s h with Some _ => if end_stream : bool then on_end_stream env ng s h else h | None => h end)) as He.
    { intros s [|] h2; destruct (stream_of s h2); try done. apply handled_event. }
    destruct frame as [s end_headers end_stream|s end_stream|s|code|s increment|]; subst h1.
    - set (h2 := match stream_of s h with Some _ => _ | None => _ end). transitivity h2; [|apply He]. subst h2. destruct (stream_of s h) as [st|]; [|done].
      destruct end_headers; [|done]. unfold on_end_headers. set (h3 := put_stream _ _ h). transitivity h3; [apply lively_handled, calm_lively, calm_put_stream|].
      apply handled_event.
    - apply He.
    - destruct (stream_of s h); [apply lively_handled, calm_lively, calm_put_stream|done].
    - apply handled_event.
    - destruct (_ && _); [apply handled_event|done].
    - done. }
  cbv zeta. transitivity h1; [done|]. destruct (he_want_write env _); [|done]. by apply lively_handled, quietly_lively, ng_quiet.
Qed.

Lemma handled_callback cb h : (forall cb h, plain cb -> quietly h (callback env ng cb h)) -> handled h (callback env ng cb h).
Proof.
  intros Hp. destruct cb as [s|s name value|frame|s data|s code|data|s length]; try by apply lively_handled, quietly_lively, Hp.
  - apply lively_handled, calm_lively. cbn [callback]. unfold on_begin_headers_callback.
    destruct (stream_of s h); (etransitivity; [apply calm_put_stream|apply calm_emitted]).
  - apply lively_handled, calm_lively. cbn [callback]. unfold on_header_callback. destruct (stream_of s h); [|apply calm_emitted].
    etransitivity; [apply calm_put_stream|apply calm_emitted].
  - apply handled_frame.
  - cbn [callback]. unfold on_data_chunk_recv_callback. set (x := match stream_of s h with Some _ => _ | None => _ end).
    assert (handled h (snd x)) as Hx by (subst x; destruct (stream_of s h); [apply handled_event|done]). destruct x as [r h1]. cbn [snd] in Hx.
    transitivity h1; [done|]. transitivity (snd (ng (NG_consume_connection (zlen data)) h1)); [by apply lively_handled, quietly_lively, ng_quiet|].
    apply lively_handled, calm_lively, calm_emitted.
Qed.
End Operations.

Section Receive.
Context {E B : Type} `{DataBuffer E B} `{SocketAddressLib} (env : H2Env (E := E) (B := B)) (Htame : tame env).
Implicit Types (h : Http2Upstream (B := B)).

Ltac same := apply calm_unchanged; try done; try (by left); (by eexists; first [reflexivity|symmetry; apply app_nil_r]).

(** Any call of nghttp2. *)
Lemma handled_nghttp2 depth c h : handled h (snd (nghttp2 env depth c h)).
Proof.
  destruct depth as [|depth]; cbn [nghttp2 snd]; [apply lively_handled, calm_lively, calm_emitted|].
  set (h1 := (emit (N_call c) h) <| h_busy := _ |>). transitivity h1; [apply lively_handled, calm_lively; same|]. clearbody h1.
  set (cbs := na_callbacks _). clearbody cbs. set (h2 := fold_left _ cbs h1). transitivity h2; [|apply lively_handled, calm_lively; same]. subst h2.
  revert h1. induction cbs as [|cb cbs IH]; intros h1; [done|]. cbn. transitivity (callback env (nghttp2 env depth) cb h1); [|apply IH].
  apply handled_callback; [by intros; apply quietly_nghttp2|apply (tame_write _ Htame)|by intros; apply quietly_plain].
Qed.

Lemma handled_input depth data h : handled h (snd (http2_session_input env (nghttp2 env depth) data h)).
Proof.
  unfold http2_session_input. transitivity (need_session h); [apply lively_handled, calm_lively, calm_need|]. generalize (need_session h). clear h. intros h.
  pose proof (handled_nghttp2 depth (NG_mem_recv data) h) as H1. destruct (nghttp2 env depth (NG_mem_recv data) h) as [r h1]. cbn [snd] in H1.
  transitivity h1; [done|]. destruct (r <? 0); [done|]. destruct (he_want_write env _); [|done].
  pose proof (handled_nghttp2 depth NG_session_send h1) as H2. by destruct (nghttp2 env depth NG_session_send h1).
Qed.
End Receive.

(** ** Between the steps *)

Section Boundary.
Context {E B : Type} `{DataBuffer E B} `{SocketAddressLib}.
Implicit Types (h : Http2Upstream (B := B)) (id s : Z).

Definition forgets_none h h' : Prop := exists outs, h_out h' = h_out h ++ outs /\
  forall id, h_tcp_connections h !! id <> None -> h_tcp_connections h' !! id = None -> (1 <= h2_reports id outs)%nat.

#[export] Instance forgets_none_preorder : PreOrder forgets_none.
Proof.
  split; [intros h; exists []; rewrite app_nil_r; split; [done|congruence]|].
  intros h1 h2 h3 (o1 & Eo1 & R1) (o2 & Eo2 & R2). exists (o1 ++ o2). split; [by rewrite Eo2, Eo1, app_assoc|]. intros id Hid1 Hid3. rewrite h2_reports_app.
  destruct (h_tcp_connections h2 !! id) eqn:E2; [specialize (R2 id)|specialize (R1 id Hid1 E2); lia]. rewrite E2 in R2. specialize (R2 ltac:(done) Hid3). lia.
Qed.

(** The tables, outside of the handler of the socket too. *)
Record sound h : Prop := mkSound {
  so_alive : alive h;
  so_streams : h_session h = true -> h_streams h <> None;
  so_agree : agree h;
  so_apart : apart h;
  so_covered : covered h;
  so_distinct : forall id, h_tcp_connections h !! id <> None -> UdpMux.check_connection id (h_udp_mux h) = false;
  so_next : 1 <= h_next_stream_id h <= UINT32_MAX;
  so_below : forall id c, h_tcp_connections h !! id = Some c -> 1 <= tc_stream_id c < h_next_stream_id h;
  so_below_udp : forall s, udp_stream h = Some s -> s < h_next_stream_id h;
  so_below_icmp : forall s, icmp_stream h = Some s -> s < h_next_stream_id h;
  so_below_check : forall s, check_stream h = Some s -> s < h_next_stream_id h \/ s = UINT32_MAX;
}.

Definition http2_wf h : Prop := sound h /\ h_in_handler h = 0%nat /\ h_closed h = false.

Lemma calm_sound h h' : calm h h' -> sound h -> sound h'.
Proof.
  intros Hc [S1 S2 S3 S4 S5 S6 S7 S8 S9 S10 S11]. pose proof (calm_next _ _ Hc) as En. pose proof (calm_udp _ _ Hc) as [Hu Hn]. split.
  - by eapply calm_alive.
  - rewrite (calm_session _ _ Hc). intros Hs. by apply (calm_streams _ _ Hc), S2.
  - by apply (calm_agree _ _ Hc).
  - by eapply calm_apart.
  - by apply (calm_covered _ _ Hc).
  - intros id Hid. destruct (h_tcp_connections h' !! id) as [c'|] eqn:E'; [|done]. destruct (calm_tcp _ _ Hc id c' E') as (c & E1 & _).
    destruct (UdpMux.check_connection id (h_udp_mux h')) eqn:E2; [|done]. apply Hn in E2. rewrite S6 in E2; [done|by rewrite E1].
  - by rewrite En.
  - intros id c' E'. destruct (calm_tcp _ _ Hc id c' E') as (c & E1 & -> & _). rewrite En. by eapply S8.
  - intros s Es. rewrite En. apply S9. by eapply fewer_some.
  - intros s Es. rewrite En. apply S10. eapply fewer_some; [apply (calm_icmp _ _ Hc)|done].
  - intros s Es. rewrite En. apply S11. eapply fewer_some; [apply (calm_check _ _ Hc)|done].
Qed.

(** What holds after a step. *)
Definition keeps h h' : Prop := http2_wf h -> http2_wf h' /\ forgets_none h h'.

#[export] Instance keeps_preorder : PreOrder keeps.
Proof.
  split; [by intros h Hw|]. intros h1 h2 h3 H12 H23 Hw. apply H12 in Hw as [Hw F12]. apply H23 in Hw as [Hw F23]. split; [done|by transitivity h2].
Qed.

Lemma lively_keeps h h' : lively h h' -> keeps h h'.
Proof.
  intros Hl (Hs & Hh & Hcl). assert (calm h h') as Hc by (apply Hl; [apply Hs|intros Ht; congruence]). split; [|apply (calm_out _ _ Hc)].
  split_and!; [by eapply calm_sound|by rewrite (calm_in_handler _ _ Hc)|].
  destruct (h_closed h') eqn:E'; [|done]. apply (calm_closed _ _ Hc) in E' as [E'|E']; [congruence|lia].
Qed.

Lemma calm_keeps h h' : calm h h' -> keeps h h'.
Proof. intros Hc. by apply lively_keeps, calm_lively. Qed.

(** *** New streams *)

(** The stream is not that of anything. *)
Record spare s h : Prop := mkSpare {
  sp_range : 1 <= s < h_next_stream_id h;
  sp_tcp : forall id c, h_tcp_connections h !! id = Some c -> tc_stream_id c <> s;
  sp_udp : udp_stream h <> Some s;
  sp_icmp : icmp_stream h <> Some s;
  sp_check : check_stream h <> Some s;
}.

Lemma calm_spare s h h' : calm h h' -> spare s h -> spare s h'.
Proof.
  intros Hc [P1 P2 P3 P4 P5]. split.
  - by rewrite (calm_next _ _ Hc).
  - intros id c' E'. destruct (calm_tcp _ _ Hc id c' E') as (c & E1 & -> & _). by eapply P2.
  - intros Es. apply P3. eapply fewer_some; [apply (proj1 (calm_udp _ _ Hc))|done].
  - intros Es. apply P4. eapply fewer_some; [apply (calm_icmp _ _ Hc)|done].
  - intros Es. apply P5. eapply fewer_some; [apply (calm_check _ _ Hc)|done].
Qed.

(** There is room for another stream. *)
Definition roomy h : Prop := h_next_stream_id h + 2 <= UINT32_MAX.

Lemma next_stream h : sound h -> roomy h -> let h' := h <| h_next_stream_id := h_next_stream_id h + 2 |> in sound h' /\ spare (h_next_stream_id h) h'.
Proof.
  intros [S1 S2 S3 S4 S5 S6 S7 S8 S9 S10 S11] Hr h'. unfold roomy in Hr. split; split; try done; cbn.
  - lia.
  - intros id c Hid. specialize (S8 id c Hid). lia.
  - intros s Es. specialize (S9 s Es). lia.
  - intros s Es. specialize (S10 s Es). lia.
  - intros s Es. specialize (S11 s Es). lia.
  - lia.
  - intros id c Hid. specialize (S8 id c Hid). lia.
  - intros Es. specialize (S9 _ Es). lia.
  - intros Es. specialize (S10 _ Es). lia.
  - intros Es. specialize (S11 _ Es). lia.
Qed.

Lemma keeps_udp m h : (forall s, UdpMux.get_stream_id m = Some s -> udp_stream h = Some s \/ spare s h) ->
  (forall id, UdpMux.check_connection id m = true -> UdpMux.check_connection id (h_udp_mux h) = true \/ h_tcp_connections h !! id = None) -> keeps h (put_udp m h).
Proof.
  intros Hs Hids ([S1 S2 S3 S4 S5 S6 S7 S8 S9 S10 S11] & Hw). split; [split; [|done]|by eexists; split; [reflexivity|cbn; congruence]]. split; try done.
  - intros id c Hid. destruct (S4 id c Hid) as (A1 & A2 & A3). split_and!; [|done|done]. intros Es. apply Hs in Es as [Es|Es]; [done|by eapply (sp_tcp _ _ Es)].
  - intros id Hid. destruct (UdpMux.check_connection id (h_udp_mux (put_udp m h))) eqn:Ec; [|done]. apply Hids in Ec as [Ec|Ec]; [|done]. by rewrite S6 in Ec.
  - intros s Es. apply Hs in Es as [Es|Es]; [by apply S9|apply (sp_range _ _ Es)].
Qed.

Lemma keeps_icmp m h : (forall s, IcmpMux.get_stream_id m = Some s -> icmp_stream h = Some s \/ spare s h) -> keeps h (put_icmp m h).
Proof.
  intros Hs ([S1 S2 S3 S4 S5 S6 S7 S8 S9 S10 S11] & Hw). split; [split; [|done]|by eexists; split; [reflexivity|cbn; congruence]]. split; try done.
  - intros id c Hid. destruct (S4 id c Hid) as (A1 & A2 & A3). split_and!; [done| |done]. intros Es. apply Hs in Es as [Es|Es]; [done|by eapply (sp_tcp _ _ Es)].
  - intros s Es. apply Hs in Es as [Es|Es]; [by apply S10|apply (sp_range _ _ Es)].
Qed.

Lemma keeps_check info h : spare (hc_stream_id info) h \/ hc_stream_id info = UINT32_MAX -> keeps h (h <| h_health_check_info := Some info |>).
Proof.
  intros Hs ([S1 S2 S3 S4 S5 S6 S7 S8 S9 S10 S11] & Hw). split; [split; [|done]|by exists []; rewrite app_nil_r; split; [|cbn; congruence]]. split; try done.
  - intros id c Hid. destruct (S4 id c Hid) as (A1 & A2 & A3). split_and!; [done|done|]. intros [= Es]. destruct Hs as [Hs|Hs].
    + by eapply (sp_tcp _ _ Hs).
    + specialize (S8 id c Hid). lia.
  - intros s [= <-]. destruct Hs as [Hs|Hs]; [left; apply (sp_range _ _ Hs)|by right].
Qed.

Lemma keeps_connection id c h : h_tcp_connections h !! id = None -> UdpMux.check_connection id (h_udp_mux h) = false -> h_session h = true ->
  spare (tc_stream_id c) h -> stream_of (tc_stream_id c) h <> None ->
  keeps h ((set_connection id c h) <| h_conn_id_by_stream_id := <[tc_stream_id c := id]> (h_conn_id_by_stream_id h) |>).
Proof.
  intros Hnew Hudp Hses [P1 P2 P3 P4 P5] Hknown ([S1 S2 S3 S4 S5 S6 S7 S8 S9 S10 S11] & Hw). split; [split; [|done]|].
  2:{ exists []. rewrite app_nil_r. split; [done|]. cbn. intros id' Hid E'. apply lookup_insert_None in E' as [E' _]. done. }
  split; try done; cbn.
  - by left.
  - intros s id'. cbn. destruct (decide (tc_stream_id c = s)) as [<-|Hs].
    + rewrite lookup_insert_eq. split.
      * intros [= <-]. exists c. by rewrite lookup_insert_eq.
      * intros (c' & E' & Es). apply lookup_insert_Some in E' as [[-> _]|[_ E']]; [done|]. by apply P2 in E'.
    + rewrite lookup_insert_ne by done. rewrite (S3 s id'). split; intros (c' & E' & Es).
      * exists c'. rewrite lookup_insert_ne; [done|]. congruence.
      * apply lookup_insert_Some in E' as [[-> <-]|[_ E']]; [done|by exists c'].
  - intros id' c' E'. cbn in E'. apply lookup_insert_Some in E' as [[-> <-]|[_ E']]; [done|by apply (S4 id')].
  - intros id' c' E'. cbn in E'. apply lookup_insert_Some in E' as [[-> <-]|[_ E']]; [done|by apply (S5 id')].
  - intros id' E'. destruct (decide (id = id')) as [<-|]; [done|]. rewrite lookup_insert_ne in E' by done. by apply S6.
  - intros id' c' E'. apply lookup_insert_Some in E' as [[-> <-]|[_ E']]; [lia|by eapply S8].
Qed.
End Boundary.

Section Steps.
Context {E B : Type} `{DataBuffer E B} `{SocketAddressLib} (env : H2Env (E := E) (B := B)) (Htame : tame env).
Implicit Types (h : Http2Upstream (B := B)) (id s : Z).

Abbreviation ng := (nghttp2 env (he_depth env)).

Ltac same := apply calm_unchanged; try done; try (by left); (by eexists; first [reflexivity|symmetry; apply app_nil_r]).

Lemma ng_quiet c h : (forall data, c <> NG_mem_recv data) -> quietly h (snd (ng c h)).
Proof. by apply quietly_nghttp2. Qed.

(** A request for a stream. *)
Lemma request_stream dst app h : http2_wf h -> roomy h -> let '(r, h') := send_connect_request env ng dst app h in
  http2_wf h' /\ forgets_none h h' /\ (forall id, h_tcp_connections h !! id = None -> h_tcp_connections h' !! id = None) /\
  narrows (h_udp_mux h) (h_udp_mux h') /\ (forall s, r = Some s -> h_session h' = true /\ spare s h').
Proof.
  intros Hw Hroom. unfold send_connect_request. destruct (h_session h) eqn:Es; cbn [negb]; [|done]. destruct Hw as (Hs & Hin & Hcl).
  destruct (next_stream h Hs Hroom) as [Hs1 Hsp]. pose proof (so_next _ Hs) as Hn. unfold roomy in Hroom.
  change UINT32_MAX with (2 ^ 32 - 1) in *. rewrite (uwrap_id 64), (uwrap_id 32) by (unfold in_width; lia). cbv zeta. set (h1 := h <| h_next_stream_id := _ |>) in *.
  pose proof (quietly_send_headers ng ng_quiet (h_next_stream_id h) (make_http_connect_request env dst app) h1) as Hq.
  destruct (http2_session_send_headers _ _ _ h1) as [r h2]. cbn [snd] in Hq. assert (calm h1 h2) as Hc by (apply Hq; cbn; unfold deferred; cbn; congruence).
  destruct (lively_keeps h1 h2 (calm_lively _ _ Hc)) as [Hw2 Hf2]; [done|]. split_and!; [done| | |exact (calm_udp _ _ Hc)|].
  - destruct Hf2 as (outs & Eo & R). by exists outs.
  - intros id Hid. destruct (h_tcp_connections h2 !! id) as [c|] eqn:E2; [|done]. destruct (calm_tcp _ _ Hc id c E2) as (c1 & E1 & _). cbn in E1. congruence.
  - intros s Hs2. destruct (r =? 0); [|done]. injection Hs2 as <-. split; [by rewrite (calm_session _ _ Hc)|by eapply calm_spare].
Qed.

(** *** The end of the session *)

Lemma calm_gone h h' id : calm h h' -> h_tcp_connections h !! id = None -> h_tcp_connections h' !! id = None.
Proof.
  intros Hc Hid. destruct (h_tcp_connections h' !! id) as [c'|] eqn:E'; [|done]. destruct (calm_tcp _ _ Hc id c' E') as (c & E1 & _). congruence.
Qed.

(** The client has closed what there is with the id. *)
Definition left_alone id h : Prop := forall c, h_tcp_connections h !! id = Some c -> leaving c.

Lemma calm_left_alone h h' id : calm h h' -> left_alone id h -> left_alone id h'.
Proof. intros Hc Hl c' E'. destruct (calm_tcp _ _ Hc id c' E') as (c & E1 & _ & Hk). by apply Hk, Hl. Qed.

Lemma close_connection_leaves id h : sound h -> deferred h -> left_alone id (close_connection ng id false false h).
Proof.
  intros Hs Hd c'. unfold close_connection. destruct (UdpMux.check_connection id (h_udp_mux h)) eqn:Eu.
  - cbn. intros Hc. pose proof (so_distinct _ Hs id) as Hn. rewrite Hc in Hn. rewrite Hn in Eu; done.
  - destruct (h_tcp_connections h !! id) as [c|] eqn:Ec; [|cbn; congruence]. unfold close_tcp_connection. rewrite Ec.
    destruct (so_alive _ Hs) as [Hses|He]; [|by rewrite He in Ec]. rewrite Hses. destruct (TCF_STREAM_CLOSED c) eqn:Esc; cbn [negb].
    + unfold clean_tcp_connection_data. cbn. rewrite Ec. cbn. by rewrite lookup_delete_eq.
    + cbv zeta. set (h1 := set_connection id _ h). pose proof (quietly_reset ng ng_quiet (tc_stream_id c) NGHTTP2_CANCEL h1) as Hq.
      intros Hc'. destruct (calm_tcp _ _ (Hq Hd) id c' Hc') as (c1 & E1 & _ & Hk). apply Hk. cbn in E1. rewrite lookup_insert_eq in E1. by injection E1 as <-.
Qed.

Lemma close_all_leave xs : forall h, sound h -> deferred h -> let h' := for_ids xs (fun id => close_connection ng id false false) h in
  calm h h' /\ forall id, id ∈ xs -> left_alone id h'.
Proof.
  induction xs as [|x xs IH]; intros h Hs Hd; [split; [done|]; intros id Hid; by apply not_elem_of_nil in Hid|]. cbn.
  pose proof (close_connection_leaves x h Hs Hd) as Hx. pose proof (lively_close_connection ng ng_quiet x false false h (so_alive _ Hs) Hd) as Hc.
  set (h1 := close_connection ng x false false h) in *. clearbody h1.
  destruct (IH h1) as [Hc1 Hl]; [by eapply calm_sound|by eapply calm_deferred|]. split; [by transitivity h1|]. intros id [->|Hid]%elem_of_cons; [|by apply Hl].
  by eapply calm_left_alone.
Qed.

Lemma leftover_ends xs id s : forall h, agree h -> apart h -> covered h -> left_alone id h -> s ∈ xs ->
  (forall c, h_tcp_connections h !! id = Some c -> tc_stream_id c = s) ->
  h_tcp_connections (for_ids xs (fun s => close_stream (stream_processed env) s HTTP_SESSION_INVALID_STATE_ERROR) h) !! id = None.
Proof.
  assert (forall xs h, calm h (for_ids xs (fun s => close_stream (stream_processed env) s HTTP_SESSION_INVALID_STATE_ERROR) h)) as Hall.
  { intros ys h. apply calm_for_ids. intros. apply calm_close_stream. }
  induction xs as [|x xs IH]; intros h Ha Hap Hcov Hl Hin Hst; [by apply not_elem_of_nil in Hin|]. cbn. fold (for_ids xs (fun s => close_stream (stream_processed env) s HTTP_SESSION_INVALID_STATE_ERROR)).
  pose proof (calm_close_stream env x HTTP_SESSION_INVALID_STATE_ERROR h) as Hc. destruct (decide (x = s)) as [->|Hne].
  - apply (calm_gone _ _ id (Hall xs _)). destruct (h_tcp_connections (close_stream _ s _ h) !! id) as [c'|] eqn:E'; [|done]. exfalso.
    destruct (calm_tcp _ _ Hc id c' E') as (c & E1 & Es & Hk). destruct (Hk (Hl c E1)) as [_ Hopen]. specialize (Hst c E1).
    assert (stream_of s h <> None) as Hknown by (rewrite <- Hst; apply (Hcov id c E1), Hl, E1).
    revert E'. unfold close_stream. destruct (stream_of s h); [|done]. intros E'.
    assert (h_tcp_connections (stream_processed env s HTTP_SESSION_INVALID_STATE_ERROR h) !! id = Some c') as E2
      by (revert E'; unfold drop_stream; by destruct (h_streams _)).
    pose proof (stream_processed_closed env s _ h id c' Ha Hap E2 ltac:(congruence)). congruence.
  - apply elem_of_cons in Hin as [->|Hin]; [done|]. apply IH; [by apply (calm_agree _ _ Hc)|by eapply calm_apart|by apply (calm_covered _ _ Hc)|
      by eapply calm_left_alone|done|]. intros c' E'. destruct (calm_tcp _ _ Hc id c' E') as (c & E1 & -> & _). by apply Hst.
Qed.

Lemma session_close_ends h : deferred h -> agree h -> apart h -> covered h -> (forall id, left_alone id h) ->
  exists h', http2_session_close env ng (stream_processed env) h = h' <| h_streams := None |> /\ calm h h' /\ h_tcp_connections h' = ∅.
Proof.
  intros Hd Ha Hap Hcov Hl. unfold http2_session_close. set (h1 := if (0 <? _)%nat then _ else h).
  assert (quietly h h1) as H1 by (subst h1; destruct (0 <? _)%nat; [apply calm_quietly, calm_faulted|done]). clearbody h1.
  pose proof (ng_quiet NG_terminate h1 ltac:(done)) as H2. destruct (ng NG_terminate h1) as [r2 h2]. cbn [snd] in H2.
  pose proof (ng_quiet NG_session_send h2 ltac:(done)) as H3. destruct (ng NG_session_send h2) as [r3 h3]. cbn [snd] in H3.
  assert (calm h h3) as Hc by (apply (transitivity H1 (transitivity H2 H3)), Hd). clear H1 H2 H3 h1 h2 r2 r3. cbv zeta.
  set (xs := in_table_order _ _). eexists. split; [reflexivity|]. split.
  - transitivity h3; [done|]. apply calm_for_ids. intros. apply calm_close_stream.
  - apply map_empty. intros id. destruct (h_tcp_connections h3 !! id) as [c|] eqn:Ec.
    + apply (calm_agree _ _ Hc) in Ha as Ha3. apply (calm_apart _ _ Hc) in Hap as Hap3. pose proof (calm_covered _ _ Hc Ha Hap Hcov) as Hcov3.
      pose proof (calm_left_alone _ _ id Hc (Hl id)) as Hl3. apply (leftover_ends xs id (tc_stream_id c)); try done; [|congruence].
      apply in_table_order_elem. destruct (Hl3 c Ec) as [_ Hopen]. pose proof (Hcov3 id c Ec Hopen) as Hk. unfold stream_of in Hk.
      destruct (h_streams h3) as [streams|]; [|done]. cbn in *. destruct (streams !! tc_stream_id c) as [st|] eqn:Est; [|done].
      apply list_elem_of_In, in_map_iff. exists (tc_stream_id c, st). split; [done|]. by apply list_elem_of_In, elem_of_map_to_list.
    + eapply calm_gone; [|exact Ec]. apply calm_for_ids. intros. apply calm_close_stream.
Qed.

Lemma conn_ids_elem id h : h_tcp_connections h !! id <> None -> id ∈ conn_ids env h.
Proof.
  intros Hid. apply in_table_order_elem. destruct (h_tcp_connections h !! id) as [c|] eqn:Ec; [|done].
  apply list_elem_of_In, in_map_iff. exists (id, c). split; [done|]. by apply list_elem_of_In, elem_of_map_to_list.
Qed.

(** The parts of [close_session]. *)
Definition reset_of (o : option Z) h : Http2Upstream := match o with Some s => snd (http_session_reset_stream ng s NGHTTP2_CANCEL h) | None => h end.
Definition end_session h : Http2Upstream :=
  if h_session h then http2_session_close env ng (stream_processed env) (h <| h_session := false |>) else h.
Definition clear_session h : Http2Upstream :=
  let h := h <| h_socket := false |> <| h_tcp_connections := ∅ |> <| h_conn_id_by_stream_id := ∅ |> in
  let h := put_udp (UdpMux.close (he_order_udp env) no_error (h_udp_mux h)) h in
  let h := put_icmp (IcmpMux.close (h_icmp_mux h)) h in
  h <| h_next_stream_id := 1 |> <| h_health_check_info := None |> <| h_closing := false |>.

Lemma http2_close_session_eq h : close_session env ng h =
  if negb (h_socket h) && negb (h_session h) && bool_decide (h_tcp_connections h = ∅) then h
  else
    let h1 := h <| h_closing := true |> in
    let h2 := for_ids (conn_ids env h1) (fun id => close_connection ng id false false) h1 in
    let h3 := reset_of (UdpMux.get_stream_id (h_udp_mux h2)) h2 in
    clear_session (end_session (reset_of (IcmpMux.get_stream_id (h_icmp_mux h3)) h3)).
Proof. done. Qed.

(** Nothing is left of a session that was closed. *)
Lemma clear_session_wf h : h_session h = false -> h_in_handler h = 0%nat -> h_closed h = false -> http2_wf (clear_session h).
Proof.
  intros Es Ei Ec. split_and!; [|done|done]. split; try done; cbn; try (by right); try (intros; congruence).
  intros s id. cbn. rewrite lookup_empty. split; [done|]. intros (c & Hc & _). by rewrite lookup_empty in Hc.
Qed.

Lemma clear_session_out h : exists outs, h_out (clear_session h) = h_out h ++ outs.
Proof.
  exists (flat_map udp_event (UdpMux.m_out (UdpMux.close (he_order_udp env) no_error (h_udp_mux h))) ++
    flat_map icmp_event (IcmpMux.m_out (IcmpMux.close (h_icmp_mux h)))). by rewrite app_assoc.
Qed.

Lemma end_session_ends h : sound h -> h_in_handler h = 0%nat -> h_closed h = false -> (forall id, left_alone id h) ->
  let h' := end_session h in
  h_tcp_connections h' = ∅ /\ h_session h' = false /\ h_in_handler h' = 0%nat /\ h_closed h' = false /\ forgets_none h h'.
Proof.
  intros [S1 S2 S3 S4 S5 _ _ _ _ _ _] Hin Hcl Hall. unfold end_session. destruct (h_session h) eqn:Es; [|by destruct S1 as [S1|S1]; [congruence|]].
  destruct (session_close_ends (h <| h_session := false |>)) as (h6 & -> & Hc6 & T6); try done; [by unfold deferred; cbn; rewrite Hcl|]. split_and!; [done| | | |].
  - exact (calm_session _ _ Hc6).
  - rewrite <- Hin. exact (calm_in_handler _ _ Hc6).
  - destruct (h_closed h6) eqn:E6; [|exact E6]. apply (calm_closed _ _ Hc6) in E6 as [E6|E6]; cbn in E6; [congruence|lia].
  - apply (calm_out _ _ Hc6).
Qed.

Lemma keeps_close_session h : keeps h (close_session env ng h).
Proof.
  intros Hw. rewrite http2_close_session_eq. destruct (_ && _); [done|]. destruct Hw as (Hs & Hin & Hcl). cbv zeta. set (h1 := h <| h_closing := true |>).
  set (h2 := for_ids (conn_ids env h1) _ h1). set (h3 := reset_of _ h2).
  assert (sound h1 /\ deferred h1) as [Hs1 Hd1] by (split; [apply (calm_sound h); [same|done]|unfold deferred; cbn; congruence]).
  assert (forgets_none h h1) as F1 by (exists []; rewrite app_nil_r; split; [done|cbn; congruence]).
  destruct (close_all_leave (conn_ids env h1) h1 Hs1 Hd1) as [Hc2 Hl2]. fold h2 in Hc2, Hl2.
  assert (forall id, left_alone id h2) as Hall2.
  { intros id c Ec. destruct (calm_tcp _ _ Hc2 id c Ec) as (c1 & E1 & _). by apply (Hl2 id (conn_ids_elem id h1 ltac:(congruence)) c). }
  assert (forall o h, quietly h (reset_of o h)) as Hreset by (intros [s|] h0; [apply quietly_reset; apply ng_quiet|done]).
  set (h4 := reset_of _ h3). assert (quietly h2 h4) as Hq4 by (transitivity h3; apply Hreset). clearbody h4. clear h3. clearbody h2.
  assert (calm h2 h4) as Hc24 by (apply Hq4; by eapply calm_deferred). assert (calm h1 h4) as Hc4 by by transitivity h2.
  assert (h_in_handler h4 = 0%nat) as Hin4 by by rewrite (calm_in_handler _ _ Hc4).
  assert (h_closed h4 = false) as Hcl4 by (pose proof (calm_deferred _ _ Hc4 Hd1) as Hd4; destruct (h_closed h4) eqn:E4; [apply Hd4 in E4; lia|done]).
  destruct (end_session_ends h4) as (T5 & Ss5 & I5 & C5 & F5); try done; [exact (calm_sound _ _ Hc4 Hs1)|intros id; exact (calm_left_alone _ _ id Hc24 (Hall2 id))|].
  set (h5 := end_session h4) in *. clearbody h5. split; [by apply clear_session_wf|].
  transitivity h1; [done|]. transitivity h4; [apply (calm_out _ _ Hc4)|]. transitivity h5; [done|].
  destruct (clear_session_out h5) as [outs Eo]. exists outs. split; [done|]. intros id. by rewrite T5.
Qed.

Lemma keeps_close_inner error h : keeps h (close_session_inner env ng error h).
Proof.
  intros Hw. unfold close_session_inner. rewrite (proj1 (proj2 Hw)). cbn [Nat.ltb Nat.leb]. revert Hw. change (keeps h (match error with
    | Some code => raise (SERVER_EVENT_ERROR NON_ID code) (close_session env ng h) | None => raise SERVER_EVENT_SESSION_CLOSED (close_session env ng h) end)).
  transitivity (close_session env ng h); [apply keeps_close_session|]. destruct error; apply calm_keeps, calm_raised.
Qed.

(** *** Events of the socket *)

Definition during h h' : Prop :=
  sound h -> h_in_handler h = 1%nat -> sound h' /\ h_in_handler h' = 1%nat /\ forgets_none h h'.

#[export] Instance during_preorder : PreOrder during.
Proof.
  split; [by intros h|]. intros h1 h2 h3 H12 H23 Hs Hin. destruct (H12 Hs Hin) as (Hs2 & Hin2 & F12). destruct (H23 Hs2 Hin2) as (Hs3 & Hin3 & F23).
  split_and!; [done|done|by transitivity h2].
Qed.

Lemma handled_during h h' : handled h h' -> during h h'.
Proof.
  intros Hh Hs Hin. assert (calm h h') as Hc by (apply Hh; [lia|apply Hs|intros _; lia]).
  split_and!; [by eapply calm_sound|by rewrite (calm_in_handler _ _ Hc)|apply (calm_out _ _ Hc)].
Qed.

Lemma handled_read_loop budget : forall reads h, handled h (read_loop env budget reads h).
Proof.
  induction budget as [|budget IH]; intros [|[| | |data drained] reads] h; try done; [apply handled_defer|]. cbn [read_loop].
  pose proof (handled_input env Htame (he_depth env) data h) as H1. destruct (http2_session_input env ng data h) as [r h1]. cbn [snd] in H1.
  transitivity h1; [done|]. clear H1. destruct (r <=? 0); [etransitivity; [|apply handled_defer]; apply lively_handled, calm_lively; same|]. cbv zeta.
  set (h2 := cancel_health_check _). transitivity h2; [apply lively_handled, calm_lively, calm_unchanged; try done; try (by left); [by right|by exists []; rewrite app_nil_r]|].
  clearbody h2. set (h3 := for_ids _ _ h2).
  transitivity h3; [apply lively_handled, quietly_lively, quietly_for_ids; intros; apply quietly_reset, ng_quiet|]. clearbody h3.
  set (h4 := h3 <| h_streams_to_reset := [] |>). transitivity h4; [apply lively_handled, calm_lively; same|]. destruct drained; [apply IH|apply handled_defer].
Qed.

Lemma new_session h : sound h -> h_session h = false -> sound (h <| h_session := true |> <| h_streams := Some ∅ |>).
Proof.
  intros [S1 S2 S3 S4 S5 S6 S7 S8 S9 S10 S11] Hs. destruct S1 as [S1|S1]; [congruence|]. split; try done; [by left|].
  intros id c Hc. cbn in Hc. by rewrite S1 in Hc.
Qed.

Lemma during_establish h : h_session h = false -> during h (snd (establish_http_session env h)).
Proof.
  intros Hses Hs Hin. unfold establish_http_session. rewrite Hses. destruct (he_session_init env); [|by rewrite Hses].
  set (h1 := h <| h_session := true |> <| h_streams := Some ∅ |>). change (h_session h1) with true.
  pose proof (quietly_send_settings ng ng_quiet h1) as Hq. destruct (http_session_send_settings ng h1) as [r h2]. cbn [snd] in *.
  destruct (handled_during h1 h2) as (Hs2 & Hin2 & F2); [by apply lively_handled, quietly_lively|by apply new_session|done|].
  split_and!; [done|done|]. destruct F2 as (outs & Eo & R). by exists outs.
Qed.

(** The socket is connected once. *)
Definition socket_proper (what : TcpSocketEvent) h : Prop := what = TCP_SOCKET_EVENT_CONNECTED -> h_session h = false.

Lemma during_event what h : socket_proper what h -> during h (net_event env what h).
Proof.
  intros Hp. destruct what as [|reads| | | |]; cbn [net_event].
  - unfold socket_connected. set (h1 := emit S_set_timeout h). transitivity h1; [apply handled_during, lively_handled, calm_lively, calm_emitted|].
    destruct (negb _); [apply handled_during, handled_defer|]. pose proof (during_establish h1 (Hp eq_refl)) as He.
    destruct (establish_http_session env h1) as [ok h2]. cbn [snd] in He. transitivity h2; [done|]. destruct ok; [|apply handled_during, handled_defer].
    apply handled_during, lively_handled, calm_lively. etransitivity; [apply calm_emitted|apply calm_raised].
  - set (h1 := emit S_set_timeout h). transitivity h1; [apply handled_during, lively_handled, calm_lively, calm_emitted|]. apply handled_during, handled_read_loop.
  - apply handled_during, handled_defer.
  - done.
  - apply handled_during, lively_handled, calm_lively, calm_write_flush.
  - apply handled_during, lively_handled, calm_lively, calm_emitted.
Qed.

Lemma keeps_net what h : socket_proper what h -> keeps h (net_handler env what h).
Proof.
  intros Hp (Hs & Hin & Hcl). unfold net_handler. destruct (during_event what (enter_handler h)) as (Hs1 & Hin1 & F1).
  - done.
  - by destruct Hs; split.
  - by cbn; rewrite Hin.
  - set (h1 := net_event env what (enter_handler h)) in *. clearbody h1. unfold leave_handler. rewrite Hin1. cbn [pred].
    assert (forall h', h_tcp_connections h' = h_tcp_connections h1 -> h_out h' = h_out h1 -> forgets_none h h') as Hf.
    { intros h' E1 E2. destruct F1 as (outs & Eo & R). exists outs. rewrite E1, E2. done. }
    set (h2 := h1 <| h_in_handler := 0%nat |>). change (h_closed h2) with (h_closed h1).
    destruct (h_closed h1) eqn:Ecl; [|split; [by split_and!; [destruct Hs1; split| |]|by apply Hf]].
    set (h3 := h2 <| h_closed := false |> <| h_pending_session_error := None |>).
    destruct (keeps_close_inner (h_pending_session_error h2) h3) as [Hw F3]; [split_and!; [by destruct Hs1; split|done|done]|].
    split; [done|]. transitivity h3; [by apply Hf|done].
Qed.

(** *** Operations that open streams *)

Lemma open_stream_spare connect m h : (forall s, connect = Some s -> spare s h) -> narrows (h_udp_mux h) m ->
  let '(_, m') := UdpMux.open_stream (udp_env env connect false) m in keeps h (put_udp m' h).
Proof.
  intros Hsp [Hf Hn]. destruct (UdpMux.open_stream _ m) as [ok m'] eqn:Eo. apply keeps_udp.
  - intros s Es. revert Eo Es. unfold UdpMux.open_stream. destruct (UdpMux.m_state m) eqn:Em.
    + cbv zeta. cbn [UdpMux.send_connect_request udp_env]. destruct connect as [s'|]; intros [= <- <-].
      * intros [= <-]. right. by apply Hsp.
      * unfold UdpMux.get_stream_id, UdpMux.established. destruct (UdpMux.m_stream_id m =? 0); cbn; by rewrite Em.
    + intros [= <- <-] Es. left. by eapply fewer_some.
  - intros id Ec. left. apply Hn. revert Eo Ec. unfold UdpMux.open_stream, UdpMux.check_connection. destruct (UdpMux.m_state m); [|by intros [= <- <-]].
    cbv zeta. cbn [UdpMux.send_connect_request udp_env]. destruct connect, (UdpMux.m_stream_id m =? 0); by intros [= <- <-].
Qed.

(** A connection is added to the stream that there is. *)
Lemma keeps_udp_connection id addr app h : h_tcp_connections h !! id = None ->
  keeps h (put_udp (snd (UdpMux.open_connection (udp_env env None false) id addr app (h_udp_mux h))) h).
Proof.
  intros Hid. pose proof (open_stream_spare None (h_udp_mux h) h ltac:(done) ltac:(done)) as Ho. unfold UdpMux.open_connection.
  destruct (tap_dst addr); [|by apply calm_keeps, calm_put_udp, narrows_same].
  destruct (UdpMux.m_connections (h_udp_mux h) !! id) eqn:Ec; [by apply calm_keeps, calm_put_udp, narrows_same|].
  unfold UdpMux.open_stream in *. destruct (UdpMux.m_state (h_udp_mux h)) eqn:Em; [done|]. cbn [negb snd]. apply keeps_udp.
  - intros s Es. by left.
  - intros id'. unfold UdpMux.check_connection. cbn. destruct (decide (id = id')) as [<-|]; [by right|]. rewrite lookup_insert_ne by done. by left.
Qed.

Lemma keeps_udp_open id addr app h : roomy h -> h_tcp_connections h !! id = None -> keeps h (snd (udp_open_connection env ng id addr app h)).
Proof.
  intros Hroom Hid Hw. unfold udp_open_connection. cbv zeta.
  match goal with |- context [if ?b then ?y else (true, h)] => generalize b; intros asks; set (x := if asks then y else (true, h)) end.
  assert (http2_wf (snd x) /\ forgets_none h (snd x) /\ h_tcp_connections (snd x) !! id = None) as (Hw1 & F1 & N1).
  { subst x. destruct asks; [|done]. pose proof (request_stream (TA_name (txt "_udp2") 0) (txt "_udp2") h Hw Hroom) as Hr.
    destruct (send_connect_request _ _ _ _ h) as [connect h1]. destruct Hr as (Hw1 & F1 & N1 & _ & Hsp).
    pose proof (open_stream_spare connect (h_udp_mux h1) h1 (fun s Es => proj2 (Hsp s Es)) ltac:(done)) as Hk.
    destruct (UdpMux.open_stream _ _) as [ok m]. destruct (Hk Hw1) as [Hw2 F2]. split_and!; [done|by transitivity h1|by apply N1]. }
  destruct x as [ok h1]. cbn [snd] in *. destruct ok; cbn [negb]; [|done].
  destruct (keeps_udp_connection id addr app h1 N1 Hw1) as [Hw2 F2]. destruct (UdpMux.open_connection _ _ _ _ _) as [ok m]. split; [done|by transitivity h1].
Qed.

Lemma keeps_tcp_open id addr proto app h : roomy h -> h_tcp_connections h !! id = None -> UdpMux.check_connection id (h_udp_mux h) = false ->
  (forall s h', send_connect_request env ng (tap_dst addr) app h = (Some s, h') -> stream_of s h' <> None) ->
  (proto =? IPPROTO_UDP) = false -> keeps h (snd (open_connection env id addr proto app h)).
Proof.
  intros Hroom Hid Hudp Hknown Hproto Hw. unfold open_connection. rewrite Hproto. pose proof (request_stream (tap_dst addr) app h Hw Hroom) as Hr.
  destruct (send_connect_request env ng (tap_dst addr) app h) as [[s|] h1]; destruct Hr as (Hw1 & F1 & N1 & [_ U1] & Hsp); [|done].
  specialize (N1 id Hid). rewrite N1. destruct (Hsp s eq_refl) as [Hses Hspare].
  destruct (keeps_connection id (mkTcp s false false false None false None None) h1) as [Hw2 F2]; try done; [|by apply (Hknown s)|split; [done|by transitivity h1]].
  destruct (UdpMux.check_connection id (h_udp_mux h1)) eqn:Ec; [|done]. apply U1 in Ec. congruence.
Qed.

Lemma keeps_health_check need h : roomy h -> keeps h (do_health_check env need h).
Proof.
  intros Hroom. unfold do_health_check. set (h1 := h <| h_health_check_info := None |>). transitivity h1; [apply calm_keeps, calm_no_check|].
  destruct (_ && _); [done|]. destruct (should_skip_health_check_probe _ _); [done|]. intros Hw.
  pose proof (request_stream (TA_name (txt "_check") 0) [] h1 Hw Hroom) as Hr.
  destruct (send_connect_request _ _ _ _ h1) as [r h2]. destruct Hr as (Hw2 & F2 & _ & _ & Hsp).
  destruct (keeps_check (mkHealthCheck (default UINT32_MAX r) 0 need) h2) as [Hw3 F3]; [|done|split; [done|by transitivity h2]].
  destruct r as [s|]; [left; by apply Hsp|by right].
Qed.

Lemma lively_send_data_callback s data h : lively h (snd (send_data_callback env ng s data h)).
Proof.
  apply quietly_lively. unfold send_data_callback. pose proof (quietly_send_data env ng ng_quiet s data false h) as Hq.
  by destruct (http2_session_send_data _ _ _ _ _ h).
Qed.

Lemma lively_icmp_established request h : lively h (snd (icmp_send_request_established env ng request h)).
Proof.
  unfold icmp_send_request_established. destruct (IcmpMux.m_stream_id _); [apply lively_send_data_callback|apply calm_lively, calm_faulted].
Qed.

Lemma lively_roomy h h' : lively h h' -> http2_wf h -> roomy h -> roomy h'.
Proof.
  intros Hl (Hs & Hin & Hcl) Hroom. assert (calm h h') as Hc by (apply Hl; [apply Hs|intros Ht; congruence]). unfold roomy. by rewrite (calm_next _ _ Hc).
Qed.

Lemma keeps_icmp_open h : roomy h -> keeps h (snd (icmp_open_stream env ng h)).
Proof.
  intros Hroom Hw. unfold icmp_open_stream. pose proof (request_stream (TA_name (txt "_icmp") 0) (txt "_icmp") h Hw Hroom) as Hr.
  destruct (send_connect_request _ _ _ _ h) as [connect h1]. destruct Hr as (Hw1 & F1 & _ & _ & Hsp).
  destruct (IcmpMux.open_stream _ _) as [ok m] eqn:Eo. destruct (keeps_icmp m h1) as [Hw2 F2]; [|done|split; [done|by transitivity h1]].
  intros s. revert Eo. unfold IcmpMux.open_stream. cbn. destruct connect; intros [= <- <-]; [|done]. intros [= ->]. right. by apply Hsp.
Qed.

Lemma keeps_icmp_request request h : roomy h -> keeps h (snd (icmp_send_request env ng request h)).
Proof.
  assert (forall h, roomy h -> keeps h (snd (let '(ok, h) := icmp_open_stream env ng h in if negb ok then (false, h) else icmp_send_request_established env ng request h))) as Hopen.
  { intros h1 Hroom. pose proof (keeps_icmp_open h1 Hroom) as Hk. destruct (icmp_open_stream env ng h1) as [ok h2]. cbn [snd] in Hk. transitivity h2; [done|].
    destruct ok; [apply lively_keeps, lively_icmp_established|done]. }
  intros Hroom Hw. unfold icmp_send_request. destruct (IcmpMux.m_state _); [by apply Hopen|].
  pose proof (lively_icmp_established request h) as Hl. destruct (icmp_send_request_established env ng request h) as [ok h1]. cbn [snd] in Hl.
  pose proof (lively_roomy _ _ Hl Hw Hroom) as Hroom1. destruct (lively_keeps _ _ Hl Hw) as [Hw1 F1]. destruct ok; [done|].
  set (h2 := put_icmp _ h1). assert (calm h1 h2) as Hc by (apply calm_put_icmp; by right). destruct (calm_keeps _ _ Hc Hw1) as [Hw2 F2].
  destruct (Hopen h2 (lively_roomy _ _ (calm_lively _ _ Hc) Hw1 Hroom1) Hw2) as [Hw3 F3]. split; [done|]. transitivity h1; [done|by transitivity h2].
Qed.

(** *** Any step *)

(** What the tunnel and the multiplexer of endpoints see to: an id is that of one connection.  A stream that is opened
    is not closed by the same call, and the numbers of streams do not run out. *)
Definition proper (i : H2Input) h : Prop :=
  match i with
  | H_open_connection id addr proto app =>
      roomy h /\ h_tcp_connections h !! id = None /\ UdpMux.check_connection id (h_udp_mux h) = false /\
      (forall s h', send_connect_request env ng (tap_dst addr) app h = (Some s, h') -> stream_of s h' <> None)
  | H_do_health_check _ | H_icmp_request _ => roomy h
  | H_net what => socket_proper what h
  | _ => True
  end.

Lemma lively_send id data h : lively h (snd (send env id data h)).
Proof.
  unfold send. destruct (h_tcp_connections h !! id) as [c|].
  - destruct (negb _); [|done]. pose proof (quietly_send_data env ng ng_quiet (tc_stream_id c) data false h) as Hq.
    destruct (http2_session_send_data _ _ _ _ _ h) as [r h1]. by apply quietly_lively.
  - destruct (UdpMux.check_connection _ _); [|done]. unfold udp_send. set (packets := udp_packets _). clearbody packets.
    assert (forall packets r h, lively h (snd (fold_left (fun '(_, h) '(s, packet) => send_data_callback env ng s packet h) packets (r, h)))) as Hf.
    { clear packets. induction packets as [|[s packet] packets IH]; intros r h0; [done|]. cbn. pose proof (lively_send_data_callback s packet h0) as Hs.
      destruct (send_data_callback env ng s packet h0) as [r1 h1]. by transitivity h1. }
    specialize (Hf packets false h). destruct (fold_left _ packets (false, h)) as [sent h1]. cbn [snd] in Hf. transitivity h1; [done|]. clear Hf. cbv zeta.
    set (h2 := if UdpMux.check_connection _ _ then h1 else _). transitivity h2; [subst h2; destruct (UdpMux.check_connection _ _); [done|apply calm_lively, calm_faulted]|].
    clearbody h2. pose proof (narrows_send (udp_env env None sent) id data (h_udp_mux h2)) as Hn. destruct (UdpMux.send _ _ _ _) as [r m].
    by apply calm_lively, calm_put_udp.
Qed.

Lemma lively_complete_read id h : lively h (complete_read env id h).
Proof.
  unfold complete_read. destruct (h_tcp_connections h !! id) as [c|] eqn:Ec; [|done]. cbv zeta. set (h1 := set_connection id _ h).
  transitivity h1; [apply calm_lively, (calm_set id c); done|]. clearbody h1. pose proof (lively_read_out env ng ng_quiet id h1) as Hr.
  destruct (read_out_pending_data _ _ _ h1) as [r h2]. cbn [snd] in Hr. transitivity h2; [done|]. destruct (r <? 0); [apply lively_close_tcp, ng_quiet|].
  destruct (h_tcp_connections h2 !! id) as [c2|]; [|apply calm_lively, calm_faulted]. destruct (_ && _); [|done]. apply calm_lively, calm_clean, Z.eqb_refl.
Qed.

Lemma step_keeps i h : proper i h -> keeps h (http2_step env i h).
Proof.
  intros Hp. destruct i as [| |id addr proto app|id graceful async|id data|id n|id|id size window|need| |request|what|verified|id|id| |id|id|]; cbn [http2_step].
  - apply calm_keeps. unfold open_session. repeat (destruct (bool_decide _) || destruct (negb _)); same.
  - apply keeps_close_session.
  - destruct Hp as (Hroom & Hid & Hudp & Hknown). unfold open_connection. destruct (proto =? IPPROTO_UDP) eqn:Eproto; [by apply keeps_udp_open|].
    pose proof (keeps_tcp_open id addr proto app h Hroom Hid Hudp Hknown Eproto) as Hk. unfold open_connection in Hk. by rewrite Eproto in Hk.
  - apply lively_keeps, lively_close_connection, ng_quiet.
  - apply lively_keeps, lively_send.
  - apply lively_keeps. unfold consume. destruct (UdpMux.check_connection _ _); [done|]. destruct (get_stream_id id h); [|done]. destruct (_ =? 0); [done|].
    apply quietly_lively, quietly_consume, ng_quiet.
  - apply calm_keeps. unfold available_to_send. destruct (get_stream_id id h); [|done]. destruct (_ =? 0); [done|]. apply calm_need.
  - apply lively_keeps, lively_flow_control, ng_quiet.
  - by apply keeps_health_check.
  - apply calm_keeps, calm_no_check.
  - unfold on_icmp_request. pose proof (keeps_icmp_request request h Hp) as Hk. by destruct (icmp_send_request _ _ _ h).
  - by apply keeps_net.
  - apply calm_keeps. same.
  - apply lively_keeps, lively_close_task, ng_quiet.
  - apply lively_keeps, lively_complete_read.
  - apply calm_keeps. unfold health_check_timer. destruct (h_health_check_info h) as [info|]; [|done].
    etransitivity; [apply calm_no_check|apply calm_report_check].
  - apply calm_keeps, calm_put_udp, narrows_complete.
  - apply calm_keeps, calm_put_udp, narrows_close_connection.
  - apply calm_keeps, calm_put_udp, narrows_timer.
Qed.
End Steps.

(** ** The theorems *)

Section Reachable.
Context {E B : Type} `{DataBuffer E B} `{SocketAddressLib}.

Inductive reachable : Http2Upstream (B := B) -> Prop :=
| reach_new : reachable http2_new
| reach_step (env : H2Env (E := E) (B := B)) i h : reachable h -> tame env -> proper env i h -> reachable (http2_step env i h).

Lemma http2_new_wf : http2_wf (B := B) http2_new.
Proof.
  split_and!; [|done|done]. split; try done; cbn; try (by right); try (intros; congruence).
  intros s id. split; [done|]. intros (c & Hc & _). done.
Qed.

Lemma http2_reachable_wf h : reachable h -> http2_wf h.
Proof. induction 1 as [|env i h Hr IH Ht Hp]; [apply http2_new_wf|]. by apply (step_keeps env Ht i h Hp). Qed.

(** C10. In every state that the upstream over HTTP/2 reaches, the table that finds a connection by its stream is the
    inverse of the table of connections; no connection shares its stream with another, with the UDP or ICMP multiplexer
    or with the health check; the session knows the stream of every connection whose stream is not closed; there are no
    connections without a session; and an id is not that of a TCP and of a UDP connection.  The conditions of [tame] and
    [proper]: nghttp2 receives only what it is given, and the socket takes everything that is written; a new connection
    has an id that is not in use, its stream is not closed by the call that opens it, the socket is connected once, and
    the stream numbers do not run out.  Without the second, the last but one part fails: a socket that fails while a
    connection is opened leaves the connection without a session. *)
Theorem http2_tables_agree h : reachable h -> http2_wf h.
Proof. apply http2_reachable_wf. Qed.

(** C9. No step of the upstream forgets a connection: whatever the tunnel asks for, the socket does and nghttp2
    reports, a TCP connection that is not there after the step has been told of its end, by an error or as closed. *)
Theorem http2_forgets_no_connection (env : H2Env (E := E) (B := B)) i h id : reachable h -> tame env -> proper env i h ->
  h_tcp_connections h !! id <> None -> h_tcp_connections (http2_step env i h) !! id = None ->
  exists outs, h_out (http2_step env i h) = h_out h ++ outs /\ (1 <= h2_reports id outs)%nat.
Proof.
  intros Hr Ht Hp Hid Hgone. destruct (step_keeps env Ht i h Hp (http2_reachable_wf h Hr)) as [_ (outs & Eo & R)]. exists outs. split; [done|by apply R].
Qed.
End Reachable.
