(* ===== verification/Http2Data.v ===== *)
(** * The data of a connection over HTTP/2

    What arrives on the stream of a connection is given to its reader in order and once: the events
    [HTTP_EVENT_DATA] and [complete_read] of [Http2], over any buffer that keeps the laws of
    [DataBuffer], while the reader turns the reading on and off and asks to close the connection. *)

From stdpp Require Import gmap.
From S2P Require Import Prelude VpnTypes Wire DataBuffer DomainFilter DomainExtractor UdpMux Icmp Tunnel Http2 Http2Proofs.

(** ** What leaves a connection alone *)

Section Untouched.
Context {E B : Type} `{DataBuffer E B} `{SocketAddressLib}.
Implicit Types (h : Http2Upstream (B := B)) (id s : Z) (c : TcpConnection (B := B)).

(** No reader is called. *)
Definition unread_out (o : H2Out) : Prop := match o with P_read _ _ _ => False | _ => True end.

(** No assertion of the code has failed and no pointer was stale: at most nghttp2 has asked for the data of a stream
    that has none to send. *)
Definition blameless h h' : Prop := exists faults, h_faults h' = h_faults h ++ faults /\ Forall (eq "no data source"%string) faults.

#[export] Instance blameless_preorder : PreOrder blameless.
Proof.
  split; [intros h; exists []; by rewrite app_nil_r|]. intros h1 h2 h3 (f1 & A4 & A5) (f2 & B4 & B5). exists (f1 ++ f2).
  split; [by rewrite B4, A4, app_assoc|by apply Forall_app].
Qed.

Definition unheard h h' : Prop := exists outs, h_out h' = h_out h ++ outs /\ Forall unread_out outs.

#[export] Instance unheard_preorder : PreOrder unheard.
Proof.
  split; [intros h; exists []; by rewrite app_nil_r|]. intros h1 h2 h3 (o1 & A2 & A3) (o2 & B2 & B3). exists (o1 ++ o2).
  split; [by rewrite B2, A2, app_assoc|by apply Forall_app].
Qed.

(** The connection is as it was, and no reader was called. *)
Record untouched id h h' : Prop := mkUntouched {
  un_connection : h_tcp_connections h' !! id = h_tcp_connections h !! id;
  un_out : unheard h h';
  un_faults : blameless h h';
}.

#[export] Instance untouched_preorder id : PreOrder (untouched id).
Proof. split; [by intros h|]. intros h1 h2 h3 [A1 A2 A3] [B1 B2 B3]. split; [congruence|by transitivity h2|by transitivity h2]. Qed.

Lemma untouched_same id h h' outs : h_tcp_connections h' !! id = h_tcp_connections h !! id -> h_out h' = h_out h ++ outs -> Forall unread_out outs ->
  h_faults h' = h_faults h -> untouched id h h'.
Proof. intros E1 E2 Hq E3. split; [done|by exists outs|exists []; by rewrite app_nil_r]. Qed.

Ltac as_it_was := by apply (untouched_same _ _ _ []); rewrite ?app_nil_r.

Lemma untouched_emit id o h : unread_out o -> untouched id h (emit o h).
Proof. intros Ho. apply (untouched_same _ _ _ [o]); try done. by constructor. Qed.

Lemma untouched_raise id e h : untouched id h (raise e h).
Proof. by apply untouched_emit. Qed.

Lemma untouched_put_udp id m h : untouched id h (put_udp m h).
Proof.
  eapply untouched_same; [done|done| |done]. induction (UdpMux.m_out m) as [|o outs IH]; [constructor|]. cbn. apply Forall_app. split; [|done].
  destruct o; by repeat constructor.
Qed.

Lemma untouched_put_icmp id m h : untouched id h (put_icmp m h).
Proof.
  eapply untouched_same; [done|done| |done]. induction (IcmpMux.m_out m) as [|o outs IH]; [constructor|]. cbn. apply Forall_app. split; [|done].
  destruct o; by repeat constructor.
Qed.

Lemma untouched_set id id' c h : id' <> id -> untouched id h (set_connection id' c h).
Proof. intros Hne. apply (untouched_same _ _ _ []); rewrite ?app_nil_r; try done. cbn. by rewrite lookup_insert_ne. Qed.

Lemma untouched_clean id id' h : id' <> id -> untouched id h (clean_tcp_connection_data id' h).
Proof.
  intros Hne. unfold clean_tcp_connection_data. destruct (h_tcp_connections h !! id'); [|done].
  apply (untouched_same _ _ _ []); rewrite ?app_nil_r; try done. cbn. by rewrite lookup_delete_ne.
Qed.

Lemma untouched_for_ids (f : Z -> Http2Upstream -> Http2Upstream) id xs h : (forall x h, untouched id h (f x h)) -> untouched id h (for_ids xs f h).
Proof. intros Hf. revert h. induction xs as [|x xs IH]; intros h; [done|]. cbn. transitivity (f x h); auto. Qed.

Context (env : H2Env (E := E) (B := B)).

(** The end of another stream. *)
Lemma untouched_connection_processed id c s code h : agree h -> h_tcp_connections h !! id = Some c -> tc_stream_id c <> s ->
  untouched id h (connection_processed env s code h).
Proof.
  intros Ha Hc Hs. unfold connection_processed. destruct (get_conn_by_stream_id s h) as [[id' c']|] eqn:Eg; [|done]. apply get_conn_some in Eg as [Et Ec].
  assert (id' <> id) as Hne by (intros ->; apply Ha in Et as (c1 & E1 & E2); congruence). cbv zeta. set (h1 := set_connection id' _ h).
  transitivity h1; [by apply untouched_set|]. clearbody h1. destruct (match tc_pending_error _ with Some e => Some e | None => _ end) as [e|].
  - transitivity (raise (SERVER_EVENT_ERROR id' e) h1); [apply untouched_raise|by apply untouched_clean].
  - destruct (_ || _); [|done]. transitivity (raise (SERVER_EVENT_CONNECTION_CLOSED id') h1); [apply untouched_raise|by apply untouched_clean].
Qed.

Lemma untouched_report id need error h : untouched id h (report_health_check_error env need error h).
Proof.
  unfold report_health_check_error. destruct need; [apply untouched_raise|]. destruct (negb _); [done|].
  destruct (inbound_age env h); [destruct (_ <=? _); [done|]|]; apply untouched_raise.
Qed.

Lemma untouched_stream_processed id c s code h : agree h -> h_tcp_connections h !! id = Some c -> tc_stream_id c <> s ->
  untouched id h (stream_processed env s code h).
Proof.
  intros Ha Hc Hs. unfold stream_processed. destruct (bool_decide _); [apply untouched_put_udp|]. destruct (bool_decide _); [apply untouched_put_icmp|].
  destruct (h_health_check_info h) as [info|]; [|by eapply untouched_connection_processed].
  destruct (_ =? s); [|by eapply untouched_connection_processed]. transitivity (h <| h_health_check_info := None |>); [as_it_was|].
  cbv zeta. destruct (h_closing _); [done|]. destruct (negb _); [|done]. apply untouched_report.
Qed.

Lemma untouched_close_stream id c s code h : agree h -> h_tcp_connections h !! id = Some c -> tc_stream_id c <> s ->
  untouched id h (close_stream (stream_processed env) s code h).
Proof.
  intros Ha Hc Hs. unfold close_stream. destruct (stream_of s h) as [st|] eqn:Es; [|done]. pose proof (untouched_stream_processed id c s code h Ha Hc Hs) as Hu.
  assert (h_streams h <> None) as Hn by (unfold stream_of in Es; by destruct (h_streams h)).
  apply (calm_streams _ _ (calm_stream_processed env s code h)) in Hn. set (h1 := stream_processed env s code h) in *. clearbody h1.
  transitivity h1; [done|]. unfold drop_stream. destruct (h_streams h1); [as_it_was|done].
Qed.

Lemma untouched_write_flush id h : h_session h = true -> untouched id h (write_flush env h).
Proof.
  intros Hs. unfold write_flush. set (h1 := for_ids _ _ h). assert (calm h h1) as Hc by (apply calm_for_ids; intros; apply calm_raised).
  transitivity h1; [apply untouched_for_ids; intros; apply untouched_raise|]. assert (h_session h1 = true) as Hs1 by by rewrite (calm_session _ _ Hc).
  clearbody h1. destruct (UdpMux.get_stream_id (h_udp_mux h1)) as [s|]; [|done]. unfold http_session_available_to_write, need_session. rewrite Hs1.
  destruct (0 <? _); [|done]. apply untouched_put_udp.
Qed.

Lemma untouched_write id ng data h : h_session h = true -> deferred h -> untouched id h (snd (tcp_socket_write env ng data h)).
Proof.
  intros Hs Hd. unfold tcp_socket_write. destruct (he_write env (now_at h)) as [ok [|]]; cbn [snd]; [|by apply untouched_emit].
  set (h1 := emit (S_write data) h). transitivity h1; [by apply untouched_emit|]. assert (deferred h1) as Hd1 by exact Hd. assert (h_session h1 = true) as Hs1 by exact Hs.
  clearbody h1. clear Hs Hd h. pose proof (write_flush_closed env (enter_handler h1)) as Ecl. pose proof (calm_in_handler _ _ (calm_write_flush env (enter_handler h1))) as Ein.
  transitivity (enter_handler h1); [as_it_was|]. pose proof (untouched_write_flush id (enter_handler h1) Hs1) as Hu.
  set (h2 := write_flush env (enter_handler h1)) in *. clearbody h2. transitivity h2; [done|]. cbn in Ecl, Ein. unfold leave_handler.
  change (h_closed (h2 <| h_in_handler := _ |>)) with (h_closed h2). rewrite Ecl. destruct (h_closed h1) eqn:Ec1; [|as_it_was].
  unfold close_session_inner. assert (0 < pred (h_in_handler h2))%nat as Hin by (rewrite Ein; by apply Hd1).
  change (h_in_handler (_ <| h_closed := false |> <| h_pending_session_error := None |>)) with (pred (h_in_handler h2)).
  rewrite (proj2 (Nat.ltb_lt _ _) Hin). as_it_was.
Qed.

Lemma untouched_put_stream id s st h : h_streams h <> None -> untouched id h (put_stream s st h).
Proof. intros Hn. unfold put_stream. destruct (h_streams h); [as_it_was|done]. Qed.

(** *** While nghttp2 runs *)

(** A connection in tables that agree, of a session that is there. *)
Record steady id s h : Prop := mkSteady {
  st_alive : alive h;
  st_agree : agree h;
  st_deferred : deferred h;
  st_udp : UdpMux.check_connection id (h_udp_mux h) = false;
  st_connection : exists c, h_tcp_connections h !! id = Some c /\ tc_stream_id c = s;
}.

Definition hush id s h h' : Prop := steady id s h -> calm h h' /\ untouched id h h'.

Lemma calm_steady id s h h' c : calm h h' -> steady id s h -> h_tcp_connections h' !! id = Some c -> steady id s h'.
Proof.
  intros Hc [S1 S2 S3 S4 (c0 & S5 & S6)] E'. split; [by eapply calm_alive|by apply (calm_agree _ _ Hc)|by eapply calm_deferred| |].
  - destruct (UdpMux.check_connection id (h_udp_mux h')) eqn:E1; [|done]. apply (proj2 (calm_udp _ _ Hc)) in E1. congruence.
  - destruct (calm_tcp _ _ Hc id c E') as (c1 & E1 & E2 & _). exists c. split; congruence.
Qed.

Lemma steady_session id s h : steady id s h -> h_session h = true.
Proof. intros [[Hs|He] _ _ _ (c & Hc & _)]; [done|]. by rewrite He in Hc. Qed.

Lemma hush_steady id s h h' : hush id s h h' -> steady id s h -> steady id s h'.
Proof.
  intros Hh Hst. destruct (Hh Hst) as [Hc Hu]. destruct (st_connection _ _ _ Hst) as (c & E1 & _). eapply calm_steady; [done|done|].
  by rewrite (un_connection _ _ _ Hu).
Qed.

#[export] Instance hush_preorder id s : PreOrder (hush id s).
Proof.
  split; [by intros h|]. intros h1 h2 h3 H12 H23 Hst. pose proof (hush_steady _ _ _ _ H12 Hst) as Hst2. destruct (H12 Hst) as [C1 U1]. destruct (H23 Hst2) as [C2 U2].
  split; by etransitivity.
Qed.

(** nghttp2 does not close the stream unless it receives. *)
Definition stays s : Prop := forall n call code, (forall data, call <> NG_mem_recv data) -> CB_stream_close s code ∉ na_callbacks (he_nghttp2 env n call).

Context (Htame : tame env).

Lemma hush_plain ng id s cb h : plain cb -> (forall code, cb <> CB_stream_close s code) -> hush id s h (callback env ng cb h).
Proof.
  intros Hp Hcb Hst. split; [by apply quietly_plain, (st_deferred _ _ _ Hst)|]. pose proof (steady_session _ _ _ Hst) as Hs.
  destruct (st_connection _ _ _ Hst) as (c & Hc & Es). destruct cb as [| | | |s' code|data|s' length]; try done; cbn [callback].
  - unfold on_stream_close_callback. destruct (stream_of s' h); [|by apply untouched_emit].
    transitivity (close_stream (stream_processed env) s' code h); [|by apply untouched_emit].
    apply (untouched_close_stream id c); [apply (st_agree _ _ _ Hst)|done|]. intros Eq. apply (Hcb code). congruence.
  - unfold on_send_callback. cbn [http_handler snd]. pose proof (untouched_write id ng data h Hs (st_deferred _ _ _ Hst)) as Hw.
    pose proof (tame_write _ Htame (now_at h)) as Hok. unfold tcp_socket_write in *. destruct (he_write env (now_at h)) as [ok flushed]. cbn [fst snd] in *. by subst ok.
  - unfold data_source_readcb. destruct (stream_of s' h) as [st|] eqn:Est; cbn [mbind option_bind]; [|split; [done|exists []; by rewrite app_nil_r|by eexists; split; [done|repeat constructor]]].
    destruct (hs_data_source st) as [source|]; cbn [mbind option_bind]; [|split; [done|exists []; by rewrite app_nil_r|by eexists; split; [done|repeat constructor]]].
    destruct (negb _ && _); [by apply untouched_emit|]. cbv zeta. set (h1 := put_stream _ _ h). transitivity h1.
    { apply untouched_put_stream. unfold stream_of in Est. by destruct (h_streams h). }
    clearbody h1. etransitivity; [|by apply untouched_emit]. cbn [http_handler snd]. destruct (bool_decide _); [done|].
    destruct (get_conn_by_stream_id s' h1) as [[id' c']|]; [apply untouched_raise|done].
Qed.

Lemma hush_nghttp2 depth id s call h : stays s -> (forall data, call <> NG_mem_recv data) -> hush id s h (snd (nghttp2 env depth call h)).
Proof.
  intros Hstays Hcall. assert (forall h h', calm h h' -> untouched id h h' -> hush id s h h') as Hboth by by intros.
  destruct depth as [|depth]; cbn [nghttp2 snd]; [apply Hboth; [apply calm_emitted|by apply untouched_emit]|].
  set (h1 := (emit (N_call call) h) <| h_busy := _ |>). transitivity h1.
  { apply Hboth; [apply calm_unchanged; try done; try (by left); by eexists|]. apply (untouched_same _ _ _ [N_call call]); try done. by constructor. }
  pose proof (tame_callbacks _ Htame (now_at h) call Hcall) as Hp. specialize (Hstays (now_at h) call).
  clearbody h1. set (cbs := na_callbacks _) in *. clearbody cbs. set (h2 := fold_left _ cbs h1). transitivity h2.
  - subst h2. revert h1. induction Hp as [|cb cbs Hcb Hp IH]; intros h1; [done|]. cbn. transitivity (callback env (nghttp2 env depth) cb h1).
    + apply hush_plain; [done|]. intros code ->. apply (Hstays code Hcall). by left.
    + apply IH. intros code Hc Hin. apply (Hstays code Hc). by right.
  - apply Hboth; [|as_it_was]. apply calm_unchanged; try done; try (by left). exists []. by rewrite app_nil_r.
Qed.
End Untouched.

(** ** Reading *)

Section Data.
Context {E B : Type} `{DataBuffer E B} `{SocketAddressLib} (env : H2Env (E := E) (B := B)) (depth : nat).
Implicit Types (h : Http2Upstream (B := B)) (id s : Z) (c : TcpConnection (B := B)).

Abbreviation ng := (nghttp2 env depth).

(** What waits for the reader. *)
Definition unread c : list Z := match tc_unread_data c with Some b => buf_contents b | None => [] end.
Definition unread_of id h : list Z := match h_tcp_connections h !! id with Some c => unread c | None => [] end.

(** What the reader took. *)
Definition taken id (o : H2Out) : list Z := match o with P_read id' data r => if id' =? id then take (Z.to_nat r) data else [] | _ => [] end.
Definition delivered id (outs : list H2Out) : list Z := flat_map (taken id) outs.

Lemma delivered_app id outs outs' : delivered id (outs ++ outs') = delivered id outs ++ delivered id outs'.
Proof. apply flat_map_app. Qed.

Lemma delivered_none id outs : Forall unread_out outs -> delivered id outs = [].
Proof. induction 1 as [|o outs Ho Hq IH]; [done|]. change (taken id o ++ delivered id outs = []). rewrite IH. by destruct o. Qed.

(** The reader takes no more than it is given. *)
Definition polite (o : H2Out) : Prop := match o with P_read _ data r => r <= zlen data | _ => True end.

(** Whether the connection is read from after what the reader calls. *)
Definition reads_on (calls : list ReadCall) (enabled : bool) : bool :=
  fold_left (fun enabled call => match call with CALL_update_flow_control size _ => 0 <? size | CALL_close_connection _ => enabled end) calls enabled.

(** The reader does not fail, and stops the reading when it takes nothing, as the tunnel does. *)
Record reader_ok : Prop := mkReader {
  rd_result : forall n, 0 <= ra_result (he_read env n);
  rd_stops : forall n enabled, ra_result (he_read env n) = 0 -> reads_on (ra_calls (he_read env n)) enabled = false;
}.

(** It takes something each time, and goes on reading. *)
Definition reader_willing : Prop := forall n, 0 < ra_result (he_read env n) /\ reads_on (ra_calls (he_read env n)) true = true.

Context (Htame : tame env) (Hreader : reader_ok).

(** *** What the reader calls *)

(** The same connection, read from or not, and with other tasks. *)
Definition kin c c' : Prop := tc_stream_id c' = tc_stream_id c /\ TCF_STREAM_CLOSED c' = TCF_STREAM_CLOSED c /\ tc_unread_data c' = tc_unread_data c.

Lemma hush_set_recv_window id s s' n h : stays env s -> hush id s h (snd (http_session_set_recv_window env ng s' n h)).
Proof.
  intros Hs Hst. revert Hst. unfold http_session_set_recv_window, need_session. intros Hst. rewrite (steady_session _ _ _ Hst). revert Hst. cbv zeta.
  set (w := Z.min _ _). pose proof (hush_nghttp2 env Htame depth id s (NG_set_local_window_size s' w) h Hs ltac:(done)) as Hh.
  destruct (nghttp2 env depth (NG_set_local_window_size s' w) h) as [r h1]. cbn [snd] in Hh. destruct (_ =? 0); [|exact Hh].
  change (hush id s h (snd (nghttp2 env depth NG_session_send h1))). transitivity h1; [done|]. by apply hush_nghttp2.
Qed.

Lemma untouched_quiet id h h' : untouched id h h' -> unheard h h' /\ blameless h h'.
Proof. by intros [_ H1 H2]. Qed.

Lemma set_quiet id c h : unheard h (set_connection id c h) /\ blameless h (set_connection id c h).
Proof. split; exists []; by rewrite app_nil_r. Qed.

(** A call keeps the connection and what waits in it. *)
Lemma read_call_keeps id s c call h : steady id s h -> stays env s -> h_tcp_connections h !! id = Some c ->
  let h' := read_call env ng id h call in
  unheard h h' /\ blameless h h' /\ exists c', h_tcp_connections h' !! id = Some c' /\ kin c c' /\ TCF_READ_ENABLED c' = reads_on [call] (TCF_READ_ENABLED c).
Proof.
  intros Hst Hs Hc. destruct call as [size window|graceful]; cbn [read_call].
  - unfold update_flow_control. rewrite Hc. cbv zeta. set (c1 := c <| TCF_READ_ENABLED := _ |>). set (h1 := set_connection id c1 h).
    assert (steady id s h1) as Hst1.
    { apply (calm_steady id s h h1 c1); [by apply (calm_set id c)|done|cbn; by rewrite lookup_insert_eq]. }
    destruct (set_quiet id c1 h) as [Q1 F1]. fold h1 in Q1, F1. set (h2 := if TCF_STREAM_CLOSED c then h1 else _).
    assert (untouched id h1 h2) as Hu by (subst h2; destruct (TCF_STREAM_CLOSED c); [done|]; by apply (hush_set_recv_window id s)).
    destruct (untouched_quiet _ _ _ Hu) as [Q2 F2]. assert (h_tcp_connections h2 !! id = Some c1) as E2 by (rewrite (un_connection _ _ _ Hu); apply lookup_insert_eq).
    clearbody h2. rewrite E2. destruct (_ && _).
    + destruct (set_quiet id (c1 <| tc_complete_read_task := true |>) h2) as [Q3 F3]. split_and!; [by transitivity h1; [|transitivity h2]|by transitivity h1; [|transitivity h2]|].
      eexists. split; [cbn; by rewrite lookup_insert_eq|done].
    + split_and!; [by transitivity h1|by transitivity h1|]. by exists c1.
  - unfold close_connection. rewrite (st_udp _ _ _ Hst), Hc. destruct (set_quiet id (c <| tc_close_task := Some graceful |>) h) as [Q1 F1].
    split_and!; [done|done|]. eexists. split; [cbn; by rewrite lookup_insert_eq|done].
Qed.

Lemma read_calls_keep id s calls : stays env s -> forall h c, steady id s h -> h_tcp_connections h !! id = Some c ->
  let h' := fold_left (read_call env ng id) calls h in
  unheard h h' /\ blameless h h' /\ exists c', h_tcp_connections h' !! id = Some c' /\ kin c c' /\ TCF_READ_ENABLED c' = reads_on calls (TCF_READ_ENABLED c).
Proof.
  intros Hs. induction calls as [|call calls IH]; intros h c Hst Hc; [split_and!; [done|done|by exists c]|]. cbn [fold_left].
  destruct (read_call_keeps id s c call h Hst Hs Hc) as (Q1 & F1 & c1 & Hc1 & (K1 & K2 & K3) & E1). set (h1 := read_call env ng id h call) in *.
  assert (steady id s h1) as Hst1.
  { pose proof (lively_read_calls env ng (quietly_nghttp2 env Htame depth) id [call] h (st_alive _ _ _ Hst) (st_deferred _ _ _ Hst)) as Hl.
    cbn [fold_left] in Hl. fold h1 in Hl. by apply (calm_steady id s h h1 c1). }
  clearbody h1.
  destruct (IH h1 c1 Hst1 Hc1) as (Q2 & F2 & c2 & Hc2 & (K4 & K5 & K6) & E2). split_and!; [by transitivity h1|by transitivity h1|].
  exists c2. unfold kin. split_and!; [done|congruence|congruence|congruence|]. rewrite E2, E1. done.
Qed.

(** The reader is called once, and what it leaves is untouched. *)
Lemma handle_read_spec id s c data h : steady id s h -> stays env s -> h_tcp_connections h !! id = Some c ->
  let answer := he_read env (now_at h) in
  let '(r, h') := handle_read env ng id data h in
  r = ra_result answer /\ steady id s h' /\ calm h h' /\ unheard (emit (P_read id data r) h) h' /\ blameless h h' /\
  exists c', h_tcp_connections h' !! id = Some c' /\ kin c c' /\ TCF_READ_ENABLED c' = reads_on (ra_calls answer) (TCF_READ_ENABLED c).
Proof.
  intros Hst Hs Hc answer. pose proof (lively_handle_read env ng (quietly_nghttp2 env Htame depth) id data h (st_alive _ _ _ Hst) (st_deferred _ _ _ Hst)) as Hcalm.
  unfold handle_read in *. fold answer in Hcalm |- *. cbv zeta in *. pose proof (rd_result Hreader (now_at h)) as Hr. fold answer in Hr.
  rewrite (proj2 (Z.ltb_ge _ _) Hr) in *. cbn [snd] in Hcalm. set (h1 := emit _ h) in *.
  assert (steady id s h1) as Hst1 by (apply (calm_steady id s h h1 c); [apply calm_emitted|done|done]).
  destruct (read_calls_keep id s (ra_calls answer) Hs h1 c Hst1 Hc) as (Q1 & F1 & c' & Hc' & K & E1). split_and!; try done; [by eapply calm_steady|by exists c'].
Qed.

(** *** What is in the buffer *)

(** Buffers of one capacity, that have room for [n] bytes. *)
Context (cap : option Z).
Definition buffer_ok (b : B) : Prop := buf_wf b /\ buf_capacity b = cap.
Definition unread_ok c : Prop := match tc_unread_data c with Some b => buffer_ok b | None => True end.
Definition has_room (n : Z) : Prop := match cap with Some k => n <= k | None => True end /\
  forall b d, buffer_ok b -> zlen (buf_contents b) + zlen d <= n -> buf_fits b d.

Context (Hgood : buf_good (he_buf env)).

Lemma zlen_nil (xs : list Z) : zlen xs = 0 <-> xs = [].
Proof. unfold zlen. destruct xs; cbn; split; (done || lia). Qed.

(** What is taken of the data that was peeked. *)
Lemma drain_head b r : buffer_ok b -> let '(_, data, b1) := buf_peek (he_buf env) b in 0 < r <= zlen data ->
  let b' := buf_drain (he_buf env) r b1 in
  buffer_ok b' /\ take (Z.to_nat r) data ++ buf_contents b' = buf_contents b /\ zlen (buf_contents b') < zlen (buf_contents b).
Proof.
  intros [Hwf Hcap]. pose proof (buf_peek_spec (he_buf env) b Hwf Hgood) as Hp. pose proof (buf_drain_spec (he_buf env) (he_buf env) b r Hwf Hgood Hgood) as Hd.
  destruct (buf_peek (he_buf env) b) as [[err data] b1]. destruct Hp as (_ & _ & _ & _ & (rest & Hrest) & _). intros Hr.
  destruct Hd as (Hwf3 & Hcap3 & Hcont3); [lia|]. split_and!; [split; [done|congruence]| |].
  - rewrite Hcont3, Hrest. rewrite drop_app_le by (unfold zlen in *; lia). by rewrite app_assoc, take_drop.
  - rewrite Hcont3. unfold zlen in *. rewrite length_drop, Hrest, length_app. lia.
Qed.

(** Some of the buffer [b] was passed on: all of it if the connection is still read from, or the reader is willing. *)
Definition passed id s c b h (r : Z) h' (outs : list H2Out) : Prop :=
  r = 0 /\ steady id s h' /\ blameless h h' /\
  exists c' b', h_tcp_connections h' !! id = Some c' /\ TCF_STREAM_CLOSED c' = TCF_STREAM_CLOSED c /\ tc_unread_data c' = Some b' /\ buffer_ok b' /\
    delivered id outs ++ buf_contents b' = buf_contents b /\ (TCF_READ_ENABLED c' = true -> buf_contents b' = []) /\
    (TCF_READ_ENABLED c = true -> reader_willing -> buf_contents b' = []).

Lemma passed_nothing id s c b h outs : steady id s h -> h_tcp_connections h !! id = Some c -> tc_unread_data c = Some b -> buffer_ok b ->
  TCF_READ_ENABLED c && (0 <? zlen (buf_contents b)) = false -> h_out h = h_out h ++ outs -> passed id s c b h 0 h outs.
Proof.
  intros Hst Hc Hb Hok Eloop Eo. rewrite <- (app_nil_r (h_out h)) in Eo at 1. apply app_inv_head in Eo as <-.
  assert (TCF_READ_ENABLED c = true -> buf_contents b = []) as Hall.
  { intros Hen. rewrite Hen in Eloop. cbn in Eloop. apply Z.ltb_ge in Eloop. apply zlen_nil. unfold zlen in *. lia. }
  split_and!; [done|done|done|]. exists c, b. split_and!; try done. by intros Hen _; apply Hall.
Qed.

(** One turn of the loop. *)
Lemma read_turn id s c b h : stays env s -> steady id s h -> h_tcp_connections h !! id = Some c -> tc_unread_data c = Some b -> buffer_ok b ->
  let '(_, data, b1) := buf_peek (he_buf env) b in
  let h1 := set_connection id (c <| tc_unread_data := Some b1 |>) h in
  let answer := he_read env (now_at h1) in
  let '(r, h2) := handle_read env ng id data h1 in
  r = ra_result answer /\ steady id s h2 /\ blameless h h2 /\ unheard (emit (P_read id data r) h) h2 /\
  exists c2, h_tcp_connections h2 !! id = Some c2 /\ TCF_STREAM_CLOSED c2 = TCF_STREAM_CLOSED c /\ tc_unread_data c2 = Some b1 /\
    TCF_READ_ENABLED c2 = reads_on (ra_calls answer) (TCF_READ_ENABLED c).
Proof.
  intros Hs Hst Hc Hb Hok. destruct (buf_peek (he_buf env) b) as [[err data] b1]. cbv zeta. set (c1 := c <| tc_unread_data := Some b1 |>).
  set (h1 := set_connection id c1 h). assert (h_tcp_connections h1 !! id = Some c1) as Hc1 by (cbn; by rewrite lookup_insert_eq).
  assert (steady id s h1) as Hst1 by (apply (calm_steady id s h h1 c1); [by apply (calm_set id c)|done|done]).
  pose proof (handle_read_spec id s c1 data h1 Hst1 Hs Hc1) as Hr. cbv zeta in Hr. destruct (handle_read env ng id data h1) as [r h2].
  destruct Hr as (Er & Hst2 & _ & Hq & Hf & c2 & Hc2 & (K1 & K2 & K3) & Een). split_and!; [done|done| |done|by exists c2].
  transitivity h1; [apply set_quiet|done].
Qed.

(** The loop passes on what is in the buffer, a part or all of it. *)
Lemma read_out_loop_delivers id s : stays env s -> forall fuel h c b, steady id s h -> h_tcp_connections h !! id = Some c -> tc_unread_data c = Some b -> buffer_ok b ->
  zlen (buf_contents b) <= Z.of_nat fuel -> let '(r, h') := read_out_loop env ng fuel id h in
  forall outs, h_out h' = h_out h ++ outs -> Forall polite outs -> passed id s c b h r h' outs.
Proof.
  intros Hs. induction fuel as [|fuel IH]; intros h c b Hst Hc Hb Hok Hfuel; cbn [read_out_loop]; rewrite Hc, Hb, (buf_size_spec _ _ (proj1 Hok) Hgood).
  all: destruct (TCF_READ_ENABLED c && (0 <? zlen (buf_contents b))) eqn:Eloop; [|intros outs Eo _; by apply passed_nothing].
  { exfalso. apply andb_true_iff in Eloop as [_ Hpos%Z.ltb_lt]. lia. }
  pose proof (read_turn id s c b h Hs Hst Hc Hb Hok) as Hturn. pose proof (buf_peek_spec (he_buf env) b (proj1 Hok) Hgood) as Hp.
  pose proof (fun r => drain_head b r Hok) as Hd. destruct (buf_peek (he_buf env) b) as [[err data] b1]. destruct Hp as (Hwf1 & Hcap1 & Hcont1 & -> & _). cbv zeta in Hturn |- *.
  set (h1 := set_connection id _ h) in *. pose proof (rd_result Hreader (now_at h1)) as Hr0. pose proof (rd_stops Hreader (now_at h1)) as Hstop.
  pose proof (fun Hw : reader_willing => Hw (now_at h1)) as Hwill. destruct (handle_read env ng id data h1) as [r h2].
  destruct Hturn as (Er & Hst2 & Hf2 & (o1 & Eo1 & Hq1) & c2 & Hc2 & Ecl & Eb & Een). rewrite <- Er in *. clearbody h1.
  change (h_out (emit (P_read id data r) h)) with (h_out h ++ [P_read id data r]) in Eo1. destruct (Z.ltb_spec 0 r) as [Hr|Hr].
  - unfold update_connection. rewrite Hc2, Eb. cbn [fmap option_fmap option_map]. set (b3 := buf_drain (he_buf env) r b1). set (c3 := c2 <| tc_unread_data := Some b3 |>).
    set (h3 := set_connection id c3 h2). assert (h_tcp_connections h3 !! id = Some c3) as Hc3 by (cbn; by rewrite lookup_insert_eq).
    assert (steady id s h3) as Hst3 by (apply (calm_steady id s h2 h3 c3); [by apply (calm_set id c2)|done|done]).
    destruct (calm_out _ _ (lively_read_out_loop env ng (quietly_nghttp2 env Htame depth) fuel id h3 (st_alive _ _ _ Hst3) (st_deferred _ _ _ Hst3))) as (o2 & Eo2 & _).
    specialize (IH h3 c3 b3 Hst3 Hc3 eq_refl). destruct (read_out_loop env ng fuel id h3) as [r' h']. cbn [snd] in Eo2. intros outs Eo Hpol.
    assert (outs = P_read id data r :: o1 ++ o2) as ->.
    { change (h_out h3) with (h_out h2) in Eo2. rewrite Eo2, Eo1, <- !app_assoc in Eo. by apply app_inv_head in Eo. }
    apply Forall_cons in Hpol as [Hle [_ Hpol]%Forall_app]. cbn in Hle. destruct (Hd r) as (Hok3 & Ehead & Hless); [lia|].
    destruct (IH Hok3 ltac:(unfold b3; lia) o2 Eo2 Hpol) as (-> & Hst' & Hf' & c' & b' & Hc' & Ecl' & Eb' & Hok' & Edel & Hon & Hall).
    split_and!; [done|done|transitivity h2; [done|]; by transitivity h3; [apply set_quiet|]|]. exists c', b'. split_and!; try done.
    + by rewrite Ecl'.
    + change ((taken id (P_read id data r) ++ delivered id (o1 ++ o2)) ++ buf_contents b' = buf_contents b).
      rewrite <- app_assoc, delivered_app, (delivered_none id o1 Hq1), app_nil_l, Edel. cbn. by rewrite Z.eqb_refl.
    + intros Hen Hw. apply Hall; [|done]. cbn. rewrite Een, Hen. by apply Hwill.
  - assert (r = 0) as -> by lia. intros outs Eo Hpol. change (0 <? 0) with false in Eo |- *. cbv iota in Eo |- *. assert (outs = P_read id data 0 :: o1) as -> by (rewrite Eo1, <- app_assoc in Eo; by apply app_inv_head in Eo).
    split_and!; [done|done|done|]. exists c2, b1. split_and!; [done|done|done|split; [done|by rewrite Hcap1; apply Hok]| | |].
    + rewrite <- Hcont1. change (delivered id (P_read id data 0 :: o1)) with (taken id (P_read id data 0) ++ delivered id o1). rewrite (delivered_none id o1 Hq1).
      cbn. by rewrite Z.eqb_refl.
    + intros Hen. rewrite Een, Hstop in Hen; done.
    + intros _ Hw. destruct (Hwill Hw). lia.
Qed.

Definition read_out id s c h (r : Z) h' (outs : list H2Out) : Prop :=
  r = 0 /\ steady id s h' /\ blameless h h' /\
  exists c', h_tcp_connections h' !! id = Some c' /\ unread_ok c' /\ delivered id outs ++ unread c' = unread c /\
    TCF_STREAM_CLOSED c' = TCF_STREAM_CLOSED c /\ (TCF_READ_ENABLED c' = true -> unread c' = []) /\
    (TCF_READ_ENABLED c = true -> reader_willing -> unread c' = []) /\ (unread c' = [] -> tc_unread_data c' = None).

(** An empty buffer is not kept. *)
Lemma read_out_delivers id s h c : stays env s -> steady id s h -> h_tcp_connections h !! id = Some c -> unread_ok c ->
  let '(r, h') := read_out_pending_data env ng id h in forall outs, h_out h' = h_out h ++ outs -> Forall polite outs -> read_out id s c h r h' outs.
Proof.
  intros Hs Hst Hc Hok. unfold read_out_pending_data. rewrite Hc. destruct (tc_unread_data c) as [b|] eqn:Eb.
  - unfold unread_ok in Hok. rewrite Eb in Hok. rewrite (buf_size_spec _ _ (proj1 Hok) Hgood).
    pose proof (read_out_loop_delivers id s Hs (Z.to_nat (zlen (buf_contents b))) h c b Hst Hc Eb Hok ltac:(unfold zlen; lia)) as Hl.
    destruct (read_out_loop env ng _ id h) as [r h1].
    assert (h_out (release_buffer env id h1) = h_out h1) as Eout.
    { unfold release_buffer, need_connection, update_connection. destruct (h_tcp_connections h1 !! id) as [c1|] eqn:E1; cbn; by rewrite E1. }
    destruct (r <? 0) eqn:Er; intros outs Eo Hpol; rewrite ?Eout in Eo; destruct (Hl outs Eo Hpol) as (-> & Hst' & Hf & c' & b' & Hc' & Ecl & Eb' & Hok' & Edel & Hon & Hall); [done|].
    unfold release_buffer, need_connection, update_connection. rewrite Hc', Hc', Eb', (buf_size_spec _ _ (proj1 Hok') Hgood).
    assert (unread c = buf_contents b) as Eu by (unfold unread; by rewrite Eb).
    set (c2 := if _ =? 0 then _ else c'). assert (tc_unread_data c2 = if zlen (buf_contents b') =? 0 then None else Some b') as E2 by (subst c2; by destruct (_ =? 0)).
    assert (TCF_READ_ENABLED c2 = TCF_READ_ENABLED c' /\ TCF_STREAM_CLOSED c2 = TCF_STREAM_CLOSED c' /\ tc_stream_id c2 = tc_stream_id c' /\ (leaving c' -> leaving c2)) as (F1 & F2 & F3 & F4) by (subst c2; by destruct (_ =? 0)).
    assert (unread c2 = buf_contents b') as Eu2.
    { unfold unread. rewrite E2. destruct (Z.eqb_spec (zlen (buf_contents b')) 0) as [E0|]; [|done]. symmetry. by apply zlen_nil. }
    clearbody c2. assert (h_tcp_connections (set_connection id c2 h1) !! id = Some c2) as Hc2 by apply lookup_insert_eq. split_and!; [done| |transitivity h1; [done|apply set_quiet]|].
    + apply (calm_steady id s h1 _ c2); [|done|done]. apply (calm_set id c'); [done|done|done|congruence].
    + exists c2. rewrite Eu2, F1, F2, Eu. split_and!; [done| |done|done|done|done|].
      * unfold unread_ok. rewrite E2. by destruct (_ =? 0).
      * intros En. rewrite E2. apply zlen_nil in En. by rewrite En.
  - intros outs Eo _. rewrite <- (app_nil_r (h_out h)) in Eo at 1. apply app_inv_head in Eo as <-. split_and!; [done|done|done|]. exists c.
    assert (unread c = []) as Eu by (unfold unread; by rewrite Eb). by split_and!.
Qed.

(** *** What goes to the buffer *)

(** A push keeps the data at the end. *)
Lemma push_appends n b d : has_room n -> buffer_ok b -> zlen (buf_contents b) + zlen d <= n ->
  let '(err, b') := buf_push (he_buf env) d b in (d <> [] -> err = None) /\ buffer_ok b' /\ buf_contents b' = buf_contents b ++ d.
Proof.
  intros [Hcap Hfits] [Hwf Hb] Hn. pose proof (buf_push_spec (he_buf env) d b Hwf Hgood (Hfits b d (conj Hwf Hb) Hn)) as Hp. cbv zeta in Hp.
  destruct (buf_push (he_buf env) d b) as [err b']. destruct Hp as (Hwf' & Hcap' & Hcont & Herr). rewrite Hb in *.
  assert (match cap with Some k => k - zlen (buf_contents b) | None => zlen d end >= zlen d) as Hroom by (destruct cap; lia). split_and!.
  - intros Hd. destruct err as [e|]; [|done]. destruct (proj1 Herr ltac:(by eexists)) as [_ E0]. rewrite E0 in Hroom.
    destruct d; [done|]. unfold zlen in Hroom. cbn in Hroom. lia.
  - split; [done|congruence].
  - rewrite Hcont. f_equal. apply take_ge. unfold zlen in *. lia.
Qed.

(** Buffers can be made, and have room for [n] bytes. *)
Record buffers_ready (n id : Z) : Prop := mkReady {
  br_room : has_room n;
  br_init : he_buffer_init env = true;
  br_new : buffer_ok (he_make_buffer env id);
  br_empty : buf_contents (he_make_buffer env id) = [];
}.

(** The data goes behind what is unread, unless the buffer was released under the pointer to it. *)
Lemma keep_unread_appends n id c (pending : bool) d h : h_tcp_connections h !! id = Some c -> unread_ok c -> d <> [] ->
  buffers_ready n id -> zlen (unread c) + zlen d <= n -> (pending = false -> tc_unread_data c = None) ->
  let '(r, h') := keep_unread env id pending d h in
  r = 0 /\ h_out h' = h_out h /\
  ((h_faults h' = h_faults h /\ unread_of id h' = unread c ++ d) \/
   (pending = true /\ tc_unread_data c = None /\ h_faults h' = h_faults h ++ ["buffer is gone"%string] /\ unread_of id h' = [])).
Proof.
  intros Hc Hok Hd [Hroom Hinit Hnew Hempty] Hn Hpend. unfold keep_unread, unread_of. rewrite Hc. destruct pending.
  - unfold unread_ok, unread in *. destruct (tc_unread_data c) as [b|] eqn:Eb.
    + pose proof (push_appends n b d Hroom Hok Hn) as Hp. destruct (buf_push _ d b) as [err b']. destruct Hp as (Herr & _ & Hcont). rewrite (Herr Hd).
      split_and!; [done|done|]. left. cbn. by rewrite lookup_insert_eq.
    + split_and!; [done|done|]. right. cbn. by rewrite Hc, Eb.
  - rewrite Hinit. assert (unread c = []) as Eu by (unfold unread; by rewrite Hpend). rewrite Eu in *. change (zlen []) with 0 in Hn.
    pose proof (push_appends n (he_make_buffer env id) d Hroom Hnew ltac:(rewrite Hempty; exact Hn)) as Hp.
    destruct (buf_push _ d _) as [err b']. destruct Hp as (Herr & _ & Hcont). rewrite (Herr Hd), Hempty in *.
    split_and!; [done|done|]. left. cbn. rewrite lookup_insert_eq. by cbn.
Qed.

(** A connection that is read from is offered the data. *)
Lemma offered_data id s c data h : stays env s -> steady id s h -> h_tcp_connections h !! id = Some c -> (TCF_READ_ENABLED c = true -> unread c = []) ->
  let '(r, h') := if TCF_READ_ENABLED c then handle_read env ng id data h else (0, h) in
  0 <= r /\ blameless h h' /\ exists outs c', h_out h' = h_out h ++ outs /\ h_tcp_connections h' !! id = Some c' /\ tc_unread_data c' = tc_unread_data c /\
    delivered id outs ++ unread c ++ drop (Z.to_nat r) data = unread c ++ data.
Proof.
  intros Hs Hst Hc Hnil. destruct (TCF_READ_ENABLED c).
  - pose proof (handle_read_spec id s c data h Hst Hs Hc) as Hr. cbv zeta in Hr. pose proof (rd_result Hreader (now_at h)) as Hr0.
    destruct (handle_read env ng id data h) as [r h']. destruct Hr as (Er & _ & _ & (o & Eo & Hq) & Hf & c' & Hc' & (K1 & K2 & K3) & _). rewrite <- Er in Hr0.
    split_and!; [done|done|]. exists (P_read id data r :: o), c'. split_and!; [rewrite Eo; cbn; by rewrite <- app_assoc|done|done|].
    change (delivered id (P_read id data r :: o)) with (taken id (P_read id data r) ++ delivered id o). rewrite (delivered_none id o Hq), app_nil_r, Hnil by done.
    cbn. rewrite Z.eqb_refl. apply take_drop.
  - split_and!; [done|done|]. exists [], c. by rewrite app_nil_r.
Qed.

Lemma unread_left_none id c h : h_tcp_connections h !! id = Some c -> tc_unread_data c = None -> unread_left env id h = false.
Proof. intros Hc Hn. unfold unread_left. by rewrite Hc, Hn. Qed.

(** The last part of [handle_data]. *)
Lemma new_data_delivers n id s c (pending : bool) data h : stays env s -> steady id s h -> h_tcp_connections h !! id = Some c -> unread_ok c ->
  buffers_ready n id -> zlen (unread c) + zlen data <= n -> (pending = false -> tc_unread_data c = None) ->
  (TCF_READ_ENABLED c = true -> unread c = []) -> (unread c = [] -> tc_unread_data c = None) ->
  let '(r, h') :=
    let '(r, h) := if TCF_READ_ENABLED c then handle_read env ng id data h else (0, h) in
    if r <? 0 then (r, h) else if r <? zlen data then keep_unread env id pending (drop (Z.to_nat r) data) h else (0, h) in
  r = 0 /\ exists outs, h_out h' = h_out h ++ outs /\
    ((blameless h h' /\ delivered id outs ++ unread_of id h' = unread c ++ data) \/
     (pending = true /\ unread c = [] /\ last (h_faults h') = Some "buffer is gone"%string /\ unread_of id h' = [] /\
      exists lost, lost <> [] /\ delivered id outs ++ lost = data)).
Proof.
  intros Hs Hst Hc Hok Hready Hn Hpend Hen Hnil. pose proof (offered_data id s c data h Hs Hst Hc Hen) as Ho.
  destruct (if TCF_READ_ENABLED c then _ else _) as [r h1]. destruct Ho as (Hr & Hf & outs & c1 & Eo & Hc1 & Eb & Edel).
  rewrite (proj2 (Z.ltb_ge _ _) Hr). assert (unread c1 = unread c) as Eu by (unfold unread; by rewrite Eb). destruct (Z.ltb_spec r (zlen data)) as [Hlt|Hge].
  - assert (drop (Z.to_nat r) data <> []) as Hd by (intros Ed; apply (f_equal length) in Ed; rewrite length_drop in Ed; unfold zlen in *; cbn in *; lia).
    pose proof (keep_unread_appends n id c1 pending (drop (Z.to_nat r) data) h1 Hc1 ltac:(unfold unread_ok; by rewrite Eb) Hd Hready
      ltac:(rewrite Eu; unfold zlen in *; rewrite length_drop; lia) ltac:(by rewrite Eb)) as Hk.
    destruct (keep_unread env id pending _ h1) as [r' h']. destruct Hk as (-> & Eo' & Hk). split; [done|]. exists outs. split; [by rewrite Eo', Eo|].
    destruct Hk as [[Ef Hu]|(Hp & Hn1 & Ef & Hu)].
    + left. split; [|by rewrite Hu, Eu]. destruct Hf as (fs & E1 & H1). exists fs. by rewrite Ef.
    + right. assert (unread c = []) as Euc by (rewrite <- Eu; unfold unread; by rewrite Hn1). rewrite Euc in Edel. split_and!; [done|done|by rewrite Ef, last_snoc|done|].
      by exists (drop (Z.to_nat r) data).
  - split; [done|]. exists outs. split; [done|]. left. split; [done|]. unfold unread_of. rewrite Hc1, Eu, <- Edel. f_equal.
    rewrite drop_ge by (unfold zlen in *; lia). by rewrite app_nil_r.
Qed.

(** What was unread is offered first. *)
Lemma pending_data id s c h : stays env s -> steady id s h -> h_tcp_connections h !! id = Some c -> unread_ok c ->
  let pending := match tc_unread_data c with Some _ => true | None => false end in
  let '(r, h') := if pending then read_out_pending_data env ng id h else (0, h) in
  exists outs, h_out h' = h_out h ++ outs /\ (Forall polite outs -> r = 0 /\ steady id s h' /\ blameless h h' /\
    exists c', h_tcp_connections h' !! id = Some c' /\ unread_ok c' /\ delivered id outs ++ unread c' = unread c /\
      (pending = false -> tc_unread_data c' = None) /\ (TCF_READ_ENABLED c' = true -> unread c' = []) /\ (unread c' = [] -> tc_unread_data c' = None)).
Proof.
  intros Hs Hst Hc Hok pending. subst pending. destruct (tc_unread_data c) as [b|] eqn:Eb.
  - pose proof (read_out_delivers id s h c Hs Hst Hc Hok) as Hr.
    destruct (calm_out _ _ (lively_read_out env ng (quietly_nghttp2 env Htame depth) id h (st_alive _ _ _ Hst) (st_deferred _ _ _ Hst))) as (outs & Eo & _).
    destruct (read_out_pending_data env ng id h) as [r h1]. cbn [snd] in Eo. exists outs. split; [done|]. intros Hpol.
    destruct (Hr outs Eo Hpol) as (-> & Hst1 & Hf & c' & Hc' & Hok' & Edel & _ & Hon & _ & Hnone). split_and!; [done|done|done|]. by exists c'.
  - exists []. rewrite app_nil_r. split; [done|]. intros _. split_and!; [done|done|done|]. exists c. assert (unread c = []) as Eu by (unfold unread; by rewrite Eb).
    by split_and!.
Qed.

Lemma sound_steady id s c h : sound h -> deferred h -> h_tcp_connections h !! id = Some c -> tc_stream_id c = s -> steady id s h.
Proof. intros Hs Hd Hc Es. split; [apply Hs|apply Hs|done|apply (so_distinct _ Hs); by rewrite Hc|by exists c]. Qed.

(** C18. Data that arrives on the stream of a connection keeps its order: what the reader takes during the event, then
    what is in the buffer of the connection after it, is what was in the buffer before and then the data, and no
    assertion fails and no stale pointer is used on the way.  The reader may take any part of what it is offered, may
    turn the reading off and on and ask to close the connection each time; it does not fail, and stops the reading when
    it takes nothing, as the tunnel does.  The buffer is any that keeps its laws and has room; nghttp2 does not end the
    stream of the connection while a window update is sent.  There is one exception, and the theorem says exactly which:
    everything that was unread has been taken in this very event and some of the new data has not, and that rest is
    written to the buffer that was just released. *)
Theorem http2_data_in_order s data h id c : sound h -> deferred h -> get_conn_by_stream_id s h = Some (id, c) -> stays env s ->
  unread_ok c -> buffers_ready (zlen (unread c) + zlen data) id ->
  let '(r, h') := handle_data env ng s data h in
  exists outs, h_out h' = h_out h ++ outs /\ (Forall polite outs -> r = 0 /\
    ((blameless h h' /\ delivered id outs ++ unread_of id h' = unread c ++ data) \/
     (tc_unread_data c <> None /\ last (h_faults h') = Some "buffer is gone"%string /\ unread_of id h' = [] /\
      exists lost, lost <> [] /\ delivered id outs ++ lost = unread c ++ data))).
Proof.
  intros Hsound Hd Hconn Hs Hok Hready. pose proof Hconn as Hget. apply get_conn_some in Hget as [Ht Hc]. apply (so_agree _ Hsound) in Ht as (c0 & Hc0 & Es).
  rewrite Hc in Hc0. injection Hc0 as <-. destruct (so_apart _ Hsound id c Hc) as (Hudp & Hicmp & _). rewrite Es in Hudp, Hicmp.
  unfold handle_data. rewrite (bool_decide_eq_false_2 (UdpMux.get_stream_id _ = _)) by done.
  rewrite (bool_decide_eq_false_2 (IcmpMux.get_stream_id _ = _)) by done. rewrite Hconn. cbv zeta. pose proof (sound_steady id s c h Hsound Hd Hc Es) as Hst.
  pose proof (pending_data id s c h Hs Hst Hc Hok) as Hp. cbv zeta in Hp. set (pending := match tc_unread_data c with Some _ => true | None => false end) in *.
  assert (pending = true -> tc_unread_data c <> None) as Hpn by (subst pending; by destruct (tc_unread_data c)).
  assert (lively h (snd (if pending then read_out_pending_data env ng id h else (0, h)))) as Hl1 by (destruct pending; [by apply lively_read_out, quietly_nghttp2|done]).
  destruct (if pending then _ else _) as [r1 h1]. cbn [snd] in Hl1. clearbody pending. specialize (Hl1 (st_alive _ _ _ Hst) (st_deferred _ _ _ Hst)).
  destruct Hp as (outs1 & Eo1 & H1). destruct (r1 <? 0) eqn:Er1; [exists outs1; split; [done|]; intros Hpol; by destruct (H1 Hpol) as (-> & _)|].
  pose proof (lively_new_data env ng (quietly_nghttp2 env Htame depth) id pending data h1 (calm_alive _ _ Hl1 (st_alive _ _ _ Hst)) (calm_deferred _ _ Hl1 Hd)) as Hl2.
  cbv zeta in Hl2. destruct (calm_out _ _ Hl2) as (outs2 & Eo2 & _). clear Hl2. match goal with |- let '(_, _) := ?x in _ => set (y := x) in * end.
  destruct y as [r h'] eqn:Ey. cbn [snd] in Eo2. exists (outs1 ++ outs2). split; [by rewrite Eo2, Eo1, app_assoc|]. intros [Hpol1 Hpol2]%Forall_app.
  destruct (H1 Hpol1) as (_ & Hst1 & Hf1 & c' & Hc' & Hok' & Edel & Hpend & Hon & Hnone). subst y. unfold need_connection in Ey. rewrite Hc', Hc' in Ey.
  assert (TCF_READ_ENABLED c' && unread_left env id h1 = false) as Ea.
  { destruct (TCF_READ_ENABLED c'); [|done]. apply (unread_left_none id c'); auto. }
  rewrite Ea in Ey. pose proof (new_data_delivers (zlen (unread c) + zlen data) id s c' pending data h1 Hs Hst1 Hc' Hok' Hready) as Hnew.
  rewrite Ey in Hnew. destruct Hnew as (Er & outs2' & Eo2' & Hnew); [|done|done|done|].
  { apply (f_equal length) in Edel. rewrite length_app in Edel. unfold zlen in *. lia. }
  assert (outs2' = outs2) as -> by (rewrite Eo2 in Eo2'; by apply app_inv_head in Eo2'). split; [done|]. rewrite delivered_app, <- Edel, <- !app_assoc.
  destruct Hnew as [[Hf2 E2]|(Hp & Hu & Hlast & Hu' & lost & Hlost & E2)]; [left; split; [by transitivity h1|by rewrite E2]|right]. split_and!; [by apply Hpn|done|done|].
  exists lost. rewrite Hu, app_nil_l, <- app_assoc, E2. done.
Qed.
End Data.

Section CompleteRead.
Context {E B : Type} `{DataBuffer E B} `{SocketAddressLib} (env : H2Env (E := E) (B := B)) (cap : option Z).
Context (Htame : tame env) (Hreader : reader_ok env) (Hgood : buf_good (he_buf env)).
Implicit Types (h : Http2Upstream (B := B)) (id : Z) (c : TcpConnection (B := B)).



End CompleteRead.
