(* ===== verification/Http2Samples.v ===== *)
(** * Runs of the upstream over HTTP/2

    Instances of the theorems of [Http2Proofs] and [Http2Data] on concrete runs, with the buffer in
    memory, and runs in which the code does not do what it means to. *)

From stdpp Require Import gmap.
From S2P Require Import Prelude VpnTypes Wire DataBuffer DomainFilter DomainExtractor UdpMux Icmp Tunnel Http2 Http2Proofs Http2Data.

#[local] Existing Instance WireSample.lib.
#[local] Existing Instance MemoryBuffer.buffer.

Module Http2Run.
Abbreviation upstream := (Http2Upstream (B := MemoryBuffer.MemoryBuffer)).
Abbreviation environment := (H2Env (E := unit) (B := MemoryBuffer.MemoryBuffer)).

(** nghttp2 answers the calls listed, by what was put out before them, and receives only in [mem_recv]. *)
Definition sends (cb : NgCallback) : bool := match cb with CB_stream_close _ _ | CB_send _ | CB_data_source_read _ _ => true | _ => false end.
Definition answers (xs : list (nat * NgAnswer)) (n : nat) (c : NgCall) : NgAnswer :=
  let answer := match List.find (fun x => (fst x =? n)%nat) xs with Some x => snd x | None => mkNgAnswer 0 [] end in
  match c with NG_mem_recv _ => answer | _ => mkNgAnswer (na_result answer) (List.filter sends (na_callbacks answer)) end.

(** The reader does as the tunnel: it stops the reading when it takes nothing, and reports the room it has otherwise. *)
Definition answering (read : nat -> Z) (n : nat) : ReadAnswer :=
  mkReadAnswer (read n) (if read n <? 0 then [] else [CALL_update_flow_control (read n) (read n)]).

Definition env_with (xs : list (nat * NgAnswer)) (read : nat -> Z) (write init : bool) : environment :=
  mkH2Env 3 (answers xs) (fun _ => false) (fun _ => None) (fun _ => 1000) (fun _ => 65535) true 1 init (answering read) (fun _ => (write, false)) 1000
    (txt "h2") None true true true [] [] [] tt (fun _ => MemoryBuffer.new) true (fun _ => Some 407) (fun _ => []) (fun a => a) [] 1000 10 10.

Lemma env_tame xs read init : tame (env_with xs read true init).
Proof.
  split; [done|]. intros n c Hc. cbn. unfold answers. set (answer := match List.find _ xs with Some x => _ | None => _ end). clearbody answer.
  destruct c; try (by destruct (Hc data)); apply List.Forall_forall; intros cb Hcb; apply filter_In in Hcb as [_ Hcb]; by destruct cb.
Qed.

Definition run (xs : list (environment * H2Input)) (h : upstream) : upstream := fold_left (fun h x => http2_step (fst x) (snd x) h) xs h.

Definition quiet : environment := env_with [] (fun _ => 0) true true.
Definition addresses : TunnelAddressPair := mkPair (mkSocketAddress 0 [] 0) (TA_name [] 0).

(** A session with one connection. *)
Definition opening : list (environment * H2Input) :=
  [(quiet, H_open_session); (quiet, H_net TCP_SOCKET_EVENT_CONNECTED); (quiet, H_open_connection 10 addresses 6 [])].
Definition opened : upstream := run opening http2_new.

(** Bytes arrive for which nghttp2 makes the callbacks. *)
Definition arrive (h : upstream) (callbacks : list NgCallback) (read : nat -> Z) (more : list PeekResult) : environment * H2Input :=
  (env_with [(S (length (h_out h)), mkNgAnswer 5 callbacks)] read true true, H_net (TCP_SOCKET_EVENT_READABLE (PR_chunk [0] true :: more))).

(** Data for a connection that does not read yet; then it does. *)
Definition kept : upstream := run [arrive opened [CB_data_chunk_recv 1 [1; 2; 3]] (fun _ => 0) []] opened.
Definition reading : upstream := run [(quiet, H_update_flow_control 10 100 100)] kept.
End Http2Run.

(** ** The theorems on these runs *)

Lemma known_stream (env : Http2Run.environment) dst app (h : Http2Run.upstream) :
  match send_connect_request env (nghttp2 env (he_depth env)) dst app h with (Some s, h') => is_Some (stream_of s h') | _ => True end ->
  forall s h', send_connect_request env (nghttp2 env (he_depth env)) dst app h = (Some s, h') -> stream_of s h' <> None.
Proof. intros Hk s h' Es. rewrite Es in Hk. by destruct (stream_of s h'), Hk. Qed.

Lemma http2_opened_reachable : reachable (E := unit) Http2Run.opened.
Proof.
  unfold Http2Run.opened, Http2Run.run, Http2Run.opening. cbn [fold_left fst snd].
  apply reach_step; [|apply Http2Run.env_tame|].
  - apply reach_step; [|apply Http2Run.env_tame|by intros _]. apply reach_step; [apply reach_new|apply Http2Run.env_tame|done].
  - cbn [proper]. split_and!; [by vm_compute|by vm_compute|by vm_compute|]. apply known_stream. vm_compute. by eexists.
Qed.

Lemma http2_reading_reachable : reachable (E := unit) Http2Run.reading.
Proof.
  unfold Http2Run.reading, Http2Run.kept, Http2Run.run. cbn [fold_left fst snd Http2Run.arrive].
  apply reach_step; [|apply Http2Run.env_tame|done]. apply reach_step; [apply http2_opened_reachable|apply Http2Run.env_tame|done].
Qed.

Lemma http2_tables_agree_witness : http2_wf Http2Run.reading.
Proof. apply (http2_tables_agree (E := unit) Http2Run.reading), http2_reading_reachable. Defined.

(** The connection is closed, and nghttp2 closes the stream while it sends the reset. *)
Definition closing_env : Http2Run.environment :=
  Http2Run.env_with [(15%nat, mkNgAnswer 0 [CB_stream_close 1 NGHTTP2_CANCEL])] (fun _ => 0) true true.
Definition closing : H2Input := H_close_connection 10 false false.

Lemma http2_forgets_no_connection_witness :
  exists outs, h_out (http2_step closing_env closing Http2Run.reading) = h_out Http2Run.reading ++ outs /\ (1 <= h2_reports 10 outs)%nat.
Proof.
  apply (http2_forgets_no_connection closing_env closing Http2Run.reading 10);
    [apply http2_reading_reachable|apply Http2Run.env_tame|done|by vm_compute|by vm_compute].
Defined.

(** The reader takes all that waited, and all that arrives. *)
Definition taking : Http2Run.environment := Http2Run.env_with [] (fun _ => 3) true true.

Lemma taking_good : buf_good (he_buf taking).
Proof. exact I. Qed.

Lemma taking_reader : reader_ok taking.
Proof. by split. Qed.


Lemma taking_stays s : stays taking s.
Proof. intros n call code Hc Hin. destruct call; try (by destruct (Hc data)); by apply not_elem_of_nil in Hin. Qed.

Lemma memory_ready n id : n < 2 ^ 64 -> buffers_ready taking None n id.
Proof.
  intros Hn. split; [|done|done|done]. split; [done|]. intros b d [(Hs & _) _] Hlen. change (MemoryBuffer.fits b d). unfold MemoryBuffer.fits. rewrite Hs.
  change (zlen (MemoryBuffer.contents b) + zlen d <= n) in Hlen. lia.
Qed.

Definition reading_connection : TcpConnection (B := MemoryBuffer.MemoryBuffer) :=
  default (mkTcp 0 false false false None false None None) (h_tcp_connections Http2Run.reading !! 10).

Lemma reading_unread_ok : unread_ok None reading_connection.
Proof. vm_compute. split; [|done]. split_and!; [done|done|by repeat constructor|done]. Qed.

(** Only the reads need to be looked at. *)
Definition is_read (o : H2Out) : bool := match o with P_read _ _ _ => true | _ => false end.

Lemma polite_reads outs reads : List.filter is_read outs = reads -> Forall polite reads -> Forall polite outs.
Proof.
  intros <-. induction outs as [|o outs IH]; [constructor|]. cbn. destruct o; cbn; intros Hp; [| apply Forall_cons in Hp as [Hp1 Hp]| | | | | |];
    constructor; try exact I; auto.
Qed.

Lemma http2_data_in_order_witness :
  let '(r, h') := handle_data taking (nghttp2 taking 3) 1 [4; 5; 6] Http2Run.reading in
  exists outs, h_out h' = h_out Http2Run.reading ++ outs /\ r = 0 /\ delivered 10 outs ++ unread_of 10 h' = [1; 2; 3] ++ [4; 5; 6].
Proof.
  pose proof (http2_data_in_order taking 3 (Http2Run.env_tame _ _ _) taking_reader None taking_good 1 [4; 5; 6] Http2Run.reading 10 reading_connection
    ltac:(apply http2_reachable_wf, http2_reading_reachable) ltac:(by vm_compute) ltac:(by vm_compute) (taking_stays 1) reading_unread_ok ltac:(apply memory_ready; by vm_compute)) as Ht.
  set (y := handle_data _ _ _ _ _) in *.
  assert (List.filter is_read (drop (length (h_out Http2Run.reading)) (h_out (snd y))) = [P_read 10 [1; 2; 3] 3; P_read 10 [4; 5; 6] 3]) as Ey by by vm_compute.
  assert (h_faults (snd y) = []) as Ef by by vm_compute. assert (unread reading_connection = [1; 2; 3]) as Eu by by vm_compute. destruct y as [r h']. cbn [snd] in Ey, Ef.
  destruct Ht as (outs & Eo & Ht). exists outs. split; [done|]. rewrite Eo, drop_app_length in Ey. destruct Ht as [Er [[_ Ht]|(_ & Hl & _)]];
    [|split; [exact Er|]; rewrite Eu in Ht; exact Ht|by rewrite Ef in Hl].
  apply (polite_reads _ _ Ey). by repeat constructor.
Defined.


(** ** What the code does not do as meant *)

Definition since (h h' : Http2Run.upstream) : list H2Out := drop (length (h_out h)) (h_out h').

(** Unread data is read out and its buffer released; of the data that arrives with it the reader takes a part, and the
    rest is pushed through the pointer to the released buffer. *)
Theorem released_buffer_is_written :
  let h := Http2Run.run [Http2Run.arrive Http2Run.reading [CB_data_chunk_recv 1 [4; 5; 6]] (fun n => if (n =? 16)%nat then 3 else 1) []] Http2Run.reading in
  h_faults h = ["buffer is gone"%string] /\ delivered 10 (since Http2Run.reading h) = [1; 2; 3; 4] /\ unread_of 10 h = [].
Proof. by vm_compute. Qed.

(** The server asks for credentials and closes the connection of the socket: the session ends without an error. *)
Theorem authorization_error_is_lost :
  let h := Http2Run.run [Http2Run.arrive Http2Run.opened [CB_header 1 (txt ":status") (txt "407"); CB_frame_recv (F_headers 1 true false)]
                           (fun _ => 0) [PR_eof]] Http2Run.opened in
  let closed := Http2Run.run [Http2Run.arrive Http2Run.opened [CB_header 1 (txt ":status") (txt "407"); CB_frame_recv (F_headers 1 true false)]
                           (fun _ => 0) []] Http2Run.opened in
  last (since Http2Run.opened h) = Some (P_event SERVER_EVENT_SESSION_CLOSED) /\
  last (since Http2Run.opened closed) = Some (P_event (SERVER_EVENT_ERROR NON_ID VPN_EC_AUTH_REQUIRED)).
Proof. by vm_compute. Qed.

(** Data for a stream that is none of a connection makes the callback of nghttp2 return the length, which is not zero. *)
Theorem late_data_is_an_error :
  let h := Http2Run.run [(Http2Run.quiet, H_close_connection 10 false false); (Http2Run.quiet, H_do_health_check true)] Http2Run.opened in
  last (since h (Http2Run.run [Http2Run.arrive h [CB_data_chunk_recv 3 [7; 7]] (fun _ => 0) []] h)) = Some (N_returned 2).
Proof. by vm_compute. Qed.

(** A session that could not be made is reported as opened; the first bytes are given to a null pointer. *)
Theorem missing_session_is_opened :
  let h := Http2Run.run [(Http2Run.env_with [] (fun _ => 0) true false, H_net TCP_SOCKET_EVENT_CONNECTED)]
             (Http2Run.run [(Http2Run.quiet, H_open_session)] http2_new) in
  h_session h = false /\ last (h_out h) = Some (P_event SERVER_EVENT_SESSION_OPENED) /\
  h_faults (Http2Run.run [Http2Run.arrive h [] (fun _ => 0) []] h) = ["no session"%string].
Proof. by vm_compute. Qed.

(** The socket fails while a packet is sent: the session is destroyed under nghttp2, which called back. *)
Theorem failed_write_destroys_session :
  let h := Http2Run.run [(Http2Run.env_with [(9%nat, mkNgAnswer 0 [CB_send [1]])] (fun _ => 0) false true, H_send 10 [1; 2])] Http2Run.opened in
  h_session h = false /\ "session is destroyed while it runs"%string ∈ h_faults h.
Proof. split; [by vm_compute|]. apply (bool_decide_eq_true_1 (_ ∈ _)). by vm_compute. Qed.

(** The socket fails while the end of the session is sent: the connections go without a word. *)
Theorem failed_goaway_forgets_connections :
  let h := Http2Run.run [(Http2Run.env_with [(11%nat, mkNgAnswer 0 [CB_send [1]])] (fun _ => 0) false true, H_close_session)] Http2Run.opened in
  h_tcp_connections Http2Run.opened !! 10 <> None /\ h_tcp_connections h !! 10 = None /\ h2_reports 10 (since Http2Run.opened h) = 0%nat.
Proof. by vm_compute. Qed.

(** A connection that cannot be read makes the callback of nghttp2 fail, and with it the session of all connections. *)
Theorem failed_read_fails_callback :
  last (since Http2Run.reading (Http2Run.run [Http2Run.arrive Http2Run.reading [CB_data_chunk_recv 1 [4; 5; 6]] (fun _ => -1) []] Http2Run.reading))
  = Some (N_returned (-1)).
Proof. by vm_compute. Qed.

(** The socket fails while the request of a new connection is sent: the session is closed, and the connection is stored
    nevertheless and reported as being opened. *)
Theorem failed_write_leaves_connection :
  let h := Http2Run.run (take 2 Http2Run.opening) http2_new in
  let env := Http2Run.env_with [(S (length (h_out h)), mkNgAnswer 0 [CB_send [1]])] (fun _ => 0) false true in
  let '(ok, h') := open_connection env 10 Http2Run.addresses 6 [] h in
  ok = true /\ h_session h = true /\ h_session h' = false /\ last (h_out h') = Some (P_event (SERVER_EVENT_ERROR NON_ID VPN_EC_ERROR)) /\
  h_tcp_connections h' !! 10 <> None.
Proof. by vm_compute. Qed.

(** nghttp2 ends the stream of the connection while the window update is sent that its reader asked for: the buffer of
    the connection that is gone is read on. *)
Theorem window_update_ends_connection :
  let n := length (h_out Http2Run.reading) in
  let env := Http2Run.env_with [(S (S n), mkNgAnswer 0 [CB_stream_close 1 NGHTTP2_CANCEL])] (fun _ => 3) true true in
  h_faults (complete_read env 10 Http2Run.reading) = ["connection is gone"; "connection is gone"; "connection is gone"; "connection is gone"]%string.
Proof. by vm_compute. Qed.
